(* ===== verification/_CoqProject ===== *)
-Q . S2P
Prelude.v
BitExtractors.v
BitFields.v
Checked.v
BitWriter.v
Latm.v
Crc.v
Galois.v
ReedSolomon.v
FieldCode.v
RsDecoder.v
Firecode.v
Viterbi.v
Protection.v
Backend.v
AirCoding.v
ChannelCode.v
MscHandler.v
FreqInterleaver.v
FibConfig.v
FibFig0.v
FibDecoder.v
FibInvariant.v
FibProperties.v
FicDecoder.v
FicReception.v
MotObject.v
MotHandler.v
DataProcessor.v
PadHandler.v
PadProperties.v
PadMot.v
Mp4Processor.v
Mp4Properties.v
EpgDecoder.v
EpgProperties.v
RingBuffer.v
RingThreads.v
DataHandlers.v
EtiGenerator.v
EtiProperties.v
EtiRecording.v
Mp2Tables.v
Mp2Decoder.v
Mp2Standard.v
Mp2Properties.v
Mp2Synthesis.v
Mp2Frames.v
Mp2Processor.v
Mp2Stream.v
Mp2Limits.v
BackendDriver.v
F32.v
SyncSearch.v
Receiver.v
ReceiverSafety.v
ReceiverDelivery.v
