(* ===== verification/Prelude.v ===== *)
(** * DABstar verification: prelude (root file)

    DABstar is a receiver for DAB and DAB+ digital radio.  This library models
    the part of it that is its own logic: the thread that reads the samples and
    finds the frames, everything between the soft bits of the OFDM decoder and the
    audio decoder, MPEG layer II audio, the data services, and the recording of the
    multiplex.

    ** The parts of the program and how they interact

    The receiver thread (src/src/base/main/dab_processor.cpp, [Receiver]) reads
    the samples of a device (src/src/devices), looks for the null symbol
    ([TimeSyncer]) and for the peaks of the correlation with the phase reference
    symbol ([PhaseReference]), and has the OFDM decoder turn each symbol of the
    frame into soft bits.  It gives those to the FIC decoder (symbols 1 to 3), to
    the MSC handler (symbols 4 to 75) and, when a recording runs, to the ETI
    generator.  The other threads start and stop services and recordings between
    two symbols.

    The fast information channel: [FicDecoder] cuts the FIC symbols into blocks,
    depunctures and Viterbi-decodes them and hands the FIBs with a right CRC to
    [FibDecoder], which collects the configuration of the multiplex and answers
    the queries of the application (which service is in which sub-channel, with
    which protection).

    The main service channel: [MscHandler] assembles the symbols of a CIF and
    calls each running [Backend] with its capacity units.  A backend
    de-interleaves in time, depunctures ([Protection]), decodes ([Viterbi]) and
    descrambles, and gives the logical frames to its [BackendDriver], which chose a
    frame processor by the kind of service: for DAB audio [Mp2Processor] (frames,
    PAD, synthesis filter), for DAB+ audio [Mp4Processor] (fire code,
    Reed-Solomon, access units, CRC), for packet mode [DataProcessor], which
    chose a data handler by the type of the service component: MOT, IP or TDC.
    Programme associated data goes to the [PadHandler]; MOT objects of both ways
    come together in [MotObject]; the programme guide among them is read by
    [EpgDecoder].

    The ETI generator decodes all sub-channels again, with the configuration of
    [FibDecoder], into frames of a file.

    ** Files

    Shared:
    - Prelude.v: machine integers ([u8] .. [i32] as wrap-around on [Z]), arrays
      as lists with [rd] and [wr], bit lists, loops ([zfor], [zforM], [while]),
      the tactics and the hint database [dab];
    - BitExtractors.v: src/src/base/main/bit_extractors.h;
    - BitFields.v: numbers as bit lists, for specifications and encoders;
    - Checked.v: reads and writes that give [None] outside of a buffer;
    - F32.v: single precision numbers.

    Receiver thread:
    - SyncSearch.v: src/src/base/ofdm/timesyncer.cpp, and the search for the peaks
      in phasereference.cpp;
    - Receiver.v: src/src/base/main/dab_processor.cpp, and the loop of
      [discard_samples] in sample_reader.cpp;
    - ReceiverSafety.v, ReceiverDelivery.v: the theorems about it.

    Codes:
    - Crc.v: src/src/base/backend/crc.cpp; Galois.v: galois.cpp; ReedSolomon.v:
      reed_solomon.cpp; Firecode.v: firecode_checker.cpp;
    - FieldCode.v, RsDecoder.v: the algebra of Reed-Solomon decoding over any
      field of characteristic two, and the decoder as an instance;
    - Viterbi.v: src/src/base/support/viterbi_spiral (portable kernel);
    - Protection.v: src/src/base/protection, and the UEP table of
      src/src/base/decoder/fib_table.h;
    - FreqInterleaver.v: src/src/base/ofdm/freq_interleaver.cpp;
    - AirCoding.v: the channel coding of EN 300 401 (generators, puncturing vectors
      and profiles, dispersal), written down without the code's tables, and where
      the code agrees with it;
    - ChannelCode.v: what such an encoder sends is received.

    Main service channel:
    - Backend.v: src/src/base/backend/backend.cpp, backend_deconvolver.cpp;
    - MscHandler.v: msc_handler.cpp;
    - BackendDriver.v: backend_driver.cpp and the constructor of
      data_processor.cpp; backends with their drivers under the MSC handler;
    - BitWriter.v, Latm.v: src/src/base/backend/audio/bit_writer.cpp and
      [_build_aac_stream] of mp4processor.cpp;
    - Mp4Processor.v, Mp4Properties.v: the rest of mp4processor.cpp;
    - Mp2Tables.v, Mp2Decoder.v, Mp2Processor.v: mp2processor.cpp;
      Mp2Standard.v: the tables and formulas of ISO 11172-3 and 13818-3, written
      down without those of the code; Mp2Properties.v, Mp2Synthesis.v, Mp2Frames.v,
      Mp2Stream.v, Mp2Limits.v: the theorems about it, from the bit reader to a
      stream of frames.

    Fast information channel:
    - FibConfig.v, FibFig0.v, FibDecoder.v: src/src/base/decoder/fib_config_fig0,
      fib_config_fig1, fib_decoder_fig0, fib_decoder_fig1, fib_decoder, and
      src/src/base/backend/charsets.cpp;
    - FibInvariant.v, FibProperties.v: the theorems about them;
    - FicDecoder.v: fic_decoder.cpp; FicReception.v: sent FIBs are received.

    Data services (src/src/base/backend/data):
    - MotObject.v, MotHandler.v: mot/mot_object.cpp, mot_dir.cpp, mot_handler.cpp;
    - DataProcessor.v: data_processor.cpp and the interface
      [VirtualDataHandler] of virtual_datahandler.h;
    - DataHandlers.v: ip_datahandler.cpp, tdc_datahandler.cpp;
    - PadHandler.v, PadProperties.v, PadMot.v: pad_handler.cpp;
    - EpgDecoder.v, EpgProperties.v: epg_2/epg_decoder.cpp.

    Recording:
    - EtiGenerator.v, EtiProperties.v, EtiRecording.v:
      src/src/base/eti_handler/eti_generator.cpp.

    Between the threads:
    - RingBuffer.v, RingThreads.v: src/src/common/ringbuffer.h.

    ** How the code is translated

    A class is a [Record] with its members, a method a function on it that
    returns the changed record.  Integers are [Z] reduced to the width of the C++
    type wherever the code can leave the range; [f32] is the binary32 format of
    the Standard Library, with its rounding and its NaN.  Emitted Qt signals are
    values, in the order of emission.  The specifications of
    senders - encoders of FIBs, packets, data groups, super frames, audio frames -
    are definitions of their own; check sums in them are those of Crc.v.  A failing [assert], or a read or
    write outside of a buffer, is [None] ([Outside] in EpgDecoder.v, [Fault] in
    SyncSearch.v and Receiver.v, where [Thrown] is the exception of a stopped
    sample reader): a theorem that an operation gives [Some] therefore says that
    neither happens, and the unchecked accesses that were found are lemmas with
    [None] as conclusion.  Log output and values that are only printed are left
    out.

    Where the code calls through a base class or a reference to another
    component, the model has a class with the operations used: [ServiceBackend]
    (what the MSC handler uses of a backend), [FrameProcessor] (what a backend
    uses of its driver), [VirtualDataHandler] (what the packet processor uses of a
    data handler), [SampleSource] (what the time synchroniser uses of the sample
    reader) and [SignalPath] (what the receiver thread uses of the signal
    processing, with its laws in [SignalLaws]).  Theorems on the caller hold for
    every instance.

    Parameters also stand for code that is not part of the repository, or is Qt:
    the conversions of [QString] (the argument [qt] of FibDecoder.v, the class
    [QString] of EpgDecoder.v), the AAC decoder (the class [AacDecoder] of
    Mp4Processor.v).  The witnesses use concrete ones.

    Loops that are not structural carry fuel, and are shown not to use it up:
    32 passes for the loops over the bytes of a FIG (a FIB has 30, every pass
    takes at least one), 31 FIGs per FIB, 40 passes for the fields of an alarm
    announcement, the header size + 1 for the parameters of a MOT header, the
    number of 24 byte units + 1 for the packets of a frame, the number of bits
    + 2 for the bit writer, the length of the group + 1 for the loops of the TDC
    handler, 3 for refilling the window of the MPEG bit reader, the length of the
    object + 1 for every loop of the programme guide, which is nested as deep as
    its elements, the limits of the two phases + 2 for the time synchroniser, the
    length of a symbol + 2 for the peak search, and the number of samples + 1 for
    discarding them.  The receiver thread itself does not end; its theorems are
    about all finite sequences of its steps.

    ** What the theorems show

    - Codes: the Viterbi decoder is a maximum likelihood decoder; Reed-Solomon
      words are recovered with up to five damaged symbols, and left as they were
      when the decoder gives up; the two CRC routines are the same function and
      detect bursts; the fire code repairs what its table promises, and never
      accepts a wrong word; the bit extraction and the frequency interleaver are
      what their definitions in the standard say.
    - Protection: the puncturing of every EEP profile, and of every row of the UEP
      table but one (80 kbit/s, level 1), has exactly the size of the sub-channel; what
      the encoder of the standard sends is decoded, for soft values with the right
      signs, and in all sub-channels but those of that row.
    - Main service channel: the transmitted frames are delivered, in order and
      complete, from symbols to CIFs to logical frames to access units.
    - DAB audio: every frame of a stream is found, its PAD goes to the PAD handler,
      and its samples are those of the formulas of the standard, rounded as the
      code rounds, in integers of any size.  Two places where the code departs from
      the standard are excepted by name: the 32767 level quantizer of two tables,
      and the scale factor CRC of stereo frames of 56 to 111 kbit/s.
    - Fast information channel: exactly the FIBs with a right CRC are used; every
      sequence of FIBs, valid or not, is processed to its end and leaves a
      configuration whose queries fit the backend; the loading state only rises;
      FIBs sent as the standard says are received.
    - Data services: packets and X-PAD contents are reassembled; a MOT object is
      delivered exactly when it is complete, in any order of its segments; labels
      are shown once and complete; IP packets and TDC frames are passed on; a
      programme guide gives the announced programmes, and its decoder ends.
    - Recording: the frames of the ETI file describe what they hold, and their
      streams are what the backends deliver.
    - Receiver thread: the time synchroniser ends and answers by the level of the
      samples; the position of the peak is in the symbol; without NaN among the
      magnitudes, failing services, ETI recording and FIC dump, no sequence of samples
      and calls makes an assert fail or overruns a buffer; over any number of
      frames in lock the FIBs that were sent reach the FIB decoder and every running
      service gets its logical frames.
    - Ring buffers: a bounded queue, safe between two threads without a lock.

    ** What is not modelled

    The signal processing behind [SignalPath]: the FFTs of fftw3, the
    equalisation and the soft bits of the OFDM decoder, the correction of frequency
    offsets, the TII detector, and the oscillator, level meter and filters of the
    sample reader.  Its values are sums of products in single precision, of which
    the code promises no more than [SignalLaws] states.

    A FIG whose length leads behind the end of its FIB is read there in the code
    from the next bytes of the buffer, in the model as zeros.

    The ring buffers that several services share are modelled as the one service
    that fills them leaves them.  The build with one thread per backend
    ([__THREADED_BACKEND__]) is off by default and left out.

    The user interface, data bases, files, sockets, device drivers, and audio
    output are calls of Qt and of vendor libraries; the texts of the FIB
    configuration for the user are formatting.  The AAC libraries and Journaline
    are not code of this program.  The SIMD variants of the Viterbi kernel compute
    what the scalar one does, with intrinsics that are not modelled. *)
From Stdlib Require Export ZArith Lia List Bool Btauto.
From stdpp Require Export base list list_numbers numbers.
From stdpp Require Export tactics.

Open Scope Z_scope.

(** ** Fixed-width integers: [u8], [u16], ... truncate a value the way an
    assignment to the C++ type does; [i8], [i16], [i32] reduce it to the
    two's-complement range. *)
Definition uwrap (w z : Z) : Z := z mod 2 ^ w.
Definition swrap (w z : Z) : Z := (z + 2 ^ (w - 1)) mod 2 ^ w - 2 ^ (w - 1).

Abbreviation u8 := (uwrap 8).
Abbreviation u16 := (uwrap 16).
Abbreviation u32 := (uwrap 32).
Abbreviation u64 := (uwrap 64).
Abbreviation i8 := (swrap 8).
Abbreviation i16 := (swrap 16).
Abbreviation i32 := (swrap 32).

(** ** Arrays.  A C array or [std::vector] is a list; [rd a i] is [a[i]] and
    [wr a i v] is [a[i] = v].  Both are undefined behaviour out of range in
    the source; [rd] then gives 0 and [wr] leaves the list alone, and the
    theorems that matter carry the length hypotheses that rule this out. *)
Definition rd (l : list Z) (i : Z) : Z :=
  if i <? 0 then 0 else nth (Z.to_nat i) l 0.
Definition wr {A} (l : list A) (i : Z) (v : A) : list A :=
  if i <? 0 then l else <[Z.to_nat i := v]> l.
Definition zlen {A} (l : list A) : Z := Z.of_nat (length l).
Definition zeros (n : Z) : list Z := replicate (Z.to_nat n) 0.

(** [data[r][c]] and [data[r][c] = v] *)
Definition rd2 (data : list (list Z)) (r c : Z) : Z := rd (nth (Z.to_nat r) data []) c.
Definition wr2 (data : list (list Z)) (r c v : Z) : list (list Z) :=
  wr data r (wr (nth (Z.to_nat r) data []) c v).

(** [slice l off n] is the [n] elements from index [off] (pointer arithmetic
    [l + off], or a [memcpy] source). *)
Definition slice {A} (l : list A) (off n : Z) : list A :=
  take (Z.to_nat n) (drop (Z.to_nat off) l).

(** ** Counted loops: [zfor lo hi body s] is
    [for (i = lo; i < hi; i++) s = body(i, s)], [zdownto hi lo body s] is
    [for (i = hi; i >= lo; i--) s = body(i, s)]. *)
Definition zfor {S} (lo hi : Z) (body : Z -> S -> S) (s : S) : S :=
  fold_left (fun s i => body i s) (seqZ lo (hi - lo)) s.
Definition zdownto {S} (hi lo : Z) (body : Z -> S -> S) (s : S) : S :=
  fold_left (fun s i => body i s) (rev (seqZ lo (hi - lo + 1))) s.

(** The same loops with a body that may fail ([None], a failed [assert]). *)
Definition zforM {S} (lo hi : Z) (body : Z -> S -> option S) (s : S) : option S :=
  zfor lo hi (fun i r => r ≫= body i) (Some s).

(** ** Predicates on values, as booleans. *)
Definition is_byteb (z : Z) : bool := (0 <=? z) && (z <? 256).
Definition is_bitb (z : Z) : bool := (0 <=? z) && (z <? 2).
Definition is_byte (z : Z) : Prop := 0 <= z < 256.
Definition is_bit (z : Z) : Prop := 0 <= z < 2.
Definition b2z (b : bool) : Z := if b then 1 else 0.

(** ** The prelude's automation *)
Create HintDb dab.

(** [zbool]: turn boolean comparisons in the context and goal into [Prop]. *)
Ltac zbool :=
  repeat match goal with
  | H : (_ && _)%bool = true |- _ => apply andb_true_iff in H; destruct H
  | H : (_ || _)%bool = false |- _ => apply orb_false_iff in H; destruct H
  | H : negb _ = true |- _ => apply negb_true_iff in H
  | H : negb _ = false |- _ => apply negb_false_iff in H
  | H : (_ =? _) = true |- _ => apply Z.eqb_eq in H
  | H : (_ =? _) = false |- _ => apply Z.eqb_neq in H
  | H : (_ <? _) = true |- _ => apply Z.ltb_lt in H
  | H : (_ <? _) = false |- _ => apply Z.ltb_ge in H
  | H : (_ <=? _) = true |- _ => apply Z.leb_le in H
  | H : (_ <=? _) = false |- _ => apply Z.leb_gt in H
  | |- (_ =? _) = true => apply Z.eqb_eq
  | |- (_ <? _) = true => apply Z.ltb_lt
  | |- (_ <=? _) = true => apply Z.leb_le
  | |- (_ && _)%bool = true => apply andb_true_iff; split
  end.

(** [zcases]: split every integer comparison that an [if] tests. *)
Ltac zcase_one :=
  match goal with
  | |- context [if (?a <? ?b) then _ else _] => destruct (Z.ltb_spec a b)
  | |- context [if (?a <=? ?b) then _ else _] => destruct (Z.leb_spec a b)
  | |- context [if (?a =? ?b) then _ else _] => destruct (Z.eqb_spec a b)
  end.
Ltac zcases := repeat zcase_one.

(** [xor_ac]: equations between exclusive-or terms. *)
Ltac xor_ac :=
  apply Z.bits_inj'; intros ? _; rewrite ?Z.lxor_spec, ?Z.bits_0; btauto.

(** [bind H]: run one step of an option computation with the equation [H]. *)
Ltac bind H := rewrite H; cbn [mbind option_bind].

(** ** Integers *)
Lemma uwrap_range w z : 0 <= w -> 0 <= uwrap w z < 2 ^ w.
Proof. intros. apply Z.mod_pos_bound. apply Z.pow_pos_nonneg; lia. Qed.

Lemma uwrap_small w z : 0 <= z < 2 ^ w -> uwrap w z = z.
Proof. apply Z.mod_small. Qed.

Lemma u8_range z : is_byte (u8 z).
Proof. apply (uwrap_range 8); lia. Qed.

Lemma u8_small z : is_byte z -> u8 z = z.
Proof. apply (uwrap_small 8). Qed.

Lemma swrap_range w z : 1 <= w -> - 2 ^ (w - 1) <= swrap w z < 2 ^ (w - 1).
Proof.
  intros Hw. unfold swrap.
  assert (2 ^ w = 2 * 2 ^ (w - 1)) as E
    by (rewrite <- Z.pow_succ_r by lia; f_equal; lia).
  pose proof (Z.mod_pos_bound (z + 2 ^ (w - 1)) (2 ^ w)).
  pose proof (Z.pow_pos_nonneg 2 (w - 1)). lia.
Qed.

Lemma swrap_small w z : 1 <= w -> - 2 ^ (w - 1) <= z < 2 ^ (w - 1) -> swrap w z = z.
Proof.
  intros Hw Hz. unfold swrap.
  assert (2 ^ w = 2 * 2 ^ (w - 1)) as E
    by (rewrite <- Z.pow_succ_r by lia; f_equal; lia).
  rewrite Z.mod_small; lia.
Qed.

Lemma i16_small z : -32768 <= z < 32768 -> i16 z = z.
Proof. intros. apply swrap_small; [lia | exact H]. Qed.

Lemma i32_small z : -2147483648 <= z < 2147483648 -> i32 z = z.
Proof. intros. apply swrap_small; [lia | exact H]. Qed.

(** A non-negative integer is below [2^n] exactly when its bits from [n] on
    are clear. *)
Lemma bits_high_range n z :
  0 <= n -> 0 <= z -> (forall i, n <= i -> Z.testbit z i = false) -> z < 2 ^ n.
Proof.
  intros Hn Hz H. rewrite <- (Z.mod_small z (2 ^ (Z.max n (Z.log2 z + 1)))).
  - assert (z mod 2 ^ Z.max n (Z.log2 z + 1) = z mod 2 ^ n) as ->.
    { apply Z.bits_inj'. intros i Hi.
      destruct (Z.lt_ge_cases i n) as [Hin|Hin].
      - rewrite !Z.mod_pow2_bits_low by lia. done.
      - rewrite (Z.mod_pow2_bits_high z n) by lia.
        destruct (Z.lt_ge_cases i (Z.max n (Z.log2 z + 1))).
        + rewrite Z.mod_pow2_bits_low by lia. apply H. lia.
        + apply Z.mod_pow2_bits_high. lia. }
    apply Z.mod_pos_bound. apply Z.pow_pos_nonneg; lia.
  - split; [done|]. destruct (Z.eq_dec z 0) as [->|].
    + apply Z.pow_pos_nonneg; lia.
    + eapply Z.lt_le_trans; [apply Z.log2_spec; lia|].
      apply Z.pow_le_mono_r; lia.
Qed.

Lemma testbit_high z n i : 0 <= z < 2 ^ n -> n <= i -> Z.testbit z i = false.
Proof.
  intros Hz Hi. destruct (Z.lt_ge_cases n 0).
  - rewrite Z.pow_neg_r in Hz by done. lia.
  - rewrite <- (Z.mod_small z (2 ^ n)) by done. apply Z.mod_pow2_bits_high. lia.
Qed.

Lemma lxor_range n a b :
  0 <= n -> 0 <= a < 2 ^ n -> 0 <= b < 2 ^ n -> 0 <= Z.lxor a b < 2 ^ n.
Proof.
  intros Hn Ha Hb. assert (0 <= Z.lxor a b) by (apply Z.lxor_nonneg; lia).
  split; [done|]. apply bits_high_range; [done..|]. intros i Hi.
  rewrite Z.lxor_spec, (testbit_high a n), (testbit_high b n) by done. done.
Qed.

Lemma lor_range n a b :
  0 <= n -> 0 <= a < 2 ^ n -> 0 <= b < 2 ^ n -> 0 <= Z.lor a b < 2 ^ n.
Proof.
  intros Hn Ha Hb. assert (0 <= Z.lor a b) by (apply Z.lor_nonneg; lia).
  split; [done|]. apply bits_high_range; [done..|]. intros i Hi.
  rewrite Z.lor_spec, (testbit_high a n), (testbit_high b n) by done. done.
Qed.

Lemma land_range n a b : 0 <= n -> 0 <= b < 2 ^ n -> 0 <= Z.land a b < 2 ^ n.
Proof.
  intros Hn Hb. assert (0 <= Z.land a b) by (apply Z.land_nonneg; lia).
  split; [done|]. apply bits_high_range; [done..|]. intros i Hi.
  rewrite Z.land_spec, (testbit_high b n), andb_false_r by done. done.
Qed.

Lemma uwrap_testbit w z i :
  0 <= w -> 0 <= i -> Z.testbit (uwrap w z) i = (i <? w) && Z.testbit z i.
Proof.
  intros Hw Hi. unfold uwrap. destruct (Z.ltb_spec i w).
  - by rewrite Z.mod_pow2_bits_low.
  - by rewrite Z.mod_pow2_bits_high by lia.
Qed.

Lemma uwrap_lxor w a b : 0 <= w -> uwrap w (Z.lxor a b) = Z.lxor (uwrap w a) (uwrap w b).
Proof.
  intros Hw. apply Z.bits_inj'. intros i Hi.
  rewrite Z.lxor_spec, !uwrap_testbit, Z.lxor_spec by done.
  by destruct (i <? w).
Qed.

(** Two [w]-bit values with the same low [w] bits are equal. *)
Lemma bits_ext w a b :
  0 <= a < 2 ^ w -> 0 <= b < 2 ^ w ->
  (forall i, 0 <= i < w -> Z.testbit a i = Z.testbit b i) -> a = b.
Proof.
  intros Ha Hb H. apply Z.bits_inj'. intros i Hi.
  destruct (Z.lt_ge_cases i w); [apply H; lia|].
  by rewrite (testbit_high a w), (testbit_high b w).
Qed.

Lemma lxor_byte a b : is_byte a -> is_byte b -> is_byte (Z.lxor a b).
Proof. apply (lxor_range 8); lia. Qed.

Lemma lxor_bit a b : is_bit a -> is_bit b -> is_bit (Z.lxor a b).
Proof. apply (lxor_range 1). lia. Qed.

Lemma forall_bits01 l : forallb is_bitb l = true -> Forall is_bit l.
Proof.
  intros Hl. apply List.Forall_forall. intros x Hx. rewrite forallb_forall in Hl. specialize (Hl x Hx).
  unfold is_bitb, is_bit in *. lia.
Qed.

Lemma is_byteb_spec z : is_byteb z = true <-> is_byte z.
Proof. unfold is_byteb, is_byte. lia. Qed.

Lemma is_byte_0 : is_byte 0.
Proof. unfold is_byte. lia. Qed.

Lemma is_bit_0 : is_bit 0.
Proof. unfold is_bit. lia. Qed.

#[export] Hint Resolve u8_range lxor_byte is_byte_0 is_bit_0 : dab.

(** Joining disjoint bit fields is addition. *)
Lemma lor_add_disjoint n a b :
  0 <= n -> 0 <= b < 2 ^ n -> Z.lor (a * 2 ^ n) b = a * 2 ^ n + b.
Proof.
  intros Hn Hb. symmetry. rewrite <- Z.shiftl_mul_pow2 by done.
  rewrite Z.add_nocarry_lxor.
  - apply Z.bits_inj'. intros i Hi. rewrite Z.lxor_spec, Z.lor_spec.
    destruct (Z.lt_ge_cases i n).
    + rewrite Z.shiftl_spec_low by done. done.
    + rewrite (testbit_high b n) by done. by destruct (Z.testbit _ i).
  - apply Z.bits_inj'. intros i Hi. rewrite Z.land_spec, Z.bits_0.
    destruct (Z.lt_ge_cases i n).
    + rewrite Z.shiftl_spec_low by done. done.
    + rewrite (testbit_high b n) by done. apply andb_false_r.
Qed.

(** Exhaustive checks over a range are decided by computation. *)
Lemma forall_range (n : Z) (f : Z -> bool) :
  forallb f (seqZ 0 n) = true -> forall z, 0 <= z < n -> f z = true.
Proof.
  intros H z Hz. rewrite forallb_forall in H. apply H.
  apply list_elem_of_In, elem_of_seqZ. lia.
Qed.

(** ** Arrays *)
Lemma zlen_wr {A} (l : list A) i v : zlen (wr l i v) = zlen l.
Proof. unfold zlen, wr. case_match; [done|]. by rewrite length_insert. Qed.

Lemma rd_nth l i : 0 <= i -> rd l i = nth (Z.to_nat i) l 0.
Proof. intros. unfold rd. zcases; [lia|done]. Qed.

Lemma rd_lookup l i v : 0 <= i -> l !! Z.to_nat i = Some v -> rd l i = v.
Proof. intros Hi Hl. rewrite rd_nth by done. rewrite nth_lookup, Hl. done. Qed.

Lemma rd_wr_eq l i v : 0 <= i < zlen l -> rd (wr l i v) i = v.
Proof.
  unfold zlen. intros Hi. apply rd_lookup; [lia|].
  unfold wr. zcases; [lia|]. apply list_lookup_insert_eq. lia.
Qed.

Lemma rd_wr_ne l i j v : i <> j -> rd (wr l i v) j = rd l j.
Proof.
  intros Hij. unfold rd, wr. zcases; try done.
  rewrite !nth_lookup, list_lookup_insert_ne by lia. done.
Qed.

Lemma rd_overflow l i : zlen l <= i -> rd l i = 0.
Proof. unfold zlen, rd. intros. zcases; [done|]. apply nth_overflow. lia. Qed.

Lemma rd_Forall (P : Z -> Prop) l i : P 0 -> Forall P l -> P (rd l i).
Proof.
  intros H0 Hl. unfold rd. zcases; [done|]. rewrite nth_lookup.
  destruct (l !! Z.to_nat i) eqn:E; [|done]. simpl.
  by apply (Forall_lookup_1 _ _ _ _ Hl E).
Qed.

Lemma rd_app_l l k i : i < zlen l -> rd (l ++ k) i = rd l i.
Proof. unfold zlen, rd. intros. zcases; [done|]. rewrite app_nth1 by lia. done. Qed.

Lemma rd_app_r l k i : zlen l <= i -> rd (l ++ k) i = rd k (i - zlen l).
Proof.
  unfold zlen, rd. intros. zcases; [lia..|].
  rewrite app_nth2 by lia. f_equal. lia.
Qed.

Lemma rd_cons x l i : 0 < i -> rd (x :: l) i = rd l (i - 1).
Proof.
  intros Hi. unfold rd. zcases; [lia..|].
  replace (Z.to_nat i) with (S (Z.to_nat (i - 1))) by lia. done.
Qed.

Lemma Forall_wr (P : Z -> Prop) l i v : Forall P l -> P v -> Forall P (wr l i v).
Proof. intros. unfold wr. zcases; [done|]. by apply Forall_insert. Qed.

Lemma list_eq_rd l k :
  zlen l = zlen k -> (forall i, 0 <= i < zlen l -> rd l i = rd k i) -> l = k.
Proof.
  unfold zlen. intros Hlen H. apply nth_ext with (d := 0) (d' := 0); [lia|].
  intros n Hn. specialize (H (Z.of_nat n) ltac:(lia)).
  rewrite !rd_nth in H by lia. by rewrite Nat2Z.id in H.
Qed.

Lemma rd_slice l off n i :
  0 <= off -> 0 <= i < n -> rd (slice l off n) i = rd l (off + i).
Proof.
  intros Ho Hi. rewrite !rd_nth by lia. unfold slice. rewrite !nth_lookup.
  rewrite lookup_take_lt by lia. rewrite lookup_drop. do 2 f_equal. lia.
Qed.

Lemma zlen_slice {A} (l : list A) off n :
  0 <= off -> 0 <= n -> off + n <= zlen l -> zlen (slice l off n) = n.
Proof. unfold zlen, slice. intros. rewrite length_take, length_drop. lia. Qed.

Lemma Forall_slice {A} (P : A -> Prop) l off n : Forall P l -> Forall P (slice l off n).
Proof. intros. unfold slice. by apply Forall_take, Forall_drop. Qed.

Lemma zlen_app {A} (l k : list A) : zlen (l ++ k) = zlen l + zlen k.
Proof. unfold zlen. rewrite length_app. lia. Qed.

Lemma zlen_nonneg {A} (l : list A) : 0 <= zlen l.
Proof. unfold zlen. lia. Qed.

Lemma zlen_zeros n : 0 <= n -> zlen (zeros n) = n.
Proof. unfold zlen, zeros. intros. rewrite length_replicate. lia. Qed.

Lemma rd_zeros n i : rd (zeros n) i = 0.
Proof.
  apply (rd_Forall (fun z => z = 0)); [done|]. by apply Forall_replicate.
Qed.

#[export] Hint Resolve Forall_wr Forall_slice : dab.

(** ** Loops *)
Lemma zfor_done {S} lo hi body (s : S) : hi <= lo -> zfor lo hi body s = s.
Proof. intros. unfold zfor. rewrite seqZ_nil by lia. done. Qed.

Lemma zfor_first {S} lo hi body (s : S) :
  lo < hi -> zfor lo hi body s = zfor (lo + 1) hi body (body lo s).
Proof.
  intros. unfold zfor. rewrite seqZ_cons by lia. simpl. do 2 f_equal; lia.
Qed.

Lemma zfor_last {S} lo hi body (s : S) :
  lo <= hi -> zfor lo (hi + 1) body s = body hi (zfor lo hi body s).
Proof.
  intros. unfold zfor. replace (hi + 1 - lo) with ((hi - lo) + 1) by lia.
  rewrite seqZ_app by lia. rewrite fold_left_app. simpl.
  replace (lo + (hi - lo)) with hi by lia. done.
Qed.

Lemma zfor_inv {S} (P : Z -> S -> Prop) lo hi body (s : S) :
  lo <= hi -> P lo s ->
  (forall i s, lo <= i < hi -> P i s -> P (i + 1) (body i s)) ->
  P hi (zfor lo hi body s).
Proof.
  intros Hle H0 Hstep.
  assert (forall n, 0 <= n -> n <= hi - lo -> P (lo + n) (zfor lo (lo + n) body s)) as H.
  { intros n Hn. pattern n. apply natlike_ind; [..|done].
    - intros _. rewrite Z.add_0_r, zfor_done by lia. done.
    - intros k Hk IH Hk'. replace (lo + Z.succ k) with ((lo + k) + 1) by lia.
      rewrite zfor_last by lia. apply Hstep; [lia|]. apply IH. lia. }
  specialize (H (hi - lo) ltac:(lia) ltac:(lia)).
  by replace (lo + (hi - lo)) with hi in H by lia.
Qed.

Lemma zfor_ext {S} lo hi (f g : Z -> S -> S) s :
  (forall i s, lo <= i < hi -> f i s = g i s) -> zfor lo hi f s = zfor lo hi g s.
Proof.
  intros H. destruct (Z.le_gt_cases lo hi); [|by rewrite !zfor_done by lia].
  apply (zfor_inv (fun i s' => s' = zfor lo i g s)); [done|by rewrite zfor_done|].
  intros i s' Hi ->. rewrite zfor_last by lia. by apply H.
Qed.

Lemma fold_left_ext_in {A B} (f g : B -> A -> B) (l : list A) b :
  (forall b x, In x l -> f b x = g b x) -> fold_left f l b = fold_left g l b.
Proof.
  revert b. induction l as [|x l IH]; intros b H; [done|]. simpl.
  rewrite H by (by left). apply IH. intros. apply H. by right.
Qed.

Lemma fold_left_inv {A B} (P : B -> Prop) (f : B -> A -> B) (l : list A) b :
  P b -> (forall b x, In x l -> P b -> P (f b x)) -> P (fold_left f l b).
Proof.
  revert b. induction l as [|x l IH]; intros b Hb H; [done|]. simpl.
  apply IH; [apply H; [by left|done]|]. intros. apply H; [by right|done].
Qed.

Lemma map_const_in {A B} (f : A -> B) (c : B) (l : list A) :
  (forall x, In x l -> f x = c) -> map f l = replicate (length l) c.
Proof.
  induction l as [|x l IH]; intros H; [done|]. simpl.
  rewrite (H x) by (by left). f_equal. apply IH. intros. apply H. by right.
Qed.

Lemma in_seqZ m n i : In i (seqZ m n) <-> m <= i < m + n.
Proof. rewrite <- list_elem_of_In. apply elem_of_seqZ. Qed.

Lemma zlen_map_seqZ (f : Z -> Z) n : 0 <= n -> zlen (map f (seqZ 0 n)) = n.
Proof. intros. unfold zlen. rewrite length_map, length_seqZ. lia. Qed.

Lemma rd_map_seqZ (f : Z -> Z) n i : 0 <= i < n -> rd (map f (seqZ 0 n)) i = f i.
Proof.
  intros Hi. apply rd_lookup; [lia|]. rewrite list_lookup_fmap, lookup_seqZ_lt by lia. simpl. f_equal. f_equal. lia.
Qed.

Lemma map_rd l : map (rd l) (seqZ 0 (zlen l)) = l.
Proof.
  pose proof (zlen_nonneg l). apply list_eq_rd; [by apply zlen_map_seqZ|]. rewrite zlen_map_seqZ by done. intros i Hi. by apply rd_map_seqZ.
Qed.

Lemma zlen_map (f : Z -> Z) l : zlen (map f l) = zlen l.
Proof. unfold zlen. by rewrite length_map. Qed.

Lemma rd_map (f : Z -> Z) l k : 0 <= k < zlen l -> rd (map f l) k = f (rd l k).
Proof. intros Hk. rewrite <- (map_rd l) at 1. rewrite map_map. by rewrite rd_map_seqZ. Qed.

Lemma In_rd_exists a (l : list Z) : In a l -> exists k, 0 <= k < zlen l /\ rd l k = a.
Proof.
  intros H. apply (In_nth _ _ 0) in H as (n & Hn & E). exists (Z.of_nat n). unfold zlen.
  split; [lia|]. rewrite rd_nth by lia. by rewrite Nat2Z.id.
Qed.

Lemma Forall_rd_intro (P : Z -> Prop) l : (forall i, 0 <= i < zlen l -> P (rd l i)) -> Forall P l.
Proof.
  intros H. apply List.Forall_forall. intros x Hx. destruct (In_rd_exists x l Hx) as (k & Hk & <-). by apply H.
Qed.

(** ** Loops that write each cell once.  [off] is the distance between the
    loop counter and the cell. *)
Section scatter.
Context (f : Z -> Z -> Z) (off : Z).
Let body := fun i l => wr l (i + off) (f i (rd l (i + off))).

Lemma zfor_scatter_spec lo hi l :
  lo <= hi -> 0 <= lo + off -> hi + off <= zlen l ->
  zlen (zfor lo hi body l) = zlen l /\
  forall j, rd (zfor lo hi body l) j =
    if (lo <=? j - off) && (j - off <? hi) then f (j - off) (rd l j) else rd l j.
Proof.
  intros Hle Hlo Hhi.
  apply (zfor_inv (fun n l' => zlen l' = zlen l /\ forall j, rd l' j =
    if (lo <=? j - off) && (j - off <? n) then f (j - off) (rd l j) else rd l j)); [done|..].
  - split; [done|]. intros j.
    destruct (Z.leb_spec lo (j - off)), (Z.ltb_spec (j - off) lo); simpl; done || lia.
  - intros i l' Hi [Hl IH]. unfold body. split; [by rewrite zlen_wr|]. intros j.
    destruct (Z.eq_dec (i + off) j) as [<-|Hne].
    + rewrite rd_wr_eq by lia. rewrite IH, Z.add_simpl_r.
      assert ((lo <=? i) && (i <? i) = false) as -> by lia.
      assert ((lo <=? i) && (i <? i + 1) = true) as -> by lia. done.
    + rewrite rd_wr_ne, IH by done.
      assert ((lo <=? j - off) && (j - off <? i) = (lo <=? j - off) && (j - off <? i + 1)) as ->
        by lia. done.
Qed.
End scatter.

Lemma zlen_zfor_wr lo hi (idx v : Z -> list Z -> Z) l :
  zlen (zfor lo hi (fun i l => wr l (idx i l) (v i l)) l) = zlen l.
Proof.
  destruct (Z.le_gt_cases lo hi); [|by rewrite zfor_done by lia].
  apply (zfor_inv (fun _ l' => zlen l' = zlen l)); [done..|].
  intros i l' _ <-. apply zlen_wr.
Qed.

Lemma Forall_zfor_wr (P : Z -> Prop) lo hi (idx v : Z -> list Z -> Z) l :
  Forall P l -> (forall i l, Forall P l -> P (v i l)) ->
  Forall P (zfor lo hi (fun i l => wr l (idx i l) (v i l)) l).
Proof.
  intros Hl Hv. destruct (Z.le_gt_cases lo hi); [|by rewrite zfor_done by lia].
  apply (zfor_inv (fun _ => Forall P)); [done..|]. intros. auto using Forall_wr.
Qed.

Lemma zfor_update_spec (f : Z -> Z -> Z) lo hi l :
  lo <= hi -> 0 <= lo -> hi <= zlen l ->
  zlen (zfor lo hi (fun i l => wr l i (f i (rd l i))) l) = zlen l /\
  forall j, rd (zfor lo hi (fun i l => wr l i (f i (rd l i))) l) j =
    if (lo <=? j) && (j <? hi) then f j (rd l j) else rd l j.
Proof.
  intros Hle Hlo Hhi.
  rewrite (zfor_ext _ _ _ (fun i l => wr l (i + 0) (f i (rd l (i + 0)))))
    by (intros; by rewrite Z.add_0_r).
  destruct (zfor_scatter_spec f 0 lo hi l) as [Hl Hr]; [lia..|].
  split; [done|]. intros j. rewrite Hr, Z.sub_0_r. done.
Qed.

Lemma zfor_scatter_rd (f : Z -> Z -> Z) off lo hi l j :
  lo <= hi -> 0 <= lo + off -> hi + off <= zlen l ->
  rd (zfor lo hi (fun i l => wr l (i + off) (f i (rd l (i + off)))) l) j =
    if (lo <=? j - off) && (j - off <? hi) then f (j - off) (rd l j) else rd l j.
Proof. intros. by apply zfor_scatter_spec. Qed.

Lemma zforM_inv {S} (P : Z -> S -> Prop) lo hi (body : Z -> S -> option S) s :
  lo <= hi -> P lo s ->
  (forall i s, lo <= i < hi -> P i s -> exists s', body i s = Some s' /\ P (i + 1) s') ->
  exists s', zforM lo hi body s = Some s' /\ P hi s'.
Proof.
  intros Hle H0 Hstep.
  apply (zfor_inv (fun i r => exists s', r = Some s' /\ P i s')); [done|by exists s|].
  intros i r Hi (s' & -> & Hs). by apply Hstep.
Qed.

(** What every step preserves, the loop preserves. *)
Lemma zforM_preserves {S} (R : S -> S -> Prop) `{!PreOrder R} lo hi (body : Z -> S -> option S) s s' :
  (forall i a b, body i a = Some b -> R a b) -> zforM lo hi body s = Some s' -> R s s'.
Proof.
  intros Hb. unfold zforM, zfor. assert (forall l s, fold_left (fun r i => r ≫= body i) l (Some s) = Some s' -> R s s') as H.
  { induction l as [|i l IH]; intros a; cbn; [by intros [= ->]|].
    destruct (body i a) as [b|] eqn:E; cbn.
    - intros H. etrans; [by apply Hb in E|by apply IH].
    - clear. by induction l. }
  apply H.
Qed.

Lemma zdownto_inv {S} (P : Z -> S -> Prop) hi lo (body : Z -> S -> S) s :
  lo - 1 <= hi -> P hi s ->
  (forall i s, lo <= i <= hi -> P i s -> P (i - 1) (body i s)) ->
  P (lo - 1) (zdownto hi lo body s).
Proof.
  intros Hle H0 Hstep. unfold zdownto.
  assert (forall n s, (Z.of_nat n <= hi - lo + 1) -> P (lo + Z.of_nat n - 1) s ->
    P (lo - 1) (fold_left (fun s i => body i s) (rev (seqZ lo (Z.of_nat n))) s)) as H.
  { induction n as [|n IH]; intros s' Hn Hs.
    - simpl. by replace (lo + Z.of_nat 0 - 1) with (lo - 1) in Hs by lia.
    - replace (Z.of_nat (Datatypes.S n)) with (Z.of_nat n + 1) by lia.
      rewrite seqZ_app, rev_app_distr by lia. simpl. apply IH; [lia|].
      replace (lo + Z.of_nat n - 1) with (lo + Z.of_nat n + 0 - 1) by lia.
      rewrite Z.add_0_r. apply Hstep; [lia|].
      by replace (lo + Z.of_nat (Datatypes.S n) - 1) with (lo + Z.of_nat n) in Hs by lia. }
  rewrite <- (Z2Nat.id (hi - lo + 1)) by lia. apply H; [lia|].
  by replace (lo + Z.of_nat (Z.to_nat (hi - lo + 1)) - 1) with hi by lia.
Qed.

(** Appending to the filled part of a zeroed array. *)
Lemma wr_append l v k x : zlen l = k -> 0 < x -> wr (l ++ zeros x) k v = (l ++ [v]) ++ zeros (x - 1).
Proof.
  intros Hl Hx. pose proof (zlen_nonneg l). unfold wr. destruct (Z.ltb_spec k 0); [lia|].
  unfold zlen in Hl. rewrite insert_app_r_alt by lia. replace (Z.to_nat k - length l)%nat with 0%nat by lia.
  unfold zeros. replace (Z.to_nat x) with (S (Z.to_nat (x - 1))) by lia. simpl. by rewrite <- app_assoc.
Qed.

(** ** [while] loops with fuel; [None] is the exhausted fuel. *)
Fixpoint while {S} (fuel : nat) (cond : S -> bool) (body : S -> S) (s : S) : option S :=
  match fuel with
  | O => None
  | Datatypes.S fuel => if cond s then while fuel cond body (body s) else Some s
  end.

(** A loop whose body keeps an invariant and decreases a measure stops within
    the measure. *)
Lemma while_total {S} (P : S -> Prop) (m : S -> Z) cond body fuel (s : S) :
  P s -> Z.max 0 (m s + 1) < Z.of_nat fuel ->
  (forall s, P s -> cond s = true -> P (body s) /\ 0 <= m s /\ m (body s) < m s) ->
  exists s', while fuel cond body s = Some s' /\ P s' /\ cond s' = false.
Proof.
  intros Hp Hm Hstep. revert s Hp Hm. induction fuel as [|fuel IH]; intros s Hp Hm; cbn [while].
  - lia.
  - destruct (cond s) eqn:Ec; [|by exists s].
    destruct (Hstep s Hp Ec) as (Hp' & H0 & Hm'). apply IH; [done|lia].
Qed.
