(* ===== verification/BitExtractors.v ===== *)
(** * Bit extraction (src/src/base/main/bit_extractors.h)

    The FIB and data-group parsers read fields out of two kinds of buffer:
    bit arrays (one bit per [u8] element, [getBits_1] .. [getBits_8],
    [getBits], [getLBits]) and packed big-endian byte arrays
    ([extract_bits_from_byte_stream]).  The definitions below keep every
    truncation to the width of [res]/[accum]; the theorems show that on bit
    arrays all of them read the big-endian value of the addressed bits, and
    that the packed reader agrees with the bit-array reader on the unpacked
    buffer. *)
From S2P Require Import Prelude.
Open Scope Z_scope.

(** ** The readers *)

(** One step of [res <<= 1; res |= d[k];] with [res] of width [w]. *)
Definition shift_in (w res b : Z) : Z := Z.lor (uwrap w (Z.shiftl res 1)) b.

Definition getBits_1 (d : list Z) (offset : Z) : Z := rd d offset.

Definition getBits_2 (d : list Z) (offset : Z) : Z :=
  let res := rd d offset in
  shift_in 8 res (rd d (offset + 1)).

Definition getBits_3 (d : list Z) (offset : Z) : Z :=
  let res := rd d offset in
  let res := shift_in 8 res (rd d (offset + 1)) in
  shift_in 8 res (rd d (offset + 2)).

Definition getBits_4 (d : list Z) (offset : Z) : Z :=
  let res := rd d offset in
  let res := shift_in 8 res (rd d (offset + 1)) in
  let res := shift_in 8 res (rd d (offset + 2)) in
  shift_in 8 res (rd d (offset + 3)).

Definition getBits_5 (d : list Z) (offset : Z) : Z :=
  let res := rd d offset in
  let res := shift_in 8 res (rd d (offset + 1)) in
  let res := shift_in 8 res (rd d (offset + 2)) in
  let res := shift_in 8 res (rd d (offset + 3)) in
  shift_in 8 res (rd d (offset + 4)).

Definition getBits_6 (d : list Z) (offset : Z) : Z :=
  let res := rd d offset in
  let res := shift_in 8 res (rd d (offset + 1)) in
  let res := shift_in 8 res (rd d (offset + 2)) in
  let res := shift_in 8 res (rd d (offset + 3)) in
  let res := shift_in 8 res (rd d (offset + 4)) in
  shift_in 8 res (rd d (offset + 5)).

Definition getBits_7 (d : list Z) (offset : Z) : Z :=
  let res := rd d offset in
  let res := shift_in 8 res (rd d (offset + 1)) in
  let res := shift_in 8 res (rd d (offset + 2)) in
  let res := shift_in 8 res (rd d (offset + 3)) in
  let res := shift_in 8 res (rd d (offset + 4)) in
  let res := shift_in 8 res (rd d (offset + 5)) in
  shift_in 8 res (rd d (offset + 6)).

Definition getBits_8 (d : list Z) (offset : Z) : Z :=
  let res := rd d offset in
  let res := shift_in 8 res (rd d (offset + 1)) in
  let res := shift_in 8 res (rd d (offset + 2)) in
  let res := shift_in 8 res (rd d (offset + 3)) in
  let res := shift_in 8 res (rd d (offset + 4)) in
  let res := shift_in 8 res (rd d (offset + 5)) in
  let res := shift_in 8 res (rd d (offset + 6)) in
  shift_in 8 res (rd d (offset + 7)).

(** Generic, up to 16 bits ([u16 res]). *)
Definition getBits (d : list Z) (offset size : Z) : Z :=
  zfor 0 size (fun i res => shift_in 16 res (rd d (offset + i))) 0.

(** Generic, up to 32 bits ([u32 res]). *)
Definition getLBits (d : list Z) (offset amount : Z) : Z :=
  zfor 0 amount (fun i res => shift_in 32 res (rd d (offset + i))) 0.

(** [check_get_bits]: the new value of [ioNewExpected] and whether it
    changed. [trunc] is the conversion of the [u32] to the template type. *)
Definition check_get_bits (trunc : Z -> Z) (ioNewExpected : Z)
    (ipData : list Z) (iOffset iNumBits : Z) : Z * bool :=
  let actual := getLBits ipData iOffset iNumBits in
  if actual =? ioNewExpected then (ioNewExpected, false) else (trunc actual, true).

(** Packed reader: [u64 accum] over the bytes the field touches, then one
    shift and mask. The asserts bound [iNumBits] by 32. *)
Definition extract_bits_from_byte_stream (ipData : list Z) (iBitOffset iNumBits : Z) : Z :=
  let firstByte := iBitOffset / 8 in
  let lastByte := (iBitOffset + iNumBits - 1) / 8 in
  let accum := zfor firstByte (lastByte + 1)
    (fun i accum => Z.lor (u64 (Z.shiftl accum 8)) (rd ipData i)) 0 in
  let shift := (lastByte + 1) * 8 - (iBitOffset + iNumBits) in
  u32 (Z.land (Z.shiftr accum shift) (Z.shiftl 1 iNumBits - 1)).

(** ** Reference: big-endian value of a list of digits *)
Definition be_value (base : Z) (l : list Z) : Z := fold_left (fun a b => base * a + b) l 0.

(** The bit array of a packed byte array, MSB first, as [unpack] helpers of
    the receiver lay it out. *)
Definition byte_bits (b : Z) : list Z :=
  map (fun k => b2z (Z.testbit b k)) [7; 6; 5; 4; 3; 2; 1; 0].
Definition unpack_bits (l : list Z) : list Z := flat_map byte_bits l.

(** The field [d[off .. off+n)] as a number. *)
Definition field (d : list Z) (off n : Z) : Z :=
  be_value 2 (map (fun i => rd d (off + i)) (seqZ 0 n)).

(** ** Facts *)
Lemma be_value_snoc base l x : be_value base (l ++ [x]) = base * be_value base l + x.
Proof. unfold be_value. by rewrite fold_left_app. Qed.

Lemma be_value_range base l :
  0 < base -> Forall (fun x => 0 <= x < base) l ->
  0 <= be_value base l < base ^ zlen l.
Proof.
  intros Hb. induction l as [|x l IH] using rev_ind; intros Hl; [done|].
  apply Forall_app in Hl as [Hl Hx]. apply Forall_inv in Hx.
  rewrite be_value_snoc, zlen_app. change (zlen [x]) with 1.
  rewrite Z.pow_add_r by (try apply zlen_nonneg; lia).
  specialize (IH Hl). nia.
Qed.

Lemma field_0 d off n : n <= 0 -> field d off n = 0.
Proof. intros. unfold field. by rewrite seqZ_nil. Qed.

Lemma field_succ d off n :
  0 <= n -> field d off (n + 1) = 2 * field d off n + rd d (off + n).
Proof.
  intros. unfold field. rewrite seqZ_app by lia. rewrite map_app.
  simpl. rewrite be_value_snoc. do 3 f_equal. 
Qed.

Lemma field_range d off n : 0 <= n -> Forall is_bit d -> 0 <= field d off n < 2 ^ n.
Proof.
  intros Hn Hd. pattern n. apply natlike_ind; [..|done].
  - by rewrite field_0.
  - intros k Hk IH. rewrite <- Z.add_1_r, field_succ, Z.pow_add_r by lia.
    pose proof (rd_Forall is_bit d (off + k) is_bit_0 Hd) as Hb.
    unfold is_bit in Hb. lia.
Qed.

Lemma shift_in_value w res b n :
  0 <= n < w -> 0 <= res < 2 ^ n -> is_bit b -> shift_in w res b = 2 * res + b.
Proof.
  intros Hn Hr Hb. unfold shift_in. rewrite Z.shiftl_mul_pow2 by lia.
  assert (2 ^ n * 2 <= 2 ^ w).
  { replace (2 ^ n * 2) with (2 ^ (n + 1)) by (rewrite Z.pow_add_r; lia).
    apply Z.pow_le_mono_r; lia. }
  rewrite uwrap_small by lia.
  rewrite lor_add_disjoint by (unfold is_bit in Hb; lia). lia.
Qed.

Lemma get_loop_field w d off n :
  0 <= n <= w -> Forall is_bit d ->
  zfor 0 n (fun i res => shift_in w res (rd d (off + i))) 0 = field d off n.
Proof.
  intros Hn Hd.
  apply (zfor_inv (fun i res => res = field d off i)); [lia|by rewrite field_0|].
  intros i res Hi ->. rewrite field_succ by lia.
  apply (shift_in_value w _ _ i); [lia|apply field_range; [lia|done]|].
  by apply (rd_Forall is_bit).
Qed.

Lemma getBits_field d off n :
  0 <= n <= 16 -> Forall is_bit d -> getBits d off n = field d off n.
Proof. apply get_loop_field. Qed.

Lemma getLBits_field d off n :
  0 <= n <= 32 -> Forall is_bit d -> getLBits d off n = field d off n.
Proof. apply get_loop_field. Qed.

Lemma shift_in_field w d off n :
  0 <= n < w -> Forall is_bit d ->
  shift_in w (field d off n) (rd d (off + n)) = field d off (n + 1).
Proof.
  intros Hn Hd. rewrite field_succ by lia.
  apply (shift_in_value w _ _ n); [lia|by apply field_range; [lia|]|].
  by apply (rd_Forall is_bit).
Qed.

Lemma rd_field_1 d off : rd d off = field d off 1.
Proof. change 1 with (0 + 1). rewrite field_succ, field_0, Z.add_0_r by lia. lia. Qed.

Ltac unroll_getBits Hd :=
  rewrite rd_field_1;
  repeat (rewrite (shift_in_field 8) by (lia || exact Hd); simpl Z.add); done.

Lemma getBits_2_field d off : Forall is_bit d -> getBits_2 d off = field d off 2.
Proof. intros Hd. unfold getBits_2. cbv zeta. unroll_getBits Hd. Qed.
Lemma getBits_3_field d off : Forall is_bit d -> getBits_3 d off = field d off 3.
Proof. intros Hd. unfold getBits_3. cbv zeta. unroll_getBits Hd. Qed.
Lemma getBits_4_field d off : Forall is_bit d -> getBits_4 d off = field d off 4.
Proof. intros Hd. unfold getBits_4. cbv zeta. unroll_getBits Hd. Qed.
Lemma getBits_5_field d off : Forall is_bit d -> getBits_5 d off = field d off 5.
Proof. intros Hd. unfold getBits_5. cbv zeta. unroll_getBits Hd. Qed.
Lemma getBits_6_field d off : Forall is_bit d -> getBits_6 d off = field d off 6.
Proof. intros Hd. unfold getBits_6. cbv zeta. unroll_getBits Hd. Qed.
Lemma getBits_7_field d off : Forall is_bit d -> getBits_7 d off = field d off 7.
Proof. intros Hd. unfold getBits_7. cbv zeta. unroll_getBits Hd. Qed.
Lemma getBits_8_field d off : Forall is_bit d -> getBits_8 d off = field d off 8.
Proof. intros Hd. unfold getBits_8. cbv zeta. unroll_getBits Hd. Qed.
Lemma getBits_1_field d off : getBits_1 d off = field d off 1.
Proof. apply rd_field_1. Qed.

(** Every unrolled reader is in the range of its field width. *)
Lemma getBits_6_range d off : Forall is_bit d -> 0 <= getBits_6 d off < 64.
Proof. intros. rewrite getBits_6_field by done. by apply (field_range d off 6). Qed.
Lemma getBits_5_range d off : Forall is_bit d -> 0 <= getBits_5 d off < 32.
Proof. intros. rewrite getBits_5_field by done. by apply (field_range d off 5). Qed.
Lemma getBits_4_range d off : Forall is_bit d -> 0 <= getBits_4 d off < 16.
Proof. intros. rewrite getBits_4_field by done. by apply (field_range d off 4). Qed.
Lemma getBits_3_range d off : Forall is_bit d -> 0 <= getBits_3 d off < 8.
Proof. intros. rewrite getBits_3_field by done. by apply (field_range d off 3). Qed.
Lemma getBits_2_range d off : Forall is_bit d -> 0 <= getBits_2 d off < 4.
Proof. intros. rewrite getBits_2_field by done. by apply (field_range d off 2). Qed.
Lemma getBits_1_range d off : Forall is_bit d -> 0 <= getBits_1 d off < 2.
Proof. intros. rewrite getBits_1_field. by apply (field_range d off 1). Qed.
Lemma getBits_8_range d off : Forall is_bit d -> 0 <= getBits_8 d off < 256.
Proof. intros. rewrite getBits_8_field by done. by apply (field_range d off 8). Qed.
Lemma getBits_range d off n :
  0 <= n <= 16 -> Forall is_bit d -> 0 <= getBits d off n < 2 ^ n.
Proof. intros. rewrite getBits_field by done. apply field_range; [lia|done]. Qed.
Lemma getLBits_range d off n :
  0 <= n <= 32 -> Forall is_bit d -> 0 <= getLBits d off n < 2 ^ n.
Proof. intros. rewrite getLBits_field by done. apply field_range; [lia|done]. Qed.

#[export] Hint Resolve getBits_1_range getBits_2_range getBits_3_range getBits_4_range
  getBits_5_range getBits_6_range getBits_8_range getBits_range getLBits_range : dab.

(** ** The packed reader *)
Lemma field_split d off a b :
  0 <= a -> 0 <= b ->
  field d off (a + b) = field d off a * 2 ^ b + field d (off + a) b.
Proof.
  intros Ha Hb. pattern b. apply natlike_ind; [..|done].
  - rewrite Z.add_0_r, (field_0 d (off + a)) by lia. lia.
  - intros k Hk IH. rewrite <- Z.add_1_r, Z.add_assoc, !field_succ, IH by lia.
    rewrite Z.pow_add_r by lia. rewrite Z.add_assoc. lia.
Qed.

Lemma zlen_byte_bits b : zlen (byte_bits b) = 8.
Proof. done. Qed.

Lemma zlen_unpack l : zlen (unpack_bits l) = 8 * zlen l.
Proof.
  induction l as [|b l IH]; [done|]. unfold unpack_bits in *. cbn [flat_map].
  rewrite zlen_app, IH, zlen_byte_bits. unfold zlen. cbn [length]. lia.
Qed.

Lemma byte_bits_bit b : Forall is_bit (byte_bits b).
Proof.
  unfold byte_bits. apply Forall_map, Forall_forall. intros k _.
  unfold is_bit, compose. destruct (Z.testbit b k); simpl; lia.
Qed.

Lemma unpack_bits_bit l : Forall is_bit (unpack_bits l).
Proof.
  induction l as [|b l IH]; [constructor|]. unfold unpack_bits. cbn [flat_map].
  apply Forall_app; split; [apply byte_bits_bit|done].
Qed.

Lemma rd_unpack l i k :
  0 <= i < zlen l -> 0 <= k < 8 ->
  rd (unpack_bits l) (8 * i + k) = rd (byte_bits (rd l i)) k.
Proof.
  revert i. induction l as [|b l IH]; intros i Hi Hk; [unfold zlen in Hi; simpl in Hi; lia|].
  unfold unpack_bits. cbn [flat_map].
  destruct (Z.eq_dec i 0) as [->|].
  - rewrite rd_app_l by (rewrite zlen_byte_bits; lia). done.
  - rewrite rd_app_r by (rewrite zlen_byte_bits; lia). rewrite zlen_byte_bits.
    rewrite rd_cons by lia. replace (8 * i + k - 8) with (8 * (i - 1) + k) by lia.
    apply IH; [|done]. unfold zlen in *. cbn [length] in Hi. lia.
Qed.

Lemma field_byte_bits b : is_byte b -> field (byte_bits b) 0 8 = b.
Proof.
  intros Hb. apply Z.eqb_eq.
  revert b Hb. apply (forall_range 256). by vm_compute.
Qed.

Lemma field_unpack_byte l i :
  Forall is_byte l -> 0 <= i < zlen l -> field (unpack_bits l) (8 * i) 8 = rd l i.
Proof.
  intros Hl Hi. rewrite <- (field_byte_bits (rd l i)) by (by apply rd_Forall; auto with dab).
  unfold field. f_equal. apply map_ext_in. intros k Hk.
  apply list_elem_of_In, elem_of_seqZ in Hk. rewrite rd_unpack by lia. done.
Qed.

(** The byte-wise accumulation over [n <= 5] bytes is the field of the
    [8 * n] bits they hold: 40 bits never overflow the [u64]. *)
Lemma accum_field l first n :
  Forall is_byte l -> 0 <= first -> 0 <= n <= 5 -> first + n <= zlen l ->
  zfor first (first + n)
    (fun i accum => Z.lor (u64 (Z.shiftl accum 8)) (rd l i)) 0
  = field (unpack_bits l) (8 * first) (8 * n).
Proof.
  intros Hl Hf Hn Hlen. replace (8 * n) with (8 * (first + n - first)) by lia.
  apply (zfor_inv (fun i a => a = field (unpack_bits l) (8 * first) (8 * (i - first)))
           first (first + n)); [lia|rewrite field_0 by lia; done|].
  intros i a Hi ->.
    pose proof (field_range (unpack_bits l) (8 * first) (8 * (i - first))
      ltac:(lia) (unpack_bits_bit l)) as Hr.
    assert (2 ^ (8 * (i - first)) <= 2 ^ 32) by (apply Z.pow_le_mono_r; lia).
    rewrite Z.shiftl_mul_pow2 by lia. rewrite uwrap_small by lia.
    rewrite lor_add_disjoint by (try lia; by apply (rd_Forall is_byte); auto with dab).
    replace (8 * (i + 1 - first)) with (8 * (i - first) + 8) by lia.
    rewrite field_split by lia. f_equal.
    replace (8 * first + 8 * (i - first)) with (8 * i) by lia.
    symmetry. apply field_unpack_byte; [done|lia].
Qed.

(** Selecting [n] bits out of [p + n + q] accumulated ones. *)
Lemma shift_mask_field d off p n q :
  0 <= p -> 0 <= n -> 0 <= q -> Forall is_bit d ->
  Z.land (Z.shiftr (field d off (p + n + q)) q) (Z.shiftl 1 n - 1) = field d (off + p) n.
Proof.
  intros Hp Hn Hq Hd. rewrite Z.shiftl_1_l, Z.sub_1_r, <- Z.ones_equiv.
  rewrite Z.land_ones, Z.shiftr_div_pow2 by done.
  pose proof (field_range d (off + (p + n)) q Hq Hd).
  pose proof (field_range d (off + p) n Hn Hd).
  rewrite field_split by lia. rewrite Z.div_add_l by lia.
  rewrite (Z.div_small (field _ _ q)) by done.
  rewrite Z.add_0_r, field_split by lia.
  rewrite Z.add_comm, Z.mod_add by lia. by apply Z.mod_small.
Qed.

Lemma extract_bits_field (l : list Z) (off n : Z) :
  Forall is_byte l -> 0 <= off -> 1 <= n <= 32 -> off + n <= 8 * zlen l ->
  extract_bits_from_byte_stream l off n = field (unpack_bits l) off n.
Proof.
  intros Hl Ho Hn Hlen.
  unfold extract_bits_from_byte_stream. cbv zeta.
  set (f := off / 8). set (m := (off + n - 1) / 8 + 1 - f).
  assert (0 <= f /\ 1 <= m <= 5 /\ f + m <= zlen l) as (Hf & Hm & Hfm)
    by (subst f m; Z.to_euclidean_division_equations; lia).
  replace ((off + n - 1) / 8 + 1) with (f + m) by lia.
  rewrite accum_field by (done || lia).
  assert (0 <= off - 8 * f /\ 0 <= 8 * (f + m) - (off + n)) as [Hp Hq]
    by (subst f m; Z.to_euclidean_division_equations; lia).
  replace (8 * m) with ((off - 8 * f) + n + ((f + m) * 8 - (off + n))) by lia.
  rewrite shift_mask_field by (lia || apply unpack_bits_bit).
  replace (8 * f + (off - 8 * f)) with off by lia.
  apply uwrap_small.
  pose proof (field_range (unpack_bits l) off n ltac:(lia) (unpack_bits_bit l)).
  assert (2 ^ n <= 2 ^ 32) by (apply Z.pow_le_mono_r; lia). lia.
Qed.

(** [extract_bits_from_byte_stream] reads from the packed buffer exactly
    the number that [getLBits] reads from the unpacked bit array, for every
    in-range field of 1 to 32 bits: no intermediate overflows [u64]. *)
Theorem extract_bits_correct (l : list Z) (off n : Z) :
  Forall is_byte l -> 0 <= off -> 1 <= n <= 32 -> off + n <= 8 * zlen l ->
  extract_bits_from_byte_stream l off n = getLBits (unpack_bits l) off n.
Proof.
  intros Hl Ho Hn Hlen. rewrite getLBits_field by (lia || apply unpack_bits_bit). by apply extract_bits_field.
Qed.

Lemma extract_bits_correct_witness :
  extract_bits_from_byte_stream [0xA5; 0x3C; 0xFF] 5 11 = 0x53C.
Proof.
  rewrite (extract_bits_correct [0xA5; 0x3C; 0xFF] 5 11).
  - reflexivity.
  - repeat (constructor; [unfold is_byte; lia|]). constructor.
  - lia.
  - lia.
  - vm_compute. discriminate.
Defined.
