(* ===== verification/BitFields.v ===== *)
(** * Bit fields: numbers as MSB-first bit lists

    The inverse view of [BitExtractors]: [msb n v] is the [n]-bit field that
    holds [v], [stands d off l] says that the bits [l] are in [d] from position
    [off] on.  The encoders used in the round-trip theorems and the model of
    the bit writer are built from them. *)
From S2P Require Import Prelude BitExtractors.
Open Scope Z_scope.

Definition msb (n v : Z) : list Z := map (fun i => b2z (Z.testbit v (n - 1 - i))) (seqZ 0 n).

(** The bits [l] stand in [d] from position [off] on. *)
Definition stands (d : list Z) (off : Z) (l : list Z) : Prop :=
  forall i, 0 <= i < zlen l -> rd d (off + i) = rd l i.

Lemma zlen_msb n v : 0 <= n -> zlen (msb n v) = n.
Proof. intros. unfold zlen, msb. rewrite length_map, length_seqZ. lia. Qed.

Lemma rd_msb n v i : 0 <= i < n -> rd (msb n v) i = b2z (Z.testbit v (n - 1 - i)).
Proof.
  intros Hi. apply rd_lookup; [lia|]. unfold msb. rewrite list_lookup_fmap, lookup_seqZ_lt by lia.
  cbn. do 3 f_equal. lia.
Qed.

Lemma msb_bit n v : Forall is_bit (msb n v).
Proof. apply Forall_map, Forall_forall. intros i _. unfold is_bit, compose. destruct (Z.testbit _ _); simpl; lia. Qed.

Lemma stands_app d off l k : stands d off (l ++ k) <-> stands d off l /\ stands d (off + zlen l) k.
Proof.
  pose proof (zlen_nonneg l). split.
  - intros Hs. split; intros i Hi.
    + rewrite Hs by (rewrite zlen_app; pose proof (zlen_nonneg k); lia). apply rd_app_l. lia.
    + rewrite <- Z.add_assoc, Hs by (rewrite zlen_app; lia). rewrite rd_app_r by lia. f_equal. lia.
  - intros [H1 H2] i Hi. rewrite zlen_app in Hi. destruct (Z.lt_ge_cases i (zlen l)).
    + rewrite rd_app_l by done. apply H1. lia.
    + rewrite rd_app_r by done. rewrite <- H2 by lia. f_equal. lia.
Qed.

Lemma stands_prefix l k : stands (l ++ k) 0 l.
Proof. intros i Hi. rewrite Z.add_0_l. apply rd_app_l. lia. Qed.

(** A field holds the number whose bits stand there. *)
Lemma field_stands d off n v : 0 <= n -> 0 <= v < 2 ^ n -> stands d off (msb n v) -> field d off n = v.
Proof.
  intros Hn Hv Hs. assert (forall k, 0 <= k -> k <= n -> field d off k = v / 2 ^ (n - k)) as H.
  { intros k Hk. pattern k. apply natlike_ind; [..|done].
    - intros _. rewrite field_0, Z.sub_0_r, Z.div_small by lia. done.
    - intros j Hj IH Hj'. rewrite <- Z.add_1_r, field_succ, IH, Hs, rd_msb by (rewrite ?zlen_msb; lia).
      replace (b2z (Z.testbit v (n - 1 - j))) with (Z.b2z (Z.testbit v (n - 1 - j))) by (by destruct (Z.testbit _ _)).
      rewrite Z.testbit_spec' by lia. replace (n - (j + 1)) with (n - 1 - j) by lia.
      replace (n - j) with (n - 1 - j + 1) by lia. rewrite Z.pow_add_r, <- Z.div_div by lia.
      rewrite Z.pow_1_r. pose proof (Z.div_mod (v / 2 ^ (n - 1 - j)) 2). lia. }
  rewrite H, Z.sub_diag by lia. apply Z.div_1_r.
Qed.

(** A field of [a + b] bits is its upper [a] bits followed by its lower [b]. *)
Lemma msb_split a b v : 0 <= a -> 0 <= b -> msb (a + b) v = msb a (Z.shiftr v b) ++ msb b v.
Proof.
  intros Ha Hb. apply list_eq_rd; [rewrite zlen_app, !zlen_msb; lia|].
  rewrite zlen_msb by lia. intros i Hi. rewrite rd_msb by lia.
  destruct (Z.lt_ge_cases i a).
  - rewrite rd_app_l, rd_msb, Z.shiftr_spec by (rewrite ?zlen_msb; lia). do 2 f_equal. lia.
  - rewrite rd_app_r, zlen_msb, rd_msb by (rewrite ?zlen_msb; lia). do 2 f_equal. lia.
Qed.

Lemma msb_0 v : msb 0 v = [].
Proof. done. Qed.

Lemma msb_ext n v w :
  (forall i, 0 <= i < n -> Z.testbit v i = Z.testbit w i) -> msb n v = msb n w.
Proof.
  intros H. unfold msb. apply map_ext_in. intros i Hi. apply in_seqZ in Hi. by rewrite H by lia.
Qed.

Lemma msb_zero n : 0 <= n -> msb n 0 = zeros n.
Proof.
  intros. apply list_eq_rd; rewrite zlen_msb by lia; [by rewrite zlen_zeros|].
  intros i Hi. by rewrite rd_msb, rd_zeros, Z.bits_0 by lia.
Qed.

Lemma byte_bits_msb b : byte_bits b = msb 8 b.
Proof. done. Qed.

Lemma unpack_app l k : unpack_bits (l ++ k) = unpack_bits l ++ unpack_bits k.
Proof. apply flat_map_app. Qed.

Lemma unpack_1 b : unpack_bits [b] = msb 8 b.
Proof. unfold unpack_bits. cbn [flat_map]. rewrite app_nil_r. apply byte_bits_msb. Qed.

Lemma unpack_cons b l : unpack_bits (b :: l) = msb 8 b ++ unpack_bits l.
Proof. done. Qed.

(** A field is determined by its bits. *)
Lemma msb_inj n v w : 0 <= v < 2 ^ n -> 0 <= w < 2 ^ n -> msb n v = msb n w -> v = w.
Proof.
  intros Hv Hw E. apply (bits_ext n); [done..|]. intros i Hi.
  assert (rd (msb n v) (n - 1 - i) = rd (msb n w) (n - 1 - i)) as H by by rewrite E.
  rewrite !rd_msb in H by lia. replace (n - 1 - (n - 1 - i)) with i in H by lia.
  by destruct (Z.testbit v i), (Z.testbit w i).
Qed.

Lemma slice_snoc l n : 0 <= n < zlen l -> slice l 0 (n + 1) = slice l 0 n ++ [rd l n].
Proof.
  intros Hn. pose proof (zlen_nonneg l).
  apply list_eq_rd; [rewrite zlen_app, !zlen_slice by lia; done|].
  rewrite zlen_slice by lia. intros i Hi. rewrite rd_slice by lia.
  destruct (Z.eq_dec i n) as [->|].
  - by rewrite rd_app_r, zlen_slice, Z.sub_diag by (rewrite ?zlen_slice; lia).
  - by rewrite rd_app_l, rd_slice by (rewrite ?zlen_slice; lia).
Qed.

(** Reading a field of a concatenation. *)
Lemma field_skip l k off n : 0 <= n -> zlen l <= off -> field (l ++ k) off n = field k (off - zlen l) n.
Proof.
  intros Hn Ho. unfold field. f_equal. apply map_ext_in. intros i Hi. apply in_seqZ in Hi.
  rewrite rd_app_r by lia. f_equal. lia.
Qed.

Lemma field_hit n v k : 0 <= n -> 0 <= v < 2 ^ n -> field (msb n v ++ k) 0 n = v.
Proof. intros. apply field_stands; [done..|]. apply stands_prefix. Qed.

(** [flds]: evaluate a field of a concatenation of encoded fields. *)
Ltac flds :=
  repeat (rewrite field_skip by (rewrite ?zlen_msb; lia); rewrite ?zlen_msb by lia);
  match goal with
  | |- context [field (msb ?n _ ++ _) ?e ?n] =>
      replace e with 0 by lia; apply field_hit; lia || (cbn; lia)
  end.
