(* ===== verification/Checked.v ===== *)
(** * Checked memory access

    The decoders of broadcast data index into buffers with offsets taken from
    the data itself.  Their models read and write through the operations of
    this file, which give [None] for an access outside the object: a [Some]
    result of an operation of the model therefore says that the code made no
    such access, and the findings about unchecked offsets are theorems with
    [None] in the conclusion. *)
From S2P Require Import Prelude BitExtractors BitFields.
Open Scope Z_scope.

(** [buf[i]] *)
Definition get (l : list Z) (i : Z) : option Z :=
  if (0 <=? i) && (i <? zlen l) then Some (rd l i) else None.

(** [buf[i] = v] *)
Definition put {A} (l : list A) (i : Z) (v : A) : option (list A) :=
  if (0 <=? i) && (i <? zlen l) then Some (wr l i v) else None.

(** The [n] elements from [off] on, as a [memcpy] reads them. *)
Definition getn (l : list Z) (off n : Z) : option (list Z) :=
  if (0 <=? off) && (0 <=? n) && (off + n <=? zlen l) then Some (slice l off n) else None.

(** Overwriting from [off] on, as a [memcpy] writes it. *)
Definition putn (l : list Z) (off : Z) (v : list Z) : option (list Z) :=
  if (0 <=? off) && (off + zlen v <=? zlen l)
  then Some (take (Z.to_nat off) l ++ v ++ drop (Z.to_nat (off + zlen v)) l) else None.

(** The pointer [&buf[off]]; one past the end is allowed. *)
Definition ptr (l : list Z) (off : Z) : option (list Z) :=
  if (0 <=? off) && (off <=? zlen l) then Some (drop (Z.to_nat off) l) else None.

(** A bit field reader of [BitExtractors] whose [n] bits must lie in [d]. *)
Definition inside {A} (d : list Z) (off n : Z) (v : A) : option A :=
  if (0 <=? off) && (off + n <=? zlen d) then Some v else None.

Lemma zlen_cons {A} (x : A) l : zlen (x :: l) = 1 + zlen l.
Proof. unfold zlen. cbn [length]. lia. Qed.

Lemma zlen_nil {A} : zlen (@nil A) = 0.
Proof. done. Qed.

Lemma get_Some l i : 0 <= i < zlen l -> get l i = Some (rd l i).
Proof. intros. unfold get. assert (((0 <=? i) && (i <? zlen l)) = true) as -> by lia. done. Qed.

Lemma get_None l i : ~ (0 <= i < zlen l) -> get l i = None.
Proof. intros. unfold get. assert (((0 <=? i) && (i <? zlen l)) = false) as -> by lia. done. Qed.

Lemma get_inv l i v : get l i = Some v -> 0 <= i < zlen l /\ v = rd l i.
Proof. unfold get. destruct ((0 <=? i) && (i <? zlen l)) eqn:E; [|done]. intros [= <-]. split; [lia|done]. Qed.

Lemma getn_Some l off n : 0 <= off -> 0 <= n -> off + n <= zlen l -> getn l off n = Some (slice l off n).
Proof. intros. unfold getn. assert (((0 <=? off) && (0 <=? n) && (off + n <=? zlen l)) = true) as -> by lia. done. Qed.

Lemma getn_None l off n : zlen l < off + n -> getn l off n = None.
Proof. intros. unfold getn. assert (((0 <=? off) && (0 <=? n) && (off + n <=? zlen l)) = false) as -> by lia. done. Qed.

Lemma ptr_Some l off : 0 <= off <= zlen l -> ptr l off = Some (drop (Z.to_nat off) l).
Proof. intros. unfold ptr. assert (((0 <=? off) && (off <=? zlen l)) = true) as -> by lia. done. Qed.

Lemma inside_Some {A} d off n (v : A) : 0 <= off -> off + n <= zlen d -> inside d off n v = Some v.
Proof. intros. unfold inside. assert (((0 <=? off) && (off + n <=? zlen d)) = true) as -> by lia. done. Qed.

Lemma inside_None {A} d off n (v : A) : zlen d < off + n -> inside d off n v = None.
Proof. intros. unfold inside. assert (((0 <=? off) && (off + n <=? zlen d)) = false) as -> by lia. done. Qed.

Lemma put_Some {A} (l : list A) i v : 0 <= i < zlen l -> put l i v = Some (wr l i v).
Proof. intros. unfold put. assert (((0 <=? i) && (i <? zlen l)) = true) as -> by lia. done. Qed.

Lemma putn_Some l off v : 0 <= off -> off + zlen v <= zlen l ->
  exists l', putn l off v = Some l' /\ zlen l' = zlen l.
Proof.
  intros H1 H2. unfold putn. assert (((0 <=? off) && (off + zlen v <=? zlen l)) = true) as -> by lia.
  eexists. split; [done|]. rewrite !zlen_app. unfold zlen in *. rewrite length_take, length_drop. lia.
Qed.

(** Reading a prefix is not affected by what follows it. *)
Lemma get_app_l l k i : i < zlen l -> get (l ++ k) i = get l i.
Proof.
  intros H. unfold get. rewrite rd_app_l, zlen_app by done. pose proof (zlen_nonneg k).
  assert ((i <? zlen l + zlen k) = (i <? zlen l)) as -> by lia. done.
Qed.

Lemma get_app_r l k i : 0 <= i -> get (l ++ k) (zlen l + i) = get k i.
Proof.
  intros H. pose proof (zlen_nonneg l). unfold get. rewrite rd_app_r, zlen_app by lia.
  replace (zlen l + i - zlen l) with i by lia.
  assert (((0 <=? zlen l + i) && (zlen l + i <? zlen l + zlen k)) = ((0 <=? i) && (i <? zlen k))) as -> by lia. done.
Qed.

Lemma slice_app_exact {A} (l m k : list A) off n :
  zlen l = off -> zlen m = n -> slice (l ++ m ++ k) off n = m.
Proof.
  unfold zlen, slice. intros <- <-. rewrite !Nat2Z.id, drop_app_length, take_app_length. done.
Qed.

Lemma getn_app l m k off n : zlen l = off -> zlen m = n -> getn (l ++ m ++ k) off n = Some m.
Proof.
  intros <- <-. pose proof (zlen_nonneg l). pose proof (zlen_nonneg m). pose proof (zlen_nonneg k).
  rewrite getn_Some by (rewrite ?zlen_app; lia). by rewrite slice_app_exact.
Qed.


(** Byte lists in examples are checked by computation. *)
Lemma forall_bytes l : forallb is_byteb l = true -> Forall is_byte l.
Proof.
  intros H. apply List.Forall_forall. intros x Hx. apply is_byteb_spec. by eapply forallb_forall in H.
Qed.
