(* ===== verification/BitWriter.v ===== *)
(** * BitWriter (src/src/base/backend/audio/bit_writer.cpp)

    The writer appends bit fields to a byte vector; [byte_bits] counts the bits
    used of the last byte.  [holds w B] says that the bits [B] have been
    written: the vector unpacked is [B] followed by the zero bits that fill the
    last byte.  [AddBits] appends exactly the field it is given, whatever the
    alignment, and [AddBytes] the bits of its bytes. *)
From S2P Require Import Prelude BitExtractors BitFields.
Open Scope Z_scope.

Record BitWriter := mkBW { bw_data : list Z; bw_byte_bits : Z }.

Definition BitWriter_Reset : BitWriter := mkBW [] 0.

(** [data.back() |= v] *)
Definition or_back (v : Z) (l : list Z) : list Z :=
  wr l (zlen l - 1) (Z.lor (rd l (zlen l - 1)) (u8 v)).

(** One pass of the loop of [AddBits]; the counter is the number of bits left. *)
Definition AddBits_step (data_new : Z) (st : BitWriter * Z) : BitWriter * Z :=
  let '(w, count) := st in
  let d := if bw_byte_bits w =? 0 then bw_data w ++ [0x00] else bw_data w in
  let copy_bits := Z.min count (8 - bw_byte_bits w) in
  let copy_data := u8 (Z.land (Z.shiftr data_new (count - copy_bits)) (Z.shiftr 0xFF (8 - copy_bits))) in
  let d := or_back (Z.shiftl copy_data (8 - bw_byte_bits w - copy_bits)) d in
  (mkBW d ((bw_byte_bits w + copy_bits) mod 8), count - copy_bits).

(** [while (count > 0)]; every pass takes at least one bit. *)
Definition AddBits (data_new count : Z) (w : BitWriter) : option BitWriter :=
  fst <$> while (Z.to_nat count + 2) (fun st => 0 <? snd st) (AddBits_step data_new) (w, count).

Definition AddBytes (bytes : list Z) (len : Z) (w : BitWriter) : option BitWriter :=
  zforM 0 len (fun i w => AddBits (rd bytes i) 8 w) w.

Definition WriteAudioMuxLengthBytes (w : BitWriter) : BitWriter :=
  let len := zlen (bw_data w) - 3 in
  let d := wr (bw_data w) 1 (u8 (Z.lor (rd (bw_data w) 1) (Z.land (Z.shiftr len 8) 0x1F))) in
  mkBW (wr d 2 (u8 (Z.land len 0xFF))) (bw_byte_bits w).

(** ** What has been written *)
Record holds (w : BitWriter) (B : list Z) : Prop := mk_holds {
  holds_bytes : Forall is_byte (bw_data w);
  holds_used : bw_byte_bits w = zlen B mod 8;
  holds_bits : unpack_bits (bw_data w) = B ++ zeros ((- zlen B) mod 8)
}.

Lemma holds_new : holds BitWriter_Reset [].
Proof. by split. Qed.

(** ** One pass *)
Lemma or_back_snoc v l b : or_back v (l ++ [b]) = l ++ [Z.lor b (u8 v)].
Proof.
  unfold or_back. rewrite zlen_app. change (zlen [b]) with 1. pose proof (zlen_nonneg l).
  replace (zlen l + 1 - 1) with (zlen l) by lia.
  rewrite rd_app_r, Z.sub_diag by lia. unfold wr. zcases; [lia|].
  unfold zlen. rewrite Nat2Z.id, insert_app_r_alt, Nat.sub_diag by lia. done.
Qed.

(** Or-ing [c] bits behind the [u] used ones of a byte. *)
Lemma byte_or_bits u c b v :
  0 <= u -> 0 <= c -> u + c <= 8 -> msb 8 b = msb u (Z.shiftr b (8 - u)) ++ zeros (8 - u) ->
  msb 8 (Z.lor b (u8 (Z.shiftl (u8 (Z.land v (Z.shiftr 0xFF (8 - c)))) (8 - u - c)))) =
  msb u (Z.shiftr b (8 - u)) ++ msb c v ++ zeros (8 - u - c).
Proof.
  intros Hu Hc Huc Hb.
  assert (forall i, 0 <= i < 8 - u -> Z.testbit b i = false) as Hlow.
  { intros i Hi. assert (rd (msb 8 b) (7 - i) = 0) as H.
    { rewrite Hb, rd_app_r by (rewrite zlen_msb; lia). apply rd_zeros. }
    rewrite rd_msb in H by lia. replace (8 - 1 - (7 - i)) with i in H by lia. by destruct (Z.testbit b i). }
  change 0xFF with (Z.ones 8). rewrite Z.shiftr_div_pow2 by lia. rewrite Z.ones_div_pow2 by lia.
  replace (8 - (8 - c)) with c by lia.
  apply list_eq_rd; [rewrite !zlen_app, !zlen_msb, zlen_zeros; lia|].
  rewrite zlen_msb by lia. intros i Hi. rewrite rd_msb by lia.
  rewrite Z.lor_spec, !uwrap_testbit, Z.shiftl_spec by lia.
  assert ((8 - 1 - i <? 8) = true) as -> by lia. rewrite andb_true_l.
  destruct (Z.lt_ge_cases i u); [|destruct (Z.lt_ge_cases i (u + c))].
  - rewrite rd_app_l, rd_msb, Z.shiftr_spec by (rewrite ?zlen_msb; lia).
    replace (u - 1 - i + (8 - u)) with (8 - 1 - i) by lia.
    replace (Z.testbit (u8 _) _) with false; [by rewrite orb_false_r|].
    symmetry. rewrite uwrap_testbit, Z.land_spec, Z.testbit_ones by lia.
    assert ((8 - 1 - i - (8 - u - c) <? c) = false) as -> by lia. by rewrite !andb_false_r.
  - rewrite Hlow, rd_app_r, rd_app_l, rd_msb by (rewrite ?zlen_msb; lia). rewrite zlen_msb by lia.
    rewrite uwrap_testbit, Z.land_spec, Z.testbit_ones by lia. cbn [orb].
    replace (c - 1 - (i - u)) with (8 - 1 - i - (8 - u - c)) by lia.
    assert ((8 - 1 - i - (8 - u - c) <? 8) = true) as -> by lia.
    assert ((8 - 1 - i - (8 - u - c) <? c) = true) as -> by lia.
    assert ((0 <=? 8 - 1 - i - (8 - u - c)) = true) as -> by lia. by rewrite !andb_true_r, andb_true_l.
  - rewrite !rd_app_r, rd_zeros, Hlow by (rewrite ?zlen_msb; rewrite ?zlen_msb; lia).
    by rewrite Z.testbit_neg_r by lia.
Qed.

(** The used part of the last byte, and what precedes it. *)
Lemma holds_open w B :
  holds w B -> exists l b, (if bw_byte_bits w =? 0 then bw_data w ++ [0] else bw_data w) = l ++ [b] /\
    Forall is_byte l /\ is_byte b /\ msb 8 b = msb (bw_byte_bits w) (Z.shiftr b (8 - bw_byte_bits w)) ++ zeros (8 - bw_byte_bits w) /\
    B = unpack_bits l ++ msb (bw_byte_bits w) (Z.shiftr b (8 - bw_byte_bits w)).
Proof.
  intros [Hb Hu Hd]. pose proof (Z.mod_pos_bound (zlen B) 8 ltac:(lia)) as Hr.
  destruct (Z.eqb_spec (bw_byte_bits w) 0) as [E|E].
  - exists (bw_data w), 0. rewrite E. split_and!; [done|done|apply is_byte_0|done|].
    assert ((- zlen B) mod 8 = 0) as E0 by (apply Z_mod_zero_opp_full; congruence).
    rewrite E0 in Hd. change (zeros 0) with (@nil Z) in Hd. rewrite app_nil_r in Hd. by rewrite msb_0, app_nil_r.
  - assert (((- zlen B) mod 8) = 8 - bw_byte_bits w) as Hz by (rewrite Hu, Z.mod_opp_l_nz by lia; lia).
    destruct (bw_data w) as [|b l _] using rev_ind.
    { exfalso. apply (f_equal zlen) in Hd. rewrite zlen_app, zlen_zeros in Hd by lia.
      change (zlen (unpack_bits [])) with 0 in Hd. pose proof (zlen_nonneg B). lia. }
    apply Forall_app in Hb as [Hl Hb]. apply Forall_inv in Hb.
    exists l, b. set (u := bw_byte_bits w) in *. rewrite Hz, unpack_app, unpack_1 in Hd.
    replace 8 with (u + (8 - u)) in Hd at 1 by lia. rewrite msb_split, app_assoc in Hd by lia.
    apply app_inj_2 in Hd as [Hd1 Hd2];
      [|unfold msb, zeros; rewrite length_map, length_seqZ, length_replicate; lia].
    split_and!; [done..| |done].
    replace 8 with (u + (8 - u)) at 1 by lia. rewrite msb_split by lia. by rewrite Hd2.
Qed.

Lemma zlen_msb_mod8 l u v : 0 <= u < 8 -> zlen (unpack_bits l ++ msb u v) mod 8 = u.
Proof.
  intros. rewrite zlen_app, zlen_unpack, zlen_msb, Z.add_comm, Z.mul_comm, Z_mod_plus_full by lia.
  apply Z.mod_small. lia.
Qed.

Lemma AddBits_step_holds v w count B :
  holds w B -> 0 < count ->
  let c := Z.min count (8 - bw_byte_bits w) in
  0 < c /\ snd (AddBits_step v (w, count)) = count - c /\
  holds (fst (AddBits_step v (w, count))) (B ++ msb c (Z.shiftr v (count - c))).
Proof.
  intros Hw Hc c. destruct (holds_open w B Hw) as (l & b & El & Hl & Hb & Hm & HB).
  pose proof (Z.mod_pos_bound (zlen B) 8 ltac:(lia)) as Hr. rewrite <- (holds_used w B Hw) in Hr.
  split; [lia|]. split; [done|]. unfold AddBits_step. fold c. rewrite El, or_back_snoc. cbn [fst].
  set (u := bw_byte_bits w) in *.
  assert (zlen (B ++ msb c (Z.shiftr v (count - c))) = 8 * zlen l + (u + c)) as Hlen.
  { rewrite HB, !zlen_app, zlen_unpack, !zlen_msb by lia. lia. }
  split; cbn [bw_data bw_byte_bits].
  - apply Forall_app. split; [done|]. constructor; [|done]. apply (lor_range 8); [lia|done|apply u8_range].
  - rewrite Hlen. replace (8 * zlen l + (u + c)) with (u + c + zlen l * 8) by lia. by rewrite Z_mod_plus_full.
  - rewrite unpack_app, unpack_1, byte_or_bits by (done || lia). rewrite Hlen, HB, <- !app_assoc.
    do 3 f_equal. replace (- (8 * zlen l + (u + c))) with (- (u + c) + (- zlen l) * 8) by lia.
    rewrite Z_mod_plus_full. f_equal.
    destruct (Z.eq_dec (u + c) 8) as [E8|]; [rewrite E8; change (- (8) mod 8) with 0; lia|].
    rewrite Z.mod_opp_l_nz by (rewrite ?Z.mod_small; lia). rewrite Z.mod_small by lia. lia.
Qed.

(** ** The operations *)
Lemma AddBits_holds v count w B :
  holds w B -> 0 <= count -> exists w', AddBits v count w = Some w' /\ holds w' (B ++ msb count v).
Proof.
  intros Hw Hc. unfold AddBits.
  destruct (while_total (fun st => 0 <= snd st /\ exists B', holds (fst st) B' /\ B' ++ msb (snd st) v = B ++ msb count v)
    snd (fun st => 0 <? snd st) (AddBits_step v) (Z.to_nat count + 2) (w, count)) as ([w' n] & -> & [Hn (B' & Hh & E)] & Hd).
  - split; [done|]. by exists B.
  - cbn [snd]. lia.
  - intros [w1 n] [Hn (B' & Hh & E)] Hpos. cbn [fst snd] in *. apply Z.ltb_lt in Hpos.
    destruct (AddBits_step_holds v w1 n B' Hh Hpos) as (H0 & Es & Hh'). rewrite Es.
    set (c := Z.min n (8 - bw_byte_bits w1)) in *. split; [|lia].
    split; [lia|]. eexists. split; [exact Hh'|].
    rewrite <- E, <- app_assoc, <- msb_split by lia. do 2 f_equal.
    lia.
  - cbn [fst snd] in *. zbool. assert (n = 0) as -> by lia. rewrite msb_0, app_nil_r in E.
    exists w'. by rewrite <- E.
Qed.

Lemma AddBytes_holds bytes len w B :
  holds w B -> 0 <= len <= zlen bytes ->
  exists w', AddBytes bytes len w = Some w' /\ holds w' (B ++ unpack_bits (slice bytes 0 len)).
Proof.
  intros Hw Hl. unfold AddBytes.
  apply (zforM_inv (fun i w => holds w (B ++ unpack_bits (slice bytes 0 i)))); [lia|by rewrite app_nil_r|].
  intros i w1 Hi Hh. destruct (AddBits_holds (rd bytes i) 8 w1 _ Hh) as (w2 & -> & Hh2); [lia|].
  exists w2. split; [done|]. rewrite slice_snoc, unpack_app, unpack_1, app_assoc by lia. done.
Qed.
