(* ===== verification/Latm.v ===== *)
(** * LATM framing of AAC access units (Mp4Processor::_build_aac_stream,
    src/src/base/backend/audio/mp4processor.cpp)

    Every access unit of a DAB+ super frame is wrapped in one AudioMuxElement of
    the AAC stream the program records and hands to the FDK decoder.  The
    element is laid out bit by bit: sync word, the length of the element
    patched in at the end, the stream configuration, the length of the payload
    in units of 255, the payload unchanged, and zero bits up to the next byte. *)
From S2P Require Import Prelude BitExtractors BitFields BitWriter.
Open Scope Z_scope.

(** The struct of main/dab_constants / mp4processor the parameters travel in. *)
Record SStreamParms := mk_sp {
  dacRate : Z; sbrFlag : Z; psFlag : Z; aacChannelMode : Z; mpegSurround : Z;
  CoreChConfig : Z; CoreSrIndex : Z; ExtensionSrIndex : Z
}.

(** A run of [AddBits(value, width)] calls. *)
Definition AddFields (fs : list (Z * Z)) (w : BitWriter) : option BitWriter :=
  foldl (fun r f => r ≫= AddBits (fst f) (snd f)) (Some w) fs.

(** The calls of [_build_aac_stream] up to the payload length, in order. *)
Definition latm_header (iSp : SStreamParms) : list (Z * Z) :=
  [ (0x2B7, 11)     (* syncword *)
  ; (0, 13)         (* audioMuxLengthBytes - written later *)
  ; (0, 1)          (* useSameStreamMux *)
  ; (0, 1)          (* audioMuxVersion *)
  ; (1, 1)          (* allStreamsSameTimeFraming *)
  ; (0, 6)          (* numSubFrames *)
  ; (0, 4)          (* numProgram *)
  ; (0, 3)          (* numLayer *) ] ++
  (if negb (sbrFlag iSp =? 0) then
     [ (5, 5)       (* SBR *)
     ; (CoreSrIndex iSp, 4); (CoreChConfig iSp, 4); (ExtensionSrIndex iSp, 4)
     ; (2, 5)       (* AAC LC *)
     ; (4, 3)       (* GASpecificConfig() with 960 transform *) ]
   else
     [ (2, 5); (CoreSrIndex iSp, 4); (CoreChConfig iSp, 4); (4, 3) ]) ++
  [ (0, 3)          (* frameLengthType *)
  ; (0xFF, 8)       (* latmBufferFullness *)
  ; (0, 1)          (* otherDataPresent *)
  ; (0, 1)          (* crcCheckPresent *) ].

Definition PayloadLengthInfo (iAacFrameLen : Z) (w : BitWriter) : option BitWriter :=
  w ← zforM 0 (Z.quot iAacFrameLen 255) (fun _ w => AddBits 0xFF 8 w) w;
  AddBits (Z.rem iAacFrameLen 255) 8 w.

Definition build_aac_stream (iAacFrameLen : Z) (iSp : SStreamParms) (iData : list Z) : option (list Z) :=
  w ← AddFields (latm_header iSp) BitWriter_Reset;
  w ← PayloadLengthInfo iAacFrameLen w;
  w ← AddBytes iData iAacFrameLen w;
  Some (bw_data (WriteAudioMuxLengthBytes w)).

(** ** The layout *)
Definition fields_bits (fs : list (Z * Z)) : list Z := flat_map (fun f => msb (snd f) (fst f)) fs.

Definition latm_config (sp : SStreamParms) : list Z := fields_bits (drop 2 (latm_header sp)).

Definition length_bits (n : Z) : list Z :=
  unpack_bits (replicate (Z.to_nat (n / 255)) 255 ++ [n mod 255]).

(** Reading a PayloadLengthInfo back: bytes are added until one is not 255. *)
Fixpoint read_length (l : list Z) : Z :=
  match l with
  | [] => 0
  | b :: l => if b =? 255 then 255 + read_length l else b
  end.

Lemma read_length_info n : 0 <= n -> read_length (replicate (Z.to_nat (n / 255)) 255 ++ [n mod 255]) = n.
Proof.
  intros Hn. pose proof (Z.mod_pos_bound n 255 ltac:(lia)). pose proof (Z.div_mod n 255 ltac:(lia)) as E.
  assert (forall k, read_length (replicate k 255 ++ [n mod 255]) = 255 * Z.of_nat k + n mod 255) as Hk.
  { induction k as [|k IH]; cbn [replicate app read_length]; [zcases; lia|]. rewrite Z.eqb_refl, IH. lia. }
  rewrite Hk, Z2Nat.id by (apply Z.div_pos; lia). lia.
Qed.

Lemma AddFields_holds fs w B :
  holds w B -> Forall (fun f => 0 <= snd f) fs ->
  exists w', AddFields fs w = Some w' /\ holds w' (B ++ fields_bits fs).
Proof.
  unfold AddFields. revert w B. induction fs as [|[v n] fs IH]; intros w B Hw Hf.
  - exists w. cbn. by rewrite app_nil_r.
  - apply Forall_cons_1 in Hf as [Hn Hf]. cbn [fst snd] in Hn. cbn [foldl mbind option_bind fst snd].
    destruct (AddBits_holds v n w B Hw Hn) as (w1 & -> & H1).
    destruct (IH w1 _ H1 Hf) as (w2 & -> & H2). exists w2. split; [done|].
    unfold fields_bits in *. cbn [flat_map fst snd]. by rewrite app_assoc.
Qed.

Lemma PayloadLengthInfo_holds n w B :
  holds w B -> 0 <= n -> exists w', PayloadLengthInfo n w = Some w' /\ holds w' (B ++ length_bits n).
Proof.
  intros Hw Hn. unfold PayloadLengthInfo, length_bits. rewrite Z.quot_div_nonneg, Z.rem_mod_nonneg by lia.
  assert (0 <= n / 255) by (apply Z.div_pos; lia).
  destruct (zforM_inv (fun i w => holds w (B ++ unpack_bits (replicate (Z.to_nat i) 255))) 0 (n / 255)
    (fun _ w => AddBits 0xFF 8 w) w) as (w1 & -> & H1); [done|by rewrite app_nil_r| |].
  - intros i w1 Hi Hh. destruct (AddBits_holds 255 8 w1 _ Hh) as (w2 & -> & H2); [lia|].
    exists w2. split; [done|]. replace (Z.to_nat (i + 1)) with (Z.to_nat i + 1)%nat by lia.
    rewrite replicate_add, unpack_app, app_assoc. done.
  - cbn [mbind option_bind]. destruct (AddBits_holds (n mod 255) 8 w1 _ H1) as (w2 & -> & H2); [lia|].
    exists w2. split; [done|]. by rewrite unpack_app, unpack_1, app_assoc.
Qed.

Lemma latm_header_widths sp : Forall (fun f => 0 <= snd f) (latm_header sp).
Proof.
  unfold latm_header. rewrite !Forall_app. split_and!; [|destruct (negb _)|]; repeat constructor; cbn; lia.
Qed.

Lemma zlen_fields_bits fs :
  Forall (fun f => 0 <= snd f) fs -> zlen (fields_bits fs) = foldr (fun f n => snd f + n) 0 fs.
Proof.
  induction fs as [|[v n] fs IH]; intros H; [done|]. apply Forall_cons_1 in H as [H0 H].
  unfold fields_bits in *. cbn [flat_map fst snd foldr] in *. rewrite zlen_app, zlen_msb, IH; done.
Qed.

(** Patching the length into the first three bytes. *)
Lemma mux_length_bits len :
  0 <= len < 8192 ->
  msb 8 0x56 ++ msb 8 (u8 (Z.lor 0xE0 (Z.land (Z.shiftr len 8) 0x1F))) ++ msb 8 (u8 (Z.land len 0xFF)) =
  msb 11 0x2B7 ++ msb 13 len.
Proof.
  intros H. apply (bool_decide_eq_true_1 (_ = _)). revert len H.
  apply (forall_range 8192 (fun len => bool_decide
    (msb 8 0x56 ++ msb 8 (u8 (Z.lor 0xE0 (Z.land (Z.shiftr len 8) 0x1F))) ++ msb 8 (u8 (Z.land len 0xFF)) =
     msb 11 0x2B7 ++ msb 13 len))).
  vm_compute. reflexivity.
Qed.

Lemma msb8_app_inj b v l k : is_byte b -> is_byte v -> msb 8 b ++ l = msb 8 v ++ k -> b = v /\ l = k.
Proof.
  intros Hb Hv E. apply app_inj_1 in E as [E ->]; [|done]. split; [|done]. by apply (msb_inj 8).
Qed.

Lemma mux_length_patch w rest :
  Forall is_byte (bw_data w) -> unpack_bits (bw_data w) = msb 11 0x2B7 ++ msb 13 0 ++ rest ->
  zlen (bw_data w) < 8192 + 3 ->
  let out := bw_data (WriteAudioMuxLengthBytes w) in
  Forall is_byte out /\ zlen out = zlen (bw_data w) /\
  unpack_bits out = msb 11 0x2B7 ++ msb 13 (zlen out - 3) ++ rest.
Proof.
  destruct w as [d u]. cbn [bw_data]. intros Hb Hd Hl.
  assert (msb 11 0x2B7 ++ msb 13 0 ++ rest = msb 8 0x56 ++ msb 8 0xE0 ++ msb 8 0 ++ rest) as E0 by done.
  rewrite E0 in Hd. pose proof (f_equal zlen Hd) as Hn. rewrite zlen_unpack, !zlen_app, !zlen_msb in Hn by lia.
  pose proof (zlen_nonneg rest).
  destruct d as [|b0 [|b1 [|b2 r]]]; [change (zlen (@nil Z)) with 0 in Hn; lia|change (zlen [b0]) with 1 in Hn; lia
    |change (zlen [b0; b1]) with 2 in Hn; lia|].
  apply Forall_cons_1 in Hb as [Hb0 Hb]. apply Forall_cons_1 in Hb as [Hb1 Hb]. apply Forall_cons_1 in Hb as [Hb2 Hr].
  rewrite !unpack_cons in Hd.
  apply msb8_app_inj in Hd as [-> Hd]; [|done|unfold is_byte; lia].
  apply msb8_app_inj in Hd as [-> Hd]; [|done|unfold is_byte; lia].
  apply msb8_app_inj in Hd as [-> Hd]; [|done|unfold is_byte; lia].
  unfold WriteAudioMuxLengthBytes. cbn [bw_data].
  change (rd (0x56 :: 0xE0 :: 0 :: r) 1) with 0xE0.
  set (len := zlen (0x56 :: 0xE0 :: 0 :: r) - 3) in *.
  change (wr (wr (0x56 :: 0xE0 :: 0 :: r) 1 ?a) 2 ?b) with (0x56 :: a :: b :: r).
  assert (zlen (0x56 :: 0xE0 :: 0 :: r) = 3 + zlen r) as El by (unfold zlen; cbn [length]; lia).
  pose proof (zlen_nonneg r). rewrite !unpack_cons, Hd.
  assert (forall a b, zlen (0x56 :: a :: b :: r) = 3 + zlen r) as El2 by (intros; unfold zlen; cbn [length]; lia).
  split_and!.
  - repeat (constructor; [first [apply u8_range|done]|]). done.
  - by rewrite El2.
  - rewrite El2. replace (3 + zlen r - 3) with len by lia. rewrite !app_assoc. f_equal.
    rewrite <- !app_assoc. apply mux_length_bits. lia.
Qed.

Lemma latm_header_bits sp :
  fields_bits (latm_header sp) = msb 11 0x2B7 ++ msb 13 0 ++ latm_config sp.
Proof. done. Qed.

Lemma zlen_latm_config sp : zlen (latm_config sp) <= 54.
Proof.
  unfold latm_config. rewrite zlen_fields_bits by apply Forall_drop, latm_header_widths.
  unfold latm_header. destruct (negb _); cbn; lia.
Qed.

Lemma zlen_length_bits n : 0 <= n -> zlen (length_bits n) = 8 * (n / 255 + 1).
Proof.
  intros. unfold length_bits. rewrite zlen_unpack, zlen_app. unfold zlen at 1. rewrite length_replicate.
  change (zlen [n mod 255]) with 1. rewrite Z2Nat.id; [done|]. apply Z.div_pos; lia.
Qed.

(** The stream element built for an access unit of at most 960 bytes is, bit
    for bit, the LATM sync word, the number of bytes that follow the first three,
    the stream configuration of the parameters, the length information (which
    reads back as the length of the unit), the unit itself unchanged, and fewer
    than eight zero bits up to the byte boundary. *)
Lemma build_aac_stream_bits (len : Z) (sp : SStreamParms) (au : list Z) :
  0 <= len <= 960 -> len <= zlen au -> Forall is_byte au ->
  exists out pad, build_aac_stream len sp au = Some out /\ Forall is_byte out /\ 0 <= pad < 8 /\
    unpack_bits out = msb 11 0x2B7 ++ msb 13 (zlen out - 3) ++ latm_config sp ++ length_bits len ++
                      unpack_bits (slice au 0 len) ++ zeros pad /\
    read_length (replicate (Z.to_nat (len / 255)) 255 ++ [len mod 255]) = len.
Proof.
  intros Hl Ha Hb. unfold build_aac_stream.
  destruct (AddFields_holds _ _ _ holds_new (latm_header_widths sp)) as (w1 & -> & H1).
  cbn [mbind option_bind app] in *.
  destruct (PayloadLengthInfo_holds len w1 _ H1) as (w2 & -> & H2); [lia|]. cbn [mbind option_bind].
  destruct (AddBytes_holds au len w2 _ H2) as (w3 & -> & [Hb3 _ H3]); [lia|]. cbn [mbind option_bind].
  rewrite latm_header_bits, <- !app_assoc in H3.
  match type of H3 with _ = _ ++ _ ++ ?r => set (rest := r) in * end.
  pose proof (f_equal zlen H3) as Hn. rewrite zlen_unpack, !zlen_app, !zlen_msb in Hn by lia.
  assert (zlen rest < 8192 * 8) as Hrest.
  { unfold rest. set (p := _ mod 8). assert (0 <= p < 8) by (apply Z.mod_pos_bound; lia).
    rewrite !zlen_app, zlen_length_bits, zlen_unpack, zlen_slice, zlen_zeros by lia.
    pose proof (zlen_latm_config sp). assert (len / 255 <= 3) by (apply Z.lt_succ_r, Z.div_lt_upper_bound; lia). lia. }
  destruct (mux_length_patch w3 rest Hb3 H3) as (Hb4 & _ & H4); [lia|].
  eexists _, _. split; [reflexivity|]. split; [done|]. split; [|split; [exact H4|apply read_length_info; lia]].
  apply Z.mod_pos_bound. lia.
Qed.

(** ** The element as a function
    An AudioMuxElement with its AudioSyncStream header (ISO/IEC 14496-3): one
    program with one layer of AAC LC, with SBR or without, 960 samples per frame. *)
Definition stream_mux_config (sp : SStreamParms) : list Z :=
  [0; 0; 1] ++ msb 6 0 ++ msb 4 0 ++ msb 3 0 ++
  (if sbrFlag sp =? 0 then msb 5 2 ++ msb 4 (CoreSrIndex sp) ++ msb 4 (CoreChConfig sp)
   else msb 5 5 ++ msb 4 (CoreSrIndex sp) ++ msb 4 (CoreChConfig sp) ++ msb 4 (ExtensionSrIndex sp) ++ msb 5 2) ++
  msb 3 4 ++ msb 3 0 ++ msb 8 255 ++ [0; 0].

Definition packed (bits : list Z) : list Z := map (fun i => field bits (8 * i) 8) (seqZ 0 (zlen bits / 8)).
Definition latm_element (sp : SStreamParms) (au : list Z) : list Z :=
  let body := stream_mux_config sp ++ length_bits (zlen au) ++ unpack_bits au in
  let bytes := (24 + zlen body + 7) / 8 in
  packed (msb 11 0x2B7 ++ msb 13 (bytes - 3) ++ body ++ zeros (8 * bytes - (24 + zlen body))).

Lemma packed_unpack l : Forall is_byte l -> packed (unpack_bits l) = l.
Proof.
  intros Hl. unfold packed. rewrite zlen_unpack, (Z.mul_comm 8), Z.div_mul by lia. pose proof (zlen_nonneg l).
  apply list_eq_rd; rewrite zlen_map_seqZ by done; [done|]. intros i Hi. rewrite rd_map_seqZ by done. by apply field_unpack_byte.
Qed.

Lemma stream_mux_config_bits sp : latm_config sp = stream_mux_config sp.
Proof.
  unfold latm_config, stream_mux_config, latm_header, fields_bits.
  destruct (sbrFlag sp =? 0); cbn [negb app drop flat_map fst snd]; rewrite <- ?app_assoc, ?app_nil_r; reflexivity.
Qed.

Lemma build_aac_element sp au : Forall is_byte au -> zlen au <= 960 -> build_aac_stream (zlen au) sp au = Some (latm_element sp au).
Proof.
  intros Ha Hl. pose proof (zlen_nonneg au). destruct (build_aac_stream_bits (zlen au) sp au ltac:(lia) ltac:(lia) Ha) as (out & pad & -> & Hb & Hp & E & _). f_equal.
  assert (slice au 0 (zlen au) = au) as Es by (unfold slice, zlen; change (Z.to_nat 0) with 0%nat; by rewrite drop_0, Nat2Z.id, firstn_all).
  rewrite Es, stream_mux_config_bits in E. rewrite <- (packed_unpack out Hb). unfold latm_element. cbv zeta.
  set (body := stream_mux_config sp ++ length_bits (zlen au) ++ unpack_bits au).
  assert (unpack_bits out = msb 11 0x2B7 ++ msb 13 (zlen out - 3) ++ body ++ zeros pad) as E2 by (unfold body; by rewrite E, <- !app_assoc).
  pose proof (f_equal zlen E2) as Hn. rewrite zlen_unpack, !zlen_app, !zlen_msb, zlen_zeros in Hn by lia.
  assert ((24 + zlen body + 7) / 8 = zlen out) as -> by (Z.to_euclidean_division_equations; lia).
  replace (8 * zlen out - (24 + zlen body)) with pad by lia. by rewrite E2.
Qed.
