(* ===== verification/Crc.v ===== *)
(** * CRC-16 (src/src/base/backend/crc.cpp)

    Two independent implementations of the X.25 CRC guard the receiver: the
    table-driven [calc_crc]/[check_crc_bytes] on packed bytes (data groups,
    DAB+ access units, MOT) and the 16-cell shift register [check_CRC_bits]
    on bit arrays (FIBs, MSC data groups).  Both are shown to be the
    bit-serial division by x^16+x^12+x^5+1, hence equal to each other on the
    unpacked message, and to detect every error burst of up to 16 bits. *)
From S2P Require Import Prelude BitExtractors.
Open Scope Z_scope.

(** ** The code *)

(** g(x)=x^16+x^12+x^5+1 (ITU-T Recommendation X.25). *)
Definition crctab_1021 : list Z := [
  0x0000; 0x1021; 0x2042; 0x3063; 0x4084; 0x50a5; 0x60c6; 0x70e7;
  0x8108; 0x9129; 0xa14a; 0xb16b; 0xc18c; 0xd1ad; 0xe1ce; 0xf1ef;
  0x1231; 0x0210; 0x3273; 0x2252; 0x52b5; 0x4294; 0x72f7; 0x62d6;
  0x9339; 0x8318; 0xb37b; 0xa35a; 0xd3bd; 0xc39c; 0xf3ff; 0xe3de;
  0x2462; 0x3443; 0x0420; 0x1401; 0x64e6; 0x74c7; 0x44a4; 0x5485;
  0xa56a; 0xb54b; 0x8528; 0x9509; 0xe5ee; 0xf5cf; 0xc5ac; 0xd58d;
  0x3653; 0x2672; 0x1611; 0x0630; 0x76d7; 0x66f6; 0x5695; 0x46b4;
  0xb75b; 0xa77a; 0x9719; 0x8738; 0xf7df; 0xe7fe; 0xd79d; 0xc7bc;
  0x48c4; 0x58e5; 0x6886; 0x78a7; 0x0840; 0x1861; 0x2802; 0x3823;
  0xc9cc; 0xd9ed; 0xe98e; 0xf9af; 0x8948; 0x9969; 0xa90a; 0xb92b;
  0x5af5; 0x4ad4; 0x7ab7; 0x6a96; 0x1a71; 0x0a50; 0x3a33; 0x2a12;
  0xdbfd; 0xcbdc; 0xfbbf; 0xeb9e; 0x9b79; 0x8b58; 0xbb3b; 0xab1a;
  0x6ca6; 0x7c87; 0x4ce4; 0x5cc5; 0x2c22; 0x3c03; 0x0c60; 0x1c41;
  0xedae; 0xfd8f; 0xcdec; 0xddcd; 0xad2a; 0xbd0b; 0x8d68; 0x9d49;
  0x7e97; 0x6eb6; 0x5ed5; 0x4ef4; 0x3e13; 0x2e32; 0x1e51; 0x0e70;
  0xff9f; 0xefbe; 0xdfdd; 0xcffc; 0xbf1b; 0xaf3a; 0x9f59; 0x8f78;
  0x9188; 0x81a9; 0xb1ca; 0xa1eb; 0xd10c; 0xc12d; 0xf14e; 0xe16f;
  0x1080; 0x00a1; 0x30c2; 0x20e3; 0x5004; 0x4025; 0x7046; 0x6067;
  0x83b9; 0x9398; 0xa3fb; 0xb3da; 0xc33d; 0xd31c; 0xe37f; 0xf35e;
  0x02b1; 0x1290; 0x22f3; 0x32d2; 0x4235; 0x5214; 0x6277; 0x7256;
  0xb5ea; 0xa5cb; 0x95a8; 0x8589; 0xf56e; 0xe54f; 0xd52c; 0xc50d;
  0x34e2; 0x24c3; 0x14a0; 0x0481; 0x7466; 0x6447; 0x5424; 0x4405;
  0xa7db; 0xb7fa; 0x8799; 0x97b8; 0xe75f; 0xf77e; 0xc71d; 0xd73c;
  0x26d3; 0x36f2; 0x0691; 0x16b0; 0x6657; 0x7676; 0x4615; 0x5634;
  0xd94c; 0xc96d; 0xf90e; 0xe92f; 0x99c8; 0x89e9; 0xb98a; 0xa9ab;
  0x5844; 0x4865; 0x7806; 0x6827; 0x18c0; 0x08e1; 0x3882; 0x28a3;
  0xcb7d; 0xdb5c; 0xeb3f; 0xfb1e; 0x8bf9; 0x9bd8; 0xabbb; 0xbb9a;
  0x4a75; 0x5a54; 0x6a37; 0x7a16; 0x0af1; 0x1ad0; 0x2ab3; 0x3a92;
  0xfd2e; 0xed0f; 0xdd6c; 0xcd4d; 0xbdaa; 0xad8b; 0x9de8; 0x8dc9;
  0x7c26; 0x6c07; 0x5c64; 0x4c45; 0x3ca2; 0x2c83; 0x1ce0; 0x0cc1;
  0xef1f; 0xff3e; 0xcf5d; 0xdf7c; 0xaf9b; 0xbfba; 0x8fd9; 0x9ff8;
  0x6e17; 0x7e36; 0x4e55; 0x5e74; 0x2e93; 0x3eb2; 0x0ed1; 0x1ef0 ].

(** One iteration of the loop of [calc_crc]. *)
Definition calc_crc_step (b crc : Z) : Z :=
  let pos := Z.land (Z.lxor b (Z.shiftr crc 8)) 0xff in
  u16 (Z.lxor (rd crctab_1021 pos) (Z.shiftl crc 8)).

Definition calc_crc (data : list Z) (length : Z) : Z :=
  let crc := zfor 0 length (fun i crc => calc_crc_step (rd data i) crc) 0xffff in
  u16 (Z.lnot crc).

(** The CRC is expected behind the message, in two bytes. *)
Definition check_crc_bytes (msg : list Z) (len : Z) : bool :=
  let accumulator := calc_crc msg len in
  let crc := u16 (Z.lor (Z.shiftl (rd msg len) 8) (rd msg (len + 1))) in
  Z.lxor crc accumulator =? 0.

(** MSB .. LSB *)
Definition crcPolynome : list Z := [0; 0; 0; 1; 0; 0; 0; 0; 0; 0; 1; 0; 0; 0; 0].

(** One input bit of [check_CRC_bits]: either the feedback taps are xored in
    while shifting, or the register is moved down by one cell. *)
Definition crc_bits_shift (b : list Z) (bit : Z) : list Z :=
  if Z.lxor (rd b 0) bit =? 1 then
    let b := zfor 0 15 (fun f b => wr b f (Z.lxor (rd crcPolynome f) (rd b (f + 1)))) b in
    wr b 15 1
  else
    let b := slice b 1 15 ++ slice b 15 1 in (* memmove(&b[0], &b[1], 15) *)
    wr b 15 0.

Definition crc_bits_loop (iIn : list Z) (iSize : Z) : list Z :=
  zfor 0 iSize (fun i b =>
    let invBit := if iSize - 16 <=? i then 1 else 0 in
    crc_bits_shift b (Z.lxor (rd iIn i) invBit)) (replicate 16 1).

Definition check_CRC_bits (iIn : list Z) (iSize : Z) : bool :=
  let b := crc_bits_loop iIn iSize in
  let Sum := zfor 0 16 (fun i s => i16 (s + rd b i)) 0 in
  Sum =? 0.

(** ** Reference: bit-serial division on a 16-bit register *)
Definition crc_step (poly reg : Z) (bit : bool) : Z :=
  let reg' := u16 (Z.shiftl reg 1) in
  if xorb (Z.testbit reg 15) bit then Z.lxor reg' poly else reg'.
Definition crc_run (poly reg : Z) (bits : list bool) : Z := fold_left (crc_step poly) bits reg.

Definition bools_of (l : list Z) : list bool := map (fun z => Z.odd z) l.
Definition byte_bools (b : Z) : list bool := bools_of (byte_bits b).
Definition is_reg (z : Z) : Prop := 0 <= z < 2 ^ 16.

(** The 16 cells of a register, most significant first. *)
Definition reg_cells (r : Z) : list Z :=
  map (fun k => b2z (Z.testbit r k)) [15; 14; 13; 12; 11; 10; 9; 8; 7; 6; 5; 4; 3; 2; 1; 0].

(** ** The bit-serial division is linear *)
Lemma crc_step_alt p r b :
  crc_step p r b = Z.lxor (u16 (Z.shiftl r 1)) (if xorb (Z.testbit r 15) b then p else 0).
Proof. unfold crc_step. case_match; [done|]. by rewrite Z.lxor_0_r. Qed.

Lemma crc_step_reg p r b : is_reg p -> is_reg (crc_step p r b).
Proof.
  intros Hp. rewrite crc_step_alt. apply lxor_range; [lia|by apply uwrap_range|].
  case_match; [done|lia].
Qed.

Lemma crc_run_reg p r l : is_reg p -> is_reg r -> is_reg (crc_run p r l).
Proof.
  intros Hp Hr. apply (fold_left_inv is_reg); [done|]. intros. by apply crc_step_reg.
Qed.

Lemma crc_step_lin p r1 r2 b1 b2 :
  crc_step p (Z.lxor r1 r2) (xorb b1 b2) = Z.lxor (crc_step p r1 b1) (crc_step p r2 b2).
Proof.
  rewrite !crc_step_alt, Z.shiftl_lxor, uwrap_lxor, Z.lxor_spec by lia.
  apply Z.bits_inj'. intros i Hi. rewrite !Z.lxor_spec.
  destruct (Z.testbit r1 15), (Z.testbit r2 15), b1, b2; simpl;
    rewrite ?Z.bits_0; repeat destruct (Z.testbit _ i); done.
Qed.

Lemma crc_run_lin p r1 r2 l1 l2 :
  length l1 = length l2 ->
  crc_run p (Z.lxor r1 r2) (zip_with xorb l1 l2) = Z.lxor (crc_run p r1 l1) (crc_run p r2 l2).
Proof.
  revert r1 r2 l2. induction l1 as [|b1 l1 IH]; intros r1 r2 [|b2 l2] H; try done.
  unfold crc_run in *. simpl. rewrite crc_step_lin. apply IH. by injection H.
Qed.

Lemma crc_run_app p r l k : crc_run p r (l ++ k) = crc_run p (crc_run p r l) k.
Proof. apply fold_left_app. Qed.

Lemma crc_run_zero p n : crc_run p 0 (replicate n false) = 0.
Proof. induction n as [|n IH]; [done|]. exact IH. Qed.

(** A register bit-string divided by itself leaves nothing: the top bit always
    cancels the input bit, so the polynomial is never added. *)
Lemma crc_run_byte_self p b : is_byte b -> crc_run p (Z.shiftl b 8) (byte_bools b) = 0.
Proof.
  intros Hb. apply Z.eqb_eq. revert b Hb. apply (forall_range 256). by vm_compute.
Qed.

Lemma crc_run_low p b : is_byte b -> crc_run p b (replicate 8 false) = Z.shiftl b 8.
Proof.
  intros Hb. apply Z.eqb_eq. revert b Hb. apply (forall_range 256). by vm_compute.
Qed.

Lemma reg_split r : is_reg r -> r = Z.lxor (Z.shiftl (Z.shiftr r 8) 8) (u8 r).
Proof.
  intros Hr. apply Z.bits_inj'. intros i Hi. rewrite Z.lxor_spec, uwrap_testbit by lia.
  destruct (Z.ltb_spec i 8).
  - by rewrite Z.shiftl_spec_low by lia.
  - rewrite Z.shiftl_spec_high, Z.shiftr_spec, Z.sub_add by lia. simpl.
    by rewrite xorb_false_r.
Qed.

Lemma reg_hi_byte r : is_reg r -> is_byte (Z.shiftr r 8).
Proof.
  intros Hr. unfold is_byte. rewrite Z.shiftr_div_pow2 by lia. unfold is_reg in Hr.
  split; [apply Z.div_pos; lia|]. apply Z.div_lt_upper_bound; lia.
Qed.

Lemma zip_xorb_false_l l : zip_with xorb (replicate (length l) false) l = l.
Proof. induction l as [|b l IH]; [done|]. simpl. by rewrite IH. Qed.

Lemma zip_xorb_false_r l : zip_with xorb l (replicate (length l) false) = l.
Proof. induction l as [|b l IH]; [done|]. simpl. by rewrite IH, xorb_false_r. Qed.

(** Eight serial steps are one table look-up. *)
Lemma crc_run_byte p r b :
  is_reg r -> is_byte b ->
  crc_run p r (byte_bools b) =
  Z.lxor (u16 (Z.shiftl r 8))
         (crc_run p (Z.shiftl (Z.lxor (Z.shiftr r 8) b) 8) (replicate 8 false)).
Proof.
  intros Hr Hb.
  set (h := Z.shiftl (Z.lxor (Z.shiftr r 8) b) 8).
  assert (r = Z.lxor h (Z.lxor (Z.shiftl b 8) (u8 r))) as E.
  { rewrite (reg_split r Hr) at 1. subst h. rewrite Z.shiftl_lxor.
    rewrite <- !Z.lxor_assoc. f_equal. by rewrite !Z.lxor_assoc, Z.lxor_nilpotent, Z.lxor_0_r. }
  rewrite E at 1.
  rewrite <- (zip_xorb_false_l (byte_bools b)) at 1.
  rewrite crc_run_lin by done. rewrite Z.lxor_comm. f_equal.
  rewrite <- (zip_xorb_false_r (byte_bools b)), crc_run_lin by done.
  rewrite crc_run_byte_self, crc_run_low by auto with dab. rewrite Z.lxor_0_l.
  apply Z.bits_inj'. intros i Hi. rewrite uwrap_testbit by lia.
  destruct (Z.lt_ge_cases i 8); [rewrite !Z.shiftl_spec_low by lia; by rewrite andb_false_r|].
  rewrite !Z.shiftl_spec_high, uwrap_testbit by lia.
  f_equal. lia.
Qed.

(** The table holds the remainders of the 256 leading bytes. *)
Lemma crctab_1021_spec pos :
  is_byte pos ->
  rd crctab_1021 pos = crc_run 0x1021 (Z.shiftl pos 8) (replicate 8 false).
Proof.
  intros Hp. apply Z.eqb_eq. revert pos Hp. apply (forall_range 256). by vm_compute.
Qed.

Lemma is_reg_1021 : is_reg 0x1021.
Proof. unfold is_reg. lia. Qed.
#[export] Hint Resolve is_reg_1021 crc_run_reg reg_hi_byte : dab.

Lemma calc_crc_step_run b crc :
  is_byte b -> is_reg crc -> calc_crc_step b crc = crc_run 0x1021 crc (byte_bools b).
Proof.
  intros Hb Hc. unfold calc_crc_step. cbv zeta.
  assert (is_byte (Z.lxor b (Z.shiftr crc 8))) as Hx by auto with dab.
  replace (Z.land (Z.lxor b (Z.shiftr crc 8)) 255) with (Z.lxor b (Z.shiftr crc 8)).
  2:{ change 255 with (Z.ones 8). rewrite Z.land_ones by lia. symmetry.
      by apply Z.mod_small. }
  rewrite crctab_1021_spec by done. rewrite uwrap_lxor by lia.
  rewrite crc_run_byte by done. rewrite Z.lxor_comm, (Z.lxor_comm (Z.shiftr crc 8)).
  f_equal. apply uwrap_small. apply crc_run_reg; [apply is_reg_1021|].
  unfold is_byte in Hx. unfold is_reg. rewrite Z.shiftl_mul_pow2 by lia. lia.
Qed.

(** [calc_crc] divides the first [length] bytes, MSB first. *)
Definition msg_bools (data : list Z) (n : Z) : list bool :=
  flat_map byte_bools (slice data 0 n).

Lemma slice_succ l n :
  0 <= n < zlen l -> slice l 0 (n + 1) = slice l 0 n ++ [rd l n].
Proof.
  intros Hn. unfold slice, zlen in *. rewrite !drop_0.
  replace (Z.to_nat (n + 1)) with (S (Z.to_nat n)) by lia.
  rewrite rd_nth by lia. apply take_S_r. rewrite nth_lookup.
  destruct (lookup_lt_is_Some_2 l (Z.to_nat n)) as [x Hx]; [lia|]. by rewrite Hx.
Qed.

Lemma calc_crc_loop_run data n :
  Forall is_byte data -> 0 <= n <= zlen data ->
  zfor 0 n (fun i crc => calc_crc_step (rd data i) crc) 0xffff
  = crc_run 0x1021 0xffff (msg_bools data n).
Proof.
  intros Hd Hn.
  apply (zfor_inv (fun i crc => crc = crc_run 0x1021 0xffff (msg_bools data i)));
    [lia|done|].
  intros i crc Hi ->. unfold msg_bools. rewrite slice_succ, flat_map_app, crc_run_app by lia.
  cbn [flat_map]. rewrite app_nil_r. apply calc_crc_step_run.
  - by apply rd_Forall; auto with dab.
  - apply crc_run_reg; [apply is_reg_1021|unfold is_reg; lia].
Qed.

(** ** The shift register of [check_CRC_bits] *)
Lemma b2z_lxor x bit : is_bit bit -> (Z.lxor (b2z x) bit =? 1) = xorb x (Z.odd bit).
Proof.
  unfold is_bit. intros Hb. assert (bit = 0 \/ bit = 1) as [-> | ->] by lia; by destruct x.
Qed.

Lemma testbit_shl1 r k : 0 <= k -> 0 < k < 16 ->
  Z.testbit (u16 (Z.shiftl r 1)) k = Z.testbit r (k - 1).
Proof.
  intros _ Hk. rewrite uwrap_testbit by lia. rewrite Z.shiftl_spec by lia.
  destruct (Z.ltb_spec k 16); [done|lia].
Qed.

Lemma testbit_shl1_0 r : Z.testbit (u16 (Z.shiftl r 1)) 0 = false.
Proof. rewrite uwrap_testbit, Z.shiftl_spec_low by lia. done. Qed.

Lemma crc_bits_shift_step r bit :
  is_reg r -> is_bit bit ->
  crc_bits_shift (reg_cells r) bit = reg_cells (crc_step 0x1021 r (Z.odd bit)).
Proof.
  intros Hr Hb. unfold crc_bits_shift. change (rd (reg_cells r) 0) with (b2z (Z.testbit r 15)).
  rewrite b2z_lxor by done. rewrite crc_step_alt.
  destruct (xorb (Z.testbit r 15) (Z.odd bit)).
  - transitivity (map (fun k => b2z (xorb (Z.testbit (u16 (Z.shiftl r 1)) k)
      (Z.testbit 0x1021 k))) [15; 14; 13; 12; 11; 10; 9; 8; 7; 6; 5; 4; 3; 2; 1; 0]).
    2:{ apply map_ext. intros k. by rewrite Z.lxor_spec. }
    cbn [map]. rewrite testbit_shl1_0, !testbit_shl1 by lia.
    cbn [Z.sub]. cbv -[Z.testbit Z.lxor b2z].
    repeat (apply (f_equal2 cons);
      [match goal with |- context [Z.testbit r ?k] => by destruct (Z.testbit r k) end|]).
    reflexivity.
  - rewrite Z.lxor_0_r. unfold reg_cells at 3. cbn [map].
    rewrite testbit_shl1_0, !testbit_shl1 by lia. reflexivity.
Qed.

Lemma reg_cells_bit r : Forall is_bit (reg_cells r).
Proof.
  unfold reg_cells. apply Forall_map, Forall_forall. intros k _.
  unfold is_bit, compose. destruct (Z.testbit r k); simpl; lia.
Qed.

Lemma reg_cells_zero r :
  is_reg r -> (forall i, 0 <= i < 16 -> rd (reg_cells r) i = 0) -> r = 0.
Proof.
  intros Hr H. apply (bits_ext 16); [done|lia|]. intros i Hi. rewrite Z.bits_0.
  specialize (H (15 - i) ltac:(lia)).
  assert (rd (reg_cells r) (15 - i) = b2z (Z.testbit r i)) as E.
  { rewrite rd_nth by lia. unfold reg_cells.
    change 0 with ((fun k => b2z (Z.testbit 0 k)) 0) at 1.
    assert (i = 0 \/ i = 1 \/ i = 2 \/ i = 3 \/ i = 4 \/ i = 5 \/ i = 6 \/ i = 7 \/ i = 8 \/
      i = 9 \/ i = 10 \/ i = 11 \/ i = 12 \/ i = 13 \/ i = 14 \/ i = 15) as Hc by lia.
    repeat (destruct Hc as [->|Hc]; [done|]). by subst. }
  rewrite E in H. by destruct (Z.testbit r i).
Qed.

(** The register sum is zero exactly when every cell is. *)
Lemma cell_sum_zero b :
  Forall is_bit b ->
  (zfor 0 16 (fun i s => i16 (s + rd b i)) 0 =? 0) = true <->
  (forall i, 0 <= i < 16 -> rd b i = 0).
Proof.
  intros Hb. rewrite Z.eqb_eq.
  apply (zfor_inv (fun n s => 0 <= s <= n /\ (s = 0 <-> forall i, 0 <= i < n -> rd b i = 0)));
    [lia|split; [lia|split; [lia|done]]|].
  intros n s Hn [Hs IH].
  pose proof (rd_Forall is_bit b n is_bit_0 Hb) as Hr. unfold is_bit in Hr.
  rewrite i16_small by lia. split; [lia|]. split.
  - intros H0 i Hi. destruct (Z.eq_dec i n) as [->|]; [lia|]. apply IH; lia.
  - intros H. rewrite (H n) by lia. rewrite (proj2 IH); [done|]. intros. apply H. lia.
Qed.

(** The bits the division sees: the last 16 are complemented. *)
Definition crc_mask (n : Z) : list bool := map (fun i => n - 16 <=? i) (seqZ 0 n).
Definition crc_input (iIn : list Z) (n : Z) : list bool :=
  zip_with xorb (bools_of (slice iIn 0 n)) (crc_mask n).

Lemma bools_of_app l k : bools_of (l ++ k) = bools_of l ++ bools_of k.
Proof. apply map_app. Qed.

Lemma crc_input_map iIn n m :
  0 <= m <= n -> n <= zlen iIn ->
  zip_with xorb (bools_of (slice iIn 0 m)) (map (fun i => n - 16 <=? i) (seqZ 0 m))
  = map (fun i => xorb (Z.odd (rd iIn i)) (n - 16 <=? i)) (seqZ 0 m).
Proof.
  intros Hm Hn. destruct Hm as [Hm Hmn]. revert Hmn. pattern m. apply natlike_ind; [done|..|done].
  intros k Hk IH Hk'. rewrite <- Z.add_1_r, slice_succ by lia.
  rewrite seqZ_app by lia. rewrite bools_of_app, !map_app. simpl.
  rewrite zip_with_app, IH by (lia || (unfold bools_of; rewrite !length_map, length_seqZ;
    unfold slice, zlen in *; rewrite length_take, length_drop; lia)).
  done.
Qed.

Lemma crc_bits_loop_run iIn n :
  Forall is_bit iIn -> 0 <= n <= zlen iIn ->
  crc_bits_loop iIn n = reg_cells (crc_run 0x1021 0xffff (crc_input iIn n)).
Proof.
  intros Hb Hn. unfold crc_input, crc_mask, crc_bits_loop. rewrite crc_input_map by lia.
  apply (zfor_inv (fun m b => b = reg_cells (crc_run 0x1021 0xffff
    (map (fun i => xorb (Z.odd (rd iIn i)) (n - 16 <=? i)) (seqZ 0 m))))); [lia|done|].
  intros i b Hi ->. rewrite seqZ_app, map_app, crc_run_app by lia.
  pose proof (rd_Forall is_bit iIn i is_bit_0 Hb) as Hr. unfold is_bit in Hr.
  rewrite crc_bits_shift_step.
  - change (seqZ (0 + i) 1) with [Z.of_nat 0 + (0 + i)].
    unfold crc_run at 2. cbn [map fold_left]. replace (Z.of_nat 0 + (0 + i)) with i by lia.
    do 2 f_equal.
    assert (rd iIn i = 0 \/ rd iIn i = 1) as [-> | ->] by lia; by destruct (_ <=? _).
  - apply crc_run_reg; [apply is_reg_1021|unfold is_reg; lia].
  - assert (rd iIn i = 0 \/ rd iIn i = 1) as [-> | ->] by lia;
      destruct (_ <=? _); vm_compute; split; congruence.
Qed.

(** [check_CRC_bits] accepts exactly when the division leaves no remainder. *)
Lemma check_CRC_bits_run iIn n :
  Forall is_bit iIn -> 0 <= n <= zlen iIn ->
  check_CRC_bits iIn n = (crc_run 0x1021 0xffff (crc_input iIn n) =? 0).
Proof.
  intros Hb Hn. unfold check_CRC_bits. rewrite crc_bits_loop_run by done.
  set (r := crc_run _ _ _).
  assert (is_reg r) by (apply crc_run_reg; [apply is_reg_1021|unfold is_reg; lia]).
  apply eq_true_iff_eq. cbv zeta. rewrite cell_sum_zero by apply reg_cells_bit.
  rewrite Z.eqb_eq. split; [by apply reg_cells_zero|].
  intros -> i Hi. apply (rd_Forall (fun z => z = 0)); [done|].
  repeat constructor.
Qed.

(** ** The division is injective: what the checks can detect *)
Lemma crc_step_bit0 p r b :
  Z.odd p = true -> Z.testbit (crc_step p r b) 0 = xorb (Z.testbit r 15) b.
Proof.
  intros Hp. rewrite crc_step_alt, Z.lxor_spec, testbit_shl1_0.
  destruct (xorb _ b); [|by rewrite Z.bits_0]. by rewrite Z.bit0_odd, Hp.
Qed.

(** A zero result means the input bit cancelled the top bit and the rest of
    the register was zero already. *)
Lemma crc_step_zero p r b :
  Z.odd p = true -> is_reg r -> crc_step p r b = 0 ->
  xorb (Z.testbit r 15) b = false /\ u16 (Z.shiftl r 1) = 0.
Proof.
  intros Hp Hr H. pose proof (crc_step_bit0 p r b Hp) as H0. rewrite H, Z.bits_0 in H0.
  split; [done|]. rewrite crc_step_alt, <- H0, Z.lxor_0_r in H. done.
Qed.

Lemma shl1_zero_bits r i : u16 (Z.shiftl r 1) = 0 -> 0 <= i < 15 -> Z.testbit r i = false.
Proof.
  intros H Hi. replace i with (i + 1 - 1) by lia.
  rewrite <- testbit_shl1, H by lia. apply Z.bits_0.
Qed.

Lemma crc_run_false_zero p r n :
  Z.odd p = true -> is_reg p -> is_reg r -> crc_run p r (replicate n false) = 0 -> r = 0.
Proof.
  intros Hp Hpr. revert r. induction n as [|n IH]; intros r Hr H; [done|].
  apply (IH (crc_step p r false)) in H; [|by apply crc_step_reg].
  apply crc_step_zero in H as [Ht Hs]; [|done..]. rewrite xorb_false_r in Ht.
  apply (bits_ext 16); [done|lia|]. intros i Hi. rewrite Z.bits_0.
  destruct (Z.eq_dec i 15) as [->|]; [done|]. apply shl1_zero_bits; [done|lia].
Qed.

(** From a zero register, no non-zero string of at most 16 bits leads back to
    a register whose low bits are clear. *)
Lemma crc_run_burst p w :
  Z.odd p = true -> is_reg p -> Z.of_nat (length w) <= 16 ->
  (forall i, 0 <= i < Z.of_nat (length w) -> Z.testbit (crc_run p 0 w) i = false) ->
  w = replicate (length w) false.
Proof.
  intros Hp Hpr. induction w as [|b w IH] using rev_ind; intros Hlen H; [done|].
  rewrite length_app in *. simpl in Hlen, H.
  rewrite crc_run_app in H. set (r := crc_run p 0 w) in *. cbn in H.
  pose proof (H 0 ltac:(lia)) as H0. rewrite crc_step_bit0 in H0 by done.
  assert (w = replicate (length w) false) as Hw.
  { apply IH; [lia|]. intros i Hi. specialize (H (i + 1) ltac:(lia)).
    rewrite crc_step_alt, H0, Z.lxor_0_r, testbit_shl1 in H by lia.
    by replace (i + 1 - 1) with i in H by lia. }
  assert (r = 0) as Hr by (subst r; rewrite Hw; apply crc_run_zero).
  rewrite Hr, Z.bits_0 in H0. simpl in H0. subst b.
  rewrite replicate_add, <- Hw. done.
Qed.

Lemma zip_xorb_false_eq l k n :
  length l = length k -> zip_with xorb l k = replicate n false -> l = k.
Proof.
  revert k n. induction l as [|a l IH]; intros [|b k] [|n] Hl H; try done.
  simpl in H. injection H as H1 H2. apply xorb_eq in H1. subst.
  f_equal. by apply (IH k n); [injection Hl|].
Qed.

(** Runs over strings that differ only in a window of at most 16 bits end in
    different registers. *)
Lemma crc_run_burst_differs p r pre w1 w2 suf :
  Z.odd p = true -> is_reg p -> is_reg r ->
  length w1 = length w2 -> Z.of_nat (length w1) <= 16 ->
  crc_run p r (pre ++ w1 ++ suf) = crc_run p r (pre ++ w2 ++ suf) -> w1 = w2.
Proof.
  intros Hp Hpr Hr Hlen H16. rewrite !crc_run_app.
  set (q := crc_run p r pre). intros H.
  assert (is_reg q) as Hq by (by apply crc_run_reg).
  assert (crc_run p (Z.lxor (crc_run p q w1) (crc_run p q w2)) (zip_with xorb suf suf) = 0) as Hs.
  { rewrite crc_run_lin, H by done. apply Z.lxor_nilpotent. }
  assert (zip_with xorb suf suf = replicate (length suf) false) as Hz.
  { clear. induction suf as [|b s IH]; [done|]. simpl. by rewrite IH, xorb_nilpotent. }
  rewrite Hz in Hs. apply crc_run_false_zero in Hs; [|done..|].
  2:{ apply lxor_range; [lia|by apply crc_run_reg|by apply crc_run_reg]. }
  rewrite <- crc_run_lin, Z.lxor_nilpotent in Hs by done.
  eapply zip_xorb_false_eq; [done|]. apply crc_run_burst with (p := p); [done..| |].
  - rewrite length_zip_with. lia.
  - intros i Hi. rewrite Hs. apply Z.bits_0.
Qed.

(** ** Agreement of the byte and the bit implementation *)
Lemma slice_unpack l n :
  0 <= n <= zlen l -> slice (unpack_bits l) 0 (8 * n) = unpack_bits (slice l 0 n).
Proof.
  intros Hn. unfold slice. rewrite !drop_0.
  rewrite <- (take_drop (Z.to_nat n) l) at 1.
  unfold unpack_bits. rewrite flat_map_app. apply take_app_length'.
  fold (unpack_bits (take (Z.to_nat n) l)).
  pose proof (zlen_unpack (take (Z.to_nat n) l)) as E. unfold zlen in *.
  rewrite length_take in E. lia.
Qed.

Lemma bools_of_unpack l : bools_of (unpack_bits l) = flat_map byte_bools l.
Proof.
  induction l as [|b l IH]; [done|]. unfold unpack_bits. cbn [flat_map].
  by rewrite bools_of_app, <- IH.
Qed.

Lemma crc_mask_split n :
  16 <= n -> crc_mask n = replicate (Z.to_nat (n - 16)) false ++ replicate 16 true.
Proof.
  intros Hn. unfold crc_mask.
  assert (seqZ 0 n = seqZ 0 (n - 16) ++ seqZ (n - 16) 16) as ->
    by (replace n with (n - 16 + 16) at 1 by lia; by rewrite seqZ_app by lia).
  rewrite map_app. f_equal.
  - rewrite (map_const_in _ false), length_seqZ; [done|].
    intros x Hx%in_seqZ. lia.
  - rewrite (map_const_in _ true), length_seqZ; [done|].
    intros x Hx%in_seqZ. lia.
Qed.

Lemma crc_input_bytes msg len :
  0 <= len -> len + 2 <= zlen msg ->
  crc_input (unpack_bits msg) (8 * (len + 2)) =
  msg_bools msg len ++ map negb (byte_bools (rd msg len) ++ byte_bools (rd msg (len + 1))).
Proof.
  intros Hl Hz. unfold crc_input. rewrite slice_unpack, bools_of_unpack by lia.
  replace (len + 2) with (len + 1 + 1) at 1 by lia.
  rewrite slice_succ, slice_succ by lia. rewrite <- app_assoc, flat_map_app.
  rewrite crc_mask_split by lia.
  rewrite zip_with_app.
  2:{ rewrite length_replicate. rewrite <- bools_of_unpack. unfold bools_of.
      rewrite length_map. pose proof (zlen_unpack (slice msg 0 len)) as E.
      rewrite zlen_slice in E by lia. unfold zlen in E. lia. }
  f_equal.
  replace (Z.to_nat (8 * (len + 2) - 16)) with (length (flat_map byte_bools (slice msg 0 len)));
    [apply zip_xorb_false_r|].
  rewrite <- bools_of_unpack. unfold bools_of. rewrite length_map.
  pose proof (zlen_unpack (slice msg 0 len)) as E.
  rewrite zlen_slice in E by lia. unfold zlen in E. lia.
Qed.

Lemma negb_byte_bools b : is_byte b -> map negb (byte_bools b) = byte_bools (255 - b).
Proof.
  intros Hb.
  assert (forall z, 0 <= z < 256 ->
    bool_decide (map negb (byte_bools z) = byte_bools (255 - z)) = true) as H
    by (apply forall_range; by vm_compute).
  specialize (H b Hb). by apply bool_decide_eq_true in H.
Qed.

(** Sixteen more bits clear the register exactly when they spell it out. *)
Lemma crc_run_two_bytes p r c0 c1 :
  Z.odd p = true -> is_reg p -> is_reg r -> is_byte c0 -> is_byte c1 ->
  crc_run p r (byte_bools c0 ++ byte_bools c1) = 0 <-> r = c0 * 256 + c1.
Proof.
  intros Hp Hpr Hr H0 H1.
  set (v := Z.lxor (Z.shiftl c0 8) c1).
  assert (v = c0 * 256 + c1) as Hv.
  { subst v. rewrite Z.shiftl_mul_pow2 by lia. rewrite <- Z.add_nocarry_lxor; [done|].
    rewrite <- Z.shiftl_mul_pow2 by lia. apply Z.bits_inj'. intros i Hi.
    rewrite Z.land_spec, Z.bits_0. destruct (Z.lt_ge_cases i 8).
    - by rewrite Z.shiftl_spec_low by lia.
    - rewrite (testbit_high c1 8) by done. apply andb_false_r. }
  assert (crc_run p v (byte_bools c0 ++ byte_bools c1) = 0) as Hself.
  { rewrite crc_run_app. subst v.
    rewrite <- (zip_xorb_false_r (byte_bools c0)), crc_run_lin by done.
    rewrite crc_run_byte_self, crc_run_low, Z.lxor_0_l by done.
    by apply crc_run_byte_self. }
  assert (is_reg v) as Hvr by (unfold is_reg, is_byte in *; lia).
  split; [|intros ->; by rewrite <- Hv].
  intros H. rewrite <- Hv. apply Z.lxor_eq.
  apply (crc_run_false_zero p _ 16); [done..|apply lxor_range; [lia|done..]|].
  set (bs := byte_bools c0 ++ byte_bools c1) in *.
  replace (replicate 16 false) with (zip_with xorb bs bs).
  - rewrite crc_run_lin, H, Hself by done. done.
  - cbn. by rewrite !xorb_nilpotent.
Qed.

Lemma u16_lnot r : is_reg r -> u16 (Z.lnot r) = 65535 - r.
Proof.
  unfold is_reg, uwrap. intros Hr. rewrite Z.lnot_eq_pred_opp.
  symmetry. apply Z.mod_unique_pos with (q := -1); lia.
Qed.

Lemma crc_loop_reg data n :
  Forall is_byte data -> 0 <= n <= zlen data ->
  is_reg (crc_run 0x1021 0xffff (msg_bools data n)).
Proof. intros. apply crc_run_reg; [apply is_reg_1021|unfold is_reg; lia]. Qed.

Lemma check_crc_bytes_run msg len :
  Forall is_byte msg -> 0 <= len -> len + 2 <= zlen msg ->
  check_crc_bytes msg len = true <->
  crc_run 0x1021 0xffff (msg_bools msg len)
  = (255 - rd msg len) * 256 + (255 - rd msg (len + 1)).
Proof.
  intros Hm Hl Hz. unfold check_crc_bytes, calc_crc. cbv zeta.
  rewrite calc_crc_loop_run by (done || lia).
  set (r := crc_run _ _ _).
  assert (is_reg r) as Hr by (apply crc_loop_reg; [done|lia]).
  pose proof (rd_Forall is_byte msg len is_byte_0 Hm) as H0.
  pose proof (rd_Forall is_byte msg (len + 1) is_byte_0 Hm) as H1.
  rewrite u16_lnot by done. unfold is_byte, is_reg in *.
  rewrite Z.shiftl_mul_pow2, lor_add_disjoint, uwrap_small by lia.
  rewrite Z.eqb_eq, Z.lxor_eq_0_iff. lia.
Qed.

(** The table-driven byte check and the shift-register bit check are the
    same test: a message of [len] bytes followed by its two CRC bytes passes
    [check_crc_bytes] exactly when its unpacked bits pass [check_CRC_bits]. *)
Theorem check_crc_bytes_bits (msg : list Z) (len : Z) :
  Forall is_byte msg -> 0 <= len -> len + 2 <= zlen msg ->
  check_crc_bytes msg len = check_CRC_bits (unpack_bits msg) (8 * (len + 2)).
Proof.
  intros Hm Hl Hz.
  rewrite check_CRC_bits_run by (apply unpack_bits_bit || (rewrite zlen_unpack; lia)).
  apply eq_true_iff_eq. rewrite check_crc_bytes_run, Z.eqb_eq by done.
  pose proof (rd_Forall is_byte msg len is_byte_0 Hm) as H0.
  pose proof (rd_Forall is_byte msg (len + 1) is_byte_0 Hm) as H1.
  rewrite crc_input_bytes, crc_run_app by done.
  rewrite map_app, !negb_byte_bools by done. symmetry.
  apply crc_run_two_bytes; [done|apply is_reg_1021| |unfold is_byte in *; lia..].
  by apply crc_loop_reg; [|lia].
Qed.

Lemma check_crc_bytes_bits_witness :
  check_crc_bytes [0x12; 0x34; 0xF1; 0x36] 2
  = check_CRC_bits (unpack_bits [0x12; 0x34; 0xF1; 0x36]) 32.
Proof.
  apply (check_crc_bytes_bits [0x12; 0x34; 0xF1; 0x36] 2).
  - repeat (constructor; [unfold is_byte; lia|]). constructor.
  - lia.
  - vm_compute. discriminate.
Defined.

Lemma calc_crc_app msg k : calc_crc (msg ++ k) (zlen msg) = calc_crc msg (zlen msg).
Proof.
  unfold calc_crc. cbv zeta. do 2 f_equal. apply zfor_ext. intros i s Hi.
  by rewrite rd_app_l by lia.
Qed.

Lemma crc_appended (msg tail : list Z) (len : Z) :
  Forall is_byte msg -> len = zlen msg ->
  check_crc_bytes (msg ++ [Z.shiftr (calc_crc msg len) 8; u8 (calc_crc msg len)] ++ tail) len
  = true.
Proof.
  intros Hm ->. unfold check_crc_bytes. cbv zeta.
  set (c := calc_crc msg (zlen msg)).
  rewrite (rd_app_r msg), (rd_app_r msg) by lia.
  rewrite Z.sub_diag, (Z.add_comm (zlen msg)), Z.add_simpl_r.
  change (rd ([Z.shiftr c 8; u8 c] ++ tail) 0) with (Z.shiftr c 8).
  change (rd ([Z.shiftr c 8; u8 c] ++ tail) 1) with (u8 c).
  rewrite calc_crc_app. fold c.
  assert (is_reg c) as Hc by (apply (uwrap_range 16); lia).
  apply Z.eqb_eq. apply Z.lxor_eq_0_iff.
  rewrite Z.shiftl_mul_pow2, lor_add_disjoint by (lia || apply (uwrap_range 8); lia).
  rewrite Z.shiftr_div_pow2 by lia. unfold uwrap at 2. unfold is_reg in Hc.
  rewrite Z.mul_comm, <- Z.div_mod by lia. by apply uwrap_small.
Qed.

(** The two bytes behind the message are the complement of the remainder. *)
Definition crc_right (msg : list Z) (len : Z) : bool :=
  crc_run 0x1021 0xffff (msg_bools msg len) =? (255 - rd msg len) * 256 + (255 - rd msg (len + 1)).

Lemma crc_appended_right (msg tail : list Z) (len : Z) :
  Forall is_byte msg -> len = zlen msg ->
  crc_right (msg ++ [Z.shiftr (calc_crc msg len) 8; u8 (calc_crc msg len)] ++ tail) len = true.
Proof.
  intros Hm ->. unfold crc_right. set (c := calc_crc msg (zlen msg)).
  rewrite (rd_app_r msg), (rd_app_r msg) by lia. rewrite Z.sub_diag, (Z.add_comm (zlen msg)), Z.add_simpl_r.
  change (rd ([Z.shiftr c 8; u8 c] ++ tail) 0) with (Z.shiftr c 8). change (rd ([Z.shiftr c 8; u8 c] ++ tail) 1) with (u8 c).
  assert (msg_bools (msg ++ [Z.shiftr c 8; u8 c] ++ tail) (zlen msg) = msg_bools msg (zlen msg)) as ->.
  { unfold msg_bools, slice, zlen. change (Z.to_nat 0) with 0%nat. rewrite !drop_0, Nat2Z.id, take_app_length, firstn_all. done. }
  pose proof (crc_loop_reg msg (zlen msg) Hm ltac:(pose proof (zlen_nonneg msg); lia)) as Hr.
  assert (c = 65535 - crc_run 0x1021 0xffff (msg_bools msg (zlen msg))) as Ec.
  { unfold c, calc_crc. rewrite calc_crc_loop_run by (done || (pose proof (zlen_nonneg msg); lia)). by apply u16_lnot. }
  apply Z.eqb_eq. rewrite Z.shiftr_div_pow2 by lia. change (2 ^ 8) with 256. unfold uwrap. change (2 ^ 8) with 256.
  pose proof (Z.div_mod c 256 ltac:(lia)). lia.
Qed.

(** Appending the CRC that [calc_crc] computes always yields a message
    that [check_crc_bytes] accepts. *)
Theorem calc_crc_roundtrip (msg tail : list Z) (len : Z) :
  Forall is_byte msg -> len = zlen msg ->
  check_crc_bytes (msg ++ [Z.shiftr (calc_crc msg len) 8; u8 (calc_crc msg len)] ++ tail) len
  = true.
Proof. apply crc_appended. Qed.

Lemma calc_crc_roundtrip_witness :
  check_crc_bytes ([1; 2; 3] ++ [Z.shiftr (calc_crc [1; 2; 3] 3) 8; u8 (calc_crc [1; 2; 3] 3)] ++ [9]) 3
  = true.
Proof.
  apply (calc_crc_roundtrip [1; 2; 3] [9] 3); [|reflexivity].
  repeat (constructor; [unfold is_byte; lia|]). constructor.
Defined.

(** ** Error detection *)
Lemma crc_input_app (pre w suf : list Z) n :
  n = zlen (pre ++ w ++ suf) ->
  exists m1 m2 m3, length m1 = length pre /\ length m2 = length w /\ length m3 = length suf /\
    crc_mask n = m1 ++ m2 ++ m3.
Proof.
  intros ->. set (m := crc_mask _).
  assert (length m = (length pre + (length w + length suf))%nat) as Hm.
  { subst m. unfold crc_mask. rewrite length_map, length_seqZ. unfold zlen.
    rewrite !length_app. lia. }
  exists (take (length pre) m), (take (length w) (drop (length pre) m)),
    (drop (length w) (drop (length pre) m)).
  rewrite !length_take, !length_drop, !take_drop. repeat split; lia.
Qed.

Lemma bools_of_inj l k : Forall is_bit l -> Forall is_bit k -> bools_of l = bools_of k -> l = k.
Proof.
  intros Hl. revert k. induction Hl as [|x l Hx Hl IH]; intros [|y k] Hk H; try done.
  apply Forall_cons_1 in Hk as [Hy Hk]. simpl in H. injection H as H1 H2.
  f_equal; [|by apply IH]. unfold is_bit in *.
  assert (x = 0 \/ x = 1) as [-> | ->] by lia; assert (y = 0 \/ y = 1) as [-> | ->] by lia; done.
Qed.

Lemma zip_xorb_inj l k m :
  length l = length m -> length k = length m ->
  zip_with xorb l m = zip_with xorb k m -> l = k.
Proof.
  revert k m. induction l as [|a l IH]; intros [|b k] [|c m] Hl Hk H; try done.
  simpl in *. injection H as H1 H2. f_equal; [by destruct a, b, c|].
  apply (IH k m); [lia..|done].
Qed.

Lemma check_CRC_bits_burst_eq (pre w1 w2 suf : list Z) (n : Z) :
  Forall is_bit (pre ++ w1 ++ suf) -> Forall is_bit w2 ->
  length w1 = length w2 -> zlen w1 <= 16 -> n = zlen (pre ++ w1 ++ suf) ->
  check_CRC_bits (pre ++ w1 ++ suf) n = true ->
  check_CRC_bits (pre ++ w2 ++ suf) n = true ->
  w1 = w2.
Proof.
  intros H1 Hw2 Hlen H16 Hn Hc1 Hc2.
  assert (Forall is_bit (pre ++ w2 ++ suf)) as H2
    by (rewrite !Forall_app in *; naive_solver).
  assert (n = zlen (pre ++ w2 ++ suf)) as Hn2
    by (rewrite Hn; unfold zlen; rewrite !length_app; lia).
  pose proof (zlen_nonneg (pre ++ w1 ++ suf)).
  rewrite check_CRC_bits_run in Hc1 by (done || lia).
  rewrite check_CRC_bits_run in Hc2 by (done || lia).
  apply Z.eqb_eq in Hc1, Hc2. rewrite <- Hc2 in Hc1. clear Hc2.
  destruct (crc_input_app pre w1 suf n Hn) as (m1 & m2 & m3 & L1 & L2 & L3 & Em).
  assert (forall w, length w = length m2 -> n = zlen (pre ++ w ++ suf) ->
    crc_input (pre ++ w ++ suf) n = zip_with xorb (bools_of pre) m1 ++
      zip_with xorb (bools_of w) m2 ++ zip_with xorb (bools_of suf) m3) as E.
  { intros w Hw Hnw. unfold crc_input, slice. rewrite drop_0, take_ge
      by (unfold zlen in Hnw; lia).
    rewrite Em, !bools_of_app. unfold bools_of.
    rewrite !zip_with_app by (rewrite length_map; lia). done. }
  rewrite !E in Hc1 by (done || lia).
  apply crc_run_burst_differs in Hc1; [|done|apply is_reg_1021|unfold is_reg; lia|..].
  - apply bools_of_inj; [rewrite !Forall_app in H1; naive_solver|done|].
    apply (zip_xorb_inj _ _ m2); [..|done]; unfold bools_of; rewrite length_map; lia.
  - unfold bools_of. rewrite !length_zip_with, !length_map. lia.
  - unfold bools_of, zlen in *. rewrite length_zip_with, length_map. lia.
Qed.

(** C39: [check_CRC_bits] detects every error burst of at most 16 bits: when a
    bit string is accepted, replacing any window of at most 16 of its bits
    (CRC field included) by different bits makes it rejected. *)
Theorem check_CRC_bits_detects_bursts (pre w1 w2 suf : list Z) (n : Z) :
  Forall is_bit (pre ++ w1 ++ suf) -> Forall is_bit w2 ->
  length w1 = length w2 -> zlen w1 <= 16 -> n = zlen (pre ++ w1 ++ suf) ->
  w1 <> w2 -> check_CRC_bits (pre ++ w1 ++ suf) n = true ->
  check_CRC_bits (pre ++ w2 ++ suf) n = false.
Proof.
  intros H1 Hw2 Hlen H16 Hn Hne Hc1. apply not_true_is_false. intros Hc2.
  apply Hne. by apply (check_CRC_bits_burst_eq pre w1 w2 suf n).
Qed.

Lemma check_CRC_bits_detects_bursts_witness :
  check_CRC_bits ([0; 0] ++ [1; 0; 1] ++
    [0;1;0;0;0;1;1;0;1;0;0; 1;1;1;1;0;0;0;1;0;0;1;1;0;1;1;0]) 32 = false.
Proof.
  apply (check_CRC_bits_detects_bursts [0; 0] [0; 1; 0] [1; 0; 1]
    [0;1;0;0;0;1;1;0;1;0;0; 1;1;1;1;0;0;0;1;0;0;1;1;0;1;1;0] 32);
    try (vm_compute; congruence); repeat (constructor; [unfold is_bit; lia|]); constructor.
Defined.
