(* ===== verification/Galois.v ===== *)
(** * Galois-field arithmetic (src/src/base/backend/galois.cpp)

    The [Galois] class computes in GF(2^mm) with logarithm and antilogarithm
    tables built by a linear-feedback shift register.  The record [Galois]
    holds the members of the class, [Galois_new] is the constructor, one
    definition follows per method.  For the field of the receiver, GF(256)
    modulo 0x11d, the theorems identify the table operations with polynomial
    arithmetic and prove the field laws that the Reed-Solomon decoder uses. *)
From S2P Require Import Prelude.
Open Scope Z_scope.

(** ** The class *)
Record Galois := mkGalois {
  mm : Z;                 (** bits per symbol *)
  gfpoly : Z;
  codeLength : Z;         (** symbols per block, (1 << mm) - 1 *)
  d_q : Z;
  alpha_to : list Z;      (** antilogarithm table *)
  index_of : list Z       (** logarithm table *)
}.

(** The shift register step of the constructor: [sr <<= 1], reduction by the
    field polynomial, mask to [mm] bits. *)
Definition galois_step (symsize poly len sr : Z) : Z :=
  let sr := u16 (Z.shiftl sr 1) in
  let sr := if Z.land sr (Z.shiftl 1 symsize) =? 0 then sr else Z.lxor sr poly in
  Z.land sr len.

Definition Galois_new (symsize poly : Z) : Galois :=
  let len := u16 (Z.shiftl 1 symsize - 1) in
  let q := u16 (Z.shiftl 1 symsize) in
  let alpha := wr (zeros (len + 1)) len 0 in
  let index := wr (zeros (len + 1)) 0 len in
  let '(index, alpha, _) :=
    zfor 0 len (fun i '(index, alpha, sr) =>
      (wr index sr i, wr alpha i sr, galois_step symsize poly len sr))
      (index, alpha, 1) in
  mkGalois symsize poly len q alpha index.

Section methods.
Context (g : Galois).

(** The loop of [modnn]; every iteration lowers [x / codeLength]. *)
Fixpoint modnn_loop (fuel : nat) (x : Z) : Z :=
  match fuel with
  | O => x
  | S fuel =>
      if codeLength g <=? x then
        let x := x - codeLength g in
        modnn_loop fuel (Z.shiftr x (mm g) + Z.land x (codeLength g))
      else x
  end.
Definition modnn (x : Z) : Z := modnn_loop (S (Z.to_nat (x / codeLength g))) x.

Definition add_poly (a b : Z) : Z := Z.lxor a b.
Definition poly2power (a : Z) : Z := rd (index_of g) a.
Definition power2poly (a : Z) : Z := rd (alpha_to g) a.
Definition add_power (a b : Z) : Z :=
  rd (index_of g) (Z.lxor (rd (alpha_to g) a) (rd (alpha_to g) b)).
Definition multiply_power (a b : Z) : Z := u16 (modnn (a + b)).
Definition multiply_poly (a b : Z) : Z :=
  if (a =? 0) || (b =? 0) then 0
  else rd (alpha_to g) (multiply_power (rd (index_of g) a) (rd (index_of g) b)).
Definition divide_power (a b : Z) : Z := u16 (modnn (d_q g - 1 + a - b)).
Definition divide_poly (a b : Z) : Z :=
  if a =? 0 then 0
  else rd (alpha_to g) (divide_power (rd (index_of g) a) (rd (index_of g) b)).
Definition inverse_power (a : Z) : Z := u16 (d_q g - 1 - a).
Definition inverse_poly (a : Z) : Z :=
  rd (alpha_to g) (inverse_power (rd (index_of g) a)).
Definition pow_power (a n : Z) : Z :=
  if a =? 0 then 0 else u16 ((a * n) mod (d_q g - 1)).
Definition pow_poly (a n : Z) : Z :=
  rd (alpha_to g) (pow_power (rd (index_of g) a) n).
End methods.

(** ** Reference: GF(256) as polynomials over GF(2) modulo 0x11d.
    [xt] multiplies by x; [gf_mul] is shift-and-xor multiplication. *)
Definition xt (a : Z) : Z := galois_step 8 0x11d 255 a.
Definition xt_pow (n : nat) (a : Z) : Z := Nat.iter n xt a.
Definition gf_mul (a b : Z) : Z :=
  fold_left (fun acc i => if Z.testbit b (Z.of_nat i) then Z.lxor acc (xt_pow i a) else acc)
            (seq 0 8) 0.

(** The field instance of [ReedSolomon myGalois(8, 0435)]. *)
Definition GF : Galois := Eval vm_compute in Galois_new 8 0x11d.

(** ** [modnn] reduces modulo [codeLength], and always terminates *)
Section modnn_facts.
Context (g : Galois) (Hmm : 1 <= mm g) (Hcl : codeLength g = 2 ^ mm g - 1).

Lemma codeLength_pos : 1 <= codeLength g.
Proof. rewrite Hcl. pose proof (Z.pow_le_mono_r 2 1 (mm g)). lia. Qed.

(** Folding the high digits onto the low one keeps the residue. *)
Lemma fold_digits y :
  0 <= y ->
  let y' := Z.shiftr y (mm g) + Z.land y (codeLength g) in
  0 <= y' <= y /\ y' mod codeLength g = y mod codeLength g.
Proof.
  intros Hy. cbv zeta. pose proof codeLength_pos as Hp.
  rewrite Z.shiftr_div_pow2 by lia.
  replace (Z.land y (codeLength g)) with (y mod 2 ^ mm g)
    by (rewrite Hcl, Z.sub_1_r, <- Z.ones_equiv, Z.land_ones by lia; done).
  assert (2 ^ mm g = codeLength g + 1) as E by lia.
  pose proof (Z.div_mod y (2 ^ mm g) ltac:(lia)) as Hd.
  pose proof (Z.mod_pos_bound y (2 ^ mm g) ltac:(lia)).
  pose proof (Z.div_pos y (2 ^ mm g) Hy ltac:(lia)).
  set (q := y / 2 ^ mm g) in *. set (r := y mod 2 ^ mm g) in *.
  split; [nia|]. rewrite Hd, E.
  replace ((codeLength g + 1) * q + r) with (q + r + q * codeLength g) by lia.
  by rewrite Z.mod_add by lia.
Qed.

Lemma modnn_loop_mod fuel x :
  0 <= x -> x / codeLength g < Z.of_nat fuel ->
  modnn_loop g fuel x = x mod codeLength g.
Proof.
  pose proof codeLength_pos as Hp.
  revert x. induction fuel as [|fuel IH]; intros x Hx Hf.
  { pose proof (Z.div_pos x (codeLength g) Hx ltac:(lia)). lia. }
  simpl. destruct (Z.leb_spec (codeLength g) x).
  - destruct (fold_digits (x - codeLength g) ltac:(lia)) as [Hb Hm].
    rewrite IH.
    + rewrite Hm. replace (x - codeLength g) with (x + (-1) * codeLength g) by lia.
      by rewrite Z.mod_add by lia.
    + lia.
    + assert (x / codeLength g = (x - codeLength g) / codeLength g + 1).
      { replace x with (x - codeLength g + 1 * codeLength g) at 1 by lia.
        by rewrite Z.div_add by lia. }
      pose proof (Z.div_le_mono _ _ (codeLength g) ltac:(lia) (proj2 Hb)). lia.
  - symmetry. apply Z.mod_small. lia.
Qed.

Lemma modnn_mod x : 0 <= x -> modnn g x = x mod codeLength g.
Proof.
  intros Hx. unfold modnn. pose proof codeLength_pos.
  pose proof (Z.div_pos x (codeLength g) Hx ltac:(lia)).
  apply modnn_loop_mod; lia.
Qed.
End modnn_facts.

(** ** GF(256): the tables *)
Abbreviation gmul := (multiply_poly GF).
Abbreviation glog := (poly2power GF).
Abbreviation galog := (power2poly GF).

Lemma GF_new : GF = Galois_new 8 0x11d.
Proof. vm_compute. reflexivity. Qed.

Lemma modnn_GF x : 0 <= x -> modnn GF x = x mod 255.
Proof. apply (modnn_mod GF); done. Qed.

Lemma galog_pow k : 0 <= k < 255 -> galog k = xt_pow (Z.to_nat k) 1.
Proof.
  intros Hk. apply Z.eqb_eq. revert k Hk. apply (forall_range 255). by vm_compute.
Qed.

Lemma glog_spec a :
  is_byte a -> a <> 0 -> 0 <= glog a < 255 /\ galog (glog a) = a.
Proof.
  intros Ha Hn.
  assert ((a =? 0) || ((0 <=? glog a) && (glog a <? 255) && (galog (glog a) =? a)) = true) as H.
  { clear Hn. revert a Ha. apply (forall_range 256). by vm_compute. }
  destruct (Z.eqb_spec a 0); [done|]. simpl in H. zbool. done.
Qed.

Lemma galog_spec k :
  0 <= k < 255 -> is_byte (galog k) /\ galog k <> 0 /\ glog (galog k) = k.
Proof.
  intros Hk.
  assert (is_byteb (galog k) && negb (galog k =? 0) && (glog (galog k) =? k) = true) as H.
  { revert k Hk. apply (forall_range 255). by vm_compute. }
  zbool. split; [by apply is_byteb_spec|done].
Qed.

Lemma glog_zero : glog 0 = 255.
Proof. done. Qed.

Lemma galog_255 : galog 255 = 0.
Proof. done. Qed.

(** ** Multiplication by x *)
Lemma xt_bits a i :
  is_byte a -> 0 <= i ->
  Z.testbit (xt a) i =
  (i <? 8) && xorb (negb (i =? 0) && Z.testbit a (i - 1)) (Z.testbit a 7 && Z.testbit 0x11d i).
Proof.
  intros Ha Hi. unfold xt, galois_step. cbv zeta.
  change 255 with (Z.ones 8). rewrite Z.land_spec, Z.testbit_ones by lia.
  assert ((Z.land (u16 (Z.shiftl a 1)) (Z.shiftl 1 8) =? 0) = negb (Z.testbit a 7)) as ->.
  { assert (u16 (Z.shiftl a 1) = Z.shiftl a 1) as ->
      by (apply uwrap_small; rewrite Z.shiftl_mul_pow2 by lia; unfold is_byte in Ha; lia).
    clear i Hi. apply eqb_prop.
    revert a Ha. apply (forall_range 256). by vm_compute. }
  assert ((0 <=? i) = true) as -> by (by apply Z.leb_le). rewrite ?andb_true_l.
  rewrite (andb_comm _ (i <? 8)). destruct (Z.ltb_spec i 8); [|done]. rewrite ?andb_true_l.
  assert (Z.testbit (u16 (Z.shiftl a 1)) i = negb (i =? 0) && Z.testbit a (i - 1)) as E.
  { rewrite uwrap_testbit by lia. destruct (Z.ltb_spec i 16); [|lia]. rewrite ?andb_true_l.
    destruct (Z.eqb_spec i 0) as [->|]; [by rewrite Z.shiftl_spec_low|].
    by rewrite Z.shiftl_spec by lia. }
  destruct (Z.testbit a 7); cbn [negb andb]; rewrite ?Z.lxor_spec, E; [done|].
  by rewrite xorb_false_r.
Qed.

Lemma xt_byte a : is_byte (xt a).
Proof. apply (land_range 8); lia. Qed.

Lemma xt_lin a b : is_byte a -> is_byte b -> xt (Z.lxor a b) = Z.lxor (xt a) (xt b).
Proof.
  intros Ha Hb. apply Z.bits_inj'. intros i Hi.
  rewrite Z.lxor_spec, !xt_bits by auto with dab. rewrite !Z.lxor_spec.
  destruct (i <? 8); [|done]. rewrite !andb_true_l.
  destruct (i =? 0), (Z.testbit a (i - 1)), (Z.testbit b (i - 1)), (Z.testbit a 7),
    (Z.testbit b 7), (Z.testbit 0x11d i); done.
Qed.

Lemma xt_pow_byte n a : is_byte a -> is_byte (xt_pow n a).
Proof. intros Ha. destruct n; [done|]. apply xt_byte. Qed.

Lemma xt_pow_lin n a b :
  is_byte a -> is_byte b -> xt_pow n (Z.lxor a b) = Z.lxor (xt_pow n a) (xt_pow n b).
Proof.
  intros Ha Hb. induction n as [|n IH]; [done|].
  unfold xt_pow in *. simpl. rewrite IH. by apply xt_lin; apply xt_pow_byte.
Qed.

Lemma xt_pow_add n m a : xt_pow (n + m) a = xt_pow n (xt_pow m a).
Proof. apply Nat.iter_add. Qed.

Lemma xt_pow_0 n : xt_pow n 0 = 0.
Proof. induction n as [|n IH]; [done|]. unfold xt_pow in *. simpl. by rewrite IH. Qed.

Lemma xt_pow_period n : (255 <= n)%nat -> xt_pow n 1 = xt_pow (n - 255) 1.
Proof.
  intros Hn. replace n with ((n - 255) + 255)%nat at 1 by lia.
  rewrite xt_pow_add. f_equal.
Qed.

#[export] Hint Resolve xt_byte xt_pow_byte : dab.

(** ** Table multiplication is repeated multiplication by x *)
Lemma gmul_xt a b :
  is_byte a -> is_byte b -> a <> 0 -> gmul a b = xt_pow (Z.to_nat (glog a)) b.
Proof.
  intros Ha Hb Hn. unfold multiply_poly. change (rd (index_of GF)) with glog.
  destruct (Z.eqb_spec a 0); [done|]. rewrite orb_false_l.
  destruct (Z.eqb_spec b 0) as [->|Hb0]; [by rewrite xt_pow_0|].
  destruct (glog_spec a Ha Hn) as [Hla Ea], (glog_spec b Hb Hb0) as [Hlb Eb].
  unfold multiply_power. rewrite modnn_GF by lia.
  pose proof (Z.mod_pos_bound (glog a + glog b) 255 ltac:(lia)).
  rewrite uwrap_small by lia. change (rd (alpha_to GF)) with galog.
  rewrite galog_pow by done. rewrite <- Eb at 2. rewrite galog_pow by done.
  rewrite <- xt_pow_add, <- Z2Nat.inj_add by lia.
  destruct (Z.lt_ge_cases (glog a + glog b) 255).
  - by rewrite Z.mod_small by lia.
  - rewrite (xt_pow_period (Z.to_nat (glog a + glog b))) by lia. f_equal.
    replace ((glog a + glog b) mod 255) with (glog a + glog b - 255); [lia|].
    apply Z.mod_unique_pos with (q := 1); lia.
Qed.

Lemma gmul_0_l b : gmul 0 b = 0.
Proof. done. Qed.

Lemma gmul_0_r a : gmul a 0 = 0.
Proof. unfold multiply_poly. by rewrite orb_true_r. Qed.

Lemma gmul_byte a b : is_byte a -> is_byte b -> is_byte (gmul a b).
Proof.
  intros Ha Hb. destruct (Z.eq_dec a 0) as [->|]; [apply is_byte_0|].
  rewrite gmul_xt by done. auto with dab.
Qed.

Lemma gmul_comm a b : gmul a b = gmul b a.
Proof. unfold multiply_poly, multiply_power. by rewrite orb_comm, Z.add_comm. Qed.

Lemma gmul_add_r a b c :
  is_byte a -> is_byte b -> is_byte c -> gmul a (Z.lxor b c) = Z.lxor (gmul a b) (gmul a c).
Proof.
  intros Ha Hb Hc. destruct (Z.eq_dec a 0) as [->|]; [done|].
  rewrite !gmul_xt by auto with dab. by apply xt_pow_lin.
Qed.

Lemma gmul_add_l a b c :
  is_byte a -> is_byte b -> is_byte c -> gmul (Z.lxor a b) c = Z.lxor (gmul a c) (gmul b c).
Proof. intros. rewrite !(gmul_comm _ c). by apply gmul_add_r. Qed.

Lemma gmul_galog i b :
  0 <= i < 255 -> is_byte b -> gmul (galog i) b = xt_pow (Z.to_nat i) b.
Proof.
  intros Hi Hb. destruct (galog_spec i Hi) as (Hg & Hn & E).
  rewrite gmul_xt by done. by rewrite E.
Qed.

Lemma gmul_xt_pow n a b :
  is_byte a -> is_byte b -> gmul (xt_pow n a) b = xt_pow n (gmul a b).
Proof.
  intros Ha Hb. destruct (Z.eq_dec b 0) as [->|Hb0].
  { by rewrite !gmul_0_r, xt_pow_0. }
  rewrite !(gmul_comm _ b), !gmul_xt by auto with dab.
  rewrite <- !xt_pow_add. f_equal. lia.
Qed.

Lemma gmul_assoc a b c :
  is_byte a -> is_byte b -> is_byte c -> gmul a (gmul b c) = gmul (gmul a b) c.
Proof.
  intros Ha Hb Hc. destruct (Z.eq_dec a 0) as [->|]; [done|].
  rewrite !(gmul_xt a) by auto using gmul_byte.
  by rewrite gmul_xt_pow.
Qed.

Lemma gmul_1_l b : is_byte b -> gmul 1 b = b.
Proof. intros Hb. by rewrite gmul_xt. Qed.

Lemma gmul_1_r b : is_byte b -> gmul b 1 = b.
Proof. intros. rewrite gmul_comm. by apply gmul_1_l. Qed.

Lemma gmul_nonzero a b :
  is_byte a -> is_byte b -> a <> 0 -> b <> 0 -> gmul a b <> 0.
Proof.
  intros Ha Hb Hna Hnb. unfold multiply_poly.
  destruct (Z.eqb_spec a 0); [done|]. destruct (Z.eqb_spec b 0); [done|]. rewrite orb_false_l.
  destruct (glog_spec a Ha Hna) as [Hla _], (glog_spec b Hb Hnb) as [Hlb _].
  change (rd (index_of GF)) with glog. unfold multiply_power. rewrite modnn_GF by lia.
  pose proof (Z.mod_pos_bound (glog a + glog b) 255 ltac:(lia)).
  rewrite uwrap_small by lia. change (rd (alpha_to GF)) with galog. by apply galog_spec.
Qed.

#[export] Hint Resolve gmul_byte : dab.

(** ** The reference multiplication *)
Lemma gf_mul_loop_byte a b l acc :
  is_byte a -> is_byte acc ->
  is_byte (fold_left (fun acc i => if Z.testbit b (Z.of_nat i)
    then Z.lxor acc (xt_pow i a) else acc) l acc).
Proof.
  intros Ha Hacc. apply (fold_left_inv is_byte); [done|].
  intros c i _ Hc. case_match; auto with dab.
Qed.

Lemma gf_mul_loop_xt a b l acc :
  is_byte a -> is_byte acc ->
  fold_left (fun acc i => if Z.testbit b (Z.of_nat i)
    then Z.lxor acc (xt_pow i (xt a)) else acc) l (xt acc) =
  xt (fold_left (fun acc i => if Z.testbit b (Z.of_nat i)
    then Z.lxor acc (xt_pow i a) else acc) l acc).
Proof.
  intros Ha. revert acc. induction l as [|i l IH]; intros acc Hacc; [done|].
  simpl. rewrite <- IH by (case_match; auto with dab). f_equal.
  case_match; [|done]. rewrite xt_lin by auto with dab. f_equal.
  unfold xt_pow. by rewrite <- Nat.iter_succ_r.
Qed.

Lemma gf_mul_xt_pow n a b :
  is_byte a -> gf_mul (xt_pow n a) b = xt_pow n (gf_mul a b).
Proof.
  intros Ha. induction n as [|n IH]; [done|].
  change (xt_pow (S n) a) with (xt (xt_pow n a)).
  change (xt_pow (S n) (gf_mul a b)) with (xt (xt_pow n (gf_mul a b))).
  rewrite <- IH. unfold gf_mul. change 0 with (xt 0) at 1.
  apply gf_mul_loop_xt; auto with dab.
Qed.

Lemma gf_mul_1_l b : is_byte b -> gf_mul 1 b = b.
Proof.
  intros Hb. apply Z.eqb_eq. revert b Hb. apply (forall_range 256). by vm_compute.
Qed.

Lemma gf_mul_0_l b : gf_mul 0 b = 0.
Proof.
  unfold gf_mul. apply (fold_left_inv (fun z => z = 0)); [done|].
  intros c i _ ->. rewrite xt_pow_0. by case_match.
Qed.

(** The logarithm-table multiplication of the receiver's field is
    polynomial multiplication over GF(2) modulo x^8+x^4+x^3+x^2+1. *)
Theorem multiply_poly_correct (a b : Z) :
  is_byte a -> is_byte b -> multiply_poly (Galois_new 8 0x11d) a b = gf_mul a b.
Proof.
  intros Ha Hb. rewrite <- GF_new. destruct (Z.eq_dec a 0) as [->|Hn].
  { by rewrite gf_mul_0_l. }
  rewrite gmul_xt by done. destruct (glog_spec a Ha Hn) as [Hl E].
  rewrite <- E at 2. rewrite galog_pow, gf_mul_xt_pow, gf_mul_1_l by (done || lia).
  done.
Qed.

Lemma multiply_poly_correct_witness :
  multiply_poly (Galois_new 8 0x11d) 0x53 0xCA = gf_mul 0x53 0xCA.
Proof. apply (multiply_poly_correct 0x53 0xCA); unfold is_byte; lia. Defined.

(** [modnn] terminates for every field size and every non-negative
    argument, with the residue modulo [codeLength] = 2^mm - 1. *)
Theorem modnn_correct (g : Galois) (x : Z) :
  1 <= mm g -> codeLength g = 2 ^ mm g - 1 -> 0 <= x ->
  modnn g x = x mod codeLength g /\ 0 <= modnn g x < codeLength g.
Proof.
  intros Hm Hc Hx. rewrite modnn_mod by done. split; [done|].
  pose proof (codeLength_pos g Hm Hc). apply Z.mod_pos_bound. lia.
Qed.

Lemma modnn_correct_witness :
  modnn GF 1000 = 1000 mod codeLength GF /\ 0 <= modnn GF 1000 < codeLength GF.
Proof. apply (modnn_correct GF 1000); vm_compute; congruence. Defined.

(** ** Division *)
Lemma divide_power_GF i j :
  0 <= i < 255 -> 0 <= j < 255 -> divide_power GF i j = (i - j) mod 255.
Proof.
  intros Hi Hj. unfold divide_power. change (d_q GF) with 256.
  rewrite modnn_GF by lia.
  replace (256 - 1 + i - j) with (i - j + 1 * 255) by lia.
  rewrite Z.mod_add by lia.
  pose proof (Z.mod_pos_bound (i - j) 255 ltac:(lia)).
  apply uwrap_small. lia.
Qed.

Lemma galog_mod k : 0 <= k -> galog (k mod 255) = xt_pow (Z.to_nat k) 1.
Proof.
  intros Hk.
  pose proof (Z.mod_pos_bound k 255 ltac:(lia)).
  rewrite galog_pow by done.
  rewrite (Z.div_mod k 255) at 2 by lia.
  assert (0 <= k / 255) as Hq by (apply Z.div_pos; lia).
  revert Hq. generalize (k / 255). apply natlike_ind.
  - f_equal.
  - intros q Hq IH. rewrite IH.
    replace (Z.to_nat (255 * Z.succ q + k mod 255))
      with (Z.to_nat (255 * q + k mod 255) + 255)%nat by lia.
    by rewrite xt_pow_add.
Qed.

Lemma galog_add i j : 0 <= i -> 0 <= j -> gmul (galog (i mod 255)) (galog (j mod 255)) = galog ((i + j) mod 255).
Proof.
  intros Hi Hj. rewrite gmul_galog by (try apply Z.mod_pos_bound; try apply galog_spec; try apply Z.mod_pos_bound; lia).
  rewrite (galog_mod j), (galog_mod (i + j)) by lia.
  rewrite Z2Nat.inj_add, xt_pow_add by lia.
  pose proof (galog_mod i Hi) as E. rewrite galog_pow in E by (apply Z.mod_pos_bound; lia).
  set (b := xt_pow (Z.to_nat j) 1).
  assert (is_byte b) by (apply xt_pow_byte; unfold is_byte; lia).
  rewrite <- (gmul_1_l b) by done. rewrite <- !gmul_xt_pow by (done || unfold is_byte; lia).
  by rewrite E.
Qed.

Lemma divide_poly_byte a b : is_byte a -> is_byte b -> b <> 0 -> is_byte (divide_poly GF a b).
Proof.
  intros Ha Hb Hn. unfold divide_poly. change (rd (index_of GF)) with glog.
  destruct (Z.eqb_spec a 0) as [->|Ha0]; [apply is_byte_0|].
  destruct (glog_spec a Ha Ha0) as [Hla Ea], (glog_spec b Hb Hn) as [Hlb Eb].
  rewrite divide_power_GF by done. change (rd (alpha_to GF)) with galog.
  apply galog_spec. apply Z.mod_pos_bound. lia.
Qed.

(** [divide_poly] inverts [multiply_poly]: for every non-zero divisor,
    multiplying the quotient by the divisor gives back the dividend. *)
Theorem divide_poly_correct (a b : Z) :
  is_byte a -> is_byte b -> b <> 0 -> multiply_poly GF (divide_poly GF a b) b = a.
Proof.
  intros Ha Hb Hn. unfold divide_poly. change (rd (index_of GF)) with glog.
  destruct (Z.eqb_spec a 0) as [->|Ha0]; [done|].
  destruct (glog_spec a Ha Ha0) as [Hla Ea], (glog_spec b Hb Hn) as [Hlb Eb].
  rewrite divide_power_GF by done. change (rd (alpha_to GF)) with galog.
  replace ((glog a - glog b) mod 255) with ((glog a + 255 - glog b) mod 255)
    by (rewrite <- (Z.mod_add (glog a - glog b) 1) by lia; f_equal; lia).
  rewrite <- Eb at 2. rewrite <- (Z.mod_small (glog b) 255) at 2 by lia.
  rewrite galog_add by lia.
  replace (glog a + 255 - glog b + glog b) with (glog a + 1 * 255) by lia.
  rewrite Z.mod_add, Z.mod_small by lia. done.
Qed.

Lemma divide_poly_correct_witness :
  multiply_poly GF (divide_poly GF 0x53 0xCA) 0xCA = 0x53.
Proof. apply (divide_poly_correct 0x53 0xCA); unfold is_byte; lia. Defined.

(** [inverse_poly] gives the multiplicative inverse of every field element
    except 0 and 1; the inverse of 1 is returned as 0, because the exponent
    255 is not reduced and indexes the entry of "minus infinity". *)
Theorem inverse_poly_behaviour (a : Z) :
  2 <= a < 256 -> multiply_poly GF (inverse_poly GF a) a = 1 /\ inverse_poly GF 1 = 0.
Proof.
  intros Ha. split; [|done]. apply Z.eqb_eq.
  assert ((a <? 2) || (gmul (inverse_poly GF a) a =? 1) = true) as H.
  { assert (0 <= a < 256) as Hb by lia. clear Ha. revert a Hb.
    apply (forall_range 256). by vm_compute. }
  destruct (Z.ltb_spec a 2); [lia|done].
Qed.

Lemma inverse_poly_behaviour_witness :
  multiply_poly GF (inverse_poly GF 2) 2 = 1 /\ inverse_poly GF 1 = 0.
Proof. apply (inverse_poly_behaviour 2). lia. Defined.
