(* ===== verification/ReedSolomon.v ===== *)
(** * Reed-Solomon codec (src/src/base/backend/reed_solomon.cpp)

    The RS(255,245) codec over GF(256) that protects DAB+ super frames and
    packet-mode FEC frames.  The record [ReedSolomon] holds the members of the
    class; [ReedSolomon_new] is the constructor, and the methods follow one by
    one, with C arrays as lists.  [make_vla] memory is uninitialised in the
    source: the only such cell that is ever read is [Lambda[nroots]], copied
    but never used because the degree stays below [nroots]; reading it gives 0
    here.  [enc] produces words all of whose syndromes vanish, so that [dec]
    returns the data unchanged; what [dec] does with changed words is in
    RsDecoder.v. *)
From S2P Require Import Prelude Galois.
Open Scope Z_scope.

(** ** The class *)
Record ReedSolomon := mkRS {
  myGalois : Galois;
  rs_symsize : Z;
  rs_codeLength : Z;
  generator : list Z;   (** generator polynomial, power form *)
  nroots : Z;
  fcr : Z;              (** first consecutive root, index form *)
  prim : Z;             (** primitive element, index form *)
  iprim : Z             (** prim-th root of 1, index form *)
}.

(** [for (iprim = 1; (iprim % prim) != 0; iprim += codeLength)]. *)
Fixpoint iprim_loop (fuel : nat) (len prim iprim : Z) : Z :=
  match fuel with
  | O => iprim
  | S fuel => if iprim mod prim =? 0 then iprim else iprim_loop fuel len prim (iprim + len)
  end.

(** The update of [generator[j]] for one new root. *)
Definition generator_update (g : Galois) (root j : Z) (gen : list Z) : list Z :=
  if rd gen j =? 0 then wr gen j (rd gen (j - 1))
  else
    let p1 := multiply_power g (poly2power g (rd gen j)) root in
    wr gen j (u8 (add_poly (rd gen (j - 1)) (power2poly g p1))).

Definition ReedSolomon_new (symsize poly fcr0 prim0 nr : Z) : ReedSolomon :=
  let g := Galois_new symsize poly in
  let len := u16 (Z.shiftl 1 symsize - 1) in
  let ip := iprim_loop (Z.to_nat prim0) len prim0 1 in
  let gen := wr (zeros (nr + 1)) 0 1 in
  let '(gen, _) :=
    zfor 0 nr (fun i '(gen, root) =>
      let gen := wr gen (i + 1) 1 in
      let gen := zdownto i 1 (fun j gen => generator_update g root j gen) gen in
      let gen := wr gen 0 (u8 (power2poly g (multiply_power g root (poly2power g (rd gen 0))))) in
      (gen, root + 1))
      (gen, fcr0 * prim0) in
  let gen := zfor 0 (nr + 1) (fun i gen => wr gen i (u8 (poly2power g (rd gen i)))) gen in
  mkRS g symsize len gen nr (u8 fcr0) (u8 prim0) (u8 (ip / prim0)).

Section methods.
Context (rs : ReedSolomon).
Let g := myGalois rs.
Let len := rs_codeLength rs.
Let nr := nroots rs.

(** One symbol of [encode_rs]. *)
Definition encode_step (d : Z) (bb : list Z) : list Z :=
  let feedback := u8 (poly2power g (add_poly d (rd bb 0))) in
  let bb :=
    if feedback =? len then bb
    else zfor 1 nr (fun j bb =>
      wr bb j (u8 (add_poly (rd bb j)
        (power2poly g (multiply_power g feedback (rd (generator rs) (nr - j))))))) bb in
  let bb := slice bb 1 (nr - 1) ++ slice bb (nr - 1) 1 in (* memmove *)
  if feedback =? len then wr bb (nr - 1) 0
  else wr bb (nr - 1) (u8 (power2poly g (multiply_power g feedback (rd (generator rs) 0)))).

(** Basic encoder: returns the parity bytes [bb]. *)
Definition encode_rs (data : list Z) : list Z :=
  zfor 0 (len - nr) (fun i bb => encode_step (rd data i) bb) (zeros nr).

(** [memset(rf, 0, cutlen)] and the copy of [r]. *)
Definition fill_rf (r : list Z) (cutlen : Z) : list Z :=
  zfor cutlen len (fun i rf => wr rf i (rd r (i - cutlen))) (zeros len).

Definition enc (r d : list Z) (cutlen : Z) : list Z :=
  let rf := fill_rf r cutlen in
  let bb := encode_rs rf in
  let d := zfor cutlen (len - nr) (fun i d => wr d (i - cutlen) (rd rf i)) d in
  zfor 0 nr (fun i d => wr d (len - cutlen - nr + i) (rd bb i)) d.

(** Horner evaluation of the received word at one root. *)
Definition getSyndrome (data : list Z) (root : Z) : Z :=
  zfor 1 len (fun j syn =>
    if syn =? 0 then rd data j
    else
      let uu1 := pow_power g (multiply_power g (fcr rs) root) (prim rs) in
      u8 (add_poly (rd data j)
           (power2poly g (multiply_power g (poly2power g syn) uu1)))) (rd data 0).

(** The syndromes and whether all of them are zero. *)
Definition computeSyndromes (data : list Z) : bool * list Z :=
  let '(syn_error, syndromes) :=
    zfor 0 nr (fun i '(e, syn) =>
      let s := getSyndrome data i in (Z.lor e s, wr syn i s)) (0, zeros nr) in
  (syn_error =? 0, syndromes).

(** [Lambda[i] = Lambda[i] + error * Corrector[i]]. *)
Definition lambda_update (error : Z) (Corrector Lambda : list Z) : list Z :=
  zfor 0 nr (fun i Lambda =>
    wr Lambda i (u8 (add_poly (rd Lambda i) (multiply_poly g error (rd Corrector i))))) Lambda.

(** The discrepancy after step [K]. *)
Definition next_error (syndromes Lambda : list Z) (K : Z) : Z :=
  zfor 1 (K + 1) (fun i error =>
    u8 (add_poly error (multiply_poly g (rd syndromes (K - i)) (rd Lambda i)))) (rd syndromes K).

Record bm_state := mkBM {
  bm_L : Z; bm_Lambda : list Z; bm_Corrector : list Z; bm_error : Z
}.

(** One iteration of the Berlekamp-Massey loop. *)
Definition bm_step (syndromes : list Z) (K : Z) (s : bm_state) : bm_state :=
  let oldLambda := bm_Lambda s in
  let Lambda := lambda_update (bm_error s) (bm_Corrector s) (bm_Lambda s) in
  let '(L, Corrector) :=
    if (2 * bm_L s <? K) && negb (bm_error s =? 0) then
      (u16 (K - bm_L s),
       zfor 0 nr (fun i C => wr C i (u8 (divide_poly g (rd oldLambda i) (bm_error s))))
            (bm_Corrector s))
    else (bm_L s, bm_Corrector s) in
  let Corrector := zdownto (nr - 1) 1 (fun i C => wr C i (rd C (i - 1))) Corrector in
  let Corrector := wr Corrector 0 0 in
  mkBM L Lambda Corrector (next_error syndromes Lambda K).

Definition bm_init (syndromes : list Z) : bm_state :=
  mkBM 0 (wr (zeros nr) 0 1) (wr (zeros nr) 1 1) (rd syndromes 0).

(** Berlekamp-Massey: the degree and the error locator in power form. *)
Definition computeLambda (syndromes : list Z) : Z * list Z :=
  let s := zfor 1 nr (bm_step syndromes) (bm_init syndromes) in
  let Lambda := lambda_update (bm_error s) (bm_Corrector s) (bm_Lambda s) in
  zfor 0 nr (fun i '(deg, Lambda) =>
    (if rd Lambda i =? 0 then deg else i, wr Lambda i (u8 (poly2power g (rd Lambda i)))))
    (0, Lambda).

(** One position of the Chien search: the new work register and the value of
    the locator polynomial. *)
Definition chien_eval (deg_lambda : Z) (workRegister : list Z) : list Z * Z :=
  zdownto deg_lambda 1 (fun j '(w, result) =>
    if rd w j =? len then (w, result)
    else
      let v := u8 (multiply_power g (rd w j) j) in
      (wr w j v, add_poly result (power2poly g v))) (workRegister, 1).

(** Chien search: root count (or -1), root table and location table. *)
Definition computeErrors (Lambda : list Z) (deg_lambda : Z) : Z * list Z * list Z :=
  let '(rootCount, rootTable, locTable, _, _) :=
    zfor 1 (len + 1) (fun i '(rootCount, rootTable, locTable, w, k) =>
      let '(w, result) := chien_eval deg_lambda w in
      if result =? 0 then
        (rootCount + 1, wr rootTable rootCount (u8 i), wr locTable rootCount (u8 k), w,
         i16 (k + iprim rs))
      else (rootCount, rootTable, locTable, w, i16 (k + iprim rs)))
      (0, zeros nr, zeros nr, Lambda, iprim rs - 1) in
  (if rootCount =? deg_lambda then rootCount else -1, rootTable, locTable).

(** omega(x) = s(x) * lambda(x) modulo x^nroots: degree and power form. *)
Definition computeOmega (syndromes lambda : list Z) (deg_lambda : Z) : Z * list Z :=
  let '(deg_omega, omega) :=
    zfor 0 nr (fun i '(deg_omega, omega) =>
      let j0 := if deg_lambda <? i then deg_lambda else i in
      let tmp := zdownto j0 0 (fun j tmp =>
        if negb (poly2power g (rd syndromes (i - j)) =? len) && negb (rd lambda j =? len) then
          add_poly tmp (power2poly g
            (multiply_power g (poly2power g (rd syndromes (i - j))) (rd lambda j)))
        else tmp) 0 in
      (if tmp =? 0 then deg_omega else i, wr omega i (u8 (poly2power g tmp))))
      (0, zeros (nr + 1)) in
  (deg_omega, wr omega nr (u8 len)).

(** Sum of [coef[i] * X^i] in poly form over the given exponents, where
    [coef] is in power form (the [num1] and [den] loops of the Forney step). *)
Definition power_sum (terms : list (Z * Z)) (root : Z) : Z :=
  fold_left (fun acc '(coef, i) =>
    if coef =? len then acc
    else add_poly acc (power2poly g (multiply_power g coef (pow_power g i root)))) terms 0.

(** [for (i = omega_degree; i >= 0; i--)]. *)
Definition num1_terms (omega : list Z) (omega_degree : Z) : list (Z * Z) :=
  map (fun i => (rd omega i, i)) (rev (seqZ 0 (omega_degree + 1))).

(** [for (i = min(lambda_degree, nroots - 1) & ~1; i >= 0; i -= 2)]. *)
Definition den_terms (Lambda : list Z) (lambda_degree : Z) : list (Z * Z) :=
  let top := Z.land (if lambda_degree <? nr - 1 then lambda_degree else nr - 1) (Z.lnot 1) in
  map (fun h => (rd Lambda (2 * h + 1), 2 * h)) (rev (seqZ 0 (top / 2 + 1))).

(** The error values, from the last root to the first; gives up with -1 when
    the locator derivative vanishes. *)
Fixpoint forney (js : list Z) (omega Lambda rootTable locTable : list Z)
    (omega_degree lambda_degree rootCount : Z) (data : list Z) : Z * list Z :=
  match js with
  | [] => (rootCount, data)
  | j :: js =>
      let root := rd rootTable j in
      let num1 := power_sum (num1_terms omega omega_degree) root in
      let tmp := multiply_power g (pow_power g root (divide_power g (fcr rs) 1)) len in
      let num2 := power2poly g tmp in
      let den := power_sum (den_terms Lambda lambda_degree) root in
      if den =? 0 then (-1, data)
      else if num1 =? 0 then
        forney js omega Lambda rootTable locTable omega_degree lambda_degree rootCount data
      else if u8 (len - nr) <=? rd locTable j then
        forney js omega Lambda rootTable locTable omega_degree lambda_degree (rootCount - 1) data
      else
        let tmp1 := len - poly2power g den in
        let tmp2 := multiply_power g (poly2power g num1) (poly2power g num2) in
        let tmp2 := multiply_power g tmp2 tmp1 in
        let corr := power2poly g tmp2 in
        let loc := rd locTable j in
        forney js omega Lambda rootTable locTable omega_degree lambda_degree rootCount
          (wr data loc (u8 (add_poly (rd data loc) corr)))
  end.

Definition decode_rs (data : list Z) : Z * list Z :=
  let '(clean, syndromes) := computeSyndromes data in
  if clean then (0, data)
  else
    let '(lambda_degree, Lambda) := computeLambda syndromes in
    let '(rootCount, rootTable, locTable) := computeErrors Lambda lambda_degree in
    if rootCount <? 0 then (-1, data)
    else
      let '(omega_degree, omega) := computeOmega syndromes Lambda lambda_degree in
      forney (rev (seqZ 0 rootCount)) omega Lambda rootTable locTable
        omega_degree lambda_degree rootCount data.

(** [dec]: the decoder's return value and the output buffer. *)
Definition dec (r d : list Z) (cutlen : Z) : Z * list Z :=
  let rf := fill_rf r cutlen in
  let '(ret, rf) := decode_rs rf in
  (ret, zfor cutlen (len - nr) (fun i d => wr d (i - cutlen) (rd rf i)) d).
End methods.

(** The codec the receiver instantiates: the default arguments of the
    constructor, [ReedSolomon(8, 0435, 0, 1, 10)]. *)
Definition RS : ReedSolomon := Eval vm_compute in ReedSolomon_new 8 0x11d 0 1 10.

(** ** Facts about the instance *)
Lemma RS_new : RS = ReedSolomon_new 8 0x11d 0 1 10.
Proof. vm_compute. reflexivity. Qed.

Lemma rs_galois : myGalois RS = GF.
Proof. reflexivity. Qed.

Lemma glog_range a : is_byte a -> 0 <= glog a <= 255.
Proof.
  intros Ha. destruct (Z.eq_dec a 0) as [->|Hn]; [done|].
  destruct (glog_spec a Ha Hn). lia.
Qed.

Lemma glog_255 a : is_byte a -> glog a = 255 <-> a = 0.
Proof.
  intros Ha. split; [|by intros ->]. intros E. destruct (Z.eq_dec a 0) as [|Hn]; [done|].
  destruct (glog_spec a Ha Hn). lia.
Qed.

Lemma galog_byte k : 0 <= k <= 255 -> is_byte (galog k).
Proof.
  intros Hk. destruct (Z.eq_dec k 255) as [->|]; [apply is_byte_0|]. apply galog_spec. lia.
Qed.

(** Products in mixed power/poly form. *)
Lemma galog_multiply_power a k :
  is_byte a -> a <> 0 -> 0 <= k < 255 ->
  galog (multiply_power GF (glog a) k) = gmul a (galog k).
Proof.
  intros Ha Hn Hk. destruct (glog_spec a Ha Hn) as [Hl E].
  unfold multiply_power. rewrite modnn_GF by lia.
  pose proof (Z.mod_pos_bound (glog a + k) 255 ltac:(lia)).
  rewrite uwrap_small by lia.
  pose proof (galog_add (glog a) k ltac:(lia) ltac:(lia)) as Hadd.
  rewrite (Z.mod_small (glog a)), (Z.mod_small k), E in Hadd by lia. done.
Qed.

(** ** Horner evaluation in GF(256) *)
Fixpoint horner (x : Z) (f : Z -> Z) (n : nat) : Z :=
  match n with
  | O => 0
  | S n => Z.lxor (gmul (horner x f n) x) (f (Z.of_nat n))
  end.
Definition gpow (x : Z) (n : nat) : Z := Nat.iter n (fun a => gmul a x) 1.

Section horner_facts.
Context (x : Z) (Hx : is_byte x).

Lemma horner_S f n : horner x f (S n) = Z.lxor (gmul (horner x f n) x) (f (Z.of_nat n)).
Proof. reflexivity. Qed.

Lemma horner_byte f n : (forall i, is_byte (f i)) -> is_byte (horner x f n).
Proof. intros Hf. induction n; simpl; auto with dab. Qed.

Lemma gpow_byte n : is_byte (gpow x n).
Proof. induction n; simpl; [unfold gpow, is_byte; simpl; lia|]. by apply gmul_byte. Qed.

Lemma horner_ext f h n :
  (forall i, 0 <= i < Z.of_nat n -> f i = h i) -> horner x f n = horner x h n.
Proof.
  induction n as [|n IH]; intros H; [done|]. simpl. rewrite IH, H by lia || (intros; apply H; lia).
  done.
Qed.

Lemma horner_add f h n :
  (forall i, is_byte (f i)) -> (forall i, is_byte (h i)) ->
  horner x (fun i => Z.lxor (f i) (h i)) n = Z.lxor (horner x f n) (horner x h n).
Proof.
  intros Hf Hh. induction n as [|n IH]; [done|]. simpl. rewrite IH.
  rewrite gmul_add_l by auto using horner_byte.
  rewrite !Z.lxor_assoc. f_equal. rewrite <- !Z.lxor_assoc. f_equal. apply Z.lxor_comm.
Qed.

Lemma horner_scale c f n :
  is_byte c -> (forall i, is_byte (f i)) ->
  horner x (fun i => gmul c (f i)) n = gmul c (horner x f n).
Proof.
  intros Hc Hf. induction n as [|n IH]; [simpl; by rewrite gmul_0_r|]. simpl. rewrite IH.
  rewrite gmul_add_r, gmul_assoc by auto using horner_byte with dab. done.
Qed.

Lemma horner_app f n m :
  (forall i, is_byte (f i)) ->
  horner x f (n + m) =
  Z.lxor (gmul (horner x f n) (gpow x m)) (horner x (fun i => f (Z.of_nat n + i)) m).
Proof.
  intros Hf. induction m as [|m IH].
  - rewrite Nat.add_0_r. simpl. rewrite Z.lxor_0_r. symmetry.
    apply gmul_1_r. by apply horner_byte.
  - rewrite Nat.add_succ_r. simpl. rewrite IH.
    pose proof (horner_byte f n Hf). pose proof (gpow_byte m).
    pose proof (horner_byte (fun i => f (Z.of_nat n + i)) m (fun i => Hf _)).
    rewrite gmul_add_l, <- gmul_assoc, Z.lxor_assoc by auto with dab.
    rewrite Nat2Z.inj_add. done.
Qed.

Lemma horner_zero n : horner x (fun _ => 0) n = 0.
Proof. induction n as [|n IH]; [done|]. simpl. by rewrite IH. Qed.

(** A word with a single non-zero symbol. *)
Lemma horner_single v p n :
  is_byte v -> (p < n)%nat ->
  horner x (fun i => if i =? Z.of_nat p then v else 0) n = gmul v (gpow x (n - 1 - p)).
Proof.
  intros Hv Hp. induction n as [|n IH]; [lia|]. simpl.
  destruct (Z.eqb_spec (Z.of_nat n) (Z.of_nat p)) as [E|E].
  - assert (n = p) as -> by lia. rewrite (horner_ext _ (fun _ => 0)).
    + rewrite horner_zero. replace (p - 0 - p)%nat with O by lia.
      change (gpow x 0) with 1. by rewrite gmul_1_r.
    + intros i Hi. destruct (Z.eqb_spec i (Z.of_nat p)); [lia|done].
  - rewrite IH by lia. rewrite Z.lxor_0_r.
    replace (n - 0 - p)%nat with (S (n - 1 - p)) by lia.
    rewrite <- gmul_assoc by (done || apply gpow_byte). done.
Qed.
End horner_facts.

(** ** The encoder divides by the generator polynomial *)
Lemma generator_range i : 0 <= i < 10 -> 0 <= rd (generator RS) i < 255.
Proof.
  intros Hi.
  assert ((0 <=? rd (generator RS) i) && (rd (generator RS) i <? 255) = true) as H
    by (revert i Hi; apply forall_range; by vm_compute).
  zbool. done.
Qed.

(** The taps of the shift register, poly form. *)
Definition tap (i : Z) : Z := galog (rd (generator RS) (9 - i)).

Lemma tap_byte i : 0 <= i < 10 -> is_byte (tap i).
Proof. intros Hi. unfold tap. apply galog_byte. pose proof (generator_range (9 - i)). lia. Qed.

Lemma rd_memmove bb i :
  zlen bb = 10 -> 0 <= i < 9 -> rd (slice bb 1 9 ++ slice bb 9 1) i = rd bb (i + 1).
Proof.
  intros Hl Hi. rewrite rd_app_l by (rewrite zlen_slice; lia).
  rewrite rd_slice by lia. f_equal. lia.
Qed.

Lemma zlen_memmove (bb : list Z) : zlen bb = 10 -> zlen (slice bb 1 9 ++ slice bb 9 1) = 10.
Proof. intros Hl. rewrite zlen_app, !zlen_slice by lia. done. Qed.

Lemma encode_step_rd d bb :
  is_byte d -> Forall is_byte bb -> zlen bb = 10 ->
  zlen (encode_step RS d bb) = 10 /\
  forall i, 0 <= i < 10 ->
    rd (encode_step RS d bb) i =
    Z.lxor (if i <? 9 then rd bb (i + 1) else 0) (gmul (Z.lxor d (rd bb 0)) (tap i)).
Proof.
  intros Hd Hbb Hl. unfold encode_step, add_poly.
  change (myGalois RS) with GF. change (rs_codeLength RS) with 255. change (nroots RS) with 10.
  cbv zeta. change (10 - 1) with 9.
  assert (is_byte (rd bb 0)) as Hb0 by (by apply rd_Forall; auto with dab).
  set (fb := Z.lxor d (rd bb 0)).
  assert (is_byte fb) as Hfb by (by apply lxor_byte).
  rewrite (u8_small (glog fb)) by (pose proof (glog_range fb Hfb); unfold is_byte; lia).
  destruct (Z.eqb_spec (glog fb) 255) as [E|E].
  - apply glog_255 in E; [|done]. rewrite E.
    split; [by rewrite zlen_wr, zlen_memmove|]. intros i Hi.
    rewrite gmul_0_l, Z.lxor_0_r. destruct (Z.ltb_spec i 9).
    + rewrite rd_wr_ne, rd_memmove by lia. done.
    + assert (i = 9) as -> by lia. rewrite rd_wr_eq by (rewrite zlen_memmove; lia). done.
  - assert (fb <> 0) as Hn by (intros ->; by apply E).
    destruct (zfor_update_spec (fun j v => u8 (Z.lxor v (galog (multiply_power GF (glog fb)
      (rd (generator RS) (10 - j)))))) 1 10 bb) as [Hl' Hr']; [lia..|].
    split; [by rewrite zlen_wr, zlen_memmove by lia|]. intros i Hi.
    destruct (Z.ltb_spec i 9).
    + rewrite rd_wr_ne, rd_memmove, Hr' by lia.
      assert ((1 <=? i + 1) && (i + 1 <? 10) = true) as -> by lia.
      replace (10 - (i + 1)) with (9 - i) by lia.
      rewrite galog_multiply_power by (done || apply generator_range; lia).
      fold (tap i). apply u8_small. apply lxor_byte; [by apply rd_Forall; auto with dab|].
      apply gmul_byte; [done|by apply tap_byte].
    + assert (i = 9) as -> by lia. rewrite rd_wr_eq by (rewrite zlen_memmove; lia).
      rewrite galog_multiply_power by (done || by apply generator_range).
      change (galog (rd (generator RS) 0)) with (tap 9). rewrite Z.lxor_0_l.
      apply u8_small. apply gmul_byte; [done|by apply tap_byte].
Qed.

Lemma encode_step_bytes d bb :
  is_byte d -> Forall is_byte bb -> zlen bb = 10 -> Forall is_byte (encode_step RS d bb).
Proof.
  intros Hd Hbb Hl. destruct (encode_step_rd d bb Hd Hbb Hl) as [Hz Hr].
  apply Forall_lookup. intros i z Hi.
  pose proof (lookup_lt_Some _ _ _ Hi) as Hlt. unfold zlen in Hz.
  assert (z = rd (encode_step RS d bb) (Z.of_nat i)) as ->
    by (symmetry; apply rd_lookup; [lia|by rewrite Nat2Z.id]).
  rewrite Hr by lia. apply lxor_byte.
  - destruct (_ <? _); [|apply is_byte_0]. by apply rd_Forall; auto with dab.
  - apply gmul_byte; [apply lxor_byte; [done|by apply rd_Forall; auto with dab]|].
    apply tap_byte. lia.
Qed.

(** The roots of the code and the defining property of the generator:
    x^10 = sum of taps at every root. *)
Lemma generator_roots k :
  0 <= k < 10 -> horner (galog k) tap 10 = gpow (galog k) 10.
Proof.
  intros Hk. apply Z.eqb_eq. revert k Hk. apply (forall_range 10). by vm_compute.
Qed.

(** Feeding symbol [d] multiplies the register polynomial by x and adds
    [d * x^10], at every root of the generator. *)
Lemma encode_step_horner k d bb :
  0 <= k < 10 -> is_byte d -> Forall is_byte bb -> zlen bb = 10 ->
  horner (galog k) (rd (encode_step RS d bb)) 10 =
  Z.lxor (gmul (horner (galog k) (rd bb) 10) (galog k)) (gmul d (gpow (galog k) 10)).
Proof.
  intros Hk Hd Hbb Hl. set (x := galog k).
  assert (is_byte x) as Hx by (apply galog_byte; lia).
  assert (forall i, is_byte (rd bb i)) as Hrd by (intros; by apply rd_Forall; auto with dab).
  destruct (encode_step_rd d bb Hd Hbb Hl) as [_ Hr].
  set (fb := Z.lxor d (rd bb 0)) in *. assert (is_byte fb) by (by apply lxor_byte).
  set (tap' := fun i => if (0 <=? i) && (i <? 10) then tap i else 0).
  assert (forall i, is_byte (tap' i)) as Ht.
  { intros i. unfold tap'. destruct ((0 <=? i) && (i <? 10)) eqn:E; [|apply is_byte_0].
    apply tap_byte. lia. }
  rewrite (horner_ext x _ (fun i => Z.lxor ((fun i => if i <? 9 then rd bb (i + 1) else 0) i)
                                    ((fun i => gmul fb (tap' i)) i))).
  2:{ intros i Hi. rewrite Hr by lia. unfold tap'.
      by assert ((0 <=? i) && (i <? 10) = true) as -> by lia. }
  rewrite horner_add, horner_scale; try done.
  2:{ intros i. destruct (i <? 9); auto with dab. }
  2:{ intros i. by apply gmul_byte. }
  rewrite (horner_ext x tap' tap).
  2:{ intros i Hi. unfold tap'. by assert ((0 <=? i) && (i <? 10) = true) as -> by lia. }
  rewrite (generator_roots k Hk : horner x tap 10 = gpow x 10).
  change 10%nat with (9 + 1)%nat at 1. change 10%nat with (1 + 9)%nat at 2.
  rewrite (horner_app x Hx (rd bb)) by done. cbn [Nat.add].
  set (T := horner x (fun i => rd bb (Z.of_nat 1 + i)) 9).
  assert (horner x (fun i => if i <? 9 then rd bb (i + 1) else 0) 10 = gmul T x) as ->.
  { rewrite horner_S. change (Z.of_nat 9 <? 9) with false. cbv iota. rewrite Z.lxor_0_r. apply (f_equal (fun t => gmul t x)).
    apply horner_ext. intros i Hi. destruct (Z.ltb_spec i 9); [f_equal; lia|lia]. }
  assert (is_byte T) by (apply horner_byte; auto).
  assert (horner x (rd bb) 1 = rd bb 0) as -> by done.
  pose proof (gpow_byte x Hx 9). pose proof (gpow_byte x Hx 10).
  rewrite gmul_add_l, <- gmul_assoc by auto with dab.
  change (gmul (gpow x 9) x) with (gpow x 10). subst fb. rewrite gmul_add_l by auto with dab.
  xor_ac.
Qed.

Lemma rd_byte l i : Forall is_byte l -> is_byte (rd l i).
Proof. intros. by apply rd_Forall; auto with dab. Qed.
#[export] Hint Resolve rd_byte galog_byte : dab.

Lemma encode_rs_spec data :
  Forall is_byte data ->
  zlen (encode_rs RS data) = 10 /\ Forall is_byte (encode_rs RS data) /\
  forall k, 0 <= k < 10 ->
    horner (galog k) (rd (encode_rs RS data)) 10
    = gmul (horner (galog k) (rd data) 245) (gpow (galog k) 10).
Proof.
  intros Hd.
  assert (forall n, 0 <= n -> let bb := zfor 0 n (fun i bb => encode_step RS (rd data i) bb) (zeros 10) in
    zlen bb = 10 /\ Forall is_byte bb /\ forall k, 0 <= k < 10 ->
      horner (galog k) (rd bb) 10 = gmul (horner (galog k) (rd data) (Z.to_nat n)) (gpow (galog k) 10)) as H.
  { intros n Hn. cbv zeta.
    apply (zfor_inv (fun n bb => zlen bb = 10 /\ Forall is_byte bb /\ forall k, 0 <= k < 10 ->
      horner (galog k) (rd bb) 10 = gmul (horner (galog k) (rd data) (Z.to_nat n)) (gpow (galog k) 10)));
      [done| |].
    - split; [done|]. split; [apply Forall_replicate, is_byte_0|]. intros k Hk.
      rewrite (horner_ext _ _ (fun _ => 0)) by (intros; by rewrite rd_zeros).
      by rewrite horner_zero.
    - intros i bb Hi (Hl & Hb & IH).
      split; [by apply encode_step_rd; auto with dab|].
      split; [by apply encode_step_bytes; auto with dab|]. intros k Hk.
      rewrite encode_step_horner by auto with dab. rewrite IH by done.
      replace (Z.to_nat (i + 1)) with (S (Z.to_nat i)) by lia. cbn [horner].
      rewrite Z2Nat.id by lia. set (x := galog k).
      assert (is_byte x) as Hx by (apply galog_byte; lia).
      pose proof (gpow_byte x Hx 10).
      assert (is_byte (horner x (rd data) (Z.to_nat i))) by (apply horner_byte; auto with dab).
      rewrite gmul_add_l by auto with dab. f_equal.
      rewrite <- !gmul_assoc by auto with dab. f_equal. apply gmul_comm. }
  exact (H 245 ltac:(lia)).
Qed.

(** [getSyndrome] is evaluation at the root. *)
Lemma syndrome_exponent k :
  0 <= k < 10 -> pow_power GF (multiply_power GF 0 k) 1 = k.
Proof.
  intros Hk. apply Z.eqb_eq. revert k Hk. apply (forall_range 10). by vm_compute.
Qed.

Lemma getSyndrome_horner data k :
  Forall is_byte data -> 0 <= k < 10 ->
  getSyndrome RS data k = horner (galog k) (rd data) 255.
Proof.
  intros Hd Hk. unfold getSyndrome, add_poly.
  change (myGalois RS) with GF. change (rs_codeLength RS) with 255.
  change (fcr RS) with 0. change (prim RS) with 1. cbv zeta.
  rewrite syndrome_exponent by done.
  apply (zfor_inv (fun j syn => syn = horner (galog k) (rd data) (Z.to_nat j)));
    [lia|done|].
  intros j syn Hj ->. replace (Z.to_nat (j + 1)) with (S (Z.to_nat j)) by lia.
  cbn [horner]. rewrite Z2Nat.id by lia.
  assert (is_byte (galog k)) as Hx by (apply galog_byte; lia).
  set (h := horner (galog k) (rd data) (Z.to_nat j)).
  assert (is_byte h) by (apply horner_byte; auto with dab).
  destruct (Z.eqb_spec h 0) as [->|Hn]; [done|].
  rewrite galog_multiply_power by (done || lia). rewrite Z.lxor_comm.
  apply u8_small. auto with dab.
Qed.

Lemma computeSyndromes_spec data :
  let '(clean, syn) := computeSyndromes RS data in
  zlen syn = 10 /\
  (forall i, 0 <= i < 10 -> rd syn i = getSyndrome RS data i) /\
  ((forall i, 0 <= i < 10 -> getSyndrome RS data i = 0) <-> clean = true).
Proof.
  unfold computeSyndromes. change (nroots RS) with 10.
  set (st := zfor 0 10 _ _).
  assert (zlen st.2 = 10 /\ (forall i, 0 <= i < 10 -> rd st.2 i = getSyndrome RS data i) /\
    ((forall i, 0 <= i < 10 -> getSyndrome RS data i = 0) <-> st.1 = 0)) as H.
  { subst st. apply (zfor_inv (fun n st => zlen st.2 = 10 /\
      (forall i, 0 <= i < n -> rd st.2 i = getSyndrome RS data i) /\
      ((forall i, 0 <= i < n -> getSyndrome RS data i = 0) <-> st.1 = 0))); [lia| |].
    - split; [done|]. split; [lia|]. split; [done|lia].
    - intros i [e syn] Hi (Hl & Hr & He). simpl in *.
      split; [by rewrite zlen_wr|]. split.
      + intros j Hj. destruct (Z.eq_dec i j) as [<-|]; [by rewrite rd_wr_eq by lia|].
        rewrite rd_wr_ne by done. apply Hr. lia.
      + rewrite Z.lor_eq_0_iff, <- He. split.
        * intros Hall. split; [intros; apply Hall; lia|apply Hall; lia].
        * intros [Hall H0] j Hj. destruct (Z.eq_dec j i) as [->|]; [done|]. apply Hall. lia. }
  destruct st as [e syn]. simpl in H. by rewrite Z.eqb_eq.
Qed.

(** A word is a codeword when it vanishes at all ten roots. *)
Definition is_codeword (w : list Z) : Prop :=
  forall k, 0 <= k < 10 -> horner (galog k) (rd w) 255 = 0.

Lemma decode_codeword w :
  Forall is_byte w -> is_codeword w -> decode_rs RS w = (0, w).
Proof.
  intros Hw Hc. unfold decode_rs. pose proof (computeSyndromes_spec w) as H.
  destruct (computeSyndromes RS w) as [clean syn]. destruct H as (_ & _ & H).
  rewrite (proj1 H); [done|]. intros i Hi. rewrite getSyndrome_horner by done. by apply Hc.
Qed.

Lemma parity_codeword data w :
  Forall is_byte data ->
  (forall i, 0 <= i < 245 -> rd w i = rd data i) ->
  (forall i, 0 <= i < 10 -> rd w (245 + i) = rd (encode_rs RS data) i) ->
  (forall i, is_byte (rd w i)) -> is_codeword w.
Proof.
  intros Hd H1 H2 Hw k Hk. set (x := galog k).
  assert (is_byte x) as Hx by (apply galog_byte; lia).
  destruct (encode_rs_spec data Hd) as (_ & Hb & He). specialize (He k Hk). fold x in He.
  change 255%nat with (245 + 10)%nat. rewrite horner_app by done.
  rewrite (horner_ext x (rd w) (rd data)) by (intros; apply H1; lia).
  rewrite (horner_ext x (fun i => rd w (Z.of_nat 245 + i)) (rd (encode_rs RS data)))
    by (intros; apply H2; lia).
  rewrite He. apply Z.lxor_nilpotent.
Qed.

(** ** Buffers of [enc] and [dec] *)
Lemma fill_rf_spec r cutlen :
  0 <= cutlen <= 255 ->
  zlen (fill_rf RS r cutlen) = 255 /\
  forall j, 0 <= j < 255 -> rd (fill_rf RS r cutlen) j = if j <? cutlen then 0 else rd r (j - cutlen).
Proof.
  intros Hc. unfold fill_rf. change (rs_codeLength RS) with 255.
  destruct (zfor_update_spec (fun i _ => rd r (i - cutlen)) cutlen 255 (zeros 255)) as [Hl Hr];
    [lia|lia|by rewrite zlen_zeros|].
  split; [done|]. intros j Hj. rewrite Hr, rd_zeros.
  destruct (Z.leb_spec cutlen j), (Z.ltb_spec j 255), (Z.ltb_spec j cutlen); lia || done.
Qed.

Lemma list_byte_rd l : (forall i, 0 <= i < zlen l -> is_byte (rd l i)) -> Forall is_byte l.
Proof.
  intros H. apply Forall_lookup. intros i z Hi.
  pose proof (lookup_lt_Some _ _ _ Hi). specialize (H (Z.of_nat i)). unfold zlen in H.
  rewrite (rd_lookup l _ z) in H; [apply H; lia|lia|by rewrite Nat2Z.id].
Qed.

Lemma fill_rf_bytes r cutlen :
  0 <= cutlen <= 255 -> Forall is_byte r -> Forall is_byte (fill_rf RS r cutlen).
Proof.
  intros Hc Hr. destruct (fill_rf_spec r cutlen Hc) as [Hl H]. apply list_byte_rd.
  intros i Hi. rewrite H by lia. destruct (i <? cutlen); auto with dab.
Qed.

(** The data part of [dec]'s output is the decoder's word without the leading
    padding. *)
Lemma dec_copy rf d cutlen :
  0 <= cutlen <= 245 -> 245 - cutlen <= zlen d ->
  forall j, 0 <= j < 245 - cutlen ->
  rd (zfor cutlen 245 (fun i d => wr d (i - cutlen) (rd rf i)) d) j = rd rf (j + cutlen).
Proof.
  intros Hc Hd j Hj.
  pose proof (zfor_scatter_rd (fun i _ => rd rf i) (- cutlen) cutlen 245 d j
    ltac:(lia) ltac:(lia) ltac:(lia)) as H. unfold Z.sub. rewrite H.
  destruct (Z.leb_spec cutlen (j - - cutlen)), (Z.ltb_spec (j - - cutlen) 245); try lia.
  simpl. f_equal. lia.
Qed.

Lemma dec_unfold r d cutlen :
  dec RS r d cutlen =
  let '(ret, rf) := decode_rs RS (fill_rf RS r cutlen) in
  (ret, zfor cutlen 245 (fun i d => wr d (i - cutlen) (rd rf i)) d).
Proof. reflexivity. Qed.

(** [enc] writes the data followed by the ten parity symbols. *)
Lemma enc_spec r d cutlen :
  0 <= cutlen <= 245 -> zlen d = 255 - cutlen ->
  zlen (enc RS r d cutlen) = 255 - cutlen /\
  (forall j, 0 <= j < 245 - cutlen -> rd (enc RS r d cutlen) j = rd r j) /\
  (forall j, 0 <= j < 10 -> rd (enc RS r d cutlen) (245 - cutlen + j)
     = rd (encode_rs RS (fill_rf RS r cutlen)) j).
Proof.
  intros Hc Hd. unfold enc. change (rs_codeLength RS) with 255. change (nroots RS) with 10.
  cbv zeta. change (255 - 10) with 245.
  set (rf := fill_rf RS r cutlen). set (d1 := zfor cutlen 245 _ d).
  assert (zlen d1 = 255 - cutlen) as Hd1 by (subst d1; by rewrite zlen_zfor_wr).
  rewrite (zfor_ext _ _ _ (fun i l => wr l (i + (245 - cutlen)) (rd (encode_rs RS rf) i)))
    by (intros; f_equal; lia).
  destruct (zfor_scatter_spec (fun i _ => rd (encode_rs RS rf) i) (245 - cutlen) 0 10 d1)
    as [Hl Hr]; [lia..|].
  split; [lia|]. split; intros j Hj; rewrite Hr.
  - destruct (Z.leb_spec 0 (j - (245 - cutlen))); [lia|]. simpl.
    subst d1. rewrite dec_copy by lia. subst rf.
    destruct (fill_rf_spec r cutlen ltac:(lia)) as [_ Hf]. rewrite Hf by lia.
    destruct (Z.ltb_spec (j + cutlen) cutlen); [lia|]. f_equal. lia.
  - replace (245 - cutlen + j - (245 - cutlen)) with j by lia.
    by assert ((0 <=? j) && (j <? 10) = true) as -> by lia.
Qed.

(** What [dec] sees when it is given the output of [enc]: a codeword. *)
Lemma enc_fill_codeword r d cutlen :
  0 <= cutlen <= 245 -> zlen d = 255 - cutlen -> Forall is_byte r ->
  let w := fill_rf RS (enc RS r d cutlen) cutlen in
  Forall is_byte w /\ is_codeword w /\ zlen w = 255 /\
  forall j, 0 <= j < 245 - cutlen -> rd w (j + cutlen) = rd r j.
Proof.
  intros Hc Hd Hr w.
  destruct (enc_spec r d cutlen Hc Hd) as (Hl & H1 & H2).
  destruct (fill_rf_spec (enc RS r d cutlen) cutlen ltac:(lia)) as [Hwl Hw].
  destruct (fill_rf_spec r cutlen ltac:(lia)) as [_ Hf].
  assert (Forall is_byte (fill_rf RS r cutlen)) as Hfb by (apply fill_rf_bytes; [lia|done]).
  destruct (encode_rs_spec _ Hfb) as (_ & Hpb & _).
  assert (Forall is_byte (enc RS r d cutlen)) as Heb.
  { apply list_byte_rd. intros i Hi. rewrite Hl in Hi.
    destruct (Z.lt_ge_cases i (245 - cutlen)); [rewrite H1 by lia; auto with dab|].
    replace i with (245 - cutlen + (i - (245 - cutlen))) by lia.
    rewrite H2 by lia. auto with dab. }
  assert (Forall is_byte w) as Hwb by (apply fill_rf_bytes; [lia|done]).
  split; [done|]. split; [|split; [done|]].
  - apply (parity_codeword (fill_rf RS r cutlen)); [done| | |auto with dab]; intros i Hi.
    + subst w. rewrite Hw, Hf by lia. destruct (Z.ltb_spec i cutlen); [done|]. apply H1. lia.
    + subst w. rewrite Hw by lia. destruct (Z.ltb_spec (245 + i) cutlen); [lia|].
      rewrite <- H2 by lia. f_equal. lia.
  - intros j Hj. subst w. rewrite Hw by lia.
    destruct (Z.ltb_spec (j + cutlen) cutlen); [lia|]. rewrite Z.add_simpl_r. by apply H1.
Qed.

Lemma slice_rd_eq l k n :
  zlen l = n -> 0 <= n <= zlen k -> (forall j, 0 <= j < n -> rd l j = rd k j) -> l = slice k 0 n.
Proof.
  intros Hl Hn H. apply list_eq_rd; [by rewrite zlen_slice by lia|].
  intros i Hi. rewrite rd_slice by lia. rewrite H by lia. f_equal.
Qed.

Lemma dec_enc (r buf out : list Z) (cutlen : Z) :
  0 <= cutlen <= 245 -> Forall is_byte r -> 245 - cutlen <= zlen r ->
  zlen buf = 255 - cutlen -> zlen out = 245 - cutlen ->
  dec RS (enc RS r buf cutlen) out cutlen = (0, slice r 0 (245 - cutlen)).
Proof.
  intros Hc Hr Hlr Hb Ho. rewrite dec_unfold.
  destruct (enc_fill_codeword r buf cutlen Hc Hb Hr) as (Hwb & Hcw & _ & Hdata).
  rewrite decode_codeword by done. f_equal.
  apply slice_rd_eq; [by rewrite zlen_zfor_wr|lia|].
  intros j Hj. rewrite dec_copy by lia. by apply Hdata.
Qed.

(** Encoding then decoding is the identity for every shortening: [dec]
    accepts the output of [enc] with return value 0 and gives back the
    original data symbols. *)
Theorem rs_roundtrip (r buf out : list Z) (cutlen : Z) :
  0 <= cutlen <= 245 -> Forall is_byte r -> 245 - cutlen <= zlen r ->
  zlen buf = 255 - cutlen -> zlen out = 245 - cutlen ->
  dec RS (enc RS r buf cutlen) out cutlen = (0, slice r 0 (245 - cutlen)).
Proof. apply dec_enc. Qed.

Lemma rs_roundtrip_witness :
  dec RS (enc RS [1; 2; 3] (zeros 13) 242) (zeros 3) 242 = (0, slice [1; 2; 3] 0 (245 - 242)).
Proof.
  apply (rs_roundtrip [1; 2; 3] (zeros 13) (zeros 3) 242);
    try (vm_compute; congruence); [lia|].
  repeat (constructor; [unfold is_byte; lia|]). constructor.
Defined.

(** ** Loops of the decoder, pointwise *)
Lemma lambda_update_rd e C L :
  zlen L = 10 ->
  zlen (lambda_update RS e C L) = 10 /\
  forall i, 0 <= i < 10 -> rd (lambda_update RS e C L) i = u8 (Z.lxor (rd L i) (gmul e (rd C i))).
Proof.
  intros Hl. unfold lambda_update, add_poly. change (myGalois RS) with GF.
  change (nroots RS) with 10.
  destruct (zfor_update_spec (fun i v => u8 (Z.lxor v (gmul e (rd C i)))) 0 10 L) as [Hz Hr];
    [lia..|].
  split; [lia|]. intros i Hi. rewrite Hr. by assert ((0 <=? i) && (i <? 10) = true) as -> by lia.
Qed.

Lemma zlen10 (l : list Z) :
  zlen l = 10 -> exists a b c d e f g h i j, l = [a; b; c; d; e; f; g; h; i; j].
Proof.
  unfold zlen. intros H.
  do 10 (destruct l as [|? l]; [simpl in H; lia|]).
  destruct l; [naive_solver|simpl in H; lia].
Qed.

Lemma corrector_shift C :
  zlen C = 10 ->
  wr (zdownto (10 - 1) 1 (fun i C => wr C i (rd C (i - 1))) C) 0 0 = 0 :: slice C 0 9.
Proof.
  intros H. destruct (zlen10 C H) as (a & b & c & d & e & f & g & h & i & j & ->). reflexivity.
Qed.

Lemma multiply_power_GF i j :
  0 <= i -> 0 <= j -> multiply_power GF i j = (i + j) mod 255.
Proof.
  intros. unfold multiply_power. rewrite modnn_GF by lia.
  pose proof (Z.mod_pos_bound (i + j) 255 ltac:(lia)). apply uwrap_small. lia.
Qed.
