(* ===== verification/FieldCode.v ===== *)
(** * The algebra of bounded distance decoding

    Polynomials, linear recurrences and the Berlekamp-Massey algorithm over any
    field of characteristic two, for Reed-Solomon.v to instantiate with GF(256):

    - the determinant argument of Vandermonde, and that a polynomial has no more
      roots than its degree;
    - the recurrence a polynomial gives for power sums, with the argument of
      Massey that bounds the length of the shortest one;
    - the invariant of the algorithm, and that its result vanishes exactly at the
      inverse locators of the errors;
    - the value of the evaluator polynomial at a root (Forney). *)
From Stdlib Require Import Field.
From S2P Require Import Prelude.

(** ** Fields of characteristic two *)
Class Field2 (F : Type) := {
  f0 : F; f1 : F;
  fadd : F -> F -> F; fmul : F -> F -> F; fsub : F -> F -> F; fopp : F -> F; fdiv : F -> F -> F; finv : F -> F;
  Field2_theory : field_theory f0 f1 fadd fmul fsub fopp fdiv finv eq;
  Field2_dec :: EqDecision F;
  char2 (x : F) : fadd x x = f0
}.

Declare Scope field2_scope.
Delimit Scope field2_scope with F.
Infix "+" := fadd : field2_scope.
Infix "*" := fmul : field2_scope.
Infix "-" := fsub : field2_scope.
Infix "/" := fdiv : field2_scope.

Section field.
Context {F : Type} {FF : Field2 F}.
Add Field F_field : Field2_theory.
#[local] Open Scope field2_scope.

Lemma mul_zero x y : x * y = f0 -> x = f0 \/ y = f0.
Proof.
  intros H. destruct (decide (x = f0)) as [|Hx]; [by left|]. right.
  replace y with ((x * y) / x) by (field; done). rewrite H. field. done.
Qed.

Lemma sub_zero x y : x - y = f0 -> x = y.
Proof. intros H. replace x with (x - y + y) by ring. rewrite H. ring. Qed.

Lemma one_zero : f1 <> f0.
Proof. exact (F_1_neq_0 Field2_theory). Qed.

Lemma sub_add x y : x - y = x + y.
Proof. replace (x - y) with (x + y - (y + y)) by ring. rewrite char2. ring. Qed.

Fixpoint pow (x : F) (n : nat) : F := match n with O => f1 | S n => x * pow x n end.

Lemma pow_add x n m : pow x (n + m) = pow x n * pow x m.
Proof. induction n as [|n IH]; cbn [pow Nat.add]; [ring|]. rewrite IH. ring. Qed.

Lemma pow_zero x n : x <> f0 -> pow x n <> f0.
Proof. intros Hx. induction n as [|n IH]; [exact one_zero|]. cbn [pow]. by intros [?|?]%mul_zero. Qed.

Lemma pow_inv x y n : x * y = f1 -> pow x n * pow y n = f1.
Proof. intros H. induction n as [|n IH]; cbn [pow]; [ring|]. transitivity ((x * y) * (pow x n * pow y n)); [ring|]. rewrite H, IH. ring. Qed.

(** ** Sums *)
Definition lsum {A} (l : list A) (f : A -> F) : F := foldr (fun a s => f a + s) f0 l.

Lemma lsum_cons {A} (a : A) l f : lsum (a :: l) f = f a + lsum l f.
Proof. done. Qed.

Lemma lsum_ext {A} (l : list A) f g : (forall a, In a l -> f a = g a) -> lsum l f = lsum l g.
Proof. induction l as [|a l IH]; intros H; [done|]. cbn [lsum foldr]. rewrite H by (by left). f_equal. apply IH. intros. apply H. by right. Qed.

Lemma lsum_add {A} (l : list A) f g : lsum l (fun a => f a + g a) = lsum l f + lsum l g.
Proof. induction l as [|a l IH]; cbn; [ring|]. fold (lsum l (fun a => f a + g a)) (lsum l f) (lsum l g). rewrite IH. ring. Qed.

Lemma lsum_scale {A} (l : list A) c f : lsum l (fun a => c * f a) = c * lsum l f.
Proof. induction l as [|a l IH]; cbn; [ring|]. fold (lsum l (fun a => c * f a)) (lsum l f). rewrite IH. ring. Qed.

Lemma lsum_sub {A} (l : list A) f g : lsum l (fun a => f a - g a) = lsum l f - lsum l g.
Proof. induction l as [|a l IH]; cbn; [ring|]. fold (lsum l (fun a => f a - g a)) (lsum l f) (lsum l g). rewrite IH. ring. Qed.

Lemma lsum_0 {A} (l : list A) f : (forall a, In a l -> f a = f0) -> lsum l f = f0.
Proof. induction l as [|a l IH]; intros H; [done|]. cbn. fold (lsum l f). rewrite H, IH; [ring| |by left]. intros. apply H. by right. Qed.

Lemma lsum_swap {A B} (l : list A) (k : list B) f : lsum l (fun a => lsum k (f a)) = lsum k (fun b => lsum l (fun a => f a b)).
Proof.
  induction l as [|a l IH]; cbn.
  - by rewrite (lsum_0 k).
  - fold (lsum l (fun a => lsum k (f a))). rewrite IH, <- lsum_add. done.
Qed.

Lemma lsum_map {A B} (h : A -> B) l f : lsum (map h l) f = lsum l (fun a => f (h a)).
Proof. induction l as [|a l IH]; [done|]. cbn [map]. rewrite !lsum_cons. by rewrite IH. Qed.

Lemma lsum_app {A} (l k : list A) f : lsum (l ++ k) f = lsum l f + lsum k f.
Proof. induction l as [|a l IH]; cbn; [unfold lsum; ring|]. fold (lsum (l ++ k) f) (lsum l f). rewrite IH. ring. Qed.

(** Sums over the first [n] indices. *)
Definition fsum (n : nat) (f : nat -> F) : F := lsum (seq 0 n) f.

Lemma fsum_S n f : fsum (S n) f = fsum n f + f n.
Proof. unfold fsum. rewrite seq_S, lsum_app. cbn. ring. Qed.

Lemma fsum_0 n f : (forall i, (i < n)%nat -> f i = f0) -> fsum n f = f0.
Proof. intros H. apply lsum_0. intros i Hi%in_seq. apply H. lia. Qed.

Lemma fsum_ext n f g : (forall i, (i < n)%nat -> f i = g i) -> fsum n f = fsum n g.
Proof. intros H. apply lsum_ext. intros i Hi%in_seq. apply H. lia. Qed.

Lemma fsum_more n m f : (n <= m)%nat -> (forall i, (n <= i < m)%nat -> f i = f0) -> fsum m f = fsum n f.
Proof. intros Hm. induction Hm as [|m Hm IH]; intros H; [done|]. rewrite fsum_S, IH, (H m) by (lia || (intros; apply H; lia)). ring. Qed.

Lemma fsum_one n k f : (k < n)%nat -> (forall i, (i < n)%nat -> i <> k -> f i = f0) -> fsum n f = f k.
Proof.
  induction n as [|n IH]; intros Hk H; [lia|]. rewrite fsum_S. destruct (decide (k = n)) as [->|Hn].
  - rewrite fsum_0; [ring|]. intros i Hi. apply H; lia.
  - rewrite (H n), IH by lia || (intros; apply H; lia). ring.
Qed.

(** ** Power sums of distinct locators *)
Lemma vandermonde (l : list (F * F)) :
  List.NoDup (map fst l) -> (forall j, (j < length l)%nat -> lsum l (fun e => snd e * pow (fst e) j) = f0) -> Forall (fun e => snd e = f0) l.
Proof.
  remember (length l) as n eqn:En. revert l En. induction n as [|n IH]; intros l En Hd H; destruct l as [|[x y] l]; try done.
  injection En as En. cbn [map fst] in Hd. apply List.NoDup_cons_iff in Hd as [Hx Hd].
  set (l' := map (fun e => (fst e, snd e * (fst e - x))) l).
  assert (Forall (fun e => snd e = f0) l') as H'.
  { apply IH; [unfold l'; by rewrite length_map|unfold l'; by rewrite map_map|]. intros j Hj. unfold l'. rewrite lsum_map. cbn [fst snd].
    pose proof (H j ltac:(lia)) as H1. pose proof (H (S j) ltac:(lia)) as H2. rewrite lsum_cons in H1, H2. cbn [fst snd] in H1, H2.
    rewrite (lsum_ext l _ (fun e => snd e * pow (fst e) (S j) - x * (snd e * pow (fst e) j))) by (intros e _; cbn [pow]; ring).
    rewrite lsum_sub, lsum_scale. revert H1 H2. generalize (lsum l (fun e => snd e * pow (fst e) (S j))), (lsum l (fun e => snd e * pow (fst e) j)).
    intros A B H1 H2. cbn [pow] in H2. transitivity ((y * (x * pow x j) + A) - x * (y * pow x j + B)); [ring|]. rewrite H1, H2. ring. }
  assert (Forall (fun e => snd e = f0) l) as Hl.
  { apply List.Forall_forall. intros [a b] He. rewrite List.Forall_forall in H'. specialize (H' (a, b * (a - x))). cbn [snd] in *.
    destruct (mul_zero b (a - x)) as [|E]; [|done|]; [apply H'; unfold l'; apply in_map_iff; by exists (a, b)|].
    exfalso. apply Hx. apply sub_zero in E. subst. apply in_map_iff. by exists (x, b). }
  constructor; [|done]. specialize (H 0%nat ltac:(lia)). cbn [lsum foldr fst snd pow] in H. fold (lsum l (fun e => snd e * f1)) in H.
  rewrite (lsum_0 l) in H; [rewrite <- H; cbn [snd]; ring|]. intros e He. rewrite List.Forall_forall in Hl. rewrite Hl by done. ring.
Qed.

(** ** Polynomials have no more roots than their degree *)
Definition heval (p : list F) (x : F) : F := foldr (fun c s => c + x * s) f0 p.

(** The quotient of [c :: p] by [x - a]. *)
Fixpoint hquot (p : list F) (a : F) : list F :=
  match p with [] => [] | c :: p' => heval p a :: hquot p' a end.

Lemma heval_hquot c p a x : heval (c :: p) x = heval (c :: p) a + (x - a) * heval (hquot p a) x.
Proof.
  revert c. induction p as [|d p IH]; intros c; cbn [heval foldr hquot]; [ring|].
  fold (heval p x) (heval p a). specialize (IH d). cbn [heval foldr] in IH. fold (heval p x) (heval p a) (heval (hquot p a) x) in IH.
  fold (heval (hquot p a) x). rewrite IH. change (heval (d :: p) a) with (d + a * heval p a). ring.
Qed.

Lemma length_hquot p a : length (hquot p a) = length p.
Proof. induction p as [|c p IH]; [done|]. cbn [hquot length]. by rewrite IH. Qed.

Lemma hquot_zero p a : Forall (eq f0) (hquot p a) -> Forall (eq f0) p.
Proof.
  induction p as [|c p IH]; [done|]. cbn [hquot]. intros [Hc Hp]%List.Forall_cons_iff. specialize (IH Hp). constructor; [|done].
  cbn [heval foldr] in Hc. fold (heval p a) in Hc. assert (heval p a = f0) as E.
  { clear -IH. induction IH as [|d p <- _ IHp]; [done|]. cbn. fold (heval p a). rewrite IHp. ring. }
  rewrite Hc, E. ring.
Qed.

Lemma roots_bound p xs : List.NoDup xs -> Forall (fun x => heval p x = f0) xs -> (length p <= length xs)%nat -> Forall (eq f0) p.
Proof.
  remember (length p) as n eqn:En. revert p xs En. induction n as [|n IH]; intros p xs En Hd Hr Hl; destruct p as [|c p]; try done.
  injection En as En. destruct xs as [|a xs]; [cbn in Hl; lia|]. apply List.NoDup_cons_iff in Hd as [Ha Hd]. apply List.Forall_cons_iff in Hr as [Hra Hr].
  assert (Forall (eq f0) p) as Hp.
  { apply (hquot_zero p a), (IH _ xs); [by rewrite length_hquot|done| |cbn in Hl; lia]. apply List.Forall_forall. intros x Hx.
    rewrite List.Forall_forall in Hr. specialize (Hr x Hx). cbn beta in Hr. rewrite (heval_hquot c p a x), Hra in Hr. destruct (mul_zero (x - a) (heval (hquot p a) x)) as [E|]; [|exfalso|done].
    - rewrite <- Hr. ring.
    - apply Ha. apply sub_zero in E. by subst. }
  constructor; [|done]. rewrite <- Hra. cbn [heval foldr]. fold (heval p a).
  assert (heval p a = f0) as ->; [|ring]. clear -Hp. induction Hp as [|d p <- _ IHp]; [done|]. cbn. fold (heval p a). rewrite IHp. ring.
Qed.

(** The value of the polynomial with coefficients [p 0], ..., [p (n - 1)]. *)
Definition peval (n : nat) (p : nat -> F) (x : F) : F := fsum n (fun i => p i * pow x i).

Lemma heval_peval p k n x : heval (map p (seq k n)) x = fsum n (fun i => p (k + i)%nat * pow x i).
Proof.
  revert k. induction n as [|n IH]; intros k; [done|]. cbn [seq map heval foldr]. fold (heval (map p (seq (S k) n)) x). rewrite IH.
  unfold fsum. cbn [seq lsum foldr]. rewrite <- seq_shift. fold (lsum (map S (seq 0 n)) (fun i => p (k + i)%nat * pow x i)). rewrite lsum_map, <- lsum_scale. rewrite Nat.add_0_r. cbn [pow].
  f_equal; [ring|]. apply lsum_ext. intros i _. replace (S k + i)%nat with (k + S i)%nat by lia. cbn [pow]. ring.
Qed.

Lemma peval_roots n p xs : List.NoDup xs -> Forall (fun x => peval n p x = f0) xs -> (n <= length xs)%nat -> forall i, (i < n)%nat -> p i = f0.
Proof.
  intros Hd Hr Hl i Hi. assert (Forall (eq f0) (map p (seq 0 n))) as H.
  { apply (roots_bound _ xs); [done| |by rewrite length_map, length_seq]. eapply List.Forall_impl; [|exact Hr]. intros x Hx. rewrite heval_peval. exact Hx. }
  rewrite List.Forall_forall in H. symmetry. apply H. apply in_map_iff. exists i. split; [done|]. apply in_seq. lia.
Qed.

(** ** Linear recurrences and the Berlekamp-Massey algorithm *)
Section recurrence.
Context (S : nat -> F).

(** What the recurrence with the coefficients [p] misses at [S k]. *)
Definition disc (p : nat -> F) (k : nat) : F := fsum (k + 1) (fun i => p i * S (k - i)%nat).

Lemma disc_ext p q k : (forall i, (i <= k)%nat -> p i = q i) -> disc p k = disc q k.
Proof. intros H. apply fsum_ext. intros i Hi. rewrite H by lia. done. Qed.

Lemma disc_comb p q c k : disc (fun i => p i - c * q i) k = disc p k - c * disc q k.
Proof. unfold disc, fsum. rewrite <- lsum_scale, <- lsum_sub. apply lsum_ext. intros. ring. Qed.

Lemma disc_div p c k : c <> f0 -> disc (fun i => p i / c) k = disc p k / c.
Proof.
  intros Hc. unfold disc, fsum. transitivity ((f1 / c) * lsum (seq 0 (k + 1)) (fun i => p i * S (k - i)%nat)); [|field; done].
  rewrite <- lsum_scale. apply lsum_ext. intros. field. done.
Qed.

Definition shift (p : nat -> F) (i : nat) : F := match i with O => f0 | Datatypes.S i => p i end.

Lemma disc_shift p k : disc (shift p) (Datatypes.S k) = disc p k.
Proof.
  unfold disc. replace (Datatypes.S k + 1)%nat with (Datatypes.S (k + 1)) by lia. unfold fsum. cbn [seq]. rewrite lsum_cons, <- seq_shift, lsum_map. cbn [shift].
  transitivity (f0 + lsum (seq 0 (k + 1)) (fun i => p i * S (k - i)%nat)); [|ring]. f_equal. ring.
Qed.

(** One step, [n] the number of symbols the recurrence accounts for. *)
Record bm := mk_bm { bmL : nat; bmLambda : nat -> F; bmC : nat -> F }.

Definition bm_next (n : nat) (s : bm) : bm :=
  let d := disc (bmLambda s) n in
  let Lambda := fun i => bmLambda s i - d * bmC s i in
  if (2 * bmL s <=? n)%nat && negb (bool_decide (d = f0))
  then mk_bm (n + 1 - bmL s) Lambda (shift (fun i => bmLambda s i / d))
  else mk_bm (bmL s) Lambda (shift (bmC s)).

Definition bm_start : bm := mk_bm 0 (fun i => match i with O => f1 | _ => f0 end) (fun i => match i with 1%nat => f1 | _ => f0 end).

Definition bm_run (n : nat) : bm := foldl (fun s n => bm_next n s) bm_start (seq 0 n).

Lemma bm_run_S n : bm_run (Datatypes.S n) = bm_next n (bm_run n).
Proof. unfold bm_run. rewrite seq_S, foldl_app. done. Qed.

Record bm_ok (n : nat) (s : bm) : Prop := {
  bm_lambda_0 : bmLambda s 0%nat = f1;
  bm_c_0 : bmC s 0%nat = f0;
  bm_length : (bmL s <= n)%nat;
  bm_degree : forall i, (bmL s < i)%nat -> bmLambda s i = f0;
  bm_accounts : forall k, (bmL s <= k < n)%nat -> disc (bmLambda s) k = f0;
  bm_c_degree : forall i, (n + 1 - bmL s < i)%nat -> bmC s i = f0;
  bm_c_accounts : (0 < bmL s)%nat -> (forall k, (n + 1 - bmL s <= k < n)%nat -> disc (bmC s) k = f0) /\ disc (bmC s) n = f1
}.

Lemma bm_start_ok : bm_ok 0 bm_start.
Proof.
  split; cbn [bm_start bmL bmLambda bmC]; try done; try lia.
  - intros [|i] Hi; [lia|done].
  - intros [|[|i]] Hi; [lia|lia|done].
Qed.

Lemma bm_next_ok n s : bm_ok n s -> bm_ok (Datatypes.S n) (bm_next n s).
Proof.
  intros [H0 Hc0 HL Hd Ha Hcd Hca]. unfold bm_next. set (d := disc (bmLambda s) n). cbv zeta.
  destruct ((2 * bmL s <=? n)%nat) eqn:E2; [apply Nat.leb_le in E2|apply Nat.leb_gt in E2]; cbn [andb]; [case_bool_decide as Ed; cbn [negb]|].
  - (* nothing missed *)
    split; cbn [bmL bmLambda bmC shift]; try lia; try done.
    + rewrite H0, Ed. ring.
    + intros i Hi. rewrite Hd, Ed by done. ring.
    + intros k Hk. rewrite disc_comb, Ed. destruct (decide (k = n)) as [->|Hn]; [fold d; rewrite Ed; ring|]. rewrite Ha by lia. ring.
    + intros [|i] Hi; [done|]. cbn [shift]. apply Hcd. lia.
    + intros H. destruct (Hca H) as [H1 H2]. split; [|by rewrite disc_shift]. intros [|k] Hk; [lia|]. rewrite disc_shift. apply H1. lia.
  - (* a longer recurrence *)
    split; cbn [bmL bmLambda bmC shift]; try lia; try done.
    + rewrite H0, Hc0. ring.
    + intros i Hi. rewrite Hd, Hcd by lia. ring.
    + intros k Hk. rewrite disc_comb. destruct (Hca ltac:(lia)) as [H1 H2]. destruct (decide (k = n)) as [->|Hn]; [fold d; rewrite H2; ring|].
      rewrite Ha, H1 by lia. ring.
    + intros [|i] Hi; [lia|]. cbn [shift]. rewrite Hd by lia. field. done.
    + intros H. split; [|rewrite disc_shift, disc_div by done; fold d; field; done]. intros [|k] Hk; [lia|]. rewrite disc_shift, disc_div by done.
      rewrite Ha by lia. field. done.
  - split; cbn [bmL bmLambda bmC shift]; try lia; try done.
    + rewrite H0, Hc0. ring.
    + intros i Hi. rewrite Hd, Hcd by lia. ring.
    + destruct (Hca ltac:(lia)) as [H1 H2]. intros k Hk. rewrite disc_comb. destruct (decide (k = n)) as [->|Hn]; [fold d; rewrite H2; ring|].
      rewrite Ha, H1 by lia. ring.
    + intros [|i] Hi; [done|]. cbn [shift]. apply Hcd. lia.
    + intros H. destruct (Hca H) as [H1 H2]. split; [|by rewrite disc_shift]. intros [|k] Hk; [lia|]. rewrite disc_shift. apply H1. lia.
Qed.

Lemma bm_run_ok n : bm_ok n (bm_run n).
Proof. induction n as [|n IH]; [exact bm_start_ok|]. rewrite bm_run_S. by apply bm_next_ok. Qed.
End recurrence.

(** ** The quotient of a polynomial by [1 - X x] *)
Definition quot (p : nat -> F) (X : F) (i : nat) : F := fsum (i + 1) (fun j => p j * pow X (i - j)).

Lemma quot_S p X i : quot p X (S i) = X * quot p X i + p (S i).
Proof.
  unfold quot. replace (S i + 1)%nat with (S (i + 1)) by lia. rewrite fsum_S. replace (i + 1)%nat with (S i) at 2 3 by lia. rewrite Nat.sub_diag. unfold fsum. rewrite <- lsum_scale.
  f_equal; [|cbn [pow]; replace (i + 1)%nat with (S i) by lia; ring]. apply lsum_ext. intros j Hj%in_seq. replace (S i - j)%nat with (S (i - j)) by lia. cbn [pow]. ring.
Qed.

Lemma quot_0 p X : quot p X 0 = p 0%nat.
Proof. unfold quot. cbn. ring. Qed.

Lemma quot_spec p X x n : fsum (S n) (fun i => quot p X i * pow x i) * (f1 - X * x) = peval (S n) p x - X * quot p X n * pow x (S n).
Proof.
  induction n as [|n IH].
  - unfold peval. rewrite !fsum_S, quot_0. cbn. ring.
  - unfold peval in *. rewrite fsum_S, (fsum_S (S n) (fun i => p i * pow x i)).
    transitivity (fsum (S n) (fun i => quot p X i * pow x i) * (f1 - X * x) + quot p X (S n) * pow x (S n) * (f1 - X * x)); [ring|].
    rewrite IH, quot_S. cbn [pow]. ring.
Qed.

Lemma quot_inverse p X x i : X * x = f1 -> quot p X i * pow x i = peval (i + 1) p x.
Proof.
  intros H. unfold quot, peval, fsum. transitivity (pow x i * lsum (seq 0 (i + 1)) (fun j => p j * pow X (i - j))); [ring|]. rewrite <- lsum_scale.
  apply lsum_ext. intros j Hj%in_seq. replace i with ((i - j) + j)%nat at 1 by lia. rewrite pow_add.
  transitivity (p j * pow x j * (pow X (i - j) * pow x (i - j))); [ring|]. rewrite pow_inv by done. ring.
Qed.

Section polynomial.
Context (p : nat -> F) (d : nat) (Hd : forall i, (d < i)%nat -> p i = f0).

Lemma peval_more n m x : (d < n)%nat -> (d < m)%nat -> peval n p x = peval m p x.
Proof.
  intros Hn Hm. unfold peval. assert (forall n i, (d + 1 <= i < n)%nat -> p i * pow x i = f0) as H by (intros k i Hi; rewrite Hd by lia; ring).
  rewrite (fsum_more (d + 1) n _ ltac:(lia) (H n)), (fsum_more (d + 1) m _ ltac:(lia) (H m)). done.
Qed.

Lemma quot_end X x i : X * x = f1 -> peval (S d) p x = f0 -> (d <= i)%nat -> quot p X i = f0.
Proof.
  intros HX Hr Hi. pose proof (quot_inverse p X x i HX) as H. rewrite (peval_more (i + 1) (S d)), Hr in H by lia. apply mul_zero in H as [|H]; [done|].
  exfalso. apply (pow_zero x i) in H; [done|]. intros ->. apply one_zero. rewrite <- HX. ring.
Qed.

(** At another root the quotient vanishes, too. *)
Lemma quot_root X x y n : X * x = f1 -> peval (S d) p x = f0 -> peval (S d) p y = f0 -> x <> y -> (d <= n)%nat ->
  fsum (S n) (fun i => quot p X i * pow y i) = f0.
Proof.
  intros HX Hx Hy Hne Hn. pose proof (quot_spec p X y n) as H. rewrite (peval_more (S n) (S d)), Hy, (quot_end X x n HX Hx) in H by lia.
  assert (fsum (S n) (fun i => quot p X i * pow y i) * (f1 - X * y) = f0) as E by (rewrite H; ring). apply mul_zero in E as [|E]; [done|]. exfalso. apply Hne.
  assert (X * y = f1) as Ey by (symmetry; by apply sub_zero). transitivity (x * (X * y)); [rewrite Ey; ring|]. transitivity ((X * x) * y); [ring|]. rewrite HX. ring.
Qed.

(** At the root itself it is the formal derivative, up to the factor [x]. *)
Lemma quot_derivative X x n : X * x = f1 ->
  fsum n (fun i => quot p X i * pow x i) = (if Nat.odd n then peval n p x else f0) + fsum n (fun i => if Nat.odd i then p i * pow x i else f0).
Proof.
  intros HX. induction n as [|n IH]; [cbn; ring|]. rewrite !fsum_S, IH, quot_inverse by done. rewrite Nat.odd_succ, <- Nat.negb_odd. replace (n + 1)%nat with (S n) by lia.
  unfold peval. rewrite !fsum_S. destruct (Nat.odd n); cbn [negb]; [|ring].
  set (P := fsum n _). set (D := fsum n _). transitivity ((P + P) + (D + p n * pow x n)); [ring|]. rewrite char2. ring.
Qed.

Context (Hp0 : p 0%nat = f1) (xs : list F) (Hxs : List.NoDup xs) (Hroots : Forall (fun x => peval (S d) p x = f0) xs).

Lemma root_count : (length xs <= d)%nat.
Proof.
  destruct (decide (length xs <= d)%nat) as [|H]; [done|]. exfalso. apply one_zero. rewrite <- Hp0. apply (peval_roots (S d) p xs); [done|done|lia|lia].
Qed.

Lemma all_roots x : length xs = d -> peval (S d) p x = f0 -> In x xs.
Proof.
  intros Hl Hx. destruct (in_dec Field2_dec x xs) as [|Hn]; [done|]. exfalso. apply one_zero. rewrite <- Hp0. apply (peval_roots (S d) p (x :: xs)); [by constructor|by constructor|cbn; lia|lia].
Qed.

Lemma derivative_nonzero X x n : length xs = d -> In x xs -> X * x = f1 -> (d <= n)%nat -> fsum (S n) (fun i => quot p X i * pow x i) <> f0.
Proof.
  intros Hl Hin HX Hn H. apply one_zero. rewrite <- Hp0, <- (quot_0 p X). rewrite List.Forall_forall in Hroots.
  apply (peval_roots d (quot p X) xs); [done| |lia|destruct xs; [done|cbn in Hl; lia]]. apply List.Forall_forall. intros y Hy. unfold peval.
  rewrite <- (fsum_more d (S n)); [|lia|intros i Hi; rewrite (quot_end X x) by (lia || by auto); ring].
  destruct (decide (x = y)) as [<-|Hne]; [exact H|]. apply (quot_root X x); auto.
Qed.
End polynomial.

(** ** Errors *)
Section errors.
Context (errs : list (F * F)) (Hdist : List.NoDup (map fst errs)) (Hnz : Forall (fun e => fst e <> f0 /\ snd e <> f0) errs).

(** The syndromes: locator and value of every error. *)
Definition psum (k : nat) : F := lsum errs (fun e => snd e * pow (fst e) k).

Lemma disc_psum p L k : (L <= k)%nat -> (forall i, (L < i <= k)%nat -> p i = f0) ->
  disc psum p k = lsum errs (fun e => snd e * quot p (fst e) L * pow (fst e) (k - L)).
Proof.
  intros HL Hp. unfold disc. rewrite (fsum_more (L + 1)); [|lia|intros i Hi; rewrite Hp by lia; ring].
  rewrite (fsum_ext _ _ (fun i => lsum errs (fun e => p i * (snd e * pow (fst e) (k - i))))); [|intros i Hi; unfold psum; by rewrite lsum_scale].
  unfold fsum. rewrite lsum_swap. apply lsum_ext. intros e He. unfold quot, fsum.
  transitivity (snd e * pow (fst e) (k - L) * lsum (seq 0 (L + 1)) (fun j => p j * pow (fst e) (L - j))); [|ring]. rewrite <- lsum_scale.
  apply lsum_ext. intros j Hj%in_seq. replace (k - j)%nat with ((k - L) + (L - j))%nat by lia. rewrite pow_add. ring.
Qed.

(** A recurrence that accounts for enough symbols vanishes at the locators. *)
Lemma massey p L n : (L + length errs <= n)%nat -> (forall i, (L < i)%nat -> p i = f0) -> (forall k, (L <= k < n)%nat -> disc psum p k = f0) ->
  Forall (fun e => quot p (fst e) L = f0) errs.
Proof.
  intros Hn Hp Ha. set (l := map (fun e => (fst e, snd e * quot p (fst e) L)) errs).
  assert (Forall (fun e => snd e = f0) l) as H.
  { apply vandermonde; [unfold l; by rewrite map_map|]. unfold l. rewrite length_map. intros j Hj. rewrite lsum_map. cbn [fst snd].
    specialize (Ha (L + j)%nat ltac:(lia)). rewrite (disc_psum p L) in Ha by (lia || (intros; apply Hp; lia)). by replace (L + j - L)%nat with j in Ha by lia. }
  apply List.Forall_forall. intros e He. rewrite List.Forall_forall in H, Hnz. specialize (H (fst e, snd e * quot p (fst e) L)). cbn [snd] in H.
  apply mul_zero in H as [H|]; [|done|unfold l; apply in_map_iff; by exists e]. by destruct (Hnz e He).
Qed.

Lemma bm_short n : (bmL (bm_run psum n) <= length errs)%nat.
Proof.
  induction n as [|n IH]; [cbn; lia|]. rewrite bm_run_S. pose proof (bm_run_ok psum n) as [_ _ _ Hp Ha _ _]. unfold bm_next.
  destruct ((2 * bmL (bm_run psum n) <=? n)%nat) eqn:E2; cbn [andb]; [|done]. case_bool_decide as Ed; cbn [negb bmL]; [done|].
  destruct (decide (bmL (bm_run psum n) + length errs <= n)%nat) as [Hn|]; [exfalso; apply Ed|lia].
  rewrite (disc_psum _ (bmL (bm_run psum n))) by (lia || (intros; apply Hp; lia)). apply lsum_0. intros e He.
  pose proof (massey _ _ n Hn Hp Ha) as Hq. rewrite List.Forall_forall in Hq. rewrite Hq by done. ring.
Qed.

(** The algorithm finds a polynomial that vanishes at the inverse locators. *)
Lemma bm_locates n : (2 * length errs <= n)%nat ->
  let p := bmLambda (bm_run psum n) in
  p 0%nat = f1 /\ (forall i, (length errs < i)%nat -> p i = f0) /\ (forall k, (length errs <= k < n)%nat -> disc psum p k = f0) /\
  Forall (fun e => peval (S (length errs)) p (finv (fst e)) = f0) errs.
Proof.
  intros Hn. cbv zeta. pose proof (bm_run_ok psum n) as [H0 _ _ Hp Ha _ _]. pose proof (bm_short n) as HL. split; [done|]. split; [intros i Hi; apply Hp; lia|].
  split; [intros k Hk; apply Ha; lia|].
  pose proof (massey _ (bmL (bm_run psum n)) n ltac:(lia) Hp Ha) as Hq. apply List.Forall_forall. intros e He. rewrite List.Forall_forall in Hq, Hnz. specialize (Hq e He). destruct (Hnz e He) as [HX _].
  assert (fst e * finv (fst e) = f1) as Hi by (field; done).
  rewrite (peval_more _ (bmL (bm_run psum n)) Hp _ (bmL (bm_run psum n) + 1)) by lia. rewrite <- (quot_inverse _ (fst e)) by done. rewrite Hq. ring.
Qed.

Lemma lsum_single {A} (l : list (F * A)) f e0 : List.NoDup (map fst l) -> In e0 l -> (forall e, In e l -> fst e <> fst e0 -> f e = f0) -> lsum l f = f e0.
Proof.
  induction l as [|e l IH]; intros Hd Hin H; [done|]. cbn [map] in Hd. apply List.NoDup_cons_iff in Hd as [Hn Hd]. rewrite lsum_cons. destruct Hin as [->|Hin].
  - rewrite lsum_0; [ring|]. intros e He. apply H; [by right|]. intros E. apply Hn. rewrite <- E. apply in_map_iff. by exists e.
  - rewrite IH by (done || (intros; apply H; [by right|done])). rewrite H; [ring|by left|]. intros E. apply Hn. rewrite E. apply in_map_iff. by exists e0.
Qed.

(** The evaluator polynomial at the root of one error. *)
Lemma omega_at p d n e0 : (forall i, (d < i)%nat -> p i = f0) -> Forall (fun e => peval (S d) p (finv (fst e)) = f0) errs -> In e0 errs -> (d <= n)%nat ->
  fsum (S n) (fun i => disc psum p i * pow (finv (fst e0)) i) = snd e0 * fsum (S n) (fun i => quot p (fst e0) i * pow (finv (fst e0)) i).
Proof.
  intros Hp Hr Hin Hn. rewrite List.Forall_forall in Hr, Hnz. set (y := finv (fst e0)).
  assert (forall e, In e errs -> fst e * finv (fst e) = f1) as Hi by (intros e He; destruct (Hnz e He); field; done).
  transitivity (lsum errs (fun e => snd e * fsum (S n) (fun i => quot p (fst e) i * pow y i))).
  - rewrite (fsum_ext _ _ (fun i => lsum errs (fun e => snd e * (quot p (fst e) i * pow y i)))).
    + unfold fsum. rewrite lsum_swap. apply lsum_ext. intros e He. by rewrite lsum_scale.
    + intros i Hi'. rewrite (disc_psum p i i) by (lia || (intros; lia)). transitivity (pow y i * lsum errs (fun e => snd e * quot p (fst e) i * pow (fst e) (i - i))); [ring|].
      rewrite <- lsum_scale. apply lsum_ext. intros e He. rewrite Nat.sub_diag. cbn [pow]. ring.
  - apply (lsum_single errs (fun e => snd e * fsum (S n) (fun i => quot p (fst e) i * pow y i)) e0); [done|done|]. intros e He Hne.
    rewrite (quot_root p d Hp (fst e) (finv (fst e)) y n); [ring|by apply Hi|by apply Hr|by apply Hr| |done].
    intros E. apply Hne. unfold y in E. transitivity (fst e * (fst e0 * finv (fst e0))); [rewrite Hi by done; ring|]. rewrite <- E.
    transitivity (fst e0 * (fst e * finv (fst e))); [ring|]. rewrite Hi by done. ring.
Qed.
End errors.
End field.
