(* ===== verification/RsDecoder.v ===== *)
(** * The Reed-Solomon decoder corrects five errors
    (src/src/base/backend/reed_solomon.cpp: decode_rs)

    The bytes with the operations of galois.cpp are a field ([GF256], with the
    [field] tactic); FieldCode.v gives the algebra.  The methods of the decoder are
    related to it one by one: the syndromes are the power sums of the errors,
    [computeLambda] runs the algorithm of Berlekamp and Massey, [computeErrors]
    finds the roots of its result, [computeOmega] and the loop of [decode_rs]
    compute the formula of Forney. *)
From Stdlib Require Import Field.
From S2P Require Import Prelude Checked Galois ReedSolomon FieldCode.
Open Scope Z_scope.

(** ** The field of bytes *)
Definition GF256 : Type := { z : Z | is_byteb z = true }.

Definition el (z : Z) : GF256 :=
  match decide (is_byteb z = true) with left H => z ↾ H | right _ => 0 ↾ eq_refl end.

Lemma el_val z : is_byte z -> proj1_sig (el z) = z.
Proof. intros H%is_byteb_spec. unfold el. case_decide; done. Qed.

Lemma val_byte (a : GF256) : is_byte (proj1_sig a).
Proof. apply is_byteb_spec, (proj2_sig a). Qed.
#[export] Hint Resolve val_byte : dab.

Lemma GF256_eq (a b : GF256) : proj1_sig a = proj1_sig b -> a = b.
Proof. intros H. apply (sig_eq_pi _). exact H. Qed.

Lemma val_el (a : GF256) : el (proj1_sig a) = a.
Proof. apply GF256_eq, el_val, val_byte. Qed.

#[export] Instance GF256_dec : EqDecision GF256.
Proof. intros a b. destruct (decide (proj1_sig a = proj1_sig b)) as [E|E]; [left; by apply GF256_eq|right; by intros ->]. Defined.

Definition gadd (a b : GF256) : GF256 := el (Z.lxor (proj1_sig a) (proj1_sig b)).
Definition gmult (a b : GF256) : GF256 := el (gmul (proj1_sig a) (proj1_sig b)).
Definition ginv (a : GF256) : GF256 := if decide (a = el 0) then el 0 else el (divide_poly GF 1 (proj1_sig a)).

Lemma is_byte_1 : is_byte 1. Proof. unfold is_byte. lia. Qed.
#[export] Hint Resolve is_byte_1 : dab.

Lemma gadd_val a b : proj1_sig (gadd a b) = Z.lxor (proj1_sig a) (proj1_sig b).
Proof. apply el_val. auto with dab. Qed.
Lemma gmult_val a b : proj1_sig (gmult a b) = gmul (proj1_sig a) (proj1_sig b).
Proof. apply el_val. auto with dab. Qed.

Lemma ginv_mul a : a <> el 0 -> gmult (ginv a) a = el 1.
Proof.
  intros Ha. unfold ginv. rewrite decide_False by done. apply GF256_eq.
  assert (proj1_sig a <> 0) as H by (intros E; apply Ha, GF256_eq; by rewrite E, el_val by auto with dab).
  rewrite gmult_val, !el_val by (auto with dab; apply divide_poly_byte; auto with dab). apply divide_poly_correct; auto with dab.
Qed.

Ltac gf_ext := intros; apply GF256_eq; unfold gadd, gmult; rewrite ?el_val by auto with dab.

Lemma GF256_theory : field_theory (el 0) (el 1) gadd gmult gadd id (fun a b => gmult a (ginv b)) ginv eq.
Proof.
  constructor; [constructor|..].
  - gf_ext. apply Z.lxor_0_l.
  - gf_ext. apply Z.lxor_comm.
  - gf_ext. by rewrite Z.lxor_assoc.
  - gf_ext. apply gmul_1_l. auto with dab.
  - gf_ext. apply gmul_comm.
  - gf_ext. apply gmul_assoc; auto with dab.
  - gf_ext. apply gmul_add_l; auto with dab.
  - done.
  - gf_ext. apply Z.lxor_nilpotent.
  - intros H. apply (f_equal proj1_sig) in H. rewrite !el_val in H by auto with dab. done.
  - done.
  - intros. by apply ginv_mul.
Qed.
#[export, refine] Instance GF256_field : Field2 GF256 := { Field2_theory := GF256_theory }.
Proof. gf_ext. apply Z.lxor_nilpotent. Defined.
Add Field GF256_ring : (Field2_theory (F := GF256)).
#[local] Open Scope field2_scope.

Lemma el_add a b : is_byte a -> is_byte b -> el (Z.lxor a b) = el a + el b.
Proof. intros Ha Hb. apply GF256_eq. cbn [fadd GF256_field]. rewrite gadd_val, !el_val by auto with dab. done. Qed.
Lemma el_mul a b : is_byte a -> is_byte b -> el (gmul a b) = el a * el b.
Proof. intros Ha Hb. apply GF256_eq. cbn [fmul GF256_field]. rewrite gmult_val, !el_val by auto with dab. done. Qed.

Lemma el_inj a b : is_byte a -> is_byte b -> el a = el b -> a = b.
Proof. intros Ha Hb E. rewrite <- (el_val a), <- (el_val b), E by done. done. Qed.

Lemma el_zero a : is_byte a -> el a = f0 <-> a = 0%Z.
Proof. intros Ha. split; [|by intros ->]. intros E. apply el_inj; auto with dab. Qed.

Lemma el_div a b : is_byte a -> is_byte b -> b <> 0%Z -> el (divide_poly GF a b) = el a / el b.
Proof.
  intros Ha Hb Hn. assert (el b <> f0) as Hb0 by (by rewrite el_zero). assert (is_byte (divide_poly GF a b)) as Hd by (by apply divide_poly_byte).
  transitivity (el (divide_poly GF a b) * el b / el b); [field; done|]. rewrite <- el_mul by done. by rewrite divide_poly_correct.
Qed.

(** The powers of the primitive element. *)
Definition apow (k : Z) : GF256 := el (galog (k mod 255)).

Lemma galog_mod_byte k : is_byte (galog (k mod 255)).
Proof. apply galog_byte. pose proof (Z.mod_pos_bound k 255). lia. Qed.
#[local] Hint Resolve galog_mod_byte : dab.

Lemma apow_add i j : (0 <= i)%Z -> (0 <= j)%Z -> apow (i + j)%Z = apow i * apow j.
Proof. intros Hi Hj. unfold apow. rewrite <- el_mul by auto with dab. by rewrite galog_add. Qed.

Lemma apow_mod i : apow (i mod 255) = apow i.
Proof. unfold apow. by rewrite Z.mod_mod. Qed.

Lemma apow_0 : apow 0 = f1. Proof. reflexivity. Qed.

Lemma apow_mul i n : (0 <= i)%Z -> pow (apow i) n = apow (i * Z.of_nat n)%Z.
Proof.
  intros Hi. induction n as [|n IH]; [by rewrite Z.mul_0_r|]. cbn [pow]. rewrite IH, <- apow_add by lia. f_equal. lia.
Qed.

Lemma apow_nonzero i : apow i <> f0.
Proof. unfold apow. rewrite el_zero by auto with dab. apply galog_spec. apply Z.mod_pos_bound. lia. Qed.

Lemma apow_inj i j : (0 <= i < 255)%Z -> (0 <= j < 255)%Z -> apow i = apow j -> i = j.
Proof.
  intros Hi Hj E. apply el_inj in E; [|auto with dab..]. rewrite !Z.mod_small in E by done.
  destruct (galog_spec i Hi) as (_ & _ & <-), (galog_spec j Hj) as (_ & _ & <-). by rewrite E.
Qed.

Lemma apow_inj_255 i j : (1 <= i <= 255)%Z -> (1 <= j <= 255)%Z -> apow i = apow j -> i = j.
Proof.
  intros Hi Hj E. rewrite <- (apow_mod i), <- (apow_mod j) in E. apply apow_inj in E; [|by apply Z.mod_pos_bound..].
  destruct (Z.eq_dec i 255) as [->|], (Z.eq_dec j 255) as [->|]; rewrite ?(Z.mod_small i), ?(Z.mod_small j) in E by lia; rewrite ?Z_mod_same_full in E; lia.
Qed.

Lemma el_galog k : (0 <= k < 255)%Z -> el (galog k) = apow k.
Proof. intros Hk. unfold apow. by rewrite Z.mod_small. Qed.

(** A product in power form. *)
Lemma el_power a k : is_byte a -> a <> 0%Z -> (0 <= k)%Z -> el (galog (multiply_power GF (glog a) k)) = el a * apow k.
Proof.
  intros Ha Hn Hk. destruct (glog_spec a Ha Hn) as [Hl E]. rewrite multiply_power_GF by lia. change (el (galog ((glog a + k) mod 255))) with (apow (glog a + k)).
  rewrite apow_add by lia. f_equal. rewrite <- el_galog by done. by rewrite E.
Qed.

#[local] Open Scope Z_scope.

(** ** Syndromes *)
Lemma el_horner x f n : is_byte x -> (forall i, is_byte (f i)) ->
  el (horner x f n) = fsum n (fun i => el (f (Z.of_nat i)) * pow (el x) (n - 1 - i))%F.
Proof.
  intros Hx Hf. induction n as [|n IH]; [done|]. cbn [horner]. assert (is_byte (horner x f n)) by (by apply horner_byte).
  rewrite el_add, el_mul, IH, fsum_S by auto with dab. replace (S n - 1 - n)%nat with O by lia. cbn [pow].
  f_equal; [|ring]. unfold fsum. transitivity (el x * lsum (seq 0 n) (fun i => el (f (Z.of_nat i)) * pow (el x) (n - 1 - i)))%F; [ring|].
  rewrite <- lsum_scale. apply lsum_ext. intros i Hi%in_seq. replace (S n - 1 - i)%nat with (S (n - 1 - i)) by lia. cbn [pow]. ring.
Qed.

(** Where a received word differs from a code word, and by how much. *)
Definition places (n : Z) (w w' : list Z) : list Z := List.filter (fun p => negb (rd w p =? rd w' p)) (seqZ 0 n).
Abbreviation differences := (places 255).

(** The symbol at [p] is the coefficient of the power [254 - p]. *)
Definition locator (p : Z) : GF256 := apow (254 - p).

Definition errors (w w' : list Z) : list (GF256 * GF256) :=
  map (fun p => (locator p, el (Z.lxor (rd w p) (rd w' p)))) (differences w w').

Lemma in_places n w w' p : In p (places n w w') <-> 0 <= p < n /\ rd w p <> rd w' p.
Proof. unfold places. rewrite filter_In, in_seqZ, negb_true_iff, Z.eqb_neq. lia. Qed.

Lemma NoDup_seqZ m n : List.NoDup (seqZ m n).
Proof. apply NoDup_ListNoDup. apply NoDup_seqZ. Qed.

Lemma NoDup_places n w w' : List.NoDup (places n w w').
Proof. apply List.NoDup_filter, NoDup_seqZ. Qed.

Lemma locator_inj p q : 0 <= p < 255 -> 0 <= q < 255 -> locator p = locator q -> p = q.
Proof. intros Hp Hq E. apply apow_inj in E; lia. Qed.

Lemma NoDup_map_on {A B} (f : A -> B) l : (forall a b, In a l -> In b l -> f a = f b -> a = b) -> List.NoDup l -> List.NoDup (map f l).
Proof.
  intros Hf. induction 1 as [|a l Ha Hd IH]; cbn [map]; constructor.
  - intros (b & E & Hb)%in_map_iff. apply Ha. rewrite (Hf a b); [done|by left|by right|done].
  - apply IH. intros. apply Hf; [by right|by right|done].
Qed.

Section received.
Context (w w' : list Z) (Hw : Forall is_byte w) (Hw' : Forall is_byte w').

Lemma errors_distinct : List.NoDup (map fst (errors w w')).
Proof.
  unfold errors. rewrite map_map. apply NoDup_map_on; [|apply NoDup_places]. intros p q [Hp _]%in_places [Hq _]%in_places. by apply locator_inj.
Qed.

Lemma errors_nonzero : Forall (fun e => fst e <> f0 /\ snd e <> f0) (errors w w').
Proof.
  apply List.Forall_forall. intros e (p & <- & [Hp Hd]%in_places)%in_map_iff. cbn [fst snd]. split; [apply apow_nonzero|].
  rewrite el_zero by auto with dab. by rewrite Z.lxor_eq_0_iff.
Qed.

Lemma lsum_filter {A} (P : A -> bool) l (f : A -> GF256) : (forall a, In a l -> P a = false -> f a = f0) -> lsum (List.filter P l) f = lsum l f.
Proof.
  induction l as [|a l IH]; intros Hf; [done|]. cbn [List.filter]. rewrite lsum_cons. destruct (P a) eqn:E.
  - rewrite lsum_cons, IH; [done|]. intros. apply Hf; [by right|done].
  - rewrite IH by (intros; apply Hf; [by right|done]). rewrite (Hf a) by (done || by left). ring.
Qed.

Lemma syndrome_psum k : is_codeword w -> 0 <= k < 10 -> el (getSyndrome RS w' k) = psum (errors w w') (Z.to_nat k).
Proof.
  intros Hc Hk. assert (is_byte (galog k)) as Hg by (apply galog_byte; lia). rewrite getSyndrome_horner by done.
  rewrite (horner_ext _ _ (fun i => Z.lxor (rd w i) (Z.lxor (rd w i) (rd w' i)))) by (intros; by rewrite <- Z.lxor_assoc, Z.lxor_nilpotent).
  rewrite horner_add, (Hc k Hk), Z.lxor_0_l by auto with dab. rewrite el_horner by auto with dab.
  unfold psum, errors, places. rewrite lsum_map, lsum_filter.
  - unfold seqZ, fsum. unfold fmap. rewrite lsum_map. apply lsum_ext. intros i Hi%in_seq. cbn [fst snd]. rewrite Z.add_0_r. f_equal.
    unfold locator. rewrite el_galog, !apow_mul by lia. replace (Z.of_nat (255 - 1 - i)) with (254 - Z.of_nat i) by lia. by rewrite Z2Nat.id, Z.mul_comm by lia.
  - intros p Hp%in_seqZ Hd. zbool. cbn [fst snd]. rewrite Hd, Z.lxor_nilpotent. change (el 0) with (f0 (F := GF256)). ring.
Qed.
End received.

(** ** Berlekamp-Massey *)
(** A C array of ten symbols holds the coefficients [p]. *)
Definition holds (l : list Z) (p : nat -> GF256) : Prop :=
  zlen l = 10 /\ Forall is_byte l /\ forall i, (i < 10)%nat -> el (rd l (Z.of_nat i)) = p i.

Lemma holds_at l p i : holds l p -> 0 <= i < 10 -> el (rd l i) = p (Z.to_nat i).
Proof. intros (_ & _ & Hr) Hi. rewrite <- Hr by lia. by rewrite Z2Nat.id by lia. Qed.

Lemma lambda_update_holds e C L p q : is_byte e -> holds C q -> holds L p -> holds (lambda_update RS e C L) (fun i => p i - el e * q i)%F.
Proof.
  intros He (HzC & HbC & HrC) (HzL & HbL & HrL). destruct (lambda_update_rd e C L HzL) as [Hz Hr]. split; [done|].
  assert (forall i, 0 <= i < 10 -> rd (lambda_update RS e C L) i = Z.lxor (rd L i) (gmul e (rd C i))) as Hr' by (intros i Hi; rewrite Hr by done; apply u8_small; auto with dab).
  split; [apply list_byte_rd; intros i Hi; rewrite Hr' by lia; auto with dab|].
  intros i Hi. rewrite Hr' by lia. rewrite el_add, el_mul by auto with dab. rewrite HrL, HrC by done. by rewrite sub_add.
Qed.

Lemma next_error_disc syn Lam K (S p : nat -> GF256) :
  holds syn S -> holds Lam p -> p 0%nat = f1 -> 1 <= K < 10 ->
  is_byte (next_error RS syn Lam K) /\ el (next_error RS syn Lam K) = disc S p (Z.to_nat K).
Proof.
  intros HS Hp H0 HK. destruct HS as (HzS & HbS & HrS). destruct Hp as (Hzp & Hbp & Hrp). unfold next_error, add_poly. change (myGalois RS) with GF.
  unfold disc. replace (Z.to_nat K + 1)%nat with (Z.to_nat (K + 1)) by lia.
  apply (zfor_inv (fun n e => is_byte e /\ el e = fsum (Z.to_nat n) (fun i => p i * S (Z.to_nat K - i)%nat)%F)); [lia| |].
  - split; [auto with dab|]. change (Z.to_nat 1) with 1%nat. unfold fsum. cbn [seq]. rewrite lsum_cons, H0. cbn [lsum foldr]. rewrite Nat.sub_0_r, <- HrS by lia. rewrite Z2Nat.id by lia. ring.
  - intros i e Hi [Hb IH]. assert (is_byte (gmul (rd syn (K - i)) (rd Lam i))) by auto with dab. rewrite u8_small by auto with dab. split; [auto with dab|].
    rewrite el_add, el_mul, IH by auto with dab. replace (Z.to_nat (i + 1)) with (Datatypes.S (Z.to_nat i)) by lia. rewrite fsum_S. f_equal.
    rewrite <- HrS, <- Hrp by lia. replace (Z.of_nat (Z.to_nat K - Z.to_nat i)) with (K - i) by lia. rewrite Z2Nat.id by lia. ring.
Qed.

Definition bm_rel (S : nat -> GF256) (K : Z) (s : bm_state) (a : bm) : Prop :=
  bm_L s = Z.of_nat (bmL a) /\ holds (bm_Lambda s) (bmLambda a) /\ holds (bm_Corrector s) (bmC a) /\
  is_byte (bm_error s) /\ el (bm_error s) = disc S (bmLambda a) (Z.to_nat (K - 1)).

Lemma holds_shift C q : holds C q -> holds (0 :: slice C 0 9) (shift q).
Proof.
  intros (Hz & Hb & Hr). split; [pose proof (zlen_slice C 0 9 ltac:(lia) ltac:(lia) ltac:(lia)) as E; unfold zlen in *; cbn [length]; lia|]. split; [constructor; [auto with dab|by apply Forall_slice]|].
  intros [|i] Hi; [reflexivity|]. cbn [shift]. rewrite rd_cons by lia. replace (Z.of_nat (S i) - 1) with (Z.of_nat i) by lia. rewrite rd_slice by lia. rewrite Z.add_0_l. apply Hr. lia.
Qed.

Lemma holds_div L p e C : holds L p -> zlen C = 10 -> is_byte e -> e <> 0 ->
  holds (zfor 0 10 (fun i C => wr C i (u8 (divide_poly GF (rd L i) e))) C) (fun i => p i / el e)%F.
Proof.
  intros (HzL & HbL & HrL) HC He Hn. destruct (zfor_update_spec (fun i _ => u8 (divide_poly GF (rd L i) e)) 0 10 C) as [Hz Hr]; [lia..|].
  assert (forall i, 0 <= i < 10 -> rd (zfor 0 10 (fun i C => wr C i (u8 (divide_poly GF (rd L i) e))) C) i = divide_poly GF (rd L i) e) as Hr'.
  { intros i Hi. rewrite Hr. assert ((0 <=? i) && (i <? 10) = true) as -> by lia. apply u8_small. apply divide_poly_byte; auto with dab. }
  split; [lia|]. split; [apply list_byte_rd; intros i Hi; rewrite Hr' by lia; apply divide_poly_byte; auto with dab|].
  intros i Hi. rewrite Hr' by lia. rewrite el_div by auto with dab. by rewrite HrL.
Qed.

Lemma bm_init_rel syn S : holds syn S -> bm_rel S 1 (bm_init RS syn) bm_start.
Proof.
  intros (Hz & Hb & Hr). split; [done|]. split; [|split; [|split]].
  - split; [done|]. split; [apply forall_bytes; reflexivity|]. intros i Hi. do 10 (destruct i as [|i]; [reflexivity|]). lia.
  - split; [done|]. split; [apply forall_bytes; reflexivity|]. intros i Hi. do 10 (destruct i as [|i]; [reflexivity|]). lia.
  - cbn [bm_init bm_error]. auto with dab.
  - cbn [bm_init bm_error]. change (rd syn 0) with (rd syn (Z.of_nat 0)). rewrite (Hr 0%nat) by lia. unfold disc, fsum. change (Z.to_nat (1 - 1) + 1)%nat with 1%nat. cbn [seq]. rewrite lsum_cons.
    cbn [bm_start bmLambda lsum foldr]. change (Z.to_nat (1 - 1) - 0)%nat with 0%nat. ring.
Qed.

Lemma bm_step_rel syn S K s a : 1 <= K < 10 -> holds syn S -> bm_ok S (Z.to_nat (K - 1)) a -> bm_rel S K s a ->
  bm_rel S (K + 1) (bm_step RS syn K s) (bm_next S (Z.to_nat (K - 1)) a).
Proof.
  intros HK HS Hok (HL & Hp & Hq & He & Ed). unfold bm_step. change (nroots RS) with 10. change (myGalois RS) with GF.
  pose proof (bm_lambda_0 _ _ _ (bm_next_ok _ _ _ Hok)) as H0. pose proof (bm_length _ _ _ Hok) as Hlen.
  pose proof (lambda_update_holds _ _ _ _ _ He Hq Hp) as HLam. rewrite Ed in HLam.
  assert (((2 * bm_L s <? K) && negb (bm_error s =? 0)) = ((2 * bmL a <=? Z.to_nat (K - 1))%nat && negb (bool_decide (disc S (bmLambda a) (Z.to_nat (K - 1)) = f0)))) as Ec.
  { f_equal; [rewrite HL; destruct (Nat.leb_spec (2 * bmL a) (Z.to_nat (K - 1))); lia|]. f_equal. rewrite <- Ed. apply eq_true_iff_eq. rewrite Z.eqb_eq, bool_decide_eq_true. symmetry. by apply el_zero. }
  rewrite Ec. unfold bm_next in *. cbv zeta in *. destruct ((2 * bmL a <=? Z.to_nat (K - 1))%nat && _) eqn:E.
  - apply andb_true_iff in E as [E1 E2]. apply Nat.leb_le in E1. apply negb_true_iff, bool_decide_eq_false in E2. rewrite <- Ed in E2.
    assert (bm_error s <> 0) as Hn by (intros E0; apply E2; by rewrite E0). cbn [bmLambda] in H0.
    destruct (next_error_disc syn _ K S _ HS HLam H0 HK) as [Hb Hd]. rewrite corrector_shift by (apply (holds_div _ _ _ _ Hp (proj1 Hq) He Hn)). split; [|split; [exact HLam|split; [|split; [exact Hb|]]]]; cbn [bm_L bmL bm_Corrector bmC bm_error bmLambda].
    + rewrite HL. rewrite uwrap_small; lia.
    + rewrite <- Ed. apply holds_shift. by apply holds_div; [..|apply Hq| |].
    + rewrite Hd. by replace (K + 1 - 1) with K by lia.
  - cbn [bmLambda] in H0. destruct (next_error_disc syn _ K S _ HS HLam H0 HK) as [Hb Hd]. rewrite corrector_shift by apply Hq. split; [|split; [exact HLam|split; [|split; [exact Hb|]]]]; cbn [bm_L bmL bm_Corrector bmC bm_error bmLambda].
    + done.
    + by apply holds_shift.
    + rewrite Hd. by replace (K + 1 - 1) with K by lia.
Qed.

Lemma bm_loop_rel syn S : holds syn S -> bm_rel S 10 (zfor 1 10 (bm_step RS syn) (bm_init RS syn)) (bm_run S 9).
Proof.
  intros HS. change (bm_run S 9) with (bm_run S (Z.to_nat (10 - 1))). apply (zfor_inv (fun K s => bm_rel S K s (bm_run S (Z.to_nat (K - 1))))); [lia|by apply bm_init_rel|].
  intros K s HK H. replace (Z.to_nat (K + 1 - 1)) with (Datatypes.S (Z.to_nat (K - 1))) by lia. rewrite bm_run_S. apply bm_step_rel; [lia|done|apply bm_run_ok|done].
Qed.

(** The same coefficients in power form. *)
Definition holds_power (l : list Z) (p : nat -> GF256) : Prop :=
  zlen l = 10 /\ forall i, 0 <= i < 10 -> rd l i = glog (proj1_sig (p (Z.to_nat i))).

(** The degree the decoder finds: the last non-zero coefficient. *)
Record degree_of (deg : Z) (n : Z) (p : nat -> GF256) : Prop := {
  deg_range : 0 <= deg < n;
  deg_above : forall i, deg < i < n -> p (Z.to_nat i) = f0;
  deg_at : deg <> 0 -> p (Z.to_nat deg) <> f0
}.

Lemma glog_el a : is_byte a -> glog (proj1_sig (el a)) = glog a.
Proof. intros Ha. by rewrite el_val. Qed.

Lemma computeLambda_spec syn S : holds syn S ->
  exists deg Lam, computeLambda RS syn = (deg, Lam) /\ holds_power Lam (bmLambda (bm_run S 10)) /\ degree_of deg 10 (bmLambda (bm_run S 10)).
Proof.
  intros HS. destruct (bm_loop_rel syn S HS) as (_ & Hp & Hq & He & Ed). unfold computeLambda. change (nroots RS) with 10. change (myGalois RS) with GF.
  set (s := zfor 1 10 _ _) in *. pose proof (lambda_update_holds _ _ _ _ _ He Hq Hp) as HL. rewrite Ed in HL.
  assert (bmLambda (bm_run S 10) = fun i => (bmLambda (bm_run S 9) i - disc S (bmLambda (bm_run S 9)) (Z.to_nat (10 - 1)) * bmC (bm_run S 9) i)%F) as Er.
  { rewrite (bm_run_S S 9). unfold bm_next. change (Z.to_nat (10 - 1)) with 9%nat. by destruct (_ && _). }
  rewrite <- Er in HL. set (p := bmLambda (bm_run S 10)) in *. set (L := lambda_update RS _ _ _) in *. destruct HL as (Hz & Hb & Hr).
  set (r := zfor 0 10 _ _).
  assert (zlen (snd r) = 10 /\ (forall j, 0 <= j < 10 -> rd (snd r) j = glog (proj1_sig (p (Z.to_nat j)))) /\ degree_of (fst r) 10 p) as (H1 & H2 & H3).
  { assert (zlen (snd r) = 10 /\ (forall j, 0 <= j < 10 -> rd (snd r) j = if j <? 10 then glog (proj1_sig (p (Z.to_nat j))) else rd L j) /\
      0 <= fst r < 10 /\ (forall j, fst r < j < 10 -> p (Z.to_nat j) = f0) /\ (fst r <> 0 -> p (Z.to_nat (fst r)) <> f0)) as (H1 & H2 & H3 & H4 & H5).
    { unfold r. apply (zfor_inv (fun n r => zlen (snd r) = 10 /\ (forall j, 0 <= j < 10 -> rd (snd r) j = if j <? n then glog (proj1_sig (p (Z.to_nat j))) else rd L j) /\
        0 <= fst r < Z.max 1 n /\ (forall j, fst r < j < n -> p (Z.to_nat j) = f0) /\ (fst r <> 0 -> p (Z.to_nat (fst r)) <> f0))); [lia| |].
      - cbn [fst snd]. split; [done|]. split; [intros j Hj; by destruct (Z.ltb_spec j 0); [lia|]|]. split_and!; try lia. 
      - intros i [deg l] Hi (Hl & Hrd & Hd & Ha & Hn). cbn [fst snd] in *. pose proof (Hrd i ltac:(lia)) as Hi'. rewrite Z.ltb_irrefl in Hi'. rewrite Hi'.
        assert (el (rd L i) = p (Z.to_nat i)) as Ei by (rewrite <- Hr by lia; by rewrite Z2Nat.id by lia).
        assert (is_byte (rd L i)) as Hbi by auto with dab.
        split; [by rewrite zlen_wr|]. split; [|split; [|split]].
        + intros j Hj. destruct (Z.eq_dec i j) as [<-|Hne].
          * rewrite rd_wr_eq by lia. destruct (Z.ltb_spec i (i + 1)); [|lia]. rewrite <- Ei, el_val by done. apply u8_small. pose proof (glog_range _ Hbi). unfold is_byte. lia.
          * rewrite rd_wr_ne, Hrd by done. destruct (Z.ltb_spec j i), (Z.ltb_spec j (i + 1)); done || lia.
        + destruct (rd L i =? 0); lia.
        + destruct (Z.eqb_spec (rd L i) 0) as [E0|E0]; intros j Hj; [|lia]. destruct (Z.eq_dec j i) as [->|]; [rewrite <- Ei, E0; reflexivity|apply Ha; lia].
        + destruct (Z.eqb_spec (rd L i) 0) as [E0|E0]; [done|]. intros _. rewrite <- Ei. by rewrite el_zero. }
    split; [done|]. split; [intros j Hj; rewrite H2 by done; by destruct (Z.ltb_spec j 10); [|lia]|]. by split. }
  exists (fst r), (snd r). destruct r. by repeat split; try apply H3.
Qed.

(** ** Chien search *)
Lemma power_step (a : GF256) k : a <> f0 -> 0 <= k ->
  multiply_power GF (glog (proj1_sig a)) k = glog (proj1_sig (a * apow k)%F) /\ 0 <= multiply_power GF (glog (proj1_sig a)) k < 255.
Proof.
  intros Ha Hk. assert (proj1_sig a <> 0) as Hn by (intros E; apply Ha; by rewrite <- (val_el a), E).
  pose proof (el_power (proj1_sig a) k (val_byte a) Hn Hk) as E. rewrite val_el in E. rewrite <- E. destruct (glog_spec _ (val_byte a) Hn) as [Hl _].
  assert (0 <= multiply_power GF (glog (proj1_sig a)) k < 255) as Hr by (rewrite multiply_power_GF by lia; apply Z.mod_pos_bound; lia).
  destruct (galog_spec _ Hr) as (Hb & _ & El). rewrite el_val by done. done.
Qed.

Lemma glog_255_el (a : GF256) : glog (proj1_sig a) = 255 <-> a = f0.
Proof. rewrite glog_255 by auto with dab. split; [intros E; by rewrite <- (val_el a), E|by intros ->]. Qed.

Lemma chien_eval_spec deg w (q : nat -> GF256) : 0 <= deg < 10 -> zlen w = 10 -> q 0%nat = f1 ->
  (forall j, 1 <= j <= deg -> rd w j = glog (proj1_sig (q (Z.to_nat j)))) ->
  let '(w', res) := chien_eval RS deg w in
  zlen w' = 10 /\ (forall j, 1 <= j <= deg -> rd w' j = glog (proj1_sig (q (Z.to_nat j) * apow j)%F)) /\
  is_byte res /\ el res = fsum (S (Z.to_nat deg)) (fun j => q j * apow (Z.of_nat j))%F.
Proof.
  intros Hd Hz H0 Hw. unfold chien_eval, add_poly. change (rs_codeLength RS) with 255. change (myGalois RS) with GF.
  set (t := fun j => (q j * apow (Z.of_nat j))%F). set (body := fun j '(w, result) => _).
  pose proof (zdownto_inv (fun n r => zlen (fst r) = 10 /\ (forall j, 1 <= j <= deg -> rd (fst r) j = glog (proj1_sig (if n <? j then q (Z.to_nat j) * apow j else q (Z.to_nat j))%F)) /\
    is_byte (snd r) /\ (el (snd r) + fsum (S (Z.to_nat n)) t = f1 + fsum (S (Z.to_nat deg)) t)%F) deg 1 body (w, 1)) as H.
  destruct (zdownto deg 1 body (w, 1)) as [w' res]. cbn [fst snd] in H. destruct H as (H1 & H2 & H3 & H4).
  - lia.
  - split; [done|]. split; [intros j Hj; destruct (Z.ltb_spec deg j); [lia|by apply Hw]|]. split; [auto with dab|done].
  - intros j [v res'] Hj (Hl & Hr & Hb & He). cbn [fst snd] in *. unfold body. pose proof (Hr j ltac:(lia)) as Hj'. rewrite Z.ltb_irrefl in Hj'. rewrite Hj'.
    assert (fsum (S (Z.to_nat j)) t = fsum (S (Z.to_nat (j - 1))) t + q (Z.to_nat j) * apow j)%F as Ef.
    { rewrite (fsum_S (Z.to_nat j)). replace (S (Z.to_nat (j - 1))) with (Z.to_nat j) by lia. unfold t at 2. by rewrite Z2Nat.id by lia. }
    rewrite Ef in He. destruct (Z.eqb_spec (glog (proj1_sig (q (Z.to_nat j)))) 255) as [E|E].
    + apply glog_255_el in E. cbn [fst snd]. split; [done|]. split; [|split; [done|]].
      * intros i Hi. rewrite Hr by done. destruct (Z.ltb_spec j i), (Z.ltb_spec (j - 1) i); try lia. assert (i = j) as -> by lia. rewrite E. do 2 f_equal.
      * rewrite <- He, E. ring.
    + assert (q (Z.to_nat j) <> f0) as Hq by (by rewrite <- glog_255_el). destruct (power_step _ j Hq ltac:(lia)) as [Ep Hp].
      rewrite (u8_small (multiply_power _ _ _)) by (unfold is_byte; lia). cbn [fst snd]. split; [by rewrite zlen_wr|]. split; [|split].
      * intros i Hi. destruct (Z.eq_dec j i) as [<-|Hne].
        -- rewrite rd_wr_eq by lia. destruct (Z.ltb_spec (j - 1) j); [|lia]. exact Ep.
        -- rewrite rd_wr_ne, Hr by done. destruct (Z.ltb_spec j i), (Z.ltb_spec (j - 1) i); done || lia.
      * assert (is_byte (galog (multiply_power GF (glog (proj1_sig (q (Z.to_nat j)))) j))) by (apply galog_byte; lia). auto with dab.
      * rewrite el_add by (done || (apply galog_byte; lia)). rewrite el_power, val_el by (auto with dab || lia || (intros Ez; apply Hq; by rewrite <- (val_el (q _)), Ez)).
        rewrite <- He. ring.
  - split; [done|]. split; [intros j Hj; rewrite H2 by done; destruct (Z.ltb_spec (1 - 1) j); [done|lia]|]. split; [done|].
    assert (fsum (S (Z.to_nat (1 - 1))) t = f1) as E0 by (change (Z.to_nat (1 - 1)) with 0%nat; unfold fsum; cbn [seq]; rewrite lsum_cons; unfold t; rewrite H0; cbn [lsum foldr]; change (apow (Z.of_nat 0)) with (f1 (F := GF256)); ring).
    rewrite E0 in H4. transitivity (el res + f1 - f1)%F; [ring|]. rewrite H4. ring.
Qed.

Lemma apow_next (a : GF256) i j : 0 <= j -> 1 <= i -> (a * apow (j * (i - 1)) * apow j = a * apow (j * (i + 1 - 1)))%F.
Proof.
  intros Hj Hi. transitivity (a * (apow (j * (i - 1)) * apow j))%F; [ring|]. rewrite <- apow_add by nia. by replace (j * (i - 1) + j) with (j * (i + 1 - 1)) by lia.
Qed.

Section chien.
Context (p : nat -> GF256) (deg : Z) (Hp0 : p 0%nat = f1) (Hdeg : 0 <= deg < 10).

Definition is_root (i : Z) : bool := bool_decide (peval (S (Z.to_nat deg)) p (apow i) = f0).
Definition roots (n : Z) : list Z := List.filter is_root (seqZ 1 n).

Lemma NoDup_powers l : List.NoDup l -> Forall (fun i => 1 <= i <= 255) l -> List.NoDup (map apow l).
Proof.
  intros Hl Hr. rewrite List.Forall_forall in Hr. apply NoDup_map_on; [|done]. intros i j Hi Hj E. apply apow_inj_255 in E; auto.
Qed.

Lemma roots_spec n : 0 <= n <= 255 -> List.NoDup (map apow (roots n)) /\ Forall (fun x => peval (S (Z.to_nat deg)) p x = f0) (map apow (roots n)).
Proof.
  intros Hn. split.
  - apply NoDup_powers; [apply List.NoDup_filter, NoDup_seqZ|]. apply List.Forall_forall. intros i [Hi%in_seqZ _]%filter_In. lia.
  - apply List.Forall_forall. intros x (i & <- & [_ Hi]%filter_In)%in_map_iff. by apply bool_decide_eq_true in Hi.
Qed.

Lemma roots_bound_deg n : 0 <= n <= 255 -> zlen (roots n) <= deg.
Proof.
  intros Hn. destruct (roots_spec n Hn) as [H1 H2]. pose proof (root_count p (Z.to_nat deg) Hp0 _ H1 H2) as H. rewrite length_map in H. unfold zlen. lia.
Qed.

Lemma computeErrors_spec Lam : holds_power Lam p ->
  exists rt lt, computeErrors RS Lam deg = (if zlen (roots 255) =? deg then zlen (roots 255) else -1, rt, lt) /\
    forall t, 0 <= t < zlen (roots 255) -> rd rt t = nth (Z.to_nat t) (roots 255) 0 /\ rd lt t = nth (Z.to_nat t) (roots 255) 0 - 1.
Proof.
  intros [Hz Hr]. unfold computeErrors. change (rs_codeLength RS) with 255. change (nroots RS) with 10. change (iprim RS) with 1. set (body := fun i '(_, _, _, _, _) => _).
  pose proof (zfor_inv (fun i s => let '(rootCount, rt, lt, w, k) := s in
    rootCount = zlen (roots (i - 1)) /\ zlen rt = 10 /\ zlen lt = 10 /\ zlen w = 10 /\ k = i - 1 /\
    (forall j, 1 <= j <= deg -> rd w j = glog (proj1_sig (p (Z.to_nat j) * apow (j * (i - 1)))%F)) /\
    (forall t, 0 <= t < rootCount -> rd rt t = nth (Z.to_nat t) (roots (i - 1)) 0 /\ rd lt t = nth (Z.to_nat t) (roots (i - 1)) 0 - 1)) 1 (255 + 1) body
    (0, zeros 10, zeros 10, Lam, 1 - 1)) as H.
  destruct (zfor 1 (255 + 1) body _) as [[[[rootCount rt] lt] w] k]. destruct H as (-> & Hrt & Hlt & _ & _ & _ & Ht).
  - lia.
  - split; [done|]. split; [done|]. split; [done|]. split; [done|]. split; [done|]. split; [|intros t Ht'; lia].
    intros j Hj. rewrite Hr by lia. change (1 - 1) with 0. rewrite Z.mul_0_r, apow_0. by replace (p (Z.to_nat j) * f1)%F with (p (Z.to_nat j)) by ring.
  - intros i s Hi. destruct s as [[[[count rt'] lt'] w'] k']. intros (-> & Hrt & Hlt & Hw & -> & Hrd & Ht). unfold body.
    pose proof (chien_eval_spec deg w' (fun j => p j * apow (Z.of_nat j * (i - 1)))%F Hdeg Hw) as Hc. cbv beta in Hc.
    destruct (chien_eval RS deg w') as [w2 res]. destruct Hc as (Hz2 & Hr2 & Hb & He).
    { rewrite Hp0. change (Z.of_nat 0 * (i - 1)) with 0. rewrite apow_0. ring. }
    { intros j Hj. rewrite Hrd by done. by rewrite Z2Nat.id by lia. }
    assert (el res = peval (S (Z.to_nat deg)) p (apow i)) as Ev.
    { rewrite He. apply fsum_ext. intros j Hj. rewrite apow_mul by lia. transitivity (p j * (apow (Z.of_nat j * (i - 1)) * apow (Z.of_nat j)))%F; [ring|]. rewrite <- apow_add by nia. do 2 f_equal. lia. }
    assert (roots (i + 1 - 1) = roots (i - 1) ++ if res =? 0 then [i] else []) as Er.
    { unfold roots. replace (i + 1 - 1) with (i - 1 + 1) by lia. rewrite seqZ_app by lia. rewrite List.filter_app. f_equal. change (seqZ (1 + (i - 1)) 1) with [0 + (1 + (i - 1))]. replace (0 + (1 + (i - 1))) with i by lia.
      cbn [List.filter]. unfold is_root. rewrite <- Ev. destruct (Z.eqb_spec res 0) as [->|Hn]; [done|]. rewrite bool_decide_eq_false_2; [done|]. by rewrite el_zero. }
    assert (forall j, 1 <= j <= deg -> rd w2 j = glog (proj1_sig (p (Z.to_nat j) * apow (j * (i + 1 - 1)))%F)) as Hrd2.
    { intros j Hj. rewrite Hr2 by done. rewrite Z2Nat.id by lia. by rewrite apow_next by lia. }
    pose proof (roots_bound_deg (i + 1 - 1) ltac:(lia)) as Hbd. pose proof (zlen_nonneg (roots (i - 1))) as Hnn. rewrite (i16_small (i - 1 + 1)) by lia. rewrite Er in *. destruct (Z.eqb_spec res 0) as [E0|E0].
    + rewrite zlen_app in *. change (zlen [i]) with 1 in *. rewrite !zlen_wr. split; [done|]. split; [done|]. split; [done|]. split; [done|]. split; [lia|]. split; [done|].
      intros t Htt. rewrite !u8_small by (unfold is_byte; lia). destruct (Z.eq_dec (zlen (roots (i - 1))) t) as [<-|Hne].
      * rewrite !rd_wr_eq by lia. unfold zlen. rewrite Nat2Z.id, nth_middle. split; lia.
      * rewrite !rd_wr_ne by done. rewrite app_nth1 by (unfold zlen in *; lia). apply Ht. lia.
    + rewrite app_nil_r. split; [done|]. split; [done|]. split; [done|]. split; [done|]. split; [lia|]. split; [done|exact Ht].
  - exists rt, lt. change (255 + 1 - 1) with 255 in *. split; [done|exact Ht].
Qed.
End chien.

(** ** The evaluator polynomial *)
Lemma zdownto_sum hi (body : Z -> Z -> Z) (t : nat -> GF256) : 0 <= hi ->
  (forall j acc, 0 <= j <= hi -> is_byte acc -> is_byte (body j acc) /\ el (body j acc) = (el acc + t (Z.to_nat j))%F) ->
  is_byte (zdownto hi 0 body 0) /\ el (zdownto hi 0 body 0) = fsum (S (Z.to_nat hi)) t.
Proof.
  intros Hhi Hb.
  pose proof (zdownto_inv (fun n r => is_byte r /\ (el r + fsum (Z.to_nat (n + 1)) t = fsum (S (Z.to_nat hi)) t)%F) hi 0 body 0) as H. destruct H as [H1 H2].
  - lia.
  - split; [auto with dab|]. replace (Z.to_nat (hi + 1)) with (S (Z.to_nat hi)) by lia. change (el 0) with (f0 (F := GF256)). ring.
  - intros j acc Hj [Ha E]. destruct (Hb j acc Hj Ha) as [H1 H2]. split; [done|]. rewrite H2, <- E. replace (Z.to_nat (j + 1)) with (S (Z.to_nat j)) by lia. rewrite fsum_S.
    replace (Z.to_nat (j - 1 + 1)) with (Z.to_nat j) by lia. ring.
  - split; [done|]. rewrite <- H2. change (fsum (Z.to_nat (0 - 1 + 1)) t) with (f0 (F := GF256)). ring.
Qed.

Lemma degree_sum od n p x : degree_of od (Z.of_nat n) p -> fsum (S (Z.to_nat od)) (fun i => p i * x i)%F = fsum n (fun i => p i * x i)%F.
Proof.
  intros [Hr Ha _]. symmetry. apply fsum_more; [lia|]. intros i Hi. specialize (Ha (Z.of_nat i) ltac:(lia)). rewrite Nat2Z.id in Ha. rewrite Ha. ring.
Qed.

Lemma computeOmega_spec syn Lam deg S p : holds syn S -> holds_power Lam p -> degree_of deg 10 p ->
  exists od om, computeOmega RS syn Lam deg = (od, om) /\ (forall i, 0 <= i < 10 -> rd om i = glog (proj1_sig (disc S p (Z.to_nat i)))) /\
    degree_of od 10 (disc S p).
Proof.
  intros (HzS & HbS & HrS) [HzL HrL] [Hdr Hda _]. unfold computeOmega. change (rs_codeLength RS) with 255. change (nroots RS) with 10. change (myGalois RS) with GF.
  set (body := fun i '(_, _) => _). pose proof (zfor_inv (fun n r => zlen (snd r) = 11 /\ (forall i, 0 <= i < n -> rd (snd r) i = glog (proj1_sig (disc S p (Z.to_nat i)))) /\
    0 <= fst r < Z.max 1 n /\ (forall j, fst r < j < n -> disc S p (Z.to_nat j) = f0) /\ (fst r <> 0 -> disc S p (Z.to_nat (fst r)) <> f0)) 0 10 body (0, zeros (10 + 1))) as H.
  destruct (zfor 0 10 body (0, zeros (10 + 1))) as [od om]. cbn [fst snd] in H. destruct H as (H1 & H2 & H3 & H4 & H5).
  - lia.
  - split; [done|]. split_and!; lia.
  - intros i [d om'] Hi (Hz & Hr & Hd & Ha & Hn). unfold body. cbn [fst snd] in *. set (j0 := if deg <? i then deg else i). set (tmp := zdownto j0 0 _ 0).
    assert (is_byte tmp /\ el tmp = disc S p (Z.to_nat i)) as [Hb Ev].
    { assert (0 <= j0 <= i /\ j0 <= deg) as Hj0 by (unfold j0; destruct (Z.ltb_spec deg i); lia).
      destruct (zdownto_sum j0 (fun j tmp => if negb (glog (rd syn (i - j)) =? 255) && negb (rd Lam j =? 255) then Z.lxor tmp (galog (multiply_power GF (glog (rd syn (i - j))) (rd Lam j))) else tmp)
        (fun j => p j * S (Z.to_nat i - j)%nat)%F ltac:(lia)) as [H1 H2].
      - intros j acc Hj Hacc. rewrite HrL by lia. assert (is_byte (rd syn (i - j))) as Hs by auto with dab. rewrite (Z.eqb_sym _ 255). rewrite !(Z.eqb_sym _ 255).
        rewrite <- HrS by lia. replace (Z.of_nat (Z.to_nat i - Z.to_nat j)) with (i - j) by lia.
        destruct (Z.eqb_spec 255 (glog (rd syn (i - j)))) as [E|E]; cbn [negb andb].
        + split; [done|]. symmetry in E. apply glog_255 in E; [|done]. rewrite E. change (el 0) with (f0 (F := GF256)). ring.
        + destruct (Z.eqb_spec 255 (glog (proj1_sig (p (Z.to_nat j))))) as [E'|E']; cbn [negb].
          * split; [done|]. symmetry in E'. apply glog_255_el in E'. rewrite E'. ring.
          * assert (proj1_sig (p (Z.to_nat j)) <> 0) as Hn0 by (intros E0; apply E'; by rewrite E0). destruct (glog_spec _ (val_byte (p (Z.to_nat j))) Hn0) as [Hl El].
            rewrite galog_multiply_power by (done || (intros E0; apply E; by rewrite E0)). rewrite El. split; [auto with dab|].
            rewrite el_add, el_mul, val_el by auto with dab. ring.
      - split; [exact H1|]. fold tmp in H2. unfold disc. etransitivity; [exact H2|]. replace (Z.to_nat i + 1)%nat with (Datatypes.S (Z.to_nat i)) by lia.
        unfold j0. destruct (Z.ltb_spec deg i); [|done]. symmetry. apply fsum_more; [lia|]. intros j Hj. specialize (Hda (Z.of_nat j) ltac:(lia)). rewrite Nat2Z.id in Hda. rewrite Hda. ring. }
    cbn [fst snd]. split; [by rewrite zlen_wr|]. split; [|split; [|split]].
    + intros j Hj. destruct (Z.eq_dec i j) as [<-|Hne].
      * rewrite rd_wr_eq by lia. rewrite <- Ev, el_val by done. apply u8_small. pose proof (glog_range _ Hb). unfold is_byte. lia.
      * rewrite rd_wr_ne by done. apply Hr. lia.
    + destruct (tmp =? 0); lia.
    + destruct (Z.eqb_spec tmp 0) as [E0|E0]; intros j Hj; [|lia]. destruct (Z.eq_dec j i) as [->|]; [rewrite <- Ev, E0; reflexivity|apply Ha; lia].
    + destruct (Z.eqb_spec tmp 0) as [E0|E0]; [done|]. intros _. rewrite <- Ev. by rewrite el_zero.
  - exists od, (wr om 10 (u8 255)). split; [done|]. split; [intros i Hi; rewrite rd_wr_ne by lia; by apply H2|]. split; [lia|done|done].
Qed.

(** ** The error values *)
Lemma pow_power_mod i n : 0 <= i -> 0 <= n -> pow_power GF i n = (i * n) mod 255.
Proof.
  intros Hi Hn. unfold pow_power. destruct (Z.eqb_spec i 0) as [->|]; [done|]. change (d_q GF - 1) with 255. apply uwrap_small. pose proof (Z.mod_pos_bound (i * n) 255). lia.
Qed.

Lemma apow_idem i n : 0 <= i -> apow (i mod 255 + n) = apow (i + n).
Proof. intros Hi. unfold apow. by rewrite Zplus_mod_idemp_l. Qed.

Lemma lsum_rev {A} (l : list A) (f : A -> GF256) : lsum (rev l) f = lsum l f.
Proof. induction l as [|a l IH]; [done|]. cbn [rev]. rewrite lsum_app, IH, !lsum_cons. cbn [lsum foldr]. ring. Qed.

Lemma power_sum_spec (l : list (GF256 * Z)) root : 0 <= root -> Forall (fun e => 0 <= snd e) l ->
  is_byte (power_sum RS (map (fun e => (glog (proj1_sig (fst e)), snd e)) l) root) /\
  el (power_sum RS (map (fun e => (glog (proj1_sig (fst e)), snd e)) l) root) = lsum l (fun e => fst e * apow (snd e * root))%F.
Proof.
  intros Hroot Hl. unfold power_sum, add_poly. change (myGalois RS) with GF. change (rs_codeLength RS) with 255. set (step := fun acc '(_, _) => _).
  assert (forall acc, is_byte acc -> is_byte (fold_left step (map (fun e => (glog (proj1_sig (fst e)), snd e)) l) acc) /\
    el (fold_left step (map (fun e => (glog (proj1_sig (fst e)), snd e)) l) acc) = (el acc + lsum l (fun e => fst e * apow (snd e * root)))%F) as H.
  { induction Hl as [|[c i] l Hi Hl IH]; intros acc Ha; [split; [done|]; cbn [map fold_left lsum foldr]; ring|].
    cbn [map fold_left fst snd] in *. rewrite lsum_cons. cbn [fst snd]. unfold step at 2 4. destruct (Z.eqb_spec (glog (proj1_sig c)) 255) as [E|E].
    - destruct (IH acc Ha) as [H1 H2]. split; [done|]. rewrite H2. apply glog_255_el in E. rewrite E. ring.
    - assert (c <> f0) as Hc by (by rewrite <- glog_255_el). assert (proj1_sig c <> 0) as Hn by (intros E0; apply Hc; by rewrite <- (val_el c), E0).
      rewrite pow_power_mod by done. set (m := galog (multiply_power GF (glog (proj1_sig c)) ((i * root) mod 255))).
      pose proof (Z.mod_pos_bound (i * root) 255 ltac:(lia)) as Hm.
      assert (is_byte m) as Hmb by (unfold m; rewrite multiply_power_GF by (pose proof (glog_range _ (val_byte c)); lia); auto using galog_mod_byte).
      assert (el m = (c * apow (i * root))%F) as Em by (unfold m; rewrite el_power, val_el, apow_mod by (auto with dab || lia); done).
      destruct (IH (Z.lxor acc m) ltac:(auto with dab)) as [H1 H2]. split; [done|]. rewrite H2, el_add, Em by done. ring. }
  destruct (H 0 ltac:(auto with dab)) as [H1 H2]. split; [done|]. rewrite H2. change (el 0) with (f0 (F := GF256)). ring.
Qed.

(** [num1]: the evaluator polynomial at the root. *)
Lemma num1_spec (om : list Z) od (p : nat -> GF256) root : 0 <= root -> (forall i, 0 <= i < 10 -> rd om i = glog (proj1_sig (p (Z.to_nat i)))) -> degree_of od 10 p ->
  is_byte (power_sum RS (num1_terms om od) root) /\ el (power_sum RS (num1_terms om od) root) = fsum 10 (fun i => p i * pow (apow root) i)%F.
Proof.
  intros Hroot Hr Hd. pose proof (deg_range _ _ _ Hd) as Hod. set (l := map (fun i => (p (Z.to_nat i), i)) (rev (seqZ 0 (od + 1)))).
  assert (num1_terms om od = map (fun e => (glog (proj1_sig (fst e)), snd e)) l) as ->.
  { unfold num1_terms, l. rewrite map_map. apply map_ext_in. intros i Hi%in_rev%in_seqZ. cbn [fst snd]. by rewrite Hr by lia. }
  destruct (power_sum_spec l root Hroot) as [H1 H2].
  { apply List.Forall_forall. intros e (i & <- & Hi%in_rev%in_seqZ)%in_map_iff. cbn [snd]. lia. }
  split; [done|]. rewrite H2. unfold l. rewrite lsum_map, lsum_rev. rewrite <- (degree_sum od 10 p _ Hd). unfold seqZ, fsum, fmap. rewrite lsum_map.
  replace (Z.to_nat (od + 1)) with (S (Z.to_nat od)) by lia. apply lsum_ext. intros i Hi. cbn [fst snd]. rewrite Z.add_0_r, Nat2Z.id, apow_mul by lia. do 2 f_equal. lia.
Qed.

(** [den]: the derivative of the locator polynomial at the root. *)
Lemma den_spec Lam deg (p : nat -> GF256) root : 0 <= root -> holds_power Lam p -> degree_of deg 10 p ->
  is_byte (power_sum RS (den_terms RS Lam deg) root) /\
  (apow root * el (power_sum RS (den_terms RS Lam deg) root) = fsum 10 (fun i => if Nat.odd i then p i * pow (apow root) i else f0))%F.
Proof.
  intros Hroot [_ Hr] Hd. destruct Hd as [Hdr Hda _]. set (l := map (fun h => (p (Z.to_nat (2 * h + 1)), 2 * h)) (rev (seqZ 0 (deg / 2 + 1)))).
  assert (den_terms RS Lam deg = map (fun e => (glog (proj1_sig (fst e)), snd e)) l) as ->.
  { unfold den_terms, l. change (nroots RS - 1) with 9. rewrite map_map. assert ((if deg <? 9 then deg else 9) = deg) as -> by (destruct (Z.ltb_spec deg 9); lia).
    assert (Z.land deg (Z.lnot 1) / 2 = deg / 2) as ->.
    { apply Z.eqb_eq. generalize Hdr. clear. intros Hdr. revert deg Hdr. apply (forall_range 10). by vm_compute. }
    apply map_ext_in. intros h Hh%in_rev%in_seqZ. cbn [fst snd]. rewrite Hr; [done|]. Z.to_euclidean_division_equations. lia. }
  destruct (power_sum_spec l root Hroot) as [H1 H2].
  { apply List.Forall_forall. intros e (h & <- & Hh%in_rev%in_seqZ)%in_map_iff. cbn [snd]. lia. }
  split; [done|]. rewrite H2. unfold l. rewrite lsum_map, lsum_rev.
  transitivity (apow root * fsum 5 (fun h => p (2 * h + 1)%nat * pow (apow root) (2 * h)))%F.
  - f_equal. rewrite (fsum_more (Z.to_nat (deg / 2 + 1)) 5).
    + unfold fsum, seqZ, fmap. rewrite lsum_map. apply lsum_ext. intros h Hh. cbn [fst snd]. rewrite Z.add_0_r, apow_mul by lia. f_equal; f_equal; lia.
    + Z.to_euclidean_division_equations. lia.
    + intros h Hh. specialize (Hda (Z.of_nat (2 * h + 1))). rewrite Nat2Z.id in Hda. rewrite Hda; [ring|]. Z.to_euclidean_division_equations. lia.
  - rewrite !fsum_S. cbn [Nat.odd Nat.even negb Nat.mul Nat.add]. unfold fsum. cbn [seq lsum foldr]. cbn [pow]. ring.
Qed.

Lemma corr_spec num1 den root v : is_byte num1 -> is_byte den -> num1 <> 0 -> den <> 0 -> 1 <= root <= 255 ->
  (el num1 = v * (apow root * el den))%F ->
  let tmp := multiply_power GF (pow_power GF root (divide_power GF (fcr RS) 1)) 255 in
  let c := galog (multiply_power GF (multiply_power GF (glog num1) (glog (galog tmp))) (255 - glog den)) in
  is_byte c /\ el c = v.
Proof.
  intros Hn Hd Hn0 Hd0 Hr E tmp c. change (fcr RS) with 0 in tmp. destruct (glog_spec num1 Hn Hn0) as [Hln _], (glog_spec den Hd Hd0) as [Hld Eld].
  assert (tmp = (root * 254) mod 255) as Etmp.
  { unfold tmp. rewrite divide_power_GF by lia. change ((0 - 1) mod 255) with 254. rewrite pow_power_mod, multiply_power_GF by (try apply Z.mod_pos_bound; lia).
    rewrite Zplus_mod_idemp_l. replace (root * 254 + 255) with (root * 254 + 1 * 255) by lia. by rewrite Z.mod_add by lia. }
  pose proof (Z.mod_pos_bound (root * 254) 255 ltac:(lia)) as Ht. rewrite <- Etmp in Ht. destruct (galog_spec tmp Ht) as (_ & _ & El).
  unfold c. rewrite El. set (m := multiply_power GF (glog num1) tmp). assert (0 <= m < 255) as Hm by (unfold m; rewrite multiply_power_GF by lia; apply Z.mod_pos_bound; lia).
  destruct (galog_spec m Hm) as (Hmb & Hm0 & Em). rewrite <- Em. split; [rewrite multiply_power_GF by (rewrite ?Em; lia); apply galog_mod_byte|].
  rewrite el_power by (done || lia). unfold m. rewrite el_power by (done || lia). rewrite E, Etmp, apow_mod.
  assert (el den = apow (glog den)) as Ed by (by rewrite <- el_galog, Eld by done).
  transitivity (v * (apow root * apow (root * 254)) * (apow (glog den) * apow (255 - glog den)))%F; [rewrite Ed; ring|].
  rewrite <- !apow_add by lia. replace (root + root * 254) with (root * 255) by lia. replace (glog den + (255 - glog den)) with (1 * 255) by lia.
  assert (forall k, apow (k * 255) = f1) as H1 by (intros k; unfold apow; rewrite Z_mod_mult; reflexivity). rewrite !H1. ring.
Qed.

Section forney.
Context (om Lam rt lt : list Z) (od deg : Z) (D : Z -> Z).

(** What the tables say about the error number [j]. *)
Definition located (j : Z) : Prop :=
  let num1 := power_sum RS (num1_terms om od) (rd rt j) in let den := power_sum RS (den_terms RS Lam deg) (rd rt j) in
  0 <= rd lt j < 255 /\ rd rt j = rd lt j + 1 /\ is_byte num1 /\ is_byte den /\ den <> 0 /\ is_byte (D (rd lt j)) /\ D (rd lt j) <> 0 /\
  (el num1 = el (D (rd lt j)) * (apow (rd rt j) * el den))%F.

Lemma forney_spec js rc data : Forall located js -> List.NoDup (map (rd lt) js) -> zlen data = 255 -> Forall is_byte data ->
  exists data', forney RS js om Lam rt lt od deg rc data = (rc - zlen (List.filter (fun j => 245 <=? rd lt j) js), data') /\
    zlen data' = 255 /\ forall q, 0 <= q < 255 -> rd data' q = if (q <? 245) && existsb (fun j => rd lt j =? q) js then Z.lxor (rd data q) (D q) else rd data q.
Proof.
  revert rc data. induction js as [|j js IH]; intros rc data Hj Hd Hz Hb.
  - exists data. cbn [forney List.filter existsb]. split; [f_equal; unfold zlen; cbn; lia|]. split; [done|]. intros q Hq. by rewrite andb_false_r.
  - apply List.Forall_cons_iff in Hj as [(Hloc & Hrt & Hn & Hdn & Hd0 & HD & HD0 & E) Hj]. cbn [map] in Hd. apply List.NoDup_cons_iff in Hd as [Hnew Hd].
    cbn [forney List.filter existsb]. change (myGalois RS) with GF. change (rs_codeLength RS) with 255. change (nroots RS) with 10. change (u8 (255 - 10)) with 245. unfold add_poly.
    set (num1 := power_sum RS (num1_terms om od) (rd rt j)) in *. set (den := power_sum RS (den_terms RS Lam deg) (rd rt j)) in *. destruct (Z.eqb_spec den 0) as [|_]; [done|].
    assert (num1 <> 0) as Hn0.
    { intros E0. rewrite E0 in E. change (el 0) with (f0 (F := GF256)) in E. symmetry in E. apply mul_zero in E as [E|E]; [by apply el_zero in E|]. apply mul_zero in E as [E|E]; [by apply apow_nonzero in E|]. by apply el_zero in E. }
    destruct (Z.eqb_spec num1 0) as [|_]; [done|]. destruct (Z.leb_spec 245 (rd lt j)) as [Hp|Hp].
    + destruct (IH (rc - 1) data Hj Hd Hz Hb) as (data' & E1 & E2 & E3). exists data'. split; [rewrite E1; f_equal; unfold zlen; cbn [length]; lia|]. split; [done|].
      intros q Hq. rewrite E3 by done. destruct (Z.eqb_spec (rd lt j) q) as [<-|]; [|done]. by destruct (Z.ltb_spec (rd lt j) 245); [lia|].
    + pose proof (corr_spec num1 den (rd rt j) (el (D (rd lt j))) Hn Hdn Hn0 Hd0 ltac:(lia) E) as Hc. cbv zeta in Hc. destruct Hc as [Hcb Hc].
      set (corr := galog (multiply_power GF (multiply_power GF (glog num1) _) (255 - glog den))) in *. apply el_inj in Hc; [|done..]. rewrite Hc, u8_small by auto with dab.
      destruct (IH rc (wr data (rd lt j) (Z.lxor (rd data (rd lt j)) (D (rd lt j)))) Hj Hd) as (data' & E1 & E2 & E3); [by rewrite zlen_wr|apply Forall_wr; auto with dab|].
      exists data'. split; [done|]. split; [done|]. intros q Hq. rewrite E3 by done. destruct (Z.eqb_spec (rd lt j) q) as [<-|Hne].
      * rewrite orb_true_l. destruct (Z.ltb_spec (rd lt j) 245); [|lia]. cbn [andb]. rewrite rd_wr_eq by lia.
        assert (existsb (fun j0 => rd lt j0 =? rd lt j) js = false) as ->; [|done]. apply not_true_iff_false. intros (k & Hk & Ek)%existsb_exists. apply Hnew. zbool. rewrite <- Ek. by apply in_map.
      * rewrite orb_false_l. by rewrite rd_wr_ne by done.
Qed.
End forney.

Lemma count_split lt l : zlen (map (rd lt) l) - zlen (List.filter (fun j => 245 <=? rd lt j) (rev l)) = zlen (List.filter (fun q => q <? 245) (map (rd lt) l)).
Proof.
  rewrite List.filter_rev. unfold zlen. rewrite length_rev. induction l as [|j l IH]; [done|]. cbn [map List.filter length].
  destruct (Z.leb_spec 245 (rd lt j)), (Z.ltb_spec (rd lt j) 245); cbn [length]; lia.
Qed.

Lemma map_rd_seqZ lt l (f : Z -> Z) : (forall t, 0 <= t < zlen l -> rd lt t = f (nth (Z.to_nat t) l 0)) -> map (rd lt) (seqZ 0 (zlen l)) = map f l.
Proof.
  induction l as [|x l IH] using rev_ind; intros H; [done|]. rewrite zlen_app in *. change (zlen [x]) with 1 in *. pose proof (zlen_nonneg l) as Hl. rewrite seqZ_app, !map_app by lia. f_equal.
  - apply IH. intros t Ht. rewrite H by lia. f_equal. apply app_nth1. unfold zlen in Ht. lia.
  - change (seqZ (0 + zlen l) 1) with [0 + (0 + zlen l)]. cbn [map]. rewrite H by lia. do 2 f_equal. replace (Z.to_nat (0 + (0 + zlen l))) with (length l) by (unfold zlen; lia). apply nth_middle.
Qed.

(** ** The decoder *)
Section decode.
Context (w w' : list Z) (Hw : Forall is_byte w) (Hw' : Forall is_byte w') (Hlw : zlen w = 255) (Hlw' : zlen w' = 255) (Hcode : is_codeword w).
Context (Hfew : zlen (differences w w') <= 5).
Let errs := errors w w'.
Let S := psum errs.
Let p := bmLambda (bm_run S 10).

Lemma length_errs : length errs = length (differences w w').
Proof. apply length_map. Qed.

Lemma few_errs : (2 * length errs <= 10)%nat.
Proof. rewrite length_errs. unfold zlen in Hfew. lia. Qed.

Lemma locator_inverse q : 0 <= q < 255 -> (locator q * apow (q + 1) = f1)%F /\ finv (locator q) = apow (q + 1).
Proof.
  intros Hq. assert (locator q * apow (q + 1) = f1)%F as E by (unfold locator; rewrite <- apow_add by lia; replace (254 - q + (q + 1)) with 255 by lia; reflexivity).
  split; [done|]. transitivity (finv (locator q) * (locator q * apow (q + 1)))%F; [rewrite E; ring|]. field. apply apow_nonzero.
Qed.

(** The zeros of the locator polynomial are the places of the errors. *)
Lemma locator_polynomial : p 0%nat = f1 /\ (forall i, (length errs < i)%nat -> p i = f0) /\
  forall q, 0 <= q < 255 -> peval 10 p (apow (q + 1)) = f0 <-> In q (differences w w').
Proof.
  pose proof (bm_locates errs (errors_distinct w w') (errors_nonzero w w' Hw Hw') 10 few_errs) as H. cbv zeta in H. fold S p in H. destruct H as (H0 & Hd & _ & Hr).
  split; [done|]. split; [done|]. pose proof few_errs as Hf. intros q Hq. rewrite (peval_more p (length errs) Hd 10 (Datatypes.S (length errs))) by lia. split.
  - intros Hz. set (xs := map (fun e => finv (fst e)) errs).
    assert (xs = map (fun q => apow (q + 1)) (differences w w')) as Exs.
    { unfold xs, errs, errors. rewrite map_map. apply map_ext_in. intros r [Hr' _]%in_places. cbn [fst]. by apply locator_inverse. }
    assert (In (apow (q + 1)) xs) as Hin.
    { apply (all_roots p (length errs) H0 xs); [|apply List.Forall_map; exact Hr|unfold xs; by rewrite length_map|done].
      rewrite Exs. apply NoDup_map_on; [|apply NoDup_places]. intros a b [Ha _]%in_places [Hb _]%in_places Eab. apply apow_inj_255 in Eab; lia. }
    rewrite Exs in Hin. apply in_map_iff in Hin as (r & Er & Hr'). pose proof Hr' as [Hrr _]%in_places.
    apply apow_inj_255 in Er; [|lia..]. by replace q with r by lia.
  - intros Hin. rewrite List.Forall_forall in Hr. specialize (Hr (locator q, el (Z.lxor (rd w q) (rd w' q)))). cbn [fst] in Hr. rewrite (proj2 (locator_inverse q Hq)) in Hr.
    apply Hr. unfold errs, errors. apply in_map_iff. by exists q.
Qed.

Lemma clean_word : (forall k, 0 <= k < 10 -> getSyndrome RS w' k = 0) -> differences w w' = [].
Proof.
  intros Hz. assert (Forall (fun e => snd e = f0) errs) as H.
  { apply (vandermonde errs); [apply errors_distinct|]. intros j Hj. pose proof few_errs. change (S j = f0). unfold S, errs. rewrite <- (Nat2Z.id j), <- syndrome_psum by (done || lia). by rewrite Hz by lia. }
  pose proof (errors_nonzero w w' Hw Hw') as Hn. fold errs in Hn. rewrite List.Forall_forall in H, Hn. pose proof length_errs as Hl. destruct errs as [|e es]; [by destruct (differences w w')|].
  exfalso. destruct (Hn e ltac:(by left)) as [_ He]. apply He, H. by left.
Qed.

Lemma computed_degree deg : degree_of deg 10 p -> zlen (roots p deg 255) = deg /\ map (fun i => i - 1) (roots p deg 255) = differences w w' /\ deg = zlen (differences w w').
Proof.
  intros Hdeg. destruct locator_polynomial as (H0 & Hd & Hr). pose proof (deg_range _ _ _ Hdeg) as Hrange. pose proof few_errs as Hf. pose proof length_errs as Hle.
  assert (forall x, peval (Datatypes.S (Z.to_nat deg)) p x = peval 10 p x) as Hpe by (intros x; exact (degree_sum deg 10 p (pow x) Hdeg)).
  assert (map (fun i => i - 1) (roots p deg 255) = differences w w') as Em.
  { unfold roots, places. change (seqZ 1 255) with (map (Z.add 1) (seqZ 0 255)). assert (forall l, Forall (fun q => 0 <= q < 255) l ->
      map (fun i => i - 1) (List.filter (is_root p deg) (map (Z.add 1) l)) = List.filter (fun q => negb (rd w q =? rd w' q)) l) as H.
    { intros l Hl. induction Hl as [|q l Hq Hl IH]; [done|]. cbn [map List.filter]. assert (is_root p deg (1 + q) = negb (rd w q =? rd w' q)) as ->.
      { apply eq_true_iff_eq. unfold is_root. rewrite bool_decide_eq_true, Hpe. rewrite (Z.add_comm 1 q), Hr, in_places, negb_true_iff, Z.eqb_neq by done. tauto. }
      destruct (negb _); cbn [map]; rewrite IH; [f_equal; lia|done]. }
    apply H. apply List.Forall_forall. intros q Hq%in_seqZ. lia. }
  assert (zlen (roots p deg 255) = zlen (differences w w')) as El by (rewrite <- Em; by rewrite zlen_map).
  pose proof (roots_bound_deg p deg H0 Hrange 255 ltac:(lia)) as Hb. assert (deg = zlen (differences w w')) as Ed; [|split_and!; [lia|done|done]].
  destruct (Z.eq_dec deg 0) as [->|Hn]; [pose proof (zlen_nonneg (differences w w')); lia|]. apply (deg_at _ _ _ Hdeg) in Hn as Hat.
  destruct (Z.le_gt_cases deg (zlen (differences w w'))) as [|Hgt]; [lia|]. exfalso. apply Hat, Hd. unfold zlen in *. lia.
Qed.

(** The formula of Forney gives the value of every error. *)
Lemma forney_value deg om od Lam q : degree_of deg 10 p -> holds_power Lam p -> degree_of od 10 (disc S p) ->
  (forall i, 0 <= i < 10 -> rd om i = glog (proj1_sig (disc S p (Z.to_nat i)))) -> In q (differences w w') ->
  let num1 := power_sum RS (num1_terms om od) (q + 1) in let den := power_sum RS (den_terms RS Lam deg) (q + 1) in
  is_byte num1 /\ is_byte den /\ den <> 0 /\ (el num1 = el (Z.lxor (rd w q) (rd w' q)) * (apow (q + 1) * el den))%F.
Proof.
  intros Hdeg HL Hod Hom Hin num1 den. destruct locator_polynomial as (H0 & Hd & Hr). pose proof few_errs as Hf. pose proof length_errs as Hle. pose proof Hin as [Hq Hne]%in_places.
  destruct (num1_spec om od (disc S p) (q + 1) ltac:(lia) Hom Hod) as [Hn1 Hn2]. destruct (den_spec Lam deg p (q + 1) ltac:(lia) HL Hdeg) as [Hd1 Hd2]. fold num1 in Hn1, Hn2. fold den in Hd1, Hd2.
  destruct (locator_inverse q Hq) as [Hli Hlf]. set (e0 := (locator q, el (Z.lxor (rd w q) (rd w' q)))).
  assert (In e0 errs) as He0 by (apply in_map_iff; by exists q).
  assert (forall x, peval (Datatypes.S (length errs)) p x = peval 10 p x) as Hpe by (intros x; apply (peval_more p (length errs) Hd); lia).
  assert (Forall (fun e => peval (Datatypes.S (length errs)) p (finv (fst e)) = f0) errs) as Hroots.
  { apply List.Forall_forall. intros e (r & <- & Hr')%in_map_iff. cbn [fst]. pose proof Hr' as [Hrr _]%in_places. rewrite (proj2 (locator_inverse r Hrr)), Hpe. by apply Hr. }
  pose proof (omega_at errs (errors_distinct w w') (errors_nonzero w w' Hw Hw') p (length errs) 9 e0 Hd Hroots He0 ltac:(lia)) as Ho. unfold e0 in Ho. cbn [fst snd] in Ho. rewrite Hlf in Ho.
  pose proof (quot_derivative p (locator q) (apow (q + 1)) 10 Hli) as Hq10. change (Nat.odd 10) with false in Hq10. cbv iota in Hq10. rewrite <- Hd2 in Hq10.
  assert (fsum 10 (fun i => quot p (locator q) i * pow (apow (q + 1)) i) = apow (q + 1) * el den)%F as Eq by (rewrite Hq10; ring).
  split; [done|]. split; [done|]. split; [|rewrite Hn2; etransitivity; [exact Ho|]; by rewrite Eq].
  intros E0. apply (derivative_nonzero p (length errs) Hd H0 (map (fun e => finv (fst e)) errs)) with (X := locator q) (x := apow (q + 1)) (n := 9%nat).
  - unfold errs, errors. rewrite map_map. cbn [fst]. apply NoDup_map_on; [|apply NoDup_places]. intros a b [Ha _]%in_places [Hb _]%in_places Eab.
    rewrite (proj2 (locator_inverse a Ha)), (proj2 (locator_inverse b Hb)) in Eab. apply apow_inj_255 in Eab; lia.
  - apply List.Forall_map. exact Hroots.
  - by rewrite length_map.
  - apply in_map_iff. exists e0. split; [exact Hlf|done].
  - done.
  - lia.
  - rewrite Eq, E0. change (el 0) with (f0 (F := GF256)). ring.
Qed.

Lemma decode_corrects : decode_rs RS w' = (zlen (List.filter (fun q => q <? 245) (differences w w')), slice w 0 245 ++ slice w' 245 10).
Proof.
  assert (forall data', zlen data' = 255 -> (forall q, 0 <= q < 255 -> rd data' q = if q <? 245 then rd w q else rd w' q) -> data' = slice w 0 245 ++ slice w' 245 10) as Hdata.
  { intros data' Hz Hq. apply list_eq_rd; [rewrite zlen_app, !zlen_slice by lia; lia|]. intros q Hq'. rewrite Hz in Hq'. rewrite Hq by done. destruct (Z.ltb_spec q 245).
    - rewrite rd_app_l by (rewrite zlen_slice; lia). rewrite rd_slice by lia. f_equal.
    - rewrite rd_app_r by (rewrite zlen_slice; lia). rewrite zlen_slice, rd_slice by lia. f_equal. lia. }
  unfold decode_rs. pose proof (computeSyndromes_spec w') as H. destruct (computeSyndromes RS w') as [clean syn]. destruct H as (Hz & Hsyn & Hcl). destruct clean.
  - pose proof (clean_word (proj2 Hcl eq_refl)) as E. rewrite E. f_equal. apply Hdata; [done|]. intros q Hq. destruct (q <? 245); [|done].
    destruct (Z.eq_dec (rd w q) (rd w' q)) as [|Hne]; [done|]. assert (In q (differences w w')) as Hin by (by apply in_places). by rewrite E in Hin.
  - assert (holds syn S) as HS.
    { assert (forall k, 0 <= k < 10 -> is_byte (rd syn k) /\ el (rd syn k) = S (Z.to_nat k)) as Hk.
      { intros k Hk. rewrite Hsyn by done. split; [rewrite getSyndrome_horner by done; apply horner_byte; [apply galog_byte; lia|auto with dab]|]. by apply syndrome_psum. }
      split; [done|]. split; [apply list_byte_rd; intros i Hi; apply Hk; lia|]. intros i Hi. rewrite (proj2 (Hk (Z.of_nat i) ltac:(lia))). by rewrite Nat2Z.id. }
    destruct (computeLambda_spec syn S HS) as (deg & Lam & -> & HL & Hdeg). fold p in HL, Hdeg.
    destruct locator_polynomial as (H0 & _ & _). destruct (computed_degree deg Hdeg) as (Hc & Hm & Hd). pose proof (deg_range _ _ _ Hdeg) as Hrange.
    destruct (computeErrors_spec p deg H0 Hrange Lam HL) as (rt & lt & -> & Ht). rewrite Hc, Z.eqb_refl in *. destruct (Z.ltb_spec deg 0); [lia|].
    destruct (computeOmega_spec syn Lam deg S p HS HL Hdeg) as (od & om & -> & Hom & Hod).
    assert (map (rd lt) (seqZ 0 deg) = differences w w') as Elt.
    { pose proof (map_rd_seqZ lt (roots p deg 255) (fun i => i - 1)) as E. rewrite Hc, Hm in E. apply E. intros t Htt. destruct (Ht t Htt) as [_ Et]. exact Et. }
    assert (forall j, 0 <= j < deg -> In (rd lt j) (differences w w') /\ rd rt j = rd lt j + 1) as Hj.
    { intros j Hj. split; [rewrite <- Elt; apply in_map; apply in_seqZ; lia|]. destruct (Ht j Hj). lia. }
    destruct (forney_spec om Lam rt lt od deg (fun q => Z.lxor (rd w q) (rd w' q)) (rev (seqZ 0 deg)) deg w') as (data' & E1 & E2 & E3).
    + apply List.Forall_forall. intros j Hin%in_rev%in_seqZ. destruct (Hj j ltac:(lia)) as [Hin' Ert]. pose proof Hin' as [Hq Hne]%in_places.
      destruct (forney_value deg om od Lam (rd lt j) Hdeg HL Hod Hom Hin') as (V1 & V2 & V3 & V4). unfold located. rewrite Ert.
      split; [done|]. split; [done|]. split; [done|]. split; [done|]. split; [done|]. split; [auto with dab|]. split; [by rewrite Z.lxor_eq_0_iff|done].
    + rewrite map_rev, Elt. apply List.NoDup_rev, NoDup_places.
    + done.
    + done.
    + rewrite E1. f_equal.
      * rewrite Hd at 1. rewrite <- Elt. apply count_split.
      * apply Hdata; [done|]. intros q Hq. rewrite E3 by done. destruct (Z.ltb_spec q 245); cbn [andb]; [|done]. destruct (existsb _ _) eqn:Ex.
        -- rewrite (Z.lxor_comm (rd w q)), <- Z.lxor_assoc, Z.lxor_nilpotent. apply Z.lxor_0_l.
        -- destruct (Z.eq_dec (rd w q) (rd w' q)) as [|Hne]; [done|]. assert (In q (differences w w')) as Hin by (by apply in_places). rewrite <- Elt in Hin. apply in_map_iff in Hin as (j & E & Hin).
           exfalso. apply not_true_iff_false in Ex. apply Ex. apply existsb_exists. exists j. split; [by apply (proj1 (in_rev _ _))|]. by apply Z.eqb_eq.
Qed.
End decode.

(** ** Words beyond the reach of the code *)
Lemma forney_total om Lam rt lt od deg js rc data : Forall (fun j => power_sum RS (den_terms RS Lam deg) (rd rt j) <> 0) js -> Forall is_byte data ->
  exists n data', forney RS js om Lam rt lt od deg rc data = (n, data') /\ rc - zlen js <= n <= rc /\ zlen data' = zlen data /\ Forall is_byte data' /\
    exists ps, zlen ps <= n - (rc - zlen js) /\ forall q, ~ In q ps -> rd data' q = rd data q.
Proof.
  revert rc data. induction js as [|j js IH]; intros rc data Hj Hb.
  - exists rc, data. cbn [forney]. change (zlen []) with 0. split_and!; [done|lia|lia|done|done|]. exists []. split; [change (zlen []) with 0; lia|done].
  - apply List.Forall_cons_iff in Hj as [Hd Hj]. rewrite zlen_cons. cbn [forney]. set (den := power_sum RS (den_terms RS Lam deg) (rd rt j)) in *. set (num1 := power_sum RS (num1_terms om od) (rd rt j)). cbv zeta.
    destruct (Z.eqb_spec den 0) as [|_]; [done|]. destruct (num1 =? 0); [|destruct (_ <=? rd lt j)].
    + destruct (IH rc data Hj Hb) as (n & d & E & Hn & Hz & Hbd & ps & Hps & Hq). exists n, d. split_and!; [done|lia|lia|done|done|]. exists ps. split; [lia|done].
    + destruct (IH (rc - 1) data Hj Hb) as (n & d & E & Hn & Hz & Hbd & ps & Hps & Hq). exists n, d. split_and!; [done|lia|lia|done|done|]. exists ps. split; [lia|done].
    + set (v := u8 _). assert (is_byte v) as Hv by (apply (uwrap_range 8); lia). destruct (IH rc (wr data (rd lt j) v) Hj (Forall_wr _ _ _ _ Hb Hv)) as (n & d & E & Hn & Hz & Hbd & ps & Hps & Hq). exists n, d. rewrite zlen_wr in Hz.
      split_and!; [done|lia|lia|done|done|]. exists (rd lt j :: ps). rewrite zlen_cons. split; [lia|]. intros q Hnq. rewrite Hq by (intros Hin; apply Hnq; by right). apply rd_wr_ne. intros E'. apply Hnq. by left.
Qed.

(** As many roots as the degree: every root is simple, and the derivative does not
    vanish there. *)
Lemma root_simple p deg Lam root : p 0%nat = f1 -> holds_power Lam p -> degree_of deg 10 p -> zlen (roots p deg 255) = deg -> In root (roots p deg 255) ->
  power_sum RS (den_terms RS Lam deg) root <> 0.
Proof.
  intros H0 HL Hdeg Ec Hin. pose proof (deg_range _ _ _ Hdeg) as Hrange. set (p' := fun i => if (i <? 10)%nat then p i else f0).
  assert (forall i, (i < 10)%nat -> p' i = p i) as Hp' by (intros i Hi; unfold p'; by rewrite (proj2 (Nat.ltb_lt i 10)) by done).
  assert (p' 0%nat = f1) as H0' by (by rewrite Hp' by lia).
  assert (forall i, (Z.to_nat deg < i)%nat -> p' i = f0) as Hd'.
  { intros i Hi. unfold p'. destruct (Nat.ltb_spec i 10); [|done]. pose proof (deg_above _ _ _ Hdeg (Z.of_nat i) ltac:(lia)) as E. by rewrite Nat2Z.id in E. }
  clearbody p'. destruct (roots_spec p deg 255 ltac:(lia)) as [Hnd Hroots]. pose proof Hin as [Hi%in_seqZ _]%filter_In.
  destruct (den_spec Lam deg p root ltac:(lia) HL Hdeg) as [_ Hd2]. intros E0. rewrite E0 in Hd2.
  assert (apow (255 - root) * apow root = f1)%F as Hinv by (rewrite <- apow_add by lia; replace (255 - root + root) with 255 by lia; reflexivity).
  apply (derivative_nonzero p' (Z.to_nat deg) Hd' H0' (map apow (roots p deg 255)) Hnd) with (X := apow (255 - root)) (x := apow root) (n := 9%nat); [|rewrite length_map; unfold zlen in Ec; lia|by apply in_map|done|lia|].
  - eapply List.Forall_impl; [|exact Hroots]. intros x <-. apply fsum_ext. intros i Hi'. by rewrite Hp' by lia.
  - rewrite (quot_derivative p' _ _ 10 Hinv). change (Nat.odd 10) with false. cbv iota. rewrite (fsum_ext 10 _ (fun i => if Nat.odd i then p i * pow (apow root) i else f0)%F) by (intros i Hi'; by rewrite Hp').
    rewrite <- Hd2. change (el 0) with (f0 (F := GF256)). ring.
Qed.

(** The error values leave most symbols alone, whatever the syndromes were. *)
Definition few_changes (w : list Z) (r : Z * list Z) : Prop :=
  0 <= fst r <= 9 /\ zlen (snd r) = 255 /\ Forall is_byte (snd r) /\ exists ps, zlen ps <= fst r /\ forall q, ~ In q ps -> rd (snd r) q = rd w q.

Lemma forney_any p deg Lam om od rt lt w : p 0%nat = f1 -> holds_power Lam p -> degree_of deg 10 p -> zlen (roots p deg 255) = deg ->
  (forall t, 0 <= t < deg -> rd rt t = nth (Z.to_nat t) (roots p deg 255) 0) -> Forall is_byte w -> zlen w = 255 ->
  few_changes w (forney RS (rev (seqZ 0 deg)) om Lam rt lt od deg deg w).
Proof.
  intros H0 HL Hdeg Ec Ht Hw Hl. pose proof (deg_range _ _ _ Hdeg) as Hrange.
  assert (zlen (rev (seqZ 0 deg)) = deg) as Hlen by (unfold zlen, seqZ, fmap; rewrite length_rev, length_map, length_seq; lia).
  destruct (forney_total om Lam rt lt od deg (rev (seqZ 0 deg)) deg w) as (n & w' & E & Hn & Hz' & Hb' & ps & Hps & Hq); [|done|].
  - apply List.Forall_forall. intros j Hj%in_rev%in_seqZ. apply (root_simple p deg Lam); [done|done|done|done|]. rewrite Ht by lia. apply nth_In. unfold zlen in *. lia.
  - rewrite E. split; [cbn [fst]; lia|]. split; [cbn [snd]; lia|]. split; [done|]. exists ps. cbn [fst snd]. split; [lia|done].
Qed.

(** [decode_rs] on any word: it gives up and leaves the word as it is, or it
    changes at most as many symbols as it reports. *)
Lemma decode_total w : Forall is_byte w -> zlen w = 255 -> decode_rs RS w = (-1, w) \/ few_changes w (decode_rs RS w).
Proof.
  intros Hw Hl. unfold decode_rs. pose proof (computeSyndromes_spec w) as H. destruct (computeSyndromes RS w) as [clean syn]. destruct H as (Hz & Hsyn & _). destruct clean.
  { right. split; [cbn [fst]; lia|]. split; [done|]. split; [done|]. by exists []. }
  assert (Forall is_byte syn) as Hb.
  { apply list_byte_rd. intros i Hi. rewrite Hsyn, getSyndrome_horner by (done || lia). apply horner_byte; [apply galog_byte; lia|auto with dab]. }
  set (S := fun k => el (rd syn (Z.of_nat k))). assert (holds syn S) as HS by (split_and!; done).
  destruct (computeLambda_spec syn S HS) as (deg & Lam & -> & HL & Hdeg). pose proof (bm_lambda_0 _ _ _ (bm_run_ok S 10)) as H0. 
  destruct (computeErrors_spec _ deg H0 (deg_range _ _ _ Hdeg) Lam HL) as (rt & lt & -> & Ht). revert HL Hdeg H0 Ht. generalize (bmLambda (bm_run S 10)). intros p HL Hdeg H0 Ht.
  destruct (Z.eqb_spec (zlen (roots p deg 255)) deg) as [Ec|_]; [|by left]. right. rewrite Ec in *. pose proof (deg_range _ _ _ Hdeg) as Hrange. destruct (Z.ltb_spec deg 0); [lia|].
  destruct (computeOmega RS syn Lam deg) as [od om]. apply (forney_any p); [done|done|done|done| |done|done]. intros t Htt. by apply Ht.
Qed.

(** ** Shortened words *)
Lemma places_shift k n w w' c c' : 0 <= k -> 0 <= n -> (forall j, 0 <= j < k -> rd w j = rd w' j) ->
  (forall j, 0 <= j < n -> rd w (j + k) = rd c j /\ rd w' (j + k) = rd c' j) -> places (k + n) w w' = map (Z.add k) (places n c c').
Proof.
  intros Hk Hn H0 H1. unfold places. rewrite seqZ_app, List.filter_app by lia.
  assert (forall l, Forall (fun j => 0 <= j < k) l -> List.filter (fun p => negb (rd w p =? rd w' p)) l = []) as E0.
  { intros l Hl. induction Hl as [|j l Hj Hl IH]; [done|]. cbn [List.filter]. by rewrite H0, Z.eqb_refl by done. }
  rewrite E0 by (apply List.Forall_forall; intros j Hj%in_seqZ; lia). change ([] ++ ?l) with l.
  assert (seqZ (0 + k) n = map (Z.add k) (seqZ 0 n)) as -> by (unfold seqZ, fmap; rewrite map_map; apply map_ext; intros; lia).
  assert (forall l, Forall (fun j => 0 <= j < n) l -> List.filter (fun p => negb (rd w p =? rd w' p)) (map (Z.add k) l) = map (Z.add k) (List.filter (fun p => negb (rd c p =? rd c' p)) l)) as E1.
  { intros l Hl. induction Hl as [|j l Hj Hl IH]; [done|]. cbn [map List.filter]. destruct (H1 j Hj) as [Ew Ew']. rewrite (Z.add_comm k j), Ew, Ew'. destruct (negb _); cbn [map]; rewrite IH; [f_equal; lia|done]. }
  apply E1, List.Forall_forall. intros j Hj%in_seqZ. lia.
Qed.

Lemma filter_map_add k n l : List.filter (fun q => q <? n) (map (Z.add k) l) = map (Z.add k) (List.filter (fun q => q <? n - k) l).
Proof. induction l as [|q l IH]; [done|]. cbn [map List.filter]. assert ((k + q <? n) = (q <? n - k)) as -> by lia. destruct (q <? n - k); cbn [map]; by rewrite IH. Qed.

Lemma dec_corrects (r buf out c' : list Z) (cutlen : Z) :
  0 <= cutlen <= 245 -> Forall is_byte r -> 245 - cutlen <= zlen r -> zlen buf = 255 - cutlen -> zlen out = 245 - cutlen ->
  Forall is_byte c' -> zlen (places (255 - cutlen) (enc RS r buf cutlen) c') <= 5 ->
  dec RS c' out cutlen = (zlen (List.filter (fun q => q <? 245 - cutlen) (places (255 - cutlen) (enc RS r buf cutlen) c')), slice r 0 (245 - cutlen)).
Proof.
  intros Hc Hr Hlr Hb Ho Hc' Hfew. destruct (enc_fill_codeword r buf cutlen Hc Hb Hr) as (Hwb & Hcw & Hwl & Hdata).
  destruct (fill_rf_spec (enc RS r buf cutlen) cutlen ltac:(lia)) as [_ Hfw]. destruct (fill_rf_spec c' cutlen ltac:(lia)) as [Hwl' Hfw'].
  assert (Forall is_byte (fill_rf RS c' cutlen)) as Hwb' by (apply fill_rf_bytes; [lia|done]).
  set (w := fill_rf RS (enc RS r buf cutlen) cutlen) in *. set (w' := fill_rf RS c' cutlen) in *.
  assert (differences w w' = map (Z.add cutlen) (places (255 - cutlen) (enc RS r buf cutlen) c')) as Ed.
  { replace 255 with (cutlen + (255 - cutlen)) at 1 by lia. apply places_shift; [lia|lia| |].
    - intros j Hj. rewrite Hfw, Hfw' by lia. by assert ((j <? cutlen) = true) as -> by lia.
    - intros j Hj. rewrite Hfw, Hfw' by lia. assert ((j + cutlen <? cutlen) = false) as -> by lia. by rewrite Z.add_simpl_r. }
  rewrite dec_unfold. fold w'. rewrite (decode_corrects w w') by (done || (rewrite Ed, zlen_map; done)). f_equal.
  - by rewrite Ed, filter_map_add, zlen_map.
  - apply slice_rd_eq; [by rewrite (zlen_zfor_wr _ _ (fun i _ => i - cutlen) (fun i _ => rd (slice w 0 245 ++ slice w' 245 10) i))|lia|].
    intros j Hj. rewrite dec_copy by lia. rewrite rd_app_l by (rewrite zlen_slice; lia). rewrite rd_slice by lia. by apply Hdata.
Qed.

Lemma dec_corrects_few (r buf out c' : list Z) (cutlen : Z) :
  0 <= cutlen <= 245 -> Forall is_byte r -> 245 - cutlen <= zlen r -> zlen buf = 255 - cutlen -> zlen out = 245 - cutlen ->
  Forall is_byte c' -> zlen (places (255 - cutlen) (enc RS r buf cutlen) c') <= 5 ->
  exists n, dec RS c' out cutlen = (n, slice r 0 (245 - cutlen)) /\ 0 <= n <= 5.
Proof.
  intros Hc Hr Hlr Hb Ho Hc' Hfew. eexists. split; [by apply (dec_corrects r buf)|].
  pose proof (filter_length_le (fun q => q <? 245 - cutlen) (places (255 - cutlen) (enc RS r buf cutlen) c')). unfold zlen in *. lia.
Qed.

(** C5: [dec] corrects up to five symbols: whatever a word of the code, shortened
    by any [cutlen], becomes on the way, as long as at most five of its symbols
    change, the decoder gives back the data it was encoded from and reports how
    many of the data symbols were wrong. *)
Theorem rs_corrects_five_errors (r buf out c' : list Z) (cutlen : Z) :
  0 <= cutlen <= 245 -> Forall is_byte r -> 245 - cutlen <= zlen r -> zlen buf = 255 - cutlen -> zlen out = 245 - cutlen ->
  Forall is_byte c' -> zlen (places (255 - cutlen) (enc RS r buf cutlen) c') <= 5 ->
  dec RS c' out cutlen = (zlen (List.filter (fun q => q <? 245 - cutlen) (places (255 - cutlen) (enc RS r buf cutlen) c')), slice r 0 (245 - cutlen)).
Proof. apply dec_corrects. Qed.

(** Eight data symbols, four of them and one parity symbol changed. *)
Definition five_wrong : list Z := foldr (fun '(q, v) c => wr c q v) (enc RS [1; 2; 3; 4; 5; 6; 7; 8] (zeros 18) 237) [(0, 99); (3, 0); (4, 255); (7, 1); (12, 200)].

Lemma rs_corrects_five_errors_witness :
  dec RS five_wrong (zeros 8) 237 =
  (zlen (List.filter (fun q => q <? 245 - 237) (places (255 - 237) (enc RS [1; 2; 3; 4; 5; 6; 7; 8] (zeros 18) 237) five_wrong)), slice [1; 2; 3; 4; 5; 6; 7; 8] 0 (245 - 237)).
Proof.
  apply (rs_corrects_five_errors [1; 2; 3; 4; 5; 6; 7; 8] (zeros 18)).
  - lia.
  - apply forall_bytes. reflexivity.
  - vm_compute. discriminate.
  - reflexivity.
  - reflexivity.
  - apply forall_bytes. vm_compute. reflexivity.
  - vm_compute. discriminate.
Defined.

(** C7: [dec] on any received bytes: it either returns -1 and hands the data symbols
    on as they came, or a number from 0 to 9, having changed at most so many of
    them to other bytes. *)
Theorem rs_failure_keeps_data (r out : list Z) (cutlen : Z) :
  0 <= cutlen <= 245 -> Forall is_byte r -> zlen out = 245 - cutlen ->
  let '(ret, d) := dec RS r out cutlen in
  -1 <= ret <= 9 /\ zlen d = 245 - cutlen /\ Forall is_byte d /\ zlen (places (245 - cutlen) r d) <= Z.max 0 ret.
Proof.
  intros Hc Hr Ho. rewrite dec_unfold. destruct (fill_rf_spec r cutlen ltac:(lia)) as [Hl Hf]. set (w := fill_rf RS r cutlen) in *.
  assert (Forall is_byte w) as Hw by (apply fill_rf_bytes; [lia|done]).
  assert (forall ret w', zlen w' = 255 -> Forall is_byte w' -> (exists ps, zlen ps <= Z.max 0 ret /\ forall q, ~ In q ps -> rd w' q = rd w q) ->
    let d := zfor cutlen 245 (fun i d => wr d (i - cutlen) (rd w' i)) out in
    zlen d = 245 - cutlen /\ Forall is_byte d /\ zlen (places (245 - cutlen) r d) <= Z.max 0 ret) as H.
  { intros ret w' Hl' Hw' (ps & Hps & Hq) d. assert (zlen d = 245 - cutlen) as Hd by (unfold d; by rewrite (zlen_zfor_wr _ _ (fun i _ => i - cutlen) (fun i _ => rd w' i))).
    assert (forall j, 0 <= j < 245 - cutlen -> rd d j = rd w' (j + cutlen)) as Hrd by (intros j Hj; apply dec_copy; lia).
    split; [done|]. split; [apply list_byte_rd; intros j Hj; rewrite Hrd by lia; auto with dab|].
    etransitivity; [|exact Hps]. assert (incl (map (fun q => q + cutlen) (places (245 - cutlen) r d)) ps) as Hi.
    { intros q' (q & <- & [Hqr Hne]%in_places)%in_map_iff. destruct (in_dec Z.eq_dec (q + cutlen) ps) as [|Hn]; [done|]. exfalso. apply Hne. rewrite Hrd, Hq, Hf by (done || lia).
      assert ((q + cutlen <? cutlen) = false) as -> by lia. by rewrite Z.add_simpl_r. }
    apply List.NoDup_incl_length in Hi; [unfold zlen; rewrite length_map in Hi; lia|]. apply NoDup_map_on; [intros; lia|apply NoDup_places]. }
  destruct (decode_total w Hw Hl) as [->|(Hret & Hl' & Hw' & Hps)].
  - split; [lia|]. apply H; [done|done|]. by exists [].
  - destruct (decode_rs RS w) as [ret w']. cbn [fst snd] in *. split; [lia|]. apply H; [done|done|]. destruct Hps as (ps & Hps & Hq). exists ps. split; [lia|done].
Qed.

(** Six symbols of the sample wrong: the decoder gives up. *)
Lemma rs_failure_keeps_data_witness :
  let '(ret, d) := dec RS (wr five_wrong 1 77) (zeros 8) 237 in
  -1 <= ret <= 9 /\ zlen d = 245 - 237 /\ Forall is_byte d /\ zlen (places (245 - 237) (wr five_wrong 1 77) d) <= Z.max 0 ret.
Proof. apply rs_failure_keeps_data; [lia|apply forall_bytes; vm_compute; reflexivity|reflexivity]. Defined.

Example six_wrong : fst (dec RS (wr five_wrong 1 77) (zeros 8) 237) = -1.
Proof. vm_compute. reflexivity. Qed.
