(* ===== verification/Firecode.v ===== *)
(** * Fire code check of DAB+ super frames (src/src/base/backend/firecode_checker.cpp)

    The first eleven bytes of a super frame carry a 16-bit Fire code.  The
    checker computes the syndrome with a CRC table and looks up a correction in
    a syndrome table that the constructor fills from 124 eight-bit error
    patterns at byte, nibble and two-bit shifts.  The 65536-entry array
    [syndrome_table] is a finite map whose absent entries are the zeros of the
    [memset].  Theorems: a word that [check_and_correct_6bits] accepts always
    passes [check] afterwards; bursts of up to four bits inside the parity or
    inside the data part of a valid header are repaired; not every burst of six
    bits is, and one across the parity boundary is repaired to a wrong header. *)
From S2P Require Import Prelude BitExtractors Crc.
From stdpp Require Import gmap.
Open Scope Z_scope.

(** ** The class *)
Definition polynom : Z := 0x782f.

Definition pattern : list Z := [
   17; 18; 19; 20; 21; 22; 23; 24; 25; 26; 27; 28; 30; 31; 34;
   36; 38; 40; 42; 44; 46; 50; 52; 54; 56; 60; 62; 68; 72; 76;
   84; 88; 92;100;104;108;120;124;136;152;168;184;200;216;248;
   33; 35; 37; 39; 41; 43; 45; 49; 51; 53; 55; 57; 59; 61; 63;
   66; 70; 74; 78; 82; 86; 90; 98;102;106;110;114;118;122;126;
  132;140;148;156;164;172;180;196;204;212;220;228;236;244;252;
    1;  2;  3;  4;  5;  6;  7;  8;  9; 10; 11; 12; 13; 14; 15;
   16; 29; 32; 48; 58; 64; 80; 96;112;116;128;144;160;176;192;
  208;224;232;240 ].

Record FirecodeChecker := mkFirecode {
  crc_table : list Z;
  syndrome_table : gmap Z Z
}.

Definition fill_crc_table (poly : Z) : list Z :=
  zfor 0 256 (fun i tab =>
    let crc := zfor 0 8 (fun _ crc =>
      if Z.land crc 0x8000 =? 0 then u16 (Z.shiftl crc 1)
      else Z.lxor (u16 (Z.shiftl crc 1)) poly) (u16 (Z.shiftl i 8)) in
    wr tab i crc) (zeros 256).

(** x[0-1] contains parity, x[2-10] contains data. *)
Definition fire_crc_step (tab : list Z) (x : list Z) (i crc : Z) : Z :=
  let pos := Z.lxor (Z.shiftr crc 8) (rd x i) in
  u16 (Z.lxor (Z.shiftl crc 8) (rd tab pos)).
Definition crc16 (tab x : list Z) : Z :=
  let crc := zfor 2 11 (fire_crc_step tab x) 0 in
  zfor 0 2 (fire_crc_step tab x) crc.

Definition synd (m : gmap Z Z) (s : Z) : Z := default 0 (m !! s).

(** [if(syndrome_table[syndrome] == 0) syndrome_table[syndrome] = (bit << 8) + pattern[j];] *)
Definition syndrome_put (tab error : list Z) (bit pat : Z) (m : gmap Z Z) : gmap Z Z :=
  let syndrome := crc16 tab error in
  if synd m syndrome =? 0 then <[syndrome := u16 (Z.shiftl bit 8 + pat)]> m else m.

(** One of the four loop nests: all patterns [jlo <= j < jhi] at every byte
    [i < n], shifted right by [shift] bits; with no shift only one byte of
    [error] is touched. *)
Definition fill_shifted (tab : list Z) (shift n jlo jhi : Z) (m : gmap Z Z) : gmap Z Z :=
  zfor 0 n (fun i m =>
    zfor jlo jhi (fun j m =>
      let bit := i * 8 + shift in
      let pat := rd pattern j in
      let error := zeros 11 in
      let error := wr error i (Z.shiftr pat shift) in
      let error := if shift =? 0 then error else wr error (i + 1) (u8 (Z.shiftl pat (8 - shift))) in
      syndrome_put tab error bit pat m) m) m.

Definition fill_syndrome_table (tab : list Z) : gmap Z Z :=
  let m := fill_shifted tab 0 11 0 124 ∅ in
  let m := fill_shifted tab 4 10 0 45 m in
  let m := fill_shifted tab 2 10 45 75 m in
  fill_shifted tab 6 10 60 90 m.

Definition FirecodeChecker_new : FirecodeChecker :=
  let tab := fill_crc_table polynom in
  mkFirecode tab (fill_syndrome_table tab).

Definition check (f : FirecodeChecker) (x : list Z) : bool := crc16 (crc_table f) x =? 0.

(** [x[bit/8] ^= error >> (bit % 8); x[bit/8+1] ^= error << (8 - (bit % 8));] *)
Definition flip (x : list Z) (bit error : Z) : list Z :=
  let x := wr x (bit / 8) (u8 (Z.lxor (rd x (bit / 8)) (Z.shiftr error (bit mod 8)))) in
  wr x (bit / 8 + 1)
    (u8 (Z.lxor (rd x (bit / 8 + 1)) (Z.shiftl error (8 - bit mod 8)))).

(** Result and the buffer after correction. *)
Definition check_and_correct_6bits (f : FirecodeChecker) (x : list Z) : bool * list Z :=
  let syndrome := crc16 (crc_table f) x in
  if syndrome =? 0 then (true, x)
  else
    let e := synd (syndrome_table f) syndrome in
    let error := u8 (Z.land e 0xff) in
    if error =? 0 then (false, x)
    else
      let bit := Z.shiftr e 8 in
      (true, flip x bit error).

(** ** The syndrome is the remainder of the reordered header *)
Definition fire_order : list Z := [2; 3; 4; 5; 6; 7; 8; 9; 10; 0; 1].
Definition fire_bits (x : list Z) : list bool := flat_map (fun i => byte_bools (rd x i)) fire_order.
Definition FC : FirecodeChecker := FirecodeChecker_new.

Lemma is_reg_polynom : is_reg polynom.
Proof. unfold is_reg, polynom. lia. Qed.

Lemma fire_table_spec pos :
  is_byte pos ->
  rd (fill_crc_table polynom) pos = crc_run polynom (Z.shiftl pos 8) (replicate 8 false).
Proof.
  intros Hp. apply Z.eqb_eq. revert pos Hp.
  assert (forallb (fun pos => rd (fill_crc_table polynom) pos =?
    crc_run polynom (Z.shiftl pos 8) (replicate 8 false)) (seqZ 0 256) = true) as H;
    [|by apply (forall_range 256)].
  set (t := fill_crc_table polynom). vm_compute in t. by vm_compute.
Qed.

Lemma fire_crc_step_run x i crc :
  is_byte (rd x i) -> is_reg crc ->
  fire_crc_step (fill_crc_table polynom) x i crc = crc_run polynom crc (byte_bools (rd x i)).
Proof.
  intros Hb Hc. unfold fire_crc_step. cbv zeta.
  rewrite fire_table_spec by auto with dab. rewrite uwrap_lxor by lia.
  rewrite crc_run_byte by done. f_equal. apply uwrap_small.
  apply crc_run_reg; [apply is_reg_polynom|].
  assert (is_byte (Z.lxor (Z.shiftr crc 8) (rd x i))) as Hx by auto with dab.
  unfold is_byte in Hx. unfold is_reg. rewrite Z.shiftl_mul_pow2 by lia. lia.
Qed.

Lemma crc16_run x :
  Forall is_byte x ->
  crc16 (fill_crc_table polynom) x = crc_run polynom 0 (fire_bits x).
Proof.
  intros Hx.
  assert (forall ks crc, is_reg crc ->
    fold_left (fun s i => fire_crc_step (fill_crc_table polynom) x i s) ks crc
    = crc_run polynom crc (flat_map (fun i => byte_bools (rd x i)) ks)) as H.
  { induction ks as [|i ks IH]; intros crc Hc; [done|]. cbn [fold_left flat_map].
    rewrite crc_run_app, fire_crc_step_run by (done || by apply rd_Forall; auto with dab).
    apply IH. apply crc_run_reg; [apply is_reg_polynom|done]. }
  unfold crc16, zfor, fire_bits, fire_order. cbv zeta. rewrite <- fold_left_app.
  change (seqZ 2 (11 - 2) ++ seqZ 0 (2 - 0)) with [2; 3; 4; 5; 6; 7; 8; 9; 10; 0; 1].
  apply H. unfold is_reg. lia.
Qed.

(** ** Linearity *)
(** The code by its polynomial x^16 + x^14 + x^13 + x^12 + x^11 + x^5 + x^3 + x^2 +
    x + 1: the first two bytes are the remainder of the nine behind them. *)
Definition fire_right (x : list Z) : bool := crc_run 0x782f 0 (fire_bits x) =? 0.

Lemma check_fire_right x : Forall is_byte x -> check FC x = fire_right x.
Proof. intros Hx. unfold check, fire_right. change (crc_table FC) with (fill_crc_table polynom). by rewrite crc16_run. Qed.

Definition xor_list (x e : list Z) : list Z := zip_with Z.lxor x e.

Lemma byte_bools_lxor a b :
  byte_bools (Z.lxor a b) = zip_with xorb (byte_bools a) (byte_bools b).
Proof.
  unfold byte_bools, bools_of, byte_bits. cbn [map zip_with].
  rewrite !Z.lxor_spec.
  repeat (apply (f_equal2 cons); [match goal with |- context [xorb (Z.testbit a ?k) _] =>
    by destruct (Z.testbit a k), (Z.testbit b k) end|]). done.
Qed.

Lemma fire_bits_lxor x y e :
  (forall i, 0 <= i < 11 -> rd y i = Z.lxor (rd x i) (rd e i)) ->
  fire_bits y = zip_with xorb (fire_bits x) (fire_bits e).
Proof.
  intros H. unfold fire_bits.
  assert (Forall (fun i => 0 <= i < 11) fire_order) as Hf by (repeat constructor; lia).
  revert Hf. generalize fire_order. induction l as [|i l IH]; intros Hf; [done|].
  apply Forall_cons_1 in Hf as [Hi Hf]. cbn [flat_map].
  rewrite H, byte_bools_lxor, IH by done. by rewrite zip_with_app.
Qed.

Lemma fire_bits_length x : length (fire_bits x) = 88%nat.
Proof. reflexivity. Qed.

Lemma crc16_lxor x y e :
  Forall is_byte x -> Forall is_byte y -> Forall is_byte e ->
  (forall i, 0 <= i < 11 -> rd y i = Z.lxor (rd x i) (rd e i)) ->
  crc16 (fill_crc_table polynom) y =
  Z.lxor (crc16 (fill_crc_table polynom) x) (crc16 (fill_crc_table polynom) e).
Proof.
  intros Hx Hy He H. rewrite !crc16_run by done. rewrite (fire_bits_lxor x y e H).
  rewrite <- crc_run_lin by done. done.
Qed.

Lemma crc16_ext tab x y :
  (forall i, 0 <= i < 11 -> rd x i = rd y i) -> crc16 tab x = crc16 tab y.
Proof.
  intros H. unfold crc16. cbv zeta.
  rewrite (zfor_ext 2 11 _ (fire_crc_step tab y))
    by (intros; unfold fire_crc_step; by rewrite H by lia).
  apply zfor_ext. intros. unfold fire_crc_step. by rewrite H by lia.
Qed.

(** ** Bursts *)
Definition burst (bit error : Z) : list Z :=
  wr (wr (zeros 12) (bit / 8) (Z.shiftr error (bit mod 8)))
     (bit / 8 + 1) (u8 (Z.shiftl error (8 - bit mod 8))).

Lemma shiftr_byte a k : is_byte a -> 0 <= k -> is_byte (Z.shiftr a k).
Proof.
  intros Ha Hk. unfold is_byte in *. rewrite Z.shiftr_div_pow2 by done.
  pose proof (Z.pow_pos_nonneg 2 k ltac:(lia) Hk).
  split; [apply Z.div_pos; lia|]. apply Z.div_lt_upper_bound; nia.
Qed.

Lemma burst_bytes bit error : is_byte error -> Forall is_byte (burst bit error).
Proof.
  intros He. unfold burst.
  apply Forall_wr; [apply Forall_wr; [apply Forall_replicate, is_byte_0|]|auto with dab].
  apply shiftr_byte; [done|]. apply Z.mod_pos_bound. lia.
Qed.

Lemma flip_rd x bit error i :
  Forall is_byte x -> is_byte error -> 0 <= bit < 88 -> 11 <= zlen x -> i < zlen x -> 0 <= i < 12 ->
  rd (flip x bit error) i = Z.lxor (rd x i) (rd (burst bit error) i).
Proof.
  intros Hx He Hb Hl Hil Hi. unfold flip, burst. cbv zeta.
  assert (0 <= bit / 8 < 11 /\ 0 <= bit mod 8 < 8) as [Hq Hm]
    by (Z.to_euclidean_division_equations; lia).
  assert (is_byte (rd x i)) as Hxi by (by apply rd_Forall; auto with dab).
  assert (is_byte (Z.shiftr error (bit mod 8))) as Hs by (apply shiftr_byte; [done|lia]).
  destruct (Z.eq_dec (bit / 8 + 1) i) as [<-|H1].
  - rewrite rd_wr_eq by (rewrite zlen_wr; lia).
    rewrite rd_wr_eq by (rewrite zlen_wr, zlen_zeros; lia). rewrite rd_wr_ne by lia.
    rewrite uwrap_lxor by lia. by rewrite (u8_small (rd x _)) by done.
  - rewrite !(rd_wr_ne _ (bit / 8 + 1)) by done.
    destruct (Z.eq_dec (bit / 8) i) as [<-|H2].
    + rewrite rd_wr_eq by lia. rewrite rd_wr_eq by (rewrite zlen_zeros; lia).
      apply u8_small. auto with dab.
    + rewrite !rd_wr_ne by done. by rewrite rd_zeros, Z.lxor_0_r.
Qed.

Lemma flip_bytes x bit error : Forall is_byte x -> Forall is_byte (flip x bit error).
Proof. intros. unfold flip. apply Forall_wr; [apply Forall_wr|]; auto with dab. Qed.

Lemma zlen_flip x bit error : zlen (flip x bit error) = zlen x.
Proof. unfold flip. by rewrite !zlen_wr. Qed.

Lemma crc16_flip x start pat :
  Forall is_byte x -> 11 <= zlen x -> 0 <= start < 88 -> is_byte pat ->
  crc16 (fill_crc_table polynom) (flip x start pat) =
  Z.lxor (crc16 (fill_crc_table polynom) x) (crc16 (fill_crc_table polynom) (burst start pat)).
Proof.
  intros Hx Hl Hst Hp.
  apply crc16_lxor; [assumption|by apply flip_bytes|by apply burst_bytes|].
  intros i Hi. apply flip_rd; (assumption || lia).
Qed.

(** ** The syndrome table only holds true syndromes *)
Definition table_ok (m : gmap Z Z) : Prop :=
  forall s v, m !! s = Some v -> exists bit pat,
    v = bit * 256 + pat /\ 0 <= bit < 88 /\ 1 <= pat < 256 /\
    crc16 (fill_crc_table polynom) (burst bit pat) = s.

Lemma pattern_range j : 0 <= j < 124 -> 1 <= rd pattern j < 256.
Proof.
  intros Hj. assert ((1 <=? rd pattern j) && (rd pattern j <? 256) = true) as H
    by (revert j Hj; apply forall_range; by vm_compute).
  zbool. done.
Qed.

Lemma syndrome_put_ok error bit pat m :
  table_ok m -> 0 <= bit < 88 -> 1 <= pat < 256 ->
  (forall i, 0 <= i < 11 -> rd error i = rd (burst bit pat) i) ->
  table_ok (syndrome_put (fill_crc_table polynom) error bit pat m).
Proof.
  intros Hm Hb Hp He. unfold syndrome_put. cbv zeta. case_match; [|done].
  intros s v Hs. rewrite lookup_insert in Hs. case_decide as Hd; [|by apply Hm].
  injection Hs as <-. exists bit, pat. rewrite Z.shiftl_mul_pow2 by lia.
  rewrite uwrap_small by lia. repeat split; try lia. rewrite <- Hd.
  symmetry. by apply crc16_ext.
Qed.

Lemma fill_shifted_ok shift n jlo jhi m :
  table_ok m -> 0 <= shift < 8 -> 0 <= n -> (shift = 0 /\ n <= 11 \/ n <= 10) ->
  0 <= jlo <= jhi -> jhi <= 124 ->
  table_ok (fill_shifted (fill_crc_table polynom) shift n jlo jhi m).
Proof.
  intros Hm Hs Hn Hsn Hj Hj2. unfold fill_shifted.
  apply (zfor_inv (fun _ => table_ok)); [done..|]. intros i m1 Hi Hm1.
  apply (zfor_inv (fun _ => table_ok)); [lia|done|]. intros j m2 Hji Hm2. cbv zeta.
  pose proof (pattern_range j ltac:(lia)) as Hp.
  apply syndrome_put_ok; [done|lia|done|]. intros k Hk. unfold burst.
  replace ((i * 8 + shift) / 8) with i by (Z.to_euclidean_division_equations; lia).
  replace ((i * 8 + shift) mod 8) with shift by (Z.to_euclidean_division_equations; lia).
  assert (rd (zeros 11) k = rd (zeros 12) k) as Hz by (by rewrite !rd_zeros).
  destruct (Z.eqb_spec shift 0) as [->|Hs0].
  - destruct (Z.eq_dec (i + 1) k) as [<-|].
    + rewrite (rd_wr_eq _ (i + 1)) by (rewrite zlen_wr, zlen_zeros; lia).
      rewrite rd_wr_ne by lia. rewrite rd_zeros. rewrite Z.shiftl_mul_pow2 by lia.
      unfold uwrap. symmetry. apply Z.mod_mul. lia.
    + rewrite (rd_wr_ne _ (i + 1)) by done. destruct (Z.eq_dec i k) as [<-|].
      * by rewrite !rd_wr_eq by (rewrite zlen_zeros; lia).
      * by rewrite !rd_wr_ne by done.
  - destruct (Z.eq_dec (i + 1) k) as [<-|].
    + by rewrite !rd_wr_eq by (rewrite zlen_wr, zlen_zeros; lia).
    + rewrite !(rd_wr_ne _ (i + 1)) by done. destruct (Z.eq_dec i k) as [<-|].
      * by rewrite !rd_wr_eq by (rewrite zlen_zeros; lia).
      * by rewrite !rd_wr_ne by done.
Qed.

Lemma syndrome_table_ok : table_ok (syndrome_table FC).
Proof.
  change (table_ok (fill_syndrome_table (fill_crc_table polynom))).
  unfold fill_syndrome_table. cbv zeta.
  do 4 (apply fill_shifted_ok; [|lia..]). intros s v H. by rewrite lookup_empty in H.
Qed.

Lemma correction_split e bit pat :
  e = bit * 256 + pat -> 0 <= bit -> 0 <= pat < 256 ->
  u8 (Z.land e 0xff) = pat /\ Z.shiftr e 8 = bit.
Proof.
  intros -> Hb Hp. change 0xff with (Z.ones 8). rewrite Z.land_ones by lia.
  rewrite Z.shiftr_div_pow2 by lia. change (2 ^ 8) with 256. split.
  - rewrite Z.add_comm, Z.mod_add, Z.mod_small by lia. apply uwrap_small. lia.
  - rewrite Z.div_add_l, Z.div_small by lia. lia.
Qed.

(** Whenever [check_and_correct_6bits] reports success, the header it
    leaves in the buffer passes [check]: corrections always lead to a
    codeword. *)
Theorem check_and_correct_sound (x x' : list Z) :
  Forall is_byte x -> 11 <= zlen x ->
  check_and_correct_6bits FC x = (true, x') -> check FC x' = true /\ zlen x' = zlen x.
Proof.
  intros Hx Hl. unfold check_and_correct_6bits, check. cbv zeta.
  change (crc_table FC) with (fill_crc_table polynom).
  set (s := crc16 (fill_crc_table polynom) x).
  destruct (Z.eqb_spec s 0) as [E|E].
  { intros H. injection H as <-. split; [by apply Z.eqb_eq|done]. }
  unfold synd. destruct (syndrome_table FC !! s) as [e|] eqn:Em; [|done]. simpl default.
  destruct (syndrome_table_ok s e Em) as (bit & pat & He & Hb & Hp & Hs).
  destruct (correction_split e bit pat He ltac:(lia) ltac:(lia)) as [-> ->].
  destruct (Z.eqb_spec pat 0); [lia|]. intros H. injection H as <-.
  split; [|apply zlen_flip]. apply Z.eqb_eq.
  assert (is_byte pat) as Hpb by (unfold is_byte; lia).
  rewrite (crc16_flip x bit pat Hx Hl Hb Hpb), Hs. apply Z.lxor_nilpotent.
Qed.

Lemma check_and_correct_sound_witness :
  check FC (zeros 12) = true /\ zlen (zeros 12) = zlen (wr (zeros 12) 5 0x18).
Proof.
  apply (check_and_correct_sound (wr (zeros 12) 5 0x18) (zeros 12)).
  - apply Forall_wr; [apply Forall_replicate, is_byte_0|unfold is_byte; lia].
  - vm_compute. congruence.
  - vm_compute. reflexivity.
Defined.

(** ** Which bursts are repaired *)
Definition burst_repaired (f : FirecodeChecker) (bit pat : Z) : bool :=
  let b := burst bit pat in
  let s := crc16 (crc_table f) b in
  let e := synd (syndrome_table f) s in
  negb (s =? 0) && negb (u8 (Z.land e 0xff) =? 0) && (0 <=? Z.shiftr e 8) && (Z.shiftr e 8 <? 88) &&
  bool_decide (burst (Z.shiftr e 8) (u8 (Z.land e 0xff)) = b).

Definition starts_ok (start : Z) : bool := (start <=? 12) || (16 <=? start).

Definition all_bursts4 (f : FirecodeChecker) : bool :=
  forallb (fun start => negb (starts_ok start) ||
     forallb (fun p => (p =? 0) || burst_repaired f start (p * 16)) (seqZ 0 16)) (seqZ 0 85).

Lemma bursts4_repaired : all_bursts4 FC = true.
Proof. vm_compute. reflexivity. Qed.

Lemma burst_repaired_correct f (x : list Z) (start pat : Z) :
  crc16 (crc_table f) (flip x start pat) =
    Z.lxor (crc16 (crc_table f) x) (crc16 (crc_table f) (burst start pat)) ->
  burst_repaired f start pat = true ->
  Forall is_byte x -> zlen x = 12 -> check f x = true -> 0 <= start < 88 -> is_byte pat ->
  check_and_correct_6bits f (flip x start pat) = (true, x).
Proof.
  unfold burst_repaired, check, check_and_correct_6bits. cbv zeta.
  intros Hlin Hr Hx Hl Hc Hst Hpb. apply Z.eqb_eq in Hc. rewrite Hlin, Hc, Z.lxor_0_l.
  generalize dependent (synd (syndrome_table f) (crc16 (crc_table f) (burst start pat))).
  intros e Hr. zbool. rename select (bool_decide _ = true) into Hbe. apply bool_decide_eq_true in Hbe.
  zcases; try contradiction.
  f_equal. apply list_eq_rd; rewrite !zlen_flip; [done|]. intros i Hi.
  rewrite flip_rd; [|by apply flip_bytes|apply u8_range|lia|rewrite zlen_flip; lia..|lia].
  rewrite Hbe, flip_rd by (assumption || lia). xor_ac.
Qed.

Lemma starts_ok_true start : start <= 12 \/ 16 <= start -> starts_ok start = true.
Proof. intros H. unfold starts_ok. apply orb_true_iff. rewrite !Z.leb_le. done. Qed.

Lemma bursts4_repaired_at f start p :
  all_bursts4 f = true -> 0 <= start <= 12 \/ 16 <= start < 85 -> 1 <= p < 16 ->
  burst_repaired f start (p * 16) = true.
Proof.
  unfold all_bursts4. generalize (burst_repaired f). intros R H Hst Hp.
  pose proof (forall_range 85 _ H start ltac:(lia)) as H1. cbv beta in H1.
  rewrite starts_ok_true in H1 by lia. change (negb true) with false in H1. rewrite orb_false_l in H1.
  pose proof (forall_range 16 _ H1 p ltac:(lia)) as H2. cbv beta in H2.
  destruct (Z.eqb_spec p 0); [lia|exact H2].
Qed.

(** A burst on the bits of the header, most significant first: the four bits from
    [start] on are inverted where [p] has a 1, all other bits arrive as sent. *)
Definition header_bit (x : list Z) (k : Z) : bool := Z.testbit (rd x (k / 8)) (7 - k mod 8).
Definition burst_hits (start p k : Z) : bool := (start <=? k) && (k <? start + 4) && Z.testbit p (start + 3 - k).
Definition damaged_by (start p : Z) (x y : list Z) : Prop :=
  Forall is_byte y /\ zlen y = 12 /\ forall k, 0 <= k < 96 -> header_bit y k = xorb (header_bit x k) (burst_hits start p k).

Lemma burst_bits_checked : forallb (fun start => forallb (fun p =>
  let b := burst start (p * 16) in forallb (fun k => Bool.eqb (header_bit b k) (burst_hits start p k)) (seqZ 0 96)) (seqZ 0 16)) (seqZ 0 85) = true.
Proof. vm_compute. reflexivity. Qed.

Lemma burst_bits start p k : 0 <= start < 85 -> 0 <= p < 16 -> 0 <= k < 96 -> header_bit (burst start (p * 16)) k = burst_hits start p k.
Proof.
  intros Hs Hp Hk. pose proof (forall_range 85 _ burst_bits_checked start Hs) as H1. cbv beta in H1.
  pose proof (forall_range 16 _ H1 p Hp) as H2. cbv beta zeta in H2. pose proof (forall_range 96 _ H2 k Hk) as H3. by apply eqb_prop in H3.
Qed.

Lemma damaged_flip start p x y : Forall is_byte x -> zlen x = 12 -> 0 <= start < 85 -> 0 <= p < 16 -> damaged_by start p x y -> y = flip x start (p * 16).
Proof.
  intros Hx Hl Hs Hp (Hy & Hyl & Hb). assert (is_byte (p * 16)) as Hp16 by (unfold is_byte; lia).
  apply list_eq_rd; [by rewrite zlen_flip, Hyl|]. intros i Hi. rewrite Hyl in Hi. rewrite flip_rd by (assumption || lia).
  apply (bits_ext 8).
  - by apply rd_Forall; auto with dab.
  - apply lxor_byte; apply rd_Forall; auto using burst_bytes with dab.
  - intros j Hj. specialize (Hb (8 * i + (7 - j)) ltac:(lia)). rewrite <- burst_bits in Hb by lia. unfold header_bit in Hb.
    replace ((8 * i + (7 - j)) / 8) with i in Hb by (Z.to_euclidean_division_equations; lia).
    replace ((8 * i + (7 - j)) mod 8) with (7 - j) in Hb by (Z.to_euclidean_division_equations; lia).
    replace (7 - (7 - j)) with j in Hb by lia. by rewrite Z.lxor_spec.
Qed.

(** C36: every error burst of at most four bits that stays within the two
    parity bytes or within the nine data bytes of a valid header is repaired:
    whatever arrives with exactly these bits inverted, the original buffer comes
    back. *)
Theorem check_and_correct_repairs (x y : list Z) (start p : Z) :
  Forall is_byte x -> zlen x = 12 -> check FC x = true ->
  0 <= start <= 12 \/ 16 <= start < 85 -> 1 <= p < 16 -> damaged_by start p x y ->
  check_and_correct_6bits FC y = (true, x).
Proof.
  intros Hx Hl Hc Hst Hp Hd. rewrite (damaged_flip start p x y) by (assumption || lia).
  pose proof (bursts4_repaired_at FC start p bursts4_repaired Hst Hp) as Hr.
  assert (0 <= start < 88) as Hs by (clear - Hst; lia).
  assert (is_byte (p * 16)) as Hb by (clear - Hp; unfold is_byte; lia).
  assert (11 <= zlen x) as Hl' by (clear - Hl; lia).
  apply (burst_repaired_correct FC); [|assumption..].
  exact (crc16_flip x start (p * 16) Hx Hl' Hs Hb).
Qed.

Lemma check_and_correct_repairs_witness :
  check_and_correct_6bits FC [0; 0; 0; 0; 6; 128; 0; 0; 0; 0; 0; 0] = (true, zeros 12).
Proof.
  apply (check_and_correct_repairs (zeros 12) _ 37 13); try lia; try (vm_compute; reflexivity).
  - apply Forall_replicate, is_byte_0.
  - split; [repeat constructor; unfold is_byte; lia|]. split; [reflexivity|]. intros k Hk. apply eqb_prop. revert k Hk.
    refine (forall_range 96 (fun k => Bool.eqb (header_bit _ k) (xorb (header_bit (zeros 12) k) (burst_hits 37 13 k))) _). vm_compute. reflexivity.
Defined.

(** The comment on [check_and_correct_6bits] ("a error burst up to 6 bits
    was corrected") is not met: from the all-zero codeword, the six-bit burst
    101111 at bit 0 is rejected, and the burst 101 at bit 14, across the
    parity/data boundary, is "corrected" to a different codeword. *)
Theorem check_and_correct_limits :
  check FC (zeros 12) = true /\
  check_and_correct_6bits FC (flip (zeros 12) 0 0xBC) = (false, flip (zeros 12) 0 0xBC) /\
  exists w, check_and_correct_6bits FC (flip (zeros 12) 14 0xA0) = (true, w) /\ w <> zeros 12.
Proof.
  split; [vm_compute; reflexivity|]. split; [vm_compute; reflexivity|].
  eexists. split; [vm_compute; reflexivity|]. vm_compute. discriminate.
Qed.
