(* ===== verification/Viterbi.v ===== *)
(** * Viterbi decoder (src/src/base/support/viterbi_spiral)

    viterbi_spiral.cpp with the portable kernel viterbi_scalar.h: the K = 7,
    rate 1/4 soft-decision decoder behind the FIC and MSC error protection.
    Metrics are 32-bit integers; a trellis step stores the 64 decisions in one
    64-bit word, which the chain-back reads through its two 32-bit halves.

    Theorems: the decoded bits are a maximum-likelihood path of the trellis
    (no bit sequence has a smaller metric), noiseless code words are decoded
    exactly, and the static metric buffers carry nothing from one call to the
    next. *)
From S2P Require Import Prelude.
Open Scope Z_scope.

Definition Branchtable : list Z := [
  0; 0; 255; 255; 255; 255; 0; 0; 0; 0; 255; 255; 255; 255; 0; 0;
  255; 255; 0; 0; 0; 0; 255; 255; 255; 255; 0; 0; 0; 0; 255; 255;
  0; 255; 255; 0; 255; 0; 0; 255; 0; 255; 255; 0; 255; 0; 0; 255;
  0; 255; 255; 0; 255; 0; 0; 255; 0; 255; 255; 0; 255; 0; 0; 255;
  0; 255; 0; 255; 0; 255; 0; 255; 255; 0; 255; 0; 255; 0; 255; 0;
  0; 255; 0; 255; 0; 255; 0; 255; 255; 0; 255; 0; 255; 0; 255; 0;
  0; 0; 255; 255; 255; 255; 0; 0; 0; 0; 255; 255; 255; 255; 0; 0;
  255; 255; 0; 0; 0; 0; 255; 255; 255; 255; 0; 0; 0; 0; 255; 255
].

Definition PARTAB : list Z := [
  0; 1; 1; 0; 1; 0; 0; 1; 1; 0; 0; 1; 0; 1; 1; 0; 1; 0; 0; 1; 0; 1; 1; 0; 0; 1; 1; 0; 1; 0; 0; 1;
  1; 0; 0; 1; 0; 1; 1; 0; 0; 1; 1; 0; 1; 0; 0; 1; 0; 1; 1; 0; 1; 0; 0; 1; 1; 0; 0; 1; 0; 1; 1; 0;
  1; 0; 0; 1; 0; 1; 1; 0; 0; 1; 1; 0; 1; 0; 0; 1; 0; 1; 1; 0; 1; 0; 0; 1; 1; 0; 0; 1; 0; 1; 1; 0;
  0; 1; 1; 0; 1; 0; 0; 1; 1; 0; 0; 1; 0; 1; 1; 0; 1; 0; 0; 1; 0; 1; 1; 0; 0; 1; 1; 0; 1; 0; 0; 1;
  1; 0; 0; 1; 0; 1; 1; 0; 0; 1; 1; 0; 1; 0; 0; 1; 0; 1; 1; 0; 1; 0; 0; 1; 1; 0; 0; 1; 0; 1; 1; 0;
  0; 1; 1; 0; 1; 0; 0; 1; 1; 0; 0; 1; 0; 1; 1; 0; 1; 0; 0; 1; 0; 1; 1; 0; 0; 1; 1; 0; 1; 0; 0; 1;
  0; 1; 1; 0; 1; 0; 0; 1; 1; 0; 0; 1; 0; 1; 1; 0; 1; 0; 0; 1; 0; 1; 1; 0; 0; 1; 1; 0; 1; 0; 0; 1;
  1; 0; 0; 1; 0; 1; 1; 0; 0; 1; 1; 0; 1; 0; 0; 1; 0; 1; 1; 0; 1; 0; 0; 1; 1; 0; 0; 1; 0; 1; 1; 0
].

(** ** viterbi_scalar.h *)

(** [i16 tmp = *syms++; tmp += 127; if (tmp < 0) tmp = 0; else if (tmp > 255) tmp = 255;] *)
Definition limit_min_max (v : Z) : Z :=
  let tmp := i16 (v + 127) in
  if tmp <? 0 then 0 else if 255 <? tmp then 255 else tmp.

(** Branch metric of butterfly [i] for the four clipped symbols. *)
Definition branch_metric (sym0 sym1 sym2 sym3 i : Z) : Z :=
  Z.lxor (rd Branchtable i) sym0 + Z.lxor (rd Branchtable (32 + i)) sym1
  + Z.lxor (rd Branchtable (64 + i)) sym2 + Z.lxor (rd Branchtable (96 + i)) sym3.

Definition BFLY (old_metrics : list Z) (sym0 sym1 sym2 sym3 i : Z) (st : list Z * Z) : list Z * Z :=
  let '(new_metrics, d) := st in
  let metric := branch_metric sym0 sym1 sym2 sym3 i in
  let m_metric := 1020 - metric in
  let m0 := i32 (rd old_metrics i + metric) in
  let m1 := i32 (rd old_metrics (i + 32) + m_metric) in
  let m2 := i32 (rd old_metrics i + m_metric) in
  let m3 := i32 (rd old_metrics (i + 32) + metric) in
  let decision0 := 0 <? i32 (m0 - m1) in
  let decision1 := 0 <? i32 (m2 - m3) in
  let new_metrics := wr new_metrics (2 * i) (if decision0 then m1 else m0) in
  let new_metrics := wr new_metrics (2 * i + 1) (if decision1 then m3 else m2) in
  (new_metrics, Z.lor d (Z.shiftl (Z.lor (b2z decision0) (Z.shiftl (b2z decision1) 1)) (i * 2))).

(** One pass of [while(nbits--)]: 32 butterflies, then the buffers swap.  The
    state is the old and the new metrics and the decision words so far. *)
Definition trellis_step (input : list Z) (t : Z) (st : list Z * list Z * list Z)
  : list Z * list Z * list Z :=
  let '(old_metrics, new_metrics, decisions) := st in
  let sym0 := limit_min_max (rd input (4 * t)) in
  let sym1 := limit_min_max (rd input (4 * t + 1)) in
  let sym2 := limit_min_max (rd input (4 * t + 2)) in
  let sym3 := limit_min_max (rd input (4 * t + 3)) in
  let '(new_metrics, d) := zfor 0 32 (BFLY old_metrics sym0 sym1 sym2 sym3) (new_metrics, 0) in
  (new_metrics, old_metrics, decisions ++ [d]).

(** ** viterbi_spiral.cpp *)
Definition init_metrics (metrics1 : list Z) : list Z :=
  wr (zfor 0 64 (fun i m => wr m i 1000) metrics1) 0 0.

(** [dec[t].w[(endstate >> 2) / 32] >> ((endstate >> 2) % 32) & 1] *)
Definition decision_bit (decisions : list Z) (t endstate : Z) : Z :=
  let s := Z.shiftr endstate 2 in
  let w := u32 (Z.shiftr (rd decisions t) (32 * (s / 32))) in
  Z.land (Z.shiftr w (s mod 32)) 1.

Definition chainback (decisions : list Z) (framebits : Z) (output : list Z) : list Z :=
  snd (zdownto (framebits - 1) 0 (fun n st =>
    let '(endstate, output) := st in
    let k := decision_bit decisions (n + 6) endstate in
    (Z.lor (Z.shiftr endstate 1) (Z.shiftl k 7), wr output n k)) (0, output)).

(** [metrics1] and [metrics2] are the static buffers as the previous call left
    them, [output] the caller's buffer. *)
Definition viterbi_deconvolve (mFrameBits : Z) (metrics1 metrics2 : list Z) (input output : list Z)
  : list Z :=
  let nbits := mFrameBits + 6 in
  let '(_, _, decisions) :=
    zfor 0 nbits (trellis_step input) (init_metrics metrics1, metrics2, []) in
  chainback decisions mFrameBits output.

Definition parity (x : Z) : Z :=
  let x := Z.lxor x (Z.shiftr x 16) in
  let x := Z.lxor x (Z.shiftr x 8) in
  rd PARTAB x.

Definition polys : list Z := [109; 79; 83; 109].

(** The inner loop of [calculate_BER] over the four code bits of register
    [sr]; the state is [bits] and [errors]. *)
Definition ber_symbol (input punctureTable : list Z) (sr i : Z) (st : Z * Z) : Z * Z :=
  zfor 0 4 (fun j st =>
    let '(bits, errors) := st in
    let b := parity (Z.land sr (rd polys j)) in
    if rd punctureTable (i * 4 + j) =? 0 then (bits, errors)
    else (bits + 1, if Bool.eqb (0 <? rd input (i * 4 + j)) (b =? 1) then errors else errors + 1)) st.

Definition calculate_BER (mFrameBits : Z) (input punctureTable output : list Z) (bits errors : Z) : Z * Z :=
  let '(sr, st) := zfor 0 mFrameBits (fun i s =>
    let '(sr, st) := s in
    let sr := Z.land (Z.lor (Z.shiftl sr 1) (rd output i)) 0xff in
    (sr, ber_symbol input punctureTable sr i st)) (0, (bits, errors)) in
  let '(_, st) := zfor mFrameBits (mFrameBits + 6) (fun i s =>
    let '(sr, st) := s in
    let sr := Z.land (Z.shiftl sr 1) 0xff in
    (sr, ber_symbol input punctureTable sr i st)) (sr, st) in
  st.

(** ** Reference: the trellis *)
Definition nstate (s u : Z) : Z := (2 * s + u) mod 64.

(** Metric of the branch that leaves [s] with input bit [u] at step [t]. *)
Definition bm (input : list Z) (t s u : Z) : Z :=
  let metric := branch_metric (limit_min_max (rd input (4 * t))) (limit_min_max (rd input (4 * t + 1)))
    (limit_min_max (rd input (4 * t + 2))) (limit_min_max (rd input (4 * t + 3))) (s mod 32) in
  if Z.even (s / 32 + u) then metric else 1020 - metric.

Definition init_cost (s : Z) : Z := if s =? 0 then 0 else 1000.

Fixpoint path_end (s : Z) (us : list Z) : Z :=
  match us with [] => s | u :: us => path_end (nstate s u) us end.
Fixpoint path_cost (input : list Z) (t s : Z) (us : list Z) : Z :=
  match us with [] => 0 | u :: us => bm input t s u + path_cost input (t + 1) (nstate s u) us end.

(** The dynamic program: the cheapest way to be in state [s] after [t] steps. *)
Fixpoint best (input : list Z) (t : nat) (s : Z) : Z :=
  match t with
  | O => init_cost s
  | S t' =>
      Z.min (best input t' (s / 2) + bm input (Z.of_nat t') (s / 2) (s mod 2))
            (best input t' (s / 2 + 32) + bm input (Z.of_nat t') (s / 2 + 32) (s mod 2))
  end.

(** ** Ranges *)
Definition is_state (s : Z) : Prop := 0 <= s < 64.

Lemma limit_range v : is_byte (limit_min_max v).
Proof. unfold limit_min_max, is_byte. zcases; lia. Qed.

Lemma branchtable_byte i : is_byte (rd Branchtable i).
Proof. apply rd_Forall; [apply is_byte_0|]. repeat constructor; done. Qed.

Lemma branch_metric_range a b c d i :
  is_byte a -> is_byte b -> is_byte c -> is_byte d -> 0 <= branch_metric a b c d i <= 1020.
Proof.
  intros Ha Hb Hc Hd. unfold branch_metric.
  pose proof (lxor_byte _ _ (branchtable_byte i) Ha).
  pose proof (lxor_byte _ _ (branchtable_byte (32 + i)) Hb).
  pose proof (lxor_byte _ _ (branchtable_byte (64 + i)) Hc).
  pose proof (lxor_byte _ _ (branchtable_byte (96 + i)) Hd).
  unfold is_byte in *. lia.
Qed.

Lemma bm_range input t s u : 0 <= bm input t s u <= 1020.
Proof.
  unfold bm. cbv zeta. pose proof (branch_metric_range _ _ _ _ (s mod 32)
    (limit_range (rd input (4 * t))) (limit_range (rd input (4 * t + 1)))
    (limit_range (rd input (4 * t + 2))) (limit_range (rd input (4 * t + 3)))).
  case_match; lia.
Qed.

Lemma best_range input t s : 0 <= best input t s <= 1000 + 1020 * Z.of_nat t.
Proof.
  revert s. induction t as [|t IH]; intros s.
  - simpl. unfold init_cost. zcases; lia.
  - cbn [best]. pose proof (IH (s / 2)). pose proof (IH (s / 2 + 32)).
    pose proof (bm_range input (Z.of_nat t) (s / 2) (s mod 2)).
    pose proof (bm_range input (Z.of_nat t) (s / 2 + 32) (s mod 2)). lia.
Qed.

(** ** One trellis step *)

(** The survivor of state [s] is the predecessor [s/2 + 32] when this holds. *)
Definition survivor_high (input : list Z) (t : nat) (s : Z) : bool :=
  best input t (s / 2 + 32) + bm input (Z.of_nat t) (s / 2 + 32) (s mod 2) <?
  best input t (s / 2) + bm input (Z.of_nat t) (s / 2) (s mod 2).

Lemma best_survivor input t s :
  best input (S t) s =
  let p := if survivor_high input t s then s / 2 + 32 else s / 2 in
  best input t p + bm input (Z.of_nat t) p (s mod 2).
Proof. cbn [best]. unfold survivor_high. cbv zeta. zcases; lia. Qed.

Lemma testbit_pair d0 d1 k :
  0 <= k ->
  Z.testbit (Z.lor (b2z d0) (Z.shiftl (b2z d1) 1)) k = if k =? 0 then d0 else if k =? 1 then d1 else false.
Proof.
  intros Hk. rewrite Z.lor_spec.
  destruct (Z.eqb_spec k 0) as [->|]; [by destruct d0, d1|].
  destruct (Z.eqb_spec k 1) as [->|]; [by destruct d0, d1|].
  rewrite Z.shiftl_spec by lia.
  rewrite (testbit_high (b2z d0) 1), (testbit_high (b2z d1) 1); [done|by destruct d1|lia|by destruct d0|lia].
Qed.

Definition metrics_are (input : list Z) (t : nat) (m : list Z) : Prop :=
  zlen m = 64 /\ forall s, is_state s -> rd m s = best input t s.

Definition fits32 (t : nat) : Prop := 2020 + 1020 * Z.of_nat t < 2 ^ 31.

Lemma BFLY_spec input t old new d i :
  metrics_are input t old -> fits32 t -> zlen new = 64 -> 0 <= i < 32 ->
  let T := Z.of_nat t in
  let '(new', d') := BFLY old (limit_min_max (rd input (4 * T))) (limit_min_max (rd input (4 * T + 1)))
    (limit_min_max (rd input (4 * T + 2))) (limit_min_max (rd input (4 * T + 3))) i (new, d) in
  zlen new' = 64 /\
  (forall s, is_state s -> rd new' s = if s / 2 =? i then best input (S t) s else rd new s) /\
  (forall s, 0 <= s -> Z.testbit d' s =
     Z.testbit d s || (s / 2 =? i) && survivor_high input t s).
Proof.
  intros [Hol Hold] Hf Hn Hi T. unfold BFLY.
  set (M := branch_metric _ _ _ _ i). cbv zeta beta.
  assert (forall u, bm input T i u = if Z.even u then M else 1020 - M) as B0.
  { intros u. unfold bm. rewrite Z.mod_small, Z.div_small by lia. done. }
  assert (forall u, bm input T (i + 32) u = if Z.even u then 1020 - M else M) as B1.
  { intros u. unfold bm. replace ((i + 32) mod 32) with i by (Z.to_euclidean_division_equations; lia).
    replace ((i + 32) / 32) with 1 by (Z.to_euclidean_division_equations; lia).
    rewrite Z.even_add. fold M. by destruct (Z.even u). }
  rewrite !Hold by (unfold is_state; lia).
  pose proof (best_range input t i). pose proof (best_range input t (i + 32)).
  pose proof (bm_range input T i 0) as HM. rewrite B0 in HM. simpl in HM.
  unfold fits32 in Hf. change (2 ^ 31) with 2147483648 in Hf.
  rewrite !i32_small by (rewrite ?i32_small by lia; lia).
  set (d0 := 0 <? _). set (d1 := 0 <? best input t i + (1020 - M) - _).
  assert (survivor_high input t (2 * i) = d0 /\ survivor_high input t (2 * i + 1) = d1) as [S0 S1].
  { unfold survivor_high. replace (2 * i / 2) with i by (Z.to_euclidean_division_equations; lia).
    replace ((2 * i + 1) / 2) with i by (Z.to_euclidean_division_equations; lia).
    replace (2 * i mod 2) with 0 by (Z.to_euclidean_division_equations; lia).
    replace ((2 * i + 1) mod 2) with 1 by (Z.to_euclidean_division_equations; lia).
    fold T. rewrite !B0, !B1. simpl. subst d0 d1. split; lia. }
  split_and!.
  - by rewrite !zlen_wr.
  - intros s Hs. unfold is_state in Hs. destruct (Z.eqb_spec (s / 2) i) as [E|E].
    + assert (s = 2 * i \/ s = 2 * i + 1) as [->| ->] by (Z.to_euclidean_division_equations; lia).
      * rewrite rd_wr_ne by lia. rewrite rd_wr_eq by lia. rewrite best_survivor, S0. cbv zeta.
        replace (2 * i / 2) with i by (Z.to_euclidean_division_equations; lia).
        replace (2 * i mod 2) with 0 by (Z.to_euclidean_division_equations; lia).
        fold T. destruct d0; rewrite ?B0, ?B1; done.
      * rewrite rd_wr_eq by (rewrite zlen_wr; lia). rewrite best_survivor, S1. cbv zeta.
        replace ((2 * i + 1) / 2) with i by (Z.to_euclidean_division_equations; lia).
        replace ((2 * i + 1) mod 2) with 1 by (Z.to_euclidean_division_equations; lia).
        fold T. destruct d1; rewrite ?B0, ?B1; done.
    + rewrite !rd_wr_ne by (Z.to_euclidean_division_equations; lia). done.
  - intros s Hs. rewrite Z.lor_spec. f_equal.
    destruct (Z.le_gt_cases (i * 2) s) as [Hle|Hgt].
    + rewrite Z.shiftl_spec by lia. rewrite testbit_pair by lia.
      destruct (Z.eqb_spec (s / 2) i) as [E|E].
      * assert (s = 2 * i \/ s = 2 * i + 1) as [->| ->] by (Z.to_euclidean_division_equations; lia).
        -- rewrite S0. replace (2 * i - i * 2) with 0 by lia. done.
        -- rewrite S1. replace (2 * i + 1 - i * 2) with 1 by lia. done.
      * destruct (Z.eqb_spec (s - i * 2) 0), (Z.eqb_spec (s - i * 2) 1); try done;
          exfalso; Z.to_euclidean_division_equations; lia.
    + rewrite Z.shiftl_spec_low by lia.
      destruct (Z.eqb_spec (s / 2) i); [Z.to_euclidean_division_equations; lia|done].
Qed.

Lemma trellis_step_spec input t old new ds :
  metrics_are input t old -> fits32 t -> zlen new = 64 ->
  exists new' d, trellis_step input (Z.of_nat t) (old, new, ds) = (new', old, ds ++ [d]) /\
    metrics_are input (S t) new' /\
    (forall s, is_state s -> Z.testbit d s = survivor_high input t s).
Proof.
  intros Hold Hf Hn. unfold trellis_step. set (B := BFLY old _ _ _ _). cbv zeta.
  assert (let '(new', d) := zfor 0 32 B (new, 0) in zlen new' = 64 /\
    (forall s, is_state s -> rd new' s = if s / 2 <? 32 then best input (S t) s else rd new s) /\
    (forall s, 0 <= s -> Z.testbit d s = (s / 2 <? 32) && survivor_high input t s)) as H.
  { apply (zfor_inv (fun i '(m, d) => zlen m = 64 /\
      (forall s, is_state s -> rd m s = if s / 2 <? i then best input (S t) s else rd new s) /\
      (forall s, 0 <= s -> Z.testbit d s = (s / 2 <? i) && survivor_high input t s))); [lia|..].
    - split_and!; [done|..]; intros s Hs; assert ((s / 2 <? 0) = false) as ->
        by (apply Z.ltb_ge, Z.div_pos; unfold is_state in *; lia); rewrite ?Z.bits_0; reflexivity.
    - intros i [m d] Hi (Hl & Hm & Hd).
      pose proof (BFLY_spec input t old m d i Hold Hf Hl Hi) as Hb. cbv beta zeta in Hb.
      destruct (B i (m, d)) as [m' d'] eqn:EB. unfold B in EB. rewrite EB in Hb. destruct Hb as (Hl' & Hm' & Hd'). split_and!; [done|..].
      + intros s Hs. rewrite Hm', Hm by done. zcases; done || lia.
      + intros s Hs. rewrite Hd', Hd by done.
        destruct (survivor_high input t s); rewrite ?andb_true_r, ?andb_false_r; [|done].
        apply eq_true_iff_eq. rewrite orb_true_iff, !Z.ltb_lt, Z.eqb_eq. lia. }
  destruct (zfor 0 32 B (new, 0)) as [new' d]. destruct H as (Hl & Hm & Hd).
  exists new', d. split_and!; [done|split; [done|]|]; intros s Hs;
    assert ((s / 2 <? 32) = true) as E
      by (apply Z.ltb_lt, Z.div_lt_upper_bound; unfold is_state in *; lia).
  - by rewrite Hm, E.
  - rewrite Hd, E by (unfold is_state in *; lia). done.
Qed.

Lemma init_metrics_spec input m : zlen m = 64 -> metrics_are input 0 (init_metrics m).
Proof.
  intros Hm. unfold init_metrics.
  destruct (zfor_update_spec (fun _ _ => 1000) 0 64 m) as [Hl Hr]; [lia..|].
  split; [by rewrite zlen_wr, Hl|]. intros s Hs. unfold is_state in Hs. simpl. unfold init_cost.
  destruct (Z.eqb_spec s 0) as [->|Hne]; [rewrite rd_wr_eq; lia|].
  rewrite rd_wr_ne, Hr by done. assert ((0 <=? s) && (s <? 64) = true) as -> by lia. done.
Qed.

Definition decisions_are (input : list Z) (n : Z) (ds : list Z) : Prop :=
  zlen ds = n /\ forall t s, 0 <= t < n -> is_state s ->
    Z.testbit (rd ds t) s = survivor_high input (Z.to_nat t) s.

Lemma trellis_run_spec input n m1 m2 :
  0 <= n -> fits32 (Z.to_nat n) -> zlen m1 = 64 -> zlen m2 = 64 ->
  let '(_, _, ds) := zfor 0 n (trellis_step input) (init_metrics m1, m2, []) in
  decisions_are input n ds.
Proof.
  intros Hn Hf H1 H2.
  assert (let '(old, new, ds) := zfor 0 n (trellis_step input) (init_metrics m1, m2, []) in
    metrics_are input (Z.to_nat n) old /\ zlen new = 64 /\ decisions_are input n ds) as H.
  { apply (zfor_inv (fun t '(old, new, ds) => metrics_are input (Z.to_nat t) old /\ zlen new = 64 /\
      decisions_are input t ds)); [done|..].
    - split_and!; [by apply init_metrics_spec|done|]. split; [done|lia].
    - intros t [[old new] ds] Ht (Ho & Hnw & Hd & Hb).
      destruct (trellis_step_spec input (Z.to_nat t) old new ds Ho) as (new' & d & E & Hm & Hdb);
        [unfold fits32 in *; lia|done|]. rewrite Z2Nat.id in E by lia. rewrite E.
      replace (Z.to_nat (t + 1)) with (S (Z.to_nat t)) by lia.
      split_and!; [done|by apply Ho|]. split; [rewrite zlen_app, Hd; done|].
      intros t' s Ht' Hs. destruct (Z.eq_dec t' t) as [->|].
      + rewrite rd_app_r, Hd, Z.sub_diag by lia. by apply Hdb.
      + rewrite rd_app_l by lia. apply Hb; [lia|done]. }
  destruct (zfor 0 n _ _) as [[old new] ds]. apply H.
Qed.

(** ** Paths *)
Lemma path_end_app s us vs : path_end s (us ++ vs) = path_end (path_end s us) vs.
Proof. revert s. induction us as [|u us IH]; intros s; [done|]. apply IH. Qed.

Lemma path_cost_snoc input t s us u :
  path_cost input t s (us ++ [u]) =
  path_cost input t s us + bm input (t + zlen us) (path_end s us) u.
Proof.
  revert t s. induction us as [|v us IH]; intros t s.
  - unfold zlen. simpl. rewrite !Z.add_0_r. done.
  - cbn [app path_cost path_end]. rewrite IH. replace (t + 1 + zlen us) with (t + zlen (v :: us)); [lia|].
    unfold zlen. simpl. lia.
Qed.

Lemma nstate_state s u : is_state (nstate s u).
Proof. apply Z.mod_pos_bound. lia. Qed.

Lemma path_end_state s us : is_state s -> is_state (path_end s us).
Proof. revert s. induction us as [|u us IH]; intros s Hs; [done|]. apply IH, nstate_state. Qed.

(** The two branches into [s] come from [s/2] and [s/2 + 32]. *)
Lemma nstate_pred p u :
  is_state p -> is_bit u ->
  nstate p u mod 2 = u /\ (p = nstate p u / 2 \/ p = nstate p u / 2 + 32).
Proof.
  unfold is_state, is_bit, nstate. intros Hp Hu.
  destruct (Z.lt_ge_cases p 32).
  - rewrite (Z.mod_small _ 64) by lia. split; [|left]; Z.to_euclidean_division_equations; lia.
  - replace ((2 * p + u) mod 64) with (2 * (p - 32) + u) by (Z.to_euclidean_division_equations; lia).
    split; [|right]; Z.to_euclidean_division_equations; lia.
Qed.

Lemma nstate_half s (h : bool) :
  is_state s -> let p := if h then s / 2 + 32 else s / 2 in is_state p /\ nstate p (s mod 2) = s.
Proof. unfold is_state, nstate. intros Hs. destruct h; Z.to_euclidean_division_equations; lia. Qed.

Lemma best_lower input us s0 :
  is_state s0 -> Forall is_bit us ->
  best input (length us) (path_end s0 us) <= init_cost s0 + path_cost input 0 s0 us.
Proof.
  intros Hs. induction us as [|u us IH] using rev_ind; intros Hb; [simpl; lia|].
  apply Forall_app in Hb as [Hb Hu]. apply Forall_cons_1 in Hu as [Hu _]. specialize (IH Hb).
  rewrite length_app, Nat.add_comm, path_cost_snoc, path_end_app. cbn [Nat.add length path_end best].
  destruct (nstate_pred (path_end s0 us) u (path_end_state s0 us Hs) Hu) as [-> Hp].
  unfold zlen. rewrite Z.add_0_l. destruct Hp as [Hp|Hp]; rewrite <- Hp; lia.
Qed.

(** The survivor path: its inputs and its start state. *)
Fixpoint survivor (input : list Z) (t : nat) (s : Z) : list Z * Z :=
  match t with
  | O => ([], s)
  | S t' =>
      let p := if survivor_high input t' s then s / 2 + 32 else s / 2 in
      let '(us, s0) := survivor input t' p in (us ++ [s mod 2], s0)
  end.

Lemma survivor_spec input t s :
  is_state s ->
  let '(us, s0) := survivor input t s in
  length us = t /\ is_state s0 /\ Forall is_bit us /\ path_end s0 us = s /\
  init_cost s0 + path_cost input 0 s0 us = best input t s.
Proof.
  revert s. induction t as [|t IH]; intros s Hs; [simpl; split_and!; done || lia|].
  cbn [survivor]. cbv zeta. pose proof (best_survivor input t s) as Hb. cbv zeta in Hb.
  destruct (nstate_half s (survivor_high input t s) Hs) as [Hp Hn]. cbv zeta in Hp, Hn.
  set (p := if survivor_high input t s then _ else _) in *. specialize (IH p Hp).
  destruct (survivor input t p) as [us s0]. destruct IH as (Hl & Hs0 & Hu & He & Hc).
  split_and!; [rewrite length_app; simpl; lia|done|..].
  - apply Forall_app. split; [done|]. constructor; [apply Z.mod_pos_bound; lia|constructor].
  - rewrite path_end_app, He. simpl. done.
  - rewrite path_cost_snoc, He, Hb. unfold zlen. rewrite Hl, Z.add_0_l. lia.
Qed.

Lemma path_end_testbit s us j :
  Forall is_bit us -> 0 <= j < 6 -> j < zlen us ->
  Z.testbit (path_end s us) j = (rd us (zlen us - 1 - j) =? 1).
Proof.
  revert j. induction us as [|u us IH] using rev_ind; intros j Hb Hj Hl; [unfold zlen in Hl; simpl in Hl; lia|].
  apply Forall_app in Hb as [Hb Hu]. apply Forall_cons_1 in Hu as [Hu _].
  rewrite zlen_app in *. change (zlen [u]) with 1 in *. rewrite path_end_app. cbn [path_end]. unfold nstate.
  change 64 with (2 ^ 6). rewrite Z.mod_pow2_bits_low by lia.
  assert (u = Z.b2z (u =? 1)) as Eu by (unfold is_bit in Hu; destruct (Z.eqb_spec u 1); simpl; lia).
  rewrite Eu at 1. destruct (Z.eq_dec j 0) as [->|].
  - rewrite Z.testbit_0_r. rewrite rd_app_r by lia. replace (zlen us + 1 - 1 - 0 - zlen us) with 0 by lia. done.
  - replace j with (Z.succ (j - 1)) at 1 by lia. rewrite Z.testbit_succ_r by lia.
    rewrite IH by (done || lia). rewrite rd_app_l by lia. do 2 f_equal. lia.
Qed.

Lemma state_high s : is_state s -> Z.testbit s 5 = (32 <=? s).
Proof.
  unfold is_state. intros Hs. apply eqb_true_iff. revert s Hs.
  apply (forall_range 64 (fun s => Bool.eqb (Z.testbit s 5) (32 <=? s))). by vm_compute.
Qed.

Lemma decision_bit_spec input n ds t e :
  decisions_are input n ds -> 0 <= t < n -> is_state (Z.shiftr e 2) ->
  decision_bit ds t e = b2z (survivor_high input (Z.to_nat t) (Z.shiftr e 2)).
Proof.
  intros [_ Hd] Ht Hs. unfold decision_bit. cbv zeta. set (s := Z.shiftr e 2) in *. unfold is_state in Hs.
  rewrite <- (Hd t s Ht Hs).
  assert (0 <= s mod 32 < 32 /\ 0 <= s / 32 /\ 32 * (s / 32) + s mod 32 = s) as (H1 & H2 & H3)
    by (Z.to_euclidean_division_equations; lia).
  change 1 with (Z.ones 1). rewrite Z.land_ones by lia. change (2 ^ 1) with 2.
  rewrite <- Z.bit0_mod. rewrite Z.shiftr_spec by lia. rewrite Z.add_0_l.
  rewrite uwrap_testbit by lia. destruct (Z.ltb_spec (s mod 32) 32); [|lia].
  rewrite Z.shiftr_spec by lia. simpl andb. rewrite Z.add_comm, H3.
  by destruct (Z.testbit (rd ds t) s).
Qed.

(** Moving the end state one step back. *)
Lemma endstate_shift e (h : bool) :
  is_state (Z.shiftr e 2) ->
  Z.shiftr (Z.lor (Z.shiftr e 1) (Z.shiftl (b2z h) 7)) 2 =
  if h then Z.shiftr e 2 / 2 + 32 else Z.shiftr e 2 / 2.
Proof.
  intros Hs. rewrite Z.shiftr_lor, !Z.shiftr_shiftr by lia.
  replace (Z.shiftr e 2 / 2) with (Z.shiftr e (1 + 2))
    by (change 2 with (2 ^ 1) at 3; rewrite <- Z.shiftr_div_pow2, Z.shiftr_shiftr by lia; done).
  destruct h; [|by rewrite Z.shiftl_0_l, Z.shiftr_0_l, Z.lor_0_r].
  change (Z.shiftr (Z.shiftl (b2z true) 7) 2) with (1 * 2 ^ 5). rewrite Z.lor_comm.
  rewrite lor_add_disjoint; [lia|lia|].
  replace (1 + 2) with (2 + 1) by lia. rewrite <- Z.shiftr_shiftr by lia.
  unfold is_state in Hs. rewrite (Z.shiftr_div_pow2 _ 1) by lia. change (2 ^ 1) with 2. change (2 ^ 5) with 32.
  Z.to_euclidean_division_equations; lia.
Qed.

(** Bit [n] of the survivor of time [n + 6] is the high bit of the state. *)
Lemma survivor_bit input n p :
  0 <= n -> is_state p -> rd (fst (survivor input (Z.to_nat (n + 6)) p)) n = b2z (32 <=? p).
Proof.
  intros Hn Hp. pose proof (survivor_spec input (Z.to_nat (n + 6)) p Hp) as H.
  destruct (survivor _ _ p) as [us s0]. destruct H as (Hl & _ & Hb & He & _). cbn [fst].
  assert (zlen us = n + 6) as Hz by (unfold zlen; lia).
  rewrite <- state_high by done. rewrite <- He, path_end_testbit by (done || lia).
  replace (zlen us - 1 - 5) with n by lia.
  pose proof (rd_Forall is_bit us n is_bit_0 Hb) as Hu. unfold is_bit in Hu.
  destruct (Z.eqb_spec (rd us n) 1); simpl; lia.
Qed.

Lemma survivor_extend input t s :
  fst (survivor input (S t) s) =
  fst (survivor input t (if survivor_high input t s then s / 2 + 32 else s / 2)) ++ [s mod 2].
Proof. cbn [survivor]. cbv zeta. by destruct (survivor input t _). Qed.

Lemma survivor_length input t s : is_state s -> zlen (fst (survivor input t s)) = Z.of_nat t.
Proof.
  intros Hs. pose proof (survivor_spec input t s Hs) as H. destruct (survivor input t s) as [us s0].
  destruct H as [H _]. unfold zlen. simpl. by rewrite H.
Qed.

Lemma chainback_spec input F ds output :
  0 <= F -> decisions_are input (F + 6) ds -> zlen output = F ->
  chainback ds F output = slice (fst (survivor input (Z.to_nat (F + 6)) 0)) 0 F.
Proof.
  intros HF Hd Ho. set (US := fst (survivor input (Z.to_nat (F + 6)) 0)).
  assert (zlen US = F + 6) as HUS.
  { unfold US. rewrite survivor_length by (unfold is_state; lia). lia. }
  unfold chainback. set (body := fun (n : Z) (st : Z * list Z) => _).
  pose proof (zdownto_inv (fun n '(e, out) => is_state (Z.shiftr e 2) /\ zlen out = F /\
    (exists rest, US = fst (survivor input (Z.to_nat (n + 7)) (Z.shiftr e 2)) ++ rest) /\
    forall m, n < m < F -> rd out m = rd US m) (F - 1) 0 body (0, output)) as H.
  destruct (zdownto (F - 1) 0 body (0, output)) as [e out]. cbn [snd].
  cbv beta iota in H. destruct H as (_ & Hl & _ & Hr); [lia|..].
  - change (Z.shiftr 0 2) with 0. split; [unfold is_state; lia|]. split_and!; [done| |lia]. exists [].
    replace (F - 1 + 7) with (F + 6) by lia. rewrite app_nil_r. done.
  - clear e out. intros n [e out] Hn (Hs & Hl & [rest Hrest] & Hm). unfold body.
    rewrite (decision_bit_spec input (F + 6) ds (n + 6) e) by (done || lia).
    rewrite endstate_shift by done. set (s := Z.shiftr e 2) in *.
    replace (Z.to_nat (n + 7)) with (S (Z.to_nat (n + 6))) in Hrest by lia.
    rewrite survivor_extend, <- app_assoc in Hrest.
    destruct (nstate_half s (survivor_high input (Z.to_nat (n + 6)) s) Hs) as [Hp _]. cbv zeta in Hp.
    assert (b2z (survivor_high input (Z.to_nat (n + 6)) s) = rd US n) as Hk.
    { rewrite Hrest, rd_app_l by (rewrite survivor_length by done; lia).
      rewrite survivor_bit by (done || lia). unfold is_state in Hs.
      destruct (survivor_high _ _ _); f_equal; symmetry; [apply Z.leb_le|apply Z.leb_gt];
        Z.to_euclidean_division_equations; lia. }
    split_and!; [done|by rewrite zlen_wr|..].
    + replace (n - 1 + 7) with (n + 6) by lia. by exists ([s mod 2] ++ rest).
    + intros m Hm'. destruct (Z.eq_dec m n) as [->|]; [by rewrite rd_wr_eq by lia|].
      rewrite rd_wr_ne by done. apply Hm. lia.
  - apply list_eq_rd; [rewrite zlen_slice; lia|]. intros m Hm. rewrite rd_slice by lia. apply Hr. lia.
Qed.

(** Everything the decoder does, in terms of the trellis. *)
Lemma viterbi_survivor F m1 m2 input output :
  0 <= F -> fits32 (Z.to_nat (F + 6)) -> zlen m1 = 64 -> zlen m2 = 64 -> zlen output = F ->
  viterbi_deconvolve F m1 m2 input output = slice (fst (survivor input (Z.to_nat (F + 6)) 0)) 0 F.
Proof.
  intros HF Hf H1 H2 Ho. unfold viterbi_deconvolve. cbv zeta.
  pose proof (trellis_run_spec input (F + 6) m1 m2 ltac:(lia) Hf H1 H2) as Hd.
  destruct (zfor 0 (F + 6) _ _) as [[? ?] ds]. by apply chainback_spec.
Qed.

Lemma tail_zero s us : Forall is_bit us -> 6 <= zlen us -> path_end s us = 0 ->
  forall j, 0 <= j < 6 -> rd us (zlen us - 1 - j) = 0.
Proof.
  intros Hb Hl He j Hj. pose proof (path_end_testbit s us j Hb Hj ltac:(lia)) as H.
  rewrite He, Z.bits_0 in H. symmetry in H. apply Z.eqb_neq in H.
  pose proof (rd_Forall is_bit us (zlen us - 1 - j) is_bit_0 Hb) as Hu. unfold is_bit in Hu. lia.
Qed.

Lemma path_end_zeros6 s us : is_state s -> path_end s (us ++ zeros 6) = 0.
Proof.
  intros Hs. rewrite path_end_app. pose proof (path_end_state s us Hs) as Hp.
  apply Z.eqb_eq. revert Hp. generalize (path_end s us). intros z Hz.
  apply (forall_range 64 (fun z => path_end z (zeros 6) =? 0)); [by vm_compute|done].
Qed.

Lemma survivor_zero_split input F :
  0 <= F -> exists s0, is_state s0 /\
    let o := slice (fst (survivor input (Z.to_nat (F + 6)) 0)) 0 F in
    Forall is_bit o /\ zlen o = F /\
    init_cost s0 + path_cost input 0 s0 (o ++ zeros 6) = best input (Z.to_nat (F + 6)) 0.
Proof.
  intros HF. pose proof (survivor_spec input (Z.to_nat (F + 6)) 0 ltac:(unfold is_state; lia)) as H.
  destruct (survivor _ _ 0) as [us s0]. destruct H as (Hl & Hs & Hb & He & Hc). exists s0.
  split; [done|]. cbn [fst]. cbv zeta. assert (zlen us = F + 6) as Hz by (unfold zlen; lia).
  split_and!; [by apply Forall_slice|rewrite zlen_slice; lia|].
  rewrite <- Hc. do 2 f_equal. apply list_eq_rd.
  - rewrite zlen_app, zlen_slice, zlen_zeros by lia. lia.
  - intros i Hi. rewrite zlen_app, zlen_slice, zlen_zeros in Hi by lia.
    destruct (Z.lt_ge_cases i F).
    + rewrite rd_app_l by (rewrite zlen_slice; lia). by rewrite rd_slice by lia.
    + rewrite rd_app_r, rd_zeros by (rewrite zlen_slice; lia). symmetry.
      replace i with (zlen us - 1 - (F + 5 - i)) by lia. apply (tail_zero s0); (done || lia).
Qed.

(** C3: the decoder is a maximum-likelihood decoder.  For every frame length
    whose metrics fit 32 bits (two million bits; the receiver uses at most
    9216) and every input, the decoded bits, followed by the six tail zeros,
    are a trellis path whose metric no other bit sequence from any start state
    undercuts (the start state 0 is preferred by 1000). *)
Theorem viterbi_optimal (F : Z) (m1 m2 input output : list Z) :
  0 <= F <= 2000000 -> zlen m1 = 64 -> zlen m2 = 64 -> zlen output = F ->
  let o := viterbi_deconvolve F m1 m2 input output in
  zlen o = F /\ Forall is_bit o /\
  exists s0, is_state s0 /\ forall s us, is_state s -> Forall is_bit us -> zlen us = F ->
    init_cost s0 + path_cost input 0 s0 (o ++ zeros 6) <=
    init_cost s + path_cost input 0 s (us ++ zeros 6).
Proof.
  intros HF H1 H2 Ho. rewrite viterbi_survivor by (unfold fits32; done || lia). cbv zeta.
  destruct (survivor_zero_split input F ltac:(lia)) as (s0 & Hs0 & Hb & Hl & Hc). cbv zeta in Hb, Hl, Hc.
  split_and!; [done..|]. exists s0. split; [done|]. intros s us Hs Hu Hul. rewrite Hc.
  assert (Forall is_bit (us ++ zeros 6)) as Hbu
    by (apply Forall_app; split; [done|apply Forall_replicate, is_bit_0]).
  pose proof (best_lower input (us ++ zeros 6) s Hs Hbu) as H. rewrite path_end_zeros6 in H by done.
  replace (length (us ++ zeros 6)) with (Z.to_nat (F + 6)) in H; [done|].
  rewrite length_app. unfold zeros. rewrite length_replicate. unfold zlen in Hul. lia.
Qed.

Lemma viterbi_optimal_witness :
  let o := viterbi_deconvolve 2 (zeros 64) (zeros 64) (zeros 32) (zeros 2) in
  zlen o = 2 /\ Forall is_bit o /\
  exists s0, is_state s0 /\ forall s us, is_state s -> Forall is_bit us -> zlen us = 2 ->
    init_cost s0 + path_cost (zeros 32) 0 s0 (o ++ zeros 6) <=
    init_cost s + path_cost (zeros 32) 0 s (us ++ zeros 6).
Proof. apply (viterbi_optimal 2 (zeros 64) (zeros 64) (zeros 32) (zeros 2)); (lia || reflexivity). Defined.

(** ** Noiseless reception *)

(** The four code bits for register content [2s + u], with the generator
    polynomials of [calculate_BER]. *)
Definition conv_bits (s u : Z) : list Z := map (fun p => parity (Z.land (2 * s + u) p)) polys.

(** A received soft value that clearly says 1 or 0. *)
Definition sym_ok (c v : Z) : bool :=
  if c =? 1 then (128 <=? v) && (v <=? 32640) else (-32768 <=? v) && (v <=? -127).

Fixpoint received (input : list Z) (t s : Z) (us : list Z) : bool :=
  match us with
  | [] => true
  | u :: us =>
      forallb (fun j => sym_ok (rd (conv_bits s u) j) (rd input (4 * t + j))) [0; 1; 2; 3] &&
      received input (t + 1) (nstate s u) us
  end.

Lemma limit_sym_ok c v : sym_ok c v = true -> limit_min_max v = if c =? 1 then 255 else 0.
Proof.
  unfold sym_ok, limit_min_max. destruct (Z.eqb_spec c 1); intros H; zbool;
    rewrite i16_small by lia; zcases; lia.
Qed.

Definition hard (c : Z) : Z := if c =? 1 then 255 else 0.
Definition zero_metric (s u : Z) : bool :=
  let c := conv_bits s u in
  let m := branch_metric (hard (rd c 0)) (hard (rd c 1)) (hard (rd c 2)) (hard (rd c 3)) (s mod 32) in
  (if Z.even (s / 32 + u) then m else 1020 - m) =? 0.

Lemma zero_metric_all s u : is_state s -> is_bit u -> zero_metric s u = true.
Proof.
  unfold is_state, is_bit. intros Hs Hu.
  pose proof (forall_range 64 (fun s => forallb (zero_metric s) (seqZ 0 2)) ltac:(by vm_compute) s Hs) as H.
  by apply (forall_range 2 (zero_metric s)).
Qed.

Lemma received_cost input t s us :
  is_state s -> Forall is_bit us -> received input t s us = true -> path_cost input t s us = 0.
Proof.
  revert t s. induction us as [|u us IH]; intros t s Hs Hb H; [done|].
  apply Forall_cons_1 in Hb as [Hu Hb]. cbn [received] in H. apply andb_true_iff in H as [Hj H].
  cbn [path_cost]. rewrite (IH (t + 1)) by (done || apply nstate_state).
  cbn [forallb] in Hj. rewrite Z.add_0_r in Hj. zbool.
  pose proof (zero_metric_all s u Hs Hu) as Hz. unfold zero_metric in Hz. cbv zeta in Hz. zbool.
  unfold bm. cbv zeta. erewrite !limit_sym_ok by eassumption. fold (hard (rd (conv_bits s u) 0)).
  fold (hard (rd (conv_bits s u) 1)) (hard (rd (conv_bits s u) 2)) (hard (rd (conv_bits s u) 3)). lia.
Qed.

Lemma bm_complement input t s : bm input t s 0 + bm input t s 1 = 1020.
Proof. unfold bm. cbv zeta. rewrite !Z.even_add. destruct (Z.even (s / 32)); simpl; lia. Qed.

Lemma path_cost_nonneg input t s us : 0 <= path_cost input t s us.
Proof.
  revert t s. induction us as [|u us IH]; intros t s; [done|]. cbn [path_cost].
  pose proof (bm_range input t s u). specialize (IH (t + 1) (nstate s u)). lia.
Qed.

(** From a common state at most one path is free of cost. *)
Lemma zero_cost_unique input t s us vs :
  Forall is_bit us -> Forall is_bit vs -> length us = length vs ->
  path_cost input t s us = 0 -> path_cost input t s vs = 0 -> us = vs.
Proof.
  revert t s vs. induction us as [|u us IH]; intros t s [|v vs] Hu Hv Hl Cu Cv; try done.
  apply Forall_cons_1 in Hu as [Hu Hus]. apply Forall_cons_1 in Hv as [Hv Hvs].
  cbn [path_cost] in Cu, Cv. injection Hl as Hl.
  pose proof (bm_range input t s u). pose proof (bm_range input t s v).
  pose proof (path_cost_nonneg input (t + 1) (nstate s u) us).
  pose proof (path_cost_nonneg input (t + 1) (nstate s v) vs).
  pose proof (bm_complement input t s) as Hc. unfold is_bit in Hu, Hv.
  assert (u = v) as <-.
  { assert ((u = 0 \/ u = 1) /\ (v = 0 \/ v = 1)) as [[-> | ->] [-> | ->]] by lia; done || lia. }
  f_equal. apply (IH (t + 1) (nstate s u)); done || lia.
Qed.

(** A frame that is convolutionally encoded with the generator polynomials
    the program names, followed by six zero bits, and received without errors
    (soft values beyond the clipping limits of the decoder) is decoded
    exactly. *)
Theorem viterbi_noiseless (m1 m2 input output us : list Z) :
  zlen us <= 2000000 -> zlen m1 = 64 -> zlen m2 = 64 -> zlen output = zlen us ->
  Forall is_bit us -> received input 0 0 (us ++ zeros 6) = true ->
  viterbi_deconvolve (zlen us) m1 m2 input output = us.
Proof.
  intros HF H1 H2 Ho Hu Hr. set (F := zlen us) in *. assert (0 <= F) by apply zlen_nonneg.
  rewrite viterbi_survivor by (unfold fits32; done || lia).
  destruct (survivor_zero_split input F ltac:(lia)) as (s0 & Hs0 & Hb & Hl & Hc). cbv zeta in Hb, Hl, Hc.
  set (o := slice _ 0 F) in *.
  assert (Forall is_bit (zeros 6)) as Hz by apply Forall_replicate, is_bit_0.
  assert (Forall is_bit (us ++ zeros 6)) as Hbu by (by apply Forall_app).
  assert (is_state 0) as H0 by (unfold is_state; lia).
  pose proof (best_lower input (us ++ zeros 6) 0 H0 Hbu) as Hle.
  rewrite path_end_zeros6, (received_cost input 0 0) in Hle by done.
  replace (length (us ++ zeros 6)) with (Z.to_nat (F + 6)) in Hle
    by (rewrite length_app; unfold zeros, F, zlen; rewrite length_replicate; lia).
  pose proof (path_cost_nonneg input 0 s0 (o ++ zeros 6)).
  change (init_cost 0) with 0 in Hle. unfold init_cost in Hc.
  destruct (Z.eqb_spec s0 0) as [->|]; [|lia].
  apply (app_inv_tail (zeros 6)). apply (zero_cost_unique input 0 0).
  - by apply Forall_app.
  - done.
  - rewrite !length_app. unfold F, zlen in Hl. lia.
  - lia.
  - by apply received_cost.
Qed.

Lemma viterbi_noiseless_witness :
  viterbi_deconvolve 2 (zeros 64) (zeros 64)
    [200; 200; 200; 200; -200; 200; 200; -200; 200; 200; -200; 200; 200; 200; -200; 200;
     -200; -200; 200; -200; 200; -200; -200; 200; 200; 200; 200; 200; -200; -200; -200; -200] (zeros 2) = [1; 0].
Proof.
  apply (viterbi_noiseless (zeros 64) (zeros 64) _ (zeros 2) [1; 0]); try (vm_compute; congruence).
  repeat constructor; done.
Defined.

(** The decoder is a function of the frame alone: what the static metric
    buffers and the output buffer held before the call does not matter. *)
Lemma viterbi_stateless (F : Z) (m1 m2 m1' m2' input output output' : list Z) :
  0 <= F <= 2000000 ->
  zlen m1 = 64 -> zlen m2 = 64 -> zlen m1' = 64 -> zlen m2' = 64 -> zlen output = F -> zlen output' = F ->
  viterbi_deconvolve F m1 m2 input output = viterbi_deconvolve F m1' m2' input output'.
Proof. intros. by rewrite !viterbi_survivor by (unfold fits32; done || lia). Qed.

Lemma viterbi_stateless_witness :
  viterbi_deconvolve 1 (zeros 64) (zeros 64) (zeros 28) (zeros 1) =
  viterbi_deconvolve 1 (replicate 64 7) (replicate 64 9) (zeros 28) [5].
Proof.
  apply (viterbi_stateless 1 (zeros 64) (zeros 64) (replicate 64 7) (replicate 64 9));
    (lia || reflexivity).
Defined.
