(* ===== verification/Protection.v ===== *)
(** * Error protection: puncturing tables and depuncturing

    src/src/base/protection/protTables.cpp (puncturing vectors), protection.cpp
    (base class), eep_protection.cpp and uep_protection.cpp (the two profiles),
    and the sub-channel size table of src/src/base/decoder/fib_table.h.

    A [Protection] object holds the Viterbi input block and the addresses of
    the bits that are transmitted; the addresses are indices into the block.  A
    failing [assert] is [None].  [deconvolve] takes the inherited Viterbi decoder
    as an argument; Backend.v supplies the one of Viterbi.v.

    Theorems: for every bit rate the EEP constructor succeeds, its addresses
    are the increasing positions of the ones in the puncturing sequence of the
    standard and there are exactly as many as the sub-channel has bits; each
    row of the UEP table but one fits its sub-channel; depuncturing writes
    exactly the received bits and never leaves stale ones. *)
From Stdlib Require Import Sorted.
From S2P Require Import Prelude.
Open Scope Z_scope.

(** ** protTables.cpp *)
Definition cPI_Codes : list (list Z) := [
  [1; 1; 0; 0; 1; 0; 0; 0; 1; 0; 0; 0; 1; 0; 0; 0; 1; 0; 0; 0; 1; 0; 0; 0; 1; 0; 0; 0; 1; 0; 0; 0];
  [1; 1; 0; 0; 1; 0; 0; 0; 1; 0; 0; 0; 1; 0; 0; 0; 1; 1; 0; 0; 1; 0; 0; 0; 1; 0; 0; 0; 1; 0; 0; 0];
  [1; 1; 0; 0; 1; 0; 0; 0; 1; 1; 0; 0; 1; 0; 0; 0; 1; 1; 0; 0; 1; 0; 0; 0; 1; 0; 0; 0; 1; 0; 0; 0];
  [1; 1; 0; 0; 1; 0; 0; 0; 1; 1; 0; 0; 1; 0; 0; 0; 1; 1; 0; 0; 1; 0; 0; 0; 1; 1; 0; 0; 1; 0; 0; 0];
  [1; 1; 0; 0; 1; 1; 0; 0; 1; 1; 0; 0; 1; 0; 0; 0; 1; 1; 0; 0; 1; 0; 0; 0; 1; 1; 0; 0; 1; 0; 0; 0];
  [1; 1; 0; 0; 1; 1; 0; 0; 1; 1; 0; 0; 1; 0; 0; 0; 1; 1; 0; 0; 1; 1; 0; 0; 1; 1; 0; 0; 1; 0; 0; 0];
  [1; 1; 0; 0; 1; 1; 0; 0; 1; 1; 0; 0; 1; 1; 0; 0; 1; 1; 0; 0; 1; 1; 0; 0; 1; 1; 0; 0; 1; 0; 0; 0];
  [1; 1; 0; 0; 1; 1; 0; 0; 1; 1; 0; 0; 1; 1; 0; 0; 1; 1; 0; 0; 1; 1; 0; 0; 1; 1; 0; 0; 1; 1; 0; 0];
  [1; 1; 1; 0; 1; 1; 0; 0; 1; 1; 0; 0; 1; 1; 0; 0; 1; 1; 0; 0; 1; 1; 0; 0; 1; 1; 0; 0; 1; 1; 0; 0];
  [1; 1; 1; 0; 1; 1; 0; 0; 1; 1; 0; 0; 1; 1; 0; 0; 1; 1; 1; 0; 1; 1; 0; 0; 1; 1; 0; 0; 1; 1; 0; 0];
  [1; 1; 1; 0; 1; 1; 0; 0; 1; 1; 1; 0; 1; 1; 0; 0; 1; 1; 1; 0; 1; 1; 0; 0; 1; 1; 0; 0; 1; 1; 0; 0];
  [1; 1; 1; 0; 1; 1; 0; 0; 1; 1; 1; 0; 1; 1; 0; 0; 1; 1; 1; 0; 1; 1; 0; 0; 1; 1; 1; 0; 1; 1; 0; 0];
  [1; 1; 1; 0; 1; 1; 1; 0; 1; 1; 1; 0; 1; 1; 0; 0; 1; 1; 1; 0; 1; 1; 0; 0; 1; 1; 1; 0; 1; 1; 0; 0];
  [1; 1; 1; 0; 1; 1; 1; 0; 1; 1; 1; 0; 1; 1; 0; 0; 1; 1; 1; 0; 1; 1; 1; 0; 1; 1; 1; 0; 1; 1; 0; 0];
  [1; 1; 1; 0; 1; 1; 1; 0; 1; 1; 1; 0; 1; 1; 1; 0; 1; 1; 1; 0; 1; 1; 1; 0; 1; 1; 1; 0; 1; 1; 0; 0];
  [1; 1; 1; 0; 1; 1; 1; 0; 1; 1; 1; 0; 1; 1; 1; 0; 1; 1; 1; 0; 1; 1; 1; 0; 1; 1; 1; 0; 1; 1; 1; 0];
  [1; 1; 1; 1; 1; 1; 1; 0; 1; 1; 1; 0; 1; 1; 1; 0; 1; 1; 1; 0; 1; 1; 1; 0; 1; 1; 1; 0; 1; 1; 1; 0];
  [1; 1; 1; 1; 1; 1; 1; 0; 1; 1; 1; 0; 1; 1; 1; 0; 1; 1; 1; 1; 1; 1; 1; 0; 1; 1; 1; 0; 1; 1; 1; 0];
  [1; 1; 1; 1; 1; 1; 1; 0; 1; 1; 1; 1; 1; 1; 1; 0; 1; 1; 1; 1; 1; 1; 1; 0; 1; 1; 1; 0; 1; 1; 1; 0];
  [1; 1; 1; 1; 1; 1; 1; 0; 1; 1; 1; 1; 1; 1; 1; 0; 1; 1; 1; 1; 1; 1; 1; 0; 1; 1; 1; 1; 1; 1; 1; 0];
  [1; 1; 1; 1; 1; 1; 1; 1; 1; 1; 1; 1; 1; 1; 1; 0; 1; 1; 1; 1; 1; 1; 1; 0; 1; 1; 1; 1; 1; 1; 1; 0];
  [1; 1; 1; 1; 1; 1; 1; 1; 1; 1; 1; 1; 1; 1; 1; 0; 1; 1; 1; 1; 1; 1; 1; 1; 1; 1; 1; 1; 1; 1; 1; 0];
  [1; 1; 1; 1; 1; 1; 1; 1; 1; 1; 1; 1; 1; 1; 1; 1; 1; 1; 1; 1; 1; 1; 1; 1; 1; 1; 1; 1; 1; 1; 1; 0];
  [1; 1; 1; 1; 1; 1; 1; 1; 1; 1; 1; 1; 1; 1; 1; 1; 1; 1; 1; 1; 1; 1; 1; 1; 1; 1; 1; 1; 1; 1; 1; 1]
].

(** [assert(iPiCode >= 1 && iPiCode <= 24); return cPI_Codes[iPiCode - 1];] *)
Definition get_PI_codes (iPiCode : Z) : option (list Z) :=
  if (1 <=? iPiCode) && (iPiCode <=? 24) then cPI_Codes !! Z.to_nat (iPiCode - 1) else None.

(** ** uep_protection.cpp: the profile table *)
Record SProtectionProfile := mkProfile {
  pBitRate : Z; pProtLevel : Z;
  pL1 : Z; pL2 : Z; pL3 : Z; pL4 : Z;
  pPI1 : Z; pPI2 : Z; pPI3 : Z; pPI4 : Z
}.

Definition cProfileTable : list SProtectionProfile := [
  mkProfile 32 5 3 4 17 0 5 3 2 (-1);
  mkProfile 32 4 3 3 18 0 11 6 5 (-1);
  mkProfile 32 3 3 4 14 3 15 9 6 8;
  mkProfile 32 2 3 4 14 3 22 13 8 13;
  mkProfile 32 1 3 5 13 3 24 17 12 17;
  mkProfile 48 5 4 3 26 3 5 4 2 3;
  mkProfile 48 4 3 4 26 3 9 6 4 6;
  mkProfile 48 3 3 4 26 3 15 10 6 9;
  mkProfile 48 2 3 4 26 3 24 14 8 15;
  mkProfile 48 1 3 5 25 3 24 18 13 18;
  mkProfile 56 5 6 10 23 3 5 4 2 3;
  mkProfile 56 4 6 10 23 3 9 6 4 5;
  mkProfile 56 3 6 12 21 3 16 7 6 9;
  mkProfile 56 2 6 10 23 3 23 13 8 13;
  mkProfile 64 5 6 9 31 2 5 3 2 3;
  mkProfile 64 4 6 9 33 0 11 6 5 (-1);
  mkProfile 64 3 6 12 27 3 16 8 6 9;
  mkProfile 64 2 6 10 29 3 23 13 8 13;
  mkProfile 64 1 6 11 28 3 24 18 12 18;
  mkProfile 80 5 6 10 41 3 6 3 2 3;
  mkProfile 80 4 6 10 41 3 11 6 5 6;
  mkProfile 80 3 6 11 40 3 16 8 6 7;
  mkProfile 80 2 6 10 41 3 23 13 8 13;
  mkProfile 80 1 6 10 41 3 24 7 12 18;
  mkProfile 96 5 7 9 53 3 5 4 2 4;
  mkProfile 96 4 7 10 52 3 9 6 4 6;
  mkProfile 96 3 6 12 51 3 16 9 6 10;
  mkProfile 96 2 6 10 53 3 22 12 9 12;
  mkProfile 96 1 6 13 50 3 24 18 13 19;
  mkProfile 112 5 14 17 50 3 5 4 2 5;
  mkProfile 112 4 11 21 49 3 9 6 4 8;
  mkProfile 112 3 11 23 47 3 16 8 6 9;
  mkProfile 112 2 11 21 49 3 23 12 9 14;
  mkProfile 128 5 12 19 62 3 5 3 2 4;
  mkProfile 128 4 11 21 61 3 11 6 5 7;
  mkProfile 128 3 11 22 60 3 16 9 6 10;
  mkProfile 128 2 11 21 61 3 22 12 9 14;
  mkProfile 128 1 11 20 62 3 24 17 13 19;
  mkProfile 160 5 11 19 87 3 5 4 2 4;
  mkProfile 160 4 11 23 83 3 11 6 5 9;
  mkProfile 160 3 11 24 82 3 16 8 6 11;
  mkProfile 160 2 11 21 85 3 22 11 9 13;
  mkProfile 160 1 11 22 84 3 24 18 12 19;
  mkProfile 192 5 11 20 110 3 6 4 2 5;
  mkProfile 192 4 11 22 108 3 10 6 4 9;
  mkProfile 192 3 11 24 106 3 16 10 6 11;
  mkProfile 192 2 11 20 110 3 22 13 9 13;
  mkProfile 192 1 11 21 109 3 24 20 13 24;
  mkProfile 224 5 12 22 131 3 8 6 2 6;
  mkProfile 224 4 12 26 127 3 12 8 4 11;
  mkProfile 224 3 11 20 134 3 16 10 7 9;
  mkProfile 224 2 11 22 132 3 24 16 10 15;
  mkProfile 224 1 11 24 130 3 24 20 12 20;
  mkProfile 256 5 11 24 154 3 6 5 2 5;
  mkProfile 256 4 11 24 154 3 12 9 5 10;
  mkProfile 256 3 11 27 151 3 16 10 7 10;
  mkProfile 256 2 11 22 156 3 24 14 10 13;
  mkProfile 256 1 11 26 152 3 24 19 14 18;
  mkProfile 320 5 11 26 200 3 8 5 2 6;
  mkProfile 320 4 11 25 201 3 13 9 5 10;
  mkProfile 320 2 11 26 200 3 24 17 9 17;
  mkProfile 384 5 11 27 247 3 8 6 2 7;
  mkProfile 384 3 11 24 250 3 16 9 7 10;
  mkProfile 384 1 12 28 245 3 24 20 14 23;
  mkProfile 0 (-1) (-1) (-1) (-1) (-1) (-1) (-1) (-1) (-1)
].

(** ** fib_table.h: sub-channel sizes of the UEP profiles *)
Record SProtLevel := mkProtLevel { CUSize : Z; ProtLevel : Z; tBitRate : Z }.

Definition cProtLevelTable : list SProtLevel := [
  mkProtLevel 16 5 32; mkProtLevel 21 4 32; mkProtLevel 24 3 32;
  mkProtLevel 29 2 32; mkProtLevel 35 1 32; mkProtLevel 24 5 48;
  mkProtLevel 29 4 48; mkProtLevel 35 3 48; mkProtLevel 42 2 48;
  mkProtLevel 52 1 48; mkProtLevel 29 5 56; mkProtLevel 35 4 56;
  mkProtLevel 42 3 56; mkProtLevel 52 2 56; mkProtLevel 32 5 64;
  mkProtLevel 42 4 64; mkProtLevel 48 3 64; mkProtLevel 58 2 64;
  mkProtLevel 70 1 64; mkProtLevel 40 5 80; mkProtLevel 52 4 80;
  mkProtLevel 58 3 80; mkProtLevel 70 2 80; mkProtLevel 84 1 80;
  mkProtLevel 48 5 96; mkProtLevel 58 4 96; mkProtLevel 70 3 96;
  mkProtLevel 84 2 96; mkProtLevel 104 1 96; mkProtLevel 58 5 112;
  mkProtLevel 70 4 112; mkProtLevel 84 3 112; mkProtLevel 104 2 112;
  mkProtLevel 64 5 128; mkProtLevel 84 4 128; mkProtLevel 96 3 128;
  mkProtLevel 116 2 128; mkProtLevel 140 1 128; mkProtLevel 80 5 160;
  mkProtLevel 104 4 160; mkProtLevel 116 3 160; mkProtLevel 140 2 160;
  mkProtLevel 168 1 160; mkProtLevel 96 5 192; mkProtLevel 116 4 192;
  mkProtLevel 140 3 192; mkProtLevel 168 2 192; mkProtLevel 208 1 192;
  mkProtLevel 116 5 224; mkProtLevel 140 4 224; mkProtLevel 168 3 224;
  mkProtLevel 208 2 224; mkProtLevel 232 1 224; mkProtLevel 128 5 256;
  mkProtLevel 168 4 256; mkProtLevel 192 3 256; mkProtLevel 232 2 256;
  mkProtLevel 280 1 256; mkProtLevel 160 5 320; mkProtLevel 208 4 320;
  mkProtLevel 280 2 320; mkProtLevel 192 5 384; mkProtLevel 280 3 384;
  mkProtLevel 416 1 384
].

(** ** protection.cpp: the base class *)
Record Protection := mkProtection {
  bitRate : Z;
  outSize : Z;
  viterbiBlock : list Z;
  viterbiBlockAddresses : list Z
}.

Definition Protection_new (iBitRate : Z) : Protection :=
  mkProtection iBitRate (24 * iBitRate) (zeros (24 * iBitRate * 4 + 24)) [].

(** The depuncturing loop of [deconvolve]: the received values go to the
    remembered addresses, in order. *)
Definition depuncture (addrs iV block : list Z) : list Z :=
  zfor 0 (zlen addrs) (fun k block => wr block (rd addrs k) (rd iV k)) block.

(** [viterbi] is [ViterbiSpiral::deconvolve] of the frame length it is given. *)
Definition deconvolve (viterbi : Z -> list Z -> list Z) (p : Protection) (iV : list Z)
  : Protection * list Z :=
  let block := depuncture (viterbiBlockAddresses p) iV (viterbiBlock p) in
  (mkProtection (bitRate p) (outSize p) block (viterbiBlockAddresses p), viterbi (outSize p) block).

(** ** Collecting the addresses.  The state of the constructors is the counter
    [viterbiCounter] and the addresses collected so far. *)
Definition add_address (size : Z) (flag : Z) (st : Z * list Z) : option (Z * list Z) :=
  let '(counter, addrs) := st in
  if flag =? 0 then Some (counter + 1, addrs)
  else if counter <? size then Some (counter + 1, addrs ++ [counter]) else None.

(** [ipPIx = None] is the null pointer; it may only be passed with [iLx = 0]. *)
Definition eep_extract_viterbi_block_addresses (size iLx : Z) (ipPIx : option (list Z))
  (st : Z * list Z) : option (Z * list Z) :=
  if fst st <? 0 then None
  else zforM 0 iLx (fun _ st => zforM 0 128 (fun j st =>
         pi ← ipPIx; add_address size (rd pi (j mod 32)) st) st) st.

(** uep_protection.cpp repeats the method word for word. *)
Definition uep_extract_viterbi_block_addresses := eep_extract_viterbi_block_addresses.

(** The final block of 24 bits, punctured according to PI_X. *)
Definition final_block (size : Z) (PI_X : list Z) (st : Z * list Z) : option (Z * list Z) :=
  zforM 0 24 (fun i st => add_address size (rd PI_X i) st) st.

(** ** eep_protection.cpp *)
Definition eep_profile (bitRate iProtLevel : Z) : option (Z * Z * Z * Z) :=
  let protLevel := Z.land iProtLevel 0x3 in
  let option := Z.shiftr (Z.land iProtLevel (Z.shiftl 1 2)) 2 in
  if option =? 0 then
    let n := Z.quot bitRate 8 in
    if negb (Z.rem bitRate 8 =? 0) then None
    else if protLevel =? 0 then Some (6 * n - 3, 3, 24, 23)
    else if protLevel =? 1 then
      if n =? 1 then Some (5, 1, 13, 12) else Some (2 * n - 3, 4 * n + 3, 14, 13)
    else if protLevel =? 2 then Some (6 * n - 3, 3, 8, 7)
    else if protLevel =? 3 then Some (4 * n - 3, 2 * n + 3, 3, 2)
    else None
  else if option =? 1 then
    let n := Z.quot bitRate 32 in
    if negb (Z.rem bitRate 32 =? 0) then None
    else if protLevel =? 0 then Some (24 * n - 3, 3, 10, 9)
    else if protLevel =? 1 then Some (24 * n - 3, 3, 6, 5)
    else if protLevel =? 2 then Some (24 * n - 3, 3, 4, 3)
    else if protLevel =? 3 then Some (24 * n - 3, 3, 2, 1)
    else None
  else None.

Definition EepProtection_new (iBitRate iProtLevel : Z) : option Protection :=
  let p := Protection_new iBitRate in
  let size := zlen (viterbiBlock p) in
  '(L1, L2, pi1, pi2) ← eep_profile iBitRate iProtLevel;
  PI1 ← get_PI_codes pi1;
  PI2 ← get_PI_codes pi2;
  PI_X ← get_PI_codes 8;
  st ← eep_extract_viterbi_block_addresses size L1 (Some PI1) (0, []);
  st ← eep_extract_viterbi_block_addresses size L2 (Some PI2) st;
  st ← final_block size PI_X st;
  Some (mkProtection (bitRate p) (outSize p) (viterbiBlock p) (snd st)).

(** ** uep_protection.cpp *)
Fixpoint find_index_from (table : list SProtectionProfile) (i bitRate protLevel : Z) : Z :=
  match table with
  | [] => -1
  | row :: rest =>
      if pBitRate row =? 0 then -1
      else if (pBitRate row =? bitRate) && (pProtLevel row =? protLevel) then i
      else find_index_from rest (i + 1) bitRate protLevel
  end.
Definition find_index (bitRate protLevel : Z) : Z := find_index_from cProfileTable 0 bitRate protLevel.

Definition uep_row (bitRate protLevel : Z) : option SProtectionProfile :=
  let index := find_index bitRate protLevel in
  let index := if index =? -1 then 1 else index in
  cProfileTable !! Z.to_nat index.

Definition UepProtection_new (iBitRate protLevel : Z) : option Protection :=
  let p := Protection_new iBitRate in
  let size := zlen (viterbiBlock p) in
  pp ← uep_row iBitRate protLevel;
  PI1 ← get_PI_codes (pPI1 pp);
  PI2 ← get_PI_codes (pPI2 pp);
  PI3 ← get_PI_codes (pPI3 pp);
  PI4 ← (if pPI4 pp =? -1 then Some None else Some <$> get_PI_codes (pPI4 pp));
  PI_X ← get_PI_codes 8;
  st ← uep_extract_viterbi_block_addresses size (pL1 pp) (Some PI1) (0, []);
  st ← uep_extract_viterbi_block_addresses size (pL2 pp) (Some PI2) st;
  st ← uep_extract_viterbi_block_addresses size (pL3 pp) (Some PI3) st;
  st ← uep_extract_viterbi_block_addresses size (pL4 pp) PI4 st;
  st ← final_block size PI_X st;
  Some (mkProtection (bitRate p) (outSize p) (viterbiBlock p) (snd st)).

(** ** Reference: the puncturing sequence of the standard as a list of flags *)
Fixpoint ones_at (c : Z) (flags : list Z) : list Z :=
  match flags with
  | [] => []
  | f :: fs => (if f =? 0 then [] else [c]) ++ ones_at (c + 1) fs
  end.
Definition block128 (pi : list Z) : list Z := pi ++ pi ++ pi ++ pi.
Definition punct_blocks (L : Z) (pi : list Z) : list Z := concat (replicate (Z.to_nat L) (block128 pi)).
Definition count_ones (flags : list Z) : Z := zlen (filter (fun f => f <> 0) flags).

Lemma ones_at_app c a b : ones_at c (a ++ b) = ones_at c a ++ ones_at (c + zlen a) b.
Proof.
  revert c. induction a as [|f a IH]; intros c; simpl.
  - f_equal. unfold zlen. simpl. lia.
  - rewrite IH, <- app_assoc. do 3 f_equal. unfold zlen. simpl. lia.
Qed.

Lemma zlen_ones_at c flags : zlen (ones_at c flags) = count_ones flags.
Proof.
  revert c. induction flags as [|f fs IH]; intros c; [done|]. simpl.
  rewrite zlen_app, IH. unfold count_ones. rewrite filter_cons.
  destruct (Z.eqb_spec f 0) as [->|H].
  - rewrite decide_False by (intros H; by apply H). done.
  - rewrite decide_True by done. unfold zlen. simpl. lia.
Qed.

Lemma ones_at_bounds c flags x : x ∈ ones_at c flags -> c <= x < c + zlen flags.
Proof.
  revert c. induction flags as [|f fs IH]; intros c; simpl; [by intros ?%not_elem_of_nil|].
  rewrite elem_of_app. unfold zlen. simpl. intros [H|H].
  - case_match; [by apply not_elem_of_nil in H|]. apply list_elem_of_singleton in H. lia.
  - apply IH in H. unfold zlen in H. lia.
Qed.

Lemma ones_at_sorted c flags : StronglySorted Z.lt (ones_at c flags).
Proof.
  revert c. induction flags as [|f fs IH]; intros c; simpl; [constructor|].
  case_match; [apply IH|]. constructor; [apply IH|].
  apply Forall_forall. intros x Hx%list_elem_of_In%ones_at_bounds. lia.
Qed.

Lemma count_ones_app a b : count_ones (a ++ b) = count_ones a + count_ones b.
Proof. unfold count_ones. by rewrite list.filter_app, zlen_app. Qed.

Lemma punct_blocks_length L pi : 0 <= L -> zlen pi = 32 -> zlen (punct_blocks L pi) = 128 * L.
Proof.
  intros HL Hpi. unfold punct_blocks. rewrite <- (Z2Nat.id L) at 2 by done.
  induction (Z.to_nat L) as [|k IH]; [done|]. simpl.
  unfold block128 at 1. rewrite !zlen_app, IH. lia.
Qed.

Lemma punct_blocks_count L pi : 0 <= L -> count_ones (punct_blocks L pi) = 4 * count_ones pi * L.
Proof.
  intros HL. unfold punct_blocks. rewrite <- (Z2Nat.id L) at 2 by done.
  induction (Z.to_nat L) as [|k IH]; [simpl; unfold count_ones, zlen; simpl; lia|].
  simpl. unfold block128 at 1. rewrite !count_ones_app, IH. lia.
Qed.

Lemma punct_blocks_succ L pi : 0 <= L -> punct_blocks (L + 1) pi = punct_blocks L pi ++ block128 pi.
Proof.
  intros HL. unfold punct_blocks. replace (Z.to_nat (L + 1)) with (Z.to_nat L + 1)%nat by lia.
  rewrite replicate_add, concat_app. simpl. by rewrite app_nil_r.
Qed.

(** A run of [n] flags read by index. *)
Lemma zforM_addresses size (f : Z -> Z) n c a :
  0 <= n -> c + n <= size ->
  zforM 0 n (fun j st => add_address size (f j) st) (c, a)
  = Some (c + n, a ++ ones_at c (map f (seqZ 0 n))).
Proof.
  intros Hn Hs.
  destruct (zforM_inv (fun i st => st = (c + i, a ++ ones_at c (map f (seqZ 0 i)))) 0 n
    (fun j st => add_address size (f j) st) (c, a)) as (s' & -> & ->); [done|..|done].
  - simpl. by rewrite app_nil_r, Z.add_0_r.
  - intros i s Hi ->. rewrite seqZ_app by lia. rewrite map_app, ones_at_app, Z.add_0_l. unfold add_address.
    rewrite (seqZ_cons i 1) by lia. change (seqZ (Z.succ i) (Z.pred 1)) with (@nil Z). simpl. unfold zlen.
    rewrite length_map, length_seqZ, Z2Nat.id, app_nil_r by lia.
    zcases; try lia; (eexists; split; [done|]); by rewrite ?app_nil_r, Z.add_assoc, ?app_assoc.
Qed.

Lemma block128_flags pi :
  zlen pi = 32 -> map (fun j => rd pi (j mod 32)) (seqZ 0 128) = block128 pi.
Proof.
  unfold zlen. intros H. assert (length pi = 32%nat) as Hl by lia.
  do 32 (destruct pi as [|? pi]; [done|]). destruct pi; [|done]. reflexivity.
Qed.

Lemma extract_spec size L pi c a :
  0 <= c -> 0 <= L -> zlen pi = 32 -> c + 128 * L <= size ->
  eep_extract_viterbi_block_addresses size L (Some pi) (c, a)
  = Some (c + 128 * L, a ++ ones_at c (punct_blocks L pi)).
Proof.
  intros Hc HL Hpi Hs. unfold eep_extract_viterbi_block_addresses. simpl fst. zcases; [lia|].
  set (body := fun (_ : Z) (st : Z * list Z) => _).
  destruct (zforM_inv (fun i st => st = (c + 128 * i, a ++ ones_at c (punct_blocks i pi))) 0 L
    body (c, a)) as (s' & -> & ->); [done|..|done].
  - simpl. rewrite app_nil_r. f_equal. lia.
  - intros i s Hi ->. eexists. split.
    + unfold body. simpl. apply (zforM_addresses _ (fun j => rd pi (j mod 32))); lia.
    + rewrite punct_blocks_succ, ones_at_app, block128_flags, <- app_assoc, punct_blocks_length by lia.
      f_equal. lia.
Qed.

Lemma extract_nil size pi c a :
  0 <= c -> eep_extract_viterbi_block_addresses size 0 pi (c, a) = Some (c, a).
Proof. intros. unfold eep_extract_viterbi_block_addresses. simpl. zcases; [lia|done]. Qed.

(** The puncturing vectors: 32 flags, PI_i has [8 + i] ones. *)
Lemma get_PI_codes_spec i :
  1 <= i <= 24 ->
  exists pi, get_PI_codes i = Some pi /\ zlen pi = 32 /\ count_ones pi = 8 + i.
Proof.
  intros Hi.
  assert (forallb (fun k => match get_PI_codes (k + 1) with
    | Some pi => (zlen pi =? 32) && (count_ones pi =? 8 + (k + 1)) | None => false end) (seqZ 0 24) = true)
    as H by (by vm_compute).
  pose proof (forall_range 24 _ H (i - 1) ltac:(lia)) as H1. cbv beta in H1.
  replace (i - 1 + 1) with i in H1 by lia.
  destruct (get_PI_codes i) as [pi|]; [|done]. zbool. by exists pi.
Qed.

Definition PI_X_flags : list Z := default [] (take 24 <$> get_PI_codes 8).

Lemma final_block_spec size c a :
  0 <= c -> c + 24 <= size ->
  exists pix, get_PI_codes 8 = Some pix /\
  final_block size pix (c, a) = Some (c + 24, a ++ ones_at c PI_X_flags).
Proof.
  intros Hc Hs. eexists. split; [reflexivity|]. unfold final_block.
  rewrite zforM_addresses by lia. done.
Qed.

(** ** The constructors *)
Definition eep_flags (L1 L2 : Z) (pi1 pi2 : list Z) : list Z :=
  punct_blocks L1 pi1 ++ punct_blocks L2 pi2 ++ PI_X_flags.

Lemma eep_build bitRate lvl L1 L2 i1 i2 :
  eep_profile bitRate lvl = Some (L1, L2, i1, i2) ->
  0 <= bitRate -> 0 <= L1 -> 0 <= L2 -> 1 <= i1 <= 24 -> 1 <= i2 <= 24 ->
  128 * (L1 + L2) = 96 * bitRate ->
  exists pi1 pi2, get_PI_codes i1 = Some pi1 /\ get_PI_codes i2 = Some pi2 /\
    EepProtection_new bitRate lvl = Some (mkProtection bitRate (24 * bitRate)
      (zeros (24 * bitRate * 4 + 24)) (ones_at 0 (eep_flags L1 L2 pi1 pi2))) /\
    zlen (eep_flags L1 L2 pi1 pi2) = 96 * bitRate + 24 /\
    count_ones (eep_flags L1 L2 pi1 pi2) = 4 * (8 + i1) * L1 + 4 * (8 + i2) * L2 + 12.
Proof.
  intros Hp Hb H1 H2 Hi1 Hi2 Hs.
  destruct (get_PI_codes_spec i1 Hi1) as (pi1 & E1 & Hl1 & Hc1).
  destruct (get_PI_codes_spec i2 Hi2) as (pi2 & E2 & Hl2 & Hc2).
  exists pi1, pi2. split_and!; [done..| | |].
  - destruct (final_block_spec (24 * bitRate * 4 + 24) (128 * L1 + 128 * L2)
      (ones_at 0 (punct_blocks L1 pi1) ++ ones_at (128 * L1) (punct_blocks L2 pi2)))
      as (pix & Ex & Ef); [lia..|].
    unfold EepProtection_new, Protection_new. cbn [viterbiBlock outSize].
    rewrite zlen_zeros by lia. bind Hp. bind E1. bind E2. bind Ex.
    rewrite extract_spec by lia. cbn [mbind option_bind].
    rewrite extract_spec by lia. cbn [mbind option_bind].
    rewrite !Z.add_0_l, app_nil_l. bind Ef. cbn [snd]. unfold eep_flags.
    by rewrite !ones_at_app, !punct_blocks_length, <- app_assoc by lia.
  - unfold eep_flags. rewrite !zlen_app, !punct_blocks_length by lia.
    change (zlen PI_X_flags) with 24. lia.
  - unfold eep_flags. rewrite !count_ones_app, !punct_blocks_count, Hc1, Hc2 by lia.
    change (count_ones PI_X_flags) with 12. lia.
Qed.

(** Capacity units of a sub-channel: profile A uses 12, 8, 6 or 4 per
    8 kbit/s, profile B 27, 21, 18 or 15 per 32 kbit/s. *)
Definition eep_cu (bitRate lvl : Z) : Z :=
  if lvl <? 4 then
    (if lvl =? 0 then 12 else if lvl =? 1 then 8 else if lvl =? 2 then 6 else 4) * (bitRate / 8)
  else
    (if lvl =? 4 then 27 else if lvl =? 5 then 21 else if lvl =? 6 then 18 else 15) * (bitRate / 32).

(** An address list is sound for a block: strictly increasing positions, all
    inside. *)
Definition addresses_ok (p : Protection) : Prop :=
  StronglySorted Z.lt (viterbiBlockAddresses p) /\
  Forall (fun a => 0 <= a < zlen (viterbiBlock p)) (viterbiBlockAddresses p).

Lemma ones_at_ok br os flags n :
  0 <= n -> zlen flags <= n -> addresses_ok (mkProtection br os (zeros n) (ones_at 0 flags)).
Proof.
  intros Hn Hl. split; [apply ones_at_sorted|]. simpl.
  apply Forall_forall. intros x Hx%list_elem_of_In%ones_at_bounds. rewrite zlen_zeros; lia.
Qed.

Lemma eep_profile_cases bitRate lvl :
  8 <= bitRate -> (0 <= lvl < 4 /\ bitRate mod 8 = 0) \/ (4 <= lvl < 8 /\ bitRate mod 32 = 0) ->
  exists L1 L2 i1 i2, eep_profile bitRate lvl = Some (L1, L2, i1, i2) /\
    0 <= L1 /\ 0 <= L2 /\ 1 <= i1 <= 24 /\ 1 <= i2 <= 24 /\ 128 * (L1 + L2) = 96 * bitRate /\
    4 * (8 + i1) * L1 + 4 * (8 + i2) * L2 + 12 = 64 * eep_cu bitRate lvl.
Proof.
  intros Hb [[Hl Hm]|[Hl Hm]]; unfold eep_profile, eep_cu;
    rewrite !Z.quot_div_nonneg, !Z.rem_mod_nonneg by lia; rewrite Hm.
  - assert (bitRate = 8 * (bitRate / 8)) as E by (Z.to_euclidean_division_equations; lia).
    set (n := bitRate / 8) in *.
    assert (lvl = 0 \/ lvl = 1 \/ lvl = 2 \/ lvl = 3) as [->|[->|[->| ->]]] by lia; cbn -[Z.mul Z.add Z.sub];
      try (destruct (Z.eqb_spec n 1)); do 4 eexists; (split; [reflexivity|]); lia.
  - assert (bitRate = 32 * (bitRate / 32)) as E by (Z.to_euclidean_division_equations; lia).
    set (n := bitRate / 32) in *.
    assert (lvl = 4 \/ lvl = 5 \/ lvl = 6 \/ lvl = 7) as [->|[->|[->| ->]]] by lia; cbn -[Z.mul Z.add Z.sub];
      do 4 eexists; (split; [reflexivity|]); lia.
Qed.

Definition eep_valid (bitRate lvl : Z) : Prop :=
  8 <= bitRate /\ (0 <= lvl < 4 /\ bitRate mod 8 = 0 \/ 4 <= lvl < 8 /\ bitRate mod 32 = 0).

Lemma eep_entry_build bitRate lvl :
  eep_valid bitRate lvl ->
  exists p, EepProtection_new bitRate lvl = Some p /\ addresses_ok p /\
    zlen (viterbiBlock p) = 4 * outSize p + 24 /\
    zlen (viterbiBlockAddresses p) = 64 * eep_cu bitRate lvl.
Proof.
  intros [Hb Hl]. destruct (eep_profile_cases bitRate lvl Hb Hl)
    as (L1 & L2 & i1 & i2 & Hp & H1 & H2 & Hi1 & Hi2 & Hs & Hc).
  destruct (eep_build bitRate lvl L1 L2 i1 i2 Hp) as (pi1 & pi2 & _ & _ & -> & Hlen & Hcnt); [lia..|].
  eexists. split; [reflexivity|]. split_and!.
  - apply ones_at_ok; lia.
  - simpl. rewrite zlen_zeros; lia.
  - simpl. rewrite zlen_ones_at. lia.
Qed.

(** C37: for every bit rate that the profile admits (a multiple of 8 kbit/s for
    A, of 32 kbit/s for B) the EEP constructor passes all its assertions, the
    addresses it collects are strictly increasing positions of the Viterbi
    block, and their number is exactly the number of bits of the sub-channel
    (64 per capacity unit of the standard's table). *)
Theorem eep_protection_correct (bitRate lvl : Z) :
  eep_valid bitRate lvl ->
  exists p, EepProtection_new bitRate lvl = Some p /\ addresses_ok p /\
    zlen (viterbiBlock p) = 4 * outSize p + 24 /\
    zlen (viterbiBlockAddresses p) = 64 * eep_cu bitRate lvl.
Proof. apply eep_entry_build. Qed.

Lemma eep_protection_correct_witness :
  exists p, EepProtection_new 64 2 = Some p /\ addresses_ok p /\
    zlen (viterbiBlock p) = 4 * outSize p + 24 /\ zlen (viterbiBlockAddresses p) = 64 * eep_cu 64 2.
Proof. apply (eep_protection_correct 64 2). split; [lia|]. left. split; [lia|reflexivity]. Defined.

(** ** UEP *)
Definition uep_flags (pp : SProtectionProfile) (pi1 pi2 pi3 pi4 : list Z) : list Z :=
  punct_blocks (pL1 pp) pi1 ++ punct_blocks (pL2 pp) pi2 ++ punct_blocks (pL3 pp) pi3 ++
  punct_blocks (pL4 pp) pi4 ++ PI_X_flags.

Definition uep_bits (pp : SProtectionProfile) : Z :=
  4 * ((8 + pPI1 pp) * pL1 pp + (8 + pPI2 pp) * pL2 pp + (8 + pPI3 pp) * pL3 pp +
       (8 + pPI4 pp) * pL4 pp) + 12.

Definition pi_codeb (i : Z) : bool := (1 <=? i) && (i <=? 24).

(** What a row of the table must satisfy for the constructor to succeed. *)
Definition uep_row_ok (bitRate : Z) (pp : SProtectionProfile) : bool :=
  (0 <=? pL1 pp) && (0 <=? pL2 pp) && (0 <=? pL3 pp) && (0 <=? pL4 pp) &&
  pi_codeb (pPI1 pp) && pi_codeb (pPI2 pp) && pi_codeb (pPI3 pp) &&
  (pi_codeb (pPI4 pp) || (pPI4 pp =? -1) && (pL4 pp =? 0)) &&
  (128 * (pL1 pp + pL2 pp + pL3 pp + pL4 pp) =? 96 * bitRate).

Lemma extract_seg size L i pi c a :
  get_PI_codes i = Some pi -> pi_codeb i = true -> 0 <= c -> 0 <= L -> c + 128 * L <= size ->
  uep_extract_viterbi_block_addresses size L (Some pi) (c, a)
    = Some (c + 128 * L, a ++ ones_at c (punct_blocks L pi)) /\
  zlen (punct_blocks L pi) = 128 * L /\ count_ones (punct_blocks L pi) = 4 * (8 + i) * L.
Proof.
  unfold pi_codeb. intros Hg Hi Hc HL Hs. zbool.
  destruct (get_PI_codes_spec i ltac:(lia)) as (pi' & E & Hl & Hn).
  rewrite Hg in E. injection E as <-. split_and!.
  - by apply extract_spec.
  - by apply punct_blocks_length.
  - by rewrite punct_blocks_count, Hn.
Qed.

(** The fourth segment, whose puncturing vector may be the null pointer. *)
Lemma extract_seg4 size L i c a :
  pi_codeb i || (i =? -1) && (L =? 0) = true -> 0 <= c -> 0 <= L -> c + 128 * L <= size ->
  exists PI4 pi4, (if i =? -1 then Some None else Some <$> get_PI_codes i) = Some PI4 /\
    uep_extract_viterbi_block_addresses size L PI4 (c, a)
      = Some (c + 128 * L, a ++ ones_at c (punct_blocks L pi4)) /\
    zlen (punct_blocks L pi4) = 128 * L /\ count_ones (punct_blocks L pi4) = 4 * (8 + i) * L /\
    pi4 = default [] (get_PI_codes i).
Proof.
  intros Hi Hc HL Hs. destruct (pi_codeb i) eqn:Ei.
  - pose proof Ei as Ei'. unfold pi_codeb in Ei'. zbool.
    destruct (get_PI_codes_spec i ltac:(lia)) as (pi & E & _ & _). rewrite E.
    destruct (Z.eqb_spec i (-1)); [lia|]. exists (Some pi), pi. split; [done|].
    destruct (extract_seg size L i pi c a E Ei Hc HL Hs) as (? & ? & ?). by split_and!.
  - simpl in Hi. zbool. subst. exists None, []. split; [done|].
    unfold uep_extract_viterbi_block_addresses. rewrite extract_nil by done. split_and!; [|done..].
    simpl. by rewrite app_nil_r, Z.add_0_r.
Qed.

Lemma uep_build br lvl pp :
  0 <= br -> uep_row br lvl = Some pp -> uep_row_ok br pp = true ->
  exists pi1 pi2 pi3 pi4,
    UepProtection_new br lvl = Some (mkProtection br (24 * br) (zeros (24 * br * 4 + 24))
      (ones_at 0 (uep_flags pp pi1 pi2 pi3 pi4))) /\
    zlen (uep_flags pp pi1 pi2 pi3 pi4) = 96 * br + 24 /\
    count_ones (uep_flags pp pi1 pi2 pi3 pi4) = uep_bits pp /\
    get_PI_codes (pPI1 pp) = Some pi1 /\ get_PI_codes (pPI2 pp) = Some pi2 /\
    get_PI_codes (pPI3 pp) = Some pi3 /\ pi4 = default [] (get_PI_codes (pPI4 pp)).
Proof.
  intros Hbr Hrow Hok. unfold uep_row_ok in Hok. zbool.
  set (size := 24 * br * 4 + 24).
  destruct (get_PI_codes_spec (pPI1 pp)) as (pi1 & E1 & _); [unfold pi_codeb in *; zbool; lia|].
  destruct (get_PI_codes_spec (pPI2 pp)) as (pi2 & E2 & _); [unfold pi_codeb in *; zbool; lia|].
  destruct (get_PI_codes_spec (pPI3 pp)) as (pi3 & E3 & _); [unfold pi_codeb in *; zbool; lia|].
  destruct (extract_seg size (pL1 pp) _ pi1 0 [] E1) as (X1 & Z1 & C1); [done|lia..|].
  set (c1 := 0 + 128 * pL1 pp) in *. set (a1 := [] ++ ones_at 0 (punct_blocks (pL1 pp) pi1)) in *.
  destruct (extract_seg size (pL2 pp) _ pi2 c1 a1 E2) as (X2 & Z2 & C2); [done|lia..|].
  set (c2 := c1 + 128 * pL2 pp) in *. set (a2 := a1 ++ _) in *.
  destruct (extract_seg size (pL3 pp) _ pi3 c2 a2 E3) as (X3 & Z3 & C3); [done|lia..|].
  set (c3 := c2 + 128 * pL3 pp) in *. set (a3 := a2 ++ _) in *.
  destruct (extract_seg4 size (pL4 pp) (pPI4 pp) c3 a3) as (PI4 & pi4 & E4 & X4 & Z4 & C4 & D4); [done|lia..|].
  set (c4 := c3 + 128 * pL4 pp) in *. set (a4 := a3 ++ _) in *.
  destruct (final_block_spec size c4 a4) as (pix & Ex & Xf); [lia..|].
  exists pi1, pi2, pi3, pi4. split_and!; [..|done|done|done|done].
  - unfold UepProtection_new, Protection_new. cbn [viterbiBlock outSize bitRate].
    rewrite zlen_zeros by lia. fold size.
    bind Hrow. bind E1. bind E2. bind E3. bind E4. bind Ex.
    bind X1. bind X2. bind X3. bind X4. bind Xf. cbn [snd]. subst a4 a3 a2 a1 c4 c3 c2 c1.
    unfold uep_flags. rewrite !ones_at_app, Z1, Z2, Z3, Z4, <- !app_assoc. done.
  - unfold uep_flags. rewrite !zlen_app, Z1, Z2, Z3, Z4. change (zlen PI_X_flags) with 24. lia.
  - unfold uep_flags, uep_bits. rewrite !count_ones_app, C1, C2, C3, C4.
    change (count_ones PI_X_flags) with 12. lia.
Qed.

Definition uep_entry_ok (e : SProtLevel) : bool :=
  match uep_row (tBitRate e) (ProtLevel e) with
  | Some pp =>
      (pBitRate pp =? tBitRate e) && (pProtLevel pp =? ProtLevel e) && (0 <=? tBitRate e) &&
      uep_row_ok (tBitRate e) pp &&
      (if (tBitRate e =? 80) && (ProtLevel e =? 1) then 64 * CUSize e - uep_bits pp =? 404
       else existsb (Z.eqb (64 * CUSize e - uep_bits pp)) [0; 4; 8])
  | None => false
  end.

Lemma uep_table_ok : forallb uep_entry_ok cProtLevelTable = true.
Proof. by vm_compute. Qed.

Lemma uep_entry_build e :
  In e cProtLevelTable -> exists p pp,
    uep_row (tBitRate e) (ProtLevel e) = Some pp /\
    UepProtection_new (tBitRate e) (ProtLevel e) = Some p /\ addresses_ok p /\
    zlen (viterbiBlock p) = 4 * outSize p + 24 /\
    zlen (viterbiBlockAddresses p) = uep_bits pp /\
    (if (tBitRate e =? 80) && (ProtLevel e =? 1) then 64 * CUSize e - uep_bits pp =? 404
     else existsb (Z.eqb (64 * CUSize e - uep_bits pp)) [0; 4; 8]) = true.
Proof.
  intros He. pose proof uep_table_ok as H. rewrite forallb_forall in H. specialize (H e He).
  unfold uep_entry_ok in H. destruct (uep_row _ _) as [pp|] eqn:Er; [|done].
  apply andb_true_iff in H as [H Hsize]. zbool.
  destruct (uep_build (tBitRate e) (ProtLevel e) pp) as (pi1 & pi2 & pi3 & pi4 & Hn & Hl & Hc & _); [done..|].
  eexists _, pp. split; [done|]. split; [exact Hn|]. split_and!; [..|done].
  - apply ones_at_ok; lia.
  - simpl. rewrite zlen_zeros; lia.
  - simpl. by rewrite zlen_ones_at.
Qed.

(** C38: for every sub-channel description of the FIG 0/1 short-form table,
    except 80 kbit/s at level 1, the UEP constructor passes its assertions,
    collects strictly increasing addresses inside the Viterbi block, and uses
    all bits of the sub-channel up to the 0, 4 or 8 padding bits of the
    standard. *)
Theorem uep_protection_correct (e : SProtLevel) :
  In e cProtLevelTable -> (tBitRate e, ProtLevel e) <> (80, 1) ->
  exists p pad, UepProtection_new (tBitRate e) (ProtLevel e) = Some p /\ addresses_ok p /\
    zlen (viterbiBlock p) = 4 * outSize p + 24 /\ In pad [0; 4; 8] /\
    zlen (viterbiBlockAddresses p) + pad = 64 * CUSize e.
Proof.
  intros He Hne. destruct (uep_entry_build e He) as (p & pp & _ & Hn & Ha & Hb & Hl & Hs).
  exists p, (64 * CUSize e - uep_bits pp). split_and!; [done..| |lia].
  destruct ((tBitRate e =? 80) && (ProtLevel e =? 1)) eqn:E.
  - zbool. destruct Hne. congruence.
  - apply existsb_exists in Hs as (x & Hx & Heq). zbool. by subst.
Qed.

Lemma uep_protection_correct_witness :
  exists p pad, UepProtection_new 32 5 = Some p /\ addresses_ok p /\
    zlen (viterbiBlock p) = 4 * outSize p + 24 /\ In pad [0; 4; 8] /\
    zlen (viterbiBlockAddresses p) + pad = 64 * 16.
Proof. apply (uep_protection_correct (mkProtLevel 16 5 32)); [by left|simpl; discriminate]. Defined.

(** The profile row { 80, 1, 6, 10, 41, 3, 24, 7, 12, 18 } leaves 404 of
    the 5376 bits of its 84 capacity units unused, so a sub-channel of
    80 kbit/s at level 1 is depunctured with the wrong pattern; with PI2 = 17
    instead of 7 the row fits like all the others. *)
Theorem uep_80_1_short :
  (exists p, UepProtection_new 80 1 = Some p /\ zlen (viterbiBlockAddresses p) + 404 = 64 * 84) /\
  In (mkProtLevel 84 1 80) cProtLevelTable /\
  uep_bits (mkProfile 80 1 6 10 41 3 24 17 12 18) + 4 = 64 * 84.
Proof.
  assert (In (mkProtLevel 84 1 80) cProtLevelTable) as He by (do 23 right; by left).
  split; [|by split].
  destruct (uep_entry_build _ He) as (p & pp & _ & Hn & _ & _ & Hl & Hs).
  exists p. split; [done|]. cbn [tBitRate ProtLevel CUSize] in Hs. simpl in Hs. zbool. lia.
Qed.

(** ** Depuncturing *)
Lemma sorted_rd_lt l i j :
  StronglySorted Z.lt l -> 0 <= i < j -> j < zlen l -> rd l i < rd l j.
Proof.
  intros H. revert i j. induction H as [|x l Hs IH Hx]; intros i j Hi Hj.
  - unfold zlen in Hj. simpl in Hj. lia.
  - assert (zlen (x :: l) = zlen l + 1) as Hl by (unfold zlen; simpl; lia).
    rewrite (rd_cons x l j) by lia. destruct (Z.eq_dec i 0) as [->|].
    + rewrite Forall_forall in Hx. apply Hx. rewrite rd_nth by lia. apply nth_In. unfold zlen in *. lia.
    + rewrite rd_cons by lia. apply IH; lia.
Qed.

Lemma depuncture_spec addrs iV block :
  StronglySorted Z.lt addrs -> Forall (fun a => 0 <= a < zlen block) addrs ->
  zlen (depuncture addrs iV block) = zlen block /\
  (forall k, 0 <= k < zlen addrs -> rd (depuncture addrs iV block) (rd addrs k) = rd iV k) /\
  (forall a, ~ In a addrs -> rd (depuncture addrs iV block) a = rd block a).
Proof.
  intros Hs Hr. unfold depuncture.
  assert (forall k, 0 <= k < zlen addrs -> In (rd addrs k) addrs) as Hin.
  { intros k Hk. rewrite rd_nth by lia. apply nth_In. unfold zlen in *. lia. }
  pose proof (zlen_nonneg addrs) as Hn.
  apply (zfor_inv (fun n b => zlen b = zlen block /\
    (forall k, 0 <= k < n -> rd b (rd addrs k) = rd iV k) /\
    (forall a, ~ In a addrs -> rd b a = rd block a))); [done|split_and!; [done|lia|done]|].
  intros i b Hi (Hl & Hk & Ha). rewrite Forall_forall in Hr.
  pose proof (Hr _ (Hin i ltac:(lia))). split_and!.
  - by rewrite zlen_wr.
  - intros k Hk'. destruct (Z.eq_dec k i) as [->|].
    + apply rd_wr_eq. lia.
    + pose proof (sorted_rd_lt addrs k i Hs ltac:(lia) ltac:(lia)). rewrite rd_wr_ne by lia. apply Hk. lia.
  - intros a Hna. rewrite rd_wr_ne; [by apply Ha|]. intros <-. apply Hna, Hin. lia.
Qed.

(** Two states of a protection object that differ at most in the received
    positions of the block. *)
Definition prot_equiv (p q : Protection) : Prop :=
  bitRate p = bitRate q /\ outSize p = outSize q /\
  viterbiBlockAddresses p = viterbiBlockAddresses q /\ zlen (viterbiBlock p) = zlen (viterbiBlock q) /\
  forall a, ~ In a (viterbiBlockAddresses p) -> rd (viterbiBlock p) a = rd (viterbiBlock q) a.

#[export] Instance prot_equiv_equiv : Equivalence prot_equiv.
Proof.
  split.
  - done.
  - intros p q (E1 & E2 & E3 & E4 & H). split_and!; try congruence.
    intros a Ha. rewrite H; [done|congruence].
  - intros p q r (E1 & E2 & E3 & E4 & H) (F1 & F2 & F3 & F4 & G). split_and!; try congruence.
    intros a Ha. rewrite H by done. apply G. congruence.
Qed.

Lemma addresses_ok_equiv p q : prot_equiv p q -> addresses_ok p -> addresses_ok q.
Proof. intros (_ & _ & E & El & _) [Hs Hr]. unfold addresses_ok. by rewrite <- E, <- El. Qed.

Lemma deconvolve_equiv_self viterbi p iV :
  addresses_ok p -> prot_equiv (fst (deconvolve viterbi p iV)) p.
Proof.
  intros [Hs Hr]. destruct (depuncture_spec _ iV _ Hs Hr) as (Hl & _ & Ha). by split_and!.
Qed.

(** Equivalent objects decode alike. *)
Lemma deconvolve_equiv viterbi p q iV :
  prot_equiv p q -> addresses_ok p -> deconvolve viterbi p iV = deconvolve viterbi q iV.
Proof.
  intros (Eb & Eo & Ea & El & Hb) [Hs Hr]. unfold deconvolve.
  assert (depuncture (viterbiBlockAddresses p) iV (viterbiBlock p) =
    depuncture (viterbiBlockAddresses q) iV (viterbiBlock q)) as ->; [|by rewrite Eb, Eo, Ea].
  destruct (depuncture_spec _ iV _ Hs Hr) as (Hl1 & Hk1 & Ha1).
  rewrite <- Ea. set (addrs := viterbiBlockAddresses p) in *.
  destruct (depuncture_spec addrs iV (viterbiBlock q) Hs) as (Hl2 & Hk2 & Ha2); [by rewrite <- El|].
  apply list_eq_rd; [lia|]. intros i Hi.
  destruct (in_dec Z.eq_dec i addrs) as [Hin|Hin].
  - destruct (In_rd_exists _ _ Hin) as (k & Hk & <-). by rewrite Hk1, Hk2.
  - by rewrite Ha1, Ha2, Hb.
Qed.

(** Depuncturing puts the k-th received value at the k-th address and
    leaves the punctured positions alone, and it leaves no trace of the
    previous frame: a second call of [deconvolve] gives the same output and
    state as a call on the fresh object, whatever the Viterbi decoder is. *)
Theorem deconvolve_stateless (viterbi : Z -> list Z -> list Z) (p : Protection) (iV1 iV2 : list Z) :
  addresses_ok p ->
  (forall k, 0 <= k < zlen (viterbiBlockAddresses p) ->
     rd (viterbiBlock (fst (deconvolve viterbi p iV1))) (rd (viterbiBlockAddresses p) k) = rd iV1 k) /\
  (forall a, ~ In a (viterbiBlockAddresses p) ->
     rd (viterbiBlock (fst (deconvolve viterbi p iV1))) a = rd (viterbiBlock p) a) /\
  deconvolve viterbi (fst (deconvolve viterbi p iV1)) iV2 = deconvolve viterbi p iV2.
Proof.
  intros Hp. pose proof (deconvolve_equiv_self viterbi p iV1 Hp) as He.
  pose proof Hp as [Hs Hr]. destruct (depuncture_spec _ iV1 _ Hs Hr) as (Hl1 & Hk1 & Ha1).
  split_and!; [exact Hk1|exact Ha1|].
  apply deconvolve_equiv; [done|]. apply (addresses_ok_equiv p); [by symmetry|done].
Qed.

Lemma deconvolve_stateless_witness :
  let p := mkProtection 1 1 (zeros 4) [0; 2] in
  (forall k, 0 <= k < 2 ->
     rd (viterbiBlock (fst (deconvolve (fun _ b => b) p [5; 6]))) (rd [0; 2] k) = rd [5; 6] k) /\
  (forall a, ~ In a [0; 2] -> rd (viterbiBlock (fst (deconvolve (fun _ b => b) p [5; 6]))) a = rd (zeros 4) a) /\
  deconvolve (fun _ b => b) (fst (deconvolve (fun _ b => b) p [5; 6])) [7; 8]
    = deconvolve (fun _ b => b) p [7; 8].
Proof.
  apply (deconvolve_stateless (fun _ b => b) (mkProtection 1 1 (zeros 4) [0; 2]) [5; 6] [7; 8]).
  split; simpl.
  - repeat constructor.
  - repeat constructor; vm_compute; congruence.
Defined.
