(* ===== verification/Backend.v ===== *)
(** * MSC backend: time de-interleaving, decoding and energy dispersal

    src/src/base/backend/backend.cpp and backend_deconvolver.cpp.  A backend
    serves one sub-channel: [process] takes the soft bits of one CIF, the
    de-interleaver spreads them over sixteen rows, and from the 17th call on a
    logical frame is depunctured, Viterbi-decoded, descrambled and handed to the
    driver.  [_process_segment] returns the frame given to
    [driver.add_to_frame], if any.  The build without [__THREADED_BACKEND__]
    (the default of CMakeLists.txt) is modelled.

    Theorems: the de-interleaver inverts the time interleaving of the standard,
    so the frames delivered are exactly the decoded transmitted frames in
    order and complete; the dispersal sequence is the x^9 + x^5 + 1
    pseudo-random sequence and applying it twice is the identity. *)
From S2P Require Import Prelude Viterbi Protection.
Open Scope Z_scope.

(** ** Data *)
Record SDescriptorType := mkDescriptor {
  dSId : Z; dCuStartAddr : Z; dCuSize : Z; dShortForm : bool;
  dProtLevel : Z; dBitRate : Z; dSubChId : Z
}.

Record Backend := mkBackend {
  desc : SDescriptorType;
  deconvolver : Protection;
  fragmentSize : Z;
  interleaveData : list (list Z);
  tempX : list Z;
  countforInterleaver : Z;
  interleaverIndex : Z;
  disperseVector : list Z
}.

Definition cCuSizeBits : Z := 64.
Definition interleaveMap : list Z := [0; 8; 4; 12; 2; 10; 6; 14; 1; 9; 5; 13; 3; 11; 7; 15].

(** ** backend_deconvolver.cpp *)
Definition BackendDeconvolver_new (d : SDescriptorType) : option Protection :=
  if dShortForm d then UepProtection_new (dBitRate d) (dProtLevel d)
  else EepProtection_new (dBitRate d) (dProtLevel d).

(** The inherited Viterbi decoder; its static buffers have no influence
    ([Viterbi.viterbi_stateless]), so they are taken as zero. *)
Definition viterbi_frame (F : Z) (block : list Z) : list Z :=
  viterbi_deconvolve F (zeros 64) (zeros 64) block (zeros F).

Definition backend_deconvolve (p : Protection) (rawBits : list Z) : Protection * list Z :=
  deconvolve viterbi_frame p rawBits.

(** ** backend.cpp: constructor *)
Definition disperse_step (i : Z) (st : list Z * list Z) : list Z * list Z :=
  let '(shiftRegister, v) := st in
  let b := Z.lxor (rd shiftRegister 8) (rd shiftRegister 4) in
  let shiftRegister := zdownto 8 1 (fun j sr => wr sr j (rd sr (j - 1))) shiftRegister in
  (wr shiftRegister 0 b, wr v i b).

Definition make_disperse (bitRate : Z) : list Z :=
  snd (zfor 0 (bitRate * 24) disperse_step (replicate 9 1, zeros (24 * bitRate))).

Definition Backend_new (d : SDescriptorType) : option Backend :=
  p ← BackendDeconvolver_new d;
  let fragmentSize := dCuSize d * cCuSizeBits in
  Some (mkBackend d p fragmentSize (replicate 16 (zeros fragmentSize)) (zeros fragmentSize) 0 0
          (make_disperse (dBitRate d))).

(** ** backend.cpp: one CIF *)
Definition deinterleave_step (index : Z) (iData : list Z) (i : Z) (st : list Z * list (list Z))
  : list Z * list (list Z) :=
  let '(tempX, data) := st in
  let row := Z.land (index + rd interleaveMap (Z.land i 0x0F)) 0x0F in
  (wr tempX i (rd2 data row i), wr2 data index i (rd iData i)).

Definition disperse (v out : list Z) (n : Z) : list Z :=
  zfor 0 n (fun i out => wr out i (Z.lxor (rd out i) (rd v i))) out.

Definition process_segment (b : Backend) (iData : list Z) : Backend * option (list Z) :=
  let '(tempX, data) :=
    zfor 0 (fragmentSize b) (deinterleave_step (interleaverIndex b) iData) (tempX b, interleaveData b) in
  let index := Z.land (interleaverIndex b + 1) 0x0F in
  if countforInterleaver b <=? 15 then
    (mkBackend (desc b) (deconvolver b) (fragmentSize b) data tempX (countforInterleaver b + 1) index
       (disperseVector b), None)
  else
    let '(p, outV) := backend_deconvolve (deconvolver b) tempX in
    let outV := disperse (disperseVector b) outV (dBitRate (desc b) * 24) in
    (mkBackend (desc b) p (fragmentSize b) data tempX (countforInterleaver b) index (disperseVector b),
     Some outV).

Definition process (b : Backend) (iV : list Z) : Backend * option (list Z) := process_segment b iV.

(** A run of calls, with the frames handed to the driver. *)
Fixpoint run (b : Backend) (inputs : list (list Z)) : list (list Z) :=
  match inputs with
  | [] => []
  | x :: xs => let '(b, out) := process b x in option_list out ++ run b xs
  end.

(** ** Reference *)

(** Time interleaving of the standard: bit [i] of frame [r] is sent in CIF
    [r + delay (i mod 16)], the four bits of [i mod 16] in reverse order later. *)
Definition delay (k : Z) : Z := 8 * (k mod 2) + 4 * (k / 2 mod 2) + 2 * (k / 4 mod 2) + k / 8 mod 2.
Definition interleave (frames : Z -> list Z) (n t : Z) : list Z :=
  map (fun i => rd (frames (t - delay (i mod 16))) i) (seqZ 0 n).

(** The pseudo-random sequence, [n] bits: each bit is the sum of those nine
    and five places earlier, all ones before the start; the history is kept
    newest first. *)
Fixpoint prbs (n : nat) (hist : list Z) : list Z :=
  match n with
  | O => []
  | S n => let b := Z.lxor (rd hist 8) (rd hist 4) in b :: prbs n (b :: hist)
  end.

(** ** The two-dimensional buffer *)
Definition wf_data (n : Z) (data : list (list Z)) : Prop :=
  length data = 16%nat /\ Forall (fun row => zlen row = n) data.

Lemma wf_row n data r : wf_data n data -> 0 <= r < 16 -> zlen (nth (Z.to_nat r) data []) = n.
Proof.
  intros [Hl Hf] Hr. rewrite Forall_forall in Hf. apply Hf, nth_In. lia.
Qed.

Lemma wf_wr2 n data r c v : wf_data n data -> 0 <= r < 16 -> wf_data n (wr2 data r c v).
Proof.
  intros Hwf Hr. pose proof (wf_row n data r Hwf Hr) as Hrow. destruct Hwf as [Hl Hf].
  unfold wr2, wr at 1. destruct (Z.ltb_spec r 0); [lia|]. split; [by rewrite length_insert|].
  apply Forall_insert; [done|]. by rewrite zlen_wr.
Qed.

Lemma rd2_wr2 n data r c v r' c' :
  wf_data n data -> 0 <= r < 16 -> 0 <= r' < 16 -> 0 <= c < n -> 0 <= c' ->
  rd2 (wr2 data r c v) r' c' = if (r' =? r) && (c' =? c) then v else rd2 data r' c'.
Proof.
  intros Hwf Hr Hr' Hc Hc'. pose proof (wf_row n data r Hwf Hr) as Hrow. destruct Hwf as [Hl Hf].
  unfold rd2, wr2, wr at 1. destruct (Z.ltb_spec r 0); [lia|]. rewrite nth_lookup.
  destruct (Z.eqb_spec r' r) as [->|Hne].
  - rewrite list_lookup_insert_eq by lia. simpl.
    destruct (Z.eqb_spec c' c) as [->|]; [by rewrite rd_wr_eq by lia|by rewrite rd_wr_ne by lia].
  - rewrite list_lookup_insert_ne, <- nth_lookup by lia. done.
Qed.

Lemma interleaveMap_range k : 0 <= rd interleaveMap k < 16.
Proof. apply (rd_Forall (fun z => 0 <= z < 16)); [lia|]. repeat constructor; done. Qed.

Lemma interleaveMap_delay k : 0 <= k < 16 -> rd interleaveMap k = delay k.
Proof.
  intros Hk. assert (forallb (fun k => rd interleaveMap k =? delay k) (seqZ 0 16) = true) as H by (by vm_compute).
  pose proof (forall_range 16 _ H k Hk) as E. cbv beta in E. lia.
Qed.

Lemma land15 x : Z.land x 0x0F = x mod 16.
Proof. change 0x0F with (Z.ones 4). by rewrite Z.land_ones by lia. Qed.

Lemma deinterleave_loop n index iData tx data :
  0 <= n -> wf_data n data -> zlen tx = n -> 0 <= index < 16 ->
  let '(tx', data') := zfor 0 n (deinterleave_step index iData) (tx, data) in
  zlen tx' = n /\ wf_data n data' /\
  (forall i, 0 <= i < n -> rd tx' i = rd2 data ((index + rd interleaveMap (i mod 16)) mod 16) i) /\
  (forall r c, 0 <= r < 16 -> 0 <= c ->
     rd2 data' r c = if (r =? index) && (c <? n) then rd iData c else rd2 data r c).
Proof.
  intros Hn Hwf Htx Hi.
  apply (zfor_inv (fun k '(tx', data') => zlen tx' = n /\ wf_data n data' /\
    (forall i, 0 <= i < k -> rd tx' i = rd2 data ((index + rd interleaveMap (i mod 16)) mod 16) i) /\
    (forall r c, 0 <= r < 16 -> 0 <= c ->
       rd2 data' r c = if (r =? index) && (c <? k) then rd iData c else rd2 data r c))); [done|..].
  - split_and!; [done..|lia|]. intros r c Hr Hc. destruct (Z.ltb_spec c 0); [lia|]. by rewrite andb_false_r.
  - intros i [tx' data'] Hik (Ht & Hd & Hx & Hr). unfold deinterleave_step. rewrite !land15.
    set (row := (index + rd interleaveMap (i mod 16)) mod 16).
    assert (0 <= row < 16) as Hrow by (apply Z.mod_pos_bound; lia).
    split_and!; [by rewrite zlen_wr|by apply wf_wr2|..].
    + intros j Hj. destruct (Z.eq_dec j i) as [->|].
      * rewrite rd_wr_eq, Hr by lia. destruct (Z.ltb_spec i i); [lia|]. by rewrite andb_false_r.
      * rewrite rd_wr_ne by done. apply Hx. lia.
    + intros r c Hr' Hc. rewrite (rd2_wr2 n) by (done || lia). rewrite Hr by done.
      destruct (Z.eqb_spec r index), (Z.eqb_spec c i), (Z.ltb_spec c i), (Z.ltb_spec c (i + 1));
        simpl; subst; done || lia.
Qed.

(** ** The running invariant: after [t] calls, row [r] holds the newest CIF
    whose number is [r] modulo 16; CIFs before the start are zero. *)
Definition cif (inputs : Z -> list Z) (t i : Z) : Z := if t <? 0 then 0 else rd (inputs t) i.

Record backend_inv (b0 : Backend) (inputs : Z -> list Z) (t : Z) (b : Backend) : Prop := {
  inv_desc : desc b = desc b0;
  inv_frag : fragmentSize b = fragmentSize b0;
  inv_disp : disperseVector b = disperseVector b0;
  inv_prot : prot_equiv (deconvolver b) (deconvolver b0);
  inv_temp : zlen (tempX b) = fragmentSize b0;
  inv_wf : wf_data (fragmentSize b0) (interleaveData b);
  inv_count : countforInterleaver b = Z.min t 16;
  inv_index : interleaverIndex b = t mod 16;
  inv_rows : forall r c, 0 <= r < 16 -> 0 <= c < fragmentSize b0 ->
    rd2 (interleaveData b) r c = cif inputs (t - 16 + (r - t) mod 16) c
}.

(** The frame assembled by call [t]. *)
Definition assembled (inputs : Z -> list Z) (n t : Z) : list Z :=
  map (fun i => cif inputs (t - 16 + rd interleaveMap (i mod 16)) i) (seqZ 0 n).

Definition decoded (b0 : Backend) (frame : list Z) : list Z :=
  disperse (disperseVector b0) (snd (backend_deconvolve (deconvolver b0) frame)) (dBitRate (desc b0) * 24).

Lemma process_inv b0 inputs t b :
  0 <= t -> 0 <= fragmentSize b0 -> addresses_ok (deconvolver b0) -> backend_inv b0 inputs t b ->
  let '(b', out) := process b (inputs t) in
  backend_inv b0 inputs (t + 1) b' /\
  out = if t <? 16 then None else Some (decoded b0 (assembled inputs (fragmentSize b0) t)).
Proof.
  intros Ht Hn Hok [Ed Ef Ev Ep Et Hwf Ec Ei Hrows]. unfold process, process_segment.
  rewrite Ef, Ei, Ec.
  assert (0 <= t mod 16 < 16) as Hti by (apply Z.mod_pos_bound; lia).
  pose proof (deinterleave_loop (fragmentSize b0) (t mod 16) (inputs t) (tempX b) (interleaveData b)
    Hn Hwf Et Hti) as H.
  destruct (zfor 0 _ _ _) as [tx data]. destruct H as (Htl & Hdw & Hx & Hd).
  assert (forall r c, 0 <= r < 16 -> 0 <= c < fragmentSize b0 ->
    rd2 data r c = cif inputs (t + 1 - 16 + (r - (t + 1)) mod 16) c) as Hrows'.
  { intros r c Hr Hc. rewrite Hd by lia. destruct (Z.ltb_spec c (fragmentSize b0)); [|lia].
    rewrite andb_true_r. destruct (Z.eqb_spec r (t mod 16)) as [->|Hne].
    - replace (t + 1 - 16 + (t mod 16 - (t + 1)) mod 16) with t by (Z.to_euclidean_division_equations; lia).
      unfold cif. destruct (Z.ltb_spec t 0); [lia|done].
    - rewrite Hrows by lia. f_equal. Z.to_euclidean_division_equations; lia. }
  assert (tx = assembled inputs (fragmentSize b0) t) as ->.
  { apply list_eq_rd; [unfold assembled; by rewrite zlen_map_seqZ|]. intros i Hi. rewrite Htl in Hi.
    unfold assembled. rewrite rd_map_seqZ, Hx by lia. pose proof (interleaveMap_range (i mod 16)) as Hm.
    rewrite Hrows by (try lia; apply Z.mod_pos_bound; lia). f_equal.
    Z.to_euclidean_division_equations; lia. }
  assert (Z.land (t mod 16 + 1) 15 = (t + 1) mod 16) as Eix
    by (rewrite land15; Z.to_euclidean_division_equations; lia).
  destruct (Z.leb_spec (Z.min t 16) 15), (Z.ltb_spec t 16); try lia.
  - split; [|done]. constructor; cbn; done || lia.
  - unfold decoded, backend_deconvolve. rewrite Ed, Ev.
    assert (addresses_ok (deconvolver b)) as Hb by (apply (addresses_ok_equiv (deconvolver b0)); [by symmetry|done]).
    pose proof (deconvolve_equiv viterbi_frame (deconvolver b) (deconvolver b0)
      (assembled inputs (fragmentSize b0) t) Ep Hb) as E.
    pose proof (deconvolve_equiv_self viterbi_frame (deconvolver b0)
      (assembled inputs (fragmentSize b0) t) Hok) as Es.
    rewrite E. destruct (deconvolve viterbi_frame (deconvolver b0) _) as [p' out].
    split; [|done]. constructor; cbn; done || lia.
Qed.

(** ** Runs *)
Lemma run_spec b0 inputs t b k :
  0 <= t -> 0 <= fragmentSize b0 -> addresses_ok (deconvolver b0) -> backend_inv b0 inputs t b ->
  run b (map inputs (seqZ t (Z.of_nat k))) =
  flat_map (fun t => if t <? 16 then [] else [decoded b0 (assembled inputs (fragmentSize b0) t)])
    (seqZ t (Z.of_nat k)).
Proof.
  intros Ht Hn Hok. revert t b Ht. induction k as [|k IH]; intros t b Ht Hinv; [done|].
  rewrite seqZ_cons by lia. replace (Z.pred (Z.of_nat (S k))) with (Z.of_nat k) by lia.
  cbn [map run flat_map]. pose proof (process_inv b0 inputs t b Ht Hn Hok Hinv) as H.
  destruct (process b (inputs t)) as [b' out]. destruct H as [Hinv' ->].
  rewrite <- Z.add_1_r, IH by (done || lia). by destruct (t <? 16).
Qed.

Lemma backend_inv_start d b0 inputs :
  Backend_new d = Some b0 -> 0 <= dCuSize d -> backend_inv b0 inputs 0 b0.
Proof.
  intros H Hs. unfold Backend_new in H. destruct (BackendDeconvolver_new d) as [p|]; [|done].
  cbn [mbind option_bind] in H. cbv zeta in H. apply (inj Some) in H as <-. unfold cCuSizeBits.
  assert (zlen (zeros (dCuSize d * 64)) = dCuSize d * 64) as Hz by (apply zlen_zeros; lia).
  constructor; cbn [desc deconvolver fragmentSize interleaveData tempX countforInterleaver interleaverIndex
    disperseVector]; try done.
  - split; [done|]. by apply Forall_replicate.
  - intros r c Hr Hc. unfold cif. destruct (Z.ltb_spec (0 - 16 + (r - 0) mod 16) 0);
      [|Z.to_euclidean_division_equations; lia].
    unfold rd2. rewrite nth_lookup, lookup_replicate_2 by lia. apply rd_zeros.
Qed.

Lemma assembled_interleave frames n t :
  0 <= n -> 16 <= t -> zlen (frames (t - 16)) = n ->
  assembled (interleave frames n) n t = frames (t - 16).
Proof.
  intros Hn Ht Hl. unfold assembled. apply list_eq_rd; rewrite zlen_map_seqZ by done; [done|].
  intros i Hi. rewrite rd_map_seqZ by done. pose proof (interleaveMap_range (i mod 16)).
  unfold cif. destruct (Z.ltb_spec (t - 16 + rd interleaveMap (i mod 16)) 0); [lia|].
  unfold interleave. rewrite rd_map_seqZ, <- interleaveMap_delay by (done || (apply Z.mod_pos_bound; lia)). do 2 f_equal. lia.
Qed.

Lemma flat_map_from16 {A} (f : Z -> A) n :
  0 <= n -> flat_map (fun t => if t <? 16 then [] else [f (t - 16)]) (seqZ 0 n) = map f (seqZ 0 (n - 16)).
Proof.
  intros Hn. assert (forall m, m <= 16 ->
    flat_map (fun t => if t <? 16 then [] else [f (t - 16)]) (seqZ 0 m) = []) as H0.
  { intros m Hm. rewrite flat_map_concat_map, (map_const_in _ []).
    - by induction (length (seqZ 0 m)).
    - intros t Ht%in_seqZ. destruct (Z.ltb_spec t 16); [done|lia]. }
  destruct (Z.le_gt_cases n 16); [rewrite H0, (seqZ_nil 0 (n - 16)) by lia; done|].
  replace n with (16 + (n - 16)) at 1 by lia. rewrite seqZ_app, flat_map_app, H0 by lia. simpl app.
  change (0 + 16) with 16. generalize (n - 16). clear. intros m.
  rewrite (map_ext_in f (fun k => f (16 + k - 16)) (seqZ 0 m)) by (intros; f_equal; lia).
  unfold seqZ, fmap, list_fmap. generalize (seq 0 (Z.to_nat m)). induction l as [|k l IH]; [done|]. simpl.
  rewrite IH. destruct (Z.ltb_spec (Z.of_nat k + 16) 16); [lia|]. simpl. do 2 f_equal. lia.
Qed.

(** A sub-channel description the receiver can serve. *)
Definition valid_desc (d : SDescriptorType) : Prop :=
  0 <= dCuSize d /\
  if dShortForm d then exists cu, In (mkProtLevel cu (dProtLevel d) (dBitRate d)) cProtLevelTable
  else eep_valid (dBitRate d) (dProtLevel d).

Lemma valid_desc_protection d :
  valid_desc d -> exists p, BackendDeconvolver_new d = Some p /\ addresses_ok p /\
    zlen (viterbiBlock p) = 4 * outSize p + 24.
Proof.
  intros [_ H]. unfold BackendDeconvolver_new. destruct (dShortForm d).
  - destruct H as (cu & H). destruct (uep_entry_build _ H) as (p & _ & _ & Hn & Ha & Hb & _). by exists p.
  - destruct (eep_entry_build _ _ H) as (p & Hn & Ha & Hb & _). by exists p.
Qed.

(** For every valid sub-channel the backend is created, and fed with the
    time-interleaved CIFs of any sequence of transmitted frames it hands the
    driver, after the sixteen CIFs of interleaver delay, exactly the decoded
    frames 0, 1, 2, ... in order, none missing and none mixed. *)
Lemma delivers_frames (d : SDescriptorType) (frames : Z -> list Z) (n : Z) :
  valid_desc d -> 0 <= n -> (forall r, zlen (frames r) = dCuSize d * 64) ->
  exists b0, Backend_new d = Some b0 /\
    run b0 (map (interleave frames (dCuSize d * 64)) (seqZ 0 n)) =
    map (fun r => decoded b0 (frames r)) (seqZ 0 (n - 16)).
Proof.
  intros Hd Hn Hf. destruct (valid_desc_protection d Hd) as (p & Ep & Ha & _). destruct Hd as [Hcu _].
  destruct (Backend_new d) as [b0|] eqn:Eb; [|unfold Backend_new in Eb; by rewrite Ep in Eb].
  exists b0. split; [done|].
  pose proof (backend_inv_start d b0 (interleave frames (dCuSize d * 64)) Eb Hcu) as Hinv.
  assert (fragmentSize b0 = dCuSize d * 64 /\ deconvolver b0 = p) as [Efr Edc]
    by (unfold Backend_new in Eb; rewrite Ep in Eb; by injection Eb as <-).
  rewrite <- (Z2Nat.id n) at 1 by done. rewrite (run_spec b0 _ 0) by (rewrite ?Edc; done || lia).
  rewrite Z2Nat.id, Efr by done. rewrite <- flat_map_from16 by done.
  rewrite !flat_map_concat_map. f_equal. apply map_ext. intros t.
  destruct (Z.ltb_spec t 16); [done|]. by rewrite assembled_interleave by (done || lia).
Qed.

(** ** Energy dispersal *)
Lemma disperse_step_shift i sr v :
  length sr = 9%nat ->
  disperse_step i (sr, v) =
  (Z.lxor (rd sr 8) (rd sr 4) :: take 8 sr, wr v i (Z.lxor (rd sr 8) (rd sr 4))).
Proof.
  intros H. do 9 (destruct sr as [|? sr]; [done|]). destruct sr; [|done]. reflexivity.
Qed.

Lemma make_disperse_prbs bitRate :
  0 <= bitRate -> make_disperse bitRate = prbs (Z.to_nat (bitRate * 24)) (replicate 9 1).
Proof.
  intros Hb. unfold make_disperse. set (N := bitRate * 24). replace (24 * bitRate) with N by lia.
  pose proof (zfor_inv (fun i '(sr, v) => length sr = 9%nat /\ exists done hist,
    sr = take 9 hist /\ zlen done = i /\ v = done ++ zeros (N - i) /\
    done ++ prbs (Z.to_nat (N - i)) hist = prbs (Z.to_nat N) (replicate 9 1))
    0 N disperse_step (replicate 9 1, zeros N)) as H.
  destruct (zfor 0 N _ _) as [sr v]. cbn [snd].
  destruct H as (_ & dn & hist & _ & _ & -> & <-); [lia|..].
  - split; [done|]. exists [], (replicate 9 1). rewrite Z.sub_0_r. done.
  - clear sr v. intros i [sr v] Hi (Hl & dn & hist & -> & Hd & -> & Hp).
    rewrite disperse_step_shift by done.
    assert (rd (take 9 hist) 8 = rd hist 8 /\ rd (take 9 hist) 4 = rd hist 4) as [-> ->].
    { unfold rd. simpl. rewrite !nth_lookup, !lookup_take_lt by lia. done. }
    set (b := Z.lxor (rd hist 8) (rd hist 4)). split; [simpl; rewrite length_take; lia|].
    exists (dn ++ [b]), (b :: hist). split_and!.
    + rewrite take_take. done.
    + rewrite zlen_app, Hd. done.
    + rewrite wr_append by (done || lia). by replace (N - i - 1) with (N - (i + 1)) by lia.
    + rewrite <- app_assoc, <- Hp. f_equal.
      replace (Z.to_nat (N - i)) with (S (Z.to_nat (N - (i + 1)))) by lia. done.
  - rewrite Z.sub_diag. done.
Qed.

(** The dispersal vector is the standard's pseudo-random binary sequence
    (generator x^9 + x^5 + 1, all-ones start) for every bit rate, and
    descrambling a scrambled frame returns the frame. *)
Theorem energy_dispersal_correct (bitRate : Z) (out : list Z) :
  0 <= bitRate -> zlen out = bitRate * 24 ->
  make_disperse bitRate = prbs (Z.to_nat (bitRate * 24)) (replicate 9 1) /\
  disperse (make_disperse bitRate) (disperse (make_disperse bitRate) out (bitRate * 24)) (bitRate * 24) = out.
Proof.
  intros Hb Hl. split; [by apply make_disperse_prbs|]. unfold disperse.
  set (v := make_disperse bitRate). set (N := bitRate * 24) in *.
  destruct (zfor_update_spec (fun i x => Z.lxor x (rd v i)) 0 N out) as [L1 R1]; [lia..|].
  set (once := zfor 0 N _ out) in *.
  destruct (zfor_update_spec (fun i x => Z.lxor x (rd v i)) 0 N once) as [L2 R2]; [lia..|].
  apply list_eq_rd; [lia|]. intros i Hi. rewrite R2, R1.
  assert ((0 <=? i) && (i <? N) = true) as -> by lia. xor_ac.
Qed.

Lemma energy_dispersal_correct_witness :
  make_disperse 8 = prbs (Z.to_nat (8 * 24)) (replicate 9 1) /\
  disperse (make_disperse 8) (disperse (make_disperse 8) (zeros 192) (8 * 24)) (8 * 24) = zeros 192.
Proof. apply (energy_dispersal_correct 8 (zeros 192)); [lia|reflexivity]. Defined.
