(* ===== verification/AirCoding.v ===== *)
(** * What a transmitter does with a logical frame (EN 300 401)

    Energy dispersal, convolutional code and puncturing as the standard describes
    them, written down without the tables and the loops of the receiver: generator
    polynomials, the rule behind the 24 puncturing vectors, and the protection
    profiles.  The lemmas compare this with what the receiver has.  The one row of the UEP
    table in which they differ is [uep_80_1]. *)
From S2P Require Import Prelude Viterbi Protection Backend.
Open Scope Z_scope.

(** ** The mother code (11.1.1)
    Four code bits for a bit: sums of that bit and some of the six before it. *)
Definition generators : list (list Z) := [[0; 2; 3; 5; 6]; [0; 1; 2; 3; 6]; [0; 1; 4; 6]; [0; 2; 3; 5; 6]].
Definition code_bit (x : list Z) (i : Z) (g : list Z) : Z := foldr (fun k sum => rd x (i - k) + sum) 0 g mod 2.
Definition coded (x : list Z) : list Z := flat_map (fun i => map (code_bit x i) generators) (seqZ 0 (zlen x)).

(** Six zeros bring the encoder back to its start. *)
Definition mother_code (us : list Z) : list Z := coded (us ++ zeros 6).

(** ** Energy dispersal (10) *)
Definition dispersed (frame : list Z) : list Z :=
  map (fun i => Z.lxor (rd frame i) (rd (prbs (length frame) (replicate 9 1)) i)) (seqZ 0 (zlen frame)).

(** ** Puncturing (11.1.2)
    Eight groups of four code bits.  From vector 1 on each vector has one bit more
    than the one before, always in the group whose turn it is; the turns go through the
    groups in the order of their reversed numbers.  Of a group the first bits are sent. *)
Definition turn (g : Z) : Z := 4 * (g mod 2) + 2 * (g / 2 mod 2) + g / 4.
Definition vector (p : Z) : list Z :=
  flat_map (fun g => map (fun b => b2z (b <? 1 + (p + 7 - turn g) / 8)) (seqZ 0 4)) (seqZ 0 8).

(** Blocks of 128 code bits, and the last 24. *)
Definition blocks (L p : Z) : list Z := punct_blocks L (vector p).
Definition tail_vector : list Z := take 24 (vector 8).

(** ** Protection profiles (11.3) *)
Definition eep_standard (rate lvl : Z) : list (Z * Z) :=
  let n := rate / 8 in
  let m := rate / 32 in
  if lvl =? 0 then [(6 * n - 3, 24); (3, 23)]
  else if lvl =? 1 then (if n =? 1 then [(5, 13); (1, 12)] else [(2 * n - 3, 14); (4 * n + 3, 13)])
  else if lvl =? 2 then [(6 * n - 3, 8); (3, 7)]
  else if lvl =? 3 then [(4 * n - 3, 3); (2 * n + 3, 2)]
  else [(24 * m - 3, rd [10; 6; 4; 2] (lvl - 4)); (3, rd [9; 5; 3; 1] (lvl - 4))].

(** Bit rate and level, and the lengths and vectors of the four parts. *)
Definition uep_standard : list (Z * Z * list (Z * Z)) :=
  [(32, 5, [(3, 5); (4, 3); (17, 2); (0, 0)]); (32, 4, [(3, 11); (3, 6); (18, 5); (0, 0)]); (32, 3, [(3, 15); (4, 9); (14, 6); (3, 8)]); (32, 2, [(3, 22); (4, 13); (14, 8); (3, 13)]); (32, 1, [(3, 24); (5, 17); (13, 12); (3, 17)]);
   (48, 5, [(4, 5); (3, 4); (26, 2); (3, 3)]); (48, 4, [(3, 9); (4, 6); (26, 4); (3, 6)]); (48, 3, [(3, 15); (4, 10); (26, 6); (3, 9)]); (48, 2, [(3, 24); (4, 14); (26, 8); (3, 15)]); (48, 1, [(3, 24); (5, 18); (25, 13); (3, 18)]);
   (56, 5, [(6, 5); (10, 4); (23, 2); (3, 3)]); (56, 4, [(6, 9); (10, 6); (23, 4); (3, 5)]); (56, 3, [(6, 16); (12, 7); (21, 6); (3, 9)]); (56, 2, [(6, 23); (10, 13); (23, 8); (3, 13)]);
   (64, 5, [(6, 5); (9, 3); (31, 2); (2, 3)]); (64, 4, [(6, 11); (9, 6); (33, 5); (0, 0)]); (64, 3, [(6, 16); (12, 8); (27, 6); (3, 9)]); (64, 2, [(6, 23); (10, 13); (29, 8); (3, 13)]); (64, 1, [(6, 24); (11, 18); (28, 12); (3, 18)]);
   (80, 5, [(6, 6); (10, 3); (41, 2); (3, 3)]); (80, 4, [(6, 11); (10, 6); (41, 5); (3, 6)]); (80, 3, [(6, 16); (11, 8); (40, 6); (3, 7)]); (80, 2, [(6, 23); (10, 13); (41, 8); (3, 13)]); (80, 1, [(6, 24); (10, 17); (41, 12); (3, 18)]);
   (96, 5, [(7, 5); (9, 4); (53, 2); (3, 4)]); (96, 4, [(7, 9); (10, 6); (52, 4); (3, 6)]); (96, 3, [(6, 16); (12, 9); (51, 6); (3, 10)]); (96, 2, [(6, 22); (10, 12); (53, 9); (3, 12)]); (96, 1, [(6, 24); (13, 18); (50, 13); (3, 19)]);
   (112, 5, [(14, 5); (17, 4); (50, 2); (3, 5)]); (112, 4, [(11, 9); (21, 6); (49, 4); (3, 8)]); (112, 3, [(11, 16); (23, 8); (47, 6); (3, 9)]); (112, 2, [(11, 23); (21, 12); (49, 9); (3, 14)]);
   (128, 5, [(12, 5); (19, 3); (62, 2); (3, 4)]); (128, 4, [(11, 11); (21, 6); (61, 5); (3, 7)]); (128, 3, [(11, 16); (22, 9); (60, 6); (3, 10)]); (128, 2, [(11, 22); (21, 12); (61, 9); (3, 14)]); (128, 1, [(11, 24); (20, 17); (62, 13); (3, 19)]);
   (160, 5, [(11, 5); (19, 4); (87, 2); (3, 4)]); (160, 4, [(11, 11); (23, 6); (83, 5); (3, 9)]); (160, 3, [(11, 16); (24, 8); (82, 6); (3, 11)]); (160, 2, [(11, 22); (21, 11); (85, 9); (3, 13)]); (160, 1, [(11, 24); (22, 18); (84, 12); (3, 19)]);
   (192, 5, [(11, 6); (20, 4); (110, 2); (3, 5)]); (192, 4, [(11, 10); (22, 6); (108, 4); (3, 9)]); (192, 3, [(11, 16); (24, 10); (106, 6); (3, 11)]); (192, 2, [(11, 22); (20, 13); (110, 9); (3, 13)]); (192, 1, [(11, 24); (21, 20); (109, 13); (3, 24)]);
   (224, 5, [(12, 8); (22, 6); (131, 2); (3, 6)]); (224, 4, [(12, 12); (26, 8); (127, 4); (3, 11)]); (224, 3, [(11, 16); (20, 10); (134, 7); (3, 9)]); (224, 2, [(11, 24); (22, 16); (132, 10); (3, 15)]); (224, 1, [(11, 24); (24, 20); (130, 12); (3, 20)]);
   (256, 5, [(11, 6); (24, 5); (154, 2); (3, 5)]); (256, 4, [(11, 12); (24, 9); (154, 5); (3, 10)]); (256, 3, [(11, 16); (27, 10); (151, 7); (3, 10)]); (256, 2, [(11, 24); (22, 14); (156, 10); (3, 13)]); (256, 1, [(11, 24); (26, 19); (152, 14); (3, 18)]);
   (320, 5, [(11, 8); (26, 5); (200, 2); (3, 6)]); (320, 4, [(11, 13); (25, 9); (201, 5); (3, 10)]); (320, 2, [(11, 24); (26, 17); (200, 9); (3, 17)]);
   (384, 5, [(11, 8); (27, 6); (247, 2); (3, 7)]); (384, 3, [(11, 16); (24, 9); (250, 7); (3, 10)]); (384, 1, [(12, 24); (28, 20); (245, 14); (3, 23)])].

Definition profile (short : bool) (rate lvl : Z) : list (Z * Z) :=
  if short then default [] (snd <$> List.find (fun r => (r.1.1 =? rate) && (r.1.2 =? lvl)) uep_standard) else eep_standard rate lvl.
Definition puncturing (d : SDescriptorType) : list Z :=
  flat_map (fun b => blocks (fst b) (snd b)) (profile (dShortForm d) (dBitRate d) (dProtLevel d)) ++ tail_vector.

(** ** The receiver has the same *)
Lemma vectors_check : forallb (fun k => bool_decide (get_PI_codes (k + 1) = Some (vector (k + 1)))) (seqZ 0 24) = true.
Proof. by vm_compute. Qed.

Lemma get_vector p : 1 <= p <= 24 -> get_PI_codes p = Some (vector p).
Proof.
  intros Hp. pose proof (forall_range 24 _ vectors_check (p - 1) ltac:(lia)) as H. cbv beta in H. replace (p - 1 + 1) with p in H by lia. by apply bool_decide_eq_true in H.
Qed.

Lemma tail_code : PI_X_flags = tail_vector.
Proof. by vm_compute. Qed.

Lemma eep_code rate lvl L1 L2 p1 p2 : eep_valid rate lvl -> eep_profile rate lvl = Some (L1, L2, p1, p2) -> eep_standard rate lvl = [(L1, p1); (L2, p2)].
Proof.
  intros [Hb [[Hl Hm]|[Hl Hm]]]; unfold eep_profile, eep_standard; rewrite !Z.quot_div_nonneg, !Z.rem_mod_nonneg by lia; rewrite Hm.
  - assert (lvl = 0 \/ lvl = 1 \/ lvl = 2 \/ lvl = 3) as [->|[->|[->| ->]]] by lia; cbn -[Z.mul Z.add Z.sub Z.div];
      try (destruct (Z.eqb_spec (rate / 8) 1)); by intros [= <- <- <- <-].
  - assert (lvl = 4 \/ lvl = 5 \/ lvl = 6 \/ lvl = 7) as [->|[->|[->| ->]]] by lia; cbn -[Z.mul Z.add Z.sub Z.div]; by intros [= <- <- <- <-].
Qed.

Definition uep_80_1 (d : SDescriptorType) : bool := dShortForm d && (dBitRate d =? 80) && (dProtLevel d =? 1).

(** A sub-channel the receiver can build the decoder of, other than that. *)
Definition servable (d : SDescriptorType) : Prop := valid_desc d /\ uep_80_1 d = false.

(** A row and its four parts; a part of length 0 has no vector. *)
Definition row_agrees (e : SProtLevel) : bool :=
  (tBitRate e =? 80) && (ProtLevel e =? 1) ||
  match uep_row (tBitRate e) (ProtLevel e), profile true (tBitRate e) (ProtLevel e) with
  | Some pp, [(L1, p1); (L2, p2); (L3, p3); (L4, p4)] =>
      (pL1 pp =? L1) && (pL2 pp =? L2) && (pL3 pp =? L3) && (pL4 pp =? L4) &&
      (pPI1 pp =? p1) && (pPI2 pp =? p2) && (pPI3 pp =? p3) && ((L4 =? 0) || (pPI4 pp =? p4) && pi_codeb p4) && forallb pi_codeb [p1; p2; p3]
  | _, _ => false
  end.

Lemma uep_check : forallb row_agrees cProtLevelTable = true.
Proof. by vm_compute. Qed.

Lemma uep_code e pp : In e cProtLevelTable -> (tBitRate e =? 80) && (ProtLevel e =? 1) = false -> uep_row (tBitRate e) (ProtLevel e) = Some pp ->
  flat_map (fun b => blocks (fst b) (snd b)) (profile true (tBitRate e) (ProtLevel e)) ++ tail_vector =
  uep_flags pp (default [] (get_PI_codes (pPI1 pp))) (default [] (get_PI_codes (pPI2 pp))) (default [] (get_PI_codes (pPI3 pp))) (default [] (get_PI_codes (pPI4 pp))).
Proof.
  intros He Hne Hrow. pose proof uep_check as H. rewrite forallb_forall in H. specialize (H e He). unfold row_agrees in H. rewrite Hne, Hrow in H. cbn [orb] in H.
  destruct (profile true _ _) as [|[L1 p1] [|[L2 p2] [|[L3 p3] [|[L4 p4] [|]]]]]; try done. apply andb_true_iff in H as [H Hp]. cbn [forallb] in Hp. unfold pi_codeb in *. zbool. subst.
  unfold uep_flags. cbn [flat_map fst snd]. unfold blocks. rewrite !get_vector by lia. cbn [default from_option]. unfold id. rewrite <- tail_code, app_nil_r, <- !app_assoc. do 3 f_equal.
  destruct (Z.eqb_spec (pL4 pp) 0) as [->|]; [done|]. cbn [orb] in *. zbool. subst. by rewrite get_vector by lia.
Qed.

(** *** The encoder as a machine with 64 states *)
Definition state_bit (s u k : Z) : Z := if k =? 0 then u else s / 2 ^ (k - 1) mod 2.
Lemma generator_check : forallb (fun s => forallb (fun u =>
    bool_decide (conv_bits s u = map (fun g => foldr (fun k sum => state_bit s u k + sum) 0 g mod 2) generators) &&
    forallb (fun k => state_bit (nstate s u) 0 (k + 1) =? state_bit s u k) (seqZ 0 6)) (seqZ 0 2)) (seqZ 0 64) = true.
Proof. by vm_compute. Qed.

Fixpoint conv_encode (s : Z) (us : list Z) : list Z :=
  match us with [] => [] | u :: us => conv_bits s u ++ conv_encode (nstate s u) us end.

Lemma coded_from x : Forall is_bit x -> forall us pre s, x = pre ++ us -> is_state s -> (forall k, 1 <= k <= 6 -> state_bit s 0 k = rd x (zlen pre - k)) ->
  flat_map (fun i => map (code_bit x i) generators) (seqZ (zlen pre) (zlen us)) = conv_encode s us.
Proof.
  intros Hx. induction us as [|u us IH]; intros pre s E Hs Hk; [done|]. assert (zlen (u :: us) = zlen us + 1) as -> by (unfold zlen; cbn [length]; lia). pose proof (zlen_nonneg us). rewrite seqZ_cons by lia. cbn [flat_map conv_encode].
  assert (rd x (zlen pre) = u) as Eu by (rewrite E, rd_app_r, Z.sub_diag by lia; done).
  assert (is_bit u) as Hu by (rewrite E in Hx; apply Forall_app in Hx as [_ Hx]; by apply Forall_cons_1 in Hx as [? _]).
  pose proof (forall_range 64 _ generator_check s Hs) as H1. cbv beta in H1. pose proof (forall_range 2 _ H1 u ltac:(unfold is_bit in Hu; lia)) as H2. cbv beta in H2.
  apply andb_true_iff in H2 as [H2 H3]. apply bool_decide_eq_true in H2. rewrite H2. f_equal.
  - apply map_ext_in. intros g Hg. unfold code_bit. f_equal. assert (Forall (fun k => 0 <= k <= 6) g) as Hr by (repeat destruct Hg as [<-|Hg]; [repeat constructor; lia..|done]).
    clear Hg. induction Hr as [|k g Hkr _ IHg]; [done|]. cbn [foldr]. rewrite IHg. f_equal. unfold state_bit at 1. destruct (Z.eqb_spec k 0) as [->|]; [by rewrite Z.sub_0_r|].
    rewrite <- Hk by lia. unfold state_bit. by destruct (Z.eqb_spec k 0).
  - replace (Z.succ (zlen pre)) with (zlen (pre ++ [u])) by (rewrite zlen_app; change (zlen [u]) with 1; lia). replace (Z.pred (zlen us + 1)) with (zlen us) by lia.
    apply IH; [by rewrite <- app_assoc|by apply nstate_state|]. intros k Hkr. pose proof (forall_range 6 _ H3 (k - 1) ltac:(lia)) as H4. cbv beta in H4. apply Z.eqb_eq in H4.
    replace (k - 1 + 1) with k in H4 by lia. rewrite H4, zlen_app. change (zlen [u]) with 1. destruct (Z.eq_dec k 1) as [->|]; [rewrite <- Eu; unfold state_bit; cbn [Z.sub Z.eqb Pos.add Z.opp Z.add Z.pos_sub]; f_equal; lia|].
    replace (zlen pre + 1 - k) with (zlen pre - (k - 1)) by lia. rewrite <- Hk by lia. unfold state_bit. destruct (Z.eqb_spec (k - 1) 0); [lia|done].
Qed.

Lemma mother_code_conv us : Forall is_bit us -> mother_code us = conv_encode 0 (us ++ zeros 6).
Proof.
  intros Hu. unfold mother_code, coded. apply (coded_from (us ++ zeros 6) ltac:(apply Forall_app; split; [done|apply Forall_replicate, is_bit_0]) (us ++ zeros 6) [] 0); [done|unfold is_state; lia|].
  intros k Hk. change (zlen []) with 0. unfold rd. destruct (Z.ltb_spec (0 - k) 0); [|lia]. unfold state_bit. destruct (Z.eqb_spec k 0); [lia|]. by rewrite Z.div_0_l by (apply Z.pow_nonzero; lia).
Qed.

Lemma dispersed_code frame rate : 0 <= rate -> zlen frame = 24 * rate -> disperse (make_disperse rate) frame (rate * 24) = dispersed frame.
Proof.
  intros Hr Hl. rewrite make_disperse_prbs by done. assert (Z.to_nat (rate * 24) = length frame) as -> by (unfold zlen in Hl; lia). unfold disperse, dispersed.
  destruct (zfor_update_spec (fun i x => Z.lxor x (rd (prbs (length frame) (replicate 9 1)) i)) 0 (rate * 24) frame) as [L R]; [lia..|].
  apply list_eq_rd; rewrite L; [rewrite zlen_map_seqZ; lia|]. intros i Hi. rewrite R, rd_map_seqZ by lia. by assert ((0 <=? i) && (i <? rate * 24) = true) as -> by lia.
Qed.
