(* ===== verification/ChannelCode.v ===== *)
(** * Channel coding: what is sent is what is delivered

    The encoder of the standard (AirCoding.v) in front of the decoder of viterbi_spiral.cpp,
    the protection classes and backend.cpp: convolutional code, puncturing,
    energy dispersal and time interleaving.

    The soft value of a bit that is not sent is 0, which the decoder takes as 127
    of 255, one nearer to a 0 than to a 1.  A rival of the sent path can gain one
    per punctured bit; it loses at least 33 per sent bit when the sign of the
    soft value is right and its magnitude at least 17.  A potential on the
    differences of encoder states, for the weakest puncturing vector and its
    period of eight steps, shows that the losses outweigh the gains. *)
From S2P Require Import Prelude Viterbi Protection Backend AirCoding.
Open Scope Z_scope.

(** ** Soft values
    The right sign, and at least 17 of 127. *)
Definition soft_ok (c v : Z) : bool :=
  if c =? 1 then (17 <=? v) && (v <=? 32640) else (-32768 <=? v) && (v <=? -17).

(** ** The metric as a sum over the four code bits *)
Definition sym_cost (c v : Z) : Z := if c =? 1 then 255 - limit_min_max v else limit_min_max v.

Definition sum4 (f : Z -> Z) : Z := f 0 + f 1 + f 2 + f 3.

Lemma lxor_255 : forallb (fun x => Z.lxor 255 x =? 255 - x) (seqZ 0 256) = true.
Proof. by vm_compute. Qed.

Lemma table_code : forallb (fun s => forallb (fun u => forallb (fun j =>
  rd Branchtable (32 * j + s mod 32) =? (if Bool.eqb (rd (conv_bits s u) j =? 1) (Z.even (s / 32 + u)) then 255 else 0))
  (seqZ 0 4)) (seqZ 0 2)) (seqZ 0 64) = true.
Proof. by vm_compute. Qed.

Lemma is_bit_range b : is_bit b -> 0 <= b < 2.
Proof. unfold is_bit. lia. Qed.

Lemma bm_sum input t s u : is_state s -> is_bit u ->
  bm input t s u = sum4 (fun j => sym_cost (rd (conv_bits s u) j) (rd input (4 * t + j))).
Proof.
  intros Hs Hu. pose proof (forall_range 64 _ table_code s Hs) as H. cbv beta in H.
  pose proof (forall_range 2 _ H u (is_bit_range u Hu)) as H1. cbv beta in H1. clear H.
  assert (forall j, 0 <= j < 4 -> Z.lxor (rd Branchtable (32 * j + s mod 32)) (limit_min_max (rd input (4 * t + j))) =
    if Z.even (s / 32 + u) then sym_cost (rd (conv_bits s u) j) (rd input (4 * t + j)) else 255 - sym_cost (rd (conv_bits s u) j) (rd input (4 * t + j))) as Hj.
  { intros j Hj. pose proof (forall_range 4 _ H1 j Hj) as H2. cbv beta in H2. apply Z.eqb_eq in H2. rewrite H2.
    pose proof (limit_range (rd input (4 * t + j))) as Hb. unfold is_byte in Hb. pose proof (forall_range 256 _ lxor_255 _ Hb) as Hx. cbv beta in Hx.
    unfold sym_cost. destruct (rd (conv_bits s u) j =? 1), (Z.even (s / 32 + u)); cbn [Bool.eqb]; rewrite ?Z.lxor_0_l; lia. }
  pose proof (Hj 0 ltac:(lia)) as H0. pose proof (Hj 1 ltac:(lia)) as Ha. pose proof (Hj 2 ltac:(lia)) as Hb. pose proof (Hj 3 ltac:(lia)) as Hc.
  unfold bm, branch_metric, sum4. rewrite !Z.add_0_r in *. rewrite Z.mul_0_r, Z.add_0_l in H0. change (32 * 1) with 32 in *. change (32 * 2) with 64 in *. change (32 * 3) with 96 in *.
  rewrite H0, Ha, Hb, Hc. destruct (Z.even (s / 32 + u)); lia.
Qed.

(** ** Two paths *)
(** The code is linear: the difference of two paths is a path. *)
Lemma code_linear : forallb (fun s => forallb (fun u => forallb (fun s' => forallb (fun u' =>
  (nstate (Z.lxor s s') (Z.lxor u u') =? Z.lxor (nstate s u) (nstate s' u')) &&
  forallb (fun j => rd (conv_bits s' u') j =? Z.lxor (rd (conv_bits s u) j) (rd (conv_bits (Z.lxor s s') (Z.lxor u u')) j)) (seqZ 0 4))
  (seqZ 0 2)) (seqZ 0 64)) (seqZ 0 2)) (seqZ 0 64) = true.
Proof. by vm_compute. Qed.

Lemma code_bits_bit : forallb (fun s => forallb (fun u => forallb is_bitb (conv_bits s u)) (seqZ 0 2)) (seqZ 0 64) = true.
Proof. by vm_compute. Qed.

(** What every puncturing vector keeps: the first bit of a step, and the second
    bit of every eighth step. *)
Definition kept (j phase : Z) : bool := (j =? 0) || (j =? 1) && (phase =? 0).

Definition gain (phase d e j : Z) : Z := if rd (conv_bits d e) j =? 1 then if kept j phase then 33 else -1 else 0.
Definition weight (phase d e : Z) : Z := sum4 (gain phase d e).

(** The potential: the cheapest way from a difference of states to none. *)
Definition relax (p : list (list Z)) : list (list Z) :=
  map (fun f => map (fun d => Z.min (rd2 p f d) (Z.min (weight f d 0 + rd2 p ((f + 1) mod 8) (nstate d 0)) (weight f d 1 + rd2 p ((f + 1) mod 8) (nstate d 1))))
    (seqZ 0 64)) (seqZ 0 8).
Definition potential : list (list Z) :=
  Eval vm_compute in Nat.iter 140 relax (map (fun _ => map init_cost (seqZ 0 64)) (seqZ 0 8)).

Lemma potential_ok : forallb (fun f =>
  (rd2 potential f 0 =? 0) && (1 <=? weight f 0 1 + rd2 potential ((f + 1) mod 8) (nstate 0 1)) &&
  forallb (fun d => (-1000 <? rd2 potential f d) &&
    forallb (fun e => rd2 potential f d <=? weight f d e + rd2 potential ((f + 1) mod 8) (nstate d e)) (seqZ 0 2)) (seqZ 0 64)) (seqZ 0 8) = true.
Proof. by vm_compute. Qed.

Lemma linear_step s u s' u' : is_state s -> is_bit u -> is_state s' -> is_bit u' ->
  nstate (Z.lxor s s') (Z.lxor u u') = Z.lxor (nstate s u) (nstate s' u') /\
  (forall j, 0 <= j < 4 -> rd (conv_bits s' u') j = Z.lxor (rd (conv_bits s u) j) (rd (conv_bits (Z.lxor s s') (Z.lxor u u')) j)) /\
  Forall is_bit (conv_bits s u) /\ is_state (Z.lxor s s') /\ is_bit (Z.lxor u u').
Proof.
  intros Hs Hu Hs' Hu'. pose proof (forall_range 64 _ code_linear s Hs) as H. cbv beta in H.
  pose proof (forall_range 2 _ H u (is_bit_range u Hu)) as H1. cbv beta in H1. clear H. pose proof (forall_range 64 _ H1 s' Hs') as H2. cbv beta in H2. clear H1.
  pose proof (forall_range 2 _ H2 u' (is_bit_range u' Hu')) as H3. cbv beta in H3. clear H2. apply andb_true_iff in H3 as [H3 H4].
  split; [by apply Z.eqb_eq|]. split; [intros j Hj; pose proof (forall_range 4 _ H4 j Hj) as H5; cbv beta in H5; by apply Z.eqb_eq|].
  pose proof (forall_range 64 _ code_bits_bit s Hs) as H. cbv beta in H. pose proof (forall_range 2 _ H u (is_bit_range u Hu)) as H5. cbv beta in H5.
  split; [by apply forall_bits01|]. split; [apply (lxor_range 6); unfold is_state in *; lia|by apply lxor_bit].
Qed.

Lemma potential_step f d e : 0 <= f < 8 -> is_state d -> is_bit e ->
  rd2 potential f 0 = 0 /\ 1 <= weight f 0 1 + rd2 potential ((f + 1) mod 8) (nstate 0 1) /\ -1000 < rd2 potential f d /\
  rd2 potential f d <= weight f d e + rd2 potential ((f + 1) mod 8) (nstate d e).
Proof.
  intros Hf Hd He. pose proof (forall_range 8 _ potential_ok f Hf) as H. cbv beta in H. apply andb_true_iff in H as [H H1]. apply andb_true_iff in H as [Ha Hb].
  pose proof (forall_range 64 _ H1 d Hd) as H2. cbv beta in H2. apply andb_true_iff in H2 as [Hc H2]. pose proof (forall_range 2 _ H2 e (is_bit_range e He)) as H3. cbv beta in H3.
  split; [by apply Z.eqb_eq|]. split; [by apply Z.leb_le|]. split; [by apply Z.ltb_lt|by apply Z.leb_le].
Qed.

(** ** The sent path and its rivals *)
(** The soft values of one step. *)
Definition heard_step (input : list Z) (t s u : Z) : Prop :=
  forall j, 0 <= j < 4 -> soft_ok (rd (conv_bits s u) j) (rd input (4 * t + j)) = true \/ (rd input (4 * t + j) = 0 /\ kept j (t mod 8) = false).

Fixpoint heard (input : list Z) (t s : Z) (us : list Z) : Prop :=
  match us with
  | [] => True
  | u :: us => heard_step input t s u /\ heard input (t + 1) (nstate s u) us
  end.

Lemma soft_gain c v o : is_bit c -> is_bit o -> soft_ok c v = true ->
  (if o =? 1 then 33 else 0) <= sym_cost (Z.lxor c o) v - sym_cost c v.
Proof.
  unfold is_bit. intros Hc Ho Hv. assert ((c = 0 \/ c = 1) /\ (o = 0 \/ o = 1)) as [[-> | ->] [-> | ->]] by lia;
    unfold soft_ok, sym_cost in *; rewrite ?Z.lxor_0_l, ?Z.lxor_0_r, ?Z.lxor_nilpotent; cbn [Z.eqb Pos.eqb] in *; zbool; unfold limit_min_max; rewrite !i16_small by lia; zcases; lia.
Qed.

Lemma lost_gain c o : is_bit c -> is_bit o -> (if o =? 1 then -1 else 0) <= sym_cost (Z.lxor c o) 0 - sym_cost c 0.
Proof. unfold is_bit. intros Hc Ho. assert ((c = 0 \/ c = 1) /\ (o = 0 \/ o = 1)) as [[-> | ->] [-> | ->]] by lia; vm_compute; discriminate. Qed.

Lemma rival_step input t s u s' u' : is_state s -> is_bit u -> is_state s' -> is_bit u' -> heard_step input t s u ->
  weight (t mod 8) (Z.lxor s s') (Z.lxor u u') <= bm input t s' u' - bm input t s u.
Proof.
  intros Hs Hu Hs' Hu' Hh. destruct (linear_step s u s' u' Hs Hu Hs' Hu') as (_ & Hl & Hb & Hd & He). rewrite !bm_sum by done.
  assert (forall j, 0 <= j < 4 -> gain (t mod 8) (Z.lxor s s') (Z.lxor u u') j <=
    sym_cost (rd (conv_bits s' u') j) (rd input (4 * t + j)) - sym_cost (rd (conv_bits s u) j) (rd input (4 * t + j))) as Hj.
  { intros j Hj. rewrite Hl by done. set (o := rd (conv_bits (Z.lxor s s') (Z.lxor u u')) j). set (c := rd (conv_bits s u) j).
    assert (is_bit c) as Hc by (apply rd_Forall; [unfold is_bit; lia|done]).
    assert (is_bit o) as Ho by (apply rd_Forall; [unfold is_bit; lia|apply (linear_step _ _ 0 0); (done || unfold is_state, is_bit; lia)]).
    unfold gain. fold o. destruct (Hh j Hj) as [Hv|[Hv Hk]].
    - fold c in Hv. pose proof (soft_gain c _ o Hc Ho Hv). destruct (o =? 1); [|lia]. destruct (kept j (t mod 8)); lia.
    - rewrite Hv, Hk. pose proof (lost_gain c o Hc Ho). destruct (o =? 1); lia. }
  pose proof (Hj 0 ltac:(lia)). pose proof (Hj 1 ltac:(lia)). pose proof (Hj 2 ltac:(lia)). pose proof (Hj 3 ltac:(lia)). unfold weight, sum4. lia.
Qed.

Lemma next_phase t : ((t mod 8) + 1) mod 8 = (t + 1) mod 8.
Proof. Z.to_euclidean_division_equations; lia. Qed.

Lemma rival_cost input us : forall us' t s s', is_state s -> is_state s' -> Forall is_bit us -> Forall is_bit us' -> length us' = length us ->
  heard input t s us -> path_end s' us' = path_end s us ->
  rd2 potential (t mod 8) (Z.lxor s s') <= path_cost input t s' us' - path_cost input t s us.
Proof.
  induction us as [|u us IH]; intros [|u' us'] t s s' Hs Hs' Hb Hb' Hl Hh He; try done; pose proof (Z.mod_pos_bound t 8 ltac:(lia)) as Ht.
  - cbn in *. rewrite He, Z.lxor_nilpotent. destruct (potential_step (t mod 8) 0 0 Ht) as (-> & _); [unfold is_state; lia|unfold is_bit; lia|]. lia.
  - apply Forall_cons_1 in Hb as [Hu Hb], Hb' as [Hu' Hb']. cbn [path_cost heard path_end] in *. destruct Hh as [Hh1 Hh]. injection Hl as Hl.
    specialize (IH us' (t + 1) (nstate s u) (nstate s' u') (nstate_state s u) (nstate_state s' u') Hb Hb' Hl Hh He).
    pose proof (rival_step input t s u s' u' Hs Hu Hs' Hu' Hh1) as Hw. destruct (linear_step s u s' u' Hs Hu Hs' Hu') as (Hn & _ & _ & Hd & Hee).
    destruct (potential_step (t mod 8) _ _ Ht Hd Hee) as (_ & _ & _ & Hp). rewrite Hn, next_phase in Hp. lia.
Qed.

(** A rival that leaves the sent path later than its start. *)
Lemma rival_loses input us : forall us' t s, is_state s -> Forall is_bit us -> Forall is_bit us' -> length us' = length us ->
  heard input t s us -> path_end s us' = path_end s us -> us' <> us -> path_cost input t s us < path_cost input t s us'.
Proof.
  induction us as [|u us IH]; intros [|u' us'] t s Hs Hb Hb' Hl Hh He Hne; try done; pose proof (Z.mod_pos_bound t 8 ltac:(lia)) as Ht.
  apply Forall_cons_1 in Hb as [Hu Hb], Hb' as [Hu' Hb']. cbn [path_cost heard path_end] in *. destruct Hh as [Hh1 Hh]. injection Hl as Hl.
  destruct (Z.eq_dec u' u) as [->|Hd].
  - specialize (IH us' (t + 1) (nstate s u) (nstate_state s u) Hb Hb' Hl Hh He ltac:(congruence)). lia.
  - pose proof (rival_cost input us us' (t + 1) (nstate s u) (nstate s u') (nstate_state s u) (nstate_state s u') Hb Hb' Hl Hh He) as Hr.
    pose proof (rival_step input t s u s u' Hs Hu Hs Hu' Hh1) as Hw. destruct (linear_step s u s u' Hs Hu Hs Hu') as (Hn & _).
    rewrite Z.lxor_nilpotent in *. assert (Z.lxor u u' = 1) as E by (unfold is_bit in *; assert ((u = 0 \/ u = 1) /\ (u' = 0 \/ u' = 1)) as [[-> | ->] [-> | ->]] by lia; done).
    rewrite E in *. destruct (potential_step (t mod 8) 0 1 Ht) as (_ & Hp & _); [unfold is_state; lia|unfold is_bit; lia|]. rewrite Hn, next_phase in Hp. lia.
Qed.

(** ** The decoder finds the sent path *)
Lemma viterbi_recovers (m1 m2 input output us : list Z) :
  zlen us <= 2000000 -> zlen m1 = 64 -> zlen m2 = 64 -> zlen output = zlen us ->
  Forall is_bit us -> heard input 0 0 (us ++ zeros 6) -> viterbi_deconvolve (zlen us) m1 m2 input output = us.
Proof.
  intros HF H1 H2 Ho Hu Hh. set (F := zlen us) in *. assert (0 <= F) by apply zlen_nonneg.
  rewrite viterbi_survivor by (unfold fits32; done || lia).
  destruct (survivor_zero_split input F ltac:(lia)) as (s0 & Hs0 & Hb & Hl & Hc). cbv zeta in Hb, Hl, Hc. set (o := slice _ 0 F) in *.
  assert (Forall is_bit (zeros 6)) as Hz by apply Forall_replicate, is_bit_0. assert (Forall is_bit (us ++ zeros 6)) as Hbu by (by apply Forall_app).
  assert (Forall is_bit (o ++ zeros 6)) as Hbo by (by apply Forall_app). assert (is_state 0) as H0 by (unfold is_state; lia).
  assert (length (o ++ zeros 6) = length (us ++ zeros 6)) as Hlen by (rewrite !length_app; unfold F, zlen in Hl; lia).
  pose proof (best_lower input (us ++ zeros 6) 0 H0 Hbu) as Hle. rewrite path_end_zeros6 in Hle by done.
  replace (length (us ++ zeros 6)) with (Z.to_nat (F + 6)) in Hle by (rewrite length_app; unfold zeros, F, zlen; rewrite length_replicate; lia).
  change (init_cost 0) with 0 in Hle.
  pose proof (rival_cost input _ _ 0 0 s0 H0 Hs0 Hbu Hbo Hlen Hh ltac:(by rewrite !path_end_zeros6)) as Hr. rewrite Z.lxor_0_l in Hr.
  destruct (potential_step (0 mod 8) s0 0) as (_ & _ & Hp & _); [done|done|unfold is_bit; lia|]. unfold init_cost in Hc.
  destruct (Z.eqb_spec s0 0) as [->|]; [|lia].
  destruct (decide (o ++ zeros 6 = us ++ zeros 6)) as [E|Hne]; [by apply (app_inv_tail (zeros 6))|].
  pose proof (rival_loses input _ _ 0 0 H0 Hbu Hbo Hlen Hh ltac:(by rewrite !path_end_zeros6) Hne). lia.
Qed.

(** ** Puncturing *)
Definition strong (flags : list Z) : Prop := forall i, 0 <= i < zlen flags -> kept (i mod 4) (i / 4 mod 8) = true -> rd flags i <> 0.
Definition strongb (flags : list Z) : bool := forallb (fun i => negb (kept (i mod 4) (i / 4 mod 8)) || negb (rd flags i =? 0)) (seqZ 0 (zlen flags)).

Lemma strongb_ok flags : strongb flags = true -> strong flags.
Proof.
  unfold strongb. intros H i Hi Hk. rewrite forallb_forall in H. specialize (H i ltac:(apply in_seqZ; lia)). cbv beta in H. rewrite Hk in H. cbn [negb orb] in H. lia.
Qed.

Lemma strong_nil : strong [].
Proof. intros i Hi. unfold zlen in Hi. cbn in Hi. lia. Qed.

Lemma strong_app a b : zlen a mod 32 = 0 -> strong a -> strong b -> strong (a ++ b).
Proof.
  intros Hm Ha Hb i Hi Hk. rewrite zlen_app in Hi. destruct (Z.lt_ge_cases i (zlen a)) as [Hlt|Hge].
  - rewrite rd_app_l by lia. apply Ha; [lia|done].
  - rewrite rd_app_r by lia. apply Hb; [lia|]. rewrite <- Hk. f_equal; Z.to_euclidean_division_equations; lia.
Qed.

Lemma strong_blocks L pi : zlen pi = 32 -> strong pi -> strong (punct_blocks L pi).
Proof.
  intros Hl Hs. unfold punct_blocks. assert (zlen (block128 pi) mod 32 = 0) as H0 by (unfold block128; rewrite !zlen_app, Hl; done).
  assert (strong (block128 pi)) as Hb by (unfold block128; repeat apply strong_app; rewrite ?Hl; done).
  induction (Z.to_nat L) as [|k IH]; [exact strong_nil|]. cbn [replicate concat]. by apply strong_app.
Qed.

Lemma PI_strong : forallb (fun k => strongb (default [] (get_PI_codes (k + 1)))) (seqZ 0 24) = true /\ strongb PI_X_flags = true.
Proof. by vm_compute. Qed.

Lemma get_PI_strong i pi : get_PI_codes i = Some pi -> zlen pi = 32 /\ strong pi.
Proof.
  intros H. assert (1 <= i <= 24) as Hi by (unfold get_PI_codes in H; destruct ((1 <=? i) && (i <=? 24)) eqn:E; [lia|done]).
  destruct (get_PI_codes_spec i Hi) as (pi' & E & Hl & _). rewrite H in E. injection E as <-. split; [done|].
  pose proof (forall_range 24 _ (proj1 PI_strong) (i - 1) ltac:(lia)) as Hs. cbv beta in Hs. replace (i - 1 + 1) with i in Hs by lia. rewrite H in Hs. by apply strongb_ok.
Qed.

Lemma strong_PI_blocks L i pi : 0 <= L -> get_PI_codes i = Some pi -> strong (punct_blocks L pi) /\ zlen (punct_blocks L pi) mod 32 = 0.
Proof.
  intros HL H. destruct (get_PI_strong i pi H) as [Hl Hs]. split; [by apply strong_blocks|]. rewrite punct_blocks_length by done. Z.to_euclidean_division_equations; lia.
Qed.

Lemma in_ones_at flags c i : 0 <= i < zlen flags -> rd flags i <> 0 -> In (c + i) (ones_at c flags).
Proof.
  revert c i. induction flags as [|f fs IH]; intros c i Hi Hf; [unfold zlen in Hi; cbn in Hi; lia|]. cbn [ones_at].
  destruct (Z.eq_dec i 0) as [->|Hne].
  - change (rd (f :: fs) 0) with f in Hf. destruct (Z.eqb_spec f 0); [done|]. left. lia.
  - rewrite rd_cons in Hf by lia. apply in_or_app. right. replace (c + i) with (c + 1 + (i - 1)) by lia. apply IH; [unfold zlen in *; cbn in Hi; lia|done].
Qed.

Lemma ones_at_value flags c x : x ∈ ones_at c flags -> rd flags (x - c) <> 0.
Proof.
  revert c. induction flags as [|f fs IH]; intros c; cbn [ones_at]; [by intros ?%not_elem_of_nil|]. rewrite elem_of_app. intros [H|H].
  - destruct (Z.eqb_spec f 0) as [|Hf]; [by apply not_elem_of_nil in H|]. apply list_elem_of_singleton in H as ->. by rewrite Z.sub_diag.
  - pose proof (ones_at_bounds _ _ _ H). rewrite rd_cons by lia. apply IH in H. by replace (x - c - 1) with (x - (c + 1)) by lia.
Qed.

(** What the receiver takes for the sequence of a sub-channel. *)
Definition PI (i : Z) : list Z := default [] (get_PI_codes i).
Lemma PI_Some i pi : get_PI_codes i = Some pi -> PI i = pi.
Proof. unfold PI. by intros ->. Qed.

Definition code_puncturing (d : SDescriptorType) : list Z :=
  if dShortForm d then
    match uep_row (dBitRate d) (dProtLevel d) with
    | Some pp => uep_flags pp (PI (pPI1 pp)) (PI (pPI2 pp)) (PI (pPI3 pp)) (PI (pPI4 pp))
    | None => []
    end
  else
    match eep_profile (dBitRate d) (dProtLevel d) with
    | Some (L1, L2, i1, i2) => eep_flags L1 L2 (PI i1) (PI i2)
    | None => []
    end.

Lemma deconvolver_punctures d : valid_desc d ->
  BackendDeconvolver_new d = Some (mkProtection (dBitRate d) (24 * dBitRate d) (zeros (96 * dBitRate d + 24)) (ones_at 0 (code_puncturing d))) /\
  zlen (code_puncturing d) = 96 * dBitRate d + 24 /\ strong (code_puncturing d) /\ 8 <= dBitRate d.
Proof.
  intros [Hcu H]. unfold BackendDeconvolver_new, code_puncturing. replace (96 * dBitRate d + 24) with (24 * dBitRate d * 4 + 24) by lia. destruct (dShortForm d).
  - destruct H as (cu & H). pose proof uep_table_ok as Ht. rewrite forallb_forall in Ht. specialize (Ht _ H). unfold uep_entry_ok in Ht. cbn [tBitRate ProtLevel CUSize] in Ht.
    destruct (uep_row (dBitRate d) (dProtLevel d)) as [pp|] eqn:Er; [|done]. apply andb_true_iff in Ht as [Ht _]. apply andb_true_iff in Ht as [Ht Hok]. apply andb_true_iff in Ht as [Ht H0].
    destruct (uep_build (dBitRate d) (dProtLevel d) pp ltac:(lia) Er Hok) as (p1 & p2 & p3 & p4 & Hn & Hl & _ & E1 & E2 & E3 & E4).
    rewrite (PI_Some _ _ E1), (PI_Some _ _ E2), (PI_Some _ _ E3). change (default [] (get_PI_codes (pPI4 pp))) with (PI (pPI4 pp)) in E4. rewrite <- E4. split; [done|]. split; [lia|]. unfold uep_row_ok in Hok. zbool. split.
    + destruct (strong_PI_blocks (pL1 pp) _ _ ltac:(lia) E1), (strong_PI_blocks (pL2 pp) _ _ ltac:(lia) E2), (strong_PI_blocks (pL3 pp) _ _ ltac:(lia) E3).
      assert (strong (punct_blocks (pL4 pp) p4) /\ zlen (punct_blocks (pL4 pp) p4) mod 32 = 0) as [? ?].
      { unfold PI in E4. destruct (get_PI_codes (pPI4 pp)) as [q|] eqn:E5; cbn in E4; subst p4; [by apply (strong_PI_blocks _ (pPI4 pp)); [lia|]|].
        assert (pL4 pp = 0) as ->; [|split; [exact strong_nil|done]].
        destruct (pi_codeb (pPI4 pp)) eqn:E6; [|cbn [orb] in *; zbool; lia]. unfold pi_codeb in E6. zbool. destruct (get_PI_codes_spec (pPI4 pp) ltac:(lia)) as (? & Ex & _). by rewrite Ex in E5. }
      unfold uep_flags. repeat (apply strong_app; [done|done|]). apply strongb_ok, PI_strong.
    + assert (forallb (fun e => 8 <=? tBitRate e) cProtLevelTable = true) as Ha by (by vm_compute).
      rewrite forallb_forall in Ha. specialize (Ha _ H). cbn [tBitRate] in Ha. lia.
  - destruct H as [Hb Hl]. destruct (eep_profile_cases (dBitRate d) (dProtLevel d) Hb Hl) as (L1 & L2 & i1 & i2 & E & H1 & H2 & H3 & H4 & H5 & _).
    destruct (eep_build (dBitRate d) (dProtLevel d) L1 L2 i1 i2 E) as (p1 & p2 & E1 & E2 & Hn & Hz & _); [lia..|]. rewrite E. rewrite (PI_Some _ _ E1), (PI_Some _ _ E2).
    split; [done|]. split; [lia|]. split; [|done].
    destruct (strong_PI_blocks L1 _ _ ltac:(lia) E1), (strong_PI_blocks L2 _ _ ltac:(lia) E2). unfold eep_flags. repeat (apply strong_app; [done|done|]). apply strongb_ok, PI_strong.
Qed.

Lemma puncturing_code d : servable d -> code_puncturing d = puncturing d.
Proof.
  intros [[_ H] Hne]. unfold code_puncturing, puncturing, uep_80_1 in *. destruct (dShortForm d).
  - destruct H as (cu & H). pose proof (uep_code (mkProtLevel cu (dProtLevel d) (dBitRate d))) as E. cbn [tBitRate ProtLevel] in E.
    destruct (uep_entry_build _ H) as (_ & pp & Er & _). cbn [tBitRate ProtLevel] in Er. rewrite Er. symmetry. by apply E.
  - destruct H as [Hb Hl]. destruct (eep_profile_cases (dBitRate d) (dProtLevel d) Hb Hl) as (L1 & L2 & i1 & i2 & E & H1 & H2 & H3 & H4 & _).
    rewrite E. unfold profile. rewrite (eep_code _ _ _ _ _ _ (conj Hb Hl) E). unfold eep_flags. cbn [flat_map fst snd]. unfold blocks.
    rewrite (PI_Some i1 (vector i1)), (PI_Some i2 (vector i2)) by (by apply get_vector). by rewrite <- tail_code, app_nil_r, <- !app_assoc.
Qed.

(** The decoder of a sub-channel has the sequence of the standard. *)
Lemma deconvolver_standard d : servable d ->
  BackendDeconvolver_new d = Some (mkProtection (dBitRate d) (24 * dBitRate d) (zeros (96 * dBitRate d + 24)) (ones_at 0 (puncturing d))) /\
  zlen (puncturing d) = 96 * dBitRate d + 24 /\ strong (puncturing d) /\ 8 <= dBitRate d.
Proof. intros Hd. rewrite <- puncturing_code by done. apply deconvolver_punctures, Hd. Qed.

(** ** A frame *)
Lemma zlen_conv s us : zlen (conv_encode s us) = 4 * zlen us.
Proof. revert s. induction us as [|u us IH]; intros s; [done|]. cbn [conv_encode]. rewrite zlen_app, IH. unfold zlen. cbn [length conv_bits map polys]. lia. Qed.

Lemma zlen_mother_code us : Forall is_bit us -> zlen (mother_code us) = 4 * zlen us + 24.
Proof. intros Hu. rewrite mother_code_conv, zlen_conv, zlen_app, zlen_zeros by (done || lia). lia. Qed.

(** The soft values [input] fit the code bits and the puncturing. *)
Definition fits (flags code input : list Z) : Prop :=
  forall i, 0 <= i < zlen code ->
    (rd flags i <> 0 -> soft_ok (rd code i) (rd input i) = true) /\ (rd flags i = 0 -> rd input i = 0).

Lemma heard_fits input flags : strong flags -> forall us t s, 0 <= t -> 4 * t + 4 * zlen us <= zlen flags ->
  (forall i, 0 <= i < 4 * zlen us -> (rd flags (4 * t + i) <> 0 -> soft_ok (rd (conv_encode s us) i) (rd input (4 * t + i)) = true) /\
    (rd flags (4 * t + i) = 0 -> rd input (4 * t + i) = 0)) -> heard input t s us.
Proof.
  intros Hst. induction us as [|u us IH]; intros t s Ht Hz Hf; [done|]. assert (zlen (u :: us) = zlen us + 1) as Hl by (unfold zlen; cbn; lia). rewrite Hl in *. pose proof (zlen_nonneg us).
  assert (zlen (conv_bits s u) = 4) as H4 by done. cbn [heard conv_encode] in *. split.
  - intros j Hj. destruct (Hf j ltac:(lia)) as [Ha Hb]. rewrite rd_app_l in Ha by lia. destruct (Z.eq_dec (rd flags (4 * t + j)) 0) as [E|Hne]; [right|left; by apply Ha].
    split; [by apply Hb|]. destruct (kept j (t mod 8)) eqn:Ek; [|done]. exfalso. apply (Hst (4 * t + j)); [lia| |done].
    rewrite <- Ek. f_equal; Z.to_euclidean_division_equations; lia.
  - apply IH; [lia|lia|]. intros i Hi. replace (4 * (t + 1) + i) with (4 * t + (4 + i)) by lia. destruct (Hf (4 + i) ltac:(lia)) as [Ha Hb]. split; [|done].
    intros Hne. specialize (Ha Hne). rewrite rd_app_r, H4 in Ha by lia. by replace (4 + i - 4) with i in Ha by lia.
Qed.

Lemma fits_decodes (m1 m2 output flags us input : list Z) :
  zlen us <= 2000000 -> zlen m1 = 64 -> zlen m2 = 64 -> zlen output = zlen us -> Forall is_bit us ->
  zlen flags = 4 * zlen us + 24 -> strong flags -> fits flags (mother_code us) input ->
  viterbi_deconvolve (zlen us) m1 m2 input output = us.
Proof.
  intros HF H1 H2 Ho Hu Hfl Hst Hfit. apply viterbi_recovers; try done. assert (zlen (us ++ zeros 6) = zlen us + 6) as Hz by (rewrite zlen_app; done).
  apply (heard_fits input flags Hst); [lia|lia|]. rewrite Hz. intros i Hi. rewrite Z.mul_0_r, Z.add_0_l. rewrite <- mother_code_conv by done. apply Hfit. rewrite zlen_mother_code by done. lia.
Qed.

(** The depunctured block. *)
Lemma depuncture_fits flags code soft : zlen flags = zlen code ->
  (forall k, 0 <= k < zlen (ones_at 0 flags) -> soft_ok (rd code (rd (ones_at 0 flags) k)) (rd soft k) = true) ->
  fits flags code (depuncture (ones_at 0 flags) soft (zeros (zlen flags))).
Proof.
  intros Hz Hs i Hi. pose proof (zlen_nonneg flags). destruct (ones_at_ok 0 0 flags (zlen flags) ltac:(lia) ltac:(lia)) as [Hso Hra]. cbn [viterbiBlockAddresses viterbiBlock] in *.
  destruct (depuncture_spec (ones_at 0 flags) soft (zeros (zlen flags)) Hso Hra) as (_ & Hk & Ha). split.
  - intros Hne. pose proof (in_ones_at flags 0 i ltac:(lia) Hne) as Hin. rewrite Z.add_0_l in Hin. destruct (In_rd_exists _ _ Hin) as (k & Hkr & <-). rewrite Hk by done. by apply Hs.
  - intros E. rewrite Ha, rd_zeros; [done|]. intros Hin%list_elem_of_In%ones_at_value. by rewrite Z.sub_0_r in Hin.
Qed.

(** The bits on the air for a logical frame, and soft values that are heard of
    them; those behind are padding. *)
Definition air_frame (d : SDescriptorType) (frame : list Z) : list Z :=
  map (rd (mother_code (dispersed frame))) (ones_at 0 (puncturing d)).
Definition heard_frame (d : SDescriptorType) (frame soft : list Z) : Prop :=
  forall k, 0 <= k < zlen (air_frame d frame) -> soft_ok (rd (air_frame d frame) k) (rd soft k) = true.
Definition logical_frame (d : SDescriptorType) (frame : list Z) : Prop := Forall is_bit frame /\ zlen frame = 24 * dBitRate d.

Lemma prbs_bits n hist : Forall is_bit hist -> Forall is_bit (prbs n hist).
Proof.
  revert hist. induction n as [|n IH]; intros hist H; [constructor|]. cbn [prbs]. cbv zeta.
  assert (is_bit (Z.lxor (rd hist 8) (rd hist 4))) as Hb by (apply lxor_bit; by apply (rd_Forall is_bit)). constructor; [done|]. apply IH. by constructor.
Qed.

Lemma dispersed_frame frame bitRate : 0 <= bitRate -> zlen frame = 24 * bitRate -> Forall is_bit frame ->
  zlen (dispersed frame) = 24 * bitRate /\ Forall is_bit (dispersed frame) /\ disperse (make_disperse bitRate) (dispersed frame) (bitRate * 24) = frame.
Proof.
  intros Hb Hl Hbit. pose proof (zlen_nonneg frame). assert (zlen (dispersed frame) = zlen frame) as L by (unfold dispersed; by rewrite zlen_map_seqZ). split; [lia|]. split.
  - apply Forall_rd_intro. intros i Hi. rewrite L in Hi. unfold dispersed. rewrite rd_map_seqZ by done.
    apply lxor_bit; [apply rd_Forall; [apply is_bit_0|done]|]. apply rd_Forall; [apply is_bit_0|apply prbs_bits]. by apply Forall_replicate.
  - rewrite <- (dispersed_code frame bitRate) by done. by destruct (energy_dispersal_correct bitRate frame Hb ltac:(lia)) as [_ Ed].
Qed.

Lemma frame_recovered d b0 frame soft :
  servable d -> dBitRate d <= 32767 -> Backend_new d = Some b0 -> logical_frame d frame -> heard_frame d frame soft -> decoded b0 soft = frame.
Proof.
  intros Hd Hr Hn [Hbit Hl] Hh. destruct (deconvolver_standard d Hd) as (Ep & Hz & Hst & H8). unfold Backend_new in Hn. rewrite Ep in Hn. cbn [mbind option_bind] in Hn. cbv zeta in Hn. injection Hn as <-.
  unfold decoded, backend_deconvolve, deconvolve. cbn [disperseVector deconvolver desc viterbiBlockAddresses viterbiBlock outSize snd bitRate].
  destruct (dispersed_frame frame (dBitRate d) ltac:(lia) Hl Hbit) as (Ls & Bs & Es).
  assert (zlen (mother_code (dispersed frame)) = 96 * dBitRate d + 24) as Lc by (rewrite zlen_mother_code, Ls by done; lia).
  unfold viterbi_frame. rewrite <- Ls. erewrite fits_decodes; [exact Es|lia|done|done|apply zlen_zeros, zlen_nonneg|done| |exact Hst|].
  - rewrite Ls, Hz. lia.
  - rewrite <- Hz. apply depuncture_fits; [lia|]. intros k Hk. unfold heard_frame, air_frame in Hh. rewrite zlen_map in Hh. specialize (Hh k Hk). by rewrite rd_map in Hh by done.
Qed.

Lemma recovers_frames (d : SDescriptorType) (frames soft : Z -> list Z) (n : Z) :
  servable d -> dBitRate d <= 32767 -> 0 <= n -> (forall r, zlen (soft r) = dCuSize d * 64) ->
  (forall r, 0 <= r < n - 16 -> logical_frame d (frames r) /\ heard_frame d (frames r) (soft r)) ->
  exists b0, Backend_new d = Some b0 /\
    run b0 (map (interleave soft (dCuSize d * 64)) (seqZ 0 n)) = map frames (seqZ 0 (n - 16)).
Proof.
  intros Hd Hr Hn Hz Hh. destruct (delivers_frames d soft n (proj1 Hd) Hn Hz) as (b0 & Eb & E). exists b0. split; [done|]. rewrite E.
  apply map_ext_in. intros r Hin%in_seqZ. destruct (Hh r ltac:(lia)). by apply (frame_recovered d).
Qed.

(** C2: channel coding end to end. For every sub-channel the receiver can serve (with
    the exception of UEP at 80 kbit/s on level 1, where the code's profile is not the
    one of the standard), logical frames that are scrambled, convolutionally encoded,
    punctured by the vectors and profiles of EN 300 401 ([AirCoding], written down
    without the code's tables) and time-interleaved are delivered by the backend bit
    by bit as they were sent, in order and complete, after the sixteen CIFs of delay,
    when every soft value of a sent bit has the right sign and at least a magnitude of
    17 of 127; what is received for the bits of padding does not matter. *)
Theorem backend_recovers_frames (d : SDescriptorType) (frames soft : Z -> list Z) (n : Z) :
  servable d -> dBitRate d <= 32767 -> 0 <= n -> (forall r, zlen (soft r) = dCuSize d * 64) ->
  (forall r, 0 <= r < n - 16 -> logical_frame d (frames r) /\ heard_frame d (frames r) (soft r)) ->
  exists b0, Backend_new d = Some b0 /\
    run b0 (map (interleave soft (dCuSize d * 64)) (seqZ 0 n)) = map frames (seqZ 0 (n - 16)).
Proof. intros Hd Hr Hn Hz Hh. apply recovers_frames; done. Qed.

(** 8 kbit/s at level 3-A. *)
Definition sample_desc : SDescriptorType := mkDescriptor 0 0 6 false 2 8 0.
Definition sample_frame (r : Z) : list Z := map (fun i => (i * i / 5 + r) mod 2) (seqZ 0 192).
Definition sample_soft (r : Z) : list Z := map (fun c => if c =? 1 then 60 else -17) (air_frame sample_desc (sample_frame r)).

Lemma backend_recovers_frames_witness :
  exists b0, Backend_new sample_desc = Some b0 /\ run b0 (map (interleave sample_soft (6 * 64)) (seqZ 0 18)) = map sample_frame (seqZ 0 (18 - 16)).
Proof.
  apply (backend_recovers_frames sample_desc sample_frame sample_soft 18).
  - split; [|reflexivity]. split; [cbn; lia|]. cbn. split; [lia|]. left. split; [lia|reflexivity].
  - cbn. lia.
  - lia.
  - intros r. unfold sample_soft, air_frame. rewrite !zlen_map. vm_compute. reflexivity.
  - intros r Hr. split; [split|].
    + apply Forall_rd_intro. intros i Hi. unfold sample_frame in *. rewrite zlen_map_seqZ in Hi by lia. rewrite rd_map_seqZ by lia. apply Z.mod_pos_bound. lia.
    + unfold sample_frame. rewrite zlen_map_seqZ by lia. reflexivity.
    + intros k Hk. unfold sample_soft. rewrite rd_map by done. unfold soft_ok. destruct (rd (air_frame sample_desc (sample_frame r)) k =? 1); reflexivity.
Defined.
