(* ===== verification/MscHandler.v ===== *)
(** * MSC handler (src/src/base/backend/msc_handler.cpp)

    The handler collects the soft bits of the OFDM symbols of a CIF and passes
    each running backend its sub-channel; services are started and stopped by
    the GUI thread.  All operations hold [mMutex], so they are atomic steps on
    the state.  A failing [assert] is [None].

    [ServiceBackend] is what the handler uses of a backend: its descriptor, the
    call with the soft bits of its sub-channel, and its constructor as the
    argument of [set_channel].  Backend.v is an instance; the backend with its
    driver in BackendDriver.v is another one.

    Theorems: eighteen symbols make one CIF, in order, and each backend is
    called exactly once with exactly its capacity units; stopping a service
    removes that service and no other. *)
From S2P Require Import Prelude Viterbi Protection Backend.
Open Scope Z_scope.

Inductive EProcessFlag := Primary | Secondary.
#[export] Instance EProcessFlag_eq_dec : EqDecision EProcessFlag.
Proof. solve_decision. Defined.

Definition cCUSizeBits : Z := 64.
Definition cCifSizeBits : Z := 55296.
Definition cNumberOfBlocksPerCif : Z := 18.
Definition c2K : Z := 3072.

(** What the handler needs of a backend; [E] is what a call hands on. *)
Class ServiceBackend (B E : Type) := {
  backend_desc : B -> SDescriptorType;
  backend_process : list Z -> B -> option (B * list E)
}.

#[export] Instance plain_backend : ServiceBackend Backend (list Z) := {
  backend_desc := desc;
  backend_process := fun iV b => let '(b, out) := process b iV in Some (b, option_list out)
}.

(** An entry of [mBackendList]: the backend and its [processFlag]. *)
Record MscHandler (B : Type) := mkMsc { mBackendList : list (B * EProcessFlag); mCifVector : list Z }.
Arguments mkMsc {B}.
Arguments mBackendList {B}.
Arguments mCifVector {B}.

Lemma zlen_concat n (bs : list (list Z)) :
  Forall (fun x => zlen x = n) bs -> zlen (concat bs) = zlen bs * n.
Proof.
  induction 1 as [|x bs Hx _ IH]; [done|]. simpl. rewrite zlen_app, Hx, IH. unfold zlen. simpl. lia.
Qed.

Section handler.
Context {B E : Type} `{ServiceBackend B E}.
#[local] Abbreviation entry := (B * EProcessFlag)%type.
#[local] Abbreviation MscHandler := (MscHandler B).

Definition MscHandler_new : MscHandler := mkMsc [] (zeros cCifSizeBits).

Definition reset_channel (h : MscHandler) : MscHandler := mkMsc [] (mCifVector h).
Definition stop_all_services (h : MscHandler) : MscHandler := mkMsc [] (mCifVector h).

Definition serves (iSubChId : Z) (iProcessFlag : EProcessFlag) (e : entry) : bool :=
  (dSubChId (backend_desc (fst e)) =? iSubChId) && bool_decide (snd e = iProcessFlag).

(** The loop of [stop_service]: [removeAt(i); --i] when the entry matches, then
    [i++]; fuel is the number of entries. *)
Fixpoint stop_loop (fuel : nat) (i : nat) (iSubChId : Z) (f : EProcessFlag) (l : list entry) : list entry :=
  match fuel with
  | O => l
  | S fuel =>
      match l !! i with
      | None => l
      | Some e =>
          if serves iSubChId f e then stop_loop fuel i iSubChId f (delete i l)
          else stop_loop fuel (i + 1) iSubChId f l
      end
  end.

Definition stop_service (h : MscHandler) (iSubChId : Z) (f : EProcessFlag) : MscHandler :=
  mkMsc (stop_loop (length (mBackendList h)) 0 iSubChId f (mBackendList h)) (mCifVector h).

Definition is_service_running (h : MscHandler) (iSubChId : Z) (f : EProcessFlag) : bool :=
  existsb (serves iSubChId f) (mBackendList h).

(** [create] is the constructor of the backend with the arguments of the call. *)
Definition set_channel (h : MscHandler) (create : option B) (f : EProcessFlag) : option MscHandler :=
  b ← create;
  Some (mkMsc (mBackendList h ++ [(b, f)]) (mCifVector h)).

(** [memcpy(&v[off], src, |src|)] *)
Definition copy_at (v : list Z) (off : Z) (src : list Z) : list Z :=
  zfor 0 (zlen src) (fun i v => wr v (i + off) (rd src i)) v.

Definition call_backend (cif : list Z) (e : entry) : option (entry * list E) :=
  let d := backend_desc (fst e) in
  r ← backend_process (slice cif (dCuStartAddr d * cCUSizeBits) (dCuSize d * cCUSizeBits)) (fst e);
  Some ((fst r, snd e), snd r).

(** The state after the block, and what each backend handed on. *)
Definition process_block (h : MscHandler) (iSoftBits : list Z) (iBlockNr : Z) : option (MscHandler * list (list E)) :=
  if negb ((4 <=? iBlockNr) && (zlen iSoftBits =? c2K)) then None
  else
    let curBlockIdx := (iBlockNr - 4) mod cNumberOfBlocksPerCif in
    let cif := copy_at (mCifVector h) (curBlockIdx * c2K) iSoftBits in
    if curBlockIdx <? cNumberOfBlocksPerCif - 1 then Some (mkMsc (mBackendList h) cif, [])
    else
      r ← mapM (call_backend cif) (mBackendList h);
      Some (mkMsc (map fst r) cif, map snd r).

(** The symbols of one CIF, block numbers [nr, nr + 1, ...]. *)
Fixpoint process_blocks (h : MscHandler) (nr : Z) (blocks : list (list Z)) : option (MscHandler * list (list E)) :=
  match blocks with
  | [] => Some (h, [])
  | x :: xs =>
      '(h, o1) ← process_block h x nr;
      '(h, o2) ← process_blocks h (nr + 1) xs;
      Some (h, o1 ++ o2)
  end.

(** ** Stopping services *)
Lemma stop_loop_spec fuel done l s f :
  (length l <= fuel)%nat ->
  stop_loop fuel (length done) s f (done ++ l) = done ++ filter (fun e => serves s f e = false) l.
Proof.
  revert fuel done. induction l as [|e l IH]; intros fuel dn Hf.
  - rewrite filter_nil, app_nil_r. destruct fuel; [done|]. simpl. by rewrite lookup_ge_None_2.
  - destruct fuel as [|fuel]; [simpl in Hf; lia|]. simpl in Hf. cbn [stop_loop].
    rewrite lookup_app_r, Nat.sub_diag by done. cbn [lookup list_lookup]. rewrite filter_cons.
    destruct (serves s f e) eqn:Es.
    + rewrite decide_False by done. rewrite delete_middle. apply IH. lia.
    + rewrite decide_True by done. specialize (IH fuel (dn ++ [e]) ltac:(lia)).
      rewrite length_app, <- !app_assoc in IH. simpl in IH. rewrite <- IH. done.
Qed.

(** [stop_service] terminates with the backends of that sub-channel and
    process flag removed, the others kept in their order and untouched; the
    service is not running afterwards and every other running service still
    is. *)
Theorem stop_service_correct (h : MscHandler) (s : Z) (f : EProcessFlag) :
  mBackendList (stop_service h s f) = filter (fun e => serves s f e = false) (mBackendList h) /\
  is_service_running (stop_service h s f) s f = false /\
  (forall s' f', (s', f') <> (s, f) ->
     is_service_running (stop_service h s f) s' f' = is_service_running h s' f').
Proof.
  assert (mBackendList (stop_service h s f) = filter (fun e => serves s f e = false) (mBackendList h)) as Eq
    by (apply (stop_loop_spec _ []); done).
  split; [done|]. unfold is_service_running. rewrite Eq.
  generalize (mBackendList h). intros l. split.
  - apply not_true_iff_false. intros (e & He & Hs)%existsb_exists.
    apply list_elem_of_In, list_elem_of_filter in He as [He _]. congruence.
  - intros s' f' Hne. induction l as [|e l IH]; [done|]. rewrite filter_cons. case_decide as Hd.
    + simpl. by rewrite IH.
    + rewrite IH. simpl. destruct (serves s' f' e) eqn:Es'; [|done]. destruct Hne.
      apply not_false_iff_true in Hd. unfold serves in Hd, Es'. zbool.
      rewrite !bool_decide_eq_true in *. congruence.
Qed.

(** ** Assembling a CIF *)
Lemma copy_at_middle pre old post src :
  zlen src = zlen old -> copy_at (pre ++ old ++ post) (zlen pre) src = pre ++ src ++ post.
Proof.
  intros Hl. unfold copy_at. pose proof (zlen_nonneg pre). pose proof (zlen_nonneg src).
  pose proof (zlen_nonneg post).
  destruct (zfor_scatter_spec (fun i _ => rd src i) (zlen pre) 0 (zlen src) (pre ++ old ++ post)) as [L R];
    [lia..|rewrite !zlen_app; lia|].
  apply list_eq_rd; [rewrite L, !zlen_app; lia|]. rewrite L, !zlen_app. intros i Hi. rewrite R.
  destruct (Z.leb_spec 0 (i - zlen pre)), (Z.ltb_spec (i - zlen pre) (zlen src)); simpl; try lia.
  - by rewrite rd_app_r, rd_app_l by lia.
  - rewrite !(rd_app_r pre) by lia. rewrite !rd_app_r by lia. f_equal. lia.
  - by rewrite !rd_app_l by lia.
Qed.

Lemma process_block_cif h pre old post x c k :
  0 <= c -> 0 <= k < 18 -> mCifVector h = pre ++ old ++ post ->
  zlen pre = k * c2K -> zlen old = c2K -> zlen x = c2K ->
  process_block h x (4 + 18 * c + k) =
  let cif := pre ++ x ++ post in
  if k <? 17 then Some (mkMsc (mBackendList h) cif, [])
  else r ← mapM (call_backend cif) (mBackendList h); Some (mkMsc (map fst r) cif, map snd r).
Proof.
  intros Hc Hk Hv Hp Ho Hx. unfold process_block, cNumberOfBlocksPerCif. rewrite Hx, Z.eqb_refl.
  destruct (Z.leb_spec 4 (4 + 18 * c + k)); [|lia]. simpl negb. cbv iota zeta.
  replace ((4 + 18 * c + k - 4) mod 18) with k by (Z.to_euclidean_division_equations; lia).
  rewrite Hv, <- Hp, copy_at_middle by congruence. by change (18 - 1) with 17.
Qed.

Lemma process_blocks_prefix h pre rest bs c k :
  0 <= c -> 0 <= k -> mCifVector h = pre ++ rest -> zlen pre = k * c2K -> zlen rest = (18 - k) * c2K ->
  Forall (fun x => zlen x = c2K) bs -> k + zlen bs <= 17 ->
  process_blocks h (4 + 18 * c + k) bs =
  Some (mkMsc (mBackendList h) (pre ++ concat bs ++ drop (Z.to_nat (zlen bs * c2K)) rest), []).
Proof.
  intros Hc Hk Hv Hp Hr Hb. revert h pre rest k Hk Hv Hp Hr.
  induction Hb as [|x bs Hx Hb IH]; intros h pre rest k Hk Hv Hp Hr Hl.
  - simpl. destruct h. simpl in *. by subst.
  - assert (zlen (x :: bs) = zlen bs + 1) as El by (unfold zlen; simpl; lia). pose proof (zlen_nonneg bs).
    unfold c2K in *. cbn [process_blocks].
    rewrite (process_block_cif h pre (take 3072 rest) (drop 3072 rest) x c k); unfold c2K;
      [|done|lia|by rewrite take_drop|done|unfold zlen in *; rewrite length_take; lia|done].
    destruct (Z.ltb_spec k 17); [|lia]. cbn [mbind option_bind].
    replace (4 + 18 * c + k + 1) with (4 + 18 * c + (k + 1)) by lia.
    rewrite (IH _ (pre ++ x) (drop 3072 rest) (k + 1)); cbn [mCifVector mBackendList];
      [|lia|by rewrite <- app_assoc|rewrite zlen_app; lia|unfold zlen in *; rewrite length_drop; lia|lia].
    cbn [mbind option_bind app concat]. rewrite drop_drop, <- !app_assoc. do 5 f_equal.
    rewrite El. replace (Z.to_nat ((zlen bs + 1) * 3072)) with (3072 + Z.to_nat (zlen bs * 3072))%nat; [done|lia].
Qed.

Lemma process_blocks_app h nr xs ys :
  process_blocks h nr (xs ++ ys) =
  '(h, o1) ← process_blocks h nr xs; '(h, o2) ← process_blocks h (nr + zlen xs) ys; Some (h, o1 ++ o2).
Proof.
  revert h nr. induction xs as [|x xs IH]; intros h nr.
  - simpl. change (zlen []) with 0. rewrite Z.add_0_r. by destruct (process_blocks h nr ys) as [[? ?]|].
  - cbn [app process_blocks]. destruct (process_block h x nr) as [[h1 o1]|]; [|done].
    cbn [mbind option_bind]. rewrite IH. replace (nr + 1 + zlen xs) with (nr + zlen (x :: xs))
      by (unfold zlen; simpl; lia).
    destruct (process_blocks h1 (nr + 1) xs) as [[h2 o2]|]; [|done]. cbn [mbind option_bind].
    destruct (process_blocks h2 _ ys) as [[h3 o3]|]; [|done]. cbn [mbind option_bind]. by rewrite app_assoc.
Qed.

Lemma cif_assembled (h : MscHandler) (c : Z) (blocks : list (list Z)) :
  0 <= c -> zlen (mCifVector h) = cCifSizeBits -> length blocks = 18%nat ->
  Forall (fun x => zlen x = c2K) blocks ->
  process_blocks h (4 + 18 * c) blocks =
  r ← mapM (call_backend (concat blocks)) (mBackendList h); Some (mkMsc (map fst r) (concat blocks), map snd r).
Proof.
  intros Hc Hv Hl Hb. destruct blocks as [|last bs _] using rev_ind; [done|].
  rewrite length_app in Hl. simpl in Hl. apply Forall_app in Hb as [Hb Hlast].
  apply Forall_cons_1 in Hlast as [Hlast _].
  assert (zlen bs = 17) as Hz by (unfold zlen; lia). unfold cCifSizeBits, c2K in *.
  rewrite process_blocks_app. replace (4 + 18 * c) with (4 + 18 * c + 0) by lia.
  rewrite (process_blocks_prefix h [] (mCifVector h) bs c 0); unfold c2K; try done; [|lia..].
  cbn [mbind option_bind app process_blocks]. rewrite Hz. set (K := Z.to_nat (17 * 3072)).
  replace (4 + 18 * c + 0 + 17) with (4 + 18 * c + 17) by lia.
  rewrite (process_block_cif _ (concat bs) (drop K (mCifVector h)) [] last c 17); unfold c2K;
    [|done|lia|by rewrite app_nil_r|..|done].
  - cbn [mbind option_bind app mBackendList]. rewrite Z.ltb_irrefl. rewrite concat_app. change (concat [last]) with (last ++ []). rewrite !app_nil_r.
    destruct (mapM _ (mBackendList h)) as [r|]; cbn [mbind option_bind]; by rewrite ?app_nil_r.
  - by rewrite (zlen_concat 3072), Hz.
  - unfold zlen, K in *. rewrite length_drop. lia.
Qed.

(** The bits of a sub-channel are those of its capacity units, of 64 bits each. *)
Definition capacity_unit (cif : list Z) (k : Z) : list Z := take 64 (drop (Z.to_nat (64 * k)) cif).
Definition sub_channel_bits (cif : list Z) (d : SDescriptorType) : list Z := concat (map (capacity_unit cif) (seqZ (dCuStartAddr d) (dCuSize d))).
Definition inside_cif (d : SDescriptorType) : Prop := 0 <= dCuStartAddr d /\ 0 <= dCuSize d /\ dCuStartAddr d + dCuSize d <= 864.

Lemma sub_channel_slice cif start n : 0 <= start -> concat (map (capacity_unit cif) (seqZ start (Z.of_nat n))) = slice cif (start * 64) (Z.of_nat n * 64).
Proof.
  revert start. induction n as [|n IH]; intros start Hs; [done|].
  rewrite seqZ_cons by lia. replace (Z.pred (Z.of_nat (S n))) with (Z.of_nat n) by lia. cbn [map concat]. rewrite IH by lia.
  unfold slice, capacity_unit. replace (Z.to_nat (Z.of_nat (S n) * 64)) with (64 + Z.to_nat (Z.of_nat n * 64))%nat by lia.
  replace (Z.to_nat (Z.succ start * 64)) with (Z.to_nat (64 * start) + 64)%nat by lia. replace (Z.to_nat (start * 64)) with (Z.to_nat (64 * start)) by lia.
  rewrite <- drop_drop. set (l := drop _ cif). rewrite <- (take_drop 64 (take (64 + Z.to_nat (Z.of_nat n * 64)) l)). f_equal.
  - rewrite take_take. by f_equal; lia.
  - rewrite skipn_firstn_comm. f_equal. lia.
Qed.

Lemma call_backend_bits cif e : inside_cif (backend_desc (fst e)) ->
  call_backend cif e = r ← backend_process (sub_channel_bits cif (backend_desc (fst e))) (fst e); Some ((fst r, snd e), snd r).
Proof.
  intros (Hs & Hn & _). unfold call_backend, sub_channel_bits, cCUSizeBits.
  rewrite <- (Z2Nat.id (dCuSize _)), sub_channel_slice by done. by rewrite Z2Nat.id.
Qed.

(** C32: the eighteen symbols of a CIF (blocks 4 + 18c .. 21 + 18c) are put
    together in order, whatever the buffer held before, and then every backend
    whose sub-channel lies in the CIF is called exactly once, with exactly the
    bits of its own capacity units, 64 each, and keeps its place and flag. *)
Theorem cif_assembly (h : MscHandler) (c : Z) (blocks : list (list Z)) :
  0 <= c -> zlen (mCifVector h) = cCifSizeBits -> length blocks = 18%nat ->
  Forall (fun x => zlen x = c2K) blocks -> Forall (fun e => inside_cif (backend_desc (fst e))) (mBackendList h) ->
  process_blocks h (4 + 18 * c) blocks =
  r ← mapM (fun e => r ← backend_process (sub_channel_bits (concat blocks) (backend_desc (fst e))) (fst e); Some ((fst r, snd e), snd r)) (mBackendList h);
  Some (mkMsc (map fst r) (concat blocks), map snd r).
Proof.
  intros Hc Hv Hl Hb He. rewrite cif_assembled by done. f_equal. induction He as [|e l He _ IH]; [done|]. cbn [mapM]. by rewrite call_backend_bits, IH.
Qed.
End handler.

(** A backend that hands on what it is called with. *)
Definition recorder : ServiceBackend SDescriptorType (list Z) := {| backend_desc := id; backend_process := fun iV d => Some (d, [iV]) |}.
Definition recorder_at (start size : Z) : SDescriptorType := mkDescriptor 0 start size false 2 64 start.
Definition counted_blocks : list (list Z) := map (fun b => map (fun i => (b * 3072 + i) mod 127) (seqZ 0 3072)) (seqZ 0 18).

Lemma cif_assembly_witness :
  exists cif, process_blocks (H := recorder) (mkMsc [(recorder_at 2 3, Primary); (recorder_at 860 4, Secondary)] (zeros cCifSizeBits)) (4 + 18 * 2) counted_blocks =
  Some (mkMsc [(recorder_at 2 3, Primary); (recorder_at 860 4, Secondary)] cif,
    [[map (fun i => i mod 127) (seqZ 128 192)]; [map (fun i => i mod 127) (seqZ 55040 256)]]).
Proof.
  exists (concat counted_blocks). etrans; [apply (cif_assembly (H := recorder))|].
  - lia.
  - cbn [mCifVector]. apply zlen_zeros. unfold cCifSizeBits. lia.
  - reflexivity.
  - unfold counted_blocks. apply List.Forall_forall. intros x (b & <- & _)%in_map_iff. unfold zlen. rewrite length_map, length_seqZ. reflexivity.
  - repeat constructor; cbn; lia.
  - assert (sub_channel_bits (concat counted_blocks) (recorder_at 2 3) = map (fun i => i mod 127) (seqZ 128 192)) as E1 by (vm_compute; reflexivity).
    assert (sub_channel_bits (concat counted_blocks) (recorder_at 860 4) = map (fun i => i mod 127) (seqZ 55040 256)) as E2 by (vm_compute; reflexivity).
    generalize dependent (concat counted_blocks). intros cif E1 E2.
    change (Some (mkMsc [(recorder_at 2 3, Primary); (recorder_at 860 4, Secondary)] cif,
      [[sub_channel_bits cif (recorder_at 2 3)]; [sub_channel_bits cif (recorder_at 860 4)]]) =
      Some (mkMsc [(recorder_at 2 3, Primary); (recorder_at 860 4, Secondary)] cif, [[map (fun i => i mod 127) (seqZ 128 192)]; [map (fun i => i mod 127) (seqZ 55040 256)]])).
    by rewrite E1, E2.
Defined.
