(* ===== verification/FreqInterleaver.v ===== *)
(** * Frequency interleaver (src/src/base/ofdm/freq_interleaver.cpp)

    The table that maps the 1536 QPSK symbols of an OFDM symbol to carriers.
    Theorem: it is a bijection onto the carriers -768 .. 768 without 0. *)
From S2P Require Import Prelude.
From stdpp Require Import gmap.
Open Scope Z_scope.

Definition cTu : Z := 2048.
Definition cK : Z := 1536.

(** The state of the second loop is [index] and [mPermTable]. *)
Definition createMapper (iV1 iLwb iUpb : Z) (permTable : list Z) : Z * list Z :=
  let tmp := wr (zeros cTu) 0 0 in
  let tmp := zfor 1 cTu (fun i tmp => wr tmp i (Z.rem (13 * rd tmp (i - 1) + iV1) cTu)) tmp in
  zfor 0 cTu (fun i st =>
    let '(index, table) := st in
    if rd tmp i =? cTu / 2 then (index, table)
    else if (rd tmp i <? iLwb) || (iUpb <? rd tmp i) then (index, table)
    else (index + 1, wr table index (i16 (rd tmp i - cTu / 2)))) (0, permTable).

Definition FreqInterleaver_new : list Z := snd (createMapper 511 256 (256 + cK) (zeros cTu)).

Definition map_k_to_fft_bin (table : list Z) (k : Z) : Z := rd table k.

(** ** Correctness *)
Fixpoint nodupb (seen : gset Z) (l : list Z) : bool :=
  match l with
  | [] => true
  | x :: l => negb (bool_decide (x ∈ seen)) && nodupb ({[x]} ∪ seen) l
  end.

Lemma nodupb_spec seen l : nodupb seen l = true -> NoDup l /\ forall x, x ∈ l -> x ∉ seen.
Proof.
  revert seen. induction l as [|x l IH]; intros seen H.
  - split; [constructor|]. intros x Hx. by apply not_elem_of_nil in Hx.
  - simpl in H. zbool. rewrite bool_decide_eq_false in *. destruct (IH _ H0) as [Hn Hs]. split.
    + constructor; [|done]. intros Hx. apply Hs in Hx. set_solver.
    + intros y [->|Hy]%elem_of_cons; [done|]. apply Hs in Hy. set_solver.
Qed.

Definition is_carrier (c : Z) : Prop := -768 <= c <= 768 /\ c <> 0.

(** The checks a table has to pass. *)
Definition carriers_ok (l : list Z) : bool :=
  nodupb ∅ l && (zlen l =? cK) && forallb (fun c => (-768 <=? c) && (c <=? 768) && negb (c =? 0)) l.

(** The same table as one list computation. *)
Fixpoint lcg (n : nat) (iV1 x : Z) : list Z :=
  match n with O => [] | S n => x :: lcg n iV1 (Z.rem (13 * x + iV1) cTu) end.
Definition keep (iLwb iUpb x : Z) : bool :=
  negb (x =? cTu / 2) && negb ((x <? iLwb) || (iUpb <? x)).
Definition kept (iLwb iUpb : Z) (l : list Z) : list Z :=
  map (fun x => i16 (x - cTu / 2)) (List.filter (keep iLwb iUpb) l).
Definition mapper_ref (iV1 iLwb iUpb : Z) : list Z := kept iLwb iUpb (lcg 2048 iV1 0).

Lemma kept_snoc iLwb iUpb l x :
  kept iLwb iUpb (l ++ [x]) = kept iLwb iUpb l ++ if keep iLwb iUpb x then [i16 (x - cTu / 2)] else [].
Proof. unfold kept. rewrite List.filter_app, map_app. simpl. by destruct (keep iLwb iUpb x). Qed.

Lemma kept_length iLwb iUpb l : zlen (kept iLwb iUpb l) <= zlen l.
Proof.
  induction l as [|x l IH] using rev_ind; [done|]. rewrite kept_snoc, !zlen_app.
  destruct (keep iLwb iUpb x); unfold zlen in *; simpl; lia.
Qed.

Lemma lcg_snoc n iV1 x : lcg (S n) iV1 x = lcg n iV1 x ++ [Nat.iter n (fun x => Z.rem (13 * x + iV1) cTu) x].
Proof.
  revert x. induction n as [|n IH]; intros x; [done|]. change (lcg (S (S n)) iV1 x) with
    (x :: lcg (S n) iV1 (Z.rem (13 * x + iV1) cTu)). rewrite IH, Nat.iter_succ_r. done.
Qed.

Lemma length_lcg n iV1 x : length (lcg n iV1 x) = n.
Proof. revert x. induction n; intros x; [done|]. simpl. by rewrite IHn. Qed.

Lemma tmp_lcg iV1 :
  zfor 1 cTu (fun i tmp => wr tmp i (Z.rem (13 * rd tmp (i - 1) + iV1) cTu)) (wr (zeros cTu) 0 0)
  = lcg 2048 iV1 0.
Proof.
  assert (forall tmp, tmp = lcg (Z.to_nat cTu) iV1 0 ++ zeros (cTu - cTu) -> tmp = lcg 2048 iV1 0) as H.
  { intros tmp ->. rewrite Z.sub_diag. by rewrite app_nil_r. }
  apply H. apply (zfor_inv (fun i tmp => tmp = lcg (Z.to_nat i) iV1 0 ++ zeros (cTu - i)));
    [unfold cTu; lia|reflexivity|].
  intros i tmp Hi ->. set (n := Z.to_nat (i - 1)). replace (Z.to_nat i) with (S n) by lia.
  replace (Z.to_nat (i + 1)) with (S (S n)) by lia.
  assert (zlen (lcg (S n) iV1 0) = i) as Hl by (unfold zlen; rewrite length_lcg; lia).
  rewrite wr_append by (done || lia). rewrite (lcg_snoc (S n)). do 2 f_equal; [|lia..].
  rewrite rd_app_l by lia. do 2 f_equal. rewrite lcg_snoc.
  rewrite rd_app_r by (unfold zlen; rewrite length_lcg; lia).
  replace (i - 1 - zlen (lcg n iV1 0)) with 0 by (unfold zlen; rewrite length_lcg; lia). done.
Qed.

Lemma createMapper_ref iV1 iLwb iUpb :
  let r := mapper_ref iV1 iLwb iUpb in
  createMapper iV1 iLwb iUpb (zeros cTu) = (zlen r, r ++ zeros (cTu - zlen r)).
Proof.
  unfold createMapper. cbv zeta. rewrite tmp_lcg. unfold mapper_ref.
  pose proof (length_lcg 2048 iV1 0) as Hlen.
  set (tmp := lcg 2048 iV1 0) in *. clearbody tmp.
  replace (kept iLwb iUpb tmp) with (kept iLwb iUpb (take (Z.to_nat cTu) tmp))
    by (rewrite take_ge; [done|unfold cTu; lia]).
  apply (zfor_inv (fun i st => let k := kept iLwb iUpb (take (Z.to_nat i) tmp) in
    st = (zlen k, k ++ zeros (cTu - zlen k)))); [unfold cTu; lia|done|].
  intros i st Hi ->. cbv zeta.
  destruct (lookup_lt_is_Some_2 tmp (Z.to_nat i)) as [x Hx]; [unfold cTu in *; lia|].
  replace (Z.to_nat (i + 1)) with (S (Z.to_nat i)) by lia. rewrite (take_S_r _ _ x) by done.
  rewrite (rd_lookup tmp i x) by (done || lia). rewrite kept_snoc.
  assert (zlen (kept iLwb iUpb (take (Z.to_nat i) tmp)) <= i) as Hl.
  { etrans; [apply kept_length|]. unfold zlen. rewrite length_take. lia. }
  unfold keep. destruct (x =? cTu / 2); [by rewrite app_nil_r|].
  destruct ((x <? iLwb) || (iUpb <? x)); simpl; [by rewrite app_nil_r|].
  rewrite zlen_app, wr_append by (unfold cTu in *; lia || done). change (zlen [_]) with 1.
  by replace (cTu - (zlen (kept iLwb iUpb (take (Z.to_nat i) tmp)) + 1)) with
    (cTu - zlen (kept iLwb iUpb (take (Z.to_nat i) tmp)) - 1) by lia.
Qed.

Lemma carriers_checked :
  zlen (mapper_ref 511 256 (256 + cK)) = cK /\ carriers_ok (mapper_ref 511 256 (256 + cK)) = true.
Proof. split; vm_compute; reflexivity. Qed.

Lemma carriers_bijective table :
  carriers_ok (slice table 0 cK) = true ->
  (forall k, 0 <= k < cK -> is_carrier (map_k_to_fft_bin table k)) /\
  (forall c, is_carrier c -> exists k, 0 <= k < cK /\ map_k_to_fft_bin table k = c /\
     forall k', 0 <= k' < cK -> map_k_to_fft_bin table k' = c -> k' = k).
Proof.
  unfold carriers_ok, map_k_to_fft_bin. intros H. zbool.
  rename select (nodupb _ _ = true) into Hd. rename select (zlen _ = cK) into Hl.
  rename select (forallb _ _ = true) into Hr. apply nodupb_spec in Hd as [Hd _].
  rewrite forallb_forall in Hr.
  assert (forall k, 0 <= k < cK -> slice table 0 cK !! Z.to_nat k = Some (rd table k)) as Hk.
  { intros k Hk. destruct (lookup_lt_is_Some_2 (slice table 0 cK) (Z.to_nat k)) as [c Hc];
      [unfold zlen in Hl; lia|].
    rewrite Hc. f_equal. symmetry. rewrite <- (Z.add_0_l k). rewrite <- (rd_slice _ 0 cK k) by lia.
    apply rd_lookup; [lia|done]. }
  generalize dependent (slice table 0 cK). intros l Hd Hl Hr Hk.
  assert (forall c, c ∈ l -> is_carrier c) as Hc.
  { intros c Hc%list_elem_of_In. specialize (Hr c Hc). zbool. unfold is_carrier. lia. }
  split.
  - intros k Hkr. apply Hc. eapply list_elem_of_lookup_2. by apply Hk.
  - intros c Hcc. assert (c ∈ l) as Hin.
    { assert (l ≡ₚ seqZ (-768) 768 ++ seqZ 1 768) as ->.
      - apply submseteq_length_Permutation.
        + apply NoDup_submseteq; [done|]. intros x Hx%Hc. unfold is_carrier in Hx.
          rewrite elem_of_app, !elem_of_seqZ. lia.
        + unfold zlen, cK in *. rewrite length_app, !length_seqZ. lia.
      - rewrite elem_of_app, !elem_of_seqZ. unfold is_carrier in Hcc. lia. }
    apply list_elem_of_lookup_1 in Hin as [n Hnc].
    assert (Z.of_nat n < cK) as Hlt by (apply lookup_lt_Some in Hnc; unfold zlen in *; lia).
    exists (Z.of_nat n). split_and!; [lia|done|..].
    + pose proof (Hk (Z.of_nat n) ltac:(lia)) as E. rewrite Nat2Z.id in E. congruence.
    + intros k' Hk' E. pose proof (Hk k' Hk') as E2. rewrite E in E2.
      pose proof (NoDup_lookup _ _ _ _ Hd E2 Hnc). lia.
Qed.

(** The frequency interleaver is a bijection: the first 1536 entries of
    the table are exactly the carriers -768 .. 768 without the DC carrier,
    each once; all 1536 entries are written and none beyond. *)
Theorem freq_interleaver_bijective :
  fst (createMapper 511 256 (256 + cK) (zeros cTu)) = cK /\
  (forall k, 0 <= k < cK -> is_carrier (map_k_to_fft_bin FreqInterleaver_new k)) /\
  (forall c, is_carrier c -> exists k, 0 <= k < cK /\ map_k_to_fft_bin FreqInterleaver_new k = c /\
     forall k', 0 <= k' < cK -> map_k_to_fft_bin FreqInterleaver_new k' = c -> k' = k).
Proof.
  destruct carriers_checked as [Hn H]. unfold FreqInterleaver_new. rewrite createMapper_ref.
  revert Hn H. generalize (mapper_ref 511 256 (256 + cK)). intros l Hn H. cbn [fst snd].
  split; [exact Hn|]. apply carriers_bijective. rewrite Hn. unfold slice. change (Z.to_nat 0) with 0%nat.
  rewrite drop_0, take_app_length' by (unfold zlen in Hn; lia). exact H.
Qed.
