(* ===== verification/FibConfig.v ===== *)
(** * FIB configuration data (src/src/base/decoder)

    The collected multiplex configuration: the structures of
    fib_config_fig0.h and fib_config_fig1.h with the look-ups of
    fib_config_fig0.cpp and fib_config_fig1.cpp, and the time stamps of
    fib_helper.h.  A [std::vector] of a structure derived from [SFigBase] is a
    list of pairs of the data and its stamp; a look-up that returns a pointer
    returns the element as an option.  Fields hold the bit-field values read
    from the FIC, which fit their C++ types. *)
From S2P Require Import Prelude.
Open Scope Z_scope.

(** ** fib_helper.h: time stamps *)
Record SFigBase := mkBase { TimePoint : Z; TimePoint2ndCall : Z }.
Definition set_current_time (now : Z) : SFigBase := mkBase now 0.
Definition set_current_time_2nd_call (now : Z) (b : SFigBase) : SFigBase :=
  if TimePoint2ndCall b =? 0 then mkBase (TimePoint b) now else b.

Definition vec (A : Type) : Type := list (A * SFigBase).

(** First element with the property, as the [for] loops of the getters. *)
Fixpoint vfind {A} (p : A -> bool) (v : vec A) : option A :=
  match v with
  | [] => None
  | (x, _) :: v => if p x then Some x else vfind p v
  end.
(** [emplace_back] after [set_current_time] *)
Definition vpush {A} (now : Z) (x : A) (v : vec A) : vec A := v ++ [(x, set_current_time now)].
(** [set_current_time_2nd_call] on the element the look-up found *)
Fixpoint vtouch {A} (now : Z) (p : A -> bool) (v : vec A) : vec A :=
  match v with
  | [] => []
  | (x, b) :: v => if p x then (x, set_current_time_2nd_call now b) :: v else (x, b) :: vtouch now p v
  end.

(** ** fib_config_fig0.h *)

(** The union in [SFig0s2_ServiceComponentDefinition]: the member last
    written.  Members are only read under the matching [TMId]. *)
Inductive TMIdData :=
  | TM_dummy
  | TMId00 (SubChId ASCTy : Z)
  | TMId01 (SubChId DSCTy : Z)
  | TMId11 (SCId : Z).
Definition tm_SubChId (t : TMIdData) : Z := match t with TMId00 s _ | TMId01 s _ => s | _ => -1 end.
Definition tm_ASCTy (t : TMIdData) : Z := match t with TMId00 _ a => a | _ => -1 end.
Definition tm_SCId (t : TMIdData) : Z := match t with TMId11 s => s | _ => -1 end.

Definition StreamModeAudio : Z := 0.
Definition StreamModeData : Z := 1.
Definition PacketModeData : Z := 3.

Record SFig0s1_BasicSubChannelOrganization := mk_s1 {
  s1_SubChId : Z;
  s1_StartAddr : Z;
  s1_TableSwitch : Z;
  s1_TableIndex : Z;
  s1_Option : Z;
  s1_ProtectionLevel : Z;
  s1_SubChannelSize : Z;
  s1_BitRate : Z;
  s1_ShortForm : bool
}.

Record SFig0s2_ServiceComponentDefinition := mk_scd {
  scd_TMId : Z;
  scd_Data : TMIdData;
  scd_PS_Flag : Z;
  scd_CA_Flag : Z
}.

Record SFig0s2_BasicService_ServiceCompDef := mk_s2 {
  s2_PD_Flag : Z;
  s2_PD0_SId : Z;
  s2_PD1_SId : Z;
  s2_NumServiceComp : Z;
  s2_ServiceComp_C_index : Z;
  s2_ServiceComp_C : SFig0s2_ServiceComponentDefinition
}.

Record SFig0s3_ServiceComponentPacketMode := mk_s3 {
  s3_SCId : Z;
  s3_CAOrg_Flag : Z;
  s3_DG_Flag : Z;
  s3_DSCTy : Z;
  s3_SubChId : Z;
  s3_PacketAddress : Z;
  s3_CAOrg : Z
}.

Record SFig0s5_ServiceComponentLanguage := mk_s5 {
  s5_LS_Flag : Z;
  s5_Language : Z;
  s5_SubChId : Z;
  s5_SCId : Z
}.

Record SFig0s7_ConfigurationInformation := mk_s7 {
  s7_NumServices : Z;
  s7_Count : Z
}.

Record SFig0s8_ServiceCompGlobalDef := mk_s8 {
  s8_PD_Flag : Z;
  s8_SId : Z;
  s8_Ext_Flag : Z;
  s8_SCIdS : Z;
  s8_LS_Flag : Z;
  s8_SubChId : Z;
  s8_SCId : Z
}.

Record SFig0s9_CountryLtoInterTab := mk_s9 {
  s9_Ext_Flag : Z;
  s9_Ensemble_LTO : Z;
  s9_Ensemble_ECC : Z;
  s9_InterTableId : Z;
  s9_LTO_minutes : Z
}.

Record SXPadData := mk_xp {
  xp_CA_Flag : Z;
  xp_CA_Org_Flag : Z;
  xp_XPadAppTy : Z;
  xp_DG_Flag : Z;
  xp_DSCTy : Z
}.

Record SUserApp := mk_ua {
  ua_UserAppType : Z;
  ua_UserAppDataLength : Z;
  ua_XPadData : option SXPadData
}.

Record SFig0s13_UserApplicationInformation := mk_s13 {
  s13_PD_Flag : Z;
  s13_SId : Z;
  s13_SCIdS : Z;
  s13_NumUserApps : Z;
  s13_UserAppVec : list SUserApp;
  s13_SizeBits : Z
}.

Record SFig0s14_SubChannelOrganization := mk_s14 {
  s14_SubChId : Z;
  s14_FEC_scheme : Z
}.

Record SFig0s17_ProgrammeType := mk_s17 {
  s17_SId : Z;
  s17_SD_Flag : Z;
  s17_IntCode : Z
}.

Record Cluster := mk_cl {
  cl_flags : Z;
  cl_inUse : bool;
  cl_announcing : Z;
  cl_clusterId : Z;
  cl_servicesSIDs : list Z
}.

Record FibConfigFig0 := mkFig0 {
  Fig0s1_BasicSubChannelOrganizationVec : vec SFig0s1_BasicSubChannelOrganization;
  Fig0s2_BasicService_ServiceCompDefVec : vec SFig0s2_BasicService_ServiceCompDef;
  Fig0s3_ServiceComponentPacketModeVec : vec SFig0s3_ServiceComponentPacketMode;
  Fig0s5_ServiceComponentLanguageVec : vec SFig0s5_ServiceComponentLanguage;
  Fig0s7_ConfigurationInformationVec : vec SFig0s7_ConfigurationInformation;
  Fig0s8_ServiceCompGlobalDefVec : vec SFig0s8_ServiceCompGlobalDef;
  Fig0s9_CountryLtoInterTabVec : vec SFig0s9_CountryLtoInterTab;
  Fig0s13_UserApplicationInformationVec : vec SFig0s13_UserApplicationInformation;
  Fig0s14_SubChannelOrganizationVec : vec SFig0s14_SubChannelOrganization;
  Fig0s17_ProgrammeTypeVec : vec SFig0s17_ProgrammeType;
  mClusterTable : list Cluster
}.

(** One setter per member. *)
Definition on_s1 (f : vec SFig0s1_BasicSubChannelOrganization -> vec SFig0s1_BasicSubChannelOrganization) (c : FibConfigFig0) : FibConfigFig0 :=
  mkFig0 (f (Fig0s1_BasicSubChannelOrganizationVec c)) (Fig0s2_BasicService_ServiceCompDefVec c) (Fig0s3_ServiceComponentPacketModeVec c) (Fig0s5_ServiceComponentLanguageVec c) (Fig0s7_ConfigurationInformationVec c) (Fig0s8_ServiceCompGlobalDefVec c) (Fig0s9_CountryLtoInterTabVec c) (Fig0s13_UserApplicationInformationVec c) (Fig0s14_SubChannelOrganizationVec c) (Fig0s17_ProgrammeTypeVec c) (mClusterTable c).
Definition on_s2 (f : vec SFig0s2_BasicService_ServiceCompDef -> vec SFig0s2_BasicService_ServiceCompDef) (c : FibConfigFig0) : FibConfigFig0 :=
  mkFig0 (Fig0s1_BasicSubChannelOrganizationVec c) (f (Fig0s2_BasicService_ServiceCompDefVec c)) (Fig0s3_ServiceComponentPacketModeVec c) (Fig0s5_ServiceComponentLanguageVec c) (Fig0s7_ConfigurationInformationVec c) (Fig0s8_ServiceCompGlobalDefVec c) (Fig0s9_CountryLtoInterTabVec c) (Fig0s13_UserApplicationInformationVec c) (Fig0s14_SubChannelOrganizationVec c) (Fig0s17_ProgrammeTypeVec c) (mClusterTable c).
Definition on_s3 (f : vec SFig0s3_ServiceComponentPacketMode -> vec SFig0s3_ServiceComponentPacketMode) (c : FibConfigFig0) : FibConfigFig0 :=
  mkFig0 (Fig0s1_BasicSubChannelOrganizationVec c) (Fig0s2_BasicService_ServiceCompDefVec c) (f (Fig0s3_ServiceComponentPacketModeVec c)) (Fig0s5_ServiceComponentLanguageVec c) (Fig0s7_ConfigurationInformationVec c) (Fig0s8_ServiceCompGlobalDefVec c) (Fig0s9_CountryLtoInterTabVec c) (Fig0s13_UserApplicationInformationVec c) (Fig0s14_SubChannelOrganizationVec c) (Fig0s17_ProgrammeTypeVec c) (mClusterTable c).
Definition on_s5 (f : vec SFig0s5_ServiceComponentLanguage -> vec SFig0s5_ServiceComponentLanguage) (c : FibConfigFig0) : FibConfigFig0 :=
  mkFig0 (Fig0s1_BasicSubChannelOrganizationVec c) (Fig0s2_BasicService_ServiceCompDefVec c) (Fig0s3_ServiceComponentPacketModeVec c) (f (Fig0s5_ServiceComponentLanguageVec c)) (Fig0s7_ConfigurationInformationVec c) (Fig0s8_ServiceCompGlobalDefVec c) (Fig0s9_CountryLtoInterTabVec c) (Fig0s13_UserApplicationInformationVec c) (Fig0s14_SubChannelOrganizationVec c) (Fig0s17_ProgrammeTypeVec c) (mClusterTable c).
Definition on_s7 (f : vec SFig0s7_ConfigurationInformation -> vec SFig0s7_ConfigurationInformation) (c : FibConfigFig0) : FibConfigFig0 :=
  mkFig0 (Fig0s1_BasicSubChannelOrganizationVec c) (Fig0s2_BasicService_ServiceCompDefVec c) (Fig0s3_ServiceComponentPacketModeVec c) (Fig0s5_ServiceComponentLanguageVec c) (f (Fig0s7_ConfigurationInformationVec c)) (Fig0s8_ServiceCompGlobalDefVec c) (Fig0s9_CountryLtoInterTabVec c) (Fig0s13_UserApplicationInformationVec c) (Fig0s14_SubChannelOrganizationVec c) (Fig0s17_ProgrammeTypeVec c) (mClusterTable c).
Definition on_s8 (f : vec SFig0s8_ServiceCompGlobalDef -> vec SFig0s8_ServiceCompGlobalDef) (c : FibConfigFig0) : FibConfigFig0 :=
  mkFig0 (Fig0s1_BasicSubChannelOrganizationVec c) (Fig0s2_BasicService_ServiceCompDefVec c) (Fig0s3_ServiceComponentPacketModeVec c) (Fig0s5_ServiceComponentLanguageVec c) (Fig0s7_ConfigurationInformationVec c) (f (Fig0s8_ServiceCompGlobalDefVec c)) (Fig0s9_CountryLtoInterTabVec c) (Fig0s13_UserApplicationInformationVec c) (Fig0s14_SubChannelOrganizationVec c) (Fig0s17_ProgrammeTypeVec c) (mClusterTable c).
Definition on_s9 (f : vec SFig0s9_CountryLtoInterTab -> vec SFig0s9_CountryLtoInterTab) (c : FibConfigFig0) : FibConfigFig0 :=
  mkFig0 (Fig0s1_BasicSubChannelOrganizationVec c) (Fig0s2_BasicService_ServiceCompDefVec c) (Fig0s3_ServiceComponentPacketModeVec c) (Fig0s5_ServiceComponentLanguageVec c) (Fig0s7_ConfigurationInformationVec c) (Fig0s8_ServiceCompGlobalDefVec c) (f (Fig0s9_CountryLtoInterTabVec c)) (Fig0s13_UserApplicationInformationVec c) (Fig0s14_SubChannelOrganizationVec c) (Fig0s17_ProgrammeTypeVec c) (mClusterTable c).
Definition on_s13 (f : vec SFig0s13_UserApplicationInformation -> vec SFig0s13_UserApplicationInformation) (c : FibConfigFig0) : FibConfigFig0 :=
  mkFig0 (Fig0s1_BasicSubChannelOrganizationVec c) (Fig0s2_BasicService_ServiceCompDefVec c) (Fig0s3_ServiceComponentPacketModeVec c) (Fig0s5_ServiceComponentLanguageVec c) (Fig0s7_ConfigurationInformationVec c) (Fig0s8_ServiceCompGlobalDefVec c) (Fig0s9_CountryLtoInterTabVec c) (f (Fig0s13_UserApplicationInformationVec c)) (Fig0s14_SubChannelOrganizationVec c) (Fig0s17_ProgrammeTypeVec c) (mClusterTable c).
Definition on_s14 (f : vec SFig0s14_SubChannelOrganization -> vec SFig0s14_SubChannelOrganization) (c : FibConfigFig0) : FibConfigFig0 :=
  mkFig0 (Fig0s1_BasicSubChannelOrganizationVec c) (Fig0s2_BasicService_ServiceCompDefVec c) (Fig0s3_ServiceComponentPacketModeVec c) (Fig0s5_ServiceComponentLanguageVec c) (Fig0s7_ConfigurationInformationVec c) (Fig0s8_ServiceCompGlobalDefVec c) (Fig0s9_CountryLtoInterTabVec c) (Fig0s13_UserApplicationInformationVec c) (f (Fig0s14_SubChannelOrganizationVec c)) (Fig0s17_ProgrammeTypeVec c) (mClusterTable c).
Definition on_s17 (f : vec SFig0s17_ProgrammeType -> vec SFig0s17_ProgrammeType) (c : FibConfigFig0) : FibConfigFig0 :=
  mkFig0 (Fig0s1_BasicSubChannelOrganizationVec c) (Fig0s2_BasicService_ServiceCompDefVec c) (Fig0s3_ServiceComponentPacketModeVec c) (Fig0s5_ServiceComponentLanguageVec c) (Fig0s7_ConfigurationInformationVec c) (Fig0s8_ServiceCompGlobalDefVec c) (Fig0s9_CountryLtoInterTabVec c) (Fig0s13_UserApplicationInformationVec c) (Fig0s14_SubChannelOrganizationVec c) (f (Fig0s17_ProgrammeTypeVec c)) (mClusterTable c).
Definition on_clusters (f : list Cluster -> list Cluster) (c : FibConfigFig0) : FibConfigFig0 :=
  mkFig0 (Fig0s1_BasicSubChannelOrganizationVec c) (Fig0s2_BasicService_ServiceCompDefVec c) (Fig0s3_ServiceComponentPacketModeVec c) (Fig0s5_ServiceComponentLanguageVec c) (Fig0s7_ConfigurationInformationVec c) (Fig0s8_ServiceCompGlobalDefVec c) (Fig0s9_CountryLtoInterTabVec c) (Fig0s13_UserApplicationInformationVec c) (Fig0s14_SubChannelOrganizationVec c) (Fig0s17_ProgrammeTypeVec c) (f (mClusterTable c)).

Definition Cluster_init : Cluster := mk_cl 0 false 0 (-1) [].
Definition FibConfigFig0_new : FibConfigFig0 :=
  mkFig0 [] [] [] [] [] [] [] [] [] [] (replicate 128 Cluster_init).

(** ** fib_config_fig0.cpp *)

(** [reset] clears the vectors; it does not touch [mClusterTable]. *)
Definition reset_fig0 (c : FibConfigFig0) : FibConfigFig0 :=
  mkFig0 [] [] [] [] [] [] [] [] [] [] (mClusterTable c).

Definition s2_get_SId (x : SFig0s2_BasicService_ServiceCompDef) : Z :=
  if s2_PD_Flag x =? 0 then s2_PD0_SId x else s2_PD1_SId x.

(** The look-ups; the parameter types [u8] and [u16] truncate the argument. *)
Definition is_s1 (iSubChId : Z) (x : SFig0s1_BasicSubChannelOrganization) : bool :=
  s1_SubChId x =? iSubChId.
Definition get_Fig0s1_BasicSubChannelOrganization_of_SubChId (c : FibConfigFig0) (iSubChId : Z) : option SFig0s1_BasicSubChannelOrganization :=
  vfind (is_s1 iSubChId) (Fig0s1_BasicSubChannelOrganizationVec c).

Definition is_s2_sid (iSId : Z) (x : SFig0s2_BasicService_ServiceCompDef) : bool :=
  s2_get_SId x =? iSId.
Definition get_Fig0s2_BasicService_ServiceCompDef_of_SId (c : FibConfigFig0) (iSId : Z) : option SFig0s2_BasicService_ServiceCompDef :=
  vfind (is_s2_sid iSId) (Fig0s2_BasicService_ServiceCompDefVec c).

Definition is_s2 (iSId iScIdx : Z) (x : SFig0s2_BasicService_ServiceCompDef) : bool :=
  (s2_get_SId x =? iSId) && (s2_ServiceComp_C_index x =? iScIdx).
Definition get_Fig0s2_BasicService_ServiceCompDef_of_SId_ScIdx (c : FibConfigFig0) (iSId iScIdx : Z) : option SFig0s2_BasicService_ServiceCompDef :=
  vfind (is_s2 iSId iScIdx) (Fig0s2_BasicService_ServiceCompDefVec c).

Definition is_s2_scid (SCId : Z) (x : SFig0s2_BasicService_ServiceCompDef) : bool :=
  (scd_TMId (s2_ServiceComp_C x) =? PacketModeData) && (tm_SCId (scd_Data (s2_ServiceComp_C x)) =? SCId).
Definition get_Fig0s2_BasicService_ServiceCompDef_of_SCId (c : FibConfigFig0) (SCId : Z) : option SFig0s2_BasicService_ServiceCompDef :=
  vfind (is_s2_scid SCId) (Fig0s2_BasicService_ServiceCompDefVec c).

Definition is_s2_tmid (iSId iTMId : Z) (x : SFig0s2_BasicService_ServiceCompDef) : bool :=
  (s2_get_SId x =? iSId) && (scd_TMId (s2_ServiceComp_C x) =? iTMId).
Definition get_Fig0s2_BasicService_ServiceCompDef_of_SId_TMId (c : FibConfigFig0) (iSId iTMId : Z) : option SFig0s2_BasicService_ServiceCompDef :=
  vfind (is_s2_tmid iSId iTMId) (Fig0s2_BasicService_ServiceCompDefVec c).

Definition is_s3 (iSCId : Z) (x : SFig0s3_ServiceComponentPacketMode) : bool :=
  s3_SCId x =? iSCId.
Definition get_Fig0s3_ServiceComponentPacketMode_of_SCId (c : FibConfigFig0) (iSCId : Z) : option SFig0s3_ServiceComponentPacketMode :=
  vfind (is_s3 iSCId) (Fig0s3_ServiceComponentPacketModeVec c).

Definition is_s5_sub (iSubChId : Z) (x : SFig0s5_ServiceComponentLanguage) : bool :=
  (s5_LS_Flag x =? 0) && (s5_SubChId x =? u8 iSubChId).
Definition get_Fig0s5_ServiceComponentLanguage_of_SubChId (c : FibConfigFig0) (iSubChId : Z) : option SFig0s5_ServiceComponentLanguage :=
  vfind (is_s5_sub iSubChId) (Fig0s5_ServiceComponentLanguageVec c).

Definition is_s5_scid (iSCId : Z) (x : SFig0s5_ServiceComponentLanguage) : bool :=
  (s5_LS_Flag x =? 1) && (s5_SCId x =? u8 iSCId).
Definition get_Fig0s5_ServiceComponentLanguage_of_SCId (c : FibConfigFig0) (iSCId : Z) : option SFig0s5_ServiceComponentLanguage :=
  vfind (is_s5_scid iSCId) (Fig0s5_ServiceComponentLanguageVec c).

Definition is_s8 (iSId iSCIdS : Z) (x : SFig0s8_ServiceCompGlobalDef) : bool :=
  (s8_SId x =? iSId) && (s8_SCIdS x =? u8 iSCIdS).
Definition get_Fig0s8_ServiceCompGlobalDef_of_SId_SCIdS (c : FibConfigFig0) (iSId iSCIdS : Z) : option SFig0s8_ServiceCompGlobalDef :=
  vfind (is_s8 iSId iSCIdS) (Fig0s8_ServiceCompGlobalDefVec c).

Definition is_s8_sub (iSId : Z) (x : SFig0s8_ServiceCompGlobalDef) : bool :=
  (s8_LS_Flag x =? 0) && (s8_SId x =? iSId).
Definition get_Fig0s8_ServiceCompGlobalDef_of_SId_with_SubChId (c : FibConfigFig0) (iSId : Z) : option SFig0s8_ServiceCompGlobalDef :=
  vfind (is_s8_sub iSId) (Fig0s8_ServiceCompGlobalDefVec c).

Definition is_s8_scid (iSId : Z) (x : SFig0s8_ServiceCompGlobalDef) : bool :=
  (s8_LS_Flag x =? 1) && (s8_SId x =? iSId).
Definition get_Fig0s8_ServiceCompGlobalDef_of_SId_with_SCId (c : FibConfigFig0) (iSId : Z) : option SFig0s8_ServiceCompGlobalDef :=
  vfind (is_s8_scid iSId) (Fig0s8_ServiceCompGlobalDefVec c).

Definition is_s13 (iSId iSCIdS : Z) (x : SFig0s13_UserApplicationInformation) : bool :=
  (s13_SId x =? iSId) && (s13_SCIdS x =? iSCIdS).
Definition get_Fig0s13_UserApplicationInformation_of_SId_SCIdS (c : FibConfigFig0) (iSId iSCIdS : Z) : option SFig0s13_UserApplicationInformation :=
  vfind (is_s13 iSId iSCIdS) (Fig0s13_UserApplicationInformationVec c).

Definition is_s14 (iSubChId : Z) (x : SFig0s14_SubChannelOrganization) : bool :=
  s14_SubChId x =? iSubChId.
Definition get_Fig0s14_SubChannelOrganization_of_SubChId (c : FibConfigFig0) (iSubChId : Z) : option SFig0s14_SubChannelOrganization :=
  vfind (is_s14 iSubChId) (Fig0s14_SubChannelOrganizationVec c).

Definition is_s17 (iSId : Z) (x : SFig0s17_ProgrammeType) : bool :=
  s17_SId x =? u16 iSId.
Definition get_Fig0s17_ProgrammeType_of_SId (c : FibConfigFig0) (iSId : Z) : option SFig0s17_ProgrammeType :=
  vfind (is_s17 iSId) (Fig0s17_ProgrammeTypeVec c).

Definition get_Fig0s7_ConfigurationInformation (c : FibConfigFig0) : option SFig0s7_ConfigurationInformation :=
  fst <$> head (Fig0s7_ConfigurationInformationVec c).
Definition get_Fig0s9_CountryLtoInterTab (c : FibConfigFig0) : option SFig0s9_CountryLtoInterTab :=
  fst <$> head (Fig0s9_CountryLtoInterTabVec c).

(** ** fib_config_fig1.h: labels.  A name is the list of its characters. *)
Record SFig1_DataField := mk_df {
  df_Charset : Z; df_Name : list Z; df_NameShort : list Z; df_CharFlagField : Z
}.
Record SFig1s0_EnsembleLabel := mk_l0 { l0_df : SFig1_DataField; l0_EId : Z }.
Record SFig1s1_ProgrammeServiceLabel := mk_l1 { l1_df : SFig1_DataField; l1_SId : Z }.
Record SFig1s4_ServiceComponentLabel := mk_l4 {
  l4_df : SFig1_DataField; l4_PD_Flag : Z; l4_SCIdS : Z; l4_SId : Z
}.
Record SFig1s5_DataServiceLabel := mk_l5 { l5_df : SFig1_DataField; l5_SId : Z }.
Record SSId_SCIdS := mk_SId_SCIdS { m_SId : Z; m_SCIdS : Z }.

(** The [std::map] from label to service is an association list without
    duplicate keys; its order is not used. *)
Record FibConfigFig1 := mkFig1 {
  Fig1s0_EnsembleLabelVec : vec SFig1s0_EnsembleLabel;
  Fig1s1_ProgrammeServiceLabelVec : vec SFig1s1_ProgrammeServiceLabel;
  Fig1s4_ServiceComponentLabelVec : vec SFig1s4_ServiceComponentLabel;
  Fig1s5_DataServiceLabelVec : vec SFig1s5_DataServiceLabel;
  serviceLabel_To_SId_SCIdS_Map : list (list Z * SSId_SCIdS)
}.

(** ** fib_config_fig1.cpp *)
Definition reset_fig1 (c : FibConfigFig1) : FibConfigFig1 := mkFig1 [] [] [] [] [].
Definition FibConfigFig1_new : FibConfigFig1 := mkFig1 [] [] [] [] [].

Definition is_l1 (SId : Z) (x : SFig1s1_ProgrammeServiceLabel) : bool := l1_SId x =? SId.
Definition get_Fig1s1_ProgrammeServiceLabel_of_SId (c : FibConfigFig1) (SId : Z) :=
  vfind (is_l1 SId) (Fig1s1_ProgrammeServiceLabelVec c).
Definition is_l4 (SId SCIdS : Z) (x : SFig1s4_ServiceComponentLabel) : bool :=
  (l4_SId x =? SId) && (l4_SCIdS x =? i8 SCIdS).
Definition get_Fig1s4_ServiceComponentLabel_of_SId_SCIdS (c : FibConfigFig1) (SId SCIdS : Z) :=
  vfind (is_l4 SId SCIdS) (Fig1s4_ServiceComponentLabelVec c).
Definition is_l5 (SId : Z) (x : SFig1s5_DataServiceLabel) : bool := l5_SId x =? SId.
Definition get_Fig1s5_DataServiceLabel_of_SId (c : FibConfigFig1) (SId : Z) :=
  vfind (is_l5 SId) (Fig1s5_DataServiceLabelVec c).

Definition get_service_label_of_SId_from_all_Fig1 (c : FibConfigFig1) (iSId : Z) : list Z :=
  match get_Fig1s1_ProgrammeServiceLabel_of_SId c iSId with
  | Some x => df_Name (l1_df x)
  | None =>
      match get_Fig1s5_DataServiceLabel_of_SId c iSId with
      | Some x => df_Name (l5_df x)
      | None => []
      end
  end.

Fixpoint map_find (m : list (list Z * SSId_SCIdS)) (s : list Z) : option SSId_SCIdS :=
  match m with
  | [] => None
  | (k, v) :: m => if bool_decide (k = s) then Some v else map_find m s
  end.
Definition get_SId_SCIdS_from_service_label (c : FibConfigFig1) (s : list Z) : option SSId_SCIdS :=
  map_find (serviceLabel_To_SId_SCIdS_Map c) s.
(** [std::map::try_emplace]: no effect when the key is present. *)
Definition try_emplace (k : list Z) (v : SSId_SCIdS) (m : list (list Z * SSId_SCIdS)) :=
  match map_find m k with Some _ => m | None => m ++ [(k, v)] end.

(** ** Lemmas on stamped vectors *)
Definition items {A} (v : vec A) : list A := map fst v.

Lemma items_vtouch {A} now p (v : vec A) : items (vtouch now p v) = items v.
Proof. induction v as [|[x b] v IH]; [done|]. simpl. destruct (p x); simpl; [done|by rewrite IH]. Qed.

Lemma items_vpush {A} now (x : A) v : items (vpush now x v) = items v ++ [x].
Proof. unfold items, vpush. by rewrite map_app. Qed.

Lemma vfind_Some {A} p (v : vec A) x : vfind p v = Some x -> In x (items v) /\ p x = true.
Proof.
  induction v as [|[y b] v IH]; [done|]. simpl. destruct (p y) eqn:E.
  - intros H. injection H as ->. split; [by left|done].
  - intros H. destruct (IH H). split; [by right|done].
Qed.

Lemma vfind_None {A} p (v : vec A) : vfind p v = None <-> Forall (fun x => p x = false) (items v).
Proof.
  induction v as [|[y b] v IH]; simpl; [split; [constructor|done]|]. destruct (p y) eqn:E.
  - split; [done|]. intros H. apply Forall_cons_1 in H as [H _]. congruence.
  - rewrite IH. split; intros H; [by constructor|]. by apply Forall_cons_1 in H as [_ H].
Qed.

Lemma vfind_items {A} p (v w : vec A) : items v = items w -> vfind p v = vfind p w.
Proof.
  revert w. induction v as [|[x b] v IH]; intros [|[y c] w] H; try done.
  simpl in *. injection H as -> H. destruct (p y); [done|]. by apply IH.
Qed.

Lemma vfind_vpush {A} now p (x : A) v :
  vfind p (vpush now x v) = match vfind p v with Some y => Some y | None => if p x then Some x else None end.
Proof.
  unfold vpush. induction v as [|[y b] v IH]; simpl; [by destruct (p x)|]. by destruct (p y).
Qed.
