(* ===== verification/FibFig0.v ===== *)
(** * FIB decoder: state and FIG type 0 handlers

    src/src/base/decoder/fib_decoder.h (state), fib_decoder_fig0.cpp (FIG type 0)
    and the parts of fib_decoder.cpp they call.  The bits of a FIG are a list;
    [now] is the clock reading of the call.  Emitted Qt signals and timer
    requests are collected, newest last, in [signals].  A [while] loop is run
    with fuel and [None] is the exhausted fuel; the theorems of FibProperties.v
    show that it never runs out.  Log output and the time statistics that are only
    printed are left out. *)
From stdpp Require Import gmap.
From S2P Require Import Prelude BitExtractors Protection FibConfig.
Open Scope Z_scope.

(** ** fib_decoder_if.h *)

(** [EFibLoadingState], in its order. *)
Definition S0_Init : Z := 0.
Definition S1_FastAudioDataLoaded : Z := 1.
Definition S2_PrimaryBaseDataLoaded : Z := 2.
Definition S3_FullyAudioDataLoaded : Z := 3.
Definition S4_FullyPacketDataLoaded : Z := 4.
Definition S5_DeferredDataLoaded : Z := 5.

Record SUtcTimeSet := mk_utc {
  utc_ModJulianDate : Z; utc_Hour : Z; utc_Minute : Z; utc_Second : Z; utc_LTO_Minutes : Z
}.

Inductive Signal :=
  | signal_fib_loaded_state (s : Z)
  | signal_name_of_ensemble (EId : Z) (name shortName : list Z)
  | signal_fib_time_info (t : SUtcTimeSet)
  | signal_change_in_configuration
  | signal_start_announcement (name : list Z) (subChId : Z)
  | signal_stop_announcement (name : list Z) (subChId : Z)
  | signal_ews_available
  | timers_start
  | timers_stop.

(** ** fib_decoder.h *)
Record SFigHeader := mkHeader { Length : Z; CN_Flag : Z; OE_Flag : Z; PD_Flag : Z }.

Record FibDecoder := mkFib {
  mpFibConfigFig1 : FibConfigFig1;
  mpFibConfigFig0Curr : FibConfigFig0;
  mpFibConfigFig0Next : FibConfigFig0;
  mCifCount : Z;
  mCifCount_hi : Z;
  mCifCount_lo : Z;
  mModJulianDate : Z;
  mSIdForFastAudioSelection : Z;
  mPrevChangeFlag : Z;
  mFibLoadingState : Z;
  mUtcTimeSet : SUtcTimeSet;
  mUnhandledFig0Set : gset Z;
  mUnhandledFig1Set : gset Z;
  mEwsAvailable : bool;
  mFirstFigTimePoint : Z;
  mRestartFibDecoding : bool;
  signals : list Signal
}.

(** One setter per member. *)
Definition set_mpFibConfigFig1 (v : FibConfigFig1) (st : FibDecoder) : FibDecoder :=
  mkFib v (mpFibConfigFig0Curr st) (mpFibConfigFig0Next st) (mCifCount st) (mCifCount_hi st) (mCifCount_lo st) (mModJulianDate st) (mSIdForFastAudioSelection st) (mPrevChangeFlag st) (mFibLoadingState st) (mUtcTimeSet st) (mUnhandledFig0Set st) (mUnhandledFig1Set st) (mEwsAvailable st) (mFirstFigTimePoint st) (mRestartFibDecoding st) (signals st).
Definition set_mpFibConfigFig0Curr (v : FibConfigFig0) (st : FibDecoder) : FibDecoder :=
  mkFib (mpFibConfigFig1 st) v (mpFibConfigFig0Next st) (mCifCount st) (mCifCount_hi st) (mCifCount_lo st) (mModJulianDate st) (mSIdForFastAudioSelection st) (mPrevChangeFlag st) (mFibLoadingState st) (mUtcTimeSet st) (mUnhandledFig0Set st) (mUnhandledFig1Set st) (mEwsAvailable st) (mFirstFigTimePoint st) (mRestartFibDecoding st) (signals st).
Definition set_mpFibConfigFig0Next (v : FibConfigFig0) (st : FibDecoder) : FibDecoder :=
  mkFib (mpFibConfigFig1 st) (mpFibConfigFig0Curr st) v (mCifCount st) (mCifCount_hi st) (mCifCount_lo st) (mModJulianDate st) (mSIdForFastAudioSelection st) (mPrevChangeFlag st) (mFibLoadingState st) (mUtcTimeSet st) (mUnhandledFig0Set st) (mUnhandledFig1Set st) (mEwsAvailable st) (mFirstFigTimePoint st) (mRestartFibDecoding st) (signals st).
Definition set_mCifCount (v : Z) (st : FibDecoder) : FibDecoder :=
  mkFib (mpFibConfigFig1 st) (mpFibConfigFig0Curr st) (mpFibConfigFig0Next st) v (mCifCount_hi st) (mCifCount_lo st) (mModJulianDate st) (mSIdForFastAudioSelection st) (mPrevChangeFlag st) (mFibLoadingState st) (mUtcTimeSet st) (mUnhandledFig0Set st) (mUnhandledFig1Set st) (mEwsAvailable st) (mFirstFigTimePoint st) (mRestartFibDecoding st) (signals st).
Definition set_mCifCount_hi (v : Z) (st : FibDecoder) : FibDecoder :=
  mkFib (mpFibConfigFig1 st) (mpFibConfigFig0Curr st) (mpFibConfigFig0Next st) (mCifCount st) v (mCifCount_lo st) (mModJulianDate st) (mSIdForFastAudioSelection st) (mPrevChangeFlag st) (mFibLoadingState st) (mUtcTimeSet st) (mUnhandledFig0Set st) (mUnhandledFig1Set st) (mEwsAvailable st) (mFirstFigTimePoint st) (mRestartFibDecoding st) (signals st).
Definition set_mCifCount_lo (v : Z) (st : FibDecoder) : FibDecoder :=
  mkFib (mpFibConfigFig1 st) (mpFibConfigFig0Curr st) (mpFibConfigFig0Next st) (mCifCount st) (mCifCount_hi st) v (mModJulianDate st) (mSIdForFastAudioSelection st) (mPrevChangeFlag st) (mFibLoadingState st) (mUtcTimeSet st) (mUnhandledFig0Set st) (mUnhandledFig1Set st) (mEwsAvailable st) (mFirstFigTimePoint st) (mRestartFibDecoding st) (signals st).
Definition set_mModJulianDate (v : Z) (st : FibDecoder) : FibDecoder :=
  mkFib (mpFibConfigFig1 st) (mpFibConfigFig0Curr st) (mpFibConfigFig0Next st) (mCifCount st) (mCifCount_hi st) (mCifCount_lo st) v (mSIdForFastAudioSelection st) (mPrevChangeFlag st) (mFibLoadingState st) (mUtcTimeSet st) (mUnhandledFig0Set st) (mUnhandledFig1Set st) (mEwsAvailable st) (mFirstFigTimePoint st) (mRestartFibDecoding st) (signals st).
Definition set_mSIdForFastAudioSelection (v : Z) (st : FibDecoder) : FibDecoder :=
  mkFib (mpFibConfigFig1 st) (mpFibConfigFig0Curr st) (mpFibConfigFig0Next st) (mCifCount st) (mCifCount_hi st) (mCifCount_lo st) (mModJulianDate st) v (mPrevChangeFlag st) (mFibLoadingState st) (mUtcTimeSet st) (mUnhandledFig0Set st) (mUnhandledFig1Set st) (mEwsAvailable st) (mFirstFigTimePoint st) (mRestartFibDecoding st) (signals st).
Definition set_mPrevChangeFlag (v : Z) (st : FibDecoder) : FibDecoder :=
  mkFib (mpFibConfigFig1 st) (mpFibConfigFig0Curr st) (mpFibConfigFig0Next st) (mCifCount st) (mCifCount_hi st) (mCifCount_lo st) (mModJulianDate st) (mSIdForFastAudioSelection st) v (mFibLoadingState st) (mUtcTimeSet st) (mUnhandledFig0Set st) (mUnhandledFig1Set st) (mEwsAvailable st) (mFirstFigTimePoint st) (mRestartFibDecoding st) (signals st).
Definition set_mFibLoadingState (v : Z) (st : FibDecoder) : FibDecoder :=
  mkFib (mpFibConfigFig1 st) (mpFibConfigFig0Curr st) (mpFibConfigFig0Next st) (mCifCount st) (mCifCount_hi st) (mCifCount_lo st) (mModJulianDate st) (mSIdForFastAudioSelection st) (mPrevChangeFlag st) v (mUtcTimeSet st) (mUnhandledFig0Set st) (mUnhandledFig1Set st) (mEwsAvailable st) (mFirstFigTimePoint st) (mRestartFibDecoding st) (signals st).
Definition set_mUtcTimeSet (v : SUtcTimeSet) (st : FibDecoder) : FibDecoder :=
  mkFib (mpFibConfigFig1 st) (mpFibConfigFig0Curr st) (mpFibConfigFig0Next st) (mCifCount st) (mCifCount_hi st) (mCifCount_lo st) (mModJulianDate st) (mSIdForFastAudioSelection st) (mPrevChangeFlag st) (mFibLoadingState st) v (mUnhandledFig0Set st) (mUnhandledFig1Set st) (mEwsAvailable st) (mFirstFigTimePoint st) (mRestartFibDecoding st) (signals st).
Definition set_mUnhandledFig0Set (v : gset Z) (st : FibDecoder) : FibDecoder :=
  mkFib (mpFibConfigFig1 st) (mpFibConfigFig0Curr st) (mpFibConfigFig0Next st) (mCifCount st) (mCifCount_hi st) (mCifCount_lo st) (mModJulianDate st) (mSIdForFastAudioSelection st) (mPrevChangeFlag st) (mFibLoadingState st) (mUtcTimeSet st) v (mUnhandledFig1Set st) (mEwsAvailable st) (mFirstFigTimePoint st) (mRestartFibDecoding st) (signals st).
Definition set_mUnhandledFig1Set (v : gset Z) (st : FibDecoder) : FibDecoder :=
  mkFib (mpFibConfigFig1 st) (mpFibConfigFig0Curr st) (mpFibConfigFig0Next st) (mCifCount st) (mCifCount_hi st) (mCifCount_lo st) (mModJulianDate st) (mSIdForFastAudioSelection st) (mPrevChangeFlag st) (mFibLoadingState st) (mUtcTimeSet st) (mUnhandledFig0Set st) v (mEwsAvailable st) (mFirstFigTimePoint st) (mRestartFibDecoding st) (signals st).
Definition set_mEwsAvailable (v : bool) (st : FibDecoder) : FibDecoder :=
  mkFib (mpFibConfigFig1 st) (mpFibConfigFig0Curr st) (mpFibConfigFig0Next st) (mCifCount st) (mCifCount_hi st) (mCifCount_lo st) (mModJulianDate st) (mSIdForFastAudioSelection st) (mPrevChangeFlag st) (mFibLoadingState st) (mUtcTimeSet st) (mUnhandledFig0Set st) (mUnhandledFig1Set st) v (mFirstFigTimePoint st) (mRestartFibDecoding st) (signals st).
Definition set_mFirstFigTimePoint (v : Z) (st : FibDecoder) : FibDecoder :=
  mkFib (mpFibConfigFig1 st) (mpFibConfigFig0Curr st) (mpFibConfigFig0Next st) (mCifCount st) (mCifCount_hi st) (mCifCount_lo st) (mModJulianDate st) (mSIdForFastAudioSelection st) (mPrevChangeFlag st) (mFibLoadingState st) (mUtcTimeSet st) (mUnhandledFig0Set st) (mUnhandledFig1Set st) (mEwsAvailable st) v (mRestartFibDecoding st) (signals st).
Definition set_mRestartFibDecoding (v : bool) (st : FibDecoder) : FibDecoder :=
  mkFib (mpFibConfigFig1 st) (mpFibConfigFig0Curr st) (mpFibConfigFig0Next st) (mCifCount st) (mCifCount_hi st) (mCifCount_lo st) (mModJulianDate st) (mSIdForFastAudioSelection st) (mPrevChangeFlag st) (mFibLoadingState st) (mUtcTimeSet st) (mUnhandledFig0Set st) (mUnhandledFig1Set st) (mEwsAvailable st) (mFirstFigTimePoint st) v (signals st).
Definition set_signals (v : list Signal) (st : FibDecoder) : FibDecoder :=
  mkFib (mpFibConfigFig1 st) (mpFibConfigFig0Curr st) (mpFibConfigFig0Next st) (mCifCount st) (mCifCount_hi st) (mCifCount_lo st) (mModJulianDate st) (mSIdForFastAudioSelection st) (mPrevChangeFlag st) (mFibLoadingState st) (mUtcTimeSet st) (mUnhandledFig0Set st) (mUnhandledFig1Set st) (mEwsAvailable st) (mFirstFigTimePoint st) (mRestartFibDecoding st) v.

Definition utc_init : SUtcTimeSet := mk_utc 0 0 0 0 0.
Definition FibDecoder_new : FibDecoder :=
  mkFib FibConfigFig1_new FibConfigFig0_new FibConfigFig0_new 0 0 0 0 0 0 S0_Init utc_init ∅ ∅ false 0 false [].

Definition emit (s : Signal) (st : FibDecoder) : FibDecoder := set_signals (signals st ++ [s]) st.

(** [_get_config_ptr]: reading and updating the configuration it points to. *)
Definition get_config (st : FibDecoder) (iCN_Bit : Z) : FibConfigFig0 :=
  if iCN_Bit =? 0 then mpFibConfigFig0Curr st else mpFibConfigFig0Next st.
Definition on_curr (f : FibConfigFig0 -> FibConfigFig0) (st : FibDecoder) : FibDecoder :=
  set_mpFibConfigFig0Curr (f (mpFibConfigFig0Curr st)) st.
Definition on_config (iCN_Bit : Z) (f : FibConfigFig0 -> FibConfigFig0) (st : FibDecoder) : FibDecoder :=
  if iCN_Bit =? 0 then on_curr f st else set_mpFibConfigFig0Next (f (mpFibConfigFig0Next st)) st.

(** ** fib_decoder.cpp: helpers of the handlers *)
Definition get_fig_header (d : list Z) : SFigHeader :=
  mkHeader (getBits_5 d 3) (getBits_1 d 8) (getBits_1 d 9) (getBits_1 d 10).

Definition reset (st : FibDecoder) : FibDecoder :=
  mkFib (mpFibConfigFig1 st) (mpFibConfigFig0Curr st) (mpFibConfigFig0Next st) 0 0 0 0
    (mSIdForFastAudioSelection st) 0 S0_Init utc_init ∅ ∅ false 0 (mRestartFibDecoding st)
    (signals st ++ [timers_stop]).

Definition restart_fib_decoding (st : FibDecoder) : FibDecoder :=
  let st := on_curr reset_fig0 st in
  let st := set_mpFibConfigFig0Next (reset_fig0 (mpFibConfigFig0Next st)) st in
  let st := set_mpFibConfigFig1 (reset_fig1 (mpFibConfigFig1 st)) st in
  set_mRestartFibDecoding true (reset st).

Definition retrigger_timer_data_loaded_fast (st : FibDecoder) : FibDecoder :=
  if S4_FullyPacketDataLoaded <=? mFibLoadingState st then
    emit (signal_fib_loaded_state S5_DeferredDataLoaded) (set_mFibLoadingState S5_DeferredDataLoaded st)
  else emit timers_start st.
Definition retrigger_timer_data_loaded_slow (st : FibDecoder) : FibDecoder :=
  retrigger_timer_data_loaded_fast st.

(** First index below 64 whose cluster has the property. *)
Definition find_cluster (p : Cluster -> bool) (t : list Cluster) : option nat :=
  fst <$> list_find (fun c => p c = true) (take 64 t).

(** [_get_cluster]: the table (a free slot may be taken) and the index. *)
Definition get_cluster (t : list Cluster) (clusterId : Z) : list Cluster * nat :=
  match find_cluster (fun c => cl_inUse c && (cl_clusterId c =? clusterId)) t with
  | Some i => (t, i)
  | None =>
      match find_cluster (fun c => negb (cl_inUse c)) t with
      | Some i =>
          (alter (fun c => mk_cl (cl_flags c) true (cl_announcing c) clusterId (cl_servicesSIDs c)) i t, i)
      | None => (t, 0%nat)
      end
  end.

Definition set_cluster (cn clusterId iSId asuFlags : Z) (st : FibDecoder) : FibDecoder :=
  if mFibLoadingState st <? S4_FullyPacketDataLoaded then st
  else
    on_config cn (on_clusters (fun t =>
      let '(t, i) := get_cluster t clusterId in
      alter (fun c => mk_cl asuFlags (cl_inUse c) (cl_announcing c) (cl_clusterId c)
        (if existsb (Z.eqb iSId) (cl_servicesSIDs c) then cl_servicesSIDs c
         else cl_servicesSIDs c ++ [iSId])) i t)) st.

Definition process_fast_audio_selection (st : FibDecoder) : FibDecoder :=
  match get_Fig0s2_BasicService_ServiceCompDef_of_SId_TMId (mpFibConfigFig0Curr st)
          (mSIdForFastAudioSelection st) StreamModeAudio with
  | None => st
  | Some f2 =>
      match get_Fig0s1_BasicSubChannelOrganization_of_SubChId (mpFibConfigFig0Curr st)
              (tm_SubChId (scd_Data (s2_ServiceComp_C f2))) with
      | None => st
      | Some _ =>
          let st := set_mSIdForFastAudioSelection 0 st in
          if mFibLoadingState st <? S1_FastAudioDataLoaded then
            emit (signal_fib_loaded_state S1_FastAudioDataLoaded)
              (set_mFibLoadingState S1_FastAudioDataLoaded st)
          else st
      end
  end.

(** ** fib_decoder_fig0.cpp *)

(** Ensemble information *)
Definition process_Fig0s0 (d : list Z) (st : FibDecoder) : FibDecoder :=
  let ChangeFlags := getBits_2 d (16 + 16) in
  let CIFCountHi := getBits_5 d (16 + 19) in
  let CIFCountLo := getBits_8 d (16 + 24) in
  let st := set_mCifCount_hi CIFCountHi st in
  let st := set_mCifCount_lo CIFCountLo st in
  let st := set_mCifCount (CIFCountHi * 250 + CIFCountLo) st in
  let st :=
    if (ChangeFlags =? 0) && (mPrevChangeFlag st =? 3) then
      let curr := mpFibConfigFig0Curr st in
      let st := set_mpFibConfigFig0Curr (mpFibConfigFig0Next st) st in
      let st := set_mpFibConfigFig0Next (reset_fig0 curr) st in
      emit signal_change_in_configuration st
    else st in
  set_mPrevChangeFlag ChangeFlags st.

Definition cNumCuPerCif : Z := 864.

Definition collides (iCand e : SFig0s1_BasicSubChannelOrganization) : bool :=
  if (s1_StartAddr e <? 0) || (s1_SubChannelSize e <=? 0) then false
  else (s1_StartAddr iCand <? s1_StartAddr e + s1_SubChannelSize e) &&
       (s1_StartAddr e <? s1_StartAddr iCand + s1_SubChannelSize iCand).
Definition find_colliding_Fig0s1 (iVec : vec SFig0s1_BasicSubChannelOrganization)
  (iCand : SFig0s1_BasicSubChannelOrganization) : option SFig0s1_BasicSubChannelOrganization :=
  vfind (collides iCand) iVec.

(** Short form: size, protection and bit rate from the table. *)
Definition s1_short (d : list Z) (bitOffset subChId startAddr : Z) : SFig0s1_BasicSubChannelOrganization :=
  let tableIndex := getBits_6 d (bitOffset + 18) in
  let e := nth (Z.to_nat tableIndex) cProtLevelTable (mkProtLevel 0 0 0) in
  mk_s1 subChId startAddr (getBits_1 d (bitOffset + 17)) tableIndex (-1) (ProtLevel e) (CUSize e)
    (tBitRate e) true.

(** Long form: the bit rate follows from the size. *)
Definition s1_long (d : list Z) (bitOffset subChId startAddr : Z) : SFig0s1_BasicSubChannelOrganization :=
  let option := getBits_3 d (bitOffset + 17) in
  let protLevel := getBits_2 d (bitOffset + 20) in
  let size := getBits d (bitOffset + 22) 10 in
  let '(bitRate, protLevel) :=
    if option =? 0 then (Z.quot size (rd [12; 8; 6; 4] protLevel) * 8, protLevel)
    else if option =? 1 then (Z.quot size (rd [27; 21; 18; 15] protLevel) * 32, protLevel + Z.shiftl 1 2)
    else (-1, protLevel) in
  mk_s1 subChId startAddr (-1) (-1) option protLevel size bitRate false.

(** Sub-channel organization *)
Definition subprocess_Fig0s1 (now : Z) (d : list Z) (offset : Z) (iFH : SFigHeader) (st : FibDecoder)
  : FibDecoder * Z :=
  let bitOffset := offset * 8 in
  let subChId := getBits_6 d bitOffset in
  let pConfig := get_config st (CN_Flag iFH) in
  match get_Fig0s1_BasicSubChannelOrganization_of_SubChId pConfig subChId with
  | None =>
      let startAddr := getBits d (bitOffset + 6) 10 in
      let '(fig0s1, bitOffset) :=
        if getBits_1 d (bitOffset + 16) =? 0 then (s1_short d bitOffset subChId startAddr, bitOffset + 24)
        else (s1_long d bitOffset subChId startAddr, bitOffset + 32) in
      if cNumCuPerCif <? s1_StartAddr fig0s1 + s1_SubChannelSize fig0s1 then
        (restart_fib_decoding st, Z.quot bitOffset 8)
      else
        match find_colliding_Fig0s1 (Fig0s1_BasicSubChannelOrganizationVec pConfig) fig0s1 with
        | Some _ => (restart_fib_decoding st, Z.quot bitOffset 8)
        | None =>
            (retrigger_timer_data_loaded_fast
               (on_config (CN_Flag iFH) (on_s1 (vpush now fig0s1)) st), Z.quot bitOffset 8)
        end
  | Some f =>
      (on_config (CN_Flag iFH) (on_s1 (vtouch now (is_s1 subChId))) st,
       Z.quot (bitOffset + if s1_ShortForm f then 24 else 32) 8)
  end.

(** One service component of FIG 0/2 read into the variable [scd], which keeps
    its union member when the transport mechanism is reserved. *)
Definition read_scd (d : list Z) (bitOffset : Z) (scd : SFig0s2_ServiceComponentDefinition)
  : SFig0s2_ServiceComponentDefinition :=
  let tmid := getBits_2 d bitOffset in
  let data :=
    if tmid =? StreamModeAudio then TMId00 (getBits_6 d (bitOffset + 8)) (getBits_6 d (bitOffset + 2))
    else if tmid =? StreamModeData then TMId01 (getBits_6 d (bitOffset + 8)) (getBits_6 d (bitOffset + 2))
    else if tmid =? PacketModeData then TMId11 (getBits d (bitOffset + 2) 12)
    else scd_Data scd in
  mk_scd tmid data (getBits_1 d (bitOffset + 14)) (getBits_1 d (bitOffset + 15)).

(** Service organization *)
Definition subprocess_Fig0s2 (now : Z) (d : list Z) (offset : Z) (iFH : SFigHeader) (st : FibDecoder)
  : FibDecoder * Z :=
  let bitOffset := 8 * offset in
  let pd1 := PD_Flag iFH =? 1 in
  let SId := if pd1 then getLBits d bitOffset 32 else getLBits d bitOffset 16 in
  let bitOffset := bitOffset + if pd1 then 32 else 16 in
  let num := getBits_4 d (bitOffset + 4) in
  let bitOffset := bitOffset + 8 in
  let '(st, _, bitOffset) :=
    zfor 0 num (fun servCombIdx s =>
      let '(st, scd, bitOffset) := s in
      match get_Fig0s2_BasicService_ServiceCompDef_of_SId_ScIdx (get_config st (CN_Flag iFH)) SId servCombIdx with
      | None =>
          let scd := read_scd d bitOffset scd in
          let fig0s2 := mk_s2 (PD_Flag iFH) (if pd1 then 0 else SId) (if pd1 then SId else 0) num servCombIdx scd in
          (retrigger_timer_data_loaded_fast (on_config (CN_Flag iFH) (on_s2 (vpush now fig0s2)) st),
           scd, bitOffset + 16)
      | Some _ =>
          (on_config (CN_Flag iFH) (on_s2 (vtouch now (is_s2 SId servCombIdx))) st, scd, bitOffset + 16)
      end) (st, mk_scd (-1) TM_dummy (-1) (-1), bitOffset) in
  (st, Z.quot bitOffset 8).

(** Service component in packet mode *)
Definition subprocess_Fig0s3 (now : Z) (d : list Z) (used : Z) (iFH : SFigHeader) (st : FibDecoder)
  : FibDecoder * Z :=
  let bitOffset := used * 8 in
  let SCId := getBits d bitOffset 12 in
  match get_Fig0s3_ServiceComponentPacketMode_of_SCId (get_config st (CN_Flag iFH)) SCId with
  | None =>
      let CAOrg_Flag := getBits_1 d (bitOffset + 15) in
      let DG_Flag := getBits_1 d (bitOffset + 16) in
      let DSCTy := getBits_6 d (bitOffset + 18) in
      let SubChId := getBits_6 d (bitOffset + 24) in
      let PacketAddress := getBits d (bitOffset + 30) 10 in
      let bitOffset := bitOffset + 40 in
      let '(CAOrg, bitOffset) :=
        if CAOrg_Flag =? 1 then (getBits d (bitOffset + 40) 16, bitOffset + 16) else (u16 (-1), bitOffset) in
      let fig0s3 := mk_s3 SCId CAOrg_Flag DG_Flag DSCTy SubChId PacketAddress CAOrg in
      (retrigger_timer_data_loaded_slow (on_config (CN_Flag iFH) (on_s3 (vpush now fig0s3)) st),
       Z.quot bitOffset 8)
  | Some f =>
      (on_config (CN_Flag iFH) (on_s3 (vtouch now (is_s3 SCId))) st,
       Z.quot (bitOffset + 40 + if s3_CAOrg_Flag f =? 0 then 0 else 16) 8)
  end.

(** Service component language *)
Definition subprocess_Fig0s5 (now : Z) (d : list Z) (offset : Z) (iFH : SFigHeader) (st : FibDecoder)
  : FibDecoder * Z :=
  let bitOffset := offset * 8 in
  if getBits_1 d bitOffset =? 0 then
    let fig0s5 := mk_s5 0 (getBits_8 d (bitOffset + 8)) (getBits_6 d (bitOffset + 2)) (-1) in
    let st :=
      match get_Fig0s5_ServiceComponentLanguage_of_SubChId (mpFibConfigFig0Curr st) (s5_SubChId fig0s5) with
      | None => retrigger_timer_data_loaded_slow (on_curr (on_s5 (vpush now fig0s5)) st)
      | Some _ => on_curr (on_s5 (vtouch now (is_s5_sub (s5_SubChId fig0s5)))) st
      end in
    (st, Z.quot (bitOffset + 16) 8)
  else
    let fig0s5 := mk_s5 (getBits_1 d bitOffset) (getBits_8 d (bitOffset + 16)) (-1) (getBits d (bitOffset + 4) 12) in
    let st :=
      match get_Fig0s5_ServiceComponentLanguage_of_SCId (mpFibConfigFig0Curr st) (s5_SCId fig0s5) with
      | None => retrigger_timer_data_loaded_slow (on_curr (on_s5 (vpush now fig0s5)) st)
      | Some _ => on_curr (on_s5 (vtouch now (is_s5_scid (s5_SCId fig0s5)))) st
      end in
    (st, Z.quot (bitOffset + 24) 8).

(** Configuration information *)
Definition process_Fig0s7 (now : Z) (d : list Z) (st : FibDecoder) : FibDecoder :=
  let fh := get_fig_header d in
  match get_Fig0s7_ConfigurationInformation (get_config st (CN_Flag fh)) with
  | None =>
      let fig0s7 := mk_s7 (getBits_6 d (2 * 8)) (getBits d (2 * 8 + 6) 10) in
      retrigger_timer_data_loaded_fast (on_config (CN_Flag fh) (on_s7 (vpush now fig0s7)) st)
  | Some _ => on_config (CN_Flag fh) (on_s7 (vtouch now (fun _ => true))) st
  end.

(** Service component global definition *)
Definition subprocess_Fig0s8 (now : Z) (d : list Z) (used : Z) (iFH : SFigHeader) (st : FibDecoder)
  : FibDecoder * Z :=
  let bitOffset := used * 8 in
  let n := if PD_Flag iFH =? 1 then 32 else 16 in
  let SId := getLBits d bitOffset n in
  let bitOffset := bitOffset + n in
  let LS_Flag := getBits_1 d (bitOffset + 8) in
  let Ext_Flag := getBits_1 d bitOffset in
  let SCIdS := getBits_4 d (bitOffset + 4) in
  let '(SubChId, SCId, bitOffset) :=
    if LS_Flag =? 0 then
      (getBits_6 d (bitOffset + 4 + 4 + 2), -1, bitOffset + if Ext_Flag =? 0 then 16 else 16 + 8)
    else
      (-1, getBits d (bitOffset + 4 + 4 + 1 + 3) 12, bitOffset + if Ext_Flag =? 0 then 24 else 24 + 8) in
  let fig0s8 := mk_s8 (PD_Flag iFH) SId Ext_Flag SCIdS LS_Flag SubChId SCId in
  let st :=
    match get_Fig0s8_ServiceCompGlobalDef_of_SId_SCIdS (get_config st (CN_Flag iFH)) SId SCIdS with
    | None => retrigger_timer_data_loaded_slow (on_config (CN_Flag iFH) (on_s8 (vpush now fig0s8)) st)
    | Some _ => on_config (CN_Flag iFH) (on_s8 (vtouch now (is_s8 SId SCIdS))) st
    end in
  (st, Z.quot bitOffset 8).

(** Country, LTO and international table *)
Definition process_Fig0s9 (now : Z) (d : list Z) (st : FibDecoder) : FibDecoder :=
  match Fig0s9_CountryLtoInterTabVec (mpFibConfigFig0Curr st) with
  | _ :: _ => on_curr (on_s9 (vtouch now (fun _ => true))) st
  | [] =>
      let lto := getBits_5 d (16 + 3) in
      let lto := if getBits_1 d (16 + 2) =? 1 then lto * -1 else lto in
      let fig0s9 := mk_s9 (getBits_1 d 16) lto (getBits_8 d (16 + 8)) (getBits_8 d (16 + 16)) (lto * 30) in
      retrigger_timer_data_loaded_slow (on_curr (on_s9 (vpush now fig0s9)) st)
  end.

(** Date and time; the bit-fields of the union start at the low end. *)
Definition process_Fig0s10 (d : list Z) (st : FibDecoder) : FibDecoder :=
  let MJD := getLBits d (16 + 1) 17 in
  let long := getBits_1 d (16 + 1 + 17 + 1 + 1) =? 1 in
  let UTC := getLBits d (16 + 1 + 17 + 1 + 1 + 1) (if long then 27 else 11) in
  let st := set_mModJulianDate MJD st in
  let lto := utc_LTO_Minutes (mUtcTimeSet st) in
  let t :=
    if long then
      mk_utc MJD (Z.land (Z.shiftr UTC 22) 31) (Z.land (Z.shiftr UTC 16) 63) (Z.land (Z.shiftr UTC 10) 63) lto
    else mk_utc MJD (Z.land (Z.shiftr UTC 6) 31) (Z.land UTC 63) (-1) lto in
  let st := set_mUtcTimeSet t st in
  match get_Fig0s9_CountryLtoInterTab (mpFibConfigFig0Curr st) with
  | Some f =>
      let t := mk_utc (utc_ModJulianDate t) (utc_Hour t) (utc_Minute t) (utc_Second t) (s9_LTO_minutes f) in
      emit (signal_fib_time_info t) (set_mUtcTimeSet t st)
  | None => st
  end.

(** One user application: its record and the bit offset behind it. *)
Definition read_user_app (d : list Z) (pdFlag bitOffset : Z) : SUserApp * Z :=
  let len := getBits_5 d (bitOffset + 11) in
  let xpad :=
    if (pdFlag =? 0) && (2 <=? len) then
      Some (mk_xp (getBits_1 d (bitOffset + 16)) (getBits_1 d (bitOffset + 17)) (getBits_5 d (bitOffset + 19))
              (getBits_1 d (bitOffset + 24)) (getBits_6 d (bitOffset + 26)))
    else None in
  (mk_ua (getBits d bitOffset 11) len xpad, bitOffset + (11 + 5 + 8 * len)).

(** User application information; only the first [NumUserApps] of the six
    array elements are ever read, so only those are kept. *)
Definition subprocess_Fig0s13 (now : Z) (d : list Z) (used : Z) (iFH : SFigHeader) (st : FibDecoder)
  : FibDecoder * Z :=
  let bitOffset := used * 8 in
  let n := if PD_Flag iFH =? 1 then 32 else 16 in
  let SId := getLBits d bitOffset n in
  let bitOffset := bitOffset + n in
  let SCIdS := getBits_4 d bitOffset in
  match get_Fig0s13_UserApplicationInformation_of_SId_SCIdS (mpFibConfigFig0Curr st) SId SCIdS with
  | None =>
      let num := getBits_4 d (bitOffset + 4) in
      let bitOffset := bitOffset + 8 in
      let num := if 6 <? num then 6 else num in
      let '(apps, bitOffset) :=
        zfor 0 num (fun _ s =>
          let '(apps, bitOffset) := s in
          let '(ua, bitOffset) := read_user_app d (PD_Flag iFH) bitOffset in (apps ++ [ua], bitOffset))
          ([], bitOffset) in
      let fig0s13 := mk_s13 (PD_Flag iFH) SId SCIdS num apps (u16 (bitOffset - used * 8)) in
      (retrigger_timer_data_loaded_slow (on_config (CN_Flag iFH) (on_s13 (vpush now fig0s13)) st),
       Z.quot bitOffset 8)
  | Some f =>
      (on_curr (on_s13 (vtouch now (is_s13 SId SCIdS))) st, Z.quot (s13_SizeBits f + used * 8) 8)
  end.

(** FEC sub-channel organization *)
Definition subprocess_Fig0s14 (now : Z) (d : list Z) (used : Z) (fh : SFigHeader) (st : FibDecoder)
  : FibDecoder * Z :=
  let SubChId := getBits_6 d (used * 8) in
  let st :=
    match get_Fig0s14_SubChannelOrganization_of_SubChId (get_config st (CN_Flag fh)) SubChId with
    | None =>
        let fig0s14 := mk_s14 SubChId (getBits_2 d (used * 8 + 6)) in
        retrigger_timer_data_loaded_slow (on_config (CN_Flag fh) (on_s14 (vpush now fig0s14)) st)
    | Some _ => on_config (CN_Flag fh) (on_s14 (vtouch now (is_s14 SubChId))) st
    end in
  (st, used + 1).

(** *** FIG 0/15: emergency warning.  What the program prints is returned as
    data: the zone and digits of every location code. *)
Record ews_location := mk_loc { loc_nff : Z; loc_zone : Z; loc_codes : list (Z * Z) }.

(** [_get_ews_location_presentation_code]: the twelve symbols '1' .. '8'. *)
Definition ews_presentation_code (iZone iDigits : Z) : list Z :=
  let code30 := Z.lor (Z.shiftl iZone 24) iDigits in
  let code36 := Z.lor (Z.shiftl code30 6) (code30 mod 61) in
  map (fun i => 1 + Z.land (Z.shiftr code36 (3 * i)) 0x7) (rev (seqZ 0 12)).

(** [_get_ews_location_code_str]: [None] is the return value -1. *)
Definition get_ews_location_code (d : list Z) (bitOffset iEndOffset : Z) : option (ews_location * Z) :=
  if iEndOffset <? bitOffset + 16 then None
  else
    let nff := getBits_2 d bitOffset in
    let zone := getBits_6 d (bitOffset + 2) in
    let scf := getBits_1 d (bitOffset + 8) in
    let numDigits := getBits_3 d (bitOffset + 9) in
    let digits := getBits_4 d (bitOffset + 12) in
    let bitOffset := bitOffset + 16 in
    if (if scf =? 1 then 4 else 5) <? numDigits then None
    else if iEndOffset <? bitOffset + 4 * numDigits + (if Z.odd numDigits then 4 else 0)
                          + (if scf =? 1 then 16 else 0) then None
    else
      let '(digits, bitOffset) :=
        zfor 0 numDigits (fun _ s =>
          let '(digits, bitOffset) := s in
          (Z.lor (u32 (Z.shiftl digits 4)) (getBits_4 d bitOffset), bitOffset + 4)) (digits, bitOffset) in
      let bitOffset := if Z.odd numDigits then bitOffset + 4 else bitOffset in
      if scf =? 1 then
        let subCodes := getBits d bitOffset 16 in
        let codes := flat_map (fun i =>
          if Z.testbit subCodes i then [(Z.lor (u32 (Z.shiftl digits 4)) i, numDigits + 2)] else []) (seqZ 0 16) in
        Some (mk_loc nff zone codes, bitOffset + 16)
      else Some (mk_loc nff zone [(digits, numDigits + 1)], bitOffset).

(** The loop over the location codes: the codes read and whether the last one
    was invalid. *)
Definition ews_locations (d : list Z) (bitOffset endOffset : Z) : option (list ews_location * Z * bool) :=
  while 40 (fun '(_, off, bad) => negb bad && (off <? endOffset))
    (fun '(locs, off, bad) =>
       match get_ews_location_code d off endOffset with
       | Some (l, off) => (locs ++ [l], off, false)
       | None => (locs, off, true)
       end) ([], bitOffset, false).

(** The state change of [_process_Fig0s15]. *)
Definition process_Fig0s15 (d : list Z) (st : FibDecoder) : FibDecoder :=
  if mEwsAvailable st then st else emit signal_ews_available (set_mEwsAvailable true st).

(** The report [_process_Fig0s15] builds: nothing for the heartbeat, else the
    location codes, the end offset and whether the coding was invalid. *)
Definition ews_report (d : list Z) : option (option (list ews_location * Z * bool)) :=
  let fh := get_fig_header d in
  if Length fh =? 1 then Some None
  else
    let endOffset := (Length fh + 1) * 8 in
    let phase := getBits_2 d 16 in
    let '(bitOffset, hasStatus) :=
      if OE_Flag fh =? 0 then (if phase =? 0 then 32 else 24, phase <=? 1) else (32, true) in
    if hasStatus && (bitOffset + 8 <=? endOffset) then Some <$> ews_locations d (bitOffset + 8) endOffset
    else Some (Some ([], bitOffset, (endOffset <? bitOffset) || hasStatus)).

(** Programme type *)
Definition process_Fig0s17 (now : Z) (d : list Z) (st : FibDecoder) : option FibDecoder :=
  let length := getBits_5 d 3 in
  fst <$> while 32 (fun '(_, offset) => offset <? length * 8)
    (fun '(st, offset) =>
       let SId := getBits d offset 16 in
       let st :=
         match get_Fig0s17_ProgrammeType_of_SId (mpFibConfigFig0Curr st) SId with
         | None =>
             let fig0s17 := mk_s17 SId (getBits_1 d (offset + 16)) (getBits_5 d (offset + 16 + 11)) in
             retrigger_timer_data_loaded_slow (on_curr (on_s17 (vpush now fig0s17)) st)
         | Some _ => on_curr (on_s17 (vtouch now (is_s17 SId))) st
         end in
       (st, offset + 32)) (st, 16).

(** Announcement support *)
Definition process_Fig0s18 (d : list Z) (st : FibDecoder) : option FibDecoder :=
  let fh := get_fig_header d in
  fst <$> while 32 (fun '(_, bitOffset) => bitOffset <=? Length fh * 8)
    (fun '(st, bitOffset) =>
       let SId := getBits d bitOffset 16 in
       let bitOffset := bitOffset + 16 in
       let asuFlags := getBits d bitOffset 16 in
       let bitOffset := bitOffset + 16 in
       let nrClusters := getBits d (bitOffset + 5) 3 in
       let bitOffset := bitOffset + 8 in
       let st := zfor 0 nrClusters (fun i st =>
         let id := getBits d (bitOffset + 8 * i) 8 in
         if id =? 0 then st else set_cluster (CN_Flag fh) id SId asuFlags st) st in
       (st, bitOffset + nrClusters * 8)) (st, 16).

(** Announcement switching: the cluster reached, and the signals for its
    services. *)
Definition announce (cn clusterId AswFlags subChId : Z) (st : FibDecoder) : FibDecoder :=
  let '(t, i) := get_cluster (mClusterTable (get_config st cn)) clusterId in
  let st := on_config cn (on_clusters (fun _ => t)) st in
  match t !! i with
  | None => st
  | Some c =>
      let name SId := get_service_label_of_SId_from_all_Fig1 (mpFibConfigFig1 st) SId in
      let with_announcing n := on_config cn (on_clusters (alter (fun c =>
        mk_cl (cl_flags c) (cl_inUse c) n (cl_clusterId c) (cl_servicesSIDs c)) i)) st in
      if negb (Z.land (cl_flags c) AswFlags =? 0) then
        let st := with_announcing (i32 (cl_announcing c + 1)) in
        if i32 (cl_announcing c + 1) =? 5 then
          fold_left (fun st SId => emit (signal_start_announcement (name SId) subChId) st) (cl_servicesSIDs c) st
        else st
      else if 0 <? cl_announcing c then
        fold_left (fun st SId => emit (signal_stop_announcement (name SId) subChId) st) (cl_servicesSIDs c)
          (with_announcing 0)
      else st
  end.

Definition process_Fig0s19 (d : list Z) (st : FibDecoder) : option FibDecoder :=
  let fh := get_fig_header d in
  (fun s => fst (fst s)) <$> while 32 (fun '(_, bitOffset, quit) => negb quit && (bitOffset <=? Length fh * 8))
    (fun '(st, bitOffset, quit) =>
       let clusterId := getBits d bitOffset 8 in
       let bitOffset := bitOffset + 8 in
       let AswFlags := getBits d bitOffset 16 in
       let bitOffset := bitOffset + 16 + 1 in
       let regionFlag := getBits d bitOffset 1 in
       let bitOffset := bitOffset + 1 in
       let subChId := getBits d bitOffset 6 in
       let bitOffset := bitOffset + 6 in
       let bitOffset := if regionFlag =? 1 then bitOffset + 2 + 6 else bitOffset in
       if mFibLoadingState st <? S4_FullyPacketDataLoaded then (st, bitOffset, true)
       else (announce (CN_Flag fh) clusterId AswFlags subChId st, bitOffset, false)) (st, 16, false).

(** ** Dispatch *)
Definition TFnFibProc : Type := list Z -> Z -> SFigHeader -> FibDecoder -> FibDecoder * Z.

Definition process_fig0_loop (d : list Z) (fn : TFnFibProc) (st : FibDecoder) : option FibDecoder :=
  let fh := get_fig_header d in
  (fun s => fst (fst s)) <$> while 32 (fun '(_, used, quit) => negb quit && (used <=? Length fh))
    (fun '(st, used, quit) =>
       let '(st, used) := fn d used fh st in (st, used, mRestartFibDecoding st)) (st, 2, false).

Definition process_Fig0_ext (now : Z) (d : list Z) (extension : Z) (st : FibDecoder) : option FibDecoder :=
  if extension =? 0 then Some (process_Fig0s0 d st)
  else if extension =? 1 then process_fig0_loop d (subprocess_Fig0s1 now) st
  else if extension =? 2 then process_fig0_loop d (subprocess_Fig0s2 now) st
  else if extension =? 3 then process_fig0_loop d (subprocess_Fig0s3 now) st
  else if extension =? 5 then process_fig0_loop d (subprocess_Fig0s5 now) st
  else if extension =? 7 then Some (process_Fig0s7 now d st)
  else if extension =? 8 then process_fig0_loop d (subprocess_Fig0s8 now) st
  else if extension =? 9 then Some (process_Fig0s9 now d st)
  else if extension =? 10 then Some (process_Fig0s10 d st)
  else if extension =? 13 then process_fig0_loop d (subprocess_Fig0s13 now) st
  else if extension =? 14 then process_fig0_loop d (subprocess_Fig0s14 now) st
  else if extension =? 15 then Some (process_Fig0s15 d st)
  else if extension =? 17 then process_Fig0s17 now d st
  else if extension =? 18 then process_Fig0s18 d st
  else if extension =? 19 then process_Fig0s19 d st
  else Some (set_mUnhandledFig0Set ({[extension]} ∪ mUnhandledFig0Set st) st).

Definition process_Fig0 (now : Z) (d : list Z) (st : FibDecoder) : option FibDecoder :=
  let extension := getBits_5 d (8 + 3) in
  st ← process_Fig0_ext now d extension st;
  if negb (mRestartFibDecoding st) && (0 <? mSIdForFastAudioSelection st) &&
     ((extension =? 1) || (extension =? 2))
  then Some (process_fast_audio_selection st) else Some st.
