(* ===== verification/FibDecoder.v ===== *)
(** * FIB decoder: labels, FIB processing, loading state and queries

    src/src/base/decoder/fib_decoder_fig1.cpp (FIG type 1), fib_decoder.cpp
    (process_FIB, resets, loading state machine, queries) and the label
    conversion of src/src/base/backend/charsets.cpp.  The two Qt conversions that
    charsets.cpp calls are the argument [qt].

    The invariant of the configuration is in FibInvariant.v, the theorems on the
    whole decoder in FibProperties.v. *)
From stdpp Require Import gmap.
From S2P Require Import Prelude BitExtractors Protection Backend FibConfig FibFig0.
Open Scope Z_scope.

(** ** charsets.cpp *)
Definition ebuLatinToUcs2 : list Z := [
  0; 280; 302; 370; 258; 278; 270; 536; 538; 266; 10; 11; 288; 313; 379; 323;
  261; 281; 303; 371; 259; 279; 271; 537; 539; 267; 327; 282; 289; 314; 380; 130;
  32; 33; 34; 35; 322; 37; 38; 39; 40; 41; 42; 43; 44; 45; 46; 47;
  48; 49; 50; 51; 52; 53; 54; 55; 56; 57; 58; 59; 60; 61; 62; 63;
  64; 65; 66; 67; 68; 69; 70; 71; 72; 73; 74; 75; 76; 77; 78; 79;
  80; 81; 82; 83; 84; 85; 86; 87; 88; 89; 90; 91; 366; 93; 321; 95;
  260; 97; 98; 99; 100; 101; 102; 103; 104; 105; 106; 107; 108; 109; 110; 111;
  112; 113; 114; 115; 116; 117; 118; 119; 120; 121; 122; 171; 367; 187; 317; 294;
  225; 224; 233; 232; 237; 236; 243; 242; 250; 249; 209; 199; 350; 223; 161; 376;
  226; 228; 234; 235; 238; 239; 244; 246; 251; 252; 241; 231; 351; 287; 305; 255;
  310; 325; 169; 290; 286; 283; 328; 337; 336; 8364; 163; 36; 256; 274; 298; 362;
  311; 326; 315; 291; 316; 304; 324; 369; 368; 191; 318; 176; 257; 275; 299; 363;
  193; 192; 201; 200; 205; 204; 211; 210; 218; 217; 344; 268; 352; 381; 208; 319;
  194; 196; 202; 203; 206; 207; 212; 214; 219; 220; 345; 269; 353; 382; 273; 320;
  195; 197; 198; 338; 375; 221; 213; 216; 222; 330; 340; 262; 346; 377; 356; 240;
  227; 229; 230; 339; 373; 253; 245; 248; 254; 331; 341; 263; 347; 378; 357; 295
].

Definition EbuLatin : Z := 0.
Definition UnicodeUcs2 : Z := 6.
Definition UnicodeUtf8 : Z := 15.
Definition is_charset_valid (iCharset : Z) : bool :=
  (iCharset =? EbuLatin) || (iCharset =? UnicodeUcs2) || (iCharset =? UnicodeUtf8).

(** [QString::fromUtf8(p, n)] and [QString::fromUtf16(p, n)]: memory from the
    pointer on, and a length. *)
Record QtText := mkQt { fromUtf8 : list Z -> Z -> list Z; fromUtf16 : list Z -> Z -> list Z }.

Fixpoint strlen (buf : list Z) : Z :=
  match buf with [] => 0 | b :: buf => if b =? 0 then 0 else 1 + strlen buf end.

Definition to_QString_using_charset (qt : QtText) (ipBuffer : list Z) (iCharset size : Z) : list Z :=
  let length := u16 (if size =? -1 then strlen ipBuffer else size) in
  if iCharset =? UnicodeUcs2 then fromUtf16 qt ipBuffer length
  else if iCharset =? UnicodeUtf8 then fromUtf8 qt ipBuffer length
  else map (fun i => rd ebuLatinToUcs2 (rd ipBuffer i)) (seqZ 0 length).

(** ** fib_decoder.cpp: labels *)

(** [QString::resize(n, ' ')] *)
Definition qresize (n : nat) (s : list Z) : list Z := take n s ++ replicate (n - length s) 32.

(** The characters selected by the flag field, most significant bit first. *)
Definition short_name (flags : Z) (name : list Z) : list Z :=
  flat_map (fun bitIdx => if Z.testbit flags (15 - bitIdx) then [rd name bitIdx] else []) (seqZ 0 16).

(** [None] is the return value false. *)
Definition extract_character_set_label (qt : QtText) (d : list Z) (iLabelOffs : Z) : option SFig1_DataField :=
  let Charset := getBits_4 d 8 in
  if negb (is_charset_valid Charset) then None
  else
    let label := map (fun i => getBits_8 d (iLabelOffs + 8 * i)) (seqZ 0 16) ++ [0] in
    let CharFlagField := getBits d (iLabelOffs + 16 * 8) 16 in
    let Name := qresize 16 (to_QString_using_charset qt label Charset (-1)) in
    Some (mk_df Charset Name (qresize 8 (short_name CharFlagField Name)) CharFlagField).

Definition on_fig1 (f : FibConfigFig1 -> FibConfigFig1) (st : FibDecoder) : FibDecoder :=
  set_mpFibConfigFig1 (f (mpFibConfigFig1 st)) st.

(** ** fib_decoder_fig1.cpp *)
Definition process_Fig1s0 (qt : QtText) (now : Z) (d : list Z) (st : FibDecoder) : FibDecoder :=
  match extract_character_set_label qt d 32 with
  | None => st
  | Some df =>
      let fig1s0 := mk_l0 df (getBits d 16 16) in
      match Fig1s0_EnsembleLabelVec (mpFibConfigFig1 st) with
      | [] =>
          emit (signal_name_of_ensemble (l0_EId fig1s0) (df_Name df) (df_NameShort df))
            (on_fig1 (fun c => mkFig1 (vpush now fig1s0 (Fig1s0_EnsembleLabelVec c))
               (Fig1s1_ProgrammeServiceLabelVec c) (Fig1s4_ServiceComponentLabelVec c)
               (Fig1s5_DataServiceLabelVec c) (serviceLabel_To_SId_SCIdS_Map c)) st)
      | _ :: _ =>
          on_fig1 (fun c => mkFig1 (vtouch now (fun _ => true) (Fig1s0_EnsembleLabelVec c))
            (Fig1s1_ProgrammeServiceLabelVec c) (Fig1s4_ServiceComponentLabelVec c)
            (Fig1s5_DataServiceLabelVec c) (serviceLabel_To_SId_SCIdS_Map c)) st
      end
  end.

Definition process_Fig1s1 (qt : QtText) (now : Z) (d : list Z) (st : FibDecoder) : FibDecoder :=
  let SId := getBits d 16 16 in
  match extract_character_set_label qt d (16 + 16) with
  | None => st
  | Some df =>
      match get_Fig1s1_ProgrammeServiceLabel_of_SId (mpFibConfigFig1 st) SId with
      | None =>
          retrigger_timer_data_loaded_fast
            (on_fig1 (fun c => mkFig1 (Fig1s0_EnsembleLabelVec c)
               (vpush now (mk_l1 df SId) (Fig1s1_ProgrammeServiceLabelVec c))
               (Fig1s4_ServiceComponentLabelVec c) (Fig1s5_DataServiceLabelVec c)
               (try_emplace (df_Name df) (mk_SId_SCIdS SId (-1)) (serviceLabel_To_SId_SCIdS_Map c))) st)
      | Some _ =>
          on_fig1 (fun c => mkFig1 (Fig1s0_EnsembleLabelVec c)
            (vtouch now (is_l1 SId) (Fig1s1_ProgrammeServiceLabelVec c))
            (Fig1s4_ServiceComponentLabelVec c) (Fig1s5_DataServiceLabelVec c)
            (serviceLabel_To_SId_SCIdS_Map c)) st
      end
  end.

Definition process_Fig1s4 (qt : QtText) (now : Z) (d : list Z) (st : FibDecoder) : FibDecoder :=
  let PD := getBits_1 d 16 in
  let SCIdS := getBits_4 d 20 in
  let SId := if PD =? 0 then getLBits d 24 16 else getLBits d 24 32 in
  let offset := if PD =? 0 then 40 else 56 in
  match get_Fig1s4_ServiceComponentLabel_of_SId_SCIdS (mpFibConfigFig1 st) SId SCIdS with
  | None =>
      match extract_character_set_label qt d offset with
      | None => st
      | Some df =>
          retrigger_timer_data_loaded_slow
            (on_fig1 (fun c => mkFig1 (Fig1s0_EnsembleLabelVec c) (Fig1s1_ProgrammeServiceLabelVec c)
               (vpush now (mk_l4 df PD SCIdS SId) (Fig1s4_ServiceComponentLabelVec c))
               (Fig1s5_DataServiceLabelVec c)
               (try_emplace (df_Name df) (mk_SId_SCIdS SId SCIdS) (serviceLabel_To_SId_SCIdS_Map c))) st)
      end
  | Some _ =>
      on_fig1 (fun c => mkFig1 (Fig1s0_EnsembleLabelVec c) (Fig1s1_ProgrammeServiceLabelVec c)
        (vtouch now (is_l4 SId SCIdS) (Fig1s4_ServiceComponentLabelVec c))
        (Fig1s5_DataServiceLabelVec c) (serviceLabel_To_SId_SCIdS_Map c)) st
  end.

Definition process_Fig1s5 (qt : QtText) (now : Z) (d : list Z) (st : FibDecoder) : FibDecoder :=
  let SId := getLBits d 16 32 in
  match get_Fig1s5_DataServiceLabel_of_SId (mpFibConfigFig1 st) SId with
  | None =>
      match extract_character_set_label qt d 48 with
      | None => st
      | Some df =>
          retrigger_timer_data_loaded_slow
            (on_fig1 (fun c => mkFig1 (Fig1s0_EnsembleLabelVec c) (Fig1s1_ProgrammeServiceLabelVec c)
               (Fig1s4_ServiceComponentLabelVec c) (vpush now (mk_l5 df SId) (Fig1s5_DataServiceLabelVec c))
               (try_emplace (df_Name df) (mk_SId_SCIdS SId (-5)) (serviceLabel_To_SId_SCIdS_Map c))) st)
      end
  | Some _ =>
      on_fig1 (fun c => mkFig1 (Fig1s0_EnsembleLabelVec c) (Fig1s1_ProgrammeServiceLabelVec c)
        (Fig1s4_ServiceComponentLabelVec c) (vtouch now (is_l5 SId) (Fig1s5_DataServiceLabelVec c))
        (serviceLabel_To_SId_SCIdS_Map c)) st
  end.

Definition process_Fig1 (qt : QtText) (now : Z) (d : list Z) (st : FibDecoder) : FibDecoder :=
  let extension := getBits_3 d (8 + 5) in
  if extension =? 0 then process_Fig1s0 qt now d st
  else if extension =? 1 then process_Fig1s1 qt now d st
  else if extension =? 4 then process_Fig1s4 qt now d st
  else if extension =? 5 then process_Fig1s5 qt now d st
  else set_mUnhandledFig1Set ({[extension]} ∪ mUnhandledFig1Set st) st.

(** ** fib_decoder.cpp: one FIB.  The state of the loop is the decoder, the
    processed bytes and whether the loop was left by [break]; an inner loop
    that runs out of fuel makes the whole result [None]. *)
Definition process_fig (qt : QtText) (now : Z) (iFibBits : list Z) (processedBytes : Z) (st : FibDecoder)
  : option (FibDecoder * Z * bool) :=
  let d := drop (Z.to_nat (processedBytes * 8)) iFibBits in
  let figType := getBits_3 d 0 in
  let figLength := getBits_5 d 3 in
  if (figType =? 7) && (figLength =? 31) then Some (st, processedBytes, true)
  else
    st ← (if figType =? 0 then process_Fig0 now d st
          else if figType =? 1 then Some (process_Fig1 qt now d st)
          else Some st : option FibDecoder);
    if mRestartFibDecoding st then Some (st, processedBytes, true)
    else Some (st, processedBytes + figLength + 1, false).

Fixpoint process_figs (fuel : nat) (qt : QtText) (now : Z) (iFibBits : list Z) (processedBytes : Z)
  (st : FibDecoder) : option FibDecoder :=
  match fuel with
  | O => None
  | S fuel =>
      if processedBytes <? 30 then
        r ← process_fig qt now iFibBits processedBytes st;
        let '(st, processedBytes, quit) := r in
        if (quit : bool) then Some st else process_figs fuel qt now iFibBits processedBytes st
      else Some st
  end.

Definition process_FIB (qt : QtText) (now : Z) (iFibBits : list Z) (st : FibDecoder) : option FibDecoder :=
  let st := if mFirstFigTimePoint st =? 0 then set_mFirstFigTimePoint now st else st in
  let st := set_mRestartFibDecoding false st in
  process_figs 31 qt now iFibBits 0 st.

Definition reset_configs (st : FibDecoder) : FibDecoder :=
  let st := on_curr reset_fig0 st in
  let st := set_mpFibConfigFig0Next (reset_fig0 (mpFibConfigFig0Next st)) st in
  on_fig1 reset_fig1 st.
Definition connect_channel (st : FibDecoder) : FibDecoder := reset (reset_configs st).
Definition disconnect_channel (st : FibDecoder) : FibDecoder := reset_configs st.

Definition set_SId_for_fast_audio_selection (iSId : Z) (st : FibDecoder) : FibDecoder :=
  if S3_FullyAudioDataLoaded <=? mFibLoadingState st then set_mSIdForFastAudioSelection 0 st
  else set_mSIdForFastAudioSelection iSId st.

(** ** fib_decoder.cpp: queries.  An output structure that stays undefined is
    [None]. *)
Record SAudioData := mk_ad {
  ad_desc : SDescriptorType; ad_ASCTy : Z; ad_serviceLabel : list Z; ad_serviceLabelShort : list Z
}.
Record SPacketData := mk_pd {
  pd_desc : SDescriptorType; pd_DSCTy : Z; pd_FEC_scheme : Z; pd_DGflag : Z; pd_appTypeVec : list Z;
  pd_PacketAddress : Z; pd_SCIdS : Z; pd_language : option Z;
  pd_serviceLabel : list Z; pd_serviceLabelShort : list Z
}.
Record SAudioDataAddOns := mk_adao { adao_language : option Z; adao_programType : option Z }.
Record SXPadUserApp := mk_xua { xua_UserAppType : Z; xua_XPadAppTy : Z; xua_DSCTy : Z; xua_DataGroupsUsed : bool }.

(** [_get_data_for_audio_service] with an output structure; without one
    ([opAD == nullptr], [need_label]) it also requires the service label. *)
Definition get_data_for_audio_service_of (st : FibDecoder) (f2 : SFig0s2_BasicService_ServiceCompDef)
  (need_label : bool) : option SAudioData :=
  if negb (s2_PD_Flag f2 =? 0) then None
  else
    let SubChId := tm_SubChId (scd_Data (s2_ServiceComp_C f2)) in
    let SId := u16 (s2_get_SId f2) in
    f1 ← get_Fig0s1_BasicSubChannelOrganization_of_SubChId (mpFibConfigFig0Curr st) SubChId;
    let l1 := get_Fig1s1_ProgrammeServiceLabel_of_SId (mpFibConfigFig1 st) SId in
    if need_label && match l1 with None => true | Some _ => false end then None
    else
      Some (mk_ad (mkDescriptor SId (s1_StartAddr f1) (s1_SubChannelSize f1) (s1_ShortForm f1)
                     (s1_ProtectionLevel f1) (s1_BitRate f1) SubChId)
              (tm_ASCTy (scd_Data (s2_ServiceComp_C f2)))
              (match l1 with Some l => df_Name (l1_df l) | None => [] end)
              (match l1 with Some l => df_NameShort (l1_df l) | None => [] end)).

Definition get_data_for_audio_service (st : FibDecoder) (iSId : Z) : option SAudioData :=
  if mFibLoadingState st <? S1_FastAudioDataLoaded then None
  else
    f2 ← get_Fig0s2_BasicService_ServiceCompDef_of_SId_TMId (mpFibConfigFig0Curr st) iSId StreamModeAudio;
    get_data_for_audio_service_of st f2 false.

Definition get_data_for_audio_service_addon (st : FibDecoder) (iSId : Z) : option SAudioDataAddOns :=
  f2 ← get_Fig0s2_BasicService_ServiceCompDef_of_SId_TMId (mpFibConfigFig0Curr st) iSId StreamModeAudio;
  if negb (s2_PD_Flag f2 =? 0) then None
  else
    let SubChId := tm_SubChId (scd_Data (s2_ServiceComp_C f2)) in
    Some (mk_adao
      (s5_Language <$> get_Fig0s5_ServiceComponentLanguage_of_SubChId (mpFibConfigFig0Curr st) SubChId)
      (s17_IntCode <$> get_Fig0s17_ProgrammeType_of_SId (mpFibConfigFig0Curr st) (s2_get_SId f2))).

Definition get_xpad_user_apps_of_audio_service (st : FibDecoder) (iSId : Z) : list SXPadUserApp :=
  let c := mpFibConfigFig0Curr st in
  match get_Fig0s2_BasicService_ServiceCompDef_of_SId_TMId c iSId StreamModeAudio with
  | None => []
  | Some f2 =>
      let SCIdS :=
        match get_Fig0s8_ServiceCompGlobalDef_of_SId_with_SubChId c iSId with
        | Some f8 => if s8_SubChId f8 =? tm_SubChId (scd_Data (s2_ServiceComp_C f2)) then s8_SCIdS f8 else 0
        | None => 0
        end in
      match get_Fig0s13_UserApplicationInformation_of_SId_SCIdS c iSId SCIdS with
      | None => []
      | Some f13 =>
          flat_map (fun ua =>
            match ua_XPadData ua with
            | None => []
            | Some x => [mk_xua (ua_UserAppType ua) (xp_XPadAppTy x) (xp_DSCTy x) (xp_DG_Flag x =? 0)]
            end) (s13_UserAppVec f13)
      end
  end.

Definition cNumServiceCompMax : Z := 12.

Definition app_types (f13 : SFig0s13_UserApplicationInformation) : list Z :=
  match s13_UserAppVec f13 with [] => [-1] | apps => map ua_UserAppType apps end.

Definition get_data_for_packet_service_of (st : FibDecoder) (f2 : SFig0s2_BasicService_ServiceCompDef)
  (iCompIdx : Z) : option SPacketData :=
  if cNumServiceCompMax <=? iCompIdx then None
  else
    let c := mpFibConfigFig0Curr st in
    let SCId := tm_SCId (scd_Data (s2_ServiceComp_C f2)) in
    f3 ← get_Fig0s3_ServiceComponentPacketMode_of_SCId c SCId;
    f1 ← get_Fig0s1_BasicSubChannelOrganization_of_SubChId c (s3_SubChId f3);
    let SId := s2_get_SId f2 in
    f8 ← get_Fig0s8_ServiceCompGlobalDef_of_SId_with_SCId c SId;
    f13 ← get_Fig0s13_UserApplicationInformation_of_SId_SCIdS c SId (s8_SCIdS f8);
    if s13_NumUserApps f13 <? 1 then None
    else
      df ← (if scd_PS_Flag (s2_ServiceComp_C f2) =? 0
            then l4_df <$> get_Fig1s4_ServiceComponentLabel_of_SId_SCIdS (mpFibConfigFig1 st) SId (s8_SCIdS f8)
            else l5_df <$> get_Fig1s5_DataServiceLabel_of_SId (mpFibConfigFig1 st) SId
            : option SFig1_DataField);
      Some (mk_pd (mkDescriptor SId (s1_StartAddr f1) (s1_SubChannelSize f1) (s1_ShortForm f1)
                     (s1_ProtectionLevel f1) (s1_BitRate f1) (s3_SubChId f3))
              (s3_DSCTy f3)
              (match get_Fig0s14_SubChannelOrganization_of_SubChId c (s3_SubChId f3) with
               | Some f14 => s14_FEC_scheme f14 | None => 0 end)
              (s3_DG_Flag f3) (app_types f13) (s3_PacketAddress f3) (s8_SCIdS f8)
              (s5_Language <$> get_Fig0s5_ServiceComponentLanguage_of_SCId c SCId)
              (df_Name df) (df_NameShort df)).

(** The loop of [get_data_for_packet_service]: [numComp], the packets found and
    whether the loop was left. *)
Definition get_data_for_packet_service (st : FibDecoder) (iSId : Z) : list SPacketData :=
  if mFibLoadingState st <? S4_FullyPacketDataLoaded then []
  else
    let '(_, pds, _) :=
      zfor 0 cNumServiceCompMax (fun compIdx (s : Z * list SPacketData * bool) =>
        let '(numComp, pds, quit) := s in
        if quit then s
        else if (0 <? numComp) && (numComp <=? compIdx) then (numComp, pds, true)
        else
          match get_Fig0s2_BasicService_ServiceCompDef_of_SId_ScIdx (mpFibConfigFig0Curr st) iSId compIdx with
          | None => s
          | Some f2 =>
              if negb (scd_TMId (s2_ServiceComp_C f2) =? PacketModeData) then s
              else if (0 <? numComp) && negb (numComp =? s2_NumServiceComp f2) then s
              else
                let numComp := s2_NumServiceComp f2 in
                if numComp <=? 0 then (numComp, pds, quit)
                else
                  match get_data_for_packet_service_of st f2 compIdx with
                  | None => (numComp, pds, quit)
                  | Some pd => (numComp, pds ++ [pd], quit)
                  end
          end) (0, [], false) in pds.

(** [get_service_list]: label, SId and whether it is an audio service. *)
Definition get_service_list (st : FibDecoder) : list (list Z * Z * bool) :=
  flat_map (fun '(label, v) =>
    if m_SCIdS v <=? 0 then
      [(label, m_SId v,
        match get_Fig0s2_BasicService_ServiceCompDef_of_SId_TMId (mpFibConfigFig0Curr st) (m_SId v) StreamModeAudio
        with Some _ => true | None => false end)]
    else []) (serviceLabel_To_SId_SCIdS_Map (mpFibConfigFig1 st)).

Definition get_service_label_from_SId_SCIdS (st : FibDecoder) (iSId iSCIdS : Z) : list Z :=
  match get_Fig1s4_ServiceComponentLabel_of_SId_SCIdS (mpFibConfigFig1 st) iSId iSCIdS with
  | Some l => df_Name (l4_df l)
  | None => []
  end.
Definition get_SId_SCIdS_of_label (st : FibDecoder) (label : list Z) : Z * Z :=
  match get_SId_SCIdS_from_service_label (mpFibConfigFig1 st) label with
  | Some v => if m_SId v =? 0 then (0, 0) else (m_SId v, m_SCIdS v)
  | None => (0, 0)
  end.
Definition get_EId (st : FibDecoder) : Z :=
  match Fig1s0_EnsembleLabelVec (mpFibConfigFig1 st) with (l, _) :: _ => l0_EId l | [] => 0 end.
Definition get_ensemble_name (st : FibDecoder) : list Z :=
  match Fig1s0_EnsembleLabelVec (mpFibConfigFig1 st) with (l, _) :: _ => df_Name (l0_df l) | [] => [32] end.
Definition get_sub_channel_id_list (st : FibDecoder) : list Z :=
  map s1_SubChId (items (Fig0s1_BasicSubChannelOrganizationVec (mpFibConfigFig0Curr st))).
Definition get_ecc (st : FibDecoder) : Z :=
  match get_Fig0s9_CountryLtoInterTab (mpFibConfigFig0Curr st) with Some f => s9_Ensemble_ECC f | None => 0 end.
Definition get_cif_count (st : FibDecoder) : Z := mCifCount st.
Definition get_cif_count_parts (st : FibDecoder) : Z * Z := (mCifCount_hi st, mCifCount_lo st).
Definition get_mod_julian_date (st : FibDecoder) : Z := mModJulianDate st.

(** dab_constants.h: the description of a sub-channel for the ETI generator; an
    unknown sub-channel is described by the default values of the structure. *)
Record SChannelData := mk_cd {
  cd_in_use : bool; cd_id : Z; cd_start_cu : Z; cd_uepFlag : bool; cd_protlev : Z; cd_size : Z; cd_bitrate : Z
}.
Definition emptySubChannel : SFig0s1_BasicSubChannelOrganization :=
  mk_s1 (-1) (-1) (-1) (-1) (-1) (-1) (-1) (-1) false.
Definition get_sub_channel_info (st : FibDecoder) (iSubChId : Z) : SChannelData :=
  let pFig0s1 := get_Fig0s1_BasicSubChannelOrganization_of_SubChId (mpFibConfigFig0Curr st) iSubChId in
  let scd := default emptySubChannel pFig0s1 in
  mk_cd (match pFig0s1 with Some _ => true | None => false end) (s1_SubChId scd) (s1_StartAddr scd)
    (s1_ShortForm scd) (s1_ProtectionLevel scd) (s1_SubChannelSize scd) (i16 (s1_BitRate scd)).

(** ** fib_decoder.cpp: the loading state machine *)
Definition check_audio_data_completeness (st : FibDecoder) : bool :=
  if negb (mFibLoadingState st =? S2_PrimaryBaseDataLoaded) then false
  else
    let audio := List.filter (fun f2 => scd_TMId (s2_ServiceComp_C f2) =? StreamModeAudio)
      (items (Fig0s2_BasicService_ServiceCompDefVec (mpFibConfigFig0Curr st))) in
    forallb (fun f2 => match get_data_for_audio_service_of st f2 true with Some _ => true | None => false end) audio
    && match audio with [] => false | _ => true end.

Definition check_packet_data_completeness (st : FibDecoder) : bool :=
  if negb (mFibLoadingState st =? S3_FullyAudioDataLoaded) then false
  else
    forallb (fun f2 =>
      negb (scd_TMId (s2_ServiceComp_C f2) =? PacketModeData) ||
      forallb (fun compIdx => match get_data_for_packet_service_of st f2 compIdx with Some _ => true | None => false end)
        (seqZ 0 (s2_NumServiceComp f2)))
      (items (Fig0s2_BasicService_ServiceCompDefVec (mpFibConfigFig0Curr st))).

Definition slot_timer_data_consistency_check (st : FibDecoder) : FibDecoder :=
  let st :=
    if mFibLoadingState st <=? S2_PrimaryBaseDataLoaded then
      let st := set_mFibLoadingState S2_PrimaryBaseDataLoaded st in
      if check_audio_data_completeness st then
        emit (signal_fib_loaded_state S3_FullyAudioDataLoaded) (set_mFibLoadingState S3_FullyAudioDataLoaded st)
      else st
    else st in
  if mFibLoadingState st =? S3_FullyAudioDataLoaded then
    if check_packet_data_completeness st then
      emit (signal_fib_loaded_state S4_FullyPacketDataLoaded)
        (set_mFibLoadingState S4_FullyPacketDataLoaded st)
    else st
  else st.

(** The state changes of [_slot_timer_check_state_and_print_FIGs]. *)
Definition slot_timer_check_state (st : FibDecoder) : FibDecoder :=
  let st :=
    if mFibLoadingState st <? S3_FullyAudioDataLoaded then
      emit (signal_fib_loaded_state S3_FullyAudioDataLoaded) (set_mFibLoadingState S3_FullyAudioDataLoaded st)
    else st in
  if mFibLoadingState st <? S4_FullyPacketDataLoaded then
    emit (signal_fib_loaded_state S4_FullyPacketDataLoaded) (set_mFibLoadingState S4_FullyPacketDataLoaded st)
  else st.
