(* ===== verification/FibInvariant.v ===== *)
(** * FIB decoder: the configuration invariant

    The invariant of the collected multiplex configuration, its preservation by
    every FIG handler of FibFig0.v and FibDecoder.v, the termination of every
    loop over a FIB, and what the clients of the decoder may rely on. *)
From stdpp Require Import gmap.
From S2P Require Import Prelude BitExtractors Protection Backend FibConfig FibFig0 FibDecoder.
Open Scope Z_scope.

(** ** Pairwise properties of lists *)
Definition pairwise {A} (R : A -> A -> Prop) (l : list A) : Prop :=
  forall i j x y, (i < j)%nat -> l !! i = Some x -> l !! j = Some y -> R x y.

Lemma pairwise_nil {A} (R : A -> A -> Prop) : pairwise R [].
Proof. intros i j x y _ H. done. Qed.

Lemma pairwise_snoc {A} (R : A -> A -> Prop) l y :
  pairwise R l -> Forall (fun x => R x y) l -> pairwise R (l ++ [y]).
Proof.
  intros Hp Hf i j a b Hij Ha Hb. apply lookup_app_Some in Hb as [Hb|[Hlb Hb]].
  - assert (l !! i = Some a) as Ha'.
    { rewrite lookup_app_l in Ha; [done|]. apply lookup_lt_Some in Hb. lia. }
    by apply (Hp i j).
  - apply list_lookup_singleton_Some in Hb as [Hj <-].
    rewrite lookup_app_l in Ha by lia. by apply (Forall_lookup_1 _ _ _ _ Hf Ha).
Qed.

(** Appending an element whose key the look-up did not find keeps keys apart. *)
Lemma pairwise_push {A} (R : A -> A -> Prop) now p (x : A) (v : vec A) :
  pairwise R (items v) -> vfind p v = None -> (forall y, p y = false -> R y x) ->
  pairwise R (items (vpush now x v)).
Proof.
  intros Hp Hf HR. rewrite items_vpush. apply pairwise_snoc; [done|].
  apply vfind_None in Hf. eapply Forall_impl; [|exact Hf]. exact HR.
Qed.

(** ** The invariant *)
Definition disjoint_cu (e e' : SFig0s1_BasicSubChannelOrganization) : Prop :=
  s1_SubChannelSize e <= 0 \/ s1_SubChannelSize e' <= 0 \/
  s1_StartAddr e + s1_SubChannelSize e <= s1_StartAddr e' \/
  s1_StartAddr e' + s1_SubChannelSize e' <= s1_StartAddr e.

(** One sub-channel: inside the CIF, and bit rate, level and size agree. *)
Definition entry_ok (e : SFig0s1_BasicSubChannelOrganization) : Prop :=
  0 <= s1_SubChId e < 64 /\ 0 <= s1_StartAddr e /\ 0 <= s1_SubChannelSize e /\
  s1_StartAddr e + s1_SubChannelSize e <= 864 /\
  if s1_ShortForm e then
    In (mkProtLevel (s1_SubChannelSize e) (s1_ProtectionLevel e) (s1_BitRate e)) cProtLevelTable
  else
    0 <= s1_Option e /\
    (s1_Option e = 0 -> 0 <= s1_ProtectionLevel e < 4 /\
       s1_BitRate e = s1_SubChannelSize e / rd [12; 8; 6; 4] (s1_ProtectionLevel e) * 8) /\
    (s1_Option e = 1 -> 4 <= s1_ProtectionLevel e < 8 /\
       s1_BitRate e = s1_SubChannelSize e / rd [27; 21; 18; 15] (s1_ProtectionLevel e - 4) * 32) /\
    (1 < s1_Option e -> s1_BitRate e = -1).

Definition s2_key (x : SFig0s2_BasicService_ServiceCompDef) : Z * Z := (s2_get_SId x, s2_ServiceComp_C_index x).
Definition s8_key (x : SFig0s8_ServiceCompGlobalDef) : Z * Z := (s8_SId x, s8_SCIdS x).

Record cfg_ok (c : FibConfigFig0) : Prop := mk_cfg_ok {
  ok_s1 : Forall entry_ok (items (Fig0s1_BasicSubChannelOrganizationVec c));
  ok_s1_cu : pairwise disjoint_cu (items (Fig0s1_BasicSubChannelOrganizationVec c));
  ok_s1_key : pairwise (fun x y => s1_SubChId x <> s1_SubChId y) (items (Fig0s1_BasicSubChannelOrganizationVec c));
  ok_s2_key : pairwise (fun x y => s2_key x <> s2_key y) (items (Fig0s2_BasicService_ServiceCompDefVec c));
  ok_s3_key : pairwise (fun x y => s3_SCId x <> s3_SCId y) (items (Fig0s3_ServiceComponentPacketModeVec c));
  ok_s7 : (length (items (Fig0s7_ConfigurationInformationVec c)) <= 1)%nat;
  ok_s8_key : pairwise (fun x y => s8_key x <> s8_key y) (items (Fig0s8_ServiceCompGlobalDefVec c));
  ok_s9 : (length (items (Fig0s9_CountryLtoInterTabVec c)) <= 1)%nat;
  ok_s13 : Forall (fun x => 8 <= s13_SizeBits x) (items (Fig0s13_UserApplicationInformationVec c));
  ok_s14_key : pairwise (fun x y => s14_SubChId x <> s14_SubChId y) (items (Fig0s14_SubChannelOrganizationVec c));
  ok_s17_key : pairwise (fun x y => s17_SId x <> s17_SId y) (items (Fig0s17_ProgrammeTypeVec c));
  ok_clusters : length (mClusterTable c) = 128%nat
}.

Definition st_ok (st : FibDecoder) : Prop :=
  cfg_ok (mpFibConfigFig0Curr st) /\ cfg_ok (mpFibConfigFig0Next st).

(** ** State bookkeeping *)
Lemma cfg_ok_reset c : cfg_ok c -> cfg_ok (reset_fig0 c).
Proof. intros []. constructor; try apply pairwise_nil; try constructor; done. Qed.

Lemma cfg_ok_new : cfg_ok FibConfigFig0_new.
Proof. constructor; try apply pairwise_nil; try constructor; done. Qed.

Lemma get_config_ok st cn : st_ok st -> cfg_ok (get_config st cn).
Proof. intros [H1 H2]. unfold get_config. by destruct (cn =? 0). Qed.

Lemma st_ok_on_config st cn f :
  st_ok st -> cfg_ok (f (get_config st cn)) -> st_ok (on_config cn f st).
Proof. intros [H1 H2]. unfold get_config, on_config. by destruct (cn =? 0). Qed.

Lemma st_ok_on_curr st f : st_ok st -> cfg_ok (f (mpFibConfigFig0Curr st)) -> st_ok (on_curr f st).
Proof. intros [H1 H2] H. by split. Qed.

Lemma st_ok_retrigger st : st_ok st -> st_ok (retrigger_timer_data_loaded_fast st).
Proof. intros H. unfold retrigger_timer_data_loaded_fast. by destruct (_ <=? _). Qed.

Lemma st_ok_restart st : st_ok st -> st_ok (restart_fib_decoding st).
Proof. intros [H1 H2]. split; by apply cfg_ok_reset. Qed.

#[export] Hint Resolve get_config_ok st_ok_retrigger st_ok_restart cfg_ok_reset : dab.

(** Closes the members of [cfg_ok] that a handler leaves alone. *)
Ltac cfg := constructor; cbn [on_s1 on_s2 on_s3 on_s5 on_s7 on_s8 on_s9 on_s13 on_s14 on_s17 on_clusters
  Fig0s1_BasicSubChannelOrganizationVec Fig0s2_BasicService_ServiceCompDefVec
  Fig0s3_ServiceComponentPacketModeVec Fig0s5_ServiceComponentLanguageVec
  Fig0s7_ConfigurationInformationVec Fig0s8_ServiceCompGlobalDefVec Fig0s9_CountryLtoInterTabVec
  Fig0s13_UserApplicationInformationVec Fig0s14_SubChannelOrganizationVec Fig0s17_ProgrammeTypeVec
  mClusterTable]; rewrite ?items_vtouch; try assumption.

(** [vtouch] changes only time stamps. *)
Lemma cfg_ok_touch c now :
  cfg_ok c ->
  (forall p, cfg_ok (on_s1 (vtouch now p) c)) /\ (forall p, cfg_ok (on_s2 (vtouch now p) c)) /\
  (forall p, cfg_ok (on_s3 (vtouch now p) c)) /\ (forall p, cfg_ok (on_s5 (vtouch now p) c)) /\
  (forall p, cfg_ok (on_s7 (vtouch now p) c)) /\ (forall p, cfg_ok (on_s8 (vtouch now p) c)) /\
  (forall p, cfg_ok (on_s9 (vtouch now p) c)) /\ (forall p, cfg_ok (on_s13 (vtouch now p) c)) /\
  (forall p, cfg_ok (on_s14 (vtouch now p) c)) /\ (forall p, cfg_ok (on_s17 (vtouch now p) c)).
Proof. intros []. split_and!; intros p; cfg. Qed.

Ltac touch_ok := apply cfg_ok_touch; auto with dab.

(** ** FIG 0/1 *)
Lemma collides_false e cand :
  0 <= s1_StartAddr e -> collides cand e = false -> disjoint_cu e cand.
Proof.
  unfold collides, disjoint_cu. intros H0.
  destruct (Z.ltb_spec (s1_StartAddr e) 0); [lia|]. simpl.
  destruct (Z.leb_spec (s1_SubChannelSize e) 0); [lia|]. simpl. intros H2.
  apply andb_false_iff in H2 as [H2|H2]; apply Z.ltb_ge in H2; lia.
Qed.

Lemma cfg_ok_push_s1 c now e :
  cfg_ok c -> entry_ok e ->
  get_Fig0s1_BasicSubChannelOrganization_of_SubChId c (s1_SubChId e) = None ->
  find_colliding_Fig0s1 (Fig0s1_BasicSubChannelOrganizationVec c) e = None ->
  cfg_ok (on_s1 (vpush now e) c).
Proof.
  intros Hc He Hn Hcol. destruct Hc. cfg.
  - rewrite items_vpush. apply Forall_app. by split; [|constructor].
  - rewrite items_vpush. apply pairwise_snoc; [done|].
    unfold find_colliding_Fig0s1 in Hcol. apply vfind_None in Hcol.
    apply Forall_forall. intros x Hx. rewrite Forall_forall in Hcol, ok_s2. apply collides_false.
    + by apply ok_s2.
    + by apply Hcol.
  - eapply pairwise_push; [done|exact Hn|]. unfold is_s1. intros y Hy. by apply Z.eqb_neq.
Qed.

Lemma prot_table_entry i :
  0 <= i < 64 ->
  In (nth (Z.to_nat i) cProtLevelTable (mkProtLevel 0 0 0)) cProtLevelTable /\
  0 <= CUSize (nth (Z.to_nat i) cProtLevelTable (mkProtLevel 0 0 0)).
Proof.
  intros Hi. assert (In (nth (Z.to_nat i) cProtLevelTable (mkProtLevel 0 0 0)) cProtLevelTable) as H.
  { apply nth_In. change (length cProtLevelTable) with 64%nat. lia. }
  split; [done|]. revert H. generalize (nth (Z.to_nat i) cProtLevelTable (mkProtLevel 0 0 0)).
  intros e He. assert (forallb (fun e => 0 <=? CUSize e) cProtLevelTable = true) as Hf by (by vm_compute).
  rewrite forallb_forall in Hf. apply Z.leb_le. by apply Hf.
Qed.

Lemma s1_short_ok d off sub start :
  Forall is_bit d -> 0 <= sub < 64 -> 0 <= start ->
  start + s1_SubChannelSize (s1_short d off sub start) <= 864 -> entry_ok (s1_short d off sub start).
Proof.
  intros Hd Hs H0 Hle.
  destruct (prot_table_entry _ (getBits_6_range d (off + 18) Hd)) as [Hin Hsz].
  unfold s1_short in *. revert Hin Hsz Hle.
  generalize (nth (Z.to_nat (getBits_6 d (off + 18))) cProtLevelTable (mkProtLevel 0 0 0)).
  intros [cu lvl br] Hin Hsz Hle. cbn in *. unfold entry_ok. cbn. by split_and!; try lia.
Qed.

Ltac s1_fields := cbn [s1_SubChId s1_StartAddr s1_TableSwitch s1_TableIndex s1_Option s1_ProtectionLevel
  s1_SubChannelSize s1_BitRate s1_ShortForm].

Lemma s1_long_ok d off sub start :
  Forall is_bit d -> 0 <= sub < 64 -> 0 <= start ->
  start + s1_SubChannelSize (s1_long d off sub start) <= 864 -> entry_ok (s1_long d off sub start).
Proof.
  intros Hd Hs H0. unfold s1_long.
  pose proof (getBits_3_range d (off + 17) Hd) as Ho. pose proof (getBits_2_range d (off + 20) Hd) as Hp.
  pose proof (getBits_range d (off + 22) 10 ltac:(lia) Hd) as Hz.
  set (o := getBits_3 d (off + 17)) in *. set (p := getBits_2 d (off + 20)) in *.
  set (z := getBits d (off + 22) 10) in *.
  assert (rd [12; 8; 6; 4] p = 12 \/ rd [12; 8; 6; 4] p = 8 \/ rd [12; 8; 6; 4] p = 6 \/ rd [12; 8; 6; 4] p = 4) as Ha
    by (assert (p = 0 \/ p = 1 \/ p = 2 \/ p = 3) as [-> | [-> | [-> | ->]]] by lia; auto).
  assert (0 < rd [27; 21; 18; 15] p) as Hb
    by (assert (p = 0 \/ p = 1 \/ p = 2 \/ p = 3) as [-> | [-> | [-> | ->]]] by lia; by vm_compute).
  change (Z.shiftl 1 2) with 4. unfold entry_ok.
  destruct (Z.eqb_spec o 0) as [Eo|Eo]; [|destruct (Z.eqb_spec o 1) as [Eo1|Eo1]]; s1_fields;
    intros Hle; split_and!; try lia; intros; try lia.
  - split; [lia|]. by rewrite Z.quot_div_nonneg by lia.
  - split; [lia|]. replace (p + 4 - 4) with p by lia. by rewrite Z.quot_div_nonneg by lia.
Qed.

Lemma s1_short_fields d off sub start :
  s1_SubChId (s1_short d off sub start) = sub /\ s1_StartAddr (s1_short d off sub start) = start.
Proof. done. Qed.

Lemma s1_long_fields d off sub start :
  s1_SubChId (s1_long d off sub start) = sub /\ s1_StartAddr (s1_long d off sub start) = start.
Proof. unfold s1_long. cbv zeta. by destruct (_ =? 0); [|destruct (_ =? 1)]. Qed.

(** A handler called at byte [used] keeps the invariant and advances. *)
Definition handler_ok (fn : TFnFibProc) : Prop :=
  forall d used fh st, Forall is_bit d -> 0 <= used -> 0 <= PD_Flag fh < 2 -> st_ok st ->
    st_ok (fst (fn d used fh st)) /\ used < snd (fn d used fh st).

Lemma quot8_gt used k : 0 <= used -> 8 <= k -> used < Z.quot (used * 8 + k) 8.
Proof. intros. rewrite Z.quot_div_nonneg by lia. Z.to_euclidean_division_equations; lia. Qed.

Lemma subprocess_Fig0s1_ok now : handler_ok (subprocess_Fig0s1 now).
Proof.
  intros d used fh st Hd Hu _ Hst. unfold subprocess_Fig0s1. cbv zeta.
  pose proof (getBits_6_range d (used * 8) Hd) as Hs.
  pose proof (getBits_range d (used * 8 + 6) 10 ltac:(lia) Hd) as Ha.
  destruct (get_Fig0s1_BasicSubChannelOrganization_of_SubChId _ _) as [f|] eqn:Ef.
  - cbn [fst snd]. split; [|apply quot8_gt; [done|by destruct (s1_ShortForm f)]].
    apply st_ok_on_config; [done|touch_ok].
  - set (r := if getBits_1 d (used * 8 + 16) =? 0 then _ else _).
    assert (s1_SubChId (fst r) = getBits_6 d (used * 8) /\
      s1_StartAddr (fst r) = getBits d (used * 8 + 6) 10 /\ used < Z.quot (snd r) 8 /\
      (s1_StartAddr (fst r) + s1_SubChannelSize (fst r) <= 864 -> entry_ok (fst r))) as (Hid & Hsa & Hq & Hok).
    { subst r. destruct (_ =? 0); cbn [fst snd].
      - destruct (s1_short_fields d (used * 8) (getBits_6 d (used * 8)) (getBits d (used * 8 + 6) 10)) as [E1 E2].
        rewrite E1, E2. split_and!; [reflexivity..|apply quot8_gt; lia|]. intros H.
        apply s1_short_ok; [assumption|assumption|lia|exact H].
      - destruct (s1_long_fields d (used * 8) (getBits_6 d (used * 8)) (getBits d (used * 8 + 6) 10)) as [E1 E2].
        rewrite E1, E2. split_and!; [reflexivity..|apply quot8_gt; lia|]. intros H.
        apply s1_long_ok; [assumption|assumption|lia|exact H]. }
    destruct r as [e off]. cbn [fst snd] in *. unfold cNumCuPerCif.
    destruct (Z.ltb_spec 864 (s1_StartAddr e + s1_SubChannelSize e)); [split; cbn; auto with dab|].
    destruct (find_colliding_Fig0s1 _ e) eqn:Ec; cbn [fst snd]; (split; [|done]); [auto with dab|].
    apply st_ok_retrigger, st_ok_on_config; [done|].
    apply cfg_ok_push_s1; [auto with dab|apply Hok; lia|by rewrite Hid|done].
Qed.

(** ** The other looped handlers *)
Lemma subprocess_Fig0s2_ok now : handler_ok (subprocess_Fig0s2 now).
Proof.
  intros d used fh st Hd Hu Hpd Hst. unfold subprocess_Fig0s2. cbv zeta.
  set (SId := if PD_Flag fh =? 1 then getLBits d (8 * used) 32 else _).
  set (off0 := 8 * used + _ + 8). set (num := getBits_4 d _).
  assert (0 <= num) as Hnum by (by apply getBits_4_range).
  assert (8 * used + 24 <= off0) as Hoff by (subst off0; destruct (_ =? 1); lia).
  match goal with |- context [zfor 0 num ?b ?s] => pose proof (zfor_inv
    (fun i '(st', _, off) => st_ok st' /\ off = off0 + 16 * i) 0 num b s Hnum) as H; destruct (zfor 0 num b s)
    as [[st' scd] off] end.
  cbn [fst snd]. destruct H as [Hok ->].
  - split; [done|lia].
  - intros i [[st1 scd1] off1] Hi [Hst1 ->].
    destruct (get_Fig0s2_BasicService_ServiceCompDef_of_SId_ScIdx _ SId i) eqn:Ef; (split; [|lia]).
    + apply st_ok_on_config; [done|touch_ok].
    + apply st_ok_retrigger, st_ok_on_config; [done|].
      assert (cfg_ok (get_config st1 (CN_Flag fh))) as Hc by auto with dab. destruct Hc. cfg.
      eapply pairwise_push; [eassumption|exact Ef|]. intros y Hy E. apply not_true_iff_false in Hy. apply Hy.
      unfold s2_key in E. injection E as E1 E2. unfold is_s2. rewrite E1, E2.
      unfold s2_get_SId. cbn. rewrite Z.eqb_refl, andb_true_r. unfold SId.
      apply Z.eqb_eq. destruct (Z.eqb_spec (PD_Flag fh) 0), (Z.eqb_spec (PD_Flag fh) 1); try done; lia.
  - split; [done|]. replace (off0 + 16 * num) with (used * 8 + (off0 - used * 8 + 16 * num)) by lia.
    apply quot8_gt; lia.
Qed.

Lemma subprocess_Fig0s3_ok now : handler_ok (subprocess_Fig0s3 now).
Proof.
  intros d used fh st Hd Hu _ Hst. unfold subprocess_Fig0s3. cbv zeta.
  destruct (get_Fig0s3_ServiceComponentPacketMode_of_SCId _ _) as [f|] eqn:Ef.
  - cbn [fst snd]. split; [apply st_ok_on_config; [done|touch_ok]|].
    rewrite <- Z.add_assoc. apply quot8_gt; [done|]. destruct (_ =? 0); lia.
  - set (ca := if getBits_1 d (used * 8 + 15) =? 1 then _ else _).
    assert (used < Z.quot (snd ca) 8) as Hq
      by (subst ca; destruct (_ =? 1); cbn [snd]; rewrite <- ?Z.add_assoc; apply quot8_gt; lia).
    destruct ca as [org off]. cbn [fst snd] in *. split; [|done].
    apply st_ok_retrigger, st_ok_on_config; [done|].
    assert (cfg_ok (get_config st (CN_Flag fh))) as Hc by auto with dab. destruct Hc. cfg.
    eapply pairwise_push; [eassumption|exact Ef|]. intros y Hy. by apply Z.eqb_neq.
Qed.

Lemma subprocess_Fig0s5_ok now : handler_ok (subprocess_Fig0s5 now).
Proof.
  intros d used fh st Hd Hu _ Hst. unfold subprocess_Fig0s5. cbv zeta.
  assert (forall x, st_ok (retrigger_timer_data_loaded_slow (on_curr (on_s5 (vpush now x)) st))) as Hp.
  { intros x. apply st_ok_retrigger, st_ok_on_curr; [done|]. destruct Hst as [[] _]. cfg. }
  assert (forall p, st_ok (on_curr (on_s5 (vtouch now p)) st)) as Ht.
  { intros p. apply st_ok_on_curr; [done|]. apply cfg_ok_touch, Hst. }
  destruct (_ =? 0); cbn [fst snd]; (split; [by case_match|apply quot8_gt; lia]).
Qed.

Lemma subprocess_Fig0s8_ok now : handler_ok (subprocess_Fig0s8 now).
Proof.
  intros d used fh st Hd Hu _ Hst. unfold subprocess_Fig0s8. cbv zeta.
  set (n := if PD_Flag fh =? 1 then 32 else 16). assert (16 <= n) as Hn by (subst n; destruct (_ =? 1); lia).
  set (t := if getBits_1 d (used * 8 + n + 8) =? 0 then _ else _).
  assert (used < Z.quot (snd t) 8) as Hq.
  { subst t. destruct (getBits_1 d (used * 8 + n + 8) =? 0), (getBits_1 d (used * 8 + n) =? 0); cbn [snd];
      rewrite <- Z.add_assoc; apply quot8_gt; lia. }
  destruct t as [[sub scid] off]. cbn [fst snd] in *. split; [|done].
  pose proof (getBits_4_range d (used * 8 + n + 4) Hd) as H4.
  destruct (get_Fig0s8_ServiceCompGlobalDef_of_SId_SCIdS _ _ _) eqn:Ef.
  - apply st_ok_on_config; [done|touch_ok].
  - apply st_ok_retrigger, st_ok_on_config; [done|].
    assert (cfg_ok (get_config st (CN_Flag fh))) as Hc by auto with dab. destruct Hc. cfg.
    eapply pairwise_push; [eassumption|exact Ef|]. intros y Hy E. apply not_true_iff_false in Hy. apply Hy.
    unfold s8_key in E. cbn in E. injection E as E1 E2. unfold is_s8.
    rewrite E1, E2, u8_small by (unfold is_byte; lia). by rewrite !Z.eqb_refl.
Qed.

Lemma read_user_app_off d pd off :
  Forall is_bit d -> off + 16 <= snd (read_user_app d pd off) <= off + 264.
Proof. intros Hd. unfold read_user_app. cbn [snd]. pose proof (getBits_5_range d (off + 11) Hd). lia. Qed.

Lemma subprocess_Fig0s13_ok now : handler_ok (subprocess_Fig0s13 now).
Proof.
  intros d used fh st Hd Hu _ Hst. unfold subprocess_Fig0s13. cbv zeta.
  set (n := if PD_Flag fh =? 1 then 32 else 16).
  assert (16 <= n <= 32) as Hn by (subst n; destruct (_ =? 1); lia).
  destruct (get_Fig0s13_UserApplicationInformation_of_SId_SCIdS _ _ _) as [f|] eqn:Ef.
  - cbn [fst snd]. split.
    + apply st_ok_on_curr; [done|]. apply cfg_ok_touch, Hst.
    + apply vfind_Some in Ef as [Hin _]. pose proof (ok_s13 _ (proj1 Hst)) as H13.
      rewrite Forall_forall in H13. rewrite Z.add_comm. apply quot8_gt; [done|].
      by apply H13.
  - set (num := if 6 <? _ then 6 else _).
    assert (0 <= num <= 6) as Hnum by (subst num; pose proof (getBits_4_range d (used * 8 + n + 4) Hd); zcases; lia).
    match goal with |- context [zfor 0 num ?b ?s] => pose proof (zfor_inv
      (fun i '(_, off) => used * 8 + n + 8 + 16 * i <= off <= used * 8 + n + 8 + 264 * i) 0 num b s
      ltac:(lia)) as H; destruct (zfor 0 num b s) as [apps off] end.
    cbn [fst snd]. assert (used * 8 + n + 8 + 16 * num <= off <= used * 8 + n + 8 + 264 * num) as Hoff.
    { apply H; [lia|]. intros i [apps1 off1] Hi Ho.
      pose proof (read_user_app_off d (PD_Flag fh) off1 Hd). destruct (read_user_app d _ off1). cbn [snd] in *. lia. }
    split.
    + apply st_ok_retrigger, st_ok_on_config; [done|].
      assert (cfg_ok (get_config st (CN_Flag fh))) as Hc by auto with dab. destruct Hc. cfg.
      rewrite items_vpush. apply Forall_app. split; [done|]. constructor; [|constructor]. cbn.
      rewrite uwrap_small by lia. lia.
    + replace off with (used * 8 + (off - used * 8)) by lia. apply quot8_gt; lia.
Qed.

Lemma subprocess_Fig0s14_ok now : handler_ok (subprocess_Fig0s14 now).
Proof.
  intros d used fh st Hd Hu _ Hst. unfold subprocess_Fig0s14. cbv zeta. cbn [fst snd]. split; [|lia].
  destruct (get_Fig0s14_SubChannelOrganization_of_SubChId _ _) eqn:Ef.
  - apply st_ok_on_config; [done|touch_ok].
  - apply st_ok_retrigger, st_ok_on_config; [done|].
    assert (cfg_ok (get_config st (CN_Flag fh))) as Hc by auto with dab. destruct Hc. cfg.
    eapply pairwise_push; [eassumption|exact Ef|]. intros y Hy. by apply Z.eqb_neq.
Qed.

(** ** The loops over a FIG *)
Lemma fig_header_range d :
  Forall is_bit d -> 0 <= Length (get_fig_header d) < 32 /\ 0 <= PD_Flag (get_fig_header d) < 2.
Proof. intros Hd. split; [by apply getBits_5_range|by apply getBits_1_range]. Qed.

(** A handler that keeps the invariant and advances is called at most 31 times. *)
Lemma process_fig0_loop_ok d fn st :
  Forall is_bit d -> handler_ok fn -> st_ok st ->
  exists st', process_fig0_loop d fn st = Some st' /\ st_ok st'.
Proof.
  intros Hd Hfn Hst. unfold process_fig0_loop. destruct (fig_header_range d Hd) as [Hl Hpd].
  match goal with |- context [while 32 ?c ?b ?s] =>
    destruct (while_total (fun '(st, used, _) => st_ok st /\ 0 <= used)
      (fun '(_, used, _) => Length (get_fig_header d) - used) c b 32 s) as ([[st' used'] quit] & -> & [Hok _] & _)
  end.
  - split; [done|lia].
  - change (Z.of_nat 32) with 32. lia.
  - intros [[st1 used] quit] [Hst1 Hu] Hc. destruct (Hfn d used (get_fig_header d) st1 Hd Hu Hpd Hst1) as [H1 H2].
    destruct (fn d used (get_fig_header d) st1) as [st2 used2]. cbn [fst snd] in *.
    apply andb_true_iff in Hc as [_ Hc%Z.leb_le]. by split_and!; [|lia..].
  - by exists st'.
Qed.

Lemma process_Fig0s17_ok now d st :
  Forall is_bit d -> st_ok st -> exists st', process_Fig0s17 now d st = Some st' /\ st_ok st'.
Proof.
  intros Hd Hst. unfold process_Fig0s17. pose proof (getBits_5_range d 3 Hd) as Hl.
  set (len := getBits_5 d 3) in *.
  match goal with |- context [while 32 ?c ?b ?s] =>
    destruct (while_total (fun '(st, off) => st_ok st /\ off mod 32 = 16)
      (fun '(_, off) => (len * 8 - off) / 32) c b 32 s) as ([st' off'] & -> & [Hok _] & _)
  end.
  - by split.
  - change (Z.of_nat 32) with 32. Z.to_euclidean_division_equations; lia.
  - intros [st1 off] [Hst1 Ho] Hc%Z.ltb_lt. split_and!.
    + destruct (get_Fig0s17_ProgrammeType_of_SId _ _) eqn:Ef.
      * apply st_ok_on_curr; [done|]. apply cfg_ok_touch, Hst1.
      * apply st_ok_retrigger, st_ok_on_curr; [done|]. destruct Hst1 as [[] _]. cfg.
        eapply pairwise_push; [eassumption|exact Ef|]. intros y Hy. unfold is_s17 in Hy. cbn.
        rewrite uwrap_small in Hy by (apply (getBits_range d off 16); [lia|done]). by apply Z.eqb_neq.
    + rewrite <- Zplus_mod_idemp_l, Ho. done.
    + apply Z.div_pos; lia.
    + replace (len * 8 - (off + 32)) with (len * 8 - off + -1 * 32) by lia. rewrite Z.div_add by lia. lia.
  - by exists st'.
Qed.

(** ** Announcement clusters *)
Lemma get_cluster_spec t clusterId :
  length (fst (get_cluster t clusterId)) = length t /\
  (length t = 128%nat -> (snd (get_cluster t clusterId) < 64)%nat).
Proof.
  unfold get_cluster, find_cluster.
  destruct (list_find _ (take 64 t)) as [[i c]|] eqn:E; cbn [fmap option_fmap option_map fst snd].
  - split; [done|]. intros _. apply list_find_Some in E as [E _]. apply lookup_lt_Some in E.
    rewrite length_take in E. lia.
  - clear E. destruct (list_find _ (take 64 t)) as [[i c]|] eqn:E; cbn [fmap option_fmap option_map fst snd].
    + rewrite length_alter. split; [done|]. intros _. apply list_find_Some in E as [E _]. apply lookup_lt_Some in E.
      rewrite length_take in E. lia.
    + split; [done|lia].
Qed.

Lemma cfg_ok_on_clusters f c :
  cfg_ok c -> (length (mClusterTable c) = 128%nat -> length (f (mClusterTable c)) = 128%nat) -> cfg_ok (on_clusters f c).
Proof. intros [] Hf. cfg. by apply Hf. Qed.

Lemma set_cluster_ok cn cid SId asu st : st_ok st -> st_ok (set_cluster cn cid SId asu st).
Proof.
  intros Hst. unfold set_cluster. destruct (_ <? _); [done|].
  apply st_ok_on_config; [done|]. apply cfg_ok_on_clusters; [auto with dab|].
  set (t := mClusterTable _). destruct (get_cluster_spec t cid) as [Hl _].
  destruct (get_cluster t cid) as [t' i]. cbn [fst] in Hl. by rewrite length_alter, Hl.
Qed.

Lemma st_ok_emits {A} (g : A -> Signal) l st :
  st_ok st -> st_ok (fold_left (fun st x => emit (g x) st) l st).
Proof. intros Hst. by apply fold_left_inv. Qed.

Lemma announce_ok cn cid asw sub st : st_ok st -> st_ok (announce cn cid asw sub st).
Proof.
  intros Hst. unfold announce. set (t := mClusterTable _). destruct (get_cluster_spec t cid) as [Hl _].
  destruct (get_cluster t cid) as [t' i]. cbn [fst] in Hl.
  assert (st_ok (on_config cn (on_clusters (fun _ => t')) st)) as Hst'.
  { apply st_ok_on_config; [done|]. apply cfg_ok_on_clusters; [auto with dab|]. intros H. by rewrite Hl. }
  assert (forall f, st_ok (on_config cn (on_clusters (alter f i)) (on_config cn (on_clusters (fun _ => t')) st))) as Ha.
  { intros f. apply st_ok_on_config; [done|]. apply cfg_ok_on_clusters; [auto with dab|]. by rewrite length_alter. }
  destruct (t' !! i) as [c|]; [|done].
  destruct (negb _); [|destruct (0 <? _); [apply st_ok_emits, Ha|done]].
  destruct (_ =? 5); [apply (st_ok_emits _ _ _ (Ha _))|apply Ha].
Qed.

Lemma process_Fig0s18_ok d st :
  Forall is_bit d -> st_ok st -> exists st', process_Fig0s18 d st = Some st' /\ st_ok st'.
Proof.
  intros Hd Hst. unfold process_Fig0s18. destruct (fig_header_range d Hd) as [Hl _].
  set (fh := get_fig_header d) in *.
  match goal with |- context [while 32 ?c ?b ?s] =>
    destruct (while_total (fun '(st, off) => st_ok st /\ 16 <= off /\ off mod 8 = 0)
      (fun '(_, off) => (Length fh * 8 - off) / 8) c b 32 s) as ([st' off'] & -> & [Hok _] & _)
  end.
  - split_and!; [done|lia|done].
  - change (Z.of_nat 32) with 32. Z.to_euclidean_division_equations; lia.
  - intros [st1 off] (Hst1 & Ho & Hm) Hc%Z.leb_le.
    pose proof (getBits_range d (off + 16 + 16 + 5) 3 ltac:(lia) Hd) as Hn.
    set (n := getBits d (off + 16 + 16 + 5) 3) in *. split_and!.
    + apply (zfor_inv (fun _ => st_ok)); [lia|done|]. intros i st2 _ H2.
      destruct (_ =? 0); [done|by apply set_cluster_ok].
    + lia.
    + Z.to_euclidean_division_equations; lia.
    + apply Z.div_pos; lia.
    + Z.to_euclidean_division_equations; lia.
  - by exists st'.
Qed.

Lemma process_Fig0s19_ok d st :
  Forall is_bit d -> st_ok st -> exists st', process_Fig0s19 d st = Some st' /\ st_ok st'.
Proof.
  intros Hd Hst. unfold process_Fig0s19. destruct (fig_header_range d Hd) as [Hl _].
  set (fh := get_fig_header d) in *.
  match goal with |- context [while 32 ?c ?b ?s] =>
    destruct (while_total (fun '(st, off, _) => st_ok st /\ 16 <= off /\ off mod 8 = 0)
      (fun '(_, off, _) => (Length fh * 8 - off) / 8) c b 32 s) as ([[st' off'] q] & -> & [Hok _] & _)
  end.
  - split_and!; [done|lia|done].
  - change (Z.of_nat 32) with 32. Z.to_euclidean_division_equations; lia.
  - intros [[st1 off] q] (Hst1 & Ho & Hm) Hc. apply andb_true_iff in Hc as [_ Hc%Z.leb_le].
    set (off' := if getBits d (off + 8 + 16 + 1) 1 =? 1 then _ else _).
    assert (off' = off + 32 \/ off' = off + 40) as Ho' by (subst off'; destruct (_ =? 1); lia).
    destruct (mFibLoadingState st1 <? _); (split_and!; [try done; by apply announce_ok|..]);
      try (Z.to_euclidean_division_equations; lia).
  - by exists st'.
Qed.

(** ** Dispatch *)
Lemma process_Fig0s0_ok d st : st_ok st -> st_ok (process_Fig0s0 d st).
Proof.
  intros [H1 H2]. unfold process_Fig0s0. cbv zeta. destruct (_ && _); split; cbn; auto with dab.
Qed.

Lemma process_Fig0s7_ok now d st : st_ok st -> st_ok (process_Fig0s7 now d st).
Proof.
  intros Hst. unfold process_Fig0s7, get_Fig0s7_ConfigurationInformation.
  assert (cfg_ok (get_config st (CN_Flag (get_fig_header d)))) as Hc by auto with dab.
  destruct (Fig0s7_ConfigurationInformationVec (get_config st _)) as [|x v] eqn:E; cbn [head fmap option_fmap option_map].
  - apply st_ok_retrigger, st_ok_on_config; [done|]. destruct Hc. cfg. rewrite E. cbn. lia.
  - apply st_ok_on_config; [done|touch_ok].
Qed.

Lemma process_Fig0s9_ok now d st : st_ok st -> st_ok (process_Fig0s9 now d st).
Proof.
  intros Hst. unfold process_Fig0s9.
  destruct (Fig0s9_CountryLtoInterTabVec _) as [|x v] eqn:E.
  - apply st_ok_retrigger, st_ok_on_curr; [done|]. destruct Hst as [[] _]. cfg. rewrite E. cbn. lia.
  - apply st_ok_on_curr; [done|]. apply cfg_ok_touch, Hst.
Qed.

Lemma process_Fig0s10_ok d st : st_ok st -> st_ok (process_Fig0s10 d st).
Proof. intros Hst. unfold process_Fig0s10. cbv zeta. by case_match. Qed.

Lemma process_Fig0s15_ok d st : st_ok st -> st_ok (process_Fig0s15 d st).
Proof. intros Hst. unfold process_Fig0s15. by case_match. Qed.

Lemma fast_audio_ok st : st_ok st -> st_ok (process_fast_audio_selection st).
Proof. intros Hst. unfold process_fast_audio_selection. repeat case_match; done. Qed.

#[export] Hint Resolve subprocess_Fig0s1_ok subprocess_Fig0s2_ok subprocess_Fig0s3_ok subprocess_Fig0s5_ok
  subprocess_Fig0s8_ok subprocess_Fig0s13_ok subprocess_Fig0s14_ok process_fig0_loop_ok
  process_Fig0s0_ok process_Fig0s7_ok process_Fig0s9_ok process_Fig0s10_ok process_Fig0s15_ok
  process_Fig0s17_ok process_Fig0s18_ok process_Fig0s19_ok fast_audio_ok : dab.

Lemma process_Fig0_ext_ok now d ext st :
  Forall is_bit d -> st_ok st -> exists st', process_Fig0_ext now d ext st = Some st' /\ st_ok st'.
Proof.
  intros Hd Hst. unfold process_Fig0_ext.
  repeat match goal with |- context [if ext =? ?k then _ else _] => destruct (ext =? k); [solve [eauto with dab]|] end.
  eauto.
Qed.

Lemma process_Fig0_ok now d st :
  Forall is_bit d -> st_ok st -> exists st', process_Fig0 now d st = Some st' /\ st_ok st'.
Proof.
  intros Hd Hst. unfold process_Fig0.
  destruct (process_Fig0_ext_ok now d (getBits_5 d (8 + 3)) st Hd Hst) as (st' & -> & Hok). cbn [mbind option_bind].
  destruct (_ && _); eauto with dab.
Qed.

Lemma st_ok_on_fig1 f st : st_ok st -> st_ok (on_fig1 f st).
Proof. done. Qed.

Lemma process_Fig1_ok qt now d st : st_ok st -> st_ok (process_Fig1 qt now d st).
Proof.
  intros Hst. unfold process_Fig1, process_Fig1s0, process_Fig1s1, process_Fig1s4, process_Fig1s5.
  repeat case_match; try done; by apply st_ok_retrigger.
Qed.

Lemma process_fig_ok qt now bits pos st :
  Forall is_bit bits -> st_ok st ->
  exists st' pos' quit, process_fig qt now bits pos st = Some (st', pos', quit) /\ st_ok st' /\
    (quit = false -> pos < pos').
Proof.
  intros Hb Hst. unfold process_fig. set (d := drop _ bits).
  assert (Forall is_bit d) as Hd by (by apply Forall_drop).
  pose proof (getBits_5_range d 3 Hd) as Hl.
  destruct (_ && _); [by exists st, pos, true|].
  assert (exists st', (if getBits_3 d 0 =? 0 then process_Fig0 now d st
    else if getBits_3 d 0 =? 1 then Some (process_Fig1 qt now d st) else Some st) = Some st' /\ st_ok st')
    as (st' & -> & Hok).
  { destruct (_ =? 0); [by apply process_Fig0_ok|]. destruct (_ =? 1); eauto using process_Fig1_ok. }
  cbn [mbind option_bind]. destruct (mRestartFibDecoding st').
  - by exists st', pos, true.
  - exists st', (pos + getBits_5 d 3 + 1), false. split_and!; [done..|lia].
Qed.

Lemma process_figs_ok fuel qt now bits pos st :
  Forall is_bit bits -> st_ok st -> Z.max 0 (30 - pos) < Z.of_nat fuel ->
  exists st', process_figs fuel qt now bits pos st = Some st' /\ st_ok st'.
Proof.
  intros Hb. revert pos st. induction fuel as [|fuel IH]; intros pos st Hst Hf; [lia|]. cbn [process_figs].
  destruct (Z.ltb_spec pos 30); [|by exists st].
  destruct (process_fig_ok qt now bits pos st Hb Hst) as (st' & pos' & quit & -> & Hok & Hp).
  cbn [mbind option_bind]. destruct quit; [by exists st'|]. apply IH; [done|]. specialize (Hp eq_refl). lia.
Qed.

Lemma process_FIB_ok qt now bits st :
  Forall is_bit bits -> st_ok st -> exists st', process_FIB qt now bits st = Some st' /\ st_ok st'.
Proof.
  intros Hb Hst. unfold process_FIB. apply process_figs_ok; [done| |by vm_compute].
  by destruct (_ =? 0).
Qed.
