(* ===== verification/FibProperties.v ===== *)
(** * FIB decoder: what its clients may rely on

    Reachable states of the decoder (FIBs, channel changes and timers in any
    order), the loading state machine and the restart, the separation of the
    current and the next configuration, the queries against the MSC backend, and
    the round trip of sub-channel definitions. *)
From stdpp Require Import gmap.
From S2P Require Import Prelude BitExtractors BitFields Protection Backend FibConfig FibFig0 FibDecoder FibInvariant.
Open Scope Z_scope.

(** ** Reachable states *)
Inductive fib_step (qt : QtText) : FibDecoder -> FibDecoder -> Prop :=
  | step_process_FIB now bits st st' :
      Forall is_bit bits -> process_FIB qt now bits st = Some st' -> fib_step qt st st'
  | step_connect st : fib_step qt st (connect_channel st)
  | step_disconnect st : fib_step qt st (disconnect_channel st)
  | step_fast_selection iSId st : fib_step qt st (set_SId_for_fast_audio_selection iSId st)
  | step_consistency_timer st : fib_step qt st (slot_timer_data_consistency_check st)
  | step_state_timer st : fib_step qt st (slot_timer_check_state st).

Inductive reachable (qt : QtText) : FibDecoder -> Prop :=
  | reachable_new : reachable qt FibDecoder_new
  | reachable_step st st' : reachable qt st -> fib_step qt st st' -> reachable qt st'.

(** The timers change the loading state and emit signals only. *)
Lemma consistency_check_frame st :
  mpFibConfigFig0Curr (slot_timer_data_consistency_check st) = mpFibConfigFig0Curr st /\
  mpFibConfigFig0Next (slot_timer_data_consistency_check st) = mpFibConfigFig0Next st /\
  mpFibConfigFig1 (slot_timer_data_consistency_check st) = mpFibConfigFig1 st.
Proof. unfold slot_timer_data_consistency_check. cbv zeta. by repeat case_match. Qed.

Lemma check_state_frame st :
  mpFibConfigFig0Curr (slot_timer_check_state st) = mpFibConfigFig0Curr st /\
  mpFibConfigFig0Next (slot_timer_check_state st) = mpFibConfigFig0Next st /\
  mpFibConfigFig1 (slot_timer_check_state st) = mpFibConfigFig1 st.
Proof. unfold slot_timer_check_state. cbv zeta. by repeat case_match. Qed.

Lemma st_ok_step qt st st' : fib_step qt st st' -> st_ok st -> st_ok st'.
Proof.
  intros [] Hst.
  - match goal with H : process_FIB _ ?now ?bits ?s = Some _ |- _ =>
      destruct (process_FIB_ok qt now bits s) as (s' & E & Hok); [done..|]; congruence end.
  - destruct Hst. split; by apply cfg_ok_reset.
  - destruct Hst. split; by apply cfg_ok_reset.
  - unfold set_SId_for_fast_audio_selection. by destruct (_ <=? _).
  - unfold st_ok. destruct (consistency_check_frame st0) as (-> & -> & _). done.
  - unfold st_ok. destruct (check_state_frame st0) as (-> & -> & _). done.
Qed.

Lemma reachable_ok qt st : reachable qt st -> st_ok st.
Proof.
  induction 1; [split; apply cfg_ok_new|]. eauto using st_ok_step.
Qed.

(** ** Loading state and restart *)

(** Everything collected is gone: both configurations and the labels are empty
    and the loading starts again. *)
Definition restarted (st : FibDecoder) : Prop :=
  mRestartFibDecoding st = true /\ mFibLoadingState st = S0_Init /\
  mpFibConfigFig0Curr st = reset_fig0 (mpFibConfigFig0Curr st) /\
  mpFibConfigFig0Next st = reset_fig0 (mpFibConfigFig0Next st) /\
  mpFibConfigFig1 st = FibConfigFig1_new.

(** No restart so far, and the loading state is at least [L]. *)
Definition live (L : Z) (st : FibDecoder) : Prop :=
  mRestartFibDecoding st = false /\ L <= mFibLoadingState st <= S5_DeferredDataLoaded.
Definition grown (L : Z) (st : FibDecoder) : Prop := live L st \/ restarted st.

Lemma restart_restarted st : restarted (restart_fib_decoding st).
Proof. done. Qed.
Lemma grown_live L st : live L st -> grown L st.
Proof. by left. Qed.
Lemma grown_restart L st : grown L (restart_fib_decoding st).
Proof. right. apply restart_restarted. Qed.
Lemma live_on_curr L f st : live L st -> live L (on_curr f st).
Proof. done. Qed.
Lemma live_on_config L cn f st : live L st -> live L (on_config cn f st).
Proof. unfold on_config. by destruct (cn =? 0). Qed.
Lemma live_emit L s st : live L st -> live L (emit s st).
Proof. done. Qed.
Lemma live_retrigger L st : live L st -> live L (retrigger_timer_data_loaded_fast st).
Proof.
  intros [Hr Hl]. unfold retrigger_timer_data_loaded_fast, live, S5_DeferredDataLoaded in *.
  destruct (_ <=? _); cbn; split; [done|lia|done|lia].
Qed.
Lemma live_on_fig1 L f st : live L st -> live L (on_fig1 f st).
Proof. done. Qed.
Lemma live_slow L st : live L st -> live L (retrigger_timer_data_loaded_slow st).
Proof. apply live_retrigger. Qed.

Create HintDb live.
#[export] Hint Resolve grown_live grown_restart live_on_curr live_on_config live_emit live_retrigger
  live_slow live_on_fig1 : live.

Definition handler_grows (fn : TFnFibProc) : Prop :=
  forall L d used fh st, live L st -> grown L (fst (fn d used fh st)).

Lemma looped_handlers_grow now :
  handler_grows (subprocess_Fig0s1 now) /\ handler_grows (subprocess_Fig0s3 now) /\
  handler_grows (subprocess_Fig0s5 now) /\ handler_grows (subprocess_Fig0s8 now) /\
  handler_grows (subprocess_Fig0s13 now) /\ handler_grows (subprocess_Fig0s14 now).
Proof.
  split_and!; intros L d used fh st Hl.
  - unfold subprocess_Fig0s1. cbv zeta. repeat case_match; cbn [fst]; auto with live.
  - unfold subprocess_Fig0s3. cbv zeta. repeat case_match; cbn [fst]; auto with live.
  - unfold subprocess_Fig0s5. cbv zeta. repeat case_match; cbn [fst]; auto with live.
  - unfold subprocess_Fig0s8. cbv zeta. repeat case_match; cbn [fst]; auto with live.
  - unfold subprocess_Fig0s13. cbv zeta. repeat case_match; cbn [fst]; auto with live.
  - unfold subprocess_Fig0s14. cbv zeta. repeat case_match; cbn [fst]; auto with live.
Qed.

Lemma subprocess_Fig0s2_grows now : handler_grows (subprocess_Fig0s2 now).
Proof.
  intros L d used fh st Hl. unfold subprocess_Fig0s2. cbv zeta.
  match goal with |- context [zfor 0 ?n ?b ?s] => assert (live L (fst (fst (zfor 0 n b s)))) as H end.
  { apply (fold_left_inv (fun r => live L (fst (fst r)))); [done|].
    intros [[st1 scd] off] i _ H1. cbn [fst] in *. case_match; cbn [fst]; auto with live. }
  destruct (zfor _ _ _ _) as [[st' scd] off]. cbn [fst] in *. auto with live.
Qed.

(** Partial correctness of the fuel loop. *)
Lemma while_inv {S} (P : S -> Prop) cond body fuel (s s' : S) :
  P s -> (forall s, P s -> cond s = true -> P (body s)) -> while fuel cond body s = Some s' -> P s'.
Proof.
  intros Hp Hstep. revert s Hp. induction fuel as [|fuel IH]; intros s Hp; cbn [while]; [done|].
  destruct (cond s) eqn:Ec; [|intros [= <-]; done]. apply IH. by apply Hstep.
Qed.

Lemma process_fig0_loop_grows L d fn st st' :
  handler_grows fn -> live L st -> process_fig0_loop d fn st = Some st' -> grown L st'.
Proof.
  intros Hfn Hl. unfold process_fig0_loop. destruct (while _ _ _ _) as [s|] eqn:E; [|done]. cbn. intros [= <-].
  apply (while_inv (fun s => grown L (fst (fst s)) /\ snd s = mRestartFibDecoding (fst (fst s)))) in E as [E _];
    [done|split; [by left|by destruct Hl]|].
  intros [[st1 used] quit] [H1 Hq] Hc. cbn [fst snd] in *.
  apply andb_true_iff in Hc as [Hc _]. apply negb_true_iff in Hc. subst quit.
  destruct H1 as [H1|[Hr _]]; [|congruence].
  pose proof (Hfn L d used (get_fig_header d) st1 H1) as H2.
  by destruct (fn d used (get_fig_header d) st1).
Qed.

Lemma set_cluster_live L cn cid SId asu st : live L st -> live L (set_cluster cn cid SId asu st).
Proof. intros. unfold set_cluster. case_match; auto with live. Qed.

Lemma live_emits {A} L (g : A -> Signal) l st : live L st -> live L (fold_left (fun st x => emit (g x) st) l st).
Proof. intros Hst. by apply fold_left_inv. Qed.

Lemma announce_live L cn cid asw sub st : live L st -> live L (announce cn cid asw sub st).
Proof.
  intros Hl. unfold announce. destruct (get_cluster _ _) as [t i]. case_match; [|auto with live].
  repeat case_match; try apply (live_emits L (fun SId => _)); auto with live.
Qed.

Lemma simple_figs_live L now d st :
  live L st -> live L (process_Fig0s0 d st) /\ live L (process_Fig0s7 now d st) /\
    live L (process_Fig0s9 now d st) /\ live L (process_Fig0s10 d st) /\ live L (process_Fig0s15 d st).
Proof.
  intros Hl. unfold process_Fig0s0, process_Fig0s7, process_Fig0s9, process_Fig0s10, process_Fig0s15. cbv zeta.
  split_and!; repeat case_match; auto with live; apply Hl.
Qed.

Lemma while_fmap_inv {S A} (P : S -> Prop) (f : S -> A) cond body fuel (s : S) r :
  P s -> (forall s, P s -> cond s = true -> P (body s)) -> f <$> while fuel cond body s = Some r ->
  exists s', r = f s' /\ P s'.
Proof.
  intros Hp Hs. destruct (while fuel cond body s) as [s'|] eqn:E; [|done]. cbn. intros [= <-].
  exists s'. split; [done|]. by apply (while_inv P cond body fuel s).
Qed.

Lemma process_Fig0s17_live L now d st st' : live L st -> process_Fig0s17 now d st = Some st' -> live L st'.
Proof.
  intros Hl. unfold process_Fig0s17. cbv zeta. intros H. apply (while_fmap_inv (fun s => live L (fst s))) in H as (s & -> & H); [exact H|exact Hl|].
  intros [st1 off] H1 _. cbn [fst] in *. case_match; auto with live.
Qed.

Lemma process_Fig0s18_live L d st st' : live L st -> process_Fig0s18 d st = Some st' -> live L st'.
Proof.
  intros Hl. unfold process_Fig0s18. cbv zeta. intros H. apply (while_fmap_inv (fun s => live L (fst s))) in H as (s & -> & H); [exact H|exact Hl|].
  intros [st1 off] H1 _. cbn [fst] in *. apply (fold_left_inv (live L)); [done|]. intros. case_match; [done|].
  by apply set_cluster_live.
Qed.

Lemma process_Fig0s19_live L d st st' : live L st -> process_Fig0s19 d st = Some st' -> live L st'.
Proof.
  intros Hl. unfold process_Fig0s19. cbv zeta. intros H. apply (while_fmap_inv (fun s => live L (fst (fst s)))) in H as (s & -> & H); [exact H|exact Hl|].
  intros [[st1 off] q] H1 _. cbn [fst] in *. case_match; [done|]. by apply announce_live.
Qed.

Lemma process_Fig0_grows L now d st st' :
  0 <= L -> live L st -> process_Fig0 now d st = Some st' -> grown L st'.
Proof.
  intros HL Hl. unfold process_Fig0.
  assert (forall st1, process_Fig0_ext now d (getBits_5 d (8 + 3)) st = Some st1 -> grown L st1) as Hext.
  { intros st1. unfold process_Fig0_ext. destruct (looped_handlers_grow now) as (? & ? & ? & ? & ? & ?).
    destruct (simple_figs_live L now d st Hl) as (? & ? & ? & ? & ?).
    pose proof (subprocess_Fig0s2_grows now). 
    repeat match goal with |- (if ?b then _ else _) = _ -> _ => destruct b end;
    lazymatch goal with
    | |- process_fig0_loop _ _ _ = _ -> _ => apply process_fig0_loop_grows; assumption
    | |- process_Fig0s17 _ _ _ = _ -> _ => intros Hx; left; by apply (process_Fig0s17_live L) in Hx
    | |- process_Fig0s18 _ _ = _ -> _ => intros Hx; left; by apply (process_Fig0s18_live L) in Hx
    | |- process_Fig0s19 _ _ = _ -> _ => intros Hx; left; by apply (process_Fig0s19_live L) in Hx
    | |- _ => intros [= <-]; left; assumption
    end. }
  destruct (process_Fig0_ext now d _ st) as [st1|]; [|done]. cbn [mbind option_bind].
  specialize (Hext st1 eq_refl). destruct (mRestartFibDecoding st1) eqn:Er; cbn [negb andb]; [by intros [= <-]|].
  destruct Hext as [Hext|[? _]]; [|congruence].
  destruct (_ && _); intros [= <-]; [|by left]. left. unfold process_fast_audio_selection.
  repeat case_match; try done. destruct Hext as [? Hb]. split; [done|]. cbn.
  match goal with H : (_ <? _) = true |- _ => apply Z.ltb_lt in H; cbn in H end.
  unfold S1_FastAudioDataLoaded, S5_DeferredDataLoaded in *. lia.
Qed.

Lemma process_Fig1_live L qt now d st : live L st -> live L (process_Fig1 qt now d st).
Proof.
  intros Hl. unfold process_Fig1, process_Fig1s0, process_Fig1s1, process_Fig1s4, process_Fig1s5. cbv zeta.
  repeat case_match; auto with live.
Qed.

Lemma process_figs_grows L fuel qt now bits pos st st' :
  0 <= L -> live L st -> process_figs fuel qt now bits pos st = Some st' -> grown L st'.
Proof.
  intros HL. revert pos st. induction fuel as [|fuel IH]; intros pos st Hl; cbn [process_figs]; [done|].
  destruct (pos <? 30); [|intros [= <-]; by left].
  unfold process_fig. set (d := drop _ bits). destruct (_ && _); [intros [= <-]; by left|].
  assert (forall st1, (if getBits_3 d 0 =? 0 then process_Fig0 now d st
    else if getBits_3 d 0 =? 1 then Some (process_Fig1 qt now d st) else Some st) = Some st1 -> grown L st1) as H1.
  { intros st1. destruct (_ =? 0); [by apply process_Fig0_grows|].
    destruct (_ =? 1); intros [= <-]; left; [by apply process_Fig1_live|done]. }
  destruct (if getBits_3 d 0 =? 0 then _ else _) as [st1|]; [|done]. cbn [mbind option_bind].
  specialize (H1 st1 eq_refl). destruct (mRestartFibDecoding st1) eqn:Er; cbn [mbind option_bind]; [by intros [= <-]|].
  destruct H1 as [H1|[? _]]; [|congruence]. by apply IH.
Qed.

Lemma timers_loading st :
  0 <= mFibLoadingState st <= 5 ->
  mFibLoadingState st <= mFibLoadingState (slot_timer_data_consistency_check st) <= 5 /\
  mFibLoadingState st <= mFibLoadingState (slot_timer_check_state st) <= 5.
Proof.
  intros Hl. unfold slot_timer_data_consistency_check, slot_timer_check_state, S2_PrimaryBaseDataLoaded,
    S3_FullyAudioDataLoaded, S4_FullyPacketDataLoaded.
  destruct (Z.leb_spec (mFibLoadingState st) 2), (Z.ltb_spec (mFibLoadingState st) 3); cbv zeta;
    repeat case_match; cbn in *; try lia.
Qed.

Lemma process_FIB_grows qt now bits st st' :
  0 <= mFibLoadingState st <= 5 -> process_FIB qt now bits st = Some st' -> grown (mFibLoadingState st) st'.
Proof.
  intros Hl. unfold process_FIB. apply process_figs_grows; [lia|].
  unfold live, S5_DeferredDataLoaded. destruct (mFirstFigTimePoint st =? 0); cbn; (split; [done|lia]).
Qed.

Lemma reachable_loading qt st : reachable qt st -> 0 <= mFibLoadingState st <= 5.
Proof.
  induction 1 as [|st st' _ IH H]; [done|]. destruct H; try done.
  - match goal with H : process_FIB _ _ _ _ = Some _ |- _ => apply process_FIB_grows in H; [|done] end.
    unfold S5_DeferredDataLoaded, S0_Init in *.
    match goal with H : grown _ _ |- _ => destruct H as [[_ H]|(_ & H & _)] end; unfold S5_DeferredDataLoaded, S0_Init in *; lia.
  - unfold set_SId_for_fast_audio_selection. by destruct (_ <=? _).
  - pose proof (timers_loading st IH). lia.
  - pose proof (timers_loading st IH). lia.
Qed.

(** ** Current and next configuration *)

(** The configuration a FIG with this C/N flag does not describe. *)
Definition other (cn : Z) (st : FibDecoder) : FibConfigFig0 :=
  if cn =? 0 then mpFibConfigFig0Next st else mpFibConfigFig0Curr st.

Lemma other_on_config cn f st : other cn (on_config cn f st) = other cn st.
Proof. unfold other, on_config. by destruct (cn =? 0). Qed.
Lemma other_retrigger cn st : other cn (retrigger_timer_data_loaded_fast st) = other cn st.
Proof. unfold retrigger_timer_data_loaded_fast. by destruct (_ <=? _). Qed.
Lemma other_slow cn st : other cn (retrigger_timer_data_loaded_slow st) = other cn st.
Proof. apply other_retrigger. Qed.

Definition handler_keeps_other (fn : TFnFibProc) : Prop :=
  forall d used fh st, mRestartFibDecoding (fst (fn d used fh st)) = false ->
    other (CN_Flag fh) (fst (fn d used fh st)) = other (CN_Flag fh) st.

Ltac keeps := repeat case_match; cbn [fst]; intros; rewrite ?other_retrigger, ?other_slow, ?other_on_config; done.

Lemma handlers_keep_other now :
  handler_keeps_other (subprocess_Fig0s1 now) /\ handler_keeps_other (subprocess_Fig0s2 now) /\
  handler_keeps_other (subprocess_Fig0s3 now) /\ handler_keeps_other (subprocess_Fig0s8 now) /\
  handler_keeps_other (subprocess_Fig0s14 now).
Proof.
  split_and!; intros d used fh st.
  - unfold subprocess_Fig0s1. cbv zeta. keeps.
  - unfold subprocess_Fig0s2. cbv zeta. intros _.
    match goal with |- context [zfor 0 ?n ?b ?s] =>
      assert (other (CN_Flag fh) (fst (fst (zfor 0 n b s))) = other (CN_Flag fh) st) as H end.
    { apply (fold_left_inv (fun r => other (CN_Flag fh) (fst (fst r)) = other (CN_Flag fh) st)); [done|].
      intros [[st1 scd] off] i _ <-. keeps. }
    destruct (zfor _ _ _ _) as [[st' scd] off]. exact H.
  - unfold subprocess_Fig0s3. cbv zeta. keeps.
  - unfold subprocess_Fig0s8. cbv zeta. keeps.
  - unfold subprocess_Fig0s14. cbv zeta. keeps.
Qed.

Lemma loop_keeps_other d fn st st' :
  handler_keeps_other fn -> mRestartFibDecoding st = false ->
  process_fig0_loop d fn st = Some st' -> mRestartFibDecoding st' = false ->
  other (CN_Flag (get_fig_header d)) st' = other (CN_Flag (get_fig_header d)) st.
Proof.
  intros Hfn H0. unfold process_fig0_loop. cbv zeta. intros H.
  apply (while_fmap_inv (fun '(st1, _, quit) => quit = mRestartFibDecoding st1 /\
    (mRestartFibDecoding st1 = false -> other (CN_Flag (get_fig_header d)) st1 = other (CN_Flag (get_fig_header d)) st)))
    in H as ([[s used] quit] & -> & _ & H); [exact H|done|].
  intros [[st1 used1] quit1] [Hq H1] Hc. apply andb_true_iff in Hc as [Hc _]. apply negb_true_iff in Hc. subst quit1.
  pose proof (Hfn d used1 (get_fig_header d) st1) as H2. destruct (fn d used1 (get_fig_header d) st1) as [st2 used2].
  cbn [fst] in H2. split; [done|]. intros Hr. rewrite H2 by done. by apply H1.
Qed.

(** ** Encoding of sub-channel definitions *)
(** A sub-channel definition as the multiplexer sends it (EN 300 401, 6.2.1). *)
Inductive subch :=
  | ShortForm (id start idx : Z)
  | LongForm (id start opt lvl size : Z).
Definition subch_id (e : subch) : Z := match e with ShortForm i _ _ => i | LongForm i _ _ _ _ => i end.
Definition enc_subch (e : subch) : list Z :=
  match e with
  | ShortForm id start idx => msb 6 id ++ msb 10 start ++ msb 1 0 ++ msb 1 0 ++ msb 6 idx
  | LongForm id start opt lvl size => msb 6 id ++ msb 10 start ++ msb 1 1 ++ msb 3 opt ++ msb 2 lvl ++ msb 10 size
  end.
(** What it means: capacity units, protection and bit rate. *)
Definition entry_of (e : subch) : SFig0s1_BasicSubChannelOrganization :=
  match e with
  | ShortForm id start idx =>
      let t := nth (Z.to_nat idx) cProtLevelTable (mkProtLevel 0 0 0) in
      mk_s1 id start 0 idx (-1) (ProtLevel t) (CUSize t) (tBitRate t) true
  | LongForm id start opt lvl size =>
      if opt =? 0 then mk_s1 id start (-1) (-1) opt lvl size (8 * (size / rd [12; 8; 6; 4] lvl)) false
      else if opt =? 1 then mk_s1 id start (-1) (-1) opt (lvl + 4) size (32 * (size / rd [27; 21; 18; 15] lvl)) false
      else mk_s1 id start (-1) (-1) opt lvl size (-1) false
  end.
Definition subch_valid (e : subch) : Prop :=
  match e with
  | ShortForm id start idx => 0 <= id < 64 /\ 0 <= start < 1024 /\ 0 <= idx < 64
  | LongForm id start opt lvl size =>
      0 <= id < 64 /\ 0 <= start < 1024 /\ 0 <= opt < 8 /\ 0 <= lvl < 4 /\ 0 <= size < 1024
  end.

(** The definitions can be added one after the other: each inside the CIF, with
    a new identifier and no overlap with what is known. *)
Fixpoint admissible (known : list SFig0s1_BasicSubChannelOrganization) (es : list subch) : Prop :=
  match es with
  | [] => True
  | e :: es =>
      subch_valid e /\ s1_StartAddr (entry_of e) + s1_SubChannelSize (entry_of e) <= 864 /\
      Forall (fun x => is_s1 (subch_id e) x = false /\ collides (entry_of e) x = false) known /\
      admissible (known ++ [entry_of e]) es
  end.

(** The FIG 0/1 that carries them. *)
Definition fig0s1_bits (cn : Z) (es : list subch) : list Z :=
  msb 3 0 ++ msb 5 (1 + zlen (flat_map enc_subch es) / 8) ++ msb 1 cn ++ msb 2 0 ++ msb 5 1 ++ flat_map enc_subch es.

Lemma zlen_enc_subch e : zlen (enc_subch e) = 24 \/ zlen (enc_subch e) = 32.
Proof. destruct e; cbn [enc_subch]; rewrite !zlen_app, !zlen_msb by lia; auto. Qed.

Lemma enc_bits e : Forall is_bit (enc_subch e).
Proof. destruct e; cbn [enc_subch]; rewrite ?Forall_app; split_and!; apply msb_bit. Qed.

(** Splits what is known of the position of an encoded structure. *)
Ltac split_stands H :=
  rewrite ?stands_app, ?zlen_msb in H by lia; rewrite <- ?Z.add_assoc in H; cbn [Z.add Pos.add Pos.succ Pos.add_carry] in H.

Lemma s1_short_enc d off id start idx :
  Forall is_bit d -> subch_valid (ShortForm id start idx) -> stands d off (enc_subch (ShortForm id start idx)) ->
  s1_short d off id start = entry_of (ShortForm id start idx).
Proof.
  intros Hd (Hid & Hst & Hix) Hs. cbn [enc_subch] in Hs. split_stands Hs. destruct Hs as (H1 & H2 & H3 & H4 & H5).
  unfold s1_short. rewrite getBits_6_field, getBits_1_field by done.
  rewrite (field_stands d (off + 18) 6 idx), (field_stands d (off + 17) 1 0) by (done || lia). done.
Qed.

Lemma s1_long_enc d off id start opt lvl size :
  Forall is_bit d -> subch_valid (LongForm id start opt lvl size) ->
  stands d off (enc_subch (LongForm id start opt lvl size)) ->
  s1_long d off id start = entry_of (LongForm id start opt lvl size).
Proof.
  intros Hd (Hid & Hst & Ho & Hl & Hz) Hs. cbn [enc_subch] in Hs. split_stands Hs.
  destruct Hs as (H1 & H2 & H3 & H4 & H5 & H6).
  unfold s1_long. rewrite getBits_3_field, getBits_2_field, getBits_field by (done || lia).
  rewrite (field_stands d (off + 17) 3 opt), (field_stands d (off + 20) 2 lvl), (field_stands d (off + 22) 10 size)
    by (done || lia).
  assert (0 < rd [12; 8; 6; 4] lvl /\ 0 < rd [27; 21; 18; 15] lvl) as [Ha Hb]
    by (assert (lvl = 0 \/ lvl = 1 \/ lvl = 2 \/ lvl = 3) as [-> | [-> | [-> | ->]]] by lia; by vm_compute).
  cbn [entry_of]. rewrite !Z.quot_div_nonneg by lia. change (Z.shiftl 1 2) with 4.
  destruct (opt =? 0); [by rewrite Z.mul_comm|]. destruct (opt =? 1); [by rewrite Z.mul_comm|done].
Qed.

(** One encoded definition is decoded to its meaning. *)
Lemma fig0s1_step now d used fh st e :
  Forall is_bit d -> 0 <= used -> stands d (used * 8) (enc_subch e) ->
  admissible (items (Fig0s1_BasicSubChannelOrganizationVec (get_config st (CN_Flag fh)))) [e] ->
  subprocess_Fig0s1 now d used fh st =
    (retrigger_timer_data_loaded_fast (on_config (CN_Flag fh) (on_s1 (vpush now (entry_of e))) st),
     used + zlen (enc_subch e) / 8).
Proof.
  intros Hd Hu Hs (Hv & Hfit & Hnew & _). unfold subprocess_Fig0s1. cbv zeta.
  rewrite getBits_6_field, getBits_field, getBits_1_field by (done || lia).
  assert (field d (used * 8) 6 = subch_id e) as ->.
  { destruct e; cbn [enc_subch subch_id] in *; split_stands Hs; destruct Hs as [Hs _]; destruct Hv; by apply field_stands. }
  assert (get_Fig0s1_BasicSubChannelOrganization_of_SubChId (get_config st (CN_Flag fh)) (subch_id e) = None) as ->.
  { apply vfind_None. eapply Forall_impl; [|exact Hnew]. cbn. tauto. }
  assert (find_colliding_Fig0s1 (Fig0s1_BasicSubChannelOrganizationVec (get_config st (CN_Flag fh))) (entry_of e) = None) as Hc.
  { apply vfind_None. eapply Forall_impl; [|exact Hnew]. cbn. tauto. }
  assert ((if field d (used * 8 + 16) 1 =? 0
    then (s1_short d (used * 8) (subch_id e) (field d (used * 8 + 6) 10), used * 8 + 24)
    else (s1_long d (used * 8) (subch_id e) (field d (used * 8 + 6) 10), used * 8 + 32))
    = (entry_of e, used * 8 + zlen (enc_subch e))) as ->.
  { destruct e as [id start idx|id start opt lvl size]; pose proof Hv as (Hid & Hst & _).
    - pose proof Hs as Hs'. cbn [enc_subch] in Hs'. split_stands Hs'. destruct Hs' as (H1 & H2 & H3 & _).
      rewrite (field_stands d (used * 8 + 16) 1 0), (field_stands d (used * 8 + 6) 10 start) by (done || lia).
      cbn [Z.eqb subch_id]. by rewrite (s1_short_enc d _ id start idx).
    - pose proof Hs as Hs'. cbn [enc_subch] in Hs'. split_stands Hs'. destruct Hs' as (H1 & H2 & H3 & _).
      rewrite (field_stands d (used * 8 + 16) 1 1), (field_stands d (used * 8 + 6) 10 start) by (done || lia).
      cbn [Z.eqb subch_id]. by rewrite (s1_long_enc d _ id start opt lvl size). }
  unfold cNumCuPerCif. destruct (Z.ltb_spec 864 (s1_StartAddr (entry_of e) + s1_SubChannelSize (entry_of e))); [lia|].
  rewrite Hc. f_equal. rewrite Z.quot_div_nonneg by (destruct (zlen_enc_subch e); lia).
  rewrite Z.add_comm, Z.div_add by lia. lia.
Qed.

Lemma get_config_retrigger st cn : get_config (retrigger_timer_data_loaded_fast st) cn = get_config st cn.
Proof. unfold retrigger_timer_data_loaded_fast. by destruct (_ <=? _). Qed.
Lemma get_config_on_config cn f st : get_config (on_config cn f st) cn = f (get_config st cn).
Proof. unfold get_config, on_config. by destruct (cn =? 0). Qed.
Lemma mRestart_push cn f st :
  mRestartFibDecoding (retrigger_timer_data_loaded_fast (on_config cn f st)) = mRestartFibDecoding st.
Proof. unfold retrigger_timer_data_loaded_fast, on_config. by destruct (cn =? 0), (_ <=? _). Qed.

Lemma fig0s1_loop now d fh es :
  Forall is_bit d -> forall fuel used st,
  0 <= used -> stands d (used * 8) (flat_map enc_subch es) -> used + zlen (flat_map enc_subch es) / 8 = Length fh + 1 ->
  admissible (items (Fig0s1_BasicSubChannelOrganizationVec (get_config st (CN_Flag fh)))) es ->
  mRestartFibDecoding st = false -> (length es < fuel)%nat ->
  exists st', while fuel (fun '(_, used, quit) => negb quit && (used <=? Length fh))
      (fun '(st, used, _) => let '(st, used) := subprocess_Fig0s1 now d used fh st in
         (st, used, mRestartFibDecoding st)) (st, used, false) = Some (st', Length fh + 1, false) /\
    items (Fig0s1_BasicSubChannelOrganizationVec (get_config st' (CN_Flag fh))) =
    items (Fig0s1_BasicSubChannelOrganizationVec (get_config st (CN_Flag fh))) ++ map entry_of es.
Proof.
  intros Hd. induction es as [|e es IH]; intros fuel used st Hu Hs Hend Ha Hr Hf;
    (destruct fuel as [|fuel]; [cbn in Hf; lia|]); cbn [while flat_map map negb andb] in *.
  - change (zlen [] / 8) with 0 in Hend. destruct (Z.leb_spec used (Length fh)); [lia|].
    exists st. rewrite app_nil_r. split; [do 3 f_equal; lia|done].
  - rewrite stands_app in Hs. destruct Hs as [Hs1 Hs2]. destruct Ha as (Hv & Hfit & Hnew & Ha).
    rewrite zlen_app in Hend. pose proof (zlen_nonneg (flat_map enc_subch es)).
    assert (zlen (enc_subch e) = 8 * (zlen (enc_subch e) / 8) /\ 3 <= zlen (enc_subch e) / 8) as [E8 E3]
      by (destruct (zlen_enc_subch e) as [-> | ->]; done).
    assert (used + zlen (enc_subch e) / 8 + zlen (flat_map enc_subch es) / 8 = Length fh + 1) as Hend'.
    { rewrite E8 in Hend. replace (8 * (zlen (enc_subch e) / 8) + zlen (flat_map enc_subch es))
        with (zlen (flat_map enc_subch es) + zlen (enc_subch e) / 8 * 8) in Hend by lia. rewrite Z.div_add in Hend by lia. lia. }
    assert (0 <= zlen (flat_map enc_subch es) / 8) by (apply Z.div_pos; lia).
    destruct (Z.leb_spec used (Length fh)); [|lia].
    rewrite (fig0s1_step now d used fh st e) by (done || (cbn [admissible]; done)).
    rewrite mRestart_push, Hr.
    destruct (IH fuel (used + zlen (enc_subch e) / 8)
      (retrigger_timer_data_loaded_fast (on_config (CN_Flag fh) (on_s1 (vpush now (entry_of e))) st)))
      as (st' & Hw & Hi).
    + lia.
    + replace ((used + zlen (enc_subch e) / 8) * 8) with (used * 8 + zlen (enc_subch e)) by lia. done.
    + done.
    + rewrite get_config_retrigger, get_config_on_config. cbn [on_s1 Fig0s1_BasicSubChannelOrganizationVec].
      by rewrite items_vpush.
    + by rewrite mRestart_push.
    + cbn [length] in Hf. lia.
    + exists st'. split; [done|]. rewrite Hi, get_config_retrigger, get_config_on_config.
      cbn [on_s1 Fig0s1_BasicSubChannelOrganizationVec]. rewrite items_vpush, <- app_assoc. done.
Qed.

Lemma fig0s1_header cn es rest :
  0 <= cn < 2 -> zlen (flat_map enc_subch es) <= 240 -> Forall is_bit rest ->
  let d := fig0s1_bits cn es ++ rest in
  Forall is_bit d /\ stands d 16 (flat_map enc_subch es) /\ CN_Flag (get_fig_header d) = cn /\
  Length (get_fig_header d) = 1 + zlen (flat_map enc_subch es) / 8 /\ getBits_5 d (8 + 3) = 1.
Proof.
  intros Hcn Hl Hrest d. pose proof (zlen_nonneg (flat_map enc_subch es)).
  assert (0 <= zlen (flat_map enc_subch es) / 8 <= 30) by (Z.to_euclidean_division_equations; lia).
  assert (Forall is_bit d) as Hd.
  { subst d. unfold fig0s1_bits. rewrite ?Forall_app; split_and!; try apply msb_bit; [|done].
    clear. induction es; cbn; [constructor|]. apply Forall_app. split; [apply enc_bits|done]. }
  pose proof (stands_prefix (fig0s1_bits cn es) rest) as Hs. fold d in Hs. unfold fig0s1_bits in Hs.
  split_stands Hs. destruct Hs as (H1 & H2 & H3 & H4 & H5 & H6). split_and!; [done|done|..]; cbn [CN_Flag Length get_fig_header].
  - rewrite getBits_1_field. by apply field_stands.
  - rewrite getBits_5_field by done. apply field_stands; [lia|cbn; lia|done].
  - rewrite getBits_5_field by done. by apply field_stands.
Qed.

(** ** Queries and the backend *)

(** A descriptor the MSC handler and the backend can work with: its capacity
    units lie in the CIF, the backend can be built, and depuncturing reads no
    more soft bits than the sub-channel has. *)
Definition serviceable (d : SDescriptorType) : Prop :=
  0 <= dCuStartAddr d /\ dCuStartAddr d + dCuSize d <= 864 /\ valid_desc d /\
  exists p, BackendDeconvolver_new d = Some p /\ addresses_ok p /\ zlen (viterbiBlockAddresses p) <= 64 * dCuSize d.

Lemma short_entry_serviceable SId sub start size lvl br :
  0 <= start -> 0 <= size -> start + size <= 864 -> In (mkProtLevel size lvl br) cProtLevelTable ->
  serviceable (mkDescriptor SId start size true lvl br sub).
Proof.
  intros Hs Hz Hfit Hin. destruct (uep_entry_build _ Hin) as (p & pp & _ & Hnew & Ha & _ & Hlen & Hpad).
  cbn [CUSize ProtLevel tBitRate] in *. unfold serviceable, valid_desc, BackendDeconvolver_new. cbn.
  split_and!; try lia; [by exists size|]. exists p. split_and!; [done..|]. rewrite Hlen.
  destruct (_ && _); [apply Z.eqb_eq in Hpad; lia|]. unfold existsb in Hpad.
  repeat (apply orb_true_iff in Hpad as [Hpad|Hpad]; [apply Z.eqb_eq in Hpad; lia|]). done.
Qed.

Lemma long_entry_serviceable SId sub start size lvl br :
  0 <= start -> 0 <= size -> start + size <= 864 -> 8 <= br ->
  (0 <= lvl < 4 /\ br = size / rd [12; 8; 6; 4] lvl * 8 \/
   4 <= lvl < 8 /\ br = size / rd [27; 21; 18; 15] (lvl - 4) * 32) ->
  serviceable (mkDescriptor SId start size false lvl br sub).
Proof.
  intros Hs Hz Hfit H8 Hl.
  assert (eep_valid br lvl /\ eep_cu br lvl <= size) as [Hv Hcu].
  { unfold eep_valid, eep_cu. destruct Hl as [[Hl ->]|[Hl ->]].
    - rewrite Z.mod_mul, Z.div_mul by lia. destruct (Z.ltb_spec lvl 4); [|lia]. split; [lia|].
      assert (lvl = 0 \/ lvl = 1 \/ lvl = 2 \/ lvl = 3) as [-> | [-> | [-> | ->]]] by lia; 
        apply Z.mul_div_le; by vm_compute.
    - rewrite Z.mod_mul, Z.div_mul by lia. destruct (Z.ltb_spec lvl 4); [lia|]. split; [lia|].
      assert (lvl = 4 \/ lvl = 5 \/ lvl = 6 \/ lvl = 7) as [-> | [-> | [-> | ->]]] by lia; 
        apply Z.mul_div_le; by vm_compute. }
  destruct (eep_entry_build br lvl Hv) as (p & Hnew & Ha & _ & Hlen).
  unfold serviceable, valid_desc, BackendDeconvolver_new. cbn [dCuStartAddr dCuSize dShortForm dProtLevel dBitRate].
  split_and!; try lia; [done|]. exists p. split_and!; [done..|lia].
Qed.

Lemma entry_serviceable e SId sub :
  entry_ok e -> 8 <= s1_BitRate e ->
  serviceable (mkDescriptor SId (s1_StartAddr e) (s1_SubChannelSize e) (s1_ShortForm e) (s1_ProtectionLevel e)
    (s1_BitRate e) sub).
Proof.
  intros (_ & Hs & Hz & Hfit & H) H8. destruct (s1_ShortForm e).
  - by apply short_entry_serviceable.
  - destruct H as (H0 & Ho0 & Ho1 & Hor). apply long_entry_serviceable; try done.
    destruct (Z.eq_dec (s1_Option e) 0) as [E|]; [left; by apply Ho0|].
    destruct (Z.eq_dec (s1_Option e) 1) as [E|]; [right; by apply Ho1|]. specialize (Hor ltac:(lia)). lia.
Qed.

Lemma lookup_entry_ok c sub e :
  cfg_ok c -> get_Fig0s1_BasicSubChannelOrganization_of_SubChId c sub = Some e -> entry_ok e /\ s1_SubChId e = sub.
Proof.
  intros Hc H. apply vfind_Some in H as [Hin Hk]. split; [|by apply Z.eqb_eq].
  pose proof (ok_s1 _ Hc) as Hall. rewrite Forall_forall in Hall. by apply Hall.
Qed.

Lemma audio_desc st f2 nl ad :
  get_data_for_audio_service_of st f2 nl = Some ad -> exists e,
    get_Fig0s1_BasicSubChannelOrganization_of_SubChId (mpFibConfigFig0Curr st)
      (tm_SubChId (scd_Data (s2_ServiceComp_C f2))) = Some e /\
    ad_desc ad = mkDescriptor (u16 (s2_get_SId f2)) (s1_StartAddr e) (s1_SubChannelSize e) (s1_ShortForm e)
      (s1_ProtectionLevel e) (s1_BitRate e) (tm_SubChId (scd_Data (s2_ServiceComp_C f2))).
Proof.
  unfold get_data_for_audio_service_of. destruct (negb _); [done|].
  destruct (get_Fig0s1_BasicSubChannelOrganization_of_SubChId _ _) as [e|]; [|done]. cbn [mbind option_bind].
  destruct (_ && _); [done|]. intros [= <-]. by exists e.
Qed.

Lemma packet_desc st f2 i pd :
  get_data_for_packet_service_of st f2 i = Some pd -> exists e f3,
    get_Fig0s1_BasicSubChannelOrganization_of_SubChId (mpFibConfigFig0Curr st) (s3_SubChId f3) = Some e /\
    pd_desc pd = mkDescriptor (s2_get_SId f2) (s1_StartAddr e) (s1_SubChannelSize e) (s1_ShortForm e)
      (s1_ProtectionLevel e) (s1_BitRate e) (s3_SubChId f3).
Proof.
  unfold get_data_for_packet_service_of. destruct (_ <=? _); [done|].
  destruct (get_Fig0s3_ServiceComponentPacketMode_of_SCId _ _) as [f3|]; [|done]. cbn [mbind option_bind].
  destruct (get_Fig0s1_BasicSubChannelOrganization_of_SubChId _ _) as [e|] eqn:Ee; [|done]. cbn [mbind option_bind].
  destruct (get_Fig0s8_ServiceCompGlobalDef_of_SId_with_SCId _ _) as [f8|]; [|done]. cbn [mbind option_bind].
  destruct (get_Fig0s13_UserApplicationInformation_of_SId_SCIdS _ _ _) as [f13|]; [|done]. cbn [mbind option_bind].
  destruct (_ <? 1); [done|]. destruct (if scd_PS_Flag _ =? 0 then _ else _) as [df|]; [|done].
  cbn [mbind option_bind]. intros [= <-]. by exists e, f3.
Qed.

(** ** Emergency warning locations *)

(** A location code: six-bit zone, and every area code has one to six
    hexadecimal digits. *)
Definition loc_ok (l : ews_location) : Prop :=
  0 <= loc_nff l < 4 /\ 0 <= loc_zone l < 64 /\
  Forall (fun '(digits, n) => 1 <= n <= 6 /\ 0 <= digits < 16 ^ n) (loc_codes l).

Lemma push_digit n digits x :
  0 <= n <= 5 -> 0 <= digits < 16 ^ n -> 0 <= x < 16 ->
  0 <= Z.lor (u32 (Z.shiftl digits 4)) x < 16 ^ (n + 1).
Proof.
  intros Hn Hd Hx. rewrite Z.shiftl_mul_pow2 by lia. change (2 ^ 4) with 16.
  assert (16 ^ n <= 16 ^ 5) by (apply Z.pow_le_mono_r; lia).
  rewrite uwrap_small by (cbn in *; lia). change 16 with (2 ^ 4) at 1 2. rewrite lor_add_disjoint by (cbn; lia).
  rewrite Z.pow_add_r by lia. cbn [Z.pow Z.pow_pos Pos.iter]. lia.
Qed.

Lemma ews_location_code_ok d off endOff l off' :
  Forall is_bit d -> get_ews_location_code d off endOff = Some (l, off') ->
  loc_ok l /\ off + 16 <= off' <= endOff.
Proof.
  intros Hd. unfold get_ews_location_code. destruct (Z.ltb_spec endOff (off + 16)); [done|]. cbv zeta.
  pose proof (getBits_2_range d off Hd) as Hn. pose proof (getBits_6_range d (off + 2) Hd) as Hz.
  pose proof (getBits_3_range d (off + 9) Hd) as Hnd. pose proof (getBits_4_range d (off + 12) Hd) as Hd0.
  set (nd := getBits_3 d (off + 9)) in *. set (scf := getBits_1 d (off + 8)).
  destruct (Z.ltb_spec (if scf =? 1 then 4 else 5) nd) as [|Hmax]; [done|].
  destruct (Z.ltb_spec endOff (off + 16 + 4 * nd + (if Z.odd nd then 4 else 0) + (if scf =? 1 then 16 else 0)))
    as [|Hend]; [done|].
  match goal with |- context [zfor 0 nd ?b ?s] =>
    pose proof (zfor_inv (fun i '(x, o) => 0 <= x < 16 ^ (i + 1) /\ o = off + 16 + 4 * i) 0 nd b s ltac:(lia)) as Hf;
    destruct (zfor 0 nd b s) as [x o] end.
  assert (0 <= x < 16 ^ (nd + 1) /\ o = off + 16 + 4 * nd) as [Hx ->].
  { apply Hf; [cbn; lia|]. intros i [x1 o1] Hi [H1 ->]. split; [|lia].
    apply push_digit; [destruct (scf =? 1); lia|done|by apply getBits_4_range]. }
  clear Hf. destruct (scf =? 1); intros H'; apply (inj Some) in H'; apply pair_equal_spec in H' as [<- <-];
    (split; [|destruct (Z.odd nd); lia]); (split; [exact Hn|split; [exact Hz|]]); cbn [loc_codes].
  - apply Forall_forall. intros [y n] Hy. apply in_flat_map in Hy as (i & Hi%in_seqZ & Hy).
    destruct (Z.testbit _ i); [|done]. destruct Hy as [Hy|[]]. apply pair_equal_spec in Hy as [<- <-]. split; [lia|].
    replace (nd + 2) with (nd + 1 + 1) by lia. apply push_digit; lia.
  - constructor; [|constructor]. split; [lia|done].
Qed.

Lemma ews_locations_ok d off endOff :
  Forall is_bit d -> 0 <= off <= endOff -> endOff <= 256 ->
  exists locs off' bad, ews_locations d off endOff = Some (locs, off', bad) /\
    Forall loc_ok locs /\ off' <= endOff /\ (bad = false -> off' = endOff).
Proof.
  intros Hd Ho He. unfold ews_locations.
  match goal with |- context [while 40 ?c ?b ?s] =>
    destruct (while_total (fun '(locs, o, _) => Forall loc_ok locs /\ 0 <= o <= endOff)
      (fun '(_, o, bad) => if bad : bool then -1 else (endOff - o) / 16) c b 40 s)
      as ([[locs o] bad] & -> & [Hl Hr] & Hc) end.
  - by split.
  - change (Z.of_nat 40) with 40. Z.to_euclidean_division_equations; lia.
  - intros [[locs o] bad] [Hl Hr] Hc. apply andb_true_iff in Hc as [Hb Hc%Z.ltb_lt]. apply negb_true_iff in Hb. subst bad.
    destruct (get_ews_location_code d o endOff) as [[l o']|] eqn:E.
    + apply ews_location_code_ok in E as [Hok Hp]; [|done]. split_and!; [|lia|lia|apply Z.div_pos; lia|].
      * apply Forall_app. by split; [|constructor].
      * Z.to_euclidean_division_equations; lia.
    + split_and!; [done|lia|lia|apply Z.div_pos; lia|]. assert (0 <= (endOff - o) / 16) by (apply Z.div_pos; lia). lia.
  - exists locs, o, bad. split_and!; [done|done|lia|]. intros ->. cbn [negb andb] in Hc. apply Z.ltb_ge in Hc. lia.
Qed.

(** ** Properties *)

(** A FIB with the sub-channel definition [sub], the audio service 0x1234 on
    sub-channel 5, and the end marker. *)
Definition sample_fib (sub : subch) : list Z :=
  fig0s1_bits 0 [sub] ++
  msb 3 0 ++ msb 5 6 ++ msb 3 0 ++ msb 5 2 ++
  msb 16 0x1234 ++ msb 4 0 ++ msb 4 1 ++ msb 2 0 ++ msb 6 63 ++ msb 6 5 ++ msb 2 2 ++ msb 8 255.
Definition no_qt : QtText := mkQt (fun _ _ => []) (fun _ _ => []).
Definition selecting : FibDecoder := set_SId_for_fast_audio_selection 0x1234 FibDecoder_new.
Definition sample_state (sub : subch) : FibDecoder :=
  default FibDecoder_new (process_FIB no_qt 7 (sample_fib sub) selecting).

Lemma sample_reachable sub :
  Forall is_bit (sample_fib sub) ->
  process_FIB no_qt 7 (sample_fib sub) selecting = Some (sample_state sub) -> reachable no_qt (sample_state sub).
Proof.
  intros Hb E. eapply reachable_step; [|eapply step_process_FIB; [exact Hb|exact E]].
  eapply reachable_step; [apply reachable_new|apply step_fast_selection].
Qed.

Lemma forall_bits l : forallb is_bitb l = true -> Forall is_bit l.
Proof.
  intros H. apply Forall_forall. intros x Hx. rewrite forallb_forall in H. specialize (H x Hx).
  unfold is_bitb, is_bit in *. lia.
Qed.

(** C10: in every state the receiver can reach, by FIBs with any bits, channel
    changes, selections and timers in any order, a FIB with any bits is processed
    to its end: no loop over its FIGs or their contents runs for ever, and the
    result is a reachable state again. *)
Theorem process_FIB_total (qt : QtText) (now : Z) (bits : list Z) (st : FibDecoder) :
  reachable qt st -> Forall is_bit bits ->
  exists st', process_FIB qt now bits st = Some st' /\ reachable qt st'.
Proof.
  intros Hst Hb. destruct (process_FIB_ok qt now bits st Hb (reachable_ok _ _ Hst)) as (st' & E & _).
  exists st'. split; [done|]. eapply reachable_step; [done|]. by eapply step_process_FIB.
Qed.

Lemma process_FIB_total_witness :
  exists st', process_FIB no_qt 7 (sample_fib (LongForm 5 0 0 2 48)) FibDecoder_new = Some st' /\ reachable no_qt st'.
Proof.
  apply (process_FIB_total no_qt 7 (sample_fib (LongForm 5 0 0 2 48)) FibDecoder_new).
  - apply reachable_new.
  - apply forall_bits. vm_compute. reflexivity.
Defined.

(** C9: in every reachable state both configurations are consistent: each
    sub-channel lies inside the 864 capacity units of the CIF and its size, level
    and bit rate agree, no two sub-channels overlap, and sub-channels, services,
    components, FEC schemes and programme types have unique keys. *)
Theorem reachable_config_ok (qt : QtText) (st : FibDecoder) (cn : Z) :
  reachable qt st -> cfg_ok (get_config st cn).
Proof. intros H. apply get_config_ok. by eapply reachable_ok. Qed.

Lemma reachable_config_ok_witness : cfg_ok (get_config (sample_state (LongForm 5 0 0 2 48)) 0).
Proof.
  apply (reachable_config_ok no_qt). apply sample_reachable.
  - apply forall_bits. vm_compute. reflexivity.
  - vm_compute. reflexivity.
Defined.

(** A FIB either restarts the decoding, and then nothing collected so far
    survives, or it never lowers the loading state; the two timers never lower
    it either, and it stays within its six values. *)
Theorem loading_state_monotone (qt : QtText) (now : Z) (bits : list Z) (st st' : FibDecoder) :
  reachable qt st -> process_FIB qt now bits st = Some st' ->
  (mRestartFibDecoding st' = false /\ mFibLoadingState st <= mFibLoadingState st' <= S5_DeferredDataLoaded
   \/ restarted st') /\
  mFibLoadingState st <= mFibLoadingState (slot_timer_data_consistency_check st) <= S5_DeferredDataLoaded /\
  mFibLoadingState st <= mFibLoadingState (slot_timer_check_state st) <= S5_DeferredDataLoaded.
Proof.
  intros Hst Hp. pose proof (reachable_loading _ _ Hst) as Hl. split.
  - exact (process_FIB_grows qt now bits st st' Hl Hp).
  - by apply timers_loading.
Qed.

Lemma loading_state_monotone_witness :
  0 <= mFibLoadingState (sample_state (LongForm 5 0 0 2 48)) <= S5_DeferredDataLoaded \/
  restarted (sample_state (LongForm 5 0 0 2 48)).
Proof.
  destruct (loading_state_monotone no_qt 7 (sample_fib (LongForm 5 0 0 2 48)) selecting
    (sample_state (LongForm 5 0 0 2 48))) as [[[_ H]|H] _].
  - eapply reachable_step; [apply reachable_new|apply step_fast_selection].
  - vm_compute. reflexivity.
  - left. exact H.
  - right. exact H.
Defined.

(** FIGs 0/1, 0/2, 0/3, 0/7, 0/8 and 0/14 write the configuration their C/N
    flag names and leave the other one as it is, unless they restart the
    decoding. *)
Theorem other_config_untouched (now ext : Z) (d : list Z) (st st' : FibDecoder) :
  In ext [1; 2; 3; 7; 8; 14] -> mRestartFibDecoding st = false ->
  process_Fig0_ext now d ext st = Some st' -> mRestartFibDecoding st' = false ->
  other (CN_Flag (get_fig_header d)) st' = other (CN_Flag (get_fig_header d)) st.
Proof.
  intros Hext Hr. destruct (handlers_keep_other now) as (? & ? & ? & ? & ?).
  cbn [In] in Hext. destruct Hext as [<-|[<-|[<-|[<-|[<-|[<-|[]]]]]]]; cbn [process_Fig0_ext Z.eqb Pos.eqb];
    try (by apply loop_keeps_other).
  intros [= <-] _. unfold process_Fig0s7. cbv zeta.
  by case_match; rewrite ?other_retrigger, other_on_config.
Qed.

Definition next_sample : list Z := fig0s1_bits 1 [LongForm 5 0 0 2 48].
Definition next_sample_state : FibDecoder :=
  default FibDecoder_new (process_Fig0_ext 7 next_sample 1 FibDecoder_new).

Lemma other_config_untouched_witness :
  zlen (Fig0s1_BasicSubChannelOrganizationVec (mpFibConfigFig0Next next_sample_state)) = 1 /\
  other (CN_Flag (get_fig_header next_sample)) next_sample_state =
  other (CN_Flag (get_fig_header next_sample)) FibDecoder_new.
Proof.
  split; [vm_compute; reflexivity|].
  apply (other_config_untouched 7 1 next_sample FibDecoder_new next_sample_state).
  - left. reflexivity.
  - reflexivity.
  - vm_compute. reflexivity.
  - vm_compute. reflexivity.
Defined.

(** A FIG 0/0 installs the collected next configuration as the current one
    and empties the next one exactly when the change flags go from 3 to 0 between
    two FIGs 0/0, reporting the change once; otherwise both stay. *)
Theorem config_swap (d : list Z) (st : FibDecoder) :
  let st' := process_Fig0s0 d st in
  mPrevChangeFlag st' = getBits_2 d 32 /\ mCifCount st' = 250 * getBits_5 d 35 + getBits_8 d 40 /\
  (if decide (mPrevChangeFlag st = 3 /\ getBits_2 d 32 = 0) then
     mpFibConfigFig0Curr st' = mpFibConfigFig0Next st /\
     mpFibConfigFig0Next st' = reset_fig0 (mpFibConfigFig0Curr st) /\
     signals st' = signals st ++ [signal_change_in_configuration]
   else
     mpFibConfigFig0Curr st' = mpFibConfigFig0Curr st /\ mpFibConfigFig0Next st' = mpFibConfigFig0Next st /\
     signals st' = signals st).
Proof.
  unfold process_Fig0s0. cbv zeta. change (16 + 16) with 32. change (16 + 19) with 35. change (16 + 24) with 40.
  set (cf := getBits_2 d 32). destruct (Z.eqb_spec cf 0) as [Ec|Ec];
    cbn [mPrevChangeFlag set_mCifCount set_mCifCount_lo set_mCifCount_hi andb];
    [destruct (Z.eqb_spec (mPrevChangeFlag st) 3) as [Ep|Ep]|]; case_decide; try tauto; cbn; split_and!; (done || lia).
Qed.

(** C33: a FIG 0/1 that carries any list of admissible sub-channel definitions,
    in short or long form, adds exactly those sub-channels, in order and with the
    size, protection and bit rate they encode, to the configuration it names. *)
Theorem fig0s1_roundtrip (now cn : Z) (es : list subch) (rest : list Z) (st : FibDecoder) :
  0 <= cn < 2 -> zlen (flat_map enc_subch es) <= 240 -> Forall is_bit rest -> mRestartFibDecoding st = false ->
  admissible (items (Fig0s1_BasicSubChannelOrganizationVec (get_config st cn))) es ->
  exists st', process_Fig0_ext now (fig0s1_bits cn es ++ rest) 1 st = Some st' /\
    items (Fig0s1_BasicSubChannelOrganizationVec (get_config st' cn)) =
    items (Fig0s1_BasicSubChannelOrganizationVec (get_config st cn)) ++ map entry_of es.
Proof.
  intros Hcn Hl Hrest Hr Ha. destruct (fig0s1_header cn es rest Hcn Hl Hrest) as (Hd & Hs & Ecn & Elen & _).
  set (d := fig0s1_bits cn es ++ rest) in *. cbn [process_Fig0_ext Z.eqb Pos.eqb]. unfold process_fig0_loop. cbv zeta.
  destruct (fig0s1_loop now d (get_fig_header d) es Hd 32 2 st) as (st' & -> & Hi).
  - lia.
  - done.
  - rewrite Elen. lia.
  - by rewrite Ecn.
  - done.
  - assert (24 * Z.of_nat (length es) <= zlen (flat_map enc_subch es)) as H24; [|lia].
    clear. induction es as [|e es IH]; cbn [flat_map length]; [done|]. rewrite zlen_app. destruct (zlen_enc_subch e); lia.
  - exists st'. split; [done|]. by rewrite Ecn in Hi.
Qed.

Lemma fig0s1_roundtrip_witness :
  exists st', process_Fig0_ext 7 (fig0s1_bits 0 [LongForm 5 0 0 2 48; ShortForm 6 48 20] ++ []) 1 FibDecoder_new = Some st' /\
    items (Fig0s1_BasicSubChannelOrganizationVec (get_config st' 0)) =
    items (Fig0s1_BasicSubChannelOrganizationVec (get_config FibDecoder_new 0)) ++
      map entry_of [LongForm 5 0 0 2 48; ShortForm 6 48 20].
Proof.
  apply (fig0s1_roundtrip 7 0 [LongForm 5 0 0 2 48; ShortForm 6 48 20] [] FibDecoder_new).
  - lia.
  - vm_compute. discriminate.
  - constructor.
  - reflexivity.
  - cbn [admissible subch_valid app get_config].
    repeat match goal with
    | |- _ /\ _ => split
    | |- True => exact I
    | |- Forall _ _ => constructor
    | |- _ <= _ => vm_compute; discriminate
    | |- _ => reflexivity
    end.
Defined.

(** C17: whatever the audio query, or the packet query for any component,
    returns in a reachable state with a bit rate of at least 8 kbit/s can be
    served: the capacity units lie inside the CIF, the backend is constructed,
    and depuncturing stays within the sub-channel's soft bits. *)
Theorem queries_fit_backend (qt : QtText) (st : FibDecoder) (d : SDescriptorType) :
  reachable qt st -> 8 <= dBitRate d ->
  (exists iSId ad, get_data_for_audio_service st iSId = Some ad /\ d = ad_desc ad) \/
  (exists f2 i pd, get_data_for_packet_service_of st f2 i = Some pd /\ d = pd_desc pd) ->
  serviceable d.
Proof.
  intros Hst H8 Hq. destruct (reachable_ok _ _ Hst) as [Hc _].
  destruct Hq as [(SId & ad & H & ->)|(f2 & i & pd & H & ->)].
  - unfold get_data_for_audio_service in H. destruct (_ <? _); [done|].
    destruct (get_Fig0s2_BasicService_ServiceCompDef_of_SId_TMId _ _ _) as [f2|]; [|done]. cbn [mbind option_bind] in H.
    apply audio_desc in H as (e & He & Ed). rewrite Ed in *. apply lookup_entry_ok in He as [He _]; [|done].
    by apply entry_serviceable.
  - apply packet_desc in H as (e & f3 & He & Ed). rewrite Ed in *. apply lookup_entry_ok in He as [He _]; [|done].
    by apply entry_serviceable.
Qed.

Lemma queries_fit_backend_witness : serviceable (mkDescriptor 0x1234 0 48 false 2 64 5).
Proof.
  apply (queries_fit_backend no_qt (sample_state (LongForm 5 0 0 2 48))).
  - apply sample_reachable.
    + apply forall_bits. vm_compute. reflexivity.
    + vm_compute. reflexivity.
  - vm_compute. discriminate.
  - left. exists 0x1234. eexists. split; [vm_compute; reflexivity|reflexivity].
Defined.

(** A long-form definition with a reserved option is accepted, and the
    audio query then hands out a bit rate of -1, which the callers, testing for 0
    only, pass on to the backend: its constructor sizes vectors with -24. *)
Theorem reserved_option_reaches_query :
  reachable no_qt (sample_state (LongForm 5 0 2 2 48)) /\
  exists ad, get_data_for_audio_service (sample_state (LongForm 5 0 2 2 48)) 0x1234 = Some ad /\
    dBitRate (ad_desc ad) = -1 /\ dCuSize (ad_desc ad) = 48.
Proof.
  split.
  - apply sample_reachable; [by apply forall_bits|by vm_compute].
  - eexists. split; [vm_compute; reflexivity|done].
Qed.

(** For a FIG 0/15 with any bits the report is built after finitely many
    location codes, never reads past the length the header gives, every code has
    a six-bit zone and one to six digits, and a report that is not flagged
    invalid used the field to its end. *)
Theorem ews_report_total (d : list Z) :
  Forall is_bit d ->
  ews_report d = Some None \/
  exists locs off bad, ews_report d = Some (Some (locs, off, bad)) /\ Forall loc_ok locs /\
    (bad = false -> off <= (Length (get_fig_header d) + 1) * 8).
Proof.
  intros Hd. unfold ews_report. cbv zeta. destruct (fig_header_range d Hd) as [Hl _].
  set (len := Length (get_fig_header d)) in *. destruct (len =? 1); [by left|]. right.
  match goal with |- context [let '(_, _) := ?x in _] => set (r := x) end.
  assert (24 <= fst r <= 32) as Hr by (subst r; repeat case_match; cbn; lia).
  destruct r as [off has]. cbn [fst] in Hr. destruct has; cbn [andb orb].
  - destruct (Z.leb_spec (off + 8) ((len + 1) * 8)).
    + destruct (ews_locations_ok d (off + 8) ((len + 1) * 8) Hd) as (locs & o & bad & -> & H1 & H2 & H3); [lia..|].
      exists locs, o, bad. split_and!; [done|done|lia].
    + exists [], off, true. split_and!; [by rewrite orb_true_r|constructor|done].
  - exists [], off, ((len + 1) * 8 <? off). rewrite orb_false_r. split_and!; [done|constructor|]. by intros ?%Z.ltb_ge.
Qed.

Lemma ews_report_total_witness :
  let d := msb 3 0 ++ msb 5 7 ++ msb 3 0 ++ msb 5 15 ++ msb 2 1 ++ msb 6 9 ++ msb 8 0x81 ++
    msb 2 0 ++ msb 6 33 ++ msb 1 0 ++ msb 3 3 ++ msb 16 0xABCD ++ msb 4 0 in
  ews_report d = Some None \/
  exists locs off bad, ews_report d = Some (Some (locs, off, bad)) /\ Forall loc_ok locs /\
    (bad = false -> off <= (Length (get_fig_header d) + 1) * 8).
Proof. intros d. apply (ews_report_total d). apply forall_bits. vm_compute. reflexivity. Defined.

(** The value of the twelve symbols read as octal digits. *)
Lemma octal_symbols c k :
  0 <= c -> 0 <= k ->
  be_value 8 (map (fun i => 1 + Z.land (Z.shiftr c (3 * i)) 0x7 - 1) (rev (seqZ 0 k))) = c mod 8 ^ k.
Proof.
  intros Hc Hk. rewrite <- (Z2Nat.id k) by done. generalize (Z.to_nat k). clear k Hk. intros k.
  revert c Hc. induction k as [|k IH]; intros c Hc.
  - cbn. by rewrite Z.mod_1_r.
  - replace (Z.of_nat (S k)) with (1 + Z.of_nat k) by lia. rewrite seqZ_app by lia.
    change (seqZ 0 1) with [0]. rewrite rev_app_distr, map_app. cbn [rev app map].
    rewrite be_value_snoc. change (0 + 1) with 1.
    replace (seqZ 1 (Z.of_nat k)) with (map (Z.add 1) (seqZ 0 (Z.of_nat k)))
      by (exact (fmap_add_seqZ 1 0 (Z.of_nat k))).
    rewrite <- map_rev, map_map.
    rewrite (map_ext_in _ (fun i => 1 + Z.land (Z.shiftr (Z.shiftr c 3) (3 * i)) 0x7 - 1)).
    + rewrite IH by (by apply Z.shiftr_nonneg). rewrite Z.shiftr_div_pow2 by lia. change (2 ^ 3) with 8.
      change (3 * 0) with 0. rewrite Z.shiftr_0_r. change 7 with (Z.ones 3). rewrite Z.land_ones by lia. change (2 ^ 3) with 8.
      rewrite Z.pow_add_r, Z.pow_1_r, Z.rem_mul_r by lia. lia.
    + intros i Hi%in_rev%in_seqZ. rewrite Z.shiftr_shiftr by lia. do 4 f_equal. lia.
Qed.

(** The presentation code of a location is twelve symbols '1' to '8' from
    which zone, digits and the modulo-61 check are recovered, so two different
    locations never print alike. *)
Theorem ews_presentation_roundtrip (zone digits : Z) :
  0 <= zone < 64 -> 0 <= digits < 2 ^ 24 ->
  let code := ews_presentation_code zone digits in
  let v := be_value 8 (map (fun s => s - 1) code) in
  zlen code = 12 /\ Forall (fun s => 1 <= s <= 8) code /\
  v / 2 ^ 30 = zone /\ v / 64 mod 2 ^ 24 = digits /\ v mod 64 = (zone * 2 ^ 24 + digits) mod 61.
Proof.
  intros Hz Hd. unfold ews_presentation_code. cbv zeta.
  rewrite (Z.shiftl_mul_pow2 zone), lor_add_disjoint by lia. set (c30 := zone * 2 ^ 24 + digits).
  assert (0 <= c30 < 2 ^ 30) as H30 by (subst c30; cbn in *; lia).
  pose proof (Z.mod_pos_bound c30 61 ltac:(lia)) as H61.
  rewrite Z.shiftl_mul_pow2, lor_add_disjoint by (cbn; lia). set (c36 := c30 * 2 ^ 6 + c30 mod 61).
  assert (0 <= c36 < 2 ^ 36) as H36 by (subst c36; cbn in *; lia).
  rewrite map_map, octal_symbols by lia. rewrite Z.mod_small by (cbn in *; lia).
  split_and!.
  - done.
  - apply Forall_map, Forall_forall. intros i _. unfold compose. change 7 with (Z.ones 3). rewrite Z.land_ones by lia.
    pose proof (Z.mod_pos_bound (Z.shiftr c36 (3 * i)) (2 ^ 3) ltac:(lia)). change (2 ^ 3) with 8 in *. lia.
  - subst c36 c30. cbn in *. Z.to_euclidean_division_equations; lia.
  - assert (c36 / 64 = c30) as -> by (subst c36; cbn in *; Z.to_euclidean_division_equations; lia).
    subst c30. rewrite Z.add_comm, Z.mod_add by lia. by apply Z.mod_small.
  - subst c36. cbn in *. Z.to_euclidean_division_equations; lia.
Qed.

Lemma ews_presentation_roundtrip_witness :
  zlen (ews_presentation_code 33 0x5ABCDE) = 12 /\
  be_value 8 (map (fun s => s - 1) (ews_presentation_code 33 0x5ABCDE)) / 2 ^ 30 = 33.
Proof.
  destruct (ews_presentation_roundtrip 33 0x5ABCDE) as (H1 & _ & H2 & _).
  - lia.
  - lia.
  - split; [exact H1|exact H2].
Defined.

(** The language look-up by component truncates the 12-bit SCId to 8 bits,
    so for an SCId of 256 or more it never finds the entry the same FIG 0/5 made
    before: every repetition of the FIG appends the entry again. *)
Theorem language_scid_duplicated (now used : Z) (d : list Z) (fh : SFigHeader) (st : FibDecoder) :
  let scid := getBits d (used * 8 + 4) 12 in
  let lang := mk_s5 1 (getBits_8 d (used * 8 + 16)) (-1) scid in
  Forall is_bit d -> getBits_1 d (used * 8) = 1 -> 256 <= scid ->
  get_Fig0s5_ServiceComponentLanguage_of_SCId (mpFibConfigFig0Curr st) scid = None ->
  let st1 := fst (subprocess_Fig0s5 now d used fh st) in
  let st2 := fst (subprocess_Fig0s5 now d used fh st1) in
  items (Fig0s5_ServiceComponentLanguageVec (mpFibConfigFig0Curr st2)) =
  items (Fig0s5_ServiceComponentLanguageVec (mpFibConfigFig0Curr st)) ++ [lang; lang].
Proof.
  intros scid lang Hd Hls Hscid Hnone.
  assert (forall s, get_Fig0s5_ServiceComponentLanguage_of_SCId (mpFibConfigFig0Curr s) scid = None ->
    let s' := fst (subprocess_Fig0s5 now d used fh s) in
    Fig0s5_ServiceComponentLanguageVec (mpFibConfigFig0Curr s') =
      vpush now lang (Fig0s5_ServiceComponentLanguageVec (mpFibConfigFig0Curr s)) /\
    get_Fig0s5_ServiceComponentLanguage_of_SCId (mpFibConfigFig0Curr s') scid = None) as Hstep.
  { intros s Hs s'.
    assert (Fig0s5_ServiceComponentLanguageVec (mpFibConfigFig0Curr s') =
      vpush now lang (Fig0s5_ServiceComponentLanguageVec (mpFibConfigFig0Curr s))) as E.
    { subst s'. unfold subprocess_Fig0s5. cbv zeta. rewrite Hls. cbn [Z.eqb Pos.eqb s5_SCId fst]. fold scid. rewrite Hs.
      unfold retrigger_timer_data_loaded_slow, retrigger_timer_data_loaded_fast. by destruct (_ <=? _). }
    split; [done|]. unfold get_Fig0s5_ServiceComponentLanguage_of_SCId in *. rewrite E, vfind_vpush, Hs.
    unfold is_s5_scid, lang. cbn [s5_LS_Flag s5_SCId]. pose proof (u8_range scid). unfold is_byte in *.
    assert ((scid =? u8 scid) = false) as -> by lia. done. }
  destruct (Hstep st Hnone) as [E1 N1]. destruct (Hstep _ N1) as [E2 _]. cbv zeta in *.
  rewrite E2, E1, !items_vpush, <- app_assoc. done.
Qed.

Lemma language_scid_duplicated_witness :
  let d := zeros 16 ++ msb 1 1 ++ msb 3 0 ++ msb 12 0x123 ++ msb 8 9 in
  let st1 := fst (subprocess_Fig0s5 7 d 2 (mkHeader 4 0 0 0) FibDecoder_new) in
  let st2 := fst (subprocess_Fig0s5 7 d 2 (mkHeader 4 0 0 0) st1) in
  items (Fig0s5_ServiceComponentLanguageVec (mpFibConfigFig0Curr st2)) = [mk_s5 1 9 (-1) 0x123; mk_s5 1 9 (-1) 0x123].
Proof.
  intros d st1 st2. refine (language_scid_duplicated 7 2 d (mkHeader 4 0 0 0) FibDecoder_new _ _ _ _).
  - apply forall_bits. vm_compute. reflexivity.
  - vm_compute. reflexivity.
  - vm_compute. discriminate.
  - reflexivity.
Defined.

(** The conditional-access field of FIG 0/3 is read 40 bits behind its
    place: for a component with the CAOrg flag set, the stored value is the field
    that starts 80 bits after the start of the entry, not 40. *)
Theorem caorg_misread (now used : Z) (d : list Z) (fh : SFigHeader) (st : FibDecoder) :
  getBits_1 d (used * 8 + 15) = 1 ->
  get_Fig0s3_ServiceComponentPacketMode_of_SCId (get_config st (CN_Flag fh)) (getBits d (used * 8) 12) = None ->
  exists f, items (Fig0s3_ServiceComponentPacketModeVec
      (get_config (fst (subprocess_Fig0s3 now d used fh st)) (CN_Flag fh))) =
    items (Fig0s3_ServiceComponentPacketModeVec (get_config st (CN_Flag fh))) ++ [f] /\
    s3_SCId f = getBits d (used * 8) 12 /\ s3_CAOrg f = getBits d (used * 8 + 80) 16.
Proof.
  intros Hca Hnone. unfold subprocess_Fig0s3. cbv zeta. rewrite Hnone, Hca. cbn [Z.eqb Pos.eqb fst].
  unfold retrigger_timer_data_loaded_slow. rewrite get_config_retrigger, get_config_on_config.
  cbn [on_s3 Fig0s3_ServiceComponentPacketModeVec]. rewrite items_vpush. eexists. split; [reflexivity|].
  cbn [s3_SCId s3_CAOrg]. split; [done|]. by rewrite <- Z.add_assoc.
Qed.

Lemma caorg_misread_witness :
  let d := zeros 16 ++ msb 12 5 ++ msb 4 1 ++ zeros 24 ++ msb 16 0xABCD ++ zeros 24 ++ msb 16 0x1111 in
  exists f, items (Fig0s3_ServiceComponentPacketModeVec
      (get_config (fst (subprocess_Fig0s3 7 d 2 (mkHeader 8 0 0 0) FibDecoder_new)) 0)) = [] ++ [f] /\
    s3_SCId f = getBits d 16 12 /\ s3_CAOrg f = getBits d 96 16.
Proof.
  intros d. apply (caorg_misread 7 2 d (mkHeader 8 0 0 0) FibDecoder_new).
  - vm_compute. reflexivity.
  - reflexivity.
Defined.
