(* ===== verification/FicDecoder.v ===== *)
(** * FIC decoder (src/src/base/decoder/fic_decoder.cpp)

    The three FIC symbols of a frame are cut into four blocks of 2304 soft bits;
    each is depunctured into the mother code, Viterbi-decoded, descrambled and
    checked as three FIBs, which go to the FIB decoder.  The status signal is
    collected in [fic_status] with the error counters it divides; the dump file
    is the list of the written records; a failing [assert] is [None].

    Theorems: the puncture table has exactly the 2304 received positions in
    order; three symbols are exactly the four blocks in order, for every split of
    the soft bits; a frame of any soft bits is processed without a failing assert,
    keeps the FIB decoder reachable and the success counter within its range, and
    forwards exactly the FIBs whose CRC is right. *)
From stdpp Require Import gmap sorting.
From S2P Require Import Prelude BitExtractors Crc Viterbi Protection Backend MscHandler FibConfig FibFig0 FibDecoder FibInvariant FibProperties.
Open Scope Z_scope.

Definition cFicSizeVitIn : Z := 2304.
Definition cFicSizeVitOut : Z := 768.
Definition cFibSizeVitOut : Z := 256.
Definition cFicPerFrame : Z := 4.
Definition cFibPerFic : Z := 3.
Definition cViterbiBlockSize : Z := 3072 + 24.

Record FicDecoder := mkFic {
  mpFibDecoder : FibDecoder;
  mFibBitsEntireFrame : list Z;
  mPRBS : list Z;
  mFicViterbiSoftInput : list Z;
  mPunctureTable : list Z;
  mViterbiBlockAddresses : list Z;
  mViterbiBlock : list Z;
  mFicValid : list bool;
  mIndex : Z;
  mFicIdx : Z;
  mFicBlock : Z;
  mFicErrors : Z;
  mFicBits : Z;
  mFicDecodeSuccessRatio : Z;
  mIsRunning : bool;
  mpFicDump : option (list (list Z));
  fic_status : list (Z * Z * Z)
}.

Definition set_mpFibDecoder (v : FibDecoder) (s : FicDecoder) : FicDecoder :=
  mkFic v (mFibBitsEntireFrame s) (mPRBS s) (mFicViterbiSoftInput s) (mPunctureTable s) (mViterbiBlockAddresses s) (mViterbiBlock s) (mFicValid s) (mIndex s) (mFicIdx s) (mFicBlock s) (mFicErrors s) (mFicBits s) (mFicDecodeSuccessRatio s) (mIsRunning s) (mpFicDump s) (fic_status s).
Definition set_mFibBitsEntireFrame (v : list Z) (s : FicDecoder) : FicDecoder :=
  mkFic (mpFibDecoder s) v (mPRBS s) (mFicViterbiSoftInput s) (mPunctureTable s) (mViterbiBlockAddresses s) (mViterbiBlock s) (mFicValid s) (mIndex s) (mFicIdx s) (mFicBlock s) (mFicErrors s) (mFicBits s) (mFicDecodeSuccessRatio s) (mIsRunning s) (mpFicDump s) (fic_status s).
Definition set_softInput (v : list Z) (s : FicDecoder) : FicDecoder :=
  mkFic (mpFibDecoder s) (mFibBitsEntireFrame s) (mPRBS s) v (mPunctureTable s) (mViterbiBlockAddresses s) (mViterbiBlock s) (mFicValid s) (mIndex s) (mFicIdx s) (mFicBlock s) (mFicErrors s) (mFicBits s) (mFicDecodeSuccessRatio s) (mIsRunning s) (mpFicDump s) (fic_status s).
Definition set_mViterbiBlock (v : list Z) (s : FicDecoder) : FicDecoder :=
  mkFic (mpFibDecoder s) (mFibBitsEntireFrame s) (mPRBS s) (mFicViterbiSoftInput s) (mPunctureTable s) (mViterbiBlockAddresses s) v (mFicValid s) (mIndex s) (mFicIdx s) (mFicBlock s) (mFicErrors s) (mFicBits s) (mFicDecodeSuccessRatio s) (mIsRunning s) (mpFicDump s) (fic_status s).
Definition set_mFicValid (v : list bool) (s : FicDecoder) : FicDecoder :=
  mkFic (mpFibDecoder s) (mFibBitsEntireFrame s) (mPRBS s) (mFicViterbiSoftInput s) (mPunctureTable s) (mViterbiBlockAddresses s) (mViterbiBlock s) v (mIndex s) (mFicIdx s) (mFicBlock s) (mFicErrors s) (mFicBits s) (mFicDecodeSuccessRatio s) (mIsRunning s) (mpFicDump s) (fic_status s).
Definition set_indices (index ficIdx : Z) (s : FicDecoder) : FicDecoder :=
  mkFic (mpFibDecoder s) (mFibBitsEntireFrame s) (mPRBS s) (mFicViterbiSoftInput s) (mPunctureTable s) (mViterbiBlockAddresses s) (mViterbiBlock s) (mFicValid s) index ficIdx (mFicBlock s) (mFicErrors s) (mFicBits s) (mFicDecodeSuccessRatio s) (mIsRunning s) (mpFicDump s) (fic_status s).
Definition set_counters (block errors bits : Z) (st : list (Z * Z * Z)) (s : FicDecoder) : FicDecoder :=
  mkFic (mpFibDecoder s) (mFibBitsEntireFrame s) (mPRBS s) (mFicViterbiSoftInput s) (mPunctureTable s) (mViterbiBlockAddresses s) (mViterbiBlock s) (mFicValid s) (mIndex s) (mFicIdx s) block errors bits (mFicDecodeSuccessRatio s) (mIsRunning s) (mpFicDump s) st.
Definition set_ratio (v : Z) (s : FicDecoder) : FicDecoder :=
  mkFic (mpFibDecoder s) (mFibBitsEntireFrame s) (mPRBS s) (mFicViterbiSoftInput s) (mPunctureTable s) (mViterbiBlockAddresses s) (mViterbiBlock s) (mFicValid s) (mIndex s) (mFicIdx s) (mFicBlock s) (mFicErrors s) (mFicBits s) v (mIsRunning s) (mpFicDump s) (fic_status s).
Definition set_running (v : bool) (s : FicDecoder) : FicDecoder :=
  mkFic (mpFibDecoder s) (mFibBitsEntireFrame s) (mPRBS s) (mFicViterbiSoftInput s) (mPunctureTable s) (mViterbiBlockAddresses s) (mViterbiBlock s) (mFicValid s) (mIndex s) (mFicIdx s) (mFicBlock s) (mFicErrors s) (mFicBits s) (mFicDecodeSuccessRatio s) v (mpFicDump s) (fic_status s).
Definition set_dump (v : option (list (list Z))) (s : FicDecoder) : FicDecoder :=
  mkFic (mpFibDecoder s) (mFibBitsEntireFrame s) (mPRBS s) (mFicViterbiSoftInput s) (mPunctureTable s) (mViterbiBlockAddresses s) (mViterbiBlock s) (mFicValid s) (mIndex s) (mFicIdx s) (mFicBlock s) (mFicErrors s) (mFicBits s) (mFicDecodeSuccessRatio s) (mIsRunning s) v (fic_status s).

(** ** Constructor *)

(** One bit of the mother code: the counter, the table and the addresses. *)
Definition puncture_step (flag : Z) (st : Z * list Z * list Z) : Z * list Z * list Z :=
  let '(local, table, addrs) := st in
  if flag =? 0 then (local + 1, table, addrs) else (local + 1, wr table local 1, addrs ++ [local]).

Definition puncture_tables : Z * list Z * list Z :=
  let pi k := default [] (get_PI_codes k) in
  let st := (0, zeros cViterbiBlockSize, []) in
  let st := zfor 0 21 (fun _ st => zfor 0 (32 * 4) (fun k st => puncture_step (rd (pi 16) (k mod 32)) st) st) st in
  let st := zfor 0 3 (fun _ st => zfor 0 (32 * 4) (fun k st => puncture_step (rd (pi 15) (k mod 32)) st) st) st in
  zfor 0 24 (fun k st => puncture_step (rd (pi 8) k) st) st.

(** The scrambling sequence: the loop of the constructor is the one of
    backend.cpp. *)
Definition fic_PRBS : list Z := snd (zfor 0 768 disperse_step (replicate 9 1, zeros 768)).

Definition FicDecoder_new : FicDecoder :=
  let '(_, table, addrs) := puncture_tables in
  mkFic FibDecoder_new (zeros (cFicPerFrame * cFicSizeVitOut)) fic_PRBS (zeros cFicSizeVitIn) table addrs
    (zeros cViterbiBlockSize) (replicate 4 false) 0 0 0 0 0 0 false None [].

(** ** Processing *)

(** [_dump_fib_to_file]: the bits packed into bytes. *)
Definition dump_bytes (ipOneFibBits : list Z) : list Z :=
  map (fun j => zfor 0 8 (fun k b =>
    Z.lor (Z.land (u8 (Z.shiftl b 1)) 0xFE) (rd ipOneFibBits (8 * j + k))) 0) (seqZ 0 (cFibSizeVitOut / 8)).
Definition dump_fib_to_file (bits : list Z) (s : FicDecoder) : FicDecoder :=
  set_dump ((fun f => f ++ [dump_bytes bits]) <$> mpFicDump s) s.

(** A FIB with the right CRC: dumped and decoded to [fib]; the counter is
    increased up to 10. *)
Definition accept_fib (oneFib : list Z) (fib : FibDecoder) (s : FicDecoder) : FicDecoder :=
  let s := match mpFicDump s with Some _ => dump_fib_to_file oneFib s | None => s end in
  let s := set_mpFibDecoder fib s in
  if mFicDecodeSuccessRatio s <? 10 then set_ratio (mFicDecodeSuccessRatio s + 1) s else s.
(** A FIB with a wrong CRC. *)
Definition reject_fib (ficIdx : Z) (s : FicDecoder) : FicDecoder :=
  let s := set_mFicValid (<[Z.to_nat ficIdx := false]> (mFicValid s)) s in
  if 0 <? mFicDecodeSuccessRatio s then set_ratio (mFicDecodeSuccessRatio s - 1) s else s.

(** One of the three FIBs of a block. *)
Definition process_one_fib (qt : QtText) (now ficIdx : Z) (fibBitsOf3Fibs : list Z) (fibIdx : Z) (s : FicDecoder)
  : option FicDecoder :=
  let oneFib := slice fibBitsOf3Fibs (fibIdx * cFibSizeVitOut) cFibSizeVitOut in
  if check_CRC_bits oneFib cFibSizeVitOut then
    fib ← process_FIB qt now oneFib (mpFibDecoder s);
    Some (accept_fib oneFib fib s)
  else Some (reject_fib ficIdx s).

(** The steps of [_process_fic_input]: depuncturing, *)
Definition fic_depuncture (s : FicDecoder) : FicDecoder :=
  set_mViterbiBlock (depuncture (mViterbiBlockAddresses s) (mFicViterbiSoftInput s) (mViterbiBlock s)) s.
(** the bit error statistics with the status signal every 40 blocks, *)
Definition fic_statistics (decoded : list Z) (s : FicDecoder) : FicDecoder :=
  let '(bits, errors) :=
    calculate_BER cFicSizeVitOut (mViterbiBlock s) (mPunctureTable s) decoded (mFicBits s) (mFicErrors s) in
  let block := mFicBlock s + 1 in
  if block =? 40 then
    set_counters 0 (Z.quot errors 2) (Z.quot bits 2)
      (fic_status s ++ [(mFicDecodeSuccessRatio s * 10, errors, bits)]) s
  else set_counters block errors bits (fic_status s) s.
(** and the place of the decoded bits in the frame. *)
Definition fic_store (iFicIdx : Z) (bits : list Z) (s : FicDecoder) : FicDecoder :=
  set_mFicValid (<[Z.to_nat iFicIdx := true]> (mFicValid s))
    (set_mFibBitsEntireFrame (copy_at (mFibBitsEntireFrame s) (iFicIdx * cFicSizeVitOut) bits) s).

Definition process_fic_input (qt : QtText) (now iFicIdx : Z) (s : FicDecoder) : option FicDecoder :=
  if negb ((0 <=? iFicIdx) && (iFicIdx <? 4)) then None
  else if mIsRunning s then
    let s := fic_depuncture s in
    let decoded := viterbi_frame cFicSizeVitOut (mViterbiBlock s) in
    let s := fic_statistics decoded s in
    let fibBitsOf3Fibs := disperse (mPRBS s) decoded cFicSizeVitOut in
    let s := fic_store iFicIdx fibBitsOf3Fibs s in
    zforM 0 cFibPerFic (process_one_fib qt now iFicIdx fibBitsOf3Fibs) s
  else Some s.

(** One soft bit of a symbol. *)
Definition feed_bit (qt : QtText) (now x : Z) (s : FicDecoder) : option FicDecoder :=
  let s := set_indices (mIndex s + 1) (mFicIdx s) (set_softInput (wr (mFicViterbiSoftInput s) (mIndex s) x) s) in
  if cFicSizeVitIn <=? mIndex s then
    s ← process_fic_input qt now (mFicIdx s) s;
    Some (set_indices 0 (mFicIdx s + 1) s)
  else Some s.

Definition process_fic_block (qt : QtText) (now : Z) (iOfdmSoftBits : list Z) (iOfdmSymbIdx : Z) (s : FicDecoder)
  : option FicDecoder :=
  if negb (zlen iOfdmSoftBits =? c2K) || negb ((1 <=? iOfdmSymbIdx) && (iOfdmSymbIdx <=? 3)) then None
  else
    let s := if iOfdmSymbIdx =? 1 then set_indices 0 0 s else s in
    zforM 0 c2K (fun i s => feed_bit qt now (rd iOfdmSoftBits i) s) s.

(** ** Control *)
Definition fic_stop (s : FicDecoder) : FicDecoder :=
  set_running false (set_mpFibDecoder (disconnect_channel (mpFibDecoder s)) s).
Definition fic_restart (s : FicDecoder) : FicDecoder :=
  let s := set_ratio 0 s in
  set_running true (set_mpFibDecoder (connect_channel (mpFibDecoder s)) s).
Definition start_fic_dump (s : FicDecoder) : FicDecoder :=
  match mpFicDump s with Some _ => s | None => set_dump (Some []) s end.
Definition stop_fic_dump (s : FicDecoder) : FicDecoder := set_dump None s.
Definition get_fib_bits (s : FicDecoder) : list Z * list bool := (mFibBitsEntireFrame s, mFicValid s).
Definition get_fic_decode_ratio_percent (s : FicDecoder) : Z := mFicDecodeSuccessRatio s * 10.
Definition reset_fic_decode_success_ratio (s : FicDecoder) : FicDecoder := set_ratio 0 s.

(** ** The puncture table *)

(** The state after the flags [fl] when [x] cells of the table are left. *)
Definition punctured (fl : list Z) (x : Z) : Z * list Z * list Z := (zlen fl, fl ++ zeros x, ones_at 0 fl).

Lemma puncture_step_spec fl x f :
  0 < x -> is_bit f -> puncture_step f (punctured fl x) = punctured (fl ++ [f]) (x - 1).
Proof.
  intros Hx Hf. unfold puncture_step, punctured. rewrite zlen_app, ones_at_app.
  change (zlen [f]) with 1. cbn [ones_at]. unfold is_bit in Hf. rewrite Z.add_0_l, app_nil_r.
  destruct (Z.eqb_spec f 0) as [->|Hne].
  - rewrite app_nil_r. do 2 f_equal. unfold zeros. replace (Z.to_nat x) with (S (Z.to_nat (x - 1))) by lia.
    cbn [replicate]. by rewrite <- app_assoc.
  - assert (f = 1) as -> by lia. by rewrite wr_append.
Qed.

Lemma puncture_loop_spec (f : Z -> Z) n fl x :
  0 <= n <= x -> (forall k, is_bit (f k)) ->
  zfor 0 n (fun k st => puncture_step (f k) st) (punctured fl x) = punctured (fl ++ map f (seqZ 0 n)) (x - n).
Proof.
  intros Hn Hf. apply (zfor_inv (fun i st => st = punctured (fl ++ map f (seqZ 0 i)) (x - i))); [lia|..].
  - cbn. by rewrite app_nil_r, Z.sub_0_r.
  - intros i st Hi ->. rewrite puncture_step_spec by (done || lia). rewrite seqZ_app by lia.
    change (seqZ (0 + i) 1) with [0 + i]. rewrite map_app, app_assoc. cbn [map]. f_equal. lia.
Qed.

Lemma puncture_blocks_spec L pi fl x :
  0 <= L -> 128 * L <= x -> zlen pi = 32 -> Forall is_bit pi ->
  zfor 0 L (fun _ st => zfor 0 (32 * 4) (fun k st => puncture_step (rd pi (k mod 32)) st) st) (punctured fl x)
  = punctured (fl ++ punct_blocks L pi) (x - 128 * L).
Proof.
  intros HL Hx Hpi Hb. change (32 * 4) with 128.
  apply (zfor_inv (fun i st => st = punctured (fl ++ punct_blocks i pi) (x - 128 * i))); [done|..].
  - cbn. by rewrite app_nil_r, Z.sub_0_r.
  - intros i st Hi ->. rewrite (puncture_loop_spec (fun k => rd pi (k mod 32))), block128_flags;
      [|done|lia|intros; by apply (rd_Forall is_bit); [apply is_bit_0|]].
    rewrite punct_blocks_succ, app_assoc by lia. f_equal. lia.
Qed.

(** The puncturing sequence of the FIC (EN 300 401, 11.2.1). *)
Definition fic_flags : list Z :=
  punct_blocks 21 (default [] (get_PI_codes 16)) ++ punct_blocks 3 (default [] (get_PI_codes 15)) ++ PI_X_flags.

Lemma puncture_tables_spec : puncture_tables = (3096, fic_flags, ones_at 0 fic_flags).
Proof.
  assert (forall k, k = 16 \/ k = 15 \/ k = 8 -> zlen (default [] (get_PI_codes k)) = 32 /\
    Forall is_bit (default [] (get_PI_codes k))) as Hpi
    by (intros k [-> | [-> | ->]]; (split; [done|apply forall_bits; done])).
  unfold puncture_tables. cbv zeta. change (0, zeros cViterbiBlockSize, []) with (punctured [] 3096).
  rewrite puncture_blocks_spec by (lia || (apply Hpi; auto)).
  rewrite puncture_blocks_spec by (lia || (apply Hpi; auto)).
  rewrite (puncture_loop_spec (fun k => rd (default [] (get_PI_codes 8)) k));
    [|lia|intros; apply (rd_Forall is_bit); [apply is_bit_0|apply Hpi; auto]].
  change (map _ (seqZ 0 24)) with PI_X_flags. rewrite <- !app_assoc. change ([] ++ ?l) with l. fold fic_flags.
  change (3096 - 128 * 21 - 128 * 3 - 24) with 0. unfold punctured. change (zeros 0) with (@nil Z).
  rewrite app_nil_r. do 2 f_equal.
Qed.

Lemma fic_flags_count : zlen fic_flags = 3096 /\ count_ones fic_flags = 2304.
Proof.
  unfold fic_flags. rewrite !zlen_app, !count_ones_app, !punct_blocks_length, !punct_blocks_count by done. done.
Qed.

(** ** What processing leaves alone *)
Definition same_buffers (s s' : FicDecoder) : Prop :=
  mFicIdx s' = mFicIdx s /\ mIndex s' = mIndex s /\ mFicViterbiSoftInput s' = mFicViterbiSoftInput s /\
  mViterbiBlockAddresses s' = mViterbiBlockAddresses s /\ mPunctureTable s' = mPunctureTable s /\
  mPRBS s' = mPRBS s /\ mIsRunning s' = mIsRunning s /\
  zlen (mViterbiBlock s') = zlen (mViterbiBlock s) /\ length (mFicValid s') = length (mFicValid s).

#[export] Instance same_buffers_preorder : PreOrder same_buffers.
Proof.
  split; [by intros s|]. unfold same_buffers. intros a b c H1 H2. destruct_and!. split_and!; congruence.
Qed.

Lemma accept_fib_spec oneFib fib s :
  same_buffers s (accept_fib oneFib fib s) /\ mpFibDecoder (accept_fib oneFib fib s) = fib /\
  mFicValid (accept_fib oneFib fib s) = mFicValid s /\
  mFicDecodeSuccessRatio (accept_fib oneFib fib s) = Z.max (mFicDecodeSuccessRatio s) (Z.min 10 (mFicDecodeSuccessRatio s + 1)).
Proof.
  unfold accept_fib. cbv zeta. set (s1 := match mpFicDump s with Some _ => _ | None => _ end).
  assert (same_buffers s s1 /\ mFicValid s1 = mFicValid s /\ mFicDecodeSuccessRatio s1 = mFicDecodeSuccessRatio s)
    as (H1 & H2 & H3) by (subst s1; by destruct (mpFicDump s)).
  clearbody s1. cbn [mFicDecodeSuccessRatio set_mpFibDecoder]. rewrite <- H3, <- H2.
  destruct (Z.ltb_spec (mFicDecodeSuccessRatio s1) 10); cbn; split_and!; (lia || done).
Qed.

Lemma reject_fib_spec k s :
  same_buffers s (reject_fib k s) /\ mpFibDecoder (reject_fib k s) = mpFibDecoder s /\
  mFicValid (reject_fib k s) = <[Z.to_nat k := false]> (mFicValid s) /\
  mFicDecodeSuccessRatio (reject_fib k s) = Z.min (mFicDecodeSuccessRatio s) (Z.max 0 (mFicDecodeSuccessRatio s - 1)).
Proof.
  unfold reject_fib, same_buffers. cbv zeta. cbn [mFicDecodeSuccessRatio set_mFicValid].
  destruct (Z.ltb_spec 0 (mFicDecodeSuccessRatio s)); cbn; rewrite length_insert; split_and!; (lia || done).
Qed.

Definition crc_ok (fib : list Z) : bool := check_CRC_bits fib 256.

(** The two outcomes for one FIB. *)
Lemma process_one_fib_cases qt now k bits i s :
  process_one_fib qt now k bits i s =
  if crc_ok (slice bits (i * 256) 256) then
    fib ← process_FIB qt now (slice bits (i * 256) 256) (mpFibDecoder s);
    Some (accept_fib (slice bits (i * 256) 256) fib s)
  else Some (reject_fib k s).
Proof. unfold process_one_fib, crc_ok, cFibSizeVitOut. cbv zeta. reflexivity. Qed.

Lemma process_one_fib_buffers qt now k bits i s s' :
  process_one_fib qt now k bits i s = Some s' -> same_buffers s s'.
Proof.
  rewrite process_one_fib_cases. destruct (crc_ok _).
  - destruct (process_FIB _ _ _ _) as [fib|]; cbn [mbind option_bind]; intros H; [|discriminate H].
    apply (inj Some) in H. subst s'. apply accept_fib_spec.
  - intros H. apply (inj Some) in H. subst s'. apply reject_fib_spec.
Qed.

Lemma fic_depuncture_buffers s : same_buffers s (fic_depuncture s).
Proof. unfold same_buffers, fic_depuncture. cbn. split_and!; try done. apply zlen_zfor_wr. Qed.
Lemma fic_statistics_buffers decoded s : same_buffers s (fic_statistics decoded s).
Proof. unfold fic_statistics. destruct (calculate_BER _ _ _ _ _ _). by destruct (_ =? 40). Qed.
Lemma fic_statistics_keeps decoded s :
  mpFibDecoder (fic_statistics decoded (fic_depuncture s)) = mpFibDecoder s /\
  mFicDecodeSuccessRatio (fic_statistics decoded (fic_depuncture s)) = mFicDecodeSuccessRatio s.
Proof. unfold fic_statistics. destruct (calculate_BER _ _ _ _ _ _). by destruct (_ =? 40). Qed.
Lemma fic_store_buffers k bits s : same_buffers s (fic_store k bits s).
Proof. unfold same_buffers, fic_store. cbn. by rewrite length_insert. Qed.

Lemma process_fic_input_buffers qt now k s s' : process_fic_input qt now k s = Some s' -> same_buffers s s'.
Proof.
  unfold process_fic_input. destruct (negb ((0 <=? k) && (k <? 4))); [intros H; discriminate H|].
  destruct (mIsRunning s); [|intros H; apply (inj Some) in H; subst s'; reflexivity]. cbv zeta. intros H.
  etrans; [|eapply (zforM_preserves same_buffers); [|exact H]; intros; by eapply process_one_fib_buffers].
  etrans; [|apply fic_store_buffers]. etrans; [|apply fic_statistics_buffers]. apply fic_depuncture_buffers.
Qed.

(** ** Cutting the symbols into blocks *)
Section feeding.
Context (qt : QtText) (now : Z).

Definition feed (xs : list Z) (s : FicDecoder) : option FicDecoder :=
  fold_left (fun r x => s ← r; feed_bit qt now x s) xs (Some s).

Lemma fold_bind_None {A B} (f : A -> B -> option B) xs : fold_left (fun r x => s ← r; f x s) xs None = None.
Proof. by induction xs. Qed.

Lemma feed_app xs ys s : feed (xs ++ ys) s = s ← feed xs s; feed ys s.
Proof.
  unfold feed. rewrite fold_left_app. destruct (fold_left _ xs _) as [s'|]; [done|]. apply fold_bind_None.
Qed.

Lemma zforM_feed xs s : zforM 0 (zlen xs) (fun i s => feed_bit qt now (rd xs i) s) s = feed xs s.
Proof.
  unfold zforM, zfor, feed. rewrite Z.sub_0_r.
  assert (xs = map (rd xs) (seqZ 0 (zlen xs))) as E.
  { apply list_eq_rd; [by rewrite zlen_map_seqZ by apply zlen_nonneg|].
    intros i Hi. by rewrite rd_map_seqZ. }
  assert (forall r, fold_left (fun r x => s ← r; feed_bit qt now x s) (map (rd xs) (seqZ 0 (zlen xs))) r =
    fold_left (fun r i => s ← r; feed_bit qt now (rd xs i) s) (seqZ 0 (zlen xs)) r) as H
    by (generalize (seqZ 0 (zlen xs)); intros l; induction l as [|i l IH]; intros r; [done|apply IH]).
  rewrite <- E in H. by rewrite H.
Qed.

(** Fewer than 2304 bits only fill the buffer. *)
Lemma feed_partial xs s :
  mIndex s = 0 -> zlen (mFicViterbiSoftInput s) = 2304 -> zlen xs < 2304 ->
  feed xs s = Some (set_indices (zlen xs) (mFicIdx s)
    (set_softInput (xs ++ drop (length xs) (mFicViterbiSoftInput s)) s)).
Proof.
  intros Hi Hb. induction xs as [|x xs IH] using rev_ind; intros Hl.
  - destruct s. cbn in Hi. by subst.
  - rewrite zlen_app in Hl. change (zlen [x]) with 1 in Hl. rewrite feed_app, IH by lia.
    cbn [mbind option_bind]. unfold feed. cbn [fold_left mbind option_bind]. unfold feed_bit, cFicSizeVitIn. cbv zeta.
    cbn [mIndex mFicIdx mFicViterbiSoftInput set_indices set_softInput].
    destruct (Z.leb_spec 2304 (zlen xs + 1)); [lia|].
    assert (wr (xs ++ drop (length xs) (mFicViterbiSoftInput s)) (zlen xs) x =
      (xs ++ [x]) ++ drop (length (xs ++ [x])) (mFicViterbiSoftInput s)) as ->.
    { unfold zlen in *. rewrite length_app. cbn [length].
      destruct (drop (length xs) (mFicViterbiSoftInput s)) as [|y rest] eqn:Ed.
      - apply (f_equal length) in Ed. rewrite length_drop in Ed. cbn in Ed. lia.
      - unfold wr. destruct (Z.ltb_spec (Z.of_nat (length xs)) 0); [lia|]. rewrite Nat2Z.id.
        rewrite insert_app_r_alt, Nat.sub_diag by lia. cbn.
        rewrite <- drop_drop, Ed, <- app_assoc. done. }
    rewrite zlen_app. done.
Qed.

(** What one full block does. *)
Definition fic_block_step (softbits : list Z) (k : Z) (s : FicDecoder) : option FicDecoder :=
  s ← process_fic_input qt now k (set_indices 2304 k (set_softInput (slice softbits (2304 * k) 2304) s));
  Some (set_indices 0 (k + 1) s).

Lemma feed_block xs s :
  mIndex s = 0 -> zlen (mFicViterbiSoftInput s) = 2304 -> zlen xs = 2304 ->
  feed xs s = s' ← process_fic_input qt now (mFicIdx s) (set_indices 2304 (mFicIdx s) (set_softInput xs s));
              Some (set_indices 0 (mFicIdx s + 1) s').
Proof.
  intros Hi Hb Hl. destruct xs as [|x xs _] using rev_ind; [done|].
  rewrite zlen_app in Hl. change (zlen [x]) with 1 in Hl.
  rewrite feed_app, feed_partial by (done || lia). cbn [mbind option_bind]. unfold feed. cbn [fold_left mbind option_bind].
  unfold feed_bit, cFicSizeVitIn. cbv zeta. cbn [mIndex mFicIdx mFicViterbiSoftInput set_indices set_softInput].
  destruct (Z.leb_spec 2304 (zlen xs + 1)); [|lia].
  assert (wr (xs ++ drop (length xs) (mFicViterbiSoftInput s)) (zlen xs) x = xs ++ [x]) as ->.
  { unfold zlen in *. assert (length (drop (length xs) (mFicViterbiSoftInput s)) = 1%nat) as Hd by (rewrite length_drop; lia).
    destruct (drop (length xs) (mFicViterbiSoftInput s)) as [|y [|]]; try done.
    unfold wr. destruct (Z.ltb_spec (Z.of_nat (length xs)) 0); [lia|]. rewrite Nat2Z.id.
    by rewrite insert_app_r_alt, Nat.sub_diag by lia. }
  replace (zlen xs + 1) with 2304 by lia.
  change (set_indices 2304 (mFicIdx s) (set_softInput (xs ++ [x]) (set_indices (zlen xs) (mFicIdx s) (set_softInput ?l s))))
    with (set_indices 2304 (mFicIdx s) (set_softInput (xs ++ [x]) s)).
  destruct (process_fic_input _ _ _ _) as [s'|] eqn:E; [|done]. cbn [mbind option_bind].
  apply process_fic_input_buffers in E as (-> & _). done.
Qed.

Lemma fic_block_step_state softbits k s s' :
  fic_block_step softbits k s = Some s' -> zlen (slice softbits (2304 * k) 2304) = 2304 ->
  mIndex s' = 0 /\ mFicIdx s' = k + 1 /\ zlen (mFicViterbiSoftInput s') = 2304.
Proof.
  unfold fic_block_step. destruct (process_fic_input _ _ _ _) as [s1|] eqn:E; [|done]. cbn [mbind option_bind].
  intros H Hl. apply (inj Some) in H. subst s'. apply process_fic_input_buffers in E as (_ & _ & E & _).
  split_and!; [done..|]. cbn in *. by rewrite E.
Qed.

(** [n] whole blocks. *)
Lemma feed_blocks (n : nat) bits s :
  mIndex s = 0 -> mFicIdx s = 0 -> zlen (mFicViterbiSoftInput s) = 2304 -> 2304 * Z.of_nat n <= zlen bits ->
  feed (slice bits 0 (2304 * Z.of_nat n)) s = zforM 0 (Z.of_nat n) (fic_block_step bits) s /\
  forall s', zforM 0 (Z.of_nat n) (fic_block_step bits) s = Some s' ->
    mIndex s' = 0 /\ mFicIdx s' = Z.of_nat n /\ zlen (mFicViterbiSoftInput s') = 2304.
Proof.
  intros Hi Hk Hb. induction n as [|n IH]; intros Hl.
  - split; [done|]. cbn. intros s' [= <-]. done.
  - destruct IH as [IH1 IH2]; [lia|]. replace (Z.of_nat (S n)) with (Z.of_nat n + 1) by lia.
    unfold zforM. rewrite zfor_last by lia. fold (zforM 0 (Z.of_nat n) (fic_block_step bits) s).
    assert (slice bits 0 (2304 * (Z.of_nat n + 1)) =
      slice bits 0 (2304 * Z.of_nat n) ++ slice bits (2304 * Z.of_nat n) 2304) as ->.
    { unfold slice. rewrite !drop_0. replace (Z.to_nat (2304 * (Z.of_nat n + 1)))
        with (Z.to_nat (2304 * Z.of_nat n) + Z.to_nat 2304)%nat by lia. by rewrite take_take_drop. }
    assert (zlen (slice bits (2304 * Z.of_nat n) 2304) = 2304) as Hs by (apply zlen_slice; lia).
    rewrite feed_app, IH1. destruct (zforM 0 (Z.of_nat n) _ s) as [s1|]; cbn [mbind option_bind]; [|done].
    destruct (IH2 s1 eq_refl) as (H1 & H2 & H3). rewrite feed_block, H2 by done. split; [done|].
    intros s' H. by apply fic_block_step_state in H.
Qed.
End feeding.

(** The three FIC symbols of a frame. *)
Definition process_fic_symbols (qt : QtText) (now : Z) (b1 b2 b3 : list Z) (s : FicDecoder) : option FicDecoder :=
  s ← process_fic_block qt now b1 1 s; s ← process_fic_block qt now b2 2 s; process_fic_block qt now b3 3 s.

Lemma fic_symbols_blocks qt now b1 b2 b3 s :
  zlen b1 = 3072 -> zlen b2 = 3072 -> zlen b3 = 3072 -> zlen (mFicViterbiSoftInput s) = 2304 ->
  process_fic_symbols qt now b1 b2 b3 s =
  zforM 0 4 (fic_block_step qt now (b1 ++ b2 ++ b3)) (set_indices 0 0 s).
Proof.
  intros H1 H2 H3 Hb. unfold process_fic_symbols, process_fic_block, c2K. rewrite H1, H2, H3. cbn [Z.eqb Pos.eqb negb orb andb Z.leb Z.compare Pos.compare Pos.compare_cont].
  rewrite <- H1 at 1. rewrite zforM_feed.
  destruct (feed_blocks qt now 4 (b1 ++ b2 ++ b3) (set_indices 0 0 s)) as [Hf _]; [done..|rewrite !zlen_app; lia|].
  change (Z.of_nat 4) with 4 in Hf. rewrite <- Hf.
  replace (slice (b1 ++ b2 ++ b3) 0 (2304 * 4)) with (b1 ++ b2 ++ b3)
    by (symmetry; unfold slice; rewrite drop_0; apply take_ge; unfold zlen in *; rewrite !length_app; lia).
  rewrite feed_app. destruct (feed qt now b1 _) as [s1|]; cbn [mbind option_bind]; [|done].
  rewrite feed_app. rewrite <- H2, zforM_feed.
  destruct (feed qt now b2 _) as [s2|]; cbn [mbind option_bind]; [|done].
  by rewrite H2, <- H3, zforM_feed.
Qed.

(** ** Decoded blocks *)
Lemma fic_PRBS_bits : Forall is_bit fic_PRBS.
Proof.
  unfold fic_PRBS.
  assert (Forall is_bit (fst (zfor 0 768 disperse_step (replicate 9 1, zeros 768))) /\
    Forall is_bit (snd (zfor 0 768 disperse_step (replicate 9 1, zeros 768)))) as [_ H]; [|exact H].
  apply (zfor_inv (fun _ st => Forall is_bit (fst st) /\ Forall is_bit (snd st))); [lia|..].
  - split; apply Forall_replicate; unfold is_bit; lia.
  - intros i [sr v] _ [Hs Hv]. cbn [fst snd] in *. unfold disperse_step. cbv zeta. cbn [fst snd].
    assert (is_bit (Z.lxor (rd sr 8) (rd sr 4))) as Hb by (apply lxor_bit; by apply (rd_Forall is_bit); auto with dab).
    split; apply Forall_wr; try done.
    apply (zdownto_inv (fun _ l => Forall is_bit l)); [lia|done|]. intros j l _ Hl.
    apply Forall_wr; [done|]. by apply (rd_Forall is_bit); auto with dab.
Qed.

Lemma viterbi_frame_bits block : Forall is_bit (viterbi_frame 768 block) /\ zlen (viterbi_frame 768 block) = 768.
Proof.
  unfold viterbi_frame. rewrite viterbi_survivor by (done || lia || (unfold fits32; lia)).
  destruct (survivor_zero_split block 768 ltac:(lia)) as (s0 & _ & Hb & Hl & _).
  cbv zeta in Hb, Hl. split; assumption.
Qed.

Lemma disperse_bits v out n : Forall is_bit v -> Forall is_bit out -> Forall is_bit (disperse v out n).
Proof.
  intros Hv Ho. unfold disperse. apply (Forall_zfor_wr is_bit 0 n (fun i _ => i) (fun i l => Z.lxor (rd l i) (rd v i)));
    [done|]. intros i l Hl. apply lxor_bit; by apply (rd_Forall is_bit); auto with dab.
Qed.

(** The 768 descrambled bits of the block that is in the input buffer. *)
Definition block_bits (s : FicDecoder) : list Z :=
  disperse (mPRBS s) (viterbi_frame cFicSizeVitOut (mViterbiBlock (fic_depuncture s))) cFicSizeVitOut.

Lemma block_bits_bits s : Forall is_bit (mPRBS s) -> Forall is_bit (block_bits s).
Proof.
  intros Hp. unfold block_bits, cFicSizeVitOut. destruct (viterbi_frame_bits (mViterbiBlock (fic_depuncture s))) as [Hb _].
  revert Hb. generalize (viterbi_frame 768 (mViterbiBlock (fic_depuncture s))). intros l Hl.
  apply disperse_bits; assumption.
Qed.

(** Its three FIBs, and the FIB decoder run over some of them. *)
Definition fib_list (n : Z) (bits : list Z) : list (list Z) := map (fun i => slice bits (i * 256) 256) (seqZ 0 n).
Definition forward (qt : QtText) (now : Z) (fibs : list (list Z)) (st : FibDecoder) : option FibDecoder :=
  fold_left (fun r fib => s ← r; process_FIB qt now fib s) fibs (Some st).

Lemma forward_snoc qt now fibs fib st : forward qt now (fibs ++ [fib]) st = s ← forward qt now fibs st; process_FIB qt now fib s.
Proof. unfold forward. by rewrite fold_left_app. Qed.

Record fic_ok (qt : QtText) (s : FicDecoder) : Prop := mk_fic_ok {
  fic_reachable : reachable qt (mpFibDecoder s);
  fic_ratio : 0 <= mFicDecodeSuccessRatio s <= 10;
  fic_soft : zlen (mFicViterbiSoftInput s) = 2304;
  fic_valid : length (mFicValid s) = 4%nat;
  fic_prbs : Forall is_bit (mPRBS s)
}.

(** What is true after [i] FIBs of block [k]. *)
Definition fibs_done (qt : QtText) (now k : Z) (bits : list Z) (fib0 : FibDecoder) (s0 : FicDecoder) (i : Z)
  (s : FicDecoder) : Prop :=
  reachable qt (mpFibDecoder s) /\ 0 <= mFicDecodeSuccessRatio s <= 10 /\
  forward qt now (List.filter crc_ok (fib_list i bits)) fib0 = Some (mpFibDecoder s) /\
  mFicValid s !! Z.to_nat k = Some (forallb crc_ok (fib_list i bits)) /\ same_buffers s0 s.

Lemma process_one_fib_done qt now k bits fib0 s0 i s :
  0 <= i -> Forall is_bit bits -> fibs_done qt now k bits fib0 s0 i s ->
  exists s', process_one_fib qt now k bits i s = Some s' /\ fibs_done qt now k bits fib0 s0 (i + 1) s'.
Proof.
  intros Hi Hb (Hr & Hq & Hf & Hval & Hsame).
  assert (fib_list (i + 1) bits = fib_list i bits ++ [slice bits (i * 256) 256]) as Efl.
  { unfold fib_list. rewrite seqZ_app by lia. rewrite map_app. done. }
  unfold fibs_done. rewrite Efl, filter_app, forallb_app, process_one_fib_cases. cbn [List.filter forallb].
  set (fib := slice bits (i * 256) 256).
  assert (Forall is_bit fib) as Hfib by (by apply Forall_slice). clearbody fib.
  destruct (crc_ok fib).
  - destruct (process_FIB_ok qt now fib (mpFibDecoder s) Hfib (reachable_ok _ _ Hr)) as (fd & Ep & _).
    rewrite Ep. cbn [mbind option_bind]. eexists. split; [reflexivity|].
    destruct (accept_fib_spec fib fd s) as (H1 & -> & -> & ->).
    split_and!; [|lia|lia| |by rewrite Hval, andb_true_r|by etrans].
    + eapply reachable_step; [exact Hr|]. by eapply step_process_FIB.
    + rewrite forward_snoc, Hf. exact Ep.
  - eexists. split; [reflexivity|]. destruct (reject_fib_spec k s) as (H1 & -> & -> & ->).
    split_and!; [done|lia|lia|by rewrite app_nil_r| |by etrans].
    rewrite andb_false_r, list_lookup_insert_eq; [done|]. by apply lookup_lt_Some in Hval.
Qed.

(** One block: it is processed, and exactly its FIBs with a right CRC were
    forwarded. *)
Lemma process_fic_input_done qt now k s :
  fic_ok qt s -> 0 <= k < 4 -> mIsRunning s = true ->
  exists s', process_fic_input qt now k s = Some s' /\
    fibs_done qt now k (block_bits s) (mpFibDecoder s) s 3 s'.
Proof.
  intros [Hr Hq Hs Hv Hp] Hk Hrun. unfold process_fic_input.
  assert (negb ((0 <=? k) && (k <? 4)) = false) as -> by lia. rewrite Hrun. cbv zeta.
  remember (fic_statistics (viterbi_frame cFicSizeVitOut (mViterbiBlock (fic_depuncture s))) (fic_depuncture s))
    as s2 eqn:Es2.
  assert (same_buffers s s2) as H2 by (rewrite Es2; etrans; [apply fic_depuncture_buffers|apply fic_statistics_buffers]).
  assert (mpFibDecoder s2 = mpFibDecoder s /\ mFicDecodeSuccessRatio s2 = mFicDecodeSuccessRatio s) as [E1 E2].
  { rewrite Es2. apply fic_statistics_keeps. }
  clear Es2. assert (mPRBS s2 = mPRBS s) as -> by apply H2.
  assert (disperse (mPRBS s) (viterbi_frame cFicSizeVitOut (mViterbiBlock (fic_depuncture s))) cFicSizeVitOut = block_bits s)
    as -> by (unfold block_bits; reflexivity).
  assert (Forall is_bit (block_bits s)) as Hb by (by apply block_bits_bits).
  assert (length (mFicValid s2) = 4%nat) as Hv2 by (rewrite <- Hv; apply H2).
  generalize dependent (block_bits s). intros bits Hb.
  apply zforM_inv; [unfold cFibPerFic; lia|..].
  - unfold fibs_done. cbn [mpFibDecoder mFicDecodeSuccessRatio fic_store set_mFicValid set_mFibBitsEntireFrame mFicValid].
    rewrite E1, E2. split_and!; [done|lia|lia|done| |etrans; [exact H2|apply fic_store_buffers]].
    apply list_lookup_insert_eq. lia.
  - intros i s' Hi H. by apply process_one_fib_done; [lia|..].
Qed.

Lemma fic_ok_same qt s s' :
  fic_ok qt s -> same_buffers s s' -> reachable qt (mpFibDecoder s') -> 0 <= mFicDecodeSuccessRatio s' <= 10 -> fic_ok qt s'.
Proof.
  intros [_ _ Hs Hv Hp] (_ & _ & E1 & _ & _ & E2 & _ & _ & E3) Hr Hq. constructor; [done|done|by rewrite E1|by rewrite E3|by rewrite E2].
Qed.

Lemma fic_block_step_ok qt now softbits k s :
  fic_ok qt s -> 0 <= k < 4 -> zlen (slice softbits (2304 * k) 2304) = 2304 ->
  exists s', fic_block_step qt now softbits k s = Some s' /\ fic_ok qt s' /\ mFicIdx s' = k + 1.
Proof.
  intros Hok Hk Hl. unfold fic_block_step. set (s1 := set_indices 2304 k _).
  assert (fic_ok qt s1) as H1 by (destruct Hok; by constructor).
  assert (exists s', process_fic_input qt now k s1 = Some s' /\ fic_ok qt s') as (s' & -> & Hs').
  { destruct (mIsRunning s1) eqn:Er.
    - destruct (process_fic_input_done qt now k s1 H1 Hk Er) as (s' & E & Hr & Hq & _ & _ & Hb).
      exists s'. split; [exact E|]. by apply (fic_ok_same qt s1).
    - exists s1. split; [|exact H1]. unfold process_fic_input. rewrite Er.
      assert (negb ((0 <=? k) && (k <? 4)) = false) as -> by lia. reflexivity. }
  cbn [mbind option_bind]. eexists. split; [reflexivity|]. split; [by destruct Hs'|done].
Qed.

Lemma fic_ok_new qt : fic_ok qt FicDecoder_new.
Proof.
  unfold FicDecoder_new. rewrite puncture_tables_spec. constructor.
  - apply reachable_new.
  - cbn. lia.
  - cbn [mFicViterbiSoftInput]. by apply zlen_zeros.
  - done.
  - apply fic_PRBS_bits.
Qed.

Lemma ones_at_In c flags i : In i (ones_at c flags) <-> c <= i < c + zlen flags /\ rd flags (i - c) <> 0.
Proof.
  revert c. induction flags as [|f fs IH]; intros c; cbn [ones_at].
  - unfold zlen. cbn. lia.
  - rewrite in_app_iff, IH. replace (zlen (f :: fs)) with (1 + zlen fs) by (unfold zlen; cbn [length]; lia).
    pose proof (zlen_nonneg fs). destruct (Z.eq_dec i c) as [->|Hne].
    + rewrite Z.sub_diag. change (rd (f :: fs) 0) with f. destruct (Z.eqb_spec f 0); cbn; split; intros; lia.
    + assert (~ In i (if f =? 0 then [] else [c])) by (destruct (f =? 0); cbn; lia).
      destruct (Z.lt_ge_cases i c); [split; [intros [?|[? _]]; [done|lia]|intros [? _]; lia]|].
      rewrite (rd_cons f) by lia. replace (i - c - 1) with (i - (c + 1)) by lia.
      split; [intros [?|[? ?]]; [done|split; [lia|done]]|intros [? ?]; right; split; [lia|done]].
Qed.

(** ** Properties *)

(** The constructor marks exactly the received bits: of the 3096 bits of the
    mother code of 768 information and 6 tail bits the table selects 2304, one
    address per received soft bit, in increasing order and inside the buffer. *)
Theorem fic_puncturing :
  let table := mPunctureTable FicDecoder_new in
  let addrs := mViterbiBlockAddresses FicDecoder_new in
  zlen table = cViterbiBlockSize /\ cViterbiBlockSize = 4 * (cFicSizeVitOut + 6) /\
  zlen addrs = cFicSizeVitIn /\ StronglySorted Z.lt addrs /\
  (forall i, In i addrs <-> 0 <= i < cViterbiBlockSize /\ rd table i <> 0).
Proof.
  unfold FicDecoder_new. rewrite puncture_tables_spec. cbv zeta. cbn [mPunctureTable mViterbiBlockAddresses].
  destruct fic_flags_count as [Hl Hc]. split_and!.
  - exact Hl.
  - reflexivity.
  - rewrite zlen_ones_at. exact Hc.
  - apply ones_at_sorted.
  - intros i. rewrite ones_at_In, Hl, Z.sub_0_r. reflexivity.
Qed.

(** The three FIC symbols of a frame are exactly four blocks of 2304 soft
    bits, processed in order with the indices 0 to 3, although the blocks do not
    end where the symbols do. *)
Theorem fic_assembly (qt : QtText) (now : Z) (b1 b2 b3 : list Z) (s : FicDecoder) :
  zlen b1 = 3072 -> zlen b2 = 3072 -> zlen b3 = 3072 -> zlen (mFicViterbiSoftInput s) = 2304 ->
  process_fic_symbols qt now b1 b2 b3 s =
  zforM 0 4 (fic_block_step qt now (b1 ++ b2 ++ b3)) (set_indices 0 0 s).
Proof. apply fic_symbols_blocks. Qed.

Lemma fic_assembly_witness :
  process_fic_symbols no_qt 0 (zeros 3072) (zeros 3072) (zeros 3072) FicDecoder_new =
  zforM 0 4 (fic_block_step no_qt 0 (zeros 3072 ++ zeros 3072 ++ zeros 3072)) (set_indices 0 0 FicDecoder_new).
Proof.
  apply (fic_assembly no_qt 0 (zeros 3072) (zeros 3072) (zeros 3072) FicDecoder_new).
  - apply zlen_zeros. lia.
  - apply zlen_zeros. lia.
  - apply zlen_zeros. lia.
  - exact (fic_soft no_qt FicDecoder_new (fic_ok_new no_qt)).
Defined.

(** From any well-formed state a frame of any soft bits is processed without
    a failing assert or an endless loop; the FIB decoder stays in a reachable
    state and the success counter in 0 to 10. *)
Theorem fic_frame_safe (qt : QtText) (now : Z) (b1 b2 b3 : list Z) (s : FicDecoder) :
  fic_ok qt s -> zlen b1 = 3072 -> zlen b2 = 3072 -> zlen b3 = 3072 ->
  exists s', process_fic_symbols qt now b1 b2 b3 s = Some s' /\ fic_ok qt s' /\ mFicIdx s' = cFicPerFrame.
Proof.
  intros Hok H1 H2 H3. rewrite fic_symbols_blocks by (try done; apply (fic_soft qt s Hok)).
  unfold cFicPerFrame. apply (zforM_inv (fun i s => fic_ok qt s /\ mFicIdx s = i)); [lia|split; [by destruct Hok|done]|].
  intros i s1 Hi [Hs1 _]. destruct (fic_block_step_ok qt now (b1 ++ b2 ++ b3) i s1 Hs1) as (s' & E & Hs' & Hx).
  - lia.
  - apply zlen_slice; rewrite ?zlen_app; lia.
  - by exists s'.
Qed.

Lemma fic_frame_safe_witness :
  exists s', process_fic_symbols no_qt 0 (zeros 3072) (zeros 3072) (zeros 3072) FicDecoder_new = Some s' /\
    fic_ok no_qt s' /\ mFicIdx s' = cFicPerFrame.
Proof.
  apply (fic_frame_safe no_qt 0 (zeros 3072) (zeros 3072) (zeros 3072) FicDecoder_new).
  - apply fic_ok_new.
  - apply zlen_zeros. lia.
  - apply zlen_zeros. lia.
  - apply zlen_zeros. lia.
Defined.

(** C12: of the three FIBs of a decoded block exactly those with a right CRC
    reach the FIB decoder, in order, and the block is marked valid if and only if
    all three are right. *)
Theorem fic_forwards_valid_fibs (qt : QtText) (now k : Z) (s : FicDecoder) :
  fic_ok qt s -> 0 <= k < 4 -> mIsRunning s = true ->
  exists s', process_fic_input qt now k s = Some s' /\
    forward qt now (List.filter crc_ok (fib_list 3 (block_bits s))) (mpFibDecoder s) = Some (mpFibDecoder s') /\
    mFicValid s' !! Z.to_nat k = Some (forallb crc_ok (fib_list 3 (block_bits s))).
Proof.
  intros Hok Hk Hr. destruct (process_fic_input_done qt now k s Hok Hk Hr) as (s' & E & _ & _ & Hf & Hv & _).
  exists s'. split; [exact E|]. split; [exact Hf|exact Hv].
Qed.

Lemma fic_forwards_valid_fibs_witness :
  exists s', process_fic_input no_qt 0 2 (set_running true FicDecoder_new) = Some s' /\
    forward no_qt 0 (List.filter crc_ok (fib_list 3 (block_bits (set_running true FicDecoder_new)))) FibDecoder_new
      = Some (mpFibDecoder s') /\
    mFicValid s' !! Z.to_nat 2 = Some (forallb crc_ok (fib_list 3 (block_bits (set_running true FicDecoder_new)))).
Proof.
  pose proof (fic_ok_new no_qt) as [H1 H2 H3 H4 H5].
  apply (fic_forwards_valid_fibs no_qt 0 2 (set_running true FicDecoder_new)).
  - constructor; assumption.
  - lia.
  - reflexivity.
Defined.
