(* ===== verification/FicReception.v ===== *)
(** * FIC reception

    The three FIC symbols of a frame end to end: FIBs with their CRC are scrambled,
    encoded and punctured as the standard says, and the FIC decoder forwards them
    to the FIB decoder, for soft values with the right signs.  The channel code is
    that of AirCoding.v. *)
From Stdlib Require Import Sorted.
From S2P Require Import Prelude BitExtractors BitFields Crc Viterbi Protection Backend AirCoding MscHandler FibConfig FibFig0 FibDecoder FibInvariant FibProperties FicDecoder ChannelCode.
Open Scope Z_scope.

(** The bits on the air for the 768 bits of a block. *)
Definition fic_air (bits : list Z) : list Z := map (rd (mother_code (dispersed bits))) (ones_at 0 (blocks 21 16 ++ blocks 3 15 ++ tail_vector)).
Definition heard_block (bits soft : list Z) : Prop := forall j, 0 <= j < 2304 -> soft_ok (rd (fic_air bits) j) (rd soft j) = true.
Definition fic_block (bits : list Z) : Prop := Forall is_bit bits /\ zlen bits = 768 /\ forallb crc_ok (fib_list 3 bits) = true.

(** The sequence of EN 300 401, 11.2.1, is the decoder's. *)
Lemma fic_air_flags bits : fic_air bits = map (rd (mother_code (dispersed bits))) (ones_at 0 fic_flags).
Proof. unfold fic_air. by do 3 f_equal. Qed.

(** The tables of the constructor; nothing but received values in the block. *)
Record fic_clean (s : FicDecoder) : Prop := {
  fc_addresses : mViterbiBlockAddresses s = ones_at 0 fic_flags;
  fc_prbs : mPRBS s = make_disperse 32;
  fc_block : zlen (mViterbiBlock s) = 3096 /\ forall a, ~ In a (ones_at 0 fic_flags) -> rd (mViterbiBlock s) a = 0;
  fc_frame : zlen (mFibBitsEntireFrame s) = 3072
}.

(** The indices, the input and the switch do not matter. *)
Lemma fic_clean_input a b soft r s : fic_clean s -> fic_clean (set_indices a b s) /\ fic_clean (set_indices a b (set_softInput soft s)) /\ fic_clean (set_running r s).
Proof. intros [H1 H2 H3 H4]. exact (conj (Build_fic_clean (set_indices a b s) H1 H2 H3 H4) (conj (Build_fic_clean (set_indices a b (set_softInput soft s)) H1 H2 H3 H4) (Build_fic_clean (set_running r s) H1 H2 H3 H4))). Qed.

Lemma fic_flags_strong : strong fic_flags.
Proof. apply strongb_ok. by vm_compute. Qed.

Lemma fic_clean_new : fic_clean FicDecoder_new.
Proof.
  unfold FicDecoder_new. rewrite puncture_tables_spec. split; cbn [mViterbiBlockAddresses mPRBS mViterbiBlock mFibBitsEntireFrame].
  - reflexivity.
  - vm_compute. reflexivity.
  - split; [apply zlen_zeros; vm_compute; discriminate|]. intros a _. apply rd_zeros.
  - apply zlen_zeros. vm_compute. discriminate.
Qed.

Lemma depuncture_same addrs soft block block' : StronglySorted Z.lt addrs -> Forall (fun a => 0 <= a < zlen block) addrs -> zlen block' = zlen block ->
  (forall a, ~ In a addrs -> rd block a = rd block' a) -> depuncture addrs soft block = depuncture addrs soft block'.
Proof.
  intros Hs Hr Hl Ha. destruct (depuncture_spec addrs soft block Hs Hr) as (L1 & K1 & A1). rewrite <- Hl in Hr.
  destruct (depuncture_spec addrs soft block' Hs Hr) as (L2 & K2 & A2). apply list_eq_rd; [lia|]. intros i Hi.
  destruct (in_dec Z.eq_dec i addrs) as [Hin|Hin]; [|by rewrite A1, A2, Ha]. destruct (In_rd_exists _ _ Hin) as (k & Hk & <-). by rewrite K1, K2.
Qed.

Lemma fic_scrambled bits : fic_block bits ->
  zlen (dispersed bits) = 768 /\ Forall is_bit (dispersed bits) /\ disperse (make_disperse 32) (dispersed bits) 768 = bits /\ zlen (mother_code (dispersed bits)) = 3096.
Proof.
  intros (Hb & Hl & _). destruct (dispersed_frame bits 32 ltac:(lia) ltac:(lia) Hb) as (Ls & Bs & Es). split; [lia|]. split; [done|]. split; [exact Es|].
  rewrite zlen_mother_code, Ls by done. lia.
Qed.

Lemma fic_addresses_ok : StronglySorted Z.lt (ones_at 0 fic_flags) /\ Forall (fun a => 0 <= a < 3096) (ones_at 0 fic_flags).
Proof.
  destruct fic_flags_count as [Hfl _]. destruct (ones_at_ok 0 0 fic_flags 3096 ltac:(lia) ltac:(lia)) as [Hso Hra]. split; [exact Hso|].
  cbn [viterbiBlockAddresses viterbiBlock] in Hra. rewrite zlen_zeros in Hra by lia. exact Hra.
Qed.

Lemma fic_fits s bits : fic_clean s -> fic_block bits -> heard_block bits (mFicViterbiSoftInput s) ->
  fits fic_flags (mother_code (dispersed bits)) (mViterbiBlock (fic_depuncture s)).
Proof.
  intros [Ea _ [Hl Hz] _] Hbl Hh. destruct (fic_scrambled bits Hbl) as (_ & _ & _ & Lc). destruct fic_flags_count as [Hfl Hcount]. destruct fic_addresses_ok as [Hso Hra].
  unfold fic_depuncture. cbn [mViterbiBlock set_mViterbiBlock]. rewrite Ea.
  rewrite (depuncture_same _ _ (mViterbiBlock s) (zeros (zlen fic_flags))); [|exact Hso|by rewrite Hl|rewrite Hl, zlen_zeros; lia|intros a Hna; by rewrite Hz, rd_zeros].
  apply depuncture_fits; [lia|]. intros k Hk. rewrite zlen_ones_at in Hk. specialize (Hh k ltac:(lia)). rewrite fic_air_flags in Hh. rewrite rd_map in Hh by (rewrite zlen_ones_at; lia). exact Hh.
Qed.

(** The decoder returns the bits of the block. *)
Lemma block_recovered s bits : fic_clean s -> fic_block bits -> heard_block bits (mFicViterbiSoftInput s) ->
  disperse (mPRBS s) (viterbi_frame cFicSizeVitOut (mViterbiBlock (fic_depuncture s))) cFicSizeVitOut = bits.
Proof.
  intros Hc Hbl Hh. pose proof (fic_fits s bits Hc Hbl Hh) as Hf. destruct (fic_scrambled bits Hbl) as (Ls & Bs & Es & _). destruct fic_flags_count as [Hfl _].
  rewrite (fc_prbs s Hc). unfold viterbi_frame, cFicSizeVitOut. revert Hf. generalize (mViterbiBlock (fic_depuncture s)). intros block Hf.
  assert (viterbi_deconvolve 768 (zeros 64) (zeros 64) block (zeros 768) = dispersed bits) as E; [|by rewrite E].
  rewrite <- Ls. apply (fits_decodes _ _ _ fic_flags); [lia|done|done|rewrite Ls; apply zlen_zeros; lia|exact Bs|lia|exact fic_flags_strong|exact Hf].
Qed.

Lemma accept_fib_rest oneFib fib s : mViterbiBlock (accept_fib oneFib fib s) = mViterbiBlock s /\ mFibBitsEntireFrame (accept_fib oneFib fib s) = mFibBitsEntireFrame s.
Proof. unfold accept_fib. cbv zeta. destruct (mpFicDump s); cbn [mFicDecodeSuccessRatio set_mpFibDecoder dump_fib_to_file set_dump]; by destruct (_ <? 10). Qed.

Lemma fic_statistics_rest decoded s : mViterbiBlock (fic_statistics decoded s) = mViterbiBlock s /\ mFibBitsEntireFrame (fic_statistics decoded s) = mFibBitsEntireFrame s /\
  mFicValid (fic_statistics decoded s) = mFicValid s.
Proof. unfold fic_statistics. destruct (calculate_BER _ _ _ _ _ _). by destruct (_ =? 40). Qed.

Lemma zlen_copy_at v off src : zlen (copy_at v off src) = zlen v.
Proof. apply zlen_zfor_wr. Qed.

(** ** One block *)
Lemma input_received qt now k s bits :
  fic_ok qt s -> fic_clean s -> 0 <= k < 4 -> mIsRunning s = true -> fic_block bits -> heard_block bits (mFicViterbiSoftInput s) ->
  exists s', process_fic_input qt now k s = Some s' /\ fic_ok qt s' /\ fic_clean s' /\ mIsRunning s' = true /\
    forward qt now (fib_list 3 bits) (mpFibDecoder s) = Some (mpFibDecoder s') /\
    mFicValid s' = <[Z.to_nat k := true]> (mFicValid s) /\ mFibBitsEntireFrame s' = copy_at (mFibBitsEntireFrame s) (k * 768) bits.
Proof.
  intros Hok Hc Hk Hrun Hbl Hh. pose proof (block_recovered s bits Hc Hbl Hh) as Edec. unfold process_fic_input. assert (negb ((0 <=? k) && (k <? 4)) = false) as -> by lia. rewrite Hrun. cbv zeta.
  set (decoded := viterbi_frame _ _) in *. set (s2 := fic_statistics decoded (fic_depuncture s)).
  assert (same_buffers s s2) as H2 by (etrans; [apply fic_depuncture_buffers|apply fic_statistics_buffers]).
  assert (mpFibDecoder s2 = mpFibDecoder s /\ mFicDecodeSuccessRatio s2 = mFicDecodeSuccessRatio s) as [E1 E2] by apply fic_statistics_keeps.
  destruct (fic_statistics_rest decoded (fic_depuncture s)) as (E3 & E4 & E5). fold s2 in E3, E4, E5. clearbody s2 decoded.
  assert (mPRBS s2 = mPRBS s) as -> by apply H2. rewrite Edec. clear Edec.
  destruct (zforM_inv (fun i t => reachable qt (mpFibDecoder t) /\ 0 <= mFicDecodeSuccessRatio t <= 10 /\ forward qt now (fib_list i bits) (mpFibDecoder s) = Some (mpFibDecoder t) /\
      same_buffers s2 t /\ mFicValid t = <[Z.to_nat k := true]> (mFicValid s) /\ mFibBitsEntireFrame t = copy_at (mFibBitsEntireFrame s) (k * 768) bits /\ mViterbiBlock t = mViterbiBlock (fic_depuncture s))
    0 cFibPerFic (process_one_fib qt now k bits) (fic_store k bits s2)) as (s' & Es & Hr & Hq & Hf & Hsame & Hv & Hfr & Hvb); [unfold cFibPerFic; lia| | |].
  - destruct Hok as [Hre Hra _ _ _]. change (mpFibDecoder (fic_store k bits s2)) with (mpFibDecoder s2). change (mFicDecodeSuccessRatio (fic_store k bits s2)) with (mFicDecodeSuccessRatio s2).
    change (mFicValid (fic_store k bits s2)) with (<[Z.to_nat k := true]> (mFicValid s2)). change (mViterbiBlock (fic_store k bits s2)) with (mViterbiBlock s2).
    change (mFibBitsEntireFrame (fic_store k bits s2)) with (copy_at (mFibBitsEntireFrame s2) (k * 768) bits).
    rewrite E1, E2, E3, E4, E5. split; [done|]. split; [done|]. split; [done|]. split; [apply fic_store_buffers|]. done.
  - intros i t Hi (Hr & Hq & Hf & Hsame & Hv & Hfr & Hvb). rewrite process_one_fib_cases. destruct Hbl as (Hb & Hl & Hcrc). unfold cFibPerFic in Hi.
    rewrite forallb_forall in Hcrc. rewrite (Hcrc (slice bits (i * 256) 256)) by (unfold fib_list; apply in_map_iff; exists i; split; [done|apply in_seqZ; lia]).
    destruct (process_FIB_ok qt now (slice bits (i * 256) 256) (mpFibDecoder t) ltac:(by apply Forall_slice) (reachable_ok _ _ Hr)) as (fd & Ep & _). rewrite Ep. cbn [mbind option_bind].
    eexists. split; [reflexivity|]. destruct (accept_fib_spec (slice bits (i * 256) 256) fd t) as (Hb1 & -> & -> & ->). destruct (accept_fib_rest (slice bits (i * 256) 256) fd t) as (-> & ->).
    split; [eapply reachable_step; [exact Hr|]; eapply step_process_FIB; [by apply Forall_slice|exact Ep]|]. split; [lia|]. split; [|split; [by etrans|done]].
    assert (fib_list (i + 1) bits = fib_list i bits ++ [slice bits (i * 256) 256]) as -> by (unfold fib_list; rewrite seqZ_app by lia; by rewrite map_app).
    rewrite forward_snoc, Hf. exact Ep.
  - exists s'. split; [exact Es|]. assert (same_buffers s s') as Hss by (etrans; [exact H2|exact Hsame]). split; [by apply (fic_ok_same qt s)|].
    split; [|split; [destruct Hss as (_ & _ & _ & _ & _ & _ & Hx & _); by rewrite Hx|done]]. destruct Hc as [C1 C2 [C3 C4] C5].
    destruct Hss as (_ & _ & _ & Ha & _ & Hp & _ & Hlb & _). destruct fic_flags_count as [Hfl _]. destruct (ones_at_ok 0 0 fic_flags 3096 ltac:(lia) ltac:(lia)) as [Hso Hra].
    cbn [viterbiBlockAddresses viterbiBlock] in *. rewrite zlen_zeros in Hra by lia.
    split; [rewrite Ha; exact C1|rewrite Hp; exact C2| |rewrite Hfr, zlen_copy_at; exact C5].
    rewrite Hvb. unfold fic_depuncture. cbn [mViterbiBlock set_mViterbiBlock]. rewrite C1. rewrite <- C3 in Hra. destruct (depuncture_spec _ (mFicViterbiSoftInput s) _ Hso Hra) as (L1 & _ & A1).
    split; [by rewrite L1|]. intros a Hna. by rewrite A1, C4.
Qed.

(** ** A frame *)
Lemma forward_app qt now a b st : forward qt now (a ++ b) st = s ← forward qt now a st; forward qt now b s.
Proof. unfold forward. rewrite fold_left_app. destruct (fold_left _ a _) as [s|]; [done|]. apply fold_bind_None. Qed.

Lemma valid_after (v : list bool) i : 0 <= i -> (Z.to_nat i < length v)%nat -> take (Z.to_nat i) v = replicate (Z.to_nat i) true ->
  take (Z.to_nat (i + 1)) (<[Z.to_nat i := true]> v) = replicate (Z.to_nat (i + 1)) true.
Proof.
  intros Hi Hl Ht. replace (Z.to_nat (i + 1)) with (S (Z.to_nat i)) by lia. rewrite (take_S_r _ _ true) by (by rewrite list_lookup_insert_eq by lia).
  rewrite take_insert_ge, Ht by lia. change [true] with (replicate 1 true). rewrite <- replicate_add. f_equal. lia.
Qed.

Definition sent_fibs (blocks : Z -> list Z) (n : Z) : list (list Z) := flat_map (fun k => fib_list 3 (blocks k)) (seqZ 0 n).

(** What holds after [i] of the blocks. *)
Record received (qt : QtText) (now : Z) (blocks : Z -> list Z) (s0 : FicDecoder) (i : Z) (s : FicDecoder) : Prop := {
  rc_ok : fic_ok qt s;
  rc_clean : fic_clean s;
  rc_running : mIsRunning s = true;
  rc_fibs : forward qt now (sent_fibs blocks i) (mpFibDecoder s0) = Some (mpFibDecoder s);
  rc_valid : take (Z.to_nat i) (mFicValid s) = replicate (Z.to_nat i) true;
  rc_frame : exists rest, mFibBitsEntireFrame s = concat (map blocks (seqZ 0 i)) ++ rest
}.

Lemma blocks_zlen (blocks : Z -> list Z) i : 0 <= i -> (forall k, 0 <= k < i -> zlen (blocks k) = 768) -> zlen (concat (map blocks (seqZ 0 i))) = 768 * i.
Proof.
  intros Hi. rewrite <- (Z2Nat.id i) by done. induction (Z.to_nat i) as [|n IH]; intros H; [done|]. replace (Z.of_nat (S n)) with (Z.of_nat n + 1) in * by lia.
  rewrite seqZ_app, map_app, concat_app, zlen_app, IH by (lia || (intros; apply H; lia)). change (seqZ (0 + Z.of_nat n) 1) with [0 + Z.of_nat n]. cbn [map concat]. rewrite app_nil_r, H by lia. lia.
Qed.

Lemma block_received qt now blocks softbits s0 i s : 0 <= i < 4 -> zlen softbits = 9216 ->
  (forall k, 0 <= k < 4 -> fic_block (blocks k) /\ heard_block (blocks k) (slice softbits (2304 * k) 2304)) ->
  received qt now blocks s0 i s -> exists s', fic_block_step qt now softbits i s = Some s' /\ received qt now blocks s0 (i + 1) s'.
Proof.
  intros Hi Hz Hb [Hok Hc Hr Hf Hv [rest Hfr]]. destruct (Hb i Hi) as [Hbl Hh]. unfold fic_block_step. set (s1 := set_indices 2304 i (set_softInput (slice softbits (2304 * i) 2304) s)).
  assert (zlen (slice softbits (2304 * i) 2304) = 2304) as Hs by (apply zlen_slice; lia).
  destruct (input_received qt now i s1 (blocks i)) as (s' & E & Hok' & Hc' & Hr' & Hf' & Hv' & Hfr'); [destruct Hok; split; assumption|apply (fic_clean_input 2304 i (slice softbits (2304 * i) 2304) true s Hc)|exact Hi|exact Hr|exact Hbl|exact Hh|].
  rewrite E. cbn [mbind option_bind]. eexists. split; [reflexivity|]. change (mFicValid s1) with (mFicValid s) in Hv'. change (mFibBitsEntireFrame s1) with (mFibBitsEntireFrame s) in Hfr'. change (mpFibDecoder s1) with (mpFibDecoder s) in Hf'.
  clearbody s1. assert (zlen (concat (map blocks (seqZ 0 i))) = 768 * i) as Lp by (apply blocks_zlen; [lia|]; intros k Hk; apply (Hb k); lia).
  split; cbn [mFicValid mFibBitsEntireFrame mpFibDecoder mIsRunning set_indices].
  - destruct Hok'; split; assumption.
  - apply (fic_clean_input 0 (i + 1) [] true s' Hc').
  - exact Hr'.
  - unfold sent_fibs. rewrite seqZ_app, flat_map_app, forward_app by lia. fold (sent_fibs blocks i). rewrite Hf. cbn [mbind option_bind].
    change (seqZ (0 + i) 1) with [0 + i]. cbn [flat_map]. by rewrite app_nil_r, Z.add_0_l.
  - rewrite Hv'. apply valid_after; [lia|rewrite (fic_valid qt s Hok); lia|done].
  - pose proof (fc_frame s Hc) as Lf. rewrite Hfr, zlen_app, Lp in Lf. exists (drop 768 rest). rewrite Hfr', Hfr. rewrite <- (take_drop 768 rest) at 1. replace (i * 768) with (zlen (concat (map blocks (seqZ 0 i)))) by lia.
    destruct Hbl as (_ & Lb & _). rewrite copy_at_middle by (unfold zlen in *; rewrite length_take; lia).
    rewrite seqZ_app, map_app, concat_app by lia. change (seqZ (0 + i) 1) with [0 + i]. cbn [map concat]. rewrite app_nil_r, Z.add_0_l. by rewrite <- app_assoc.
Qed.

Lemma frame_received qt now (blocks : Z -> list Z) (b1 b2 b3 : list Z) (s : FicDecoder) :
  fic_ok qt s -> fic_clean s -> mIsRunning s = true -> zlen b1 = 3072 -> zlen b2 = 3072 -> zlen b3 = 3072 ->
  (forall k, 0 <= k < 4 -> fic_block (blocks k) /\ heard_block (blocks k) (slice (b1 ++ b2 ++ b3) (2304 * k) 2304)) ->
  exists s', process_fic_symbols qt now b1 b2 b3 s = Some s' /\ received qt now blocks s 4 s'.
Proof.
  intros Hok Hc Hr H1 H2 H3 Hb. rewrite fic_symbols_blocks by (try done; apply (fic_soft qt s Hok)).
  apply (zforM_inv (received qt now blocks s)); [lia| |].
  - split; [destruct Hok; split; assumption|apply (fic_clean_input 0 0 [] true s Hc)|exact Hr|reflexivity|reflexivity|]. exists (mFibBitsEntireFrame s). reflexivity.
  - intros i t Hi Ht. apply (block_received qt now blocks (b1 ++ b2 ++ b3) s i t); [lia|rewrite !zlen_app; lia|done|done].
Qed.

(** C11: FIC reception end to end.  For any twelve FIBs with their CRCs, scrambled,
    encoded and punctured as the standard says, soft values with the right signs
    and a magnitude of 17 at least give the FIB decoder exactly these FIBs in
    their order, mark all four blocks valid, and leave the bits of the frame for
    the ETI generator; the decoder is ready for the next frame. *)
Theorem fic_reception (qt : QtText) (now : Z) (blocks : Z -> list Z) (b1 b2 b3 : list Z) (s : FicDecoder) :
  fic_ok qt s -> fic_clean s -> mIsRunning s = true -> zlen b1 = 3072 -> zlen b2 = 3072 -> zlen b3 = 3072 ->
  (forall k, 0 <= k < 4 -> fic_block (blocks k) /\ heard_block (blocks k) (slice (b1 ++ b2 ++ b3) (2304 * k) 2304)) ->
  exists s', process_fic_symbols qt now b1 b2 b3 s = Some s' /\ fic_ok qt s' /\ fic_clean s' /\
    forward qt now (sent_fibs blocks 4) (mpFibDecoder s) = Some (mpFibDecoder s') /\
    get_fib_bits s' = (concat (map blocks (seqZ 0 4)), replicate 4 true).
Proof.
  intros Hok Hc Hr H1 H2 H3 Hb. destruct (frame_received qt now blocks b1 b2 b3 s Hok Hc Hr H1 H2 H3 Hb) as (s' & E & [Ho Hcl _ Hf Hv [rest Hfr]]).
  exists s'. split; [exact E|]. split; [done|]. split; [done|]. split; [done|]. unfold get_fib_bits. f_equal.
  - pose proof (fc_frame s' Hcl) as L. rewrite Hfr, zlen_app, blocks_zlen in L; [|lia|intros k Hk; apply (Hb k); lia].
    destruct rest; [by rewrite Hfr, app_nil_r|unfold zlen in L; cbn [length] in L; lia].
  - change (replicate 4 true) with (replicate (Z.to_nat 4) true). rewrite <- Hv. symmetry. apply take_ge. rewrite (fic_valid qt s' Ho). done.
Qed.

(** A FIB that is empty but for its end mark, with the CRC of the standard. *)
Definition sample_fib : list Z := repeat 1 8 ++ zeros 232 ++ msb 16 (calc_crc (0xFF :: zeros 29) 30).
Definition sample_block (k : Z) : list Z := sample_fib ++ sample_fib ++ sample_fib.
Definition sample_fic : list Z := map (fun c => if c =? 1 then 40 else -33) (fic_air (sample_block 0)).

Lemma sample_fic_heard k : 0 <= k < 4 -> fic_block (sample_block k) /\
  heard_block (sample_block k) (slice (concat (replicate 4 sample_fic)) (2304 * k) 2304).
Proof.
  intros Hk. split; [split; [apply forall_bits01|split]; vm_compute; reflexivity|].
  assert (zlen sample_fic = 2304) as L by (vm_compute; reflexivity).
  assert (slice (concat (replicate 4 sample_fic)) (2304 * k) 2304 = sample_fic) as ->.
  { assert (k = 0 \/ k = 1 \/ k = 2 \/ k = 3) as [->|[->|[->| ->]]] by lia; vm_compute; reflexivity. }
  intros j Hj. unfold sample_fic in *. rewrite zlen_map in L. change (sample_block k) with (sample_block 0). rewrite rd_map by lia. unfold soft_ok.
  destruct (rd (fic_air (sample_block 0)) j =? 1); reflexivity.
Qed.

Lemma fic_reception_witness :
  let soft := concat (replicate 4 sample_fic) in
  exists s', process_fic_symbols no_qt 0 (slice soft 0 3072) (slice soft 3072 3072) (slice soft 6144 3072) (set_running true FicDecoder_new) = Some s' /\
    fic_ok no_qt s' /\ fic_clean s' /\ forward no_qt 0 (sent_fibs sample_block 4) FibDecoder_new = Some (mpFibDecoder s') /\
    get_fib_bits s' = (concat (map sample_block (seqZ 0 4)), replicate 4 true).
Proof.
  apply (fic_reception no_qt 0 sample_block).
  - destruct (fic_ok_new no_qt). split; assumption.
  - apply (fic_clean_input 0 0 [] true FicDecoder_new fic_clean_new).
  - reflexivity.
  - vm_compute. reflexivity.
  - vm_compute. reflexivity.
  - vm_compute. reflexivity.
  - intros k Hk. assert (slice (concat (replicate 4 sample_fic)) 0 3072 ++ slice (concat (replicate 4 sample_fic)) 3072 3072 ++ slice (concat (replicate 4 sample_fic)) 6144 3072 = concat (replicate 4 sample_fic)) as ->
      by (vm_compute; reflexivity). exact (sample_fic_heard k Hk).
Defined.
