(* ===== verification/MotObject.v ===== *)
(** * MOT objects (src/src/base/backend/data/mot/mot_object.cpp)

    A MOT object (a slide, an EPG file) arrives as a header and numbered body
    segments, in any order and repeatedly.  [MotObject] is the class with its
    members; the signals it emits are returned as [mot_event]s.  [set_header]
    and [add_body_segment] return [None] when the code reads outside the
    segment it was handed. *)
From S2P Require Import Prelude BitExtractors BitFields Checked.
From stdpp Require Import sorting.
Open Scope Z_scope.

(** ** mot_content_types.h *)
Definition MOTCTBaseTypeMask : Z := 0x3f00.
Definition MOTCTSubTypeMask : Z := 0x00ff.
Definition MOTBaseTypeImage : Z := 0x02.
Definition getContentBaseType (ct : Z) : Z := Z.shiftr (Z.land ct MOTCTBaseTypeMask) 8.

(** ** Data *)
Record SHeaderCore := mk_core {
  initialized : bool;
  bodySize : Z;         (* 28 bits *)
  headerSize : Z;       (* 13 bits *)
  contentType : Z;      (* 6 bits *)
  contentSubType : Z    (* 9 bits *)
}.
Definition empty_core : SHeaderCore := mk_core false 0 0 0 0.

Definition get_content_type (h : SHeaderCore) : Z :=
  Z.lor (Z.land (Z.shiftl (contentType h) 8) MOTCTBaseTypeMask) (Z.land (contentSubType h) MOTCTSubTypeMask).

(** [std::map<i32, QByteArray>]: key-ordered, so that iterating it gives the
    segments by number. *)
Definition seg_map := list (Z * list Z).
Fixpoint seg_find (k : Z) (m : seg_map) : option (list Z) :=
  match m with
  | [] => None
  | (k', v) :: m => if k =? k' then Some v else seg_find k m
  end.
Fixpoint seg_emplace (k : Z) (v : list Z) (m : seg_map) : seg_map :=
  match m with
  | [] => [(k, v)]
  | (k', v') :: m' =>
      if k <? k' then (k, v) :: m
      else if k =? k' then m
      else (k', v') :: seg_emplace k v m'
  end.

Record MotObject := mkMot {
  mIsDirElement : bool;
  mIsPadElement : bool;
  mMotMap : seg_map;
  mHeaderCore : SHeaderCore;
  mName : list Z;
  mTransportId : Z;     (* -1 = not yet set *)
  mNumOfSegments : Z;
  mStartSegment : Z;
  mProgressMax : Z;
  mSumSegmentSize : Z
}.

Inductive mot_event :=
  | signal_new_mot_object (oData oName : list Z) (oContentType : Z) (oDirElement : bool)
  | signal_pad_mot_progress (oPercent : Z).

Definition MotObject_empty (iDirElement iPadElement : bool) : MotObject :=
  mkMot iDirElement iPadElement [] empty_core [] (-1) (-1) (-1) (-1) 0.

Definition on_mName (f : list Z -> list Z) (o : MotObject) : MotObject :=
  mkMot (mIsDirElement o) (mIsPadElement o) (mMotMap o) (mHeaderCore o) (f (mName o)) (mTransportId o)
    (mNumOfSegments o) (mStartSegment o) (mProgressMax o) (mSumSegmentSize o).
Definition set_mTransportId (t : Z) (o : MotObject) : MotObject :=
  mkMot (mIsDirElement o) (mIsPadElement o) (mMotMap o) (mHeaderCore o) (mName o) t
    (mNumOfSegments o) (mStartSegment o) (mProgressMax o) (mSumSegmentSize o).
Definition set_mHeaderCore (h : SHeaderCore) (o : MotObject) : MotObject :=
  mkMot (mIsDirElement o) (mIsPadElement o) (mMotMap o) h (mName o) (mTransportId o)
    (mNumOfSegments o) (mStartSegment o) (mProgressMax o) (mSumSegmentSize o).

(** Everything but the transport id, which the callers set. *)
Definition MotObject_reset (o : MotObject) : MotObject :=
  mkMot (mIsDirElement o) (mIsPadElement o) [] empty_core [] (mTransportId o) (-1) (-1) (-1) 0.

Definition get_header_size (o : MotObject) : Z :=
  if negb (initialized (mHeaderCore o)) then 0 else headerSize (mHeaderCore o).

(** ** Completion *)
Definition check_if_complete (o : MotObject) : bool :=
  if negb (initialized (mHeaderCore o)) then false
  else if mNumOfSegments o <? 0 then false
  else if i16 (zlen (mMotMap o)) <? mNumOfSegments o then false
  else
    let missed := zfor 0 (mNumOfSegments o) (fun i missed =>
      match seg_find i (mMotMap o) with None => true | Some _ => missed end) false in
    negb missed.

(** [QString::number]: the decimal digits of an [i32], at most ten. *)
Fixpoint digits (fuel : nat) (n : Z) (acc : list Z) : list Z :=
  match fuel with
  | O => acc
  | S fuel => let acc := (48 + n mod 10) :: acc in if n <? 10 then acc else digits fuel (n / 10) acc
  end.
Definition QString_number (n : Z) : list Z := if n <? 0 then 45 :: digits 10 (- n) [] else digits 10 n [].

Definition trid_prefix : list Z := [116; 114; 105; 100; 95].  (* "trid_" *)

Definition handle_complete (o : MotObject) : option (MotObject * list mot_event) :=
  if negb (initialized (mHeaderCore o)) then None (* assert *)
  else
    let result := concat (map snd (mMotMap o)) in
    let o := match mName o with
             | [] => on_mName (fun _ => trid_prefix ++ QString_number (mTransportId o)) o
             | _ => o
             end in
    Some (o, [signal_new_mot_object result (mName o) (get_content_type (mHeaderCore o)) (mIsDirElement o)]).

(** ** The header *)
Definition skipped_params : list Z := [0x02; 0x03; 0x04; 0x05; 0x06; 0x07; 0x08; 0x0A; 0x0B; 0x0F].

(** The second component is [ioPointer]. *)
Definition process_parameter_id (ipSegment : list Z) (ioPointer iParamId iLength : Z) (o : MotObject)
  : option (MotObject * Z) :=
  if iParamId =? 0x0C then
    chars ← zforM 0 (iLength - 1) (fun i name => c ← get ipSegment (ioPointer + i + 1); Some (name ++ [c])) [];
    Some (on_mName (fun _ => chars) o, ioPointer + iLength)
  else if existsb (Z.eqb iParamId) skipped_params then Some (o, ioPointer)
  else Some (o, ioPointer + iLength).

Definition process_header_extension (iSegment : list Z) (ioPointer : Z) (o : MotObject) : option (MotObject * Z) :=
  b ← get iSegment ioPointer;
  let PLI := Z.shiftr (Z.land b 0xC0) 6 in
  let paramId := Z.land b 0x3F in
  if PLI =? 0 then Some (o, ioPointer + 1)
  else if PLI =? 1 then Some (o, ioPointer + 2)
  else if PLI =? 2 then Some (o, ioPointer + 5)
  else if PLI =? 3 then
    l1 ← get iSegment (ioPointer + 1);
    if negb (Z.land l1 0x80 =? 0) then
      l2 ← get iSegment (ioPointer + 2);
      process_parameter_id iSegment (ioPointer + 3) paramId (u16 (Z.lor (Z.shiftl (Z.land l1 0x7F) 8) l2)) o
    else process_parameter_id iSegment (ioPointer + 2) paramId (Z.land l1 0x7F) o
  else Some (o, ioPointer).

(** [while (pointer < headerSize)]: every pass moves the pointer, so that
    [headerSize] passes are enough ([header_loop_fuel]). *)
Fixpoint header_loop (fuel : nat) (iSegment : list Z) (pointer : Z) (o : MotObject) : option (MotObject * Z) :=
  match fuel with
  | O => None
  | S fuel =>
      if pointer <? headerSize (mHeaderCore o) then
        r ← process_header_extension iSegment pointer o;
        header_loop fuel iSegment (snd r) (fst r)
      else Some (o, pointer)
  end.

(** The core occupies seven bytes. *)
Definition read_header_core (iSegment : list Z) : option SHeaderCore :=
  inside iSegment 0 7
    (mk_core true
      (i32 (extract_bits_from_byte_stream iSegment (55 - 55) 28))
      (i32 (extract_bits_from_byte_stream iSegment (55 - 27) 13))
      (i32 (extract_bits_from_byte_stream iSegment (55 - 14) 6))
      (i32 (extract_bits_from_byte_stream iSegment (55 - 8) 9))).

Definition finish_if_complete (o : MotObject) : option (MotObject * list mot_event) :=
  if check_if_complete o then handle_complete o else Some (o, []).

Definition set_header (iSegment : list Z) (iSegmentSize : Z) (iLastFlag : bool) (iTransportId : Z) (o : MotObject)
  : option (MotObject * list mot_event) :=
  let o := if negb (mTransportId o =? iTransportId) then MotObject_reset o else o in
  let o := set_mTransportId iTransportId o in
  core ← read_header_core iSegment;
  let o := set_mHeaderCore core o in
  r ← header_loop (Z.to_nat (headerSize core) + 1) iSegment 7 o;
  finish_if_complete (fst r).

(** The constructor that gets a first header segment. *)
Definition MotObject_new (iDirElement iPadElement : bool) (iTransportId : Z) (ipSegment : list Z)
  (iSegmentSize : Z) (iLastFlag : bool) : option (MotObject * list mot_event) :=
  set_header ipSegment iSegmentSize iLastFlag iTransportId (MotObject_empty iDirElement iPadElement).

(** ** The body *)
Definition progress_event (o : MotObject) : list mot_event :=
  if mIsPadElement o && (0 <? bodySize (mHeaderCore o)) &&
     (getContentBaseType (get_content_type (mHeaderCore o)) =? MOTBaseTypeImage)
  then
    let loadedPart := Z.quot (i32 (100 * mSumSegmentSize o)) (bodySize (mHeaderCore o)) in
    [signal_pad_mot_progress (if 100 <? loadedPart then 100 else loadedPart)]
  else [].

(** The bookkeeping after a new segment was stored. *)
Definition store_segment (segment : list Z) (iSegmentNumber iSegmentSize : Z) (iLastFlag : bool) (o : MotObject)
  : MotObject :=
  let num := if iLastFlag then iSegmentNumber + 1 else mNumOfSegments o in
  mkMot (mIsDirElement o) (mIsPadElement o) (seg_emplace iSegmentNumber segment (mMotMap o)) (mHeaderCore o)
    (mName o) (mTransportId o) num
    (if mStartSegment o <? 0 then iSegmentNumber else mStartSegment o)
    (if (0 <? num) && (mProgressMax o <? 0) then num - 1 else mProgressMax o)
    (i32 (mSumSegmentSize o + iSegmentSize)).

Definition add_body_segment (iBodySegment : list Z) (iSegmentNumber iSegmentSize : Z) (iLastFlag : bool)
  (iTransportId : Z) (o : MotObject) : option (MotObject * list mot_event) :=
  if (iSegmentNumber <? 0) || (8192 <=? iSegmentNumber) then Some (o, [])
  else
    let o := if negb (mTransportId o =? iTransportId) then set_mTransportId iTransportId (MotObject_reset o) else o in
    match seg_find iSegmentNumber (mMotMap o) with
    | Some _ => Some (o, [])
    | None =>
        segment ← getn iBodySegment 0 iSegmentSize;
        let o := store_segment segment iSegmentNumber iSegmentSize iLastFlag o in
        r ← finish_if_complete o;
        Some (fst r, progress_event o ++ snd r)
    end.

(** ** The segment map *)
Definition seg_sorted (m : seg_map) : Prop := StronglySorted Z.lt (map fst m).

Lemma seg_find_emplace k v k' m :
  seg_find k m = None -> seg_find k' (seg_emplace k v m) = if k' =? k then Some v else seg_find k' m.
Proof.
  induction m as [|[k1 v1] m IH]; intros H; [done|]. cbn [seg_find seg_emplace] in *.
  destruct (Z.eqb_spec k k1) as [->|Hne]; [done|]. destruct (Z.ltb_spec k k1); cbn [seg_find]; [done|].
  rewrite IH by done. destruct (Z.eqb_spec k' k1) as [->|]; [|done]. by destruct (Z.eqb_spec k1 k).
Qed.

Lemma seg_find_In k m : is_Some (seg_find k m) <-> In k (map fst m).
Proof.
  induction m as [|[k1 v1] m IH]; cbn [seg_find map In fst].
  - split; [by intros [? ?]|done].
  - destruct (Z.eqb_spec k k1) as [->|Hne]; [split; [by left|by eexists]|].
    rewrite IH. split; [by right|]. intros [->|?]; done.
Qed.

Lemma seg_emplace_In k v m k' : In k' (map fst (seg_emplace k v m)) -> k' = k \/ In k' (map fst m).
Proof.
  induction m as [|[k1 v1] m IH]; cbn [seg_emplace map In fst]; [intuition|].
  destruct (Z.ltb_spec k k1); cbn [map In fst]; [intuition|].
  destruct (Z.eqb_spec k k1); cbn [map In fst]; intuition.
Qed.

Lemma seg_emplace_sorted k v m : seg_sorted m -> seg_sorted (seg_emplace k v m).
Proof.
  unfold seg_sorted. induction m as [|[k1 v1] m IH]; cbn [seg_emplace map fst]; intros H.
  - by repeat constructor.
  - apply StronglySorted_inv in H as [Hs Hf]. destruct (Z.ltb_spec k k1); cbn [map fst].
    { constructor; [by constructor|]. constructor; [done|].
      eapply List.Forall_impl; [|exact Hf]. cbn. lia. }
    destruct (Z.eqb_spec k k1); cbn [map fst]; [by constructor|].
    constructor; [by apply IH|]. apply List.Forall_forall. intros x Hx.
    apply seg_emplace_In in Hx as [->|Hx]; [lia|]. by eapply List.Forall_forall in Hf.
Qed.

(** A sorted map that holds exactly the keys [0 .. n-1] lists the segments in
    order. *)
Lemma seg_sorted_NoDup m : seg_sorted m -> NoDup (map fst m).
Proof.
  unfold seg_sorted. generalize (map fst m). induction 1 as [|x l Hs IH Hf]; constructor; [|done].
  rewrite list_elem_of_In. intros Hx. eapply List.Forall_forall in Hf; [|exact Hx]. lia.
Qed.

Lemma seqZ_sorted n a : StronglySorted Z.lt (seqZ a n).
Proof.
  destruct (Z.le_gt_cases n 0); [rewrite seqZ_nil by lia; constructor|].
  revert a. pattern n. apply natlike_ind; [..|lia].
  - intros a. rewrite seqZ_nil by lia. constructor.
  - intros k Hk IH a. rewrite seqZ_cons by lia. replace (Z.pred (Z.succ k)) with k by lia.
    constructor; [apply IH|]. apply List.Forall_forall. intros x Hx. apply in_seqZ in Hx. lia.
Qed.

Lemma seg_keys_complete m n :
  seg_sorted m -> (forall k, is_Some (seg_find k m) <-> 0 <= k < n) -> map fst m = seqZ 0 n.
Proof.
  intros Hs Hk. apply (StronglySorted_unique_strong Z.lt); [intros; lia|done|apply seqZ_sorted|].
  apply NoDup_Permutation; [by apply seg_sorted_NoDup|apply NoDup_seqZ|].
  intros x. rewrite list_elem_of_In, <- seg_find_In, Hk, elem_of_seqZ. lia.
Qed.

Lemma seg_values m (f : Z -> list Z) :
  seg_sorted m -> (forall k v, seg_find k m = Some v -> v = f k) -> map snd m = map f (map fst m).
Proof.
  unfold seg_sorted. induction m as [|[k v] m IH]; intros Hs H; [done|]. cbn [map fst snd] in *.
  apply StronglySorted_inv in Hs as [Hs Hf]. f_equal.
  - apply H. cbn [seg_find]. by rewrite Z.eqb_refl.
  - apply IH; [done|]. intros k' v' E. apply H. cbn [seg_find]. destruct (Z.eqb_spec k' k) as [->|]; [|done].
    exfalso. assert (In k (map fst m)) as Hin by (apply seg_find_In; by eexists).
    eapply List.Forall_forall in Hf; [|exact Hin]. lia.
Qed.

(** ** Completion *)
Lemma missed_loop m n :
  0 <= n -> zfor 0 n (fun i missed => match seg_find i m with None => true | Some _ => missed end) false = false <->
  forall i, 0 <= i < n -> is_Some (seg_find i m).
Proof.
  intros Hn. apply (zfor_inv (fun n r => r = false <-> forall i, 0 <= i < n -> is_Some (seg_find i m))).
  - done.
  - split; [intros _ i Hi; lia|done].
  - intros j r Hj IH. destruct (seg_find j m) as [v|] eqn:E.
    + rewrite IH. split; [|intros H i Hi; apply H; lia]. intros H i Hi.
      destruct (Z.eq_dec i j) as [->|]; [by rewrite E|apply H; lia].
    + split; [done|]. intros H. destruct (H j ltac:(lia)) as [v Hv]. by rewrite E in Hv.
Qed.

Lemma check_if_complete_spec o :
  check_if_complete o = true <->
  initialized (mHeaderCore o) = true /\ 0 <= mNumOfSegments o <= i16 (zlen (mMotMap o)) /\
  forall i, 0 <= i < mNumOfSegments o -> is_Some (seg_find i (mMotMap o)).
Proof.
  unfold check_if_complete. destruct (initialized (mHeaderCore o)); cbn [negb]; [|split; [done|by intros [? _]]].
  destruct (Z.ltb_spec (mNumOfSegments o) 0); [split; [done|intros (_ & ? & _); lia]|].
  destruct (Z.ltb_spec (i16 (zlen (mMotMap o))) (mNumOfSegments o)); [split; [done|intros (_ & ? & _); lia]|].
  rewrite negb_true_iff, missed_loop by done. split; [intros Hm; split_and!; done|by intros (_ & _ & ?)].
Qed.

(** ** The header loop *)
Lemma process_parameter_pointer seg p id len o o' p' :
  0 <= len -> process_parameter_id seg p id len o = Some (o', p') ->
  p <= p' /\ mHeaderCore o' = mHeaderCore o.
Proof.
  intros Hl. unfold process_parameter_id. case_match.
  - destruct (zforM _ _ _ _); cbn [mbind option_bind]; [|done]. intros [= <- <-]. split; [lia|done].
  - case_match; intros [= <- <-]; (split; [lia|done]).
Qed.

Lemma process_header_extension_pointer seg p o o' p' :
  process_header_extension seg p o = Some (o', p') -> p < p' /\ mHeaderCore o' = mHeaderCore o.
Proof.
  unfold process_header_extension. destruct (get seg p) as [b|]; cbn [mbind option_bind]; [|done].
  assert (0 <= Z.shiftr (Z.land b 0xC0) 6 <= 3) as Hpli.
  { pose proof (land_range 8 b 0xC0 ltac:(lia) ltac:(lia)) as Hr. rewrite Z.shiftr_div_pow2 by lia.
    split; [apply Z.div_pos; lia|]. apply Z.lt_succ_r, Z.div_lt_upper_bound; lia. }
  zcases; try (intros [= <- <-]; split; [lia|done]).
  destruct (get seg (p + 1)) as [l1|]; cbn [mbind option_bind]; [|done].
  pose proof (land_range 7 l1 0x7F ltac:(lia) ltac:(lia)). case_match.
  - destruct (get seg (p + 2)) as [l2|]; cbn [mbind option_bind]; [|done].
    intros E. apply process_parameter_pointer in E as [? ?]; [split; [lia|done]|].
    apply (uwrap_range 16). lia.
  - intros E. apply process_parameter_pointer in E as [? ?]; [split; [lia|done]|lia].
Qed.

(** More fuel than header bytes does not change the result: [None] is an
    access outside the segment, never exhausted fuel. *)
Lemma header_loop_fuel f1 f2 seg p o :
  headerSize (mHeaderCore o) - p < Z.of_nat f1 -> headerSize (mHeaderCore o) - p < Z.of_nat f2 ->
  0 < Z.of_nat f1 -> 0 < Z.of_nat f2 -> header_loop f1 seg p o = header_loop f2 seg p o.
Proof.
  revert f2 p o. induction f1 as [|f1 IH]; intros [|f2] p o H1 H2 H3 H4; [lia..|]. cbn [header_loop].
  destruct (Z.ltb_spec p (headerSize (mHeaderCore o))); [|done].
  destruct (process_header_extension seg p o) as [[o' p']|] eqn:E; cbn [mbind option_bind fst snd]; [|done].
  apply process_header_extension_pointer in E as [Hp Hc]. apply IH; rewrite ?Hc; lia.
Qed.

(** ** Encoded headers (EN 301 234, 6.2) *)
Inductive mot_param :=
  | Param0 (id : Z)                      (* no data *)
  | Param1 (id b : Z)                    (* one byte *)
  | Param4 (id : Z) (b : list Z)         (* four bytes *)
  | ContentName (charset : Z) (name : list Z)
  | ParamN (id : Z) (b : list Z).        (* length field *)

(** Seven-bit length fields, or fifteen bits with the extension flag. *)
Definition enc_length (n : Z) : list Z := if n <? 128 then [n] else [128 + n / 256; n mod 256].

Definition enc_param (p : mot_param) : list Z :=
  match p with
  | Param0 id => [id]
  | Param1 id b => [64 + id; b]
  | Param4 id b => (128 + id) :: b
  | ContentName cs name => (192 + 12) :: enc_length (1 + zlen name) ++ cs :: name
  | ParamN id b => (192 + id) :: enc_length (zlen b) ++ b
  end.

Definition param_ok (p : mot_param) : Prop :=
  match p with
  | Param0 id | Param1 id _ => 0 <= id < 64
  | Param4 id b => 0 <= id < 64 /\ zlen b = 4
  | ContentName _ name => zlen name < 32767
  | ParamN id b => 0 <= id < 64 /\ id <> 12 /\ existsb (Z.eqb id) skipped_params = false /\ zlen b < 32768
  end.

Definition param_name (p : mot_param) (n : list Z) : list Z :=
  match p with ContentName _ name => name | _ => n end.
Definition params_name (ps : list mot_param) (n : list Z) : list Z := foldl (fun n p => param_name p n) n ps.

(** The first byte of a parameter. *)
Lemma pli_id pli id : 0 <= pli < 4 -> 0 <= id < 64 ->
  Z.shiftr (Z.land (64 * pli + id) 0xC0) 6 = pli /\ Z.land (64 * pli + id) 0x3F = id.
Proof.
  intros Hp Hi. assert (forallb (fun pli => forallb (fun id =>
    (Z.shiftr (Z.land (64 * pli + id) 0xC0) 6 =? pli) && (Z.land (64 * pli + id) 0x3F =? id)) (seqZ 0 64)) (seqZ 0 4) = true)
    as H by (vm_compute; reflexivity).
  pose proof (forall_range 4 _ H pli Hp) as H1. cbv beta in H1. pose proof (forall_range 64 _ H1 id Hi) as H2.
  cbv beta in H2. zbool. done.
Qed.

Lemma name_loop pre name k p n :
  zlen pre = p -> zlen name = n ->
  zforM 0 n (fun i acc => c ← get (pre ++ name ++ k) (p - 1 + i + 1); Some (acc ++ [c])) [] = Some name.
Proof.
  intros <- <-. pose proof (zlen_nonneg name) as Hn.
  destruct (zforM_inv (fun i acc => acc = slice name 0 i) 0 (zlen name)
    (fun i acc => c ← get (pre ++ name ++ k) (zlen pre - 1 + i + 1); Some (acc ++ [c])) []) as (r & E & ->); [done|done| |].
  - intros i acc Hi ->. replace (zlen pre - 1 + i + 1) with (zlen pre + i) by lia.
    rewrite get_app_r by lia. rewrite get_app_l, get_Some by lia. cbn [mbind option_bind].
    eexists. split; [done|]. by rewrite slice_snoc by lia.
  - rewrite E. f_equal. unfold slice, zlen. rewrite drop_0, Nat2Z.id. apply take_ge. lia.
Qed.

Lemma len_small n : 0 <= n < 128 -> Z.land n 0x80 = 0 /\ Z.land n 0x7F = n.
Proof.
  intros Hn. assert (forallb (fun n => (Z.land n 0x80 =? 0) && (Z.land n 0x7F =? n)) (seqZ 0 128) = true) as H
    by (vm_compute; reflexivity).
  pose proof (forall_range 128 _ H n Hn) as H1. cbv beta in H1. zbool. done.
Qed.

Lemma len_large h : 0 <= h < 128 -> Z.land (128 + h) 0x80 <> 0 /\ Z.land (128 + h) 0x7F = h.
Proof.
  intros Hn. assert (forallb (fun h => negb (Z.land (128 + h) 0x80 =? 0) && (Z.land (128 + h) 0x7F =? h)) (seqZ 0 128) = true)
    as H by (vm_compute; reflexivity).
  pose proof (forall_range 128 _ H h Hn) as H1. cbv beta in H1. zbool. done.
Qed.

Lemma get_here pre x k : get (pre ++ x :: k) (zlen pre) = Some x.
Proof.
  replace (zlen pre) with (zlen pre + 0) by lia. rewrite get_app_r by lia. apply get_Some.
  change (x :: k) with ([x] ++ k). rewrite zlen_app. pose proof (zlen_nonneg k). change (zlen [x]) with 1. lia.
Qed.

Lemma get_next pre x y k : get (pre ++ x :: y :: k) (zlen pre + 1) = Some y.
Proof.
  change (x :: y :: k) with ([x] ++ y :: k). rewrite app_assoc.
  replace (zlen pre + 1) with (zlen (pre ++ [x])) by (rewrite zlen_app; done). apply get_here.
Qed.

Lemma get_after pre x y z k : get (pre ++ x :: y :: z :: k) (zlen pre + 2) = Some z.
Proof.
  change (x :: y :: z :: k) with ([x] ++ y :: z :: k). rewrite app_assoc.
  replace (zlen pre + 2) with (zlen (pre ++ [x]) + 1) by (rewrite zlen_app; change (zlen [x]) with 1; lia).
  apply get_next.
Qed.

(** A parameter with a length field. *)
Lemma extension_with_length pre id n rest o :
  0 <= id < 64 -> 0 <= n < 32768 ->
  process_header_extension (pre ++ (192 + id) :: enc_length n ++ rest) (zlen pre) o =
  process_parameter_id (pre ++ (192 + id) :: enc_length n ++ rest) (zlen pre + 1 + zlen (enc_length n)) id n o.
Proof.
  intros Hid Hn. destruct (pli_id 3 id ltac:(lia) Hid) as [Hp Hi]. change (64 * 3) with 192 in *.
  unfold process_header_extension. rewrite get_here. cbn [mbind option_bind]. rewrite Hp, Hi. cbn [Z.eqb Pos.eqb].
  unfold enc_length. destruct (Z.ltb_spec n 128).
  - cbn [app]. rewrite get_next. cbn [mbind option_bind]. destruct (len_small n) as [-> ->]; [lia|].
    cbn [Z.eqb negb]. f_equal. change (zlen [n]) with 1. lia.
  - cbn [app]. rewrite get_next. cbn [mbind option_bind].
    assert (0 <= n / 256 < 128) as Hh by (split; [apply Z.div_pos; lia|apply Z.div_lt_upper_bound; lia]).
    destruct (len_large _ Hh) as [H1 H2]. apply Z.eqb_neq in H1. rewrite H1. cbn [negb].
    rewrite get_after, H2. cbn [mbind option_bind]. f_equal; [change (zlen [_; _]) with 2; lia|].
    pose proof (Z.mod_pos_bound n 256 ltac:(lia)) as Hm. rewrite Z.shiftl_mul_pow2 by lia.
    rewrite (lor_add_disjoint 8) by (change (2 ^ 8) with 256; lia). change (2 ^ 8) with 256.
    rewrite uwrap_small; pose proof (Z.div_mod n 256); change (2 ^ 16) with 65536; lia.
Qed.

Definition set_mName (n : list Z) (o : MotObject) : MotObject := on_mName (fun _ => n) o.

Lemma set_mName_same o : set_mName (mName o) o = o.
Proof. by destruct o. Qed.

Lemma header_extension_param pre p k o :
  param_ok p ->
  process_header_extension (pre ++ enc_param p ++ k) (zlen pre) o =
  Some (set_mName (param_name p (mName o)) o, zlen pre + zlen (enc_param p)).
Proof.
  destruct p as [id|id b|id b|cs name|id b]; cbn [param_ok enc_param param_name app]; intros Hok; rewrite ?set_mName_same.
  - destruct (pli_id 0 id) as [Hp Hi]; [lia..|]. replace (64 * 0 + id) with id in Hp by lia.
    unfold process_header_extension. rewrite get_here. cbn [mbind option_bind]. by rewrite Hp.
  - destruct (pli_id 1 id) as [Hp Hi]; [lia..|]. change (64 * 1) with 64 in Hp.
    unfold process_header_extension. rewrite get_here. cbn [mbind option_bind]. by rewrite Hp.
  - destruct Hok as [Hid Hb]. destruct (pli_id 2 id) as [Hp Hi]; [lia..|]. change (64 * 2) with 128 in Hp.
    unfold process_header_extension. rewrite get_here. cbn [mbind option_bind]. rewrite Hp. cbn [Z.eqb Pos.eqb].
    change (zlen ((128 + id) :: b)) with (zlen ([128 + id] ++ b)). rewrite zlen_app, Hb. done.
  - pose proof (zlen_nonneg name). rewrite <- app_assoc. change ((cs :: name) ++ k) with (cs :: name ++ k).
    rewrite (extension_with_length pre 12) by lia. unfold process_parameter_id. cbn [Z.eqb Pos.eqb].
    set (L := enc_length (1 + zlen name)).
    replace (1 + zlen name - 1) with (zlen name) by lia.
    assert (pre ++ (192 + 12) :: L ++ cs :: name ++ k = (pre ++ [192 + 12] ++ L ++ [cs]) ++ name ++ k) as ->
      by (rewrite <- !app_assoc; done).
    assert (zlen pre + 1 + zlen L = zlen (pre ++ [192 + 12] ++ L ++ [cs]) - 1) as ->
      by (rewrite !zlen_app, !zlen_cons, !zlen_nil; lia).
    rewrite (name_loop _ name k _ (zlen name)) by done. cbn [mbind option_bind]. do 2 f_equal.
    rewrite ?zlen_app, ?zlen_cons, ?zlen_app, ?zlen_cons, ?zlen_nil. lia.
  - destruct Hok as (Hid & Hne & Hs & Hb). pose proof (zlen_nonneg b). rewrite <- app_assoc.
    rewrite extension_with_length by lia. unfold process_parameter_id. apply Z.eqb_neq in Hne. rewrite Hne, Hs.
    do 2 f_equal. rewrite zlen_cons, zlen_app. lia.
Qed.

Lemma enc_param_length p : param_ok p -> 1 <= zlen (enc_param p).
Proof. destruct p; cbn [enc_param]; intros _; rewrite zlen_cons; apply Z.le_sub_le_add_l, zlen_nonneg. Qed.

Lemma header_loop_params ps pre k o fuel :
  Forall param_ok ps -> headerSize (mHeaderCore o) = zlen pre + zlen (flat_map enc_param ps) ->
  zlen ps < Z.of_nat fuel ->
  header_loop fuel (pre ++ flat_map enc_param ps ++ k) (zlen pre) o =
  Some (set_mName (params_name ps (mName o)) o, headerSize (mHeaderCore o)).
Proof.
  revert pre o fuel. induction ps as [|p ps IH]; intros pre o [|fuel] Hok Hs Hf;
    [rewrite zlen_nil in Hf; lia| |rewrite zlen_cons in Hf; pose proof (zlen_nonneg ps); lia|].
  - cbn [header_loop flat_map] in *. rewrite zlen_nil, Z.add_0_r in Hs. rewrite Hs, Z.ltb_irrefl. f_equal.
    unfold params_name. cbn [foldl]. by rewrite set_mName_same.
  - apply Forall_cons_1 in Hok as [Hp Hok]. cbn [flat_map] in *. rewrite zlen_app in Hs.
    pose proof (enc_param_length p Hp). pose proof (zlen_nonneg (flat_map enc_param ps)). rewrite zlen_cons in Hf.
    cbn [header_loop]. destruct (Z.ltb_spec (zlen pre) (headerSize (mHeaderCore o))); [|lia].
    rewrite <- app_assoc, header_extension_param by done. cbn [mbind option_bind fst snd].
    rewrite app_assoc, <- zlen_app. rewrite IH; [|done|rewrite zlen_app; cbn; lia|lia]. done.
Qed.

(** The seven bytes of a header core. *)
Definition core_bytes (body hs ct sub : Z) (core : list Z) : Prop :=
  Forall is_byte core /\ unpack_bits core = msb 28 body ++ msb 13 hs ++ msb 6 ct ++ msb 9 sub.

Lemma core_bytes_length body hs ct sub core : core_bytes body hs ct sub core -> zlen core = 7.
Proof.
  intros [_ E]. apply (f_equal zlen) in E. rewrite zlen_unpack, !zlen_app, !zlen_msb in E by lia. lia.
Qed.

Lemma core_field core rest off n v pre post :
  Forall is_byte (core ++ rest) -> zlen core = 7 -> unpack_bits core = pre ++ msb n v ++ post -> zlen pre = off ->
  0 < n <= 28 -> 0 <= v < 2 ^ n -> i32 (extract_bits_from_byte_stream (core ++ rest) off n) = v.
Proof.
  intros Hb Hc E Ho Hn Hv. pose proof (zlen_nonneg pre). pose proof (zlen_nonneg post). pose proof (zlen_nonneg rest).
  pose proof (f_equal zlen E) as El. rewrite zlen_unpack, !zlen_app, zlen_msb in El by lia.
  rewrite extract_bits_field by (done || rewrite ?zlen_app; lia).
  rewrite (field_stands _ off n v); [|lia|done|].
  - apply i32_small. assert (2 ^ n <= 2 ^ 28) by (apply Z.pow_le_mono_r; lia). lia.
  - rewrite unpack_app, E. intros i Hi. rewrite <- !app_assoc. rewrite rd_app_r by lia.
    replace (off + i - zlen pre) with i by lia. apply rd_app_l. lia.
Qed.

Lemma read_core body hs ct sub core rest :
  core_bytes body hs ct sub core -> Forall is_byte rest ->
  0 <= body < 2 ^ 28 -> 0 <= hs < 2 ^ 13 -> 0 <= ct < 2 ^ 6 -> 0 <= sub < 2 ^ 9 ->
  read_header_core (core ++ rest) = Some (mk_core true body hs ct sub).
Proof.
  intros Hc Hr H1 H2 H3 H4. pose proof (core_bytes_length _ _ _ _ _ Hc) as Hl. destruct Hc as [Hb E].
  assert (Forall is_byte (core ++ rest)) as Hall by (apply Forall_app; by split).
  unfold read_header_core. rewrite inside_Some by (rewrite ?zlen_app; pose proof (zlen_nonneg rest); lia).
  assert (unpack_bits core = [] ++ msb 28 body ++ (msb 13 hs ++ msb 6 ct ++ msb 9 sub)) as E1 by done.
  assert (unpack_bits core = msb 28 body ++ msb 13 hs ++ (msb 6 ct ++ msb 9 sub)) as E2 by done.
  assert (unpack_bits core = (msb 28 body ++ msb 13 hs) ++ msb 6 ct ++ msb 9 sub) as E3 by (by rewrite <- app_assoc).
  assert (unpack_bits core = (msb 28 body ++ msb 13 hs ++ msb 6 ct) ++ msb 9 sub ++ []) as E4
    by (by rewrite app_nil_r, <- !app_assoc).
  rewrite (core_field _ _ _ _ _ _ _ Hall Hl E1), (core_field _ _ _ _ _ _ _ Hall Hl E2),
    (core_field _ _ _ _ _ _ _ Hall Hl E3), (core_field _ _ _ _ _ _ _ Hall Hl E4) by (done || lia). done.
Qed.

(** ** Delivery *)
Definition enter (tid : Z) (o : MotObject) : MotObject :=
  if negb (mTransportId o =? tid) then set_mTransportId tid (MotObject_reset o) else o.

Lemma enter_id tid o : mTransportId (enter tid o) = tid.
Proof. unfold enter. destruct (Z.eqb_spec (mTransportId o) tid); done. Qed.

Lemma enter_same tid o : mTransportId o = tid -> enter tid o = o.
Proof. unfold enter. intros ->. by rewrite Z.eqb_refl. Qed.

Lemma set_mTransportId_same o : set_mTransportId (mTransportId o) o = o.
Proof. by destruct o. Qed.

(** The parts of an object on air: its header segment and its body segments,
    every one of them followed by other bytes of its data group. *)
Inductive mot_part := PartHeader | PartSegment (k : Z).

Record mot_object_on_air := mk_on_air {
  air_tid : Z;
  air_body : Z; air_type : Z; air_subtype : Z;
  air_params : list mot_param;
  air_core : list Z;
  air_segs : list (list Z)
}.

Definition air_header_size (a : mot_object_on_air) : Z := 7 + zlen (flat_map enc_param (air_params a)).

Record on_air_ok (a : mot_object_on_air) : Prop := {
  air_core_ok : core_bytes (air_body a) (air_header_size a) (air_type a) (air_subtype a) (air_core a);
  air_body_range : 0 <= air_body a < 2 ^ 28;
  air_size_range : air_header_size a < 2 ^ 13;
  air_type_range : 0 <= air_type a < 2 ^ 6;
  air_subtype_range : 0 <= air_subtype a < 2 ^ 9;
  air_params_ok : Forall param_ok (air_params a);
  air_params_bytes : Forall is_byte (flat_map enc_param (air_params a));
  air_segs_number : 1 <= zlen (air_segs a) <= 8192
}.

Definition air_seg (a : mot_object_on_air) (k : Z) : list Z := nth (Z.to_nat k) (air_segs a) [].
Definition air_header (a : mot_object_on_air) : SHeaderCore :=
  mk_core true (air_body a) (air_header_size a) (air_type a) (air_subtype a).

(** What the receiver does when a part arrives, with the memory that follows. *)
Definition arrive (a : mot_object_on_air) (tail : list Z) (p : mot_part) (o : MotObject)
  : option (MotObject * list mot_event) :=
  match p with
  | PartHeader => set_header (air_core a ++ flat_map enc_param (air_params a) ++ tail) (air_header_size a) true (air_tid a) o
  | PartSegment k =>
      add_body_segment (air_seg a k ++ tail) k (zlen (air_seg a k)) (k =? zlen (air_segs a) - 1) (air_tid a) o
  end.

(** Parts with what follows each of them in memory. *)
Fixpoint arrive_all (a : mot_object_on_air) (ps : list (mot_part * list Z)) (o : MotObject)
  : option (MotObject * list mot_event) :=
  match ps with
  | [] => Some (o, [])
  | (p, tail) :: ps =>
      r1 ← arrive a tail p o;
      r2 ← arrive_all a ps (fst r1);
      Some (fst r2, snd r1 ++ snd r2)
  end.

Definition is_part (a : mot_object_on_air) (p : mot_part) : Prop :=
  match p with PartHeader => True | PartSegment k => 0 <= k < zlen (air_segs a) end.
Definition part_ok (a : mot_object_on_air) (p : mot_part * list Z) : Prop := is_part a (fst p) /\ Forall is_byte (snd p).
Definition all_arrived (a : mot_object_on_air) (ps : list mot_part) : Prop :=
  In PartHeader ps /\ forall k, 0 <= k < zlen (air_segs a) -> In (PartSegment k) ps.

(** The name shown: that of the header, or one made of the transport id. *)
Definition air_name (a : mot_object_on_air) : list Z :=
  match params_name (air_params a) [] with [] => trid_prefix ++ QString_number (air_tid a) | n => n end.

Definition air_event (a : mot_object_on_air) (dir : bool) : mot_event :=
  signal_new_mot_object (concat (air_segs a)) (air_name a) (get_content_type (air_header a)) dir.

Definition objects (evs : list mot_event) : list mot_event :=
  List.filter (fun e => match e with signal_new_mot_object _ _ _ _ => true | _ => false end) evs.

Lemma objects_app l k : objects (l ++ k) = objects l ++ objects k.
Proof. apply List.filter_app. Qed.

Section delivery.
Context (a : mot_object_on_air) (tail : list Z) (dir : bool) (Ha : on_air_ok a) (Htail : Forall is_byte tail).

(** The object after the parts [D] arrived. *)
Record collected (D : list mot_part) (o : MotObject) : Prop := {
  col_id : mTransportId o = air_tid a;
  col_dir : mIsDirElement o = dir;
  col_sorted : seg_sorted (mMotMap o);
  col_segs : forall k v, seg_find k (mMotMap o) = Some v <->
    0 <= k < zlen (air_segs a) /\ In (PartSegment k) D /\ v = air_seg a k;
  col_num : (In (PartSegment (zlen (air_segs a) - 1)) D /\ mNumOfSegments o = zlen (air_segs a)) \/
            (~ In (PartSegment (zlen (air_segs a) - 1)) D /\ mNumOfSegments o = -1);
  col_head : (In PartHeader D /\ mHeaderCore o = air_header a /\
                (mName o = params_name (air_params a) [] \/ mName o = air_name a)) \/
             (~ In PartHeader D /\ mHeaderCore o = empty_core /\ mName o = [])
}.

Lemma collected_enter o : mIsDirElement o = dir -> mTransportId o <> air_tid a -> collected [] (enter (air_tid a) o).
Proof.
  intros Hd Hn. unfold enter. apply Z.eqb_neq in Hn. rewrite Hn. cbn [negb]. split; cbn; try done.
  - constructor.
  - intros k v. split; [done|intros (_ & [] & _)].
  - right. by split; [intros []|].
  - right. by split; [intros []|].
Qed.

Lemma collected_complete D o : collected D o -> check_if_complete o = true <-> all_arrived a D.
Proof.
  intros H. destruct Ha as [_ _ _ _ _ _ _ HN]. rewrite check_if_complete_spec. split.
  - intros (Hi & Hn & Hf). destruct (col_head _ _ H) as [[Hh _]|[_ [Hh _]]]; [|by rewrite Hh in Hi].
    destruct (col_num _ _ H) as [[_ E]|[_ E]]; [|lia]. split; [done|]. intros k Hk.
    rewrite E in Hf. destruct (Hf k Hk) as [v Hv]. by apply (col_segs _ _ H) in Hv as (_ & ? & _).
  - intros [Hh Hs]. destruct (col_head _ _ H) as [[_ [E _]]|[Hh' _]]; [|done].
    destruct (col_num _ _ H) as [[_ En]|[Hl _]]; [|destruct Hl; apply Hs; lia].
    assert (forall k, is_Some (seg_find k (mMotMap o)) <-> 0 <= k < zlen (air_segs a)) as Hk.
    { intros k. split; [intros [v Hv]; by apply (col_segs _ _ H) in Hv as [? _]|].
      intros Hk. eexists. apply (col_segs _ _ H). eauto. }
    assert (zlen (mMotMap o) = zlen (air_segs a)) as El.
    { pose proof (seg_keys_complete _ _ (col_sorted _ _ H) Hk) as Em. apply (f_equal zlen) in Em.
      unfold zlen in *. rewrite length_map, length_seqZ in Em. lia. }
    rewrite E, En, El. split; [done|]. split; [rewrite i16_small; lia|]. intros i Hi. by apply Hk.
Qed.

Lemma collected_data D o : collected D o -> all_arrived a D -> concat (map snd (mMotMap o)) = concat (air_segs a).
Proof.
  intros H [_ Hs]. f_equal.
  rewrite (seg_values _ (air_seg a)); [|apply (col_sorted _ _ H)|intros k v E; by apply (col_segs _ _ H) in E as (_ & _ & ?)].
  rewrite (seg_keys_complete _ (zlen (air_segs a))); [|apply (col_sorted _ _ H)|].
  - unfold air_seg. apply nth_ext with (d := []) (d' := []).
    + rewrite length_map, length_seqZ. unfold zlen. lia.
    + intros n Hn. rewrite length_map, length_seqZ in Hn.
      rewrite (nth_indep _ _ (nth (Z.to_nat (-1)) (air_segs a) [])) by (rewrite length_map, length_seqZ; lia).
      rewrite (map_nth (fun k => nth (Z.to_nat k) (air_segs a) [])). rewrite (nth_lookup (seqZ _ _)), lookup_seqZ_lt by lia.
      cbn. f_equal. lia.
  - intros k. split; [intros [v Hv]; by apply (col_segs _ _ H) in Hv as [? _]|].
    intros Hk. eexists. apply (col_segs _ _ H). eauto.
Qed.

Lemma collected_finish D o :
  collected D o -> exists o' evs, finish_if_complete o = Some (o', evs) /\ collected D o' /\
    (all_arrived a D -> evs = [air_event a dir]) /\ (~ all_arrived a D -> evs = []).
Proof.
  intros H. unfold finish_if_complete. pose proof (collected_complete D o H) as Hc.
  destruct (check_if_complete o); [|exists o, []; split_and!; [done|done|intros Hall; by apply Hc in Hall|done]].
  assert (all_arrived a D) as Hall by by apply Hc. pose proof Hall as [Hh _].
  destruct (col_head _ _ H) as [(_ & E & En)|[? _]]; [|done].
  unfold handle_complete. rewrite E. cbn [initialized air_header negb].
  rewrite (collected_data D o H Hall), (col_id _ _ H).
  set (o' := match mName o with [] => _ | _ => _ end).
  assert (collected D o' /\ mName o' = air_name a /\ mHeaderCore o' = air_header a /\ mIsDirElement o' = dir) as (H' & N' & C' & D').
  { unfold o'. assert (mName o = [] -> params_name (air_params a) [] = []) as Hnil.
    { intros Ho. destruct En as [En|En]; [congruence|]. rewrite Ho in En. unfold air_name in En. by destruct (params_name _ _). }
    destruct H as [H1 H2 H3 H4 H5 H6]. destruct (mName o) as [|c n] eqn:Eo.
    - assert (air_name a = trid_prefix ++ QString_number (air_tid a)) as Ea by (unfold air_name; by rewrite Hnil).
      split; [|by rewrite <- Ea]. split; try done. left. split_and!; [done|done|right]. by rewrite Ea.
    - split; [split; try done; left; split_and!; [done|done|by rewrite Eo]|]. split_and!; [|done..]. rewrite Eo.
      destruct En as [En|En]; [|done]. unfold air_name. by rewrite <- En. }
  eexists o', _. split; [done|]. split; [done|]. split; [|done]. intros _. unfold air_event. by rewrite N', C', D'.
Qed.

Lemma set_mHeaderCore_name n h o : set_mName n (set_mHeaderCore h o) = set_mHeaderCore h (set_mName n o).
Proof. done. Qed.

Lemma params_name_empty ps n : (params_name ps n = params_name ps [] \/ params_name ps n = n).
Proof.
  unfold params_name. revert n. induction ps as [|p ps IH]; intros n; [by right|]. cbn [foldl].
  destruct p; cbn [param_name]; try apply IH. by left.
Qed.

Lemma collected_header D o :
  collected D o -> collected (PartHeader :: D)
    (set_mName (params_name (air_params a) (mName o)) (set_mHeaderCore (air_header a) o)).
Proof.
  intros [H1 H2 H3 H4 H5 H6]. split; cbn; try done.
  - intros k v. rewrite H4. split; intros (Hk & Hin & Hv); (split; [exact Hk|split; [|exact Hv]]); [by right|]. destruct Hin as [?|?]; done.
  - destruct H5 as [[? ?]|[Hn ?]]; [left; auto|right; split; [intros [?|?]; done|done]].
  - left. split_and!; [by left|done|]. destruct H6 as [(_ & _ & [En|En])|(_ & _ & En)]; rewrite En.
    + destruct (params_name_empty (air_params a) (params_name (air_params a) [])) as [E|E]; rewrite E; auto.
    + destruct (params_name_empty (air_params a) (air_name a)) as [E|E]; rewrite E; auto.
    + by left.
Qed.

Lemma arrive_header D o :
  collected D o -> exists o' evs, arrive a tail PartHeader o = Some (o', evs) /\ collected (PartHeader :: D) o' /\
    (all_arrived a (PartHeader :: D) -> objects evs = [air_event a dir]) /\
    (~ all_arrived a (PartHeader :: D) -> objects evs = []).
Proof.
  intros H. pose proof (zlen_nonneg (flat_map enc_param (air_params a))) as Hz. destruct Ha as [Hc Hb Hs Ht Hst Hp Hpb _].
  cbn [arrive]. unfold set_header. rewrite (col_id _ _ H), Z.eqb_refl. cbn [negb].
  rewrite <- (col_id _ _ H), set_mTransportId_same.
  rewrite (read_core (air_body a) (air_header_size a) (air_type a) (air_subtype a));
    [|done|apply Forall_app; by split|done|unfold air_header_size in *; lia|done|done].
  cbn [mbind option_bind]. fold (air_header a).
  assert (zlen (air_params a) <= zlen (flat_map enc_param (air_params a))) as Hlen.
  { clear - Hp. induction (air_params a) as [|p ps IH]; [done|]. apply Forall_cons_1 in Hp as [Hp Hps].
    cbn [flat_map]. rewrite zlen_app, zlen_cons. pose proof (enc_param_length p Hp). specialize (IH Hps). lia. }
  pose proof (core_bytes_length _ _ _ _ _ Hc) as H7. rewrite <- H7.
  rewrite header_loop_params; [|done|cbn; unfold air_header_size; lia|cbn; unfold air_header_size; lia].
  cbn [mbind option_bind fst]. change (mName (set_mHeaderCore (air_header a) o)) with (mName o).
  destruct (collected_finish (PartHeader :: D) _ (collected_header D o H)) as (o' & evs & -> & H' & Hy & Hno).
  exists o', evs. split_and!; [done|done|intros Hall; by rewrite (Hy Hall)|intros Hall; by rewrite (Hno Hall)].
Qed.

Lemma collected_store D o k :
  collected D o -> 0 <= k < zlen (air_segs a) -> seg_find k (mMotMap o) = None ->
  collected (PartSegment k :: D) (store_segment (air_seg a k) k (zlen (air_seg a k)) (k =? zlen (air_segs a) - 1) o).
Proof.
  intros [H1 H2 H3 H4 H5 H6] Hk Hf. split; cbn; try done.
  - by apply seg_emplace_sorted.
  - intros k' v. rewrite seg_find_emplace by done. destruct (Z.eqb_spec k' k) as [->|Hne].
    + split; [intros [= <-]; split; [done|split; [by left|done]]|by intros (_ & _ & ->)].
    + rewrite H4. split; [intros (Hk' & ? & ?); auto|]. intros (Hk' & [[= ->]|?] & ?); [done|auto].
  - destruct (Z.eqb_spec k (zlen (air_segs a) - 1)) as [->|Hne].
    + left. split; [by left|lia].
    + destruct H5 as [[? ?]|[Hn ?]]; [left; auto|]. right. split; [|done]. intros [[= ?]|?]; done.
  - destruct H6 as [(? & ? & ?)|(Hn & ? & ?)]; [left; auto|]. right. split_and!; [|done..]. intros [?|?]; done.
Qed.

Lemma collected_again D o k v :
  collected D o -> seg_find k (mMotMap o) = Some v -> collected (PartSegment k :: D) o.
Proof.
  intros [H1 H2 H3 H4 H5 H6] Hf. pose proof Hf as Hin. apply H4 in Hin as (Hk & Hin & _). split; try done.
  - intros k' v'. rewrite H4. split; intros (Hk' & Hx & Hv); (split; [exact Hk'|split; [|exact Hv]]); [by right|]. destruct Hx as [[= ->]|?]; done.
  - destruct H5 as [[? ?]|[Hn ?]]; [left; split; [by right|done]|right; split; [|done]]. intros [[= ->]|?]; done.
  - destruct H6 as [(? & ? & ?)|(Hn & ? & ?)]; [left; split_and!; auto; by right|]. right. split_and!; [|done..]. intros [?|?]; done.
Qed.

Lemma objects_progress o : objects (progress_event o) = [].
Proof. unfold progress_event. by case_match. Qed.

Lemma arrive_segment D o k :
  collected D o -> 0 <= k < zlen (air_segs a) ->
  exists o' evs, arrive a tail (PartSegment k) o = Some (o', evs) /\ collected (PartSegment k :: D) o' /\
    (all_arrived a (PartSegment k :: D) -> all_arrived a D \/ objects evs = [air_event a dir]) /\
    (objects evs = [] \/ all_arrived a (PartSegment k :: D) /\ objects evs = [air_event a dir]).
Proof.
  intros H Hk. pose proof (air_segs_number a Ha) as HN. cbn [arrive]. unfold add_body_segment.
  assert (((k <? 0) || (8192 <=? k)) = false) as -> by lia.
  rewrite (col_id _ _ H), Z.eqb_refl. cbn [negb]. destruct (seg_find k (mMotMap o)) as [v|] eqn:E.
  - exists o, []. split_and!; [done|by eapply collected_again| |by left].
    apply (col_segs _ _ H) in E as (_ & Hin & _). intros [Hh Hs]. left. split.
    + destruct Hh as [?|?]; done.
    + intros k' Hk'. destruct (Hs k' Hk') as [[= <-]|?]; done.
  - change (air_seg a k ++ tail) with ([] ++ air_seg a k ++ tail). rewrite getn_app by done. cbn [mbind option_bind].
    destruct (collected_finish _ _ (collected_store D o k H Hk E)) as (o' & evs & -> & H' & Hy & Hno).
    cbn [mbind option_bind fst snd]. eexists _, _. split; [done|]. split; [done|].
    rewrite objects_app, objects_progress. cbn [app]. split; [intros Hall; right; by rewrite (Hy Hall)|].
    destruct (check_if_complete (store_segment (air_seg a k) k (zlen (air_seg a k)) (k =? zlen (air_segs a) - 1) o)) eqn:Ec.
    + apply (collected_complete _ _ (collected_store D o k H Hk E)) in Ec. right. by rewrite (Hy Ec).
    + left. rewrite Hno; [done|]. intros Hall. apply (collected_complete _ _ (collected_store D o k H Hk E)) in Hall. congruence.
Qed.

Lemma arrive_part D o p :
  is_part a p -> collected D o ->
  exists o1 evs1, arrive a tail p o = Some (o1, evs1) /\ collected (p :: D) o1 /\
    (all_arrived a (p :: D) -> all_arrived a D \/ objects evs1 <> []) /\
    (objects evs1 = [] \/ all_arrived a (p :: D) /\ objects evs1 = [air_event a dir]).
Proof.
  intros Hp H. destruct p as [|k].
  - destruct (arrive_header D o H) as (o1 & evs1 & E & H1 & Hy & Hn). exists o1, evs1.
    split_and!; [done|done|intros Hall; right; by rewrite (Hy Hall)|].
    destruct (check_if_complete o1) eqn:Ec.
    + apply (collected_complete _ _ H1) in Ec. right. by rewrite (Hy Ec).
    + left. apply Hn. intros Hall. apply (collected_complete _ _ H1) in Hall. congruence.
  - destruct (arrive_segment D o k H Hp) as (o1 & evs1 & E & H1 & Hy & Hn). exists o1, evs1.
    split_and!; [done|done| |done]. intros Hall. destruct (Hy Hall) as [?|Ho]; [by left|right; by rewrite Ho].
Qed.
End delivery.

Lemma arrive_enter a tail p o : is_part a p -> on_air_ok a -> arrive a tail p o = arrive a tail p (enter (air_tid a) o).
Proof.
  intros Hp Ha. pose proof (air_segs_number a Ha). destruct p as [|k]; cbn [arrive is_part] in *.
  - unfold set_header. rewrite enter_id, Z.eqb_refl. cbn [negb]. unfold enter.
    destruct (Z.eqb_spec (mTransportId o) (air_tid a)); done.
  - unfold add_body_segment. assert (((k <? 0) || (8192 <=? k)) = false) as -> by lia.
    rewrite enter_id, Z.eqb_refl. done.
Qed.

Lemma arrive_all_collected a dir D ps o :
  on_air_ok a -> Forall (part_ok a) ps -> collected a dir D o ->
  exists o' evs, arrive_all a ps o = Some (o', evs) /\ collected a dir (rev (map fst ps) ++ D) o' /\
    Forall (eq (air_event a dir)) (objects evs) /\
    (all_arrived a (rev (map fst ps) ++ D) -> all_arrived a D \/ objects evs <> []) /\
    (objects evs <> [] -> all_arrived a (rev (map fst ps) ++ D)).
Proof.
  intros Ha. revert D o. induction ps as [|[p tail] ps IH]; intros D o Hps H; cbn [arrive_all].
  - exists o, []. split_and!; [done|done|constructor|by left|done].
  - apply Forall_cons_1 in Hps as [[Hp Ht] Hps]. cbn [fst snd] in Hp, Ht.
    destruct (arrive_part a tail dir Ha Ht D o p Hp H) as (o1 & evs1 & -> & H1 & Hy & Hs).
    cbn [mbind option_bind fst snd]. destruct (IH _ _ Hps H1) as (o2 & evs2 & -> & H2 & Hf & Hy2 & Hn2).
    cbn [mbind option_bind fst snd]. eexists _, _. cbn [map fst rev]. rewrite <- app_assoc. cbn [app].
    split; [done|]. split; [done|]. rewrite objects_app. split; [|split].
    + apply Forall_app. split; [|done]. destruct Hs as [->|[_ ->]]; repeat constructor.
    + intros Hall. destruct (Hy2 Hall) as [H3|H3]; [|right; destruct (objects evs1); done].
      destruct (Hy H3) as [?|?]; [by left|right; by destruct (objects evs1)].
    + intros Hne. destruct Hs as [E|[[Hh Hk] E]]; rewrite E in Hne; [by apply Hn2|].
      split; [apply in_or_app; by right|]. intros k Hk'. apply in_or_app. right. by apply Hk.
Qed.

(** The object after some other one. *)
Lemma arrive_all_delivers a ps o :
  on_air_ok a -> Forall (part_ok a) ps -> mTransportId o <> air_tid a ->
  exists o' evs, arrive_all a ps o = Some (o', evs) /\
    (all_arrived a (map fst ps) <-> objects evs <> []) /\
    Forall (eq (air_event a (mIsDirElement o))) (objects evs).
Proof.
  intros Ha Hps Hid.
  assert (arrive_all a ps o = arrive_all a ps (enter (air_tid a) o) \/ ps = []) as [E|Enil].
  { destruct ps as [|[p tail] ps]; [by right|left]. cbn [arrive_all]. apply Forall_cons_1 in Hps as [[Hp _] _].
    by rewrite (arrive_enter a tail p o Hp Ha). }
  2: { subst ps. exists o, []. split; [done|]. split; [|constructor]. split; [by intros [[] _]|done]. }
  destruct (arrive_all_collected a (mIsDirElement o) [] ps (enter (air_tid a) o) Ha Hps)
    as (o' & evs & E' & _ & Hf & Hy & Hn); [by apply collected_enter|].
  assert (all_arrived a (map fst ps) <-> all_arrived a (rev (map fst ps) ++ [])) as Hr.
  { unfold all_arrived. rewrite app_nil_r. by setoid_rewrite <- in_rev. }
  exists o', evs. split; [by rewrite E|]. split; [|done]. rewrite Hr. split; [|done].
  intros Hall. destruct (Hy Hall) as [[[] _]|?]. done.
Qed.


(** A small slide: a core, a priority, an object name, three segments. *)
Definition sample_object : mot_object_on_air :=
  mk_on_air 77 5 2 1 [Param1 10 0; ContentName 0 [97; 46; 106]] [0; 0; 0; 80; 7; 132; 1] [[1; 2]; [3; 4]; [5]].

Definition sample_parts : list (mot_part * list Z) :=
  [(PartSegment 2, [9; 9]); (PartSegment 0, []); (PartHeader, [1]); (PartSegment 0, [2]); (PartSegment 1, [])].

Lemma sample_object_ok : on_air_ok sample_object.
Proof.
  split; try (vm_compute; split; congruence); try (vm_compute; congruence).
  - split; [apply forall_bytes; reflexivity|vm_compute; reflexivity].
  - repeat constructor; vm_compute; congruence.
  - apply forall_bytes. reflexivity.
Qed.


(** ** Two things the header parser does not do *)

(** The parameters of [skipped_params] with a length field leave the pointer
    behind the length field, whatever the length: their data is then parsed as
    parameters. *)
Lemma skipped_parameter_data pre id n rest o :
  In id skipped_params -> 0 <= n < 32768 ->
  process_header_extension (pre ++ (192 + id) :: enc_length n ++ rest) (zlen pre) o =
  Some (o, zlen pre + 1 + zlen (enc_length n)).
Proof.
  intros Hid Hn. assert (0 <= id < 64) as Hr by (cbn in Hid; lia). rewrite extension_with_length by done.
  unfold process_parameter_id. destruct (Z.eqb_spec id 12) as [->|]; [cbn in Hid; lia|].
  assert (existsb (Z.eqb id) skipped_params = true) as ->; [|done].
  apply existsb_exists. exists id. split; [done|apply Z.eqb_refl].
Qed.

(** A label of two bytes in front of the name is enough to lose the name. *)
Lemma label_hides_name :
  let seg := [0; 0; 0; 80; 8; 132; 1] ++ [203; 2; 128; 65] ++ enc_param (ContentName 0 [97; 46; 106]) in
  exists o, set_header seg 17 true 7 (MotObject_empty false true) = Some (o, []) /\
    headerSize (mHeaderCore o) = zlen seg /\ mName o = [].
Proof. eexists. vm_compute. split_and!; reflexivity. Qed.

(** The header size of the core is not compared with the segment. *)
Lemma header_size_unchecked :
  set_header [0; 0; 0; 80; 4; 4; 1] 7 true 7 (MotObject_empty false true) = None.
Proof. vm_compute. reflexivity. Qed.
