(* ===== verification/MotHandler.v ===== *)
(** * MOT directories and the MOT handler of packet-mode services
    (src/src/base/backend/data/mot/mot_dir.cpp, mot_handler.cpp)

    [MotHandler] takes MSC data groups (one bit per array element), keeps the
    fifteen most recently created objects in [mMotTable] and the objects of one
    directory in [mpDirectory].  An object is owned by exactly one entry, so
    the pointers the code passes around are modelled by the place of the entry
    ([mot_place]) and the objects are updated there.  [None] is an access
    outside a buffer, or a vector resized to a negative length. *)
From S2P Require Import Prelude BitExtractors BitFields Checked Crc MotObject.
From stdpp Require Import sorting.
Open Scope Z_scope.

(** ** mot_dir.cpp *)
Record motComponentType := mk_comp {
  inUse : bool;
  mc_transportId : Z;
  mc_motSlide : option MotObject
}.

Record MotDirectory := mkDir {
  dir_transportId : Z;
  dir_segments : list Z;
  marked : list bool;          (* bool marked[512] *)
  dir_segmentSize : Z;
  num_dirSegments : Z;
  dirSize : Z;                 (* i16 *)
  numObjects : Z;              (* i16 *)
  motComponents : list motComponentType
}.

Definition set_components (cs : list motComponentType) (d : MotDirectory) : MotDirectory :=
  mkDir (dir_transportId d) (dir_segments d) (marked d) (dir_segmentSize d) (num_dirSegments d) (dirSize d)
    (numObjects d) cs.

Definition get_transportId (d : MotDirectory) : Z := dir_transportId d.

(** [getHandle]: the index of the first entry in use with the id. *)
Fixpoint comp_find (transportId : Z) (i : Z) (cs : list motComponentType) : option Z :=
  match cs with
  | [] => None
  | c :: cs => if inUse c && (mc_transportId c =? transportId) then Some i else comp_find transportId (i + 1) cs
  end.
Definition dir_getHandle (transportId : Z) (d : MotDirectory) : option Z :=
  comp_find transportId 0 (motComponents d).

(** [setHandle]: the first free entry; without one the object is lost. *)
Fixpoint comp_set (h : MotObject) (transportId : Z) (cs : list motComponentType) : list motComponentType :=
  match cs with
  | [] => []
  | c :: cs =>
      if negb (inUse c) then mk_comp true transportId (Some h) :: cs else c :: comp_set h transportId cs
  end.
Definition dir_setHandle (h : MotObject) (transportId : Z) (d : MotDirectory) : MotDirectory :=
  set_components (comp_set h transportId (motComponents d)) d.

(** The loop of [analyse_theDirectory]; [n] is the number of objects left. *)
Fixpoint analyse_loop (n : nat) (currentBase : Z) (d : MotDirectory) : option (MotDirectory * list mot_event) :=
  match n with
  | O => Some (d, [])
  | S n =>
      hi ← get (dir_segments d) currentBase;
      lo ← get (dir_segments d) (currentBase + 1);
      let transportId := u16 (Z.lor (Z.shiftl hi 8) lo) in
      if transportId =? 0 then Some (d, []) (* just a dummy *)
      else
        segment ← ptr (dir_segments d) (currentBase + 2);
        r ← MotObject_new true false transportId segment (-1) false;
        let currentBase := u32 (currentBase + 2 + get_header_size (fst r)) in
        q ← analyse_loop n currentBase (dir_setHandle (fst r) transportId d);
        Some (fst q, snd r ++ snd q)
  end.

Definition analyse_theDirectory (d : MotDirectory) : option (MotDirectory * list mot_event) :=
  hi ← get (dir_segments d) 11;
  lo ← get (dir_segments d) 12;
  let extensionLength := u16 (Z.lor (Z.shiftl hi 8) lo) in
  analyse_loop (Z.to_nat (numObjects d)) (u32 (11 + 2 + extensionLength)) d.

(** [objects] is an [i16] the caller fills from a [u16]. *)
Definition MotDirectory_new (transportId segmentSize iDirSize objects : Z) (segment : list Z)
  : option (MotDirectory * list mot_event) :=
  if (iDirSize <? 0) || (objects <? 0) then None (* std::length_error *)
  else
    src ← getn segment 0 segmentSize;
    segs ← putn (zeros iDirSize) 0 src;
    let d := mkDir transportId segs (true :: replicate 511 false) segmentSize (-1) (i16 iDirSize) objects
               (replicate (Z.to_nat objects) (mk_comp false 0 None)) in
    if iDirSize <=? segmentSize then analyse_theDirectory d else Some (d, []).

(** [marked[i]] *)
Definition get_marked (m : list bool) (i : Z) : option bool :=
  if i <? 0 then None else m !! Z.to_nat i.

(** Are all segments [0 .. num - 1] marked? *)
Definition all_marked (m : list bool) (num : Z) : option bool :=
  zforM 0 num (fun i all => b ← get_marked m i; Some (all && b)) true.

Definition directorySegment (transportId : Z) (segment : list Z) (segmentNumber segmentSize : Z)
  (lastSegment : bool) (d : MotDirectory) : option (MotDirectory * list mot_event) :=
  if negb (dir_transportId d =? transportId) then Some (d, [])
  else
    mk ← get_marked (marked d) segmentNumber;
    if (mk : bool) then Some (d, [])
    else
      let num := if lastSegment then i16 (segmentNumber + 1) else num_dirSegments d in
      m ← put (marked d) segmentNumber true;
      src ← getn segment 0 segmentSize;
      segs ← putn (dir_segments d) (segmentNumber * dir_segmentSize d) src;
      let d := mkDir (dir_transportId d) segs m (dir_segmentSize d) num (dirSize d) (numObjects d) (motComponents d) in
      if negb (num =? -1) then
        all ← all_marked m num;
        if (all : bool) then analyse_theDirectory d else Some (d, [])
      else Some (d, []).

(** ** mot_handler.cpp *)
Record SMotTable := mk_entry { transportId : Z; orderNumber : Z; motSlide : option MotObject }.

Record MotHandler := mkMH {
  mpDirectory : option MotDirectory;
  mOrderNumber : Z;
  mMotTable : list SMotTable     (* std::array<SMotTable, 15> *)
}.

Definition MotHandler_new : MotHandler := mkMH None 0 (replicate 15 (mk_entry 0 (-1) None)).

Definition set_table (t : list SMotTable) (h : MotHandler) : MotHandler := mkMH (mpDirectory h) (mOrderNumber h) t.
Definition set_mpDirectory (d : option MotDirectory) (h : MotHandler) : MotHandler :=
  mkMH d (mOrderNumber h) (mMotTable h).

(** Where an object lives. *)
Inductive mot_place := InTable (i : Z) | InDirectory (i : Z).

Fixpoint table_find (tid : Z) (i : Z) (t : list SMotTable) : option Z :=
  match t with
  | [] => None
  | e :: t => if (0 <=? orderNumber e) && (transportId e =? tid) then Some i else table_find tid (i + 1) t
  end.

Definition getHandle (tid : Z) (h : MotHandler) : option mot_place :=
  match table_find tid 0 (mMotTable h) with
  | Some i => Some (InTable i)
  | None => d ← mpDirectory h; i ← dir_getHandle tid d; Some (InDirectory i)
  end.

(** The first free entry, *)
Fixpoint free_index (i : Z) (t : list SMotTable) : option Z :=
  match t with
  | [] => None
  | e :: t => if orderNumber e =? -1 then Some i else free_index (i + 1) t
  end.
(** or the one with the smallest order number. *)
Definition order_at (t : list SMotTable) (i : Z) : Z :=
  match t !! Z.to_nat i with Some e => orderNumber e | None => 0 end.
Definition oldest_index (t : list SMotTable) (order : Z) : Z :=
  snd (zfor 0 (zlen t) (fun i s =>
         let '(oldest, index) := s in
         if order_at t i <? oldest then (order_at t i, i) else (oldest, index)) (order, 0)).

Definition setHandle_index (h : MotHandler) : Z :=
  match free_index 0 (mMotTable h) with
  | Some i => i
  | None => oldest_index (mMotTable h) (mOrderNumber h)
  end.

Definition setHandle (o : MotObject) (tid : Z) (h : MotHandler) : MotHandler :=
  mkMH (mpDirectory h) (mOrderNumber h + 1)
    (wr (mMotTable h) (setHandle_index h) (mk_entry tid (mOrderNumber h) (Some o))).

(** The object at a place, and its replacement by an updated one. *)
Definition object_at (p : mot_place) (h : MotHandler) : option MotObject :=
  match p with
  | InTable i => e ← mMotTable h !! Z.to_nat i; motSlide e
  | InDirectory i => d ← mpDirectory h; c ← motComponents d !! Z.to_nat i; mc_motSlide c
  end.
Definition update_at (p : mot_place) (o : MotObject) (h : MotHandler) : MotHandler :=
  match p with
  | InTable i =>
      set_table (alter (fun e => mk_entry (transportId e) (orderNumber e) (Some o)) (Z.to_nat i) (mMotTable h)) h
  | InDirectory i =>
      match mpDirectory h with
      | Some d => set_mpDirectory (Some (set_components
          (alter (fun c => mk_comp (inUse c) (mc_transportId c) (Some o)) (Z.to_nat i) (motComponents d)) d)) h
      | None => h
      end
  end.

(** *** The session header of a data group *)
Record SMotGroup := mk_group {
  g_type : Z; g_last : bool; g_segment : Z; g_tid : Z;
  g_bytes : list Z      (* motVector *)
}.

(** [motVector]: the bits from [next] on as bytes; a negative size makes
    [resize] throw. *)
Definition pack_bytes (d : list Z) (next sizeinBits : Z) : option (list Z) :=
  if Z.quot sizeinBits 8 <? 0 then None
  else zforM 0 (Z.quot sizeinBits 8) (fun i v =>
    t ← zforM 0 8 (fun j t => b ← get d (next + 8 * i + j); Some (u8 (Z.lor (Z.shiftl t 1) b))) 0;
    Some (v ++ [t])) [].

(** The outer option is an access outside [msc], the inner one a group that is
    ignored. *)
Definition read_group (msc : list Z) : option (option SMotGroup) :=
  _ ← inside msc 0 12 tt;
  let extensionFlag := negb (getBits_1 msc 0 =? 0) in
  let crcFlag := negb (getBits_1 msc 1 =? 0) in
  let segmentFlag := negb (getBits_1 msc 2 =? 0) in
  let userAccessFlag := negb (getBits_1 msc 3 =? 0) in
  let groupType := getBits_4 msc 4 in
  if crcFlag && negb (check_CRC_bits msc (zlen msc)) then Some None
  else
    let next := 16 + (if extensionFlag then 16 else 0) in
    s ← (if segmentFlag
         then _ ← inside msc next 16 tt; Some (negb (getBits_1 msc next =? 0), getBits msc (next + 1) 15, next + 16)
         else Some (false, 0, next));
    let '(lastFlag, segmentNumber, next) := s in
    u ← (if userAccessFlag then
           _ ← inside msc next 8 tt;
           let transportIdFlag := negb (getBits_1 msc (next + 3) =? 0) in
           let lengthInd := getBits_4 msc (next + 4) in
           let next := next + 8 in
           tid ← (if transportIdFlag then inside msc next 16 (getBits msc next 16) else Some 0);
           Some (transportIdFlag, tid, next + lengthInd * 8)
         else Some (false, 0, next));
    let '(transportIdFlag, tid, next) := u in
    let sizeinBits := zlen msc - next - (if crcFlag then 16 else 0) in
    if negb transportIdFlag then Some None
    else
      v ← pack_bytes msc next sizeinBits;
      Some (Some (mk_group groupType lastFlag segmentNumber tid v)).

(** The reaction to a group: the switch on its type. *)
Definition handle_header_group (g : SMotGroup) (segmentSize : Z) (h : MotHandler)
  : option (MotHandler * list mot_event) :=
  if g_segment g =? 0 then
    match getHandle (g_tid g) h with
    | Some _ => Some (h, [])
    | None =>
        seg ← ptr (g_bytes g) 2;
        r ← MotObject_new false false (g_tid g) seg segmentSize (g_last g);
        Some (setHandle (fst r) (g_tid g) h, snd r)
    end
  else Some (h, []).

Definition handle_body_group (g : SMotGroup) (segmentSize : Z) (h : MotHandler)
  : option (MotHandler * list mot_event) :=
  seg ← ptr (g_bytes g) 2;
  r ← match getHandle (g_tid g) h with
      | Some p => Some (h, p, [])
      | None =>
          r ← MotObject_new false false (g_tid g) seg segmentSize (g_last g);
          Some (setHandle (fst r) (g_tid g) h, InTable (setHandle_index h), snd r)
      end;
  let '(h, p, ev) := r in
  o ← object_at p h;
  q ← add_body_segment seg (i16 (g_segment g)) segmentSize (g_last g) (g_tid g) o;
  Some (update_at p (fst q) h, ev ++ snd q).

Definition read_dir_size (seg : list Z) : option Z :=
  b0 ← get seg 0; b1 ← get seg 1; b2 ← get seg 2; b3 ← get seg 3;
  Some (Z.lor (Z.lor (Z.lor (Z.shiftl (Z.land b0 0x3F) 24) (Z.shiftl b1 16)) (Z.shiftl b2 8)) b3).
Definition read_num_objects (seg : list Z) : option Z :=
  b4 ← get seg 4; b5 ← get seg 5; Some (u16 (Z.lor (Z.shiftl b4 8) b5)).

Definition handle_directory_group (g : SMotGroup) (segmentSize : Z) (h : MotHandler)
  : option (MotHandler * list mot_event) :=
  if g_segment g =? 0 then
    if match mpDirectory h with Some d => get_transportId d =? g_tid g | None => false end then Some (h, [])
    else
      seg ← ptr (g_bytes g) 2;
      size ← read_dir_size seg;
      num ← read_num_objects seg;
      r ← MotDirectory_new (g_tid g) (i16 segmentSize) size (i16 num) seg;
      Some (set_mpDirectory (Some (fst r)) h, snd r)
  else
    match mpDirectory h with
    | None => Some (h, [])
    | Some d =>
        if negb (get_transportId d =? g_tid g) then Some (h, [])
        else
          seg ← ptr (g_bytes g) 2;
          r ← directorySegment (g_tid g) seg (i16 (g_segment g)) segmentSize (g_last g) d;
          Some (set_mpDirectory (Some (fst r)) h, snd r)
    end.

Definition handle_group (g : SMotGroup) (h : MotHandler) : option (MotHandler * list mot_event) :=
  b0 ← get (g_bytes g) 0;
  b1 ← get (g_bytes g) 1;
  let segmentSize := Z.lor (Z.shiftl (Z.land b0 0x1F) 8) b1 in
  if g_type g =? 3 then handle_header_group g segmentSize h
  else if g_type g =? 4 then handle_body_group g segmentSize h
  else if g_type g =? 6 then handle_directory_group g segmentSize h
  else Some (h, []).

Definition MotHandler_add_MSC_data_group (msc : list Z) (h : MotHandler) : option (MotHandler * list mot_event) :=
  r ← read_group msc;
  match r with
  | None => Some (h, [])
  | Some g => handle_group g h
  end.

(** ** Encoded data groups (EN 300 401, 5.3.3) *)
Record group_on_air := mk_air_group {
  ag_ext : option Z;      (* extension field *)
  ag_ci : Z; ag_rep : Z; ag_rfa : Z;
  ag_eua : list Z;        (* end user address *)
  ag_crc : option Z
}.

Definition opt_bits (n : Z) (o : option Z) : list Z := match o with Some v => msb n v | None => [] end.
Definition opt_flag {A} (o : option A) : Z := match o with Some _ => 1 | None => 0 end.

Definition enc_group (a : group_on_air) (g : SMotGroup) : list Z :=
  msb 1 (opt_flag (ag_ext a)) ++ msb 1 (opt_flag (ag_crc a)) ++ msb 1 1 ++ msb 1 1 ++ msb 4 (g_type g) ++
  msb 4 (ag_ci a) ++ msb 4 (ag_rep a) ++ opt_bits 16 (ag_ext a) ++
  msb 1 (b2z (g_last g)) ++ msb 15 (g_segment g) ++
  msb 3 (ag_rfa a) ++ msb 1 1 ++ msb 4 (2 + zlen (ag_eua a)) ++ msb 16 (g_tid g) ++ unpack_bits (ag_eua a) ++
  unpack_bits (g_bytes g) ++ opt_bits 16 (ag_crc a).

Record group_ok (a : group_on_air) (g : SMotGroup) : Prop := {
  gok_type : 0 <= g_type g < 16;
  gok_segment : 0 <= g_segment g < 2 ^ 15;
  gok_tid : 0 <= g_tid g < 2 ^ 16;
  gok_eua : zlen (ag_eua a) <= 13;
  gok_bytes : Forall is_byte (g_bytes g);
  gok_crc : ag_crc a = None \/ check_CRC_bits (enc_group a g) (zlen (enc_group a g)) = true
}.

Lemma pack_byte d next b :
  is_byte b -> stands d next (msb 8 b) -> 0 <= next -> next + 8 <= zlen d ->
  zforM 0 8 (fun j t => b ← get d (next + j); Some (u8 (Z.lor (Z.shiftl t 1) b))) 0 = Some b.
Proof.
  intros Hb Hs Hn Hl.
  destruct (zforM_inv (fun j t => t = Z.shiftr b (8 - j)) 0 8
    (fun j t => b ← get d (next + j); Some (u8 (Z.lor (Z.shiftl t 1) b))) 0) as (r & E & ->); [lia|..].
  - rewrite Z.shiftr_div_pow2 by lia. rewrite Z.div_small; [done|]. exact Hb.
  - intros j t Hj ->. rewrite get_Some by lia. cbn [mbind option_bind]. eexists. split; [done|].
    rewrite Hs, rd_msb by (rewrite ?zlen_msb; lia). apply (bits_ext 8).
    + apply u8_range.
    + rewrite Z.shiftr_div_pow2 by lia. unfold is_byte in Hb. change (2 ^ 8) with 256.
      split; [apply Z.div_pos; lia|]. assert (0 < 2 ^ (8 - (j + 1))) by lia. apply Z.div_lt_upper_bound; nia.
    + intros i Hi. rewrite uwrap_testbit, Z.lor_spec by lia. assert ((i <? 8) = true) as -> by lia. cbn [andb].
      destruct (Z.eq_dec i 0) as [->|Hi0].
      * rewrite Z.shiftl_spec_low by lia. rewrite Z.shiftr_spec by lia. cbn [orb].
        replace (0 + (8 - (j + 1))) with (8 - 1 - j) by lia. by destruct (Z.testbit b (8 - 1 - j)).
      * rewrite Z.shiftl_spec_high, !Z.shiftr_spec by lia.
        replace (i - 1 + (8 - j)) with (i + (8 - (j + 1))) by lia.
        replace (Z.testbit (b2z _) i) with false; [by rewrite orb_false_r|].
        symmetry. apply (testbit_high _ 1); [|lia]. destruct (Z.testbit b _); cbn; lia.
  - rewrite E. by rewrite Z.sub_diag, Z.shiftr_0_r.
Qed.

Lemma pack_bytes_unpack pre v post next size :
  Forall is_byte v -> zlen pre = next -> size = 8 * zlen v ->
  pack_bytes (pre ++ unpack_bits v ++ post) next size = Some v.
Proof.
  intros Hv <- ->. pose proof (zlen_nonneg v) as Hz. pose proof (zlen_nonneg pre). pose proof (zlen_nonneg post).
  unfold pack_bytes. replace (8 * zlen v) with (zlen v * 8) by lia. rewrite Z.quot_mul by lia.
  destruct (Z.ltb_spec (zlen v) 0); [lia|].
  match goal with |- zforM _ _ ?b _ = _ => destruct (zforM_inv (fun i w => w = slice v 0 i) 0 (zlen v) b []) as (r & E & ->) end;
    [done|done| |].
  - intros i w Hi ->. rewrite (pack_byte _ _ (rd v i)).
    + cbn [mbind option_bind]. eexists. split; [done|]. by rewrite slice_snoc.
    + by apply rd_Forall; [apply is_byte_0|].
    + intros j Hj. rewrite zlen_msb in Hj by lia. rewrite rd_app_r by lia.
      replace (zlen pre + 8 * i + j - zlen pre) with (8 * i + j) by lia.
      rewrite rd_app_l by (rewrite zlen_unpack; lia). by rewrite rd_unpack by lia.
    + lia.
    + rewrite !zlen_app, zlen_unpack. lia.
  - rewrite E. f_equal. unfold slice, zlen. rewrite drop_0, Nat2Z.id. apply take_ge. lia.
Qed.

Lemma msb_app_bits l k : Forall is_bit l -> Forall is_bit k -> Forall is_bit (l ++ k).
Proof. intros. apply Forall_app. by split. Qed.

Lemma opt_bits_bit n o : Forall is_bit (opt_bits n o).
Proof. destruct o; [apply msb_bit|constructor]. Qed.

Lemma enc_group_bit a g : Forall is_bit (enc_group a g).
Proof.
  unfold enc_group. repeat apply msb_app_bits; first [apply msb_bit|apply unpack_bits_bit|apply opt_bits_bit].
Qed.

Lemma zlen_opt_bits n o : 0 <= n -> zlen (opt_bits n o) = n * opt_flag o.
Proof. intros. destruct o; cbn [opt_bits opt_flag]; [rewrite zlen_msb; lia|rewrite zlen_nil; lia]. Qed.

(** The position of the user access field. *)
Definition ua_pos (a : group_on_air) : Z := 32 + 16 * opt_flag (ag_ext a).

Lemma zlen_enc_group a g :
  zlen (enc_group a g) = ua_pos a + 24 + 8 * zlen (ag_eua a) + 8 * zlen (g_bytes g) + 16 * opt_flag (ag_crc a).
Proof.
  unfold enc_group, ua_pos. rewrite !zlen_app, !zlen_msb, !zlen_opt_bits, !zlen_unpack by lia. lia.
Qed.

Lemma enc_group_fields a g :
  group_ok a g ->
  let d := enc_group a g in
  field d 0 1 = opt_flag (ag_ext a) /\ field d 1 1 = opt_flag (ag_crc a) /\ field d 2 1 = 1 /\ field d 3 1 = 1 /\
  field d 4 4 = g_type g /\
  field d (ua_pos a - 16) 1 = b2z (g_last g) /\ field d (ua_pos a - 15) 15 = g_segment g /\
  field d (ua_pos a + 3) 1 = 1 /\ field d (ua_pos a + 4) 4 = 2 + zlen (ag_eua a) /\ field d (ua_pos a + 8) 16 = g_tid g.
Proof.
  intros [Ht Hs Hi He _ _] d. pose proof (zlen_nonneg (ag_eua a)) as Hz.
  assert (0 <= opt_flag (ag_ext a) < 2) as Hx by (destruct (ag_ext a); cbn; lia).
  assert (0 <= opt_flag (ag_crc a) < 2) as Hc by (destruct (ag_crc a); cbn; lia).
  assert (0 <= b2z (g_last g) < 2) as Hl by (destruct (g_last g); cbn; lia).
  subst d. unfold enc_group, ua_pos.
  split_and!; try flds; destruct (ag_ext a); cbn [opt_flag opt_bits] in *; rewrite ?app_nil_l; flds.
Qed.

Lemma pack_group a g :
  group_ok a g ->
  pack_bytes (enc_group a g) (ua_pos a + 24 + 8 * zlen (ag_eua a)) (8 * zlen (g_bytes g)) = Some (g_bytes g).
Proof.
  intros Hg. unfold enc_group. set (tl := opt_bits 16 (ag_crc a)). rewrite !app_assoc.
  match goal with |- pack_bytes (((?pre ++ unpack_bits _) ++ unpack_bits ?v) ++ tl) _ _ = _ =>
    rewrite <- (app_assoc (pre ++ _) (unpack_bits v) tl) end.
  apply pack_bytes_unpack; [apply (gok_bytes _ _ Hg)| |done].
  rewrite !zlen_app, !zlen_msb, zlen_opt_bits, zlen_unpack by lia. unfold ua_pos. lia.
Qed.

(** A group is read back with its type, segment number, transport id and the
    bytes of its data field, with and without extension field, end user
    address and CRC. *)
Lemma read_group_enc a g : group_ok a g -> read_group (enc_group a g) = Some (Some g).
Proof.
  intros Hg. pose proof (enc_group_bit a g) as Hb. pose proof (zlen_enc_group a g) as Hl.
  destruct (enc_group_fields a g Hg) as (F0 & F1 & F2 & F3 & F4 & F5 & F6 & F7 & F8 & F9).
  pose proof (pack_group a g Hg) as Hp. pose proof (gok_crc _ _ Hg) as Hcrc. pose proof (gok_eua _ _ Hg) as He.
  pose proof (zlen_nonneg (ag_eua a)). pose proof (zlen_nonneg (g_bytes g)).
  assert (0 <= opt_flag (ag_crc a) < 2) as Hcf by (destruct (ag_crc a); cbn; lia).
  assert (ua_pos a = 32 \/ ua_pos a = 48) as Hua by (unfold ua_pos; destruct (ag_ext a); cbn; lia).
  set (d := enc_group a g) in *. unfold read_group.
  rewrite (inside_Some d 0 12) by lia. cbn [mbind option_bind].
  rewrite !getBits_1_field, !getBits_4_field, F0, F1, F2, F3, F4 by done. cbn [Z.eqb negb].
  assert ((negb (opt_flag (ag_crc a) =? 0)) && negb (check_CRC_bits d (zlen d)) = false) as ->.
  { destruct Hcrc as [->| ->]; [done|]. apply andb_false_r. }
  assert (16 + (if negb (opt_flag (ag_ext a) =? 0) then 16 else 0) = ua_pos a - 16) as ->
    by (unfold ua_pos; destruct (ag_ext a); done).
  rewrite inside_Some by lia. cbn [mbind option_bind].
  replace (ua_pos a - 16 + 1) with (ua_pos a - 15) by lia. replace (ua_pos a - 16 + 16) with (ua_pos a) by lia.
  rewrite !getBits_1_field, (getBits_field _ (ua_pos a - 15)), F5, F6 by (done || lia).
  rewrite inside_Some by lia. cbn [mbind option_bind].
  rewrite ?getBits_1_field, ?getBits_4_field, F7, F8 by done. cbn [Z.eqb negb mbind option_bind].
  rewrite inside_Some by lia. cbn [mbind option_bind]. rewrite getBits_field, F9 by (done || lia).
  replace (ua_pos a + 8 + (2 + zlen (ag_eua a)) * 8) with (ua_pos a + 24 + 8 * zlen (ag_eua a)) by lia.
  assert (zlen d - (ua_pos a + 24 + 8 * zlen (ag_eua a)) - (if negb (opt_flag (ag_crc a) =? 0) then 16 else 0) =
          8 * zlen (g_bytes g)) as -> by (destruct (ag_crc a); cbn [opt_flag Z.eqb negb] in *; lia).
  rewrite Hp. cbn [mbind option_bind]. do 2 f_equal. destruct g as [ty la se ti by_]. cbn. by destruct la.
Qed.

(** ** The object cache *)
Definition used (t : list SMotTable) : list SMotTable := List.filter (fun e => 0 <=? orderNumber e) t.
Definition newer (e e' : SMotTable) : Prop := orderNumber e' < orderNumber e.

(** The cache holds the objects [l], the newest first. *)
Record cache (h : MotHandler) (l : list (Z * MotObject)) : Prop := {
  cache_length : length (mMotTable h) = 15%nat;
  cache_orders : Forall (fun e => orderNumber e = -1 \/ 0 <= orderNumber e < mOrderNumber h) (mMotTable h);
  cache_entries : exists es, used (mMotTable h) ≡ₚ es /\ StronglySorted newer es /\
    map (fun e => (transportId e, motSlide e)) es = map (fun p => (fst p, Some (snd p))) l;
  cache_ids : NoDup (map fst l);
  cache_next : 0 <= mOrderNumber h
}.

Lemma cache_new : cache MotHandler_new [].
Proof.
  split; cbn; [done| | |constructor|done].
  - repeat constructor.
  - exists []. split_and!; [done|constructor|done].
Qed.

Lemma used_app t1 t2 : used (t1 ++ t2) = used t1 ++ used t2.
Proof. apply List.filter_app. Qed.

Lemma used_length t : (length (used t) <= length t)%nat.
Proof. apply List.filter_length_le. Qed.

Lemma used_all t : Forall (fun e => 0 <= orderNumber e) t -> used t = t.
Proof.
  induction t as [|e t IH]; intros H; [done|]. apply Forall_cons_1 in H as [He H]. cbn.
  destruct (Z.leb_spec 0 (orderNumber e)); [|lia]. f_equal. by apply IH.
Qed.

Lemma free_index_Some i t j :
  free_index i t = Some j -> exists t1 e t2, t = t1 ++ e :: t2 /\ j = i + zlen t1 /\ orderNumber e = -1.
Proof.
  revert i. induction t as [|e t IH]; intros i; cbn [free_index]; [done|].
  destruct (Z.eqb_spec (orderNumber e) (-1)).
  - intros [= <-]. exists [], e, t. split_and!; [done|rewrite zlen_nil; lia|done].
  - intros H. destruct (IH _ H) as (t1 & e' & t2 & -> & -> & He). exists (e :: t1), e', t2.
    split_and!; [done|rewrite zlen_cons; lia|done].
Qed.

Lemma free_index_None i t : free_index i t = None -> Forall (fun e => orderNumber e <> -1) t.
Proof.
  revert i. induction t as [|e t IH]; intros i; cbn [free_index]; [constructor|].
  destruct (Z.eqb_spec (orderNumber e) (-1)); [done|]. intros H. constructor; [done|by eapply IH].
Qed.

Lemma wr_middle {A} (t1 t2 : list A) e v : wr (t1 ++ e :: t2) (zlen t1) v = t1 ++ v :: t2.
Proof.
  pose proof (zlen_nonneg t1). unfold wr. destruct (Z.ltb_spec (zlen t1) 0); [lia|].
  unfold zlen. rewrite Nat2Z.id, insert_app_r_alt, Nat.sub_diag by lia. done.
Qed.

(** The scan for the oldest entry of a full table. *)
Lemma oldest_index_spec t n :
  t <> [] -> Forall (fun e => orderNumber e < n) t ->
  exists t1 e t2, t = t1 ++ e :: t2 /\ oldest_index t n = zlen t1 /\ Forall (fun e' => orderNumber e <= orderNumber e') t.
Proof.
  intros Hne Hall. unfold oldest_index.
  set (body := fun i (s : Z * Z) => let '(oldest, index) := s in if order_at t i <? oldest then (order_at t i, i) else (oldest, index)).
  assert (forall k, 0 <= k < zlen t -> exists e, t !! Z.to_nat k = Some e /\ order_at t k = orderNumber e) as Hat.
  { intros k Hk. unfold zlen in Hk. destruct (lookup_lt_is_Some_2 t (Z.to_nat k)) as [e He]; [lia|].
    exists e. unfold order_at. by rewrite He. }
  assert (forall k e, t !! k = Some e -> order_at t (Z.of_nat k) = orderNumber e) as Hof
    by (intros k e He; unfold order_at; by rewrite Nat2Z.id, He).
  assert (0 < zlen t) as Hpos by (destruct t; [done|rewrite zlen_cons; pose proof (zlen_nonneg t); lia]).
  assert (let s := zfor 0 (zlen t) body (n, 0) in
    0 <= snd s < zlen t /\ order_at t (snd s) = fst s /\ (forall k, 0 <= k < zlen t -> fst s <= order_at t k)) as (Hi & Ho & Hmin).
  { destruct (zfor_inv (fun m s => (m = 0 -> s = (n, 0)) /\ (0 < m -> 0 <= snd s < m /\ order_at t (snd s) = fst s /\
      (forall k, 0 <= k < m -> fst s <= order_at t k))) 0 (zlen t) body (n, 0)) as [_ H]; [lia|split; [done|lia]| |by apply H].
    intros i [o idx] Hi [IH0 IH]. cbn [fst snd] in IH. split; [lia|intros _]. unfold body.
    destruct (Z.eq_dec i 0) as [->|].
    - injection (IH0 eq_refl) as -> ->. destruct (Hat 0 Hi) as (e & He & ->).
      eapply Forall_lookup_1 in Hall; [|exact He]. destruct (Z.ltb_spec (orderNumber e) n); [|lia]. cbn [fst snd].
      assert (order_at t 0 = orderNumber e) as E0 by (unfold order_at; by rewrite He).
      split; [lia|]. split; [done|]. intros k Hk. replace k with 0 by lia. lia.
    - destruct (IH ltac:(lia)) as (H1 & H2 & H3). destruct (Z.ltb_spec (order_at t i) o); cbn [fst snd].
      + split; [lia|]. split; [done|]. intros k Hk. destruct (Z.eq_dec k i) as [->|]; [lia|]. specialize (H3 k ltac:(lia)). lia.
      + split; [lia|]. split; [done|]. intros k Hk. destruct (Z.eq_dec k i) as [->|]; [lia|]. apply H3. lia. }
  destruct (Hat _ Hi) as (e & He & Ee). pose proof He as Hsplit. apply list_elem_of_split_length in Hsplit as (t1 & t2 & Et & Hl).
  exists t1, e, t2. split; [done|].
  split; [rewrite <- (Z2Nat.id (snd (zfor 0 (zlen t) body (n, 0)))), Hl by lia; done|].
  apply Forall_lookup_2. intros k e' He'. rewrite <- Ee, Ho, <- (Hof _ _ He'). apply Hmin.
  apply lookup_lt_Some in He'. unfold zlen. lia.
Qed.

Lemma newer_last es e e' :
  StronglySorted newer (es ++ [e]) -> In e' (es ++ [e]) -> orderNumber e' <= orderNumber e -> e' = e.
Proof.
  induction es as [|x es IH]; cbn [app]; intros Hs Hin Hle.
  - by destruct Hin as [->|[]].
  - apply StronglySorted_inv in Hs as [Hs Hf]. destruct Hin as [->|Hin]; [|by apply IH].
    eapply List.Forall_forall in Hf; [|apply in_or_app; right; by left]. unfold newer in Hf. lia.
Qed.

Lemma StronglySorted_init {A} (R : A -> A -> Prop) l x : StronglySorted R (l ++ [x]) -> StronglySorted R l.
Proof.
  induction l as [|y l IH]; cbn [app]; intros H; [constructor|]. apply StronglySorted_inv in H as [Hs Hf].
  constructor; [by apply IH|]. by apply Forall_app in Hf as [? _].
Qed.

Lemma cache_bound h l : cache h l -> (length l <= 15)%nat /\ (length l = 15%nat -> used (mMotTable h) = mMotTable h).
Proof.
  intros [Hl _ (es & Hp & _ & Em) _ _]. pose proof (used_length (mMotTable h)) as Hu.
  assert (length l = length (used (mMotTable h))) as E.
  { rewrite Hp. apply (f_equal length) in Em. by rewrite !length_map in Em. }
  split; [lia|]. intros H15. clear Hp. revert Hu E. rewrite H15. generalize (mMotTable h) Hl. intros t Ht _ E.
  assert (forall t, length (used t) = length t -> used t = t) as H.
  { clear. induction t as [|e t IH]; [done|]. cbn. destruct (0 <=? orderNumber e); cbn [length].
    - intros [= Et]. f_equal. by apply IH.
    - pose proof (used_length t). unfold used in *. lia. }
  apply H. lia.
Qed.

(** Replacing one entry by a new one. *)
Definition new_entry (h : MotHandler) (o : MotObject) (tid : Z) : SMotTable :=
  mk_entry tid (mOrderNumber h) (Some o).

Lemma replace_entry_ok h l o tid t1 e t2 :
  cache h l -> mMotTable h = t1 ++ e :: t2 ->
  length (t1 ++ new_entry h o tid :: t2) = 15%nat /\
  Forall (fun e => orderNumber e = -1 \/ 0 <= orderNumber e < mOrderNumber h + 1) (t1 ++ new_entry h o tid :: t2).
Proof.
  intros [Hl Ho _ _ Hx] E. rewrite E in Hl, Ho. split; [rewrite length_app in *; done|].
  apply Forall_app in Ho as [H1 H2]. apply Forall_cons_1 in H2 as [_ H2].
  apply Forall_app. split; [|constructor; [cbn; lia|]].
  - eapply List.Forall_impl; [|exact H1]. cbn. lia.
  - eapply List.Forall_impl; [|exact H2]. cbn. lia.
Qed.

Lemma new_entry_newer h l o tid es :
  cache h l -> (forall e, In e es -> In e (used (mMotTable h))) -> StronglySorted newer es ->
  StronglySorted newer (new_entry h o tid :: es).
Proof.
  intros [_ Ho _ _ _] Hin Hs. constructor; [done|]. apply List.Forall_forall. intros e He. apply Hin in He.
  unfold used in He. apply filter_In in He as [He Hz]. eapply List.Forall_forall in Ho; [|exact He].
  unfold newer. cbn in *. lia.
Qed.

Lemma setHandle_free h l o tid t1 e t2 :
  cache h l -> ~ In tid (map fst l) -> mMotTable h = t1 ++ e :: t2 -> orderNumber e = -1 ->
  cache (mkMH (mpDirectory h) (mOrderNumber h + 1) (t1 ++ new_entry h o tid :: t2)) (take 15 ((tid, o) :: l)).
Proof.
  intros Hc Hid Et He. destruct (replace_entry_ok h l o tid t1 e t2 Hc Et) as [Hw1 Hw2].
  pose proof (new_entry_newer h l o tid) as Hnew. pose proof Hc as [Hl Ho (es & Hp & Hs & Em) Hn Hx].
  assert (used (mMotTable h) = used t1 ++ used t2) as Eu
    by (rewrite Et, used_app; unfold used; cbn; rewrite He; done).
  assert (length es = length l) as El by (apply (f_equal length) in Em; by rewrite !length_map in Em).
  assert (length l < 15)%nat as Hlt.
  { rewrite <- El, <- Hp, Eu, length_app. pose proof (used_length t1). pose proof (used_length t2).
    rewrite length_app in Hw1. cbn [length] in Hw1. lia. }
  rewrite take_ge by (cbn [length]; lia). split; cbn [mMotTable mOrderNumber]; [done|done| | |lia].
  - exists (new_entry h o tid :: es). split_and!.
    + rewrite used_app.
      change (used (new_entry h o tid :: t2)) with (if 0 <=? mOrderNumber h then new_entry h o tid :: used t2 else used t2).
      destruct (Z.leb_spec 0 (mOrderNumber h)); [|lia]. rewrite <- Hp, Eu. symmetry. apply Permutation_middle.
    + apply Hnew; [done| |done]. intros e' He'. by rewrite Hp.
    + cbn [map fst snd]. by rewrite Em.
  - cbn [map fst]. constructor; [by rewrite list_elem_of_In|done].
Qed.

Lemma setHandle_full h l pl o tid t1 e t2 :
  cache h (l ++ [pl]) -> length l = 14%nat -> ~ In tid (map fst l) -> mMotTable h = t1 ++ e :: t2 ->
  Forall (fun e => 0 <= orderNumber e) (mMotTable h) -> Forall (fun e' => orderNumber e <= orderNumber e') (mMotTable h) ->
  cache (mkMH (mpDirectory h) (mOrderNumber h + 1) (t1 ++ new_entry h o tid :: t2)) ((tid, o) :: l).
Proof.
  intros Hc E14 Hid Et Hall Hmin. destruct (replace_entry_ok h _ o tid t1 e t2 Hc Et) as [Hw1 Hw2].
  pose proof (new_entry_newer h (l ++ [pl]) o tid) as Hnew. pose proof Hc as [Hl Ho (es & Hp & Hs & Em) Hn Hx].
  rewrite used_all in Hp by done.
  destruct es as [|el es _] using rev_ind; [apply (f_equal length) in Em; rewrite !length_map, length_app in Em; cbn in Em; lia|].
  rewrite !map_app in Em. apply app_inj_2 in Em as [Em _]; [|done].
  assert (e = el) as ->.
  { apply (newer_last es); [done| |].
    - rewrite <- Hp, Et. apply in_or_app. right. by left.
    - rewrite List.Forall_forall in Hmin. apply Hmin. rewrite Hp. apply in_or_app. right. by left. }
  assert (t1 ++ t2 ≡ₚ es) as Hp'.
  { apply (Permutation_cons_inv (a := el)). rewrite Permutation_middle, <- Et, Hp. apply Permutation_app_comm. }
  split; cbn [mMotTable mOrderNumber]; [done|done| | |lia].
  - exists (new_entry h o tid :: es). split_and!.
    + rewrite used_all.
      * rewrite <- Hp'. symmetry. apply Permutation_middle.
      * rewrite Et in Hall. apply Forall_app in Hall as [H1 H2]. apply Forall_cons_1 in H2 as [_ H2].
        apply Forall_app. split; [done|]. constructor; done.
    + apply (fun es => Hnew es Hc); [|by eapply StronglySorted_init]. intros e' He'. rewrite used_all, Hp by done.
      apply in_or_app. by left.
    + cbn [map fst snd]. by rewrite Em.
  - cbn [map fst]. rewrite map_app in Hn. apply NoDup_app in Hn as (Hn & _ & _).
    constructor; [by rewrite list_elem_of_In|done].
Qed.

(** Creating an object puts it in front; the sixteenth object pushes out the
    oldest. *)
Lemma setHandle_cache h l o tid :
  cache h l -> ~ In tid (map fst l) -> cache (setHandle o tid h) (take 15 ((tid, o) :: l)).
Proof.
  intros Hc Hid. unfold setHandle, setHandle_index. destruct (free_index 0 (mMotTable h)) as [j|] eqn:Ef.
  - apply free_index_Some in Ef as (t1 & e & t2 & Et & -> & He). rewrite Z.add_0_l, Et, wr_middle.
    by eapply setHandle_free.
  - apply free_index_None in Ef. pose proof (cache_orders _ _ Hc) as Ho.
    assert (Forall (fun e => 0 <= orderNumber e < mOrderNumber h) (mMotTable h)) as Hall.
    { apply List.Forall_forall. intros e He. rewrite List.Forall_forall in Ef, Ho. specialize (Ef e He). specialize (Ho e He). lia. }
    assert (Forall (fun e => 0 <= orderNumber e) (mMotTable h)) as Hall0 by (eapply List.Forall_impl; [|exact Hall]; cbn; lia).
    destruct (oldest_index_spec (mMotTable h) (mOrderNumber h)) as (t1 & e & t2 & Et & -> & Hmin);
      [intros E; pose proof (cache_length _ _ Hc) as Hl; by rewrite E in Hl|eapply List.Forall_impl; [|exact Hall]; cbn; lia|].
    assert (length l = 15%nat) as E15.
    { destruct Hc as [Hl _ (es & Hp & _ & Em) _ _]. apply (f_equal length) in Em. rewrite !length_map in Em.
      rewrite used_all in Hp by done. by rewrite <- Em, <- Hp. }
    rewrite Et at 1. rewrite wr_middle.
    destruct l as [|pl l _] using rev_ind; [done|]. rewrite length_app in E15. cbn [length] in E15.
    assert (take 15 ((tid, o) :: l ++ [pl]) = (tid, o) :: l) as ->.
    { cbn [take]. f_equal. rewrite take_app_le by lia. apply take_ge. lia. }
    eapply setHandle_full; try done; [lia|]. intros Hin. apply Hid. rewrite map_app. apply in_or_app. by left.
Qed.

(** Looking an object up and updating it. *)
Fixpoint assoc (tid : Z) (l : list (Z * MotObject)) : option MotObject :=
  match l with
  | [] => None
  | (t, o) :: l => if t =? tid then Some o else assoc tid l
  end.
Definition replace (tid : Z) (o : MotObject) (l : list (Z * MotObject)) : list (Z * MotObject) :=
  map (fun p => if fst p =? tid then (tid, o) else p) l.

Lemma assoc_In tid o l : NoDup (map fst l) -> In (tid, o) l -> assoc tid l = Some o.
Proof.
  induction l as [|[t o'] l IH]; intros Hn Hin; [done|]. cbn [map fst] in Hn. apply NoDup_cons in Hn as [Hx Hn]. cbn [assoc].
  destruct Hin as [[= -> ->]|Hin]; [by rewrite Z.eqb_refl|].
  destruct (Z.eqb_spec t tid) as [->|]; [|by apply IH]. exfalso. apply Hx. rewrite list_elem_of_In.
  apply in_map_iff. by exists (tid, o).
Qed.

Lemma assoc_None tid l : assoc tid l = None <-> ~ In tid (map fst l).
Proof.
  induction l as [|[t o] l IH]; cbn [assoc map fst In]; [split; [intros _ []|done]|].
  destruct (Z.eqb_spec t tid) as [->|Hne]; [split; [done|intros H; destruct H; by left]|].
  rewrite IH. split; [intros H [?|?]; [by apply Hne|done]|intros H Hin; apply H; by right].
Qed.

Lemma table_find_spec tid i t :
  match table_find tid i t with
  | Some j => exists t1 e t2, t = t1 ++ e :: t2 /\ j = i + zlen t1 /\ 0 <= orderNumber e /\ transportId e = tid
  | None => forall e, In e t -> 0 <= orderNumber e -> transportId e <> tid
  end.
Proof.
  revert i. induction t as [|e t IH]; intros i; cbn [table_find]; [done|].
  destruct ((0 <=? orderNumber e) && (transportId e =? tid)) eqn:E.
  - exists [], e, t. split_and!; [done|rewrite zlen_nil; lia|lia..].
  - specialize (IH (i + 1)). destruct (table_find tid (i + 1) t) as [j|].
    + destruct IH as (t1 & e' & t2 & -> & -> & ? & ?). exists (e :: t1), e', t2.
      split_and!; [done|rewrite zlen_cons; lia|done..].
    + intros e' [->|Hin]; [lia|by apply IH].
Qed.

Lemma cache_entry h l e :
  cache h l -> In e (mMotTable h) -> 0 <= orderNumber e -> exists o, motSlide e = Some o /\ In (transportId e, o) l.
Proof.
  intros [_ _ (es & Hp & _ & Em) _ _] Hin Ho.
  assert (In e es) as He by (rewrite <- Hp; unfold used; apply filter_In; split; [done|lia]).
  assert (In (transportId e, motSlide e) (map (fun p => (fst p, Some (snd p))) l)) as H
    by (rewrite <- Em; by apply (in_map (fun e => (transportId e, motSlide e)))).
  apply in_map_iff in H as ([t o] & [= <- Eo] & Hl). by exists o.
Qed.

Definition table_lookup (tid : Z) (h : MotHandler) : option MotObject :=
  i ← table_find tid 0 (mMotTable h); object_at (InTable i) h.

Lemma lookup_middle {A} (t1 t2 : list A) e : (t1 ++ e :: t2) !! Z.to_nat (zlen t1) = Some e.
Proof. unfold zlen. rewrite Nat2Z.id, lookup_app_r, Nat.sub_diag by lia. done. Qed.

Lemma table_lookup_cache h l tid : cache h l -> table_lookup tid h = assoc tid l.
Proof.
  intros Hc. unfold table_lookup. pose proof (table_find_spec tid 0 (mMotTable h)) as Hf.
  destruct (table_find tid 0 (mMotTable h)) as [j|]; cbn [mbind option_bind].
  - destruct Hf as (t1 & e & t2 & Et & -> & Ho & <-). cbn [object_at]. rewrite Z.add_0_l, Et, lookup_middle. cbn [mbind option_bind].
    destruct (cache_entry h l e Hc) as (o & -> & Hin); [rewrite Et; apply in_or_app; right; by left|done|].
    symmetry. apply assoc_In; [apply (cache_ids _ _ Hc)|done].
  - symmetry. apply assoc_None. intros Hin. apply in_map_iff in Hin as ([t o] & <- & Hin). cbn [fst] in Hf.
    destruct Hc as [_ _ (es & Hp & _ & Em) _ _].
    assert (In (t, Some o) (map (fun p => (fst p, Some (snd p))) l)) as H by (apply in_map_iff; by exists (t, o)).
    rewrite <- Em in H. apply in_map_iff in H as (e & [= Et _] & He). rewrite <- Hp in He.
    unfold used in He. apply filter_In in He as [He Hz]. apply (Hf e He); [lia|done].
Qed.

(** Updating the entry of an id is updating every entry of the id. *)
Definition upd (tid : Z) (o : MotObject) (e : SMotTable) : SMotTable :=
  if (0 <=? orderNumber e) && (transportId e =? tid) then mk_entry (transportId e) (orderNumber e) (Some o) else e.

Lemma used_upd tid o t : used (map (upd tid o) t) = map (upd tid o) (used t).
Proof.
  unfold used. induction t as [|e t IH]; [done|]. cbn [map List.filter].
  assert (orderNumber (upd tid o e) = orderNumber e) as -> by (unfold upd; by case_match).
  destruct (0 <=? orderNumber e); cbn [map]; by rewrite IH.
Qed.

Lemma cache_unique h l t1 e t2 e' :
  cache h l -> mMotTable h = t1 ++ e :: t2 -> 0 <= orderNumber e -> In e' (t1 ++ t2) -> 0 <= orderNumber e' ->
  transportId e' <> transportId e.
Proof.
  intros [_ _ (es & Hp & _ & Em) Hn _] Et He Hin He' E.
  assert (NoDup (map transportId es)) as Hnd.
  { assert (map transportId es = map fst l) as ->; [|done].
    apply (f_equal (map fst)) in Em. by rewrite !map_map in Em. }
  rewrite <- Hp, Et, used_app in Hnd. unfold used in Hnd. cbn [List.filter] in Hnd.
  assert ((0 <=? orderNumber e) = true) as Hb by lia. rewrite Hb in Hnd.
  rewrite map_app in Hnd. cbn [map] in Hnd.
  rewrite <- Permutation_middle in Hnd. apply NoDup_cons in Hnd as [Hx _]. apply Hx.
  rewrite list_elem_of_In, <- map_app, <- List.filter_app, <- E. apply in_map. apply filter_In. split; [done|lia].
Qed.

Lemma map_upd_same tid o t :
  (forall e, In e t -> 0 <= orderNumber e -> transportId e <> tid) -> map (upd tid o) t = t.
Proof.
  induction t as [|e t IH]; intros H; [done|]. cbn [map]. rewrite IH by (intros; apply H; [by right|done]).
  f_equal. unfold upd. destruct (Z.leb_spec 0 (orderNumber e)); [|done]. cbn [andb].
  destruct (Z.eqb_spec (transportId e) tid); [|done]. exfalso. by apply (H e (or_introl eq_refl)).
Qed.

Lemma update_at_map h l tid i o :
  cache h l -> table_find tid 0 (mMotTable h) = Some i ->
  update_at (InTable i) o h = set_table (map (upd tid o) (mMotTable h)) h.
Proof.
  intros Hc Ef. pose proof (table_find_spec tid 0 (mMotTable h)) as Hf. rewrite Ef in Hf.
  destruct Hf as (t1 & e & t2 & Et & -> & Ho & <-). cbn [update_at]. f_equal. rewrite Z.add_0_l, Et, map_app. cbn [map].
  assert (forall t, (forall x, In x t -> In x (t1 ++ t2)) -> map (upd (transportId e) o) t = t) as Hs.
  { intros t Ht. apply map_upd_same. intros x Hx Hxo. eapply cache_unique; eauto. }
  rewrite (Hs t1), (Hs t2) by (intros x Hx; apply in_or_app; auto).
  unfold upd at 1. rewrite Z.eqb_refl. assert ((0 <=? orderNumber e) = true) as -> by lia. cbn [andb].
  unfold zlen. rewrite Nat2Z.id. rewrite <- (Nat.add_0_r (length t1)), alter_app_r. done.
Qed.

Lemma update_at_cache h l tid i o :
  cache h l -> table_find tid 0 (mMotTable h) = Some i -> cache (update_at (InTable i) o h) (replace tid o l).
Proof.
  intros Hc Ef. rewrite (update_at_map h l tid) by done. destruct Hc as [Hl Ho (es & Hp & Hs & Em) Hn Hx].
  split; cbn [mMotTable mOrderNumber set_table].
  - by rewrite length_map.
  - apply List.Forall_map. eapply List.Forall_impl; [|exact Ho]. intros e He. cbn beta in *. unfold upd. by case_match.
  - exists (map (upd tid o) es). split_and!.
    + rewrite used_upd. by apply Permutation_map.
    + clear - Hs. induction Hs as [|e es Hs IH Hf]; [constructor|]. cbn [map]. constructor; [done|].
      apply List.Forall_map. eapply List.Forall_impl; [|exact Hf]. intros e' H. unfold newer, upd in *. by repeat case_match.
    + assert (Forall (fun e => 0 <= orderNumber e) es) as Hz.
      { apply List.Forall_forall. intros e He. rewrite <- Hp in He. unfold used in He. apply filter_In in He as [_ ?]. lia. }
      clear - Em Hz. revert l Em. induction es as [|e es IH]; intros [|[t ob] l] Em; try done.
      apply Forall_cons_1 in Hz as [Hz Hzs]. cbn [map fst snd] in Em. injection Em as Et Eo Em. cbn [map replace fst snd].
      unfold replace in IH. rewrite (IH Hzs l Em). f_equal. unfold upd.
      assert ((0 <=? orderNumber e) = true) as -> by lia. cbn [andb]. rewrite Et.
      destruct (Z.eqb_spec t tid) as [->|]; cbn [transportId motSlide fst snd]; by rewrite ?Et, ?Eo.
  - assert (map fst (replace tid o l) = map fst l) as ->; [|done]. unfold replace. rewrite map_map. apply map_ext.
    intros [t ob]. cbn. by destruct (Z.eqb_spec t tid) as [->|].
  - done.
Qed.

(** The table of fifteen entries with order numbers implements a bounded
    list of objects, the newest first: looking an id up gives its object,
    creating an object puts it in front and drops the oldest when there are
    fifteen, and updating an object through its entry changes only the object
    of that id. *)
Theorem mot_table_refines (h : MotHandler) (l : list (Z * MotObject)) :
  cache h l ->
  (forall tid, table_lookup tid h = assoc tid l) /\
  (forall tid o, assoc tid l = None -> cache (setHandle o tid h) (take 15 ((tid, o) :: l))) /\
  (forall tid i o, table_find tid 0 (mMotTable h) = Some i -> cache (update_at (InTable i) o h) (replace tid o l)).
Proof.
  intros Hc. split_and!.
  - intros tid. by apply table_lookup_cache.
  - intros tid o H. apply setHandle_cache; [done|by apply assoc_None].
  - intros tid i o H. by apply update_at_cache.
Qed.

Lemma mot_table_refines_witness :
  (forall tid, table_lookup tid MotHandler_new = assoc tid []) /\
  (forall tid o, assoc tid [] = None -> cache (setHandle o tid MotHandler_new) (take 15 [(tid, o)])) /\
  (forall tid i o, table_find tid 0 (mMotTable MotHandler_new) = Some i ->
     cache (update_at (InTable i) o MotHandler_new) (replace tid o [])).
Proof. apply (mot_table_refines MotHandler_new []). apply cache_new. Defined.

(** ** Delivery through the handler *)
(** The segmentation header: repetition count and segment size. *)
Definition seg_header (rep n : Z) : list Z := [rep * 32 + n / 256; n mod 256].

(** The data group of a part of an object. *)
Definition part_group (a : mot_object_on_air) (rep : Z) (p : mot_part) : SMotGroup :=
  match p with
  | PartHeader => mk_group 3 true 0 (air_tid a)
      (seg_header rep (air_header_size a) ++ air_core a ++ flat_map enc_param (air_params a) ++ [])
  | PartSegment k => mk_group 4 (k =? zlen (air_segs a) - 1) k (air_tid a)
      (seg_header rep (zlen (air_seg a k)) ++ air_seg a k ++ [])
  end.

Lemma seg_header_read rep n :
  0 <= rep < 8 -> 0 <= n < 8192 ->
  Z.lor (Z.shiftl (Z.land (rep * 32 + n / 256) 0x1F) 8) (n mod 256) = n.
Proof.
  intros Hr Hn. pose proof (Z.mod_pos_bound n 256 ltac:(lia)). pose proof (Z.div_mod n 256 ltac:(lia)) as E.
  assert (0 <= n / 256 < 32) by (split; [apply Z.div_pos; lia|apply Z.div_lt_upper_bound; lia]).
  change 0x1F with (Z.ones 5). rewrite Z.land_ones by lia. change (2 ^ 5) with 32.
  rewrite Z.add_comm, Z_mod_plus_full, (Z.mod_small (n / 256)) by lia. rewrite Z.shiftl_mul_pow2 by lia.
  rewrite (lor_add_disjoint 8) by lia. change (2 ^ 8) with 256. lia.
Qed.

Section handler.
Context (a : mot_object_on_air) (Ha : on_air_ok a) (Htid : 0 <= air_tid a).
Context (Hsegs : Forall (fun s => zlen s < 8192) (air_segs a)).

(** The handler while the object is being received: it is in the cache, with
    the parts [D]. *)
Definition receiving (D : list mot_part) (h : MotHandler) : Prop :=
  exists l o, cache h l /\ assoc (air_tid a) l = Some o /\ collected a false D o.

Lemma collected_ext D D' o : (forall p, In p D <-> In p D') -> collected a false D o -> collected a false D' o.
Proof.
  intros HD [H1 H2 H3 H4 H5 H6]. split; try done.
  - intros k v. by rewrite H4, HD.
  - by rewrite <- HD.
  - by rewrite <- HD.
Qed.

Lemma seg_length k : 0 <= zlen (air_seg a k) < 8192.
Proof.
  split; [apply zlen_nonneg|]. unfold air_seg. destruct (nth_in_or_default (Z.to_nat k) (air_segs a) []) as [H|H].
  - rewrite List.Forall_forall in Hsegs. by apply Hsegs.
  - rewrite H. done.
Qed.

Lemma part_group_size rep p :
  0 <= rep < 8 -> exists size seg,
    get (g_bytes (part_group a rep p)) 0 = Some (rep * 32 + size / 256) /\
    get (g_bytes (part_group a rep p)) 1 = Some (size mod 256) /\
    Z.lor (Z.shiftl (Z.land (rep * 32 + size / 256) 0x1F) 8) (size mod 256) = size /\
    ptr (g_bytes (part_group a rep p)) 2 = Some seg /\
    match p with
    | PartHeader => size = air_header_size a /\ seg = air_core a ++ flat_map enc_param (air_params a) ++ []
    | PartSegment k => size = zlen (air_seg a k) /\ seg = air_seg a k ++ []
    end.
Proof.
  intros Hr. destruct Ha as [_ _ Hs _ _ _ _ _].
  assert (0 <= air_header_size a) as H0
    by (unfold air_header_size; pose proof (zlen_nonneg (flat_map enc_param (air_params a))); lia).
  assert (forall size seg, get (seg_header rep size ++ seg) 0 = Some (rep * 32 + size / 256) /\
    get (seg_header rep size ++ seg) 1 = Some (size mod 256) /\ ptr (seg_header rep size ++ seg) 2 = Some seg) as Hm.
  { intros size seg. pose proof (zlen_nonneg seg). unfold seg_header. cbn [app].
    rewrite !get_Some, ptr_Some by (rewrite !zlen_cons; lia). done. }
  destruct p as [|k]; cbn [part_group g_bytes].
  - exists (air_header_size a), (air_core a ++ flat_map enc_param (air_params a) ++ []).
    destruct (Hm (air_header_size a) (air_core a ++ flat_map enc_param (air_params a) ++ [])) as (-> & -> & ->).
    split_and!; try done. apply seg_header_read; [done|]. change 8192 with (2 ^ 13). lia.
  - exists (zlen (air_seg a k)), (air_seg a k ++ []). destruct (Hm (zlen (air_seg a k)) (air_seg a k ++ [])) as (-> & -> & ->).
    split_and!; try done. apply seg_header_read; [done|apply seg_length].
Qed.

Lemma receiving_handle D h :
  receiving D h -> exists i l o, getHandle (air_tid a) h = Some (InTable i) /\ cache h l /\
    table_find (air_tid a) 0 (mMotTable h) = Some i /\ object_at (InTable i) h = Some o /\ collected a false D o.
Proof.
  intros (l & o & Hc & Hl & Hcol). pose proof (table_lookup_cache h l (air_tid a) Hc) as E. rewrite Hl in E.
  unfold table_lookup in E. unfold getHandle. destruct (table_find (air_tid a) 0 (mMotTable h)) as [i|]; [|done].
  cbn [mbind option_bind] in E. exists i, l, o. split_and!; done.
Qed.

Lemma assoc_replace tid o l o' : assoc tid l = Some o' -> assoc tid (replace tid o l) = Some o.
Proof.
  induction l as [|[t x] l IH]; [done|]. cbn [assoc replace map fst]. destruct (Z.eqb_spec t tid) as [->|Hne]; cbn [assoc].
  - by rewrite Z.eqb_refl.
  - intros H. apply Z.eqb_neq in Hne. rewrite Hne. by apply IH.
Qed.

Lemma first_header h l rep :
  0 <= rep < 8 -> cache h l -> getHandle (air_tid a) h = None ->
  exists h' evs, handle_group (part_group a rep PartHeader) h = Some (h', evs) /\ objects evs = [] /\
    receiving [PartHeader] h'.
Proof.
  intros Hr Hc Hg. destruct (part_group_size rep PartHeader Hr) as (size & seg & E0 & E1 & Es & Ep & -> & ->).
  unfold handle_group. rewrite E0, E1. cbn [mbind option_bind]. rewrite Es.
  cbn [part_group g_type Z.eqb Pos.eqb g_segment]. unfold handle_header_group. cbn [g_segment Z.eqb g_tid]. rewrite Hg.
  unfold part_group in Ep. rewrite Ep. cbn [mbind option_bind g_last g_tid]. unfold MotObject_new.
  change (set_header _ _ _ _ ?o) with (arrive a [] PartHeader o).
  rewrite arrive_enter by done.
  destruct (arrive_header a [] false Ha ltac:(constructor) [] (enter (air_tid a) (MotObject_empty false false))) as (o & evs & -> & Hcol & _ & Hno).
  { apply collected_enter; cbn; [done|lia]. }
  cbn [mbind option_bind fst snd].
  assert (assoc (air_tid a) l = None) as Hnone.
  { rewrite <- (table_lookup_cache h l) by done. unfold table_lookup. unfold getHandle in Hg.
    by destruct (table_find (air_tid a) 0 (mMotTable h)). }
  eexists _, evs. split; [done|]. split.
  - apply Hno. intros [_ H]. destruct (H 0) as [?|[]]; [|done]. pose proof (air_segs_number a Ha). lia.
  - exists (take 15 ((air_tid a, o) :: l)), o. split; [apply setHandle_cache; [done|by apply assoc_None]|].
    split; [|done]. cbn [take assoc]. by rewrite Z.eqb_refl.
Qed.

(** One more part of an object that is being received; repeated headers are
    ignored. *)
Lemma next_part D h rep p :
  0 <= rep < 8 -> receiving D h -> In PartHeader D -> is_part a p ->
  exists h' evs, handle_group (part_group a rep p) h = Some (h', evs) /\ receiving (p :: D) h' /\
    (all_arrived a (p :: D) -> all_arrived a D \/ objects evs = [air_event a false]) /\
    (objects evs = [] \/ all_arrived a (p :: D) /\ objects evs = [air_event a false]).
Proof.
  intros Hr Hrec Hh Hp. destruct (receiving_handle D h Hrec) as (i & l & o & Hg & Hc & Hf & Ho & Hcol).
  destruct (part_group_size rep p Hr) as (size & seg & E0 & E1 & Es & Ep & Hsz).
  unfold handle_group. rewrite E0, E1. cbn [mbind option_bind]. rewrite Es. destruct p as [|k].
  - cbn [part_group g_type Z.eqb Pos.eqb g_segment]. unfold handle_header_group. cbn [g_segment Z.eqb g_tid]. rewrite Hg.
    assert (forall q, In q D <-> In q (PartHeader :: D)) as Heq by (intros q; split; [by right|]; intros [<-|?]; done).
    exists h, []. split; [done|]. split; [|split; [|by left]].
    + destruct Hrec as (l' & o' & H1 & H2 & H3). exists l', o'. split_and!; [done|done|]. by apply (collected_ext D).
    + intros [_ Hs]. left. split; [done|]. intros k Hk. by apply Heq, Hs.
  - destruct Hsz as [-> ->]. cbn [is_part] in Hp. pose proof (air_segs_number a Ha) as HN.
    replace (g_type (part_group a rep (PartSegment k))) with 4 by done. cbn [Z.eqb Pos.eqb]. unfold handle_body_group.
    rewrite Ep. cbn [mbind option_bind part_group g_tid g_segment g_last]. rewrite Hg. cbn [mbind option_bind]. rewrite Ho.
    cbn [mbind option_bind]. rewrite i16_small by lia.
    change (add_body_segment _ _ _ _ _ o) with (arrive a [] (PartSegment k) o).
    destruct (arrive_segment a [] false Ha D o k Hcol Hp) as (o' & evs & -> & Hcol' & Hy & Hn).
    cbn [mbind option_bind fst snd app]. eexists _, evs. split; [done|]. split; [|split; done].
    exists (replace (air_tid a) o' l), o'. split; [by apply update_at_cache|]. split; [|done].
    apply (assoc_replace _ _ _ o). rewrite <- (table_lookup_cache h l) by done. unfold table_lookup. by rewrite Hf.
Qed.
End handler.

Lemma all_arrived_ext a D D' : (forall p, In p D <-> In p D') -> all_arrived a D <-> all_arrived a D'.
Proof. intros H. unfold all_arrived. split; intros [H1 H2]; (split; [by apply H|]); intros k Hk; by apply H, H2. Qed.

(** The handler fed with encoded groups. *)
Fixpoint feed_groups (gs : list (list Z)) (h : MotHandler) : option (MotHandler * list mot_event) :=
  match gs with
  | [] => Some (h, [])
  | g :: gs =>
      r ← MotHandler_add_MSC_data_group g h;
      q ← feed_groups gs (fst r);
      Some (fst q, snd r ++ snd q)
  end.

(** Part [p] sent with repetition count [rep] in a group with the fields [ag]. *)
Record sent_part := mk_sent { sp_part : mot_part; sp_rep : Z; sp_air : group_on_air }.
Definition sent_bits (a : mot_object_on_air) (s : sent_part) : list Z :=
  enc_group (sp_air s) (part_group a (sp_rep s) (sp_part s)).
Definition sent_ok (a : mot_object_on_air) (s : sent_part) : Prop :=
  is_part a (sp_part s) /\ 0 <= sp_rep s < 8 /\ group_ok (sp_air s) (part_group a (sp_rep s) (sp_part s)).

Lemma feed_sent a s h :
  sent_ok a s -> MotHandler_add_MSC_data_group (sent_bits a s) h = handle_group (part_group a (sp_rep s) (sp_part s)) h.
Proof. intros (_ & _ & Hg). unfold MotHandler_add_MSC_data_group, sent_bits. by rewrite read_group_enc. Qed.

Lemma feed_parts a (Ha : on_air_ok a) (Hsegs : Forall (fun s => zlen s < 8192) (air_segs a)) ss D h :
  receiving a D h -> In PartHeader D -> Forall (sent_ok a) ss ->
  exists h' evs, feed_groups (map (sent_bits a) ss) h = Some (h', evs) /\
    receiving a (rev (map sp_part ss) ++ D) h' /\ Forall (eq (air_event a false)) (objects evs) /\
    (all_arrived a (rev (map sp_part ss) ++ D) -> all_arrived a D \/ objects evs <> []) /\
    (objects evs <> [] -> all_arrived a (rev (map sp_part ss) ++ D)).
Proof.
  revert D h. induction ss as [|s ss IH]; intros D h Hrec Hh Hok; cbn [map feed_groups rev app].
  - exists h, []. split_and!; [done|done|constructor|by left|done].
  - apply Forall_cons_1 in Hok as [Hs Hok]. pose proof Hs as (Hp & Hr & _). rewrite feed_sent by done.
    destruct (next_part a Ha Hsegs D h (sp_rep s) (sp_part s) Hr Hrec Hh Hp) as (h1 & ev1 & -> & H1 & Hy & Hsn).
    cbn [mbind option_bind fst snd]. destruct (IH (sp_part s :: D) h1 H1) as (h2 & ev2 & -> & H2 & Hf & Hy2 & Hn2);
      [by right|done|]. cbn [mbind option_bind fst snd]. eexists _, _. rewrite <- app_assoc. cbn [app].
    split; [done|]. split; [done|]. rewrite objects_app. split; [|split].
    + apply Forall_app. split; [|done]. destruct Hsn as [->|[_ ->]]; repeat constructor.
    + intros Hall. destruct (Hy2 Hall) as [H3|H3]; [|right; destruct (objects ev1); done].
      destruct (Hy H3) as [?|E]; [by left|right; by rewrite E].
    + intros Hne. destruct Hsn as [E|[[Hh' Hk] E]]; rewrite E in Hne; [by apply Hn2|].
      split; [apply in_or_app; by right|]. intros k Hk'. apply in_or_app. right. by apply Hk.
Qed.

(** C13: an object whose header group comes first is delivered by the handler.
    The groups may carry extension fields, end user addresses and CRCs, the
    segments may come in any order and repeatedly: every group is processed
    without an access outside its buffer, the object is reported when and only
    when all of it has arrived, and always with its segments in order, its name
    and its type. *)
Theorem mot_handler_delivers (a : mot_object_on_air) (h : MotHandler) (l : list (Z * MotObject))
    (s : sent_part) (ss : list sent_part) :
  on_air_ok a -> 0 <= air_tid a -> Forall (fun seg => zlen seg < 8192) (air_segs a) ->
  cache h l -> getHandle (air_tid a) h = None ->
  sp_part s = PartHeader -> Forall (sent_ok a) (s :: ss) ->
  exists h' evs, feed_groups (map (sent_bits a) (s :: ss)) h = Some (h', evs) /\
    (all_arrived a (map sp_part (s :: ss)) <-> objects evs <> []) /\
    Forall (eq (air_event a false)) (objects evs).
Proof.
  intros Ha Ht Hsegs Hc Hg Hs Hok. apply Forall_cons_1 in Hok as [Hs1 Hok]. pose proof Hs1 as (_ & Hr & _).
  cbn [map feed_groups]. rewrite feed_sent, Hs by done.
  destruct (first_header a Ha Ht Hsegs h l (sp_rep s) Hr Hc Hg) as (h1 & ev1 & -> & E1 & H1). cbn [mbind option_bind fst snd].
  destruct (feed_parts a Ha Hsegs ss [PartHeader] h1 H1) as (h2 & ev2 & -> & _ & Hf & Hy & Hn); [by left|done|].
  cbn [mbind option_bind fst snd]. eexists _, _. split; [done|]. rewrite objects_app, E1. cbn [app]. split; [|done].
  assert (all_arrived a (PartHeader :: map sp_part ss) <-> all_arrived a (rev (map sp_part ss) ++ [PartHeader])) as ->.
  { apply all_arrived_ext. intros p. rewrite in_app_iff, <- in_rev. cbn [In]. tauto. }
  split; [|done]. intros Hall. destruct (Hy Hall) as [[_ Hk]|?]; [|done]. exfalso.
  destruct (Hk 0) as [?|[]]; [|done]. pose proof (air_segs_number a Ha). lia.
Qed.

Definition sample_group : group_on_air := mk_air_group None 0 0 0 [] None.
Definition sample_sent : list sent_part :=
  [mk_sent PartHeader 1 sample_group; mk_sent (PartSegment 2) 1 sample_group; mk_sent (PartSegment 0) 2 sample_group;
   mk_sent (PartSegment 2) 2 sample_group; mk_sent (PartSegment 1) 0 sample_group].

Lemma mot_handler_delivers_witness :
  exists h' evs, feed_groups (map (sent_bits sample_object) sample_sent) MotHandler_new = Some (h', evs) /\
    (all_arrived sample_object (map sp_part sample_sent) <-> objects evs <> []) /\
    Forall (eq (air_event sample_object false)) (objects evs).
Proof.
  apply (mot_handler_delivers sample_object MotHandler_new [] (mk_sent PartHeader 1 sample_group) (tail sample_sent)).
  - apply sample_object_ok.
  - vm_compute. discriminate.
  - repeat constructor.
  - apply cache_new.
  - reflexivity.
  - reflexivity.
  - repeat constructor; try (vm_compute; congruence); try (apply forall_bytes; reflexivity); by left.
Defined.

(** ** What the handler does not check *)
(** A body segment whose header is not known is parsed as if it were one: the
    data of the body decides how far the parser runs over its end. *)
Lemma body_parsed_as_header :
  MotHandler_add_MSC_data_group
    (enc_group sample_group (mk_group 4 false 3 77 (seg_header 0 8 ++ [0; 0; 0; 255; 255; 255; 255; 0]))) MotHandler_new = None.
Proof. vm_compute. reflexivity. Qed.

(** The segment number of a directory segment is not compared with the 512
    marks. *)
Lemma directory_mark_unchecked (d : MotDirectory) (seg : list Z) (n size : Z) (last : bool) :
  length (marked d) = 512%nat -> 512 <= n -> directorySegment (dir_transportId d) seg n size last d = None.
Proof.
  intros Hm Hn. unfold directorySegment. rewrite Z.eqb_refl. cbn [negb]. unfold get_marked.
  destruct (Z.ltb_spec n 0); [lia|]. by rewrite lookup_ge_None_2 by lia.
Qed.

(** A segment size larger than the group is copied from behind it. *)
Lemma segment_size_unchecked (a : mot_object_on_air) (o : MotObject) (seg : list Z) (k n : Z) (last : bool) :
  0 <= k < 8192 -> mTransportId o = air_tid a -> seg_find k (mMotMap o) = None -> zlen seg < n ->
  add_body_segment seg k n last (air_tid a) o = None.
Proof.
  intros Hk Hid Hf Hn. unfold add_body_segment. assert (((k <? 0) || (8192 <=? k)) = false) as -> by lia.
  rewrite Hid, Z.eqb_refl. cbn [negb]. by rewrite Hf, getn_None by lia.
Qed.
