(* ===== verification/DataProcessor.v ===== *)
(** * Packet mode (src/src/base/backend/data/data_processor.cpp)

    A packet-mode sub-channel carries packets of 24, 48, 72 or 96 bytes.  The
    processor picks those of its address, follows their continuity index,
    checks their CRC, joins the useful parts of a series and hands the MSC data
    group to its data handler.  The handler is known through the interface
    [VirtualDataHandler] only; instances are the base class, which ignores
    groups, and the MOT handler. *)
From S2P Require Import Prelude BitExtractors BitFields Checked Crc MotObject MotHandler.
Open Scope Z_scope.

(** ** virtual_datahandler.h *)
Class VirtualDataHandler (H E : Type) := {
  add_MSC_data_group : list Z -> H -> option (H * list E)
}.

(** The base class. *)
#[export] Instance ignore_groups : VirtualDataHandler unit unit := {
  add_MSC_data_group := fun _ _ => Some (tt, [])
}.

#[export] Instance mot_data_handler : VirtualDataHandler MotHandler mot_event := {
  add_MSC_data_group := MotHandler_add_MSC_data_group
}.

Section processor.
Context {H E : Type} `{VirtualDataHandler H E}.

Record DataProcessor := mkDP {
  mBitRate : Z;
  mDSCTy : Z;
  mDGflag : bool;
  mPacketAddress : Z;
  mpDataHandler : H;
  mExpectedIndex : Z;
  mFirstPacket : bool;
  mSeriesVec : list Z;
  mPacketState : Z
}.

Definition DataProcessor_new (bitRate dscty : Z) (dgflag : bool) (address : Z) (handler : H) : DataProcessor :=
  mkDP bitRate dscty dgflag address handler 0 true [] 0.

Definition set_continuity (expected : Z) (first : bool) (s : DataProcessor) : DataProcessor :=
  mkDP (mBitRate s) (mDSCTy s) (mDGflag s) (mPacketAddress s) (mpDataHandler s) expected first (mSeriesVec s) (mPacketState s).
Definition set_series (state : Z) (vec : list Z) (s : DataProcessor) : DataProcessor :=
  mkDP (mBitRate s) (mDSCTy s) (mDGflag s) (mPacketAddress s) (mpDataHandler s) (mExpectedIndex s) (mFirstPacket s) vec state.
Definition set_handler (h : H) (s : DataProcessor) : DataProcessor :=
  mkDP (mBitRate s) (mDSCTy s) (mDGflag s) (mPacketAddress s) h (mExpectedIndex s) (mFirstPacket s) (mSeriesVec s) (mPacketState s).

(** [mpDataHandler->add_MSC_data_group(mSeriesVec)] *)
Definition hand_over (s : DataProcessor) : option (DataProcessor * list E) :=
  r ← add_MSC_data_group (mSeriesVec s) (mpDataHandler s);
  Some (set_handler (fst r) s, snd r).

(** The state machine: what is done with the useful part of a packet. *)
Definition assemble (firstLast : Z) (useful : list Z) (s : DataProcessor) : option (DataProcessor * list E) :=
  if mPacketState s =? 0 then                       (* waiting for a start *)
    if firstLast =? 2 then Some (set_series 1 useful s, [])
    else if firstLast =? 3 then hand_over (set_series 0 useful s)
    else Some (set_series 0 [] s, [])
  else if mPacketState s =? 1 then                  (* within a series *)
    if firstLast =? 0 then Some (set_series 1 (mSeriesVec s ++ useful) s, [])
    else if firstLast =? 1 then
      r ← hand_over (set_series 1 (mSeriesVec s ++ useful) s);
      Some (set_series 0 (mSeriesVec (fst r)) (fst r), snd r)
    else if firstLast =? 2 then Some (set_series 1 useful s, [])
    else Some (set_series 0 [] s, [])
  else Some (s, []).

(** Does [assemble] use the data of the packet? *)
Definition takes_data (firstLast state : Z) : bool :=
  if state =? 0 then (firstLast =? 2) || (firstLast =? 3)
  else if state =? 1 then (firstLast =? 0) || (firstLast =? 1) || (firstLast =? 2)
  else false.

Definition handle_packet (data : list Z) (s : DataProcessor) : option (DataProcessor * list E) :=
  _ ← inside data 0 24 tt;
  let packetLengthBytes := (getBits_2 data 0 + 1) * 24 in
  let continuityIndex := getBits_2 data 2 in
  let firstLast := getBits_2 data 4 in
  let address := getBits data 6 10 in
  let usefulLength := getBits_7 data 17 in
  if negb (mPacketAddress s =? address) then Some (s, [])
  else if negb (continuityIndex =? mExpectedIndex s) then Some (set_continuity 0 (mFirstPacket s) s, [])
  else
    let s := set_continuity ((mExpectedIndex s + 1) mod 4) false s in
    ok ← inside data 0 (packetLengthBytes * 8) (check_CRC_bits data (packetLengthBytes * 8));
    if negb ok then Some (s, [])
    else
      useful ← (if takes_data firstLast (mPacketState s) then getn data 24 (usefulLength * 8) else Some []);
      assemble firstLast useful s.

(** The loop over the packets of a frame; a pass takes at least 192 bits. *)
Fixpoint packet_loop (fuel : nat) (data : list Z) (lengthBits : Z) (s : DataProcessor)
  : option (DataProcessor * list E) :=
  match fuel with
  | O => None
  | S fuel =>
      _ ← inside data 0 2 tt;
      let pLengthBits := (getBits_2 data 0 + 1) * 24 * 8 in
      if lengthBits <? pLengthBits then Some (s, [])
      else
        r ← handle_packet data s;
        let lengthBits := lengthBits - pLengthBits in
        if lengthBits <? 2 then Some r
        else
          data ← ptr data pLengthBits;
          q ← packet_loop fuel data lengthBits (fst r);
          Some (fst q, snd r ++ snd q)
  end.

Definition handle_packets (data : list Z) (lengthBits : Z) (s : DataProcessor) : option (DataProcessor * list E) :=
  packet_loop (Z.to_nat (lengthBits / 192) + 1) data lengthBits s.

(** [_handle_TDC_async_stream] only checks the CRC and drops the result. *)
Definition handle_TDC_async_stream (data : list Z) (s : DataProcessor) : option (DataProcessor * list E) :=
  _ ← inside data 0 24 tt;
  _ ← inside data 0 ((getBits_2 data 0 + 1) * 24 * 8) tt;
  Some (s, []).

Definition add_to_frame (outV : list Z) (s : DataProcessor) : option (DataProcessor * list E) :=
  if (mDSCTy s =? 5) && mDGflag s then handle_TDC_async_stream outV s
  else handle_packets outV (24 * mBitRate s) s.

End processor.
Arguments DataProcessor : clear implicits.

(** ** Packets on air (EN 300 401, 5.3.2) *)
Record packet := mk_packet {
  pk_length : Z;        (* 0..3 for 24..96 bytes *)
  pk_continuity : Z;
  pk_firstlast : Z;
  pk_address : Z;
  pk_command : Z;
  pk_useful : list Z;   (* bits *)
  pk_rest : list Z      (* padding and CRC *)
}.

Definition enc_packet (p : packet) : list Z :=
  msb 2 (pk_length p) ++ msb 2 (pk_continuity p) ++ msb 2 (pk_firstlast p) ++ msb 10 (pk_address p) ++
  msb 1 (pk_command p) ++ msb 7 (zlen (pk_useful p) / 8) ++ pk_useful p ++ pk_rest p.

Definition packet_bits (p : packet) : Z := (pk_length p + 1) * 192.

Record packet_ok (p : packet) : Prop := {
  pok_length : 0 <= pk_length p < 4;
  pok_continuity : 0 <= pk_continuity p < 4;
  pok_firstlast : 0 <= pk_firstlast p < 4;
  pok_address : 0 <= pk_address p < 1024;
  pok_useful : Forall is_bit (pk_useful p) /\ zlen (pk_useful p) mod 8 = 0 /\ zlen (pk_useful p) < 1024;
  pok_rest : Forall is_bit (pk_rest p);
  pok_size : zlen (enc_packet p) = packet_bits p
}.

Lemma enc_packet_bit p : packet_ok p -> Forall is_bit (enc_packet p).
Proof.
  intros Hp. unfold enc_packet. repeat (apply Forall_app; split; [first [apply msb_bit|apply (pok_useful p Hp)]|]).
  apply (pok_rest p Hp).
Qed.

(** ** Reading a packet back *)
Lemma packet_fields p more :
  packet_ok p -> Forall is_bit more -> let d := enc_packet p ++ more in
  getBits_2 d 0 = pk_length p /\ getBits_2 d 2 = pk_continuity p /\ getBits_2 d 4 = pk_firstlast p /\
  getBits d 6 10 = pk_address p /\ getBits_7 d 17 = zlen (pk_useful p) / 8.
Proof.
  intros Hp Hm d. pose proof (enc_packet_bit p Hp) as He. destruct Hp as [H1 H2 H3 H4 (Hu1 & Hu2 & Hu3) H6 H7].
  assert (Forall is_bit d) as Hd by (apply Forall_app; by split).
  pose proof (zlen_nonneg (pk_useful p)).
  assert (0 <= zlen (pk_useful p) / 8 < 128) as Hl by (split; [apply Z.div_pos; lia|apply Z.div_lt_upper_bound; lia]).
  rewrite !getBits_2_field, getBits_7_field, getBits_field by (done || lia). subst d. unfold enc_packet. rewrite <- !app_assoc.
  split_and!; flds.
Qed.

Lemma check_CRC_bits_prefix l k n : 0 <= n <= zlen l -> check_CRC_bits (l ++ k) n = check_CRC_bits l n.
Proof.
  intros Hn. unfold check_CRC_bits. assert (crc_bits_loop (l ++ k) n = crc_bits_loop l n) as ->; [|done].
  unfold crc_bits_loop. apply zfor_ext. intros i b Hi. by rewrite rd_app_l by lia.
Qed.

Section reassembly.
Context {H E : Type} `{VirtualDataHandler H E}.
Implicit Types (s : DataProcessor H) (p : packet).

(** What the processor does with a packet, without the bits. *)
Definition packet_step p s : option (DataProcessor H * list E) :=
  if negb (mPacketAddress s =? pk_address p) then Some (s, [])
  else if negb (pk_continuity p =? mExpectedIndex s) then Some (set_continuity 0 (mFirstPacket s) s, [])
  else
    let s := set_continuity ((mExpectedIndex s + 1) mod 4) false s in
    if negb (check_CRC_bits (enc_packet p) (packet_bits p)) then Some (s, [])
    else assemble (pk_firstlast p) (pk_useful p) s.

Lemma assemble_no_data fl u v s : takes_data fl (mPacketState s) = false -> assemble fl u s = assemble fl v s.
Proof.
  unfold takes_data, assemble. repeat case_match; try done; zbool; try done; cbn [orb] in *; try done; lia.
Qed.

Lemma handle_packet_enc p more s :
  packet_ok p -> Forall is_bit more -> handle_packet (enc_packet p ++ more) s = packet_step p s.
Proof.
  intros Hp Hm. destruct (packet_fields p more Hp Hm) as (F1 & F2 & F3 & F4 & F5).
  pose proof (pok_size p Hp) as Hs. pose proof (pok_length p Hp). destruct (pok_useful p Hp) as (_ & Hu & _).
  pose proof (zlen_nonneg more). unfold packet_bits in Hs. unfold handle_packet, packet_step.
  rewrite (inside_Some _ 0 24 tt) by (rewrite ?zlen_app; lia). cbn [mbind option_bind]. rewrite F1, F2, F3, F4, F5.
  destruct (negb (mPacketAddress s =? pk_address p)); [done|].
  destruct (negb (pk_continuity p =? mExpectedIndex s)); [done|].
  rewrite inside_Some by (rewrite ?zlen_app; lia). cbn [mbind option_bind].
  rewrite check_CRC_bits_prefix by lia. replace ((pk_length p + 1) * 24 * 8) with (packet_bits p) by (unfold packet_bits; lia).
  destruct (negb (check_CRC_bits (enc_packet p) (packet_bits p))); [done|].
  set (s' := set_continuity _ _ s). destruct (takes_data (pk_firstlast p) (mPacketState s')) eqn:Et.
  - replace (zlen (pk_useful p) / 8 * 8) with (zlen (pk_useful p)) by (pose proof (Z.div_mod (zlen (pk_useful p)) 8); lia).
    unfold enc_packet. rewrite <- !app_assoc.
    rewrite (app_assoc (msb 2 _)), (app_assoc (_ ++ _) (msb 2 _)), (app_assoc (_ ++ _) (msb 10 _)),
      (app_assoc (_ ++ _) (msb 1 _)), (app_assoc (_ ++ _) (msb 7 _)).
    rewrite getn_app; [done| |done]. rewrite !zlen_app, !zlen_msb by lia. done.
  - cbn [mbind option_bind]. by apply assemble_no_data.
Qed.

Fixpoint run_packets (ps : list packet) s : option (DataProcessor H * list E) :=
  match ps with
  | [] => Some (s, [])
  | p :: ps => r ← packet_step p s; q ← run_packets ps (fst r); Some (fst q, snd r ++ snd q)
  end.

Definition frame_bits (ps : list packet) : list Z := flat_map enc_packet ps.

Lemma frame_bits_bit ps : Forall packet_ok ps -> Forall is_bit (frame_bits ps).
Proof.
  induction 1 as [|p ps Hp Hps IH]; [constructor|]. unfold frame_bits in *. cbn [flat_map].
  apply Forall_app. split; [by apply enc_packet_bit|done].
Qed.

Lemma packet_loop_frame fuel ps s :
  ps <> [] -> Forall packet_ok ps -> zlen (frame_bits ps) < 192 * Z.of_nat fuel ->
  packet_loop fuel (frame_bits ps) (zlen (frame_bits ps)) s = run_packets ps s.
Proof.
  revert ps s. induction fuel as [|fuel IH]; intros ps s Hne Hok Hf; [pose proof (zlen_nonneg (frame_bits ps)); lia|].
  destruct ps as [|p ps]; [done|]. apply Forall_cons_1 in Hok as [Hp Hok]. pose proof (frame_bits_bit ps Hok) as Hb.
  unfold frame_bits in *. cbn [flat_map] in *. fold (frame_bits ps) in *. set (more := frame_bits ps) in *.
  destruct (packet_fields p more Hp Hb) as (F1 & _). pose proof (pok_size p Hp) as Hs. pose proof (pok_length p Hp) as Hl.
  unfold packet_bits in Hs. rewrite zlen_app in *. pose proof (zlen_nonneg more). cbn [packet_loop].
  rewrite (inside_Some _ 0 2 tt) by (rewrite ?zlen_app; lia). cbn [mbind option_bind]. rewrite F1.
  destruct (Z.ltb_spec (zlen (enc_packet p) + zlen more) ((pk_length p + 1) * 24 * 8)); [lia|].
  rewrite handle_packet_enc by done. cbn [run_packets].
  destruct (packet_step p s) as [[s1 e1]|]; cbn [mbind option_bind fst snd]; [|done].
  replace (zlen (enc_packet p) + zlen more - (pk_length p + 1) * 24 * 8) with (zlen more) by lia.
  destruct ps as [|p2 ps].
  - change (zlen more) with 0. cbn. by rewrite app_nil_r.
  - assert (192 <= zlen more) as Hmore.
    { apply Forall_cons_1 in Hok as [Hp2 _]. subst more. unfold frame_bits. cbn [flat_map]. rewrite zlen_app.
      pose proof (pok_size p2 Hp2). pose proof (pok_length p2 Hp2). unfold packet_bits in *.
      pose proof (zlen_nonneg (flat_map enc_packet ps)). lia. }
    destruct (Z.ltb_spec (zlen more) 2); [lia|]. rewrite ptr_Some by (rewrite zlen_app; lia). cbn [mbind option_bind].
    replace (Z.to_nat ((pk_length p + 1) * 24 * 8)) with (length (enc_packet p)) by (unfold zlen in Hs; lia).
    rewrite drop_app_length. unfold frame_bits in IH. subst more. unfold frame_bits in *.
    rewrite IH by (done || lia). done.
Qed.

Lemma run_packets_app ps qs s :
  run_packets (ps ++ qs) s = r ← run_packets ps s; q ← run_packets qs (fst r); Some (fst q, snd r ++ snd q).
Proof.
  revert s. induction ps as [|p ps IH]; intros s; cbn [app run_packets mbind option_bind fst snd].
  - by destruct (run_packets qs s) as [[s' e]|].
  - destruct (packet_step p s) as [[s1 e1]|]; cbn [mbind option_bind fst snd]; [|done]. rewrite IH.
    destruct (run_packets ps s1) as [[s2 e2]|]; cbn [mbind option_bind fst snd]; [|done].
    destruct (run_packets qs s2) as [[s3 e3]|]; cbn [mbind option_bind fst snd]; [|done]. by rewrite app_assoc.
Qed.

(** Frames, one after the other. *)
Fixpoint feed_frames (fs : list (list Z)) s : option (DataProcessor H * list E) :=
  match fs with
  | [] => Some (s, [])
  | f :: fs => r ← add_to_frame f s; q ← feed_frames fs (fst r); Some (fst q, snd r ++ snd q)
  end.

(** A processor in packet mode. *)
Definition packet_mode s : Prop := (mDSCTy s =? 5) && mDGflag s = false.

Lemma assemble_keeps fl u s r : assemble fl u s = Some r ->
  mBitRate (fst r) = mBitRate s /\ mDSCTy (fst r) = mDSCTy s /\ mDGflag (fst r) = mDGflag s /\
  mPacketAddress (fst r) = mPacketAddress s /\ mExpectedIndex (fst r) = mExpectedIndex s.
Proof.
  unfold assemble, hand_over. intros Hr.
  repeat (case_match; try discriminate); try (injection Hr as <-; done);
    destruct (add_MSC_data_group _ _) as [[h' e]|]; cbn in Hr; try discriminate; injection Hr as <-; done.
Qed.

Lemma packet_step_keeps p s r : packet_step p s = Some r ->
  mBitRate (fst r) = mBitRate s /\ mDSCTy (fst r) = mDSCTy s /\ mDGflag (fst r) = mDGflag s /\
  mPacketAddress (fst r) = mPacketAddress s.
Proof.
  unfold packet_step. intros Hr. repeat case_match; try (injection Hr as <-; done).
  apply assemble_keeps in Hr as (? & ? & ? & ? & _). done.
Qed.

Lemma run_packets_keeps ps s r : run_packets ps s = Some r ->
  mBitRate (fst r) = mBitRate s /\ mDSCTy (fst r) = mDSCTy s /\ mDGflag (fst r) = mDGflag s.
Proof.
  revert s r. induction ps as [|p ps IH]; intros s r; cbn [run_packets]; [intros [= <-]; done|].
  destruct (packet_step p s) as [r1|] eqn:E1; cbn [mbind option_bind]; [|done].
  destruct (run_packets ps (fst r1)) as [r2|] eqn:E2; cbn [mbind option_bind]; [|done]. intros [= <-]. cbn [fst].
  apply packet_step_keeps in E1 as (<- & <- & <- & _). by apply IH in E2.
Qed.

(** The packets of a sequence of frames are handled in order. *)
Lemma feed_frames_packets (fss : list (list packet)) s :
  packet_mode s ->
  Forall (fun ps => ps <> [] /\ Forall packet_ok ps /\ zlen (frame_bits ps) = 24 * mBitRate s) fss ->
  feed_frames (map frame_bits fss) s = run_packets (concat fss) s.
Proof.
  revert s. induction fss as [|ps fss IH]; intros s Hm Hok; [done|]. apply Forall_cons_1 in Hok as [(Hne & Hps & Hl) Hok].
  cbn [map feed_frames concat]. unfold add_to_frame, handle_packets. unfold packet_mode in Hm. rewrite Hm, <- Hl.
  pose proof (zlen_nonneg (frame_bits ps)).
  rewrite packet_loop_frame; [|done|done|].
  2: { rewrite Nat2Z.inj_add, Z2Nat.id by (apply Z.div_pos; lia). pose proof (Z.div_mod (zlen (frame_bits ps)) 192 ltac:(lia)).
       pose proof (Z.mod_pos_bound (zlen (frame_bits ps)) 192 ltac:(lia)). lia. }
  rewrite run_packets_app. destruct (run_packets ps s) as [r|] eqn:E1; cbn [mbind option_bind]; [|done].
  apply run_packets_keeps in E1 as (E1 & E2 & E3). rewrite IH; [done|unfold packet_mode; by rewrite E2, E3|by rewrite E1].
Qed.

(** ** Series of packets *)
(** [stream acc fs gs]: the fragments [fs] (first/last flags and useful bits),
    received when [acc] is the group under construction, make up the groups
    [gs].  Fragments without a start are skipped, a new start drops what is
    incomplete. *)
Inductive stream : option (list Z) -> list (Z * list Z) -> list (list Z) -> Prop :=
  | stream_end acc : stream acc [] []
  | stream_single u fs gs : stream None fs gs -> stream None ((3, u) :: fs) (u :: gs)
  | stream_first acc u fs gs : stream (Some u) fs gs -> stream acc ((2, u) :: fs) gs
  | stream_middle acc u fs gs : stream (Some (acc ++ u)) fs gs -> stream (Some acc) ((0, u) :: fs) gs
  | stream_last acc u fs gs : stream None fs gs -> stream (Some acc) ((1, u) :: fs) ((acc ++ u) :: gs)
  | stream_orphan fl u fs gs : fl = 0 \/ fl = 1 -> stream None fs gs -> stream None ((fl, u) :: fs) gs.

Fixpoint deliver (gs : list (list Z)) (h : H) : option (H * list E) :=
  match gs with
  | [] => Some (h, [])
  | g :: gs => r ← add_MSC_data_group g h; q ← deliver gs (fst r); Some (fst q, snd r ++ snd q)
  end.

Definition in_series (acc : option (list Z)) s : Prop :=
  match acc with None => mPacketState s = 0 | Some l => mPacketState s = 1 /\ mSeriesVec s = l end.

Definition mine s p : bool := mPacketAddress s =? pk_address p.

(** The packets of the address: numbered consecutively, with the right CRC. *)
Definition intact (e : Z) (ps : list packet) : Prop :=
  map pk_continuity ps = map (fun i => (e + i) mod 4) (seqZ 0 (zlen ps)) /\
  Forall (fun p => check_CRC_bits (enc_packet p) (packet_bits p) = true) ps.

Definition fragments (ps : list packet) : list (Z * list Z) := map (fun p => (pk_firstlast p, pk_useful p)) ps.

Lemma intact_cons e p ps :
  intact e (p :: ps) -> pk_continuity p = e mod 4 /\ check_CRC_bits (enc_packet p) (packet_bits p) = true /\
  intact ((e + 1) mod 4) ps.
Proof.
  intros [Hc Hok]. apply Forall_cons_1 in Hok as [Hok Hoks]. rewrite zlen_cons in Hc. pose proof (zlen_nonneg ps).
  rewrite seqZ_cons in Hc by lia. cbn [map] in Hc. injection Hc as Hc1 Hc2. rewrite Z.add_0_r in Hc1.
  split; [done|]. split; [done|]. split; [|done]. rewrite Hc2. replace (Z.pred (1 + zlen ps)) with (zlen ps) by lia.
  change (Z.succ 0) with (1 + 0). rewrite <- (fmap_add_seqZ 1 0). change (@fmap list _ Z Z) with (@map Z Z). rewrite map_map.
  apply map_ext. intros i. rewrite Zplus_mod_idemp_l. f_equal. lia.
Qed.

(** Running the packets has the effect of delivering the groups. *)
Definition delivers (ps : list packet) s (gs : list (list Z)) : Prop :=
  match deliver gs (mpDataHandler s) with
  | Some (h', ev) => exists s', run_packets ps s = Some (s', ev) /\ mpDataHandler s' = h'
  | None => run_packets ps s = None
  end.

Lemma delivers_quiet p ps s s1 gs :
  packet_step p s = Some (s1, []) -> mpDataHandler s1 = mpDataHandler s -> delivers ps s1 gs -> delivers (p :: ps) s gs.
Proof.
  unfold delivers. intros E1 E2 Hd. cbn [run_packets]. rewrite E1. cbn [mbind option_bind fst snd app]. rewrite E2 in Hd.
  destruct (deliver gs (mpDataHandler s)) as [[h' ev]|]; [|by rewrite Hd].
  destruct Hd as (s' & -> & ?). by exists s'.
Qed.

Lemma delivers_group p ps s (f : H -> DataProcessor H) g gs :
  packet_step p s = (r ← add_MSC_data_group g (mpDataHandler s); Some (f (fst r), snd r)) ->
  (forall h, mpDataHandler (f h) = h) -> (forall h, delivers ps (f h) gs) -> delivers (p :: ps) s (g :: gs).
Proof.
  unfold delivers. intros E1 E2 Hd. cbn [run_packets deliver]. rewrite E1.
  destruct (add_MSC_data_group g (mpDataHandler s)) as [[h1 e1]|]; cbn [mbind option_bind fst snd]; [|done].
  specialize (Hd h1). rewrite E2 in Hd. destruct (deliver gs h1) as [[h' ev]|]; cbn [mbind option_bind fst snd]; [|by rewrite Hd].
  destruct Hd as (s' & -> & ?). by exists s'.
Qed.

Lemma own_packet_step p s :
  mine s p = true -> pk_continuity p = mExpectedIndex s -> check_CRC_bits (enc_packet p) (packet_bits p) = true ->
  packet_step p s = assemble (pk_firstlast p) (pk_useful p) (set_continuity ((mExpectedIndex s + 1) mod 4) false s).
Proof. intros Em Hc Hcrc. unfold packet_step. unfold mine in Em. by rewrite Em, Hc, Z.eqb_refl, Hcrc. Qed.

Lemma run_packets_stream ps gs acc s :
  0 <= mExpectedIndex s < 4 -> intact (mExpectedIndex s) (List.filter (mine s) ps) ->
  stream acc (fragments (List.filter (mine s) ps)) gs -> in_series acc s -> delivers ps s gs.
Proof.
  revert gs acc s. induction ps as [|p ps IH]; intros gs acc s He Hi Hst Hin.
  { cbn in Hst. inversion Hst; subst. unfold delivers. cbn [deliver run_packets]. by exists s. }
  cbn [List.filter] in Hi, Hst. destruct (mine s p) eqn:Em.
  2: { eapply delivers_quiet; [|reflexivity|by eapply IH]. unfold packet_step. unfold mine in Em. by rewrite Em. }
  apply intact_cons in Hi as (Hc & Hcrc & Hi). rewrite Z.mod_small in Hc by lia. cbn [fragments map] in Hst.
  fold (fragments (List.filter (mine s) ps)) in Hst. pose proof (own_packet_step p s Em Hc Hcrc) as Est.
  pose proof (Z.mod_pos_bound (mExpectedIndex s + 1) 4 ltac:(lia)) as Hb.
  set (s1 := set_continuity ((mExpectedIndex s + 1) mod 4) false s) in *.
  assert (forall h st vec acc' gs', stream acc' (fragments (List.filter (mine s) ps)) gs' ->
    in_series acc' (set_series st vec (set_handler h s1)) -> delivers ps (set_series st vec (set_handler h s1)) gs') as IH'.
  { intros h st vec acc' gs' Hs' Hin'. eapply IH; done. }
  assert (forall st vec acc', stream acc' (fragments (List.filter (mine s) ps)) gs -> in_series acc' (set_series st vec s1) ->
    assemble (pk_firstlast p) (pk_useful p) s1 = Some (set_series st vec s1, []) -> delivers (p :: ps) s gs) as Hquiet.
  { intros st vec acc' Hs' Hin' Ea. eapply delivers_quiet; [by rewrite Est, Ea|done|]. by eapply IH. }
  assert (mPacketState s1 = mPacketState s /\ mSeriesVec s1 = mSeriesVec s) as [Es Ev] by done.
  unfold assemble in Est, Hquiet. rewrite Es, Ev in Est, Hquiet.
  inversion Hst as [|u fs gs' Hst' |a0 u fs gs' Hst'|a0 u fs gs' Hst'|a0 u fs gs' Hst'|fl u fs gs' Hfl Hst']; subst;
    cbn [in_series] in Hin.
  - rewrite Hin in Est. cbn [Z.eqb Pos.eqb] in Est. replace (pk_firstlast p =? 2) with false in Est by lia.
    replace (pk_firstlast p =? 3) with true in Est by lia.
    apply (delivers_group p ps s (fun h => set_series 0 (pk_useful p) (set_handler h s1))); [done|done|].
    intros h. by eapply IH'.
  - replace (pk_firstlast p =? 2) with true in Hquiet by lia. replace (pk_firstlast p =? 0) with false in Hquiet by lia.
    replace (pk_firstlast p =? 1) with false in Hquiet by lia. apply (Hquiet 1 (pk_useful p) _ Hst'); [done|].
    destruct acc as [l|]; cbn [in_series] in Hin; [destruct Hin as [-> _]|rewrite Hin]; done.
  - destruct Hin as [Hin1 Hin2]. rewrite Hin1, Hin2 in Hquiet. replace (pk_firstlast p =? 0) with true in Hquiet by lia.
    by apply (Hquiet 1 (a0 ++ pk_useful p) _ Hst').
  - destruct Hin as [Hin1 Hin2]. rewrite Hin1, Hin2 in Est. cbn [Z.eqb Pos.eqb] in Est.
    replace (pk_firstlast p =? 0) with false in Est by lia. replace (pk_firstlast p =? 1) with true in Est by lia.
    apply (delivers_group p ps s (fun h => set_series 0 (a0 ++ pk_useful p) (set_handler h s1))); [|done|intros h; by eapply IH'].
    rewrite Est. unfold hand_over. cbn [mSeriesVec set_series mpDataHandler].
    change (mpDataHandler s1) with (mpDataHandler s). by destruct (add_MSC_data_group _ _) as [[h1 e1]|].
  - rewrite Hin in Hquiet. cbn [Z.eqb] in Hquiet. replace (pk_firstlast p =? 2) with false in Hquiet by lia.
    replace (pk_firstlast p =? 3) with false in Hquiet by lia. by apply (Hquiet 0 [] _ Hst').
Qed.
End reassembly.

(** Frames that carry packets of any lengths are cut into their packets,
    packets of other addresses are skipped, and when the packets of the address
    arrive intact and in order, the data handler is given exactly the data
    groups of the stream, in order and with the useful parts of each series
    joined; nothing outside a frame is read.  This holds for every handler. *)
Theorem packet_reassembly {H E : Type} `{VirtualDataHandler H E} (s : DataProcessor H) (fss : list (list packet))
    (gs : list (list Z)) :
  packet_mode s -> mPacketState s = 0 -> 0 <= mExpectedIndex s < 4 ->
  Forall (fun ps => ps <> [] /\ Forall packet_ok ps /\ zlen (frame_bits ps) = 24 * mBitRate s) fss ->
  intact (mExpectedIndex s) (List.filter (mine s) (concat fss)) ->
  stream None (fragments (List.filter (mine s) (concat fss))) gs ->
  match deliver gs (mpDataHandler s) with
  | Some (h', ev) => exists s', feed_frames (map frame_bits fss) s = Some (s', ev) /\ mpDataHandler s' = h'
  | None => feed_frames (map frame_bits fss) s = None
  end.
Proof.
  intros Hm Hs He Hok Hi Hst. rewrite (feed_frames_packets fss s Hm Hok). by apply (run_packets_stream _ _ None).
Qed.

(** A recording handler, for examples. *)
#[local] Instance record_groups : VirtualDataHandler unit (list Z) := {
  add_MSC_data_group := fun g _ => Some (tt, [g])
}.

Definition sample_packet (cont fl addr : Z) (useful rest : list Z) : packet := mk_packet 0 cont fl addr 0 useful rest.

(** The padding of a packet of 24 bytes, closed by the CRC of what precedes. *)
Definition with_crc (p : packet) : packet :=
  let pad := zeros (192 - 16 - 24 - zlen (pk_useful p)) in
  let body := msb 2 (pk_length p) ++ msb 2 (pk_continuity p) ++ msb 2 (pk_firstlast p) ++ msb 10 (pk_address p) ++
              msb 1 (pk_command p) ++ msb 7 (zlen (pk_useful p) / 8) ++ pk_useful p ++ pad in
  let bytes := match pack_bytes body 0 176 with Some b => b | None => [] end in
  mk_packet (pk_length p) (pk_continuity p) (pk_firstlast p) (pk_address p) (pk_command p) (pk_useful p)
    (pad ++ msb 16 (calc_crc bytes 22)).

Definition sample_frames : list (list packet) :=
  [ [with_crc (sample_packet 0 2 5 (msb 16 0xABCD) [])]
  ; [with_crc (sample_packet 0 2 9 (msb 8 0x11) [])]
  ; [with_crc (sample_packet 1 1 5 (msb 8 0xEF) [])] ].

Lemma packet_ok_dec p :
  (0 <=? pk_length p) && (pk_length p <? 4) && ((0 <=? pk_continuity p) && (pk_continuity p <? 4)) &&
  ((0 <=? pk_firstlast p) && (pk_firstlast p <? 4)) && ((0 <=? pk_address p) && (pk_address p <? 1024)) &&
  (forallb is_bitb (pk_useful p) && (zlen (pk_useful p) mod 8 =? 0) && (zlen (pk_useful p) <? 1024)) &&
  forallb is_bitb (pk_rest p) && (zlen (enc_packet p) =? packet_bits p) = true -> packet_ok p.
Proof. intros Hp. zbool. split; try done. split; [by apply forall_bits01|done]. by apply forall_bits01. Qed.

Lemma packet_reassembly_witness :
  match deliver [msb 16 0xABCD ++ msb 8 0xEF] tt with
  | Some (h', ev) => exists s', feed_frames (map frame_bits sample_frames) (DataProcessor_new 8 60 false 5 tt) = Some (s', ev) /\
      mpDataHandler s' = h'
  | None => feed_frames (map frame_bits sample_frames) (DataProcessor_new 8 60 false 5 tt) = None
  end.
Proof.
  apply (packet_reassembly (DataProcessor_new 8 60 false 5 tt) sample_frames [msb 16 0xABCD ++ msb 8 0xEF]).
  - reflexivity.
  - reflexivity.
  - cbn. lia.
  - repeat (constructor; [split; [discriminate|split; [constructor; [apply packet_ok_dec; vm_compute; reflexivity|constructor]|vm_compute; reflexivity]]|]).
    constructor.
  - split; [vm_compute; reflexivity|]. apply Forall_forall. intros p Hp. cbn [sample_frames concat app List.filter] in Hp.
    vm_compute in Hp. repeat (destruct Hp as [<-|Hp]; [vm_compute; reflexivity|]). destruct Hp.
  - vm_compute. apply stream_first. apply (stream_last (msb 16 0xABCD) (msb 8 0xEF)). constructor.
Defined.

(** ** What the processor does not check *)
Definition fresh5 : DataProcessor unit := DataProcessor_new 8 60 false 5 tt.

(** The useful length is not compared with the length of the packet: a packet
    of 24 bytes that claims 127 is read behind the end of the frame. *)
Lemma useful_length_unchecked :
  let body := msb 2 0 ++ msb 2 0 ++ msb 2 3 ++ msb 10 5 ++ msb 1 0 ++ msb 7 127 ++ zeros 152 in
  let bytes := match pack_bytes body 0 176 with Some b => b | None => [] end in
  let frame := body ++ msb 16 (calc_crc bytes 22) in
  zlen frame = 24 * mBitRate fresh5 /\ check_CRC_bits frame 192 = true /\ add_to_frame frame fresh5 = None.
Proof. vm_compute. split_and!; reflexivity. Qed.

(** A gap in the continuity index does not end the series: the parts before
    and after the gap are joined. *)
Lemma gap_is_joined :
  snd <$> run_packets
    [ with_crc (sample_packet 0 2 5 (msb 8 0x11) []); (* packet 1 of the series is lost *)
      with_crc (sample_packet 2 0 5 (msb 8 0x33) []); with_crc (sample_packet 3 0 5 (msb 8 0x44) []);
      with_crc (sample_packet 0 1 5 (msb 8 0x55) []) ] fresh5
  = Some [msb 8 0x11 ++ msb 8 0x55].
Proof. vm_compute. reflexivity. Qed.

(** A group in a single packet is dropped when a series was left incomplete. *)
Lemma single_after_gap_lost :
  snd <$> run_packets
    [ with_crc (sample_packet 0 2 5 (msb 8 0x11) []); with_crc (sample_packet 1 3 5 (msb 8 0x22) []) ] fresh5 = Some [].
Proof. vm_compute. reflexivity. Qed.
