(* ===== verification/PadHandler.v ===== *)
(** * Programme associated data (src/src/base/backend/data/pad_handler.cpp)

    [process_PAD] takes the PAD bytes of an audio frame, stored in reverse, and
    the two F-PAD bytes.  It collects the dynamic label, MOT data groups (for
    the object of [MotObject]) and Journaline data groups.  Signals are returned
    as [pad_event]s; a label is given by the arguments of the character set
    conversion.  [None] is a read outside the PAD buffer or outside a data
    group.  The members of the class are grouped by what they are used for. *)
From S2P Require Import Prelude BitExtractors BitFields Checked Crc MotObject DataProcessor.
Open Scope Z_scope.

(** ** State *)
Definition CharSet_Invalid : Z := -1.
Definition CharSet_EbuLatin : Z := 0x00.

(** The dynamic label. *)
Record SDynamicLabel := mk_dl {
  mDynamicLabelTextUnConverted : list Z;
  mCharSet : Z;
  mLastConvCharSet : Z;
  mSegmentNo : Z;
  mRemainDataLength : Z;
  mIsLastSegment : bool;
  mMoreXPad : bool
}.
(** Short X-PAD. *)
Record SShortPad := mk_short {
  mStillToGo : Z;
  mShortPadData : list Z;
  mLastSegment : bool;
  mFirstSegment : bool;
  mSegmentNumber : Z
}.
(** MSC data groups. *)
Record SMscData := mk_msc {
  mMscGroupElement : bool;
  mDataGroupLength : Z;
  mMscDataGroupBuffer : list Z
}.
(** Journaline data groups. *)
Record SJournaline := mk_jour {
  mJournalineXPadAppTy : Z;
  mJournalineDataGroupBuffer : list Z;
  mJournalineDataGroupLength : Z
}.

Record PadHandler := mkPad {
  pad_dl : SDynamicLabel;
  pad_short : SShortPad;
  pad_msc : SMscData;
  pad_jour : SJournaline;
  mpMotObject : MotObject;
  mLastAppType : Z;
  mXPadLength : Z
}.

Inductive pad_event :=
  | signal_show_label (text : list Z) (charset : Z)
  | signal_show_mot_handling
  | signal_journaline_data_group (group : list Z)
  | pad_mot_event (e : mot_event).

Definition PadHandler_new : PadHandler :=
  mkPad (mk_dl [] CharSet_EbuLatin CharSet_Invalid (-1) 0 false false)
        (mk_short 0 [] false false (-1))
        (mk_msc false 0 []) (mk_jour (-1) [] 0) (MotObject_empty false true) 0 (-1).

Definition on_dl (f : SDynamicLabel -> SDynamicLabel) (s : PadHandler) : PadHandler :=
  mkPad (f (pad_dl s)) (pad_short s) (pad_msc s) (pad_jour s) (mpMotObject s) (mLastAppType s) (mXPadLength s).
Definition on_short (f : SShortPad -> SShortPad) (s : PadHandler) : PadHandler :=
  mkPad (pad_dl s) (f (pad_short s)) (pad_msc s) (pad_jour s) (mpMotObject s) (mLastAppType s) (mXPadLength s).
Definition on_msc (f : SMscData -> SMscData) (s : PadHandler) : PadHandler :=
  mkPad (pad_dl s) (pad_short s) (f (pad_msc s)) (pad_jour s) (mpMotObject s) (mLastAppType s) (mXPadLength s).
Definition on_jour (f : SJournaline -> SJournaline) (s : PadHandler) : PadHandler :=
  mkPad (pad_dl s) (pad_short s) (pad_msc s) (f (pad_jour s)) (mpMotObject s) (mLastAppType s) (mXPadLength s).
Definition set_mpMotObject (o : MotObject) (s : PadHandler) : PadHandler :=
  mkPad (pad_dl s) (pad_short s) (pad_msc s) (pad_jour s) o (mLastAppType s) (mXPadLength s).
Definition set_mLastAppType (t : Z) (s : PadHandler) : PadHandler :=
  mkPad (pad_dl s) (pad_short s) (pad_msc s) (pad_jour s) (mpMotObject s) t (mXPadLength s).
Definition set_mXPadLength (n : Z) (s : PadHandler) : PadHandler :=
  mkPad (pad_dl s) (pad_short s) (pad_msc s) (pad_jour s) (mpMotObject s) (mLastAppType s) n.

(** ** Contents indicators *)
Definition cLengthTable : list Z := [4; 6; 8; 12; 16; 24; 32; 48].
Definition ci_length (ci : Z) : Z := rd cLengthTable (Z.shiftr ci 5).
Definition ci_appl_type (ci : Z) : Z := Z.land ci 0x1F.

(** ** The label text *)
Definition set_text (t : list Z) (d : SDynamicLabel) : SDynamicLabel :=
  mk_dl t (mCharSet d) (mLastConvCharSet d) (mSegmentNo d) (mRemainDataLength d) (mIsLastSegment d) (mMoreXPad d).
Definition set_charset (c : Z) (d : SDynamicLabel) : SDynamicLabel :=
  mk_dl (mDynamicLabelTextUnConverted d) c (mLastConvCharSet d) (mSegmentNo d) (mRemainDataLength d)
    (mIsLastSegment d) (mMoreXPad d).
Definition set_lastconv (c : Z) (d : SDynamicLabel) : SDynamicLabel :=
  mk_dl (mDynamicLabelTextUnConverted d) (mCharSet d) c (mSegmentNo d) (mRemainDataLength d) (mIsLastSegment d) (mMoreXPad d).
Definition set_mSegmentNo (n : Z) (d : SDynamicLabel) : SDynamicLabel :=
  mk_dl (mDynamicLabelTextUnConverted d) (mCharSet d) (mLastConvCharSet d) n (mRemainDataLength d) (mIsLastSegment d) (mMoreXPad d).
Definition set_mRemainDataLength (n : Z) (d : SDynamicLabel) : SDynamicLabel :=
  mk_dl (mDynamicLabelTextUnConverted d) (mCharSet d) (mLastConvCharSet d) (mSegmentNo d) n (mIsLastSegment d) (mMoreXPad d).
Definition set_mIsLastSegment (b : bool) (d : SDynamicLabel) : SDynamicLabel :=
  mk_dl (mDynamicLabelTextUnConverted d) (mCharSet d) (mLastConvCharSet d) (mSegmentNo d) (mRemainDataLength d) b (mMoreXPad d).
Definition set_mMoreXPad (b : bool) (d : SDynamicLabel) : SDynamicLabel :=
  mk_dl (mDynamicLabelTextUnConverted d) (mCharSet d) (mLastConvCharSet d) (mSegmentNo d) (mRemainDataLength d) (mIsLastSegment d) b.

Definition reset_charset_change (d : SDynamicLabel) : SDynamicLabel := set_lastconv CharSet_Invalid d.
Definition check_charset_change (d : SDynamicLabel) : SDynamicLabel :=
  if mLastConvCharSet d =? CharSet_Invalid then set_lastconv (mCharSet d) d else d.
Definition clear_text (d : SDynamicLabel) : SDynamicLabel := reset_charset_change (set_text [] d).
Definition append_text (t : list Z) (d : SDynamicLabel) : SDynamicLabel :=
  check_charset_change (set_text (mDynamicLabelTextUnConverted d ++ t) d).

(** [emit signal_show_label(to_QString_using_charset(mDynamicLabelTextUnConverted, mCharSet))] *)
Definition show_label (d : SDynamicLabel) : list pad_event :=
  [signal_show_label (mDynamicLabelTextUnConverted d) (mCharSet d)].

(** The part of [_dynamic_label] for text of a start segment: [last] is the
    last-segment flag, [field_1] the length field. *)
Definition label_text (last : bool) (field_1 : Z) (data : list Z) (d : SDynamicLabel)
  : option (SDynamicLabel * list pad_event) :=
  let totalDataLength := i16 (field_1 + 1) in
  let more := i16 (zlen data) - 2 <? totalDataLength in
  let dataLength := if more then i16 (zlen data - 2) else totalDataLength in
  let d := set_mMoreXPad more d in
  chars ← getn data 2 dataLength;
  let d := append_text chars d in
  let '(d, ev) :=
    if last then
      if negb (mMoreXPad d) then (set_mSegmentNo (-1) d, show_label d) else (set_mIsLastSegment true d, [])
    else (set_mIsLastSegment false d, []) in
  Some (set_mRemainDataLength (i16 (totalDataLength - dataLength)) d, ev).

(** A start segment (application type 2). *)
Definition label_start (data : list Z) (d : SDynamicLabel) : option (SDynamicLabel * list pad_event) :=
  b0 ← get data 0;
  b1 ← get data 1;
  let prefix := u16 (Z.lor (Z.shiftl b0 8) b1) in
  let field_1 := Z.land (Z.shiftr prefix 8) 15 in
  let Cflag := Z.land (Z.shiftr prefix 12) 1 in
  let first := Z.land (Z.shiftr prefix 14) 1 in
  let last := Z.land (Z.shiftr prefix 13) 1 in
  let test := Z.land (Z.shiftr prefix 4) 7 + 1 in
  if (first =? 0) && negb (test =? mSegmentNo d + 1) then Some (set_mSegmentNo (-1) d, [])
  else
    let d :=
      if negb (first =? 0)
      then clear_text (set_charset (Z.land (Z.shiftr prefix 4) 15) (set_mSegmentNo 1 d))
      else set_mSegmentNo test d in
    if negb (Cflag =? 0) then
      Some (if Z.land (Z.shiftr prefix 8) 15 =? 1 then set_mSegmentNo (-1) (clear_text d) else d, [])
    else label_text (negb (last =? 0)) field_1 data d.

(** A continuation (application type 3). *)
Definition label_continue (data : list Z) (d : SDynamicLabel) : option (SDynamicLabel * list pad_event) :=
  if mMoreXPad d then
    let more := i16 (zlen data) <? mRemainDataLength d in
    let dataLength := if more then i16 (zlen data) else mRemainDataLength d in
    let d := if more then set_mRemainDataLength (i16 (mRemainDataLength d - zlen data)) d else set_mMoreXPad false d in
    chars ← getn data 0 dataLength;
    let d := append_text chars d in
    Some (d, if negb (mMoreXPad d) && mIsLastSegment d then show_label d else [])
  else Some (d, []).

Definition dynamic_label (data : list Z) (iApplType : Z) (d : SDynamicLabel) : option (SDynamicLabel * list pad_event) :=
  if iApplType =? 2 then label_start data d
  else if iApplType =? 3 then label_continue data d
  else Some (d, []).

Definition pad_dynamic_label (data : list Z) (iApplType : Z) (s : PadHandler) : option (PadHandler * list pad_event) :=
  r ← dynamic_label data iApplType (pad_dl s);
  Some (on_dl (fun _ => fst r) s, snd r).

(** ** MSC data groups *)
(** The session header of [_build_MSC_segment]; bit fields from the least
    significant bit on. *)
Record SMscSegment := mk_seg {
  seg_type : Z; seg_last : bool; seg_number : Z; seg_tid : Z;
  seg_index : Z      (* where the segmentation header starts *)
}.

(** The inner [None] is a group that is dropped. *)
Definition read_segment (iData : list Z) (size : Z) : option (option SMscSegment) :=
  h0 ← get iData 0;
  let DataGroupType := Z.land h0 0x0F in
  let UserAccessFlag := Z.testbit h0 4 in
  let SegmentFlag := Z.testbit h0 5 in
  let CrcFlag := Z.testbit h0 6 in
  let ExtensionFlag := Z.testbit h0 7 in
  if CrcFlag && negb (check_crc_bytes iData (size - 2)) then Some None
  else if negb (DataGroupType =? 3) && negb (DataGroupType =? 4) then Some None
  else
    let index := if ExtensionFlag then 4 else 2 in
    s ← (if SegmentFlag then
           a ← get iData index; b ← get iData (index + 1);
           Some (negb (Z.land a 0x80 =? 0), i16 (Z.lor (Z.shiftl (Z.land a 0x7F) 8) b), index + 2)
         else Some (false, -1, index));
    let '(lastFlag, segmentNumber, index) := s in
    u ← (if UserAccessFlag then
           a ← get iData index;
           let lengthIndicator := Z.land a 0x0F in
           let transportIdFlag := negb (Z.land a 0x10 =? 0) in
           tid ← (if transportIdFlag
                  then x ← get iData (index + 1); y ← get iData (index + 2); Some (u16 (Z.lor (Z.shiftl x 8) y))
                  else Some 0);
           Some (transportIdFlag, tid, index + 1 + lengthIndicator)
         else Some (false, 0, index));
    let '(transportIdFlag, transportId, index) := u in
    if negb transportIdFlag then Some None
    else Some (Some (mk_seg DataGroupType lastFlag segmentNumber transportId index)).

Definition lift_mot (s : PadHandler) (r : option (MotObject * list mot_event)) : option (PadHandler * list pad_event) :=
  q ← r; Some (set_mpMotObject (fst q) s, map pad_mot_event (snd q)).

Definition build_MSC_segment (iData : list Z) (s : PadHandler) : option (PadHandler * list pad_event) :=
  let size := Z.min (zlen iData) (mDataGroupLength (pad_msc s)) in
  if size <? 2 then Some (s, [])
  else
    r ← read_segment iData size;
    match r with
    | None => Some (s, [])
    | Some g =>
        a ← get iData (seg_index g);
        b ← get iData (seg_index g + 1);
        let segmentSize := Z.lor (Z.shiftl (Z.land a 0x1F) 8) b in
        seg ← ptr iData (seg_index g + 2);
        if seg_type g =? 3 then lift_mot s (set_header seg segmentSize (seg_last g) (seg_tid g) (mpMotObject s))
        else lift_mot s (add_body_segment seg (seg_number g) segmentSize (seg_last g) (seg_tid g) (mpMotObject s))
    end.

Definition set_msc_buffer (b : list Z) (m : SMscData) : SMscData := mk_msc (mMscGroupElement m) (mDataGroupLength m) b.
Definition set_msc_element (e : bool) (m : SMscData) : SMscData := mk_msc e (mDataGroupLength m) (mMscDataGroupBuffer m).
Definition set_mDataGroupLength (n : Z) (m : SMscData) : SMscData := mk_msc (mMscGroupElement m) n (mMscDataGroupBuffer m).

Definition new_MSC_element (data : list Z) (s : PadHandler) : option (PadHandler * list pad_event) :=
  let s := on_msc (set_msc_buffer []) s in
  if u16 (mDataGroupLength (pad_msc s)) <=? zlen data then
    r ← build_MSC_segment data s;
    Some (on_msc (set_msc_element false) (fst r), snd r ++ [signal_show_mot_handling])
  else
    Some (on_msc (fun m => set_msc_buffer data (set_msc_element true m)) s, [signal_show_mot_handling]).

Definition add_MSC_element (data : list Z) (s : PadHandler) : option (PadHandler * list pad_event) :=
  match mMscDataGroupBuffer (pad_msc s) with
  | [] => Some (s, [])
  | buf =>
      let s := on_msc (set_msc_buffer (buf ++ data)) s in
      if u32 (mDataGroupLength (pad_msc s)) <=? zlen (buf ++ data) then
        r ← build_MSC_segment (buf ++ data) s;
        Some (on_msc (set_msc_buffer []) (fst r), snd r)
      else Some (s, [])
  end.

(** ** Journaline data groups *)
Definition set_jour_buffer (b : list Z) (j : SJournaline) : SJournaline :=
  mk_jour (mJournalineXPadAppTy j) b (mJournalineDataGroupLength j).

Definition emit_journaline_if_complete (s : PadHandler) : PadHandler * list pad_event :=
  let j := pad_jour s in
  if mJournalineDataGroupLength j <=? zlen (mJournalineDataGroupBuffer j) then
    (on_jour (set_jour_buffer []) s,
     [signal_journaline_data_group (slice (mJournalineDataGroupBuffer j) 0 (mJournalineDataGroupLength j))])
  else (s, []).

Definition new_journaline_element (iData : list Z) (s : PadHandler) : PadHandler * list pad_event :=
  let n := mDataGroupLength (pad_msc s) in
  let s := on_jour (fun j => mk_jour (mJournalineXPadAppTy j) [] n) s in
  if n <=? 0 then (s, [])
  else emit_journaline_if_complete (on_jour (set_jour_buffer iData) s).

Definition add_journaline_element (iData : list Z) (s : PadHandler) : PadHandler * list pad_event :=
  match mJournalineDataGroupBuffer (pad_jour s) with
  | [] => (s, [])
  | buf => emit_journaline_if_complete (on_jour (set_jour_buffer (buf ++ iData)) s)
  end.

Definition handle_xpad_journaline (iAppType : Z) (iData : list Z) (s : PadHandler) : PadHandler * list pad_event :=
  let jAppTy := mJournalineXPadAppTy (pad_jour s) in
  if jAppTy <? 0 then (s, [])
  else if iAppType =? jAppTy then new_journaline_element iData s
  else if iAppType =? jAppTy + 1 then add_journaline_element iData s
  else (s, []).

Definition slot_set_xpad_journaline_app_type (iXPadAppTy : Z) (s : PadHandler) : PadHandler :=
  on_jour (fun j => mk_jour iXPadAppTy (mJournalineDataGroupBuffer j) (mJournalineDataGroupLength j)) s.

(** ** Variable size X-PAD *)
(** [data[j] = iBuffer[base - j]] for [j < length]. *)
Definition reversed (iBuffer : list Z) (base length : Z) : option (list Z) :=
  zforM 0 length (fun j v => b ← get iBuffer (base - j); Some (v ++ [b])) [].

(** No contents indicators: the field continues the last one. *)
Definition variable_PAD_continued (iBuffer : list Z) (iLast : Z) (s : PadHandler) : option (PadHandler * list pad_event) :=
  if 0 <? mXPadLength s then
    if iLast <? mXPadLength s - 1 then Some (s, [])
    else
      data ← reversed iBuffer iLast (mXPadLength s);
      let t := mLastAppType s in
      if (t =? 2) || (t =? 3) then pad_dynamic_label data 3 s
      else if (t =? 12) || (t =? 13) then
        if mMscGroupElement (pad_msc s) then add_MSC_element data s else Some (s, [])
      else
        let jAppTy := mJournalineXPadAppTy (pad_jour s) in
        if (0 <=? jAppTy) && ((t =? jAppTy) || (t =? jAppTy + 1)) then Some (add_journaline_element data s)
        else Some (s, [])
  else Some (s, []).

(** The do-while over at most four contents indicators: the list and the new
    base. *)
Fixpoint read_CI (n : nat) (iBuffer : list Z) (base : Z) : option (list Z * Z) :=
  match n with
  | O => Some ([], base)
  | S n =>
      c ← get iBuffer base;
      let base := base - 1 in
      if ci_appl_type c =? 0 then Some ([], base)
      else r ← read_CI n iBuffer base; Some (c :: fst r, snd r)
  end.

Definition handle_content (appType : Z) (data : list Z) (s : PadHandler) : option (PadHandler * list pad_event) :=
  if appType =? 1 then
    Some (if (zlen data =? 4) && check_crc_bytes data 2
          then on_msc (set_mDataGroupLength (Z.lor (Z.shiftl (Z.land (rd data 0) 0x3F) 8) (rd data 1))) s else s, [])
  else if (appType =? 2) || (appType =? 3) then pad_dynamic_label data appType s
  else if appType =? 12 then new_MSC_element data s
  else if appType =? 13 then add_MSC_element data s
  else Some (handle_xpad_journaline appType data s).

Fixpoint handle_contents (cis : list Z) (iBuffer : list Z) (base : Z) (s : PadHandler)
  : option (PadHandler * list pad_event) :=
  match cis with
  | [] => Some (s, [])
  | ci :: cis =>
      data ← reversed iBuffer base (ci_length ci);
      r ← handle_content (ci_appl_type ci) data s;
      let s := set_mLastAppType (ci_appl_type ci) (fst r) in
      let base := i16 (base - ci_length ci) in
      if base <? -1 then Some (s, snd r)
      else q ← handle_contents cis iBuffer base s; Some (fst q, snd r ++ snd q)
  end.

Definition handle_variable_PAD (iBuffer : list Z) (iLast : Z) (iCiFlag : bool) (s : PadHandler)
  : option (PadHandler * list pad_event) :=
  if negb iCiFlag then variable_PAD_continued iBuffer iLast s
  else
    r ← read_CI 4 iBuffer iLast;
    let '(cis, base) := r in
    let numCI := zlen cis in
    let s := set_mXPadLength (foldr (fun c n => ci_length c + n) 0 cis + (if numCI =? 4 then 4 else numCI + 1)) s in
    handle_contents cis iBuffer base s.

(** ** Short X-PAD *)
Definition short_collect (lim off : Z) (iBuffer : list Z) (iLast : Z) (p : SShortPad) : option SShortPad :=
  zforM 0 lim (fun i p =>
    if 0 <? mStillToGo p then
      b ← get iBuffer (iLast - off - i);
      Some (mk_short (i16 (mStillToGo p - 1)) (mShortPadData p ++ [b]) (mLastSegment p) (mFirstSegment p) (mSegmentNumber p))
    else Some p) p.

Definition set_short_data (v : list Z) (p : SShortPad) : SShortPad :=
  mk_short (mStillToGo p) v (mLastSegment p) (mFirstSegment p) (mSegmentNumber p).

(** [mDynamicLabelTextUnConverted.append(mShortPadData); mShortPadData.clear()] *)
Definition short_flush (s : PadHandler) : PadHandler :=
  on_short (set_short_data []) (on_dl (append_text (mShortPadData (pad_short s))) s).

(** Show the text if there is any, and start a new one. *)
Definition show_and_clear (s : PadHandler) : PadHandler * list pad_event :=
  let ev := match mDynamicLabelTextUnConverted (pad_dl s) with [] => [] | _ => show_label (pad_dl s) end in
  (on_dl clear_text s, ev).

(** With a contents indicator. *)
Definition short_PAD_CI (iBuffer : list Z) (iLast : Z) (s : PadHandler) : option (PadHandler * list pad_event) :=
  ci ← get iBuffer iLast;
  b1 ← get iBuffer (iLast - 1);
  b2 ← get iBuffer (iLast - 2);
  let first := negb (Z.land b1 0x40 =? 0) in
  let last := negb (Z.land b1 0x20 =? 0) in
  let s := on_short (fun p => mk_short (mStillToGo p) (mShortPadData p) last first (mSegmentNumber p)) s in
  let s := on_dl (set_charset (Z.land b2 0x0F)) s in
  let s := if first then on_dl clear_text s else s in
  if ci_appl_type ci =? 2 then
    let '(s, ev) :=
      if first && negb last
      then let '(s, ev) := show_and_clear s in
           (on_short (fun p => mk_short (mStillToGo p) (mShortPadData p) (mLastSegment p) (mFirstSegment p) (Z.shiftr b2 4)) s, ev)
      else (s, []) in
    b3 ← get iBuffer (iLast - 3);
    Some (on_short (fun p => mk_short (Z.land b1 0x0F) [b3] (mLastSegment p) (mFirstSegment p) (mSegmentNumber p)) s, ev)
  else if ci_appl_type ci =? 3 then
    p ← short_collect 3 1 iBuffer iLast (pad_short s);
    let s := on_short (fun _ => p) s in
    Some (if (mStillToGo p <=? 0) && (1 <? zlen (mShortPadData p)) then short_flush s else s, [])
  else Some (s, []).

(** Without: all four bytes are data. *)
Definition short_PAD_data (iBuffer : list Z) (iLast : Z) (s : PadHandler) : option (PadHandler * list pad_event) :=
  p ← short_collect 4 0 iBuffer iLast (pad_short s);
  let s := on_short (fun _ => p) s in
  if (mStillToGo p <=? 0) && (0 <? zlen (mShortPadData p)) then
    let s := short_flush s in
    if negb (mFirstSegment (pad_short s)) && mLastSegment (pad_short s) then Some (show_and_clear s) else Some (s, [])
  else Some (s, []).

Definition handle_short_PAD (iBuffer : list Z) (iLast : Z) (iCIFlag : bool) (s : PadHandler)
  : option (PadHandler * list pad_event) :=
  if iCIFlag then short_PAD_CI iBuffer iLast s else short_PAD_data iBuffer iLast s.

(** ** The entry point *)
Definition process_PAD (iBuffer : list Z) (iLast iL1 iL0 : Z) (s : PadHandler) : option (PadHandler * list pad_event) :=
  let fpadType := Z.land (Z.shiftr iL1 6) 0x3 in
  if negb (fpadType =? 0) then Some (s, [])
  else
    let x_padInd := Z.land (Z.shiftr iL1 4) 0x3 in
    let CI_flag := negb (Z.land iL0 0x2 =? 0) in
    if x_padInd =? 1 then handle_short_PAD iBuffer iLast CI_flag s
    else if x_padInd =? 2 then handle_variable_PAD iBuffer iLast CI_flag s
    else Some (s, []).

(** ** The Journaline handler of the X-PAD
    It lives in the GUI thread and gets the groups as bits, through the queue
    of [signal_journaline_data_group]. *)
Section journaline.
Context {H E : Type} `{VirtualDataHandler H E}.

Definition journaline_handler_switch (iXPadAppTy : Z) (fresh : H) (h : option H) : option H :=
  match h with
  | None => if 0 <=? iXPadAppTy then Some fresh else None
  | Some h => if iXPadAppTy <? 0 then None else Some h
  end.

Definition slot_handle_journaline_data_group (iDataGroup : list Z) (h : option H) : option (option H * list E) :=
  match h with
  | None => Some (None, [])
  | Some h => r ← add_MSC_data_group (unpack_bits iDataGroup) h; Some (Some (fst r), snd r)
  end.
End journaline.
