(* ===== verification/PadProperties.v ===== *)
(** * Properties of the PAD handler

    The dynamic label, the X-PAD parser and MOT data groups in X-PAD. *)
From S2P Require Import Prelude BitExtractors BitFields Checked Crc MotObject PadHandler.
Open Scope Z_scope.

(** ** Dynamic label segments on air (EN 300 401, 7.4.5.2) *)
Definition label_b0 (toggle first last len : Z) : Z := toggle * 128 + first * 64 + last * 32 + (len - 1).
Definition label_b1 (nib rfa : Z) : Z := nib * 16 + rfa.

Lemma label_prefix t f l n nib rfa :
  0 <= t < 2 -> 0 <= f < 2 -> 0 <= l < 2 -> 1 <= n <= 16 -> 0 <= nib < 16 -> 0 <= rfa < 16 ->
  let prefix := u16 (Z.lor (Z.shiftl (label_b0 t f l n) 8) (label_b1 nib rfa)) in
  Z.land (Z.shiftr prefix 8) 15 = n - 1 /\ Z.land (Z.shiftr prefix 12) 1 = 0 /\ Z.land (Z.shiftr prefix 14) 1 = f /\
  Z.land (Z.shiftr prefix 13) 1 = l /\ Z.land (Z.shiftr prefix 4) 15 = nib /\ Z.land (Z.shiftr prefix 4) 7 = nib mod 8.
Proof.
  intros Ht Hf Hl Hn Hi Hr.
  assert (forallb (fun t => forallb (fun f => forallb (fun l => forallb (fun n => forallb (fun nib => forallb (fun rfa =>
    let prefix := u16 (Z.lor (Z.shiftl (label_b0 t f l (n + 1)) 8) (label_b1 nib rfa)) in
    (Z.land (Z.shiftr prefix 8) 15 =? n) && (Z.land (Z.shiftr prefix 12) 1 =? 0) && (Z.land (Z.shiftr prefix 14) 1 =? f) &&
    (Z.land (Z.shiftr prefix 13) 1 =? l) && (Z.land (Z.shiftr prefix 4) 15 =? nib) && (Z.land (Z.shiftr prefix 4) 7 =? nib mod 8))
    (seqZ 0 16)) (seqZ 0 16)) (seqZ 0 16)) (seqZ 0 2)) (seqZ 0 2)) (seqZ 0 2) = true) as H by (vm_compute; reflexivity).
  pose proof (forall_range _ _ H t Ht) as H1. pose proof (forall_range _ _ H1 f Hf) as H2.
  pose proof (forall_range _ _ H2 l Hl) as H3. pose proof (forall_range _ _ H3 (n - 1) ltac:(lia)) as H4.
  pose proof (forall_range _ _ H4 nib Hi) as H5. pose proof (forall_range _ _ H5 rfa Hr) as H6.
  cbv beta zeta in H6. replace (n - 1 + 1) with n in H6 by lia. cbv zeta. zbool. split_and!; done.
Qed.

(** A segment: its text and the X-PAD data fields it was cut into. *)
Record label_segment := mk_label_seg {
  ls_chars : list Z;
  ls_toggle : Z; ls_rfa : Z;
  ls_tail : list Z;                (* CRC and padding *)
  ls_start : list Z;               (* the field of application type 2 *)
  ls_conts : list (list Z)         (* the fields of type 3 *)
}.

Definition enc_label_segment (first last nib : Z) (g : label_segment) : list Z :=
  [label_b0 (ls_toggle g) first last (zlen (ls_chars g)); label_b1 nib (ls_rfa g)] ++ ls_chars g ++ ls_tail g.

Record label_segment_ok (first last nib : Z) (g : label_segment) : Prop := {
  lso_chars : 1 <= zlen (ls_chars g) <= 16;
  lso_toggle : 0 <= ls_toggle g < 2;
  lso_rfa : 0 <= ls_rfa g < 16;
  lso_fields : ls_start g ++ concat (ls_conts g) = enc_label_segment first last nib g;
  lso_start : 2 <= zlen (ls_start g) <= 48;
  lso_conts : Forall (fun f => zlen f <= 48) (ls_conts g)
}.

(** Feeding the continuation fields, and a whole segment. *)
Fixpoint label_continues (fs : list (list Z)) (d : SDynamicLabel) : option (SDynamicLabel * list pad_event) :=
  match fs with
  | [] => Some (d, [])
  | f :: fs => r ← dynamic_label f 3 d; q ← label_continues fs (fst r); Some (fst q, snd r ++ snd q)
  end.
Definition feed_segment (g : label_segment) (d : SDynamicLabel) : option (SDynamicLabel * list pad_event) :=
  r ← dynamic_label (ls_start g) 2 d; q ← label_continues (ls_conts g) (fst r); Some (fst q, snd r ++ snd q).

(** The parts of the state that matter between segments. *)
Definition label_state (d : SDynamicLabel) (text : list Z) (charset : Z) : Prop :=
  mDynamicLabelTextUnConverted d = text /\ mCharSet d = charset.

Lemma label_continues_idle fs d : mMoreXPad d = false -> label_continues fs d = Some (d, []).
Proof.
  intros Hm. induction fs as [|f fs IH]; [done|]. cbn [label_continues]. unfold dynamic_label. cbn [Z.eqb Pos.eqb].
  unfold label_continue. rewrite Hm. cbn [mbind option_bind fst snd]. by rewrite IH.
Qed.

Lemma append_text_fields t d :
  let d' := append_text t d in
  mDynamicLabelTextUnConverted d' = mDynamicLabelTextUnConverted d ++ t /\ mCharSet d' = mCharSet d /\
  mSegmentNo d' = mSegmentNo d /\ mRemainDataLength d' = mRemainDataLength d /\
  mIsLastSegment d' = mIsLastSegment d /\ mMoreXPad d' = mMoreXPad d.
Proof. unfold append_text, check_charset_change. case_match; done. Qed.

(** The rest of a segment of which [zlen cs] characters are missing. *)
Lemma label_continues_rest fs cs rest d text charset :
  mMoreXPad d = true -> mRemainDataLength d = zlen cs -> 0 < zlen cs <= 16 -> concat fs = cs ++ rest ->
  Forall (fun f => zlen f <= 48) fs -> label_state d text charset ->
  exists d', label_continues fs d = Some (d', if mIsLastSegment d then [signal_show_label (text ++ cs) charset] else []) /\
    label_state d' (text ++ cs) charset /\ mSegmentNo d' = mSegmentNo d.
Proof.
  revert cs d text. induction fs as [|f fs IH]; intros cs d text Hm Hr Hc E Hf Hs.
  { exfalso. apply (f_equal zlen) in E. cbn [concat] in E. rewrite zlen_app, zlen_nil in E. pose proof (zlen_nonneg rest). lia. }
  apply Forall_cons_1 in Hf as [Hf1 Hf]. pose proof (zlen_nonneg f). cbn [concat] in E.
  cbn [label_continues]. unfold dynamic_label. cbn [Z.eqb Pos.eqb]. unfold label_continue. rewrite Hm, Hr.
  rewrite (i16_small (zlen f)) by lia. destruct (Z.ltb_spec (zlen f) (zlen cs)) as [Hlt|Hge].
  - rewrite getn_Some by lia. cbn [mbind option_bind fst snd].
    assert (slice f 0 (zlen f) = f) as -> by (unfold slice, zlen; rewrite drop_0, Nat2Z.id; apply take_ge; lia).
    assert (exists cs', cs = f ++ cs' /\ concat fs = cs' ++ rest) as (cs' & -> & E').
    { unfold zlen in Hlt. exists (drop (length f) cs). split.
      - apply (f_equal (take (length f))) in E. rewrite take_app_length, take_app_le in E by lia.
        rewrite E at 1. symmetry. apply take_drop.
      - apply (f_equal (drop (length f))) in E. by rewrite drop_app_length, drop_app_le in E by lia. }
    rewrite zlen_app in *. set (d1 := set_mRemainDataLength _ d).
    destruct (append_text_fields f d1) as (A1 & A2 & A3 & A4 & A5 & A6). set (d2 := append_text f d1) in *.
    destruct (IH cs' d2 (text ++ f)) as (d' & -> & Hs' & Hn').
    + by rewrite A6.
    + rewrite A4. cbn. rewrite i16_small; lia.
    + lia.
    + done.
    + done.
    + destruct Hs as [Ht Hcs]. split; [rewrite A1; cbn; by rewrite Ht|by rewrite A2].
    + rewrite A6, A5. cbn [mMoreXPad d1 set_mRemainDataLength]. rewrite Hm. cbn [negb andb mbind option_bind fst snd app].
      rewrite <- app_assoc in *. eexists. split; [done|]. split; [done|]. by rewrite Hn', A3.
  - rewrite getn_Some by lia. cbn [mbind option_bind fst snd].
    assert (slice f 0 (zlen cs) = cs) as ->.
    { unfold slice, zlen in *. rewrite drop_0, Nat2Z.id. apply (f_equal (take (length cs))) in E.
      rewrite take_app_length, take_app_le in E by lia. done. }
    set (d1 := set_mMoreXPad false d). destruct (append_text_fields cs d1) as (A1 & A2 & A3 & A4 & A5 & A6).
    set (d2 := append_text cs d1) in *. rewrite (label_continues_idle fs d2) by by rewrite A6.
    cbn [mbind option_bind fst snd]. rewrite A6, A5, app_nil_r. cbn [mMoreXPad d1 set_mMoreXPad negb andb].
    destruct Hs as [Ht Hcs]. exists d2. split; [|split].
    + unfold show_label. rewrite A1, A2. cbn. by rewrite Ht, Hcs.
    + split; [rewrite A1; cbn; by rewrite Ht|by rewrite A2].
    + by rewrite A3.
Qed.

(** Cutting a concatenation inside its middle part. *)
Lemma split_start {A} (st rest hd cs tl : list A) :
  st ++ rest = hd ++ cs ++ tl -> zlen hd <= zlen st -> zlen st - zlen hd < zlen cs ->
  exists c1 c2, st = hd ++ c1 /\ cs = c1 ++ c2 /\ rest = c2 ++ tl.
Proof.
  unfold zlen. intros E H1 H2. exists (drop (length hd) st), (drop (length st - length hd) cs).
  assert (st = hd ++ drop (length hd) st) as Es.
  { apply (f_equal (take (length hd))) in E. rewrite take_app_length, take_app_le in E by lia.
    rewrite <- E at 1. symmetry. apply take_drop. }
  rewrite Es, <- app_assoc in E. apply app_inv_head in E.
  assert (drop (length hd) st = take (length st - length hd) cs) as Ec.
  { apply (f_equal (take (length st - length hd))) in E. rewrite take_app_length' in E by (rewrite length_drop; lia).
    by rewrite take_app_le in E by lia. }
  split; [done|]. split; [rewrite Ec; symmetry; apply take_drop|].
  apply (f_equal (drop (length st - length hd))) in E. rewrite drop_app_length' in E by (rewrite length_drop; lia).
  by rewrite drop_app_le in E by lia.
Qed.

Lemma start_complete {A} (st rest hd cs tl : list A) :
  st ++ rest = hd ++ cs ++ tl -> zlen hd + zlen cs <= zlen st -> exists c2, st = hd ++ cs ++ c2.
Proof.
  unfold zlen. intros E H. exists (drop (length hd + length cs) st). rewrite app_assoc.
  apply (f_equal (take (length hd + length cs))) in E. rewrite app_assoc in E.
  rewrite (take_app_length' (hd ++ cs)) in E by (rewrite length_app; lia). rewrite take_app_le in E by lia.
  rewrite <- E. symmetry. apply take_drop.
Qed.

Lemma getn_app_end l m off n : zlen l = off -> zlen m = n -> getn (l ++ m) off n = Some m.
Proof. intros H1 H2. rewrite <- (app_nil_r m) at 1. by apply getn_app. Qed.

(** The start field: the state in which its text is stored. *)
Lemma label_start_prefix first last nib g d :
  label_segment_ok first last nib g -> 0 <= first < 2 -> 0 <= last < 2 -> 0 <= nib < 16 ->
  (first = 0 -> nib < 8 /\ nib + 1 = mSegmentNo d + 1) ->
  label_start (ls_start g) d =
  label_text (negb (last =? 0)) (zlen (ls_chars g) - 1) (ls_start g)
    (if negb (first =? 0) then clear_text (set_charset nib (set_mSegmentNo 1 d)) else set_mSegmentNo (nib + 1) d).
Proof.
  intros [Hc Ht Hr Hf Hs _] Hfirst Hlast Hnib Hseq.
  destruct (label_prefix (ls_toggle g) first last (zlen (ls_chars g)) nib (ls_rfa g)) as (P1 & P2 & P3 & P4 & P5 & P6); [done..|].
  assert (get (ls_start g) 0 = Some (label_b0 (ls_toggle g) first last (zlen (ls_chars g))) /\
          get (ls_start g) 1 = Some (label_b1 nib (ls_rfa g))) as [G0 G1].
  { rewrite <- (get_app_l (ls_start g) (concat (ls_conts g)) 0), <- (get_app_l (ls_start g) (concat (ls_conts g)) 1), Hf by lia.
    unfold enc_label_segment. cbn [app]. rewrite !get_Some; [done|..]; rewrite !zlen_cons, zlen_app;
      pose proof (zlen_nonneg (ls_tail g)); lia. }
  unfold label_start. rewrite G0, G1. cbn [mbind option_bind]. rewrite P1, P2, P3, P4, P5, P6.
  cbn [Z.eqb negb]. destruct (Z.eqb_spec first 0) as [E|E]; cbn [andb negb]; [|done].
  destruct (Hseq E) as [H8 Hn]. rewrite Z.mod_small by lia.
  assert ((nib + 1 =? mSegmentNo d + 1) = true) as -> by lia. done.
Qed.

Lemma feed_segment_spec first last nib g d text charset :
  label_segment_ok first last nib g -> 0 <= first < 2 -> 0 <= last < 2 -> 0 <= nib < 16 ->
  (first = 0 -> nib < 8 /\ mSegmentNo d = nib) -> label_state d text charset ->
  let text' := (if first =? 0 then text else []) ++ ls_chars g in
  let charset' := if first =? 0 then charset else nib in
  exists d', feed_segment g d = Some (d', if last =? 0 then [] else [signal_show_label text' charset']) /\
    label_state d' text' charset' /\ (last = 0 -> mSegmentNo d' = if first =? 0 then nib + 1 else 1).
Proof.
  intros Hg Hfirst Hlast Hnib Hseq [Htext Hcs] text' charset'. unfold feed_segment, dynamic_label. cbn [Z.eqb Pos.eqb].
  rewrite (label_start_prefix first last nib) by (done || (intros E; destruct (Hseq E); lia)).
  set (d0 := if negb (first =? 0) then _ else _).
  assert (label_state d0 (if first =? 0 then text else []) charset' /\ mSegmentNo d0 = (if first =? 0 then nib + 1 else 1)) as [[T0 C0] N0].
  { unfold d0, charset'. destruct (first =? 0); done. }
  clearbody d0. destruct Hg as [Hc _ _ Hf Hs Hconts]. unfold label_text. cbv zeta. rewrite (i16_small (zlen (ls_start g))) by lia.
  rewrite Z.sub_add, i16_small by lia. rewrite (i16_small (zlen (ls_start g) - 2)) by lia.
  unfold enc_label_segment in Hf.
  set (hd := [_; _]) in Hf. assert (zlen hd = 2) as Hhd by done.
  destruct (Z.ltb_spec (zlen (ls_start g) - 2) (zlen (ls_chars g))) as [Hlt|Hge].
  - (* the text goes on in continuation fields *)
    assert (exists c1 c2, ls_start g = hd ++ c1 /\ ls_chars g = c1 ++ c2 /\ concat (ls_conts g) = c2 ++ ls_tail g) as (c1 & c2 & E1 & E2 & E3)
      by (apply split_start; [done|rewrite Hhd; lia|done]).
    rewrite E1, getn_app_end by (rewrite ?zlen_app; lia). cbn [mbind option_bind]. rewrite E1, zlen_app, E2, zlen_app in Hlt.
    rewrite E2, !zlen_app, Hhd. rewrite E2, zlen_app in Hc. pose proof (zlen_nonneg c1).
    set (d1 := set_mMoreXPad true d0). destruct (append_text_fields c1 d1) as (A1 & A2 & A3 & A4 & A5 & A6).
    set (d2 := append_text c1 d1) in *. rewrite A6. cbn [mMoreXPad d1 set_mMoreXPad negb].
    set (r := if negb (last =? 0) then _ else _).
    assert (r = (set_mIsLastSegment (negb (last =? 0)) d2, [])) as -> by (unfold r; by destruct (last =? 0)).
    cbn [mbind option_bind fst snd].
    destruct (label_continues_rest (ls_conts g) c2 (ls_tail g)
      (set_mRemainDataLength (i16 (zlen c1 + zlen c2 - (2 + zlen c1 - 2))) (set_mIsLastSegment (negb (last =? 0)) d2))
      ((if first =? 0 then text else []) ++ c1) charset') as (d' & -> & Hs' & Hn').
    + exact A6.
    + cbn [mRemainDataLength set_mRemainDataLength]. rewrite i16_small; lia.
    + lia.
    + done.
    + done.
    + split; cbn; [by rewrite A1; cbn; rewrite T0|by rewrite A2].
    + cbn [mbind option_bind fst snd app]. unfold text'. rewrite E2, app_assoc. exists d'. split; [|split; [done|]].
      * cbn [mIsLastSegment set_mRemainDataLength set_mIsLastSegment]. by destruct (last =? 0).
      * intros _. rewrite Hn'. cbn. rewrite A3. done.
  - (* the text is complete *)
    assert (exists c2, ls_start g = hd ++ ls_chars g ++ c2) as (c2 & E1) by (eapply start_complete; [exact Hf|rewrite Hhd; lia]).
    rewrite E1, getn_app by done. cbn [mbind option_bind].
    set (d1 := set_mMoreXPad false d0). destruct (append_text_fields (ls_chars g) d1) as (A1 & A2 & A3 & A4 & A5 & A6).
    set (d2 := append_text (ls_chars g) d1) in *. rewrite A6. cbn [mMoreXPad d1 set_mMoreXPad negb].
    assert (label_state d2 text' charset') as Hst by (split; [rewrite A1; cbn; by rewrite T0|by rewrite A2]).
    destruct (Z.eqb_spec last 0) as [El|El]; cbn [negb mbind option_bind fst snd]; rewrite label_continues_idle by by cbn; rewrite ?A6.
    + cbn [mbind option_bind fst snd app]. eexists. split; [done|]. split; [exact Hst|]. intros _. cbn. by rewrite A3.
    + cbn [mbind option_bind fst snd app]. unfold show_label. rewrite app_nil_r.
      rewrite (proj1 Hst), (proj2 Hst). eexists. split; [reflexivity|split; [exact Hst|lia]].
Qed.

(** Segment [i] of [n]: the first carries the character set, the others their
    number. *)
Fixpoint segments_ok (i n charset : Z) (gs : list label_segment) : Prop :=
  match gs with
  | [] => i = n
  | g :: gs => label_segment_ok (b2z (i =? 0)) (b2z (i =? n - 1)) (if i =? 0 then charset else i) g /\
      segments_ok (i + 1) n charset gs
  end.

Fixpoint feed_label (gs : list label_segment) (d : SDynamicLabel) : option (SDynamicLabel * list pad_event) :=
  match gs with
  | [] => Some (d, [])
  | g :: gs => r ← feed_segment g d; q ← feed_label gs (fst r); Some (fst q, snd r ++ snd q)
  end.

Definition label_text_of (gs : list label_segment) : list Z := concat (map ls_chars gs).

Lemma segments_ok_length i n charset gs : segments_ok i n charset gs -> n = i + zlen gs.
Proof.
  revert i. induction gs as [|g gs IH]; intros i; cbn [segments_ok]; [rewrite zlen_nil; lia|].
  intros [_ H]. apply IH in H. rewrite zlen_cons. lia.
Qed.

Lemma feed_label_rest gs i n charset d text :
  1 <= i < n -> n <= 8 -> segments_ok i n charset gs -> mSegmentNo d = i -> label_state d text charset ->
  exists d', feed_label gs d = Some (d', [signal_show_label (text ++ label_text_of gs) charset]).
Proof.
  revert i d text. induction gs as [|g gs IH]; intros i d text Hi Hn Hok Hseg Hst; cbn [segments_ok] in Hok; [lia|].
  destruct Hok as [Hg Hok]. pose proof (segments_ok_length _ _ _ _ Hok) as Hlen.
  replace (i =? 0) with false in Hg by lia. cbn [b2z] in Hg.
  assert (0 <= b2z (i =? n - 1) < 2) as Hb by (destruct (i =? n - 1); cbn; lia).
  destruct (feed_segment_spec 0 (b2z (i =? n - 1)) i g d text charset) as (d1 & E & Hst1 & Hn1);
    [done|lia|done|lia|intros _; lia|done|].
  cbn [feed_label]. rewrite E. cbn [Z.eqb] in Hst1, Hn1. cbn [mbind option_bind fst snd Z.eqb].
  unfold label_text_of. cbn [map concat]. rewrite app_assoc. revert Hn1. destruct (Z.eqb_spec i (n - 1)) as [Ei|Ei]; cbn [b2z Z.eqb]; intros Hn1.
  - destruct gs as [|g2 gs]; [|rewrite zlen_cons in Hlen; pose proof (zlen_nonneg gs); lia].
    cbn [feed_label mbind option_bind fst snd map concat app]. rewrite ?app_nil_r. by eexists.
  - destruct (IH (i + 1) d1 (text ++ ls_chars g)) as (d' & ->); [lia|done|done|by apply Hn1|done|].
    cbn [mbind option_bind fst snd app]. by eexists.
Qed.

(** C15: a dynamic label of one to eight segments, each cut into X-PAD fields of
    any sizes, is shown exactly once, when its last field has arrived, with the
    text of all segments joined and the character set of the first, whatever was
    received before. *)
Theorem dynamic_label_shown (gs : list label_segment) (charset : Z) (d : SDynamicLabel) :
  1 <= zlen gs <= 8 -> 0 <= charset < 16 -> segments_ok 0 (zlen gs) charset gs ->
  exists d', feed_label gs d = Some (d', [signal_show_label (label_text_of gs) charset]).
Proof.
  intros Hn Hc Hok. destruct gs as [|g gs]; [rewrite zlen_nil in Hn; lia|]. cbn [segments_ok] in Hok.
  destruct Hok as [Hg Hok]. rewrite zlen_cons in *. pose proof (zlen_nonneg gs).
  unfold label_text_of. cbn [map concat feed_label]. change (b2z (0 =? 0)) with 1 in Hg.
  pose proof (feed_segment_spec 1 (b2z (0 =? 1 + zlen gs - 1)) charset g d (mDynamicLabelTextUnConverted d) (mCharSet d)) as Hf.
  revert Hg Hf. destruct (Z.eqb_spec 0 (1 + zlen gs - 1)) as [Ei|Ei]; cbn [b2z Z.eqb app]; intros Hg Hf;
    (destruct Hf as (d1 & -> & Hst1 & Hn1); [done|lia|lia|lia|lia|done|]); cbn [mbind option_bind fst snd].
  - destruct gs as [|g2 gs]; [|rewrite zlen_cons in Ei; pose proof (zlen_nonneg gs); lia].
    cbn [feed_label mbind option_bind fst snd map concat app]. rewrite !app_nil_r. by eexists.
  - destruct (feed_label_rest gs 1 (1 + zlen gs) charset d1 (ls_chars g)) as (d' & ->); [lia|lia|done|by apply Hn1|done|].
    cbn [mbind option_bind fst snd app]. by eexists.
Qed.

(** "Hello World!" in two segments; the first is cut into two fields. *)
Definition sample_label : list label_segment :=
  [ mk_label_seg [72; 101; 108; 108; 111; 32] 0 0 [1; 2] [label_b0 0 1 0 6; label_b1 15 0; 72; 101] [[108; 108; 111; 32]; [1; 2]];
    mk_label_seg [87; 111; 114; 108; 100; 33] 0 0 [3; 4] [label_b0 0 0 1 6; label_b1 1 0; 87; 111; 114; 108; 100; 33] [[3; 4]] ].

Lemma dynamic_label_shown_witness :
  exists d', feed_label sample_label (pad_dl PadHandler_new) =
    Some (d', [signal_show_label (label_text_of sample_label) 15]).
Proof.
  apply (dynamic_label_shown sample_label 15 (pad_dl PadHandler_new)).
  - vm_compute. split; congruence.
  - lia.
  - split; [|split; [|reflexivity]];
      (split; [split; vm_compute; congruence..|reflexivity|split; vm_compute; congruence|repeat constructor; vm_compute; congruence]).
Defined.

(** ** The variable X-PAD field (EN 300 401, 7.4.2.2) *)
(** The field in transmission order: contents indicators, an end marker if
    there are fewer than four, and the data of each. *)
Definition xpad_bytes (fs : list (Z * list Z)) : list Z :=
  map fst fs ++ (if zlen fs =? 4 then [] else [0]) ++ concat (map snd fs).

Definition content_ok (f : Z * list Z) : Prop :=
  ci_appl_type (fst f) <> 0 /\ zlen (snd f) = ci_length (fst f) /\ 0 <= ci_length (fst f) <= 48.

(** What the handler does with the contents, one after the other. *)
Fixpoint handle_fields (fs : list (Z * list Z)) (s : PadHandler) : option (PadHandler * list pad_event) :=
  match fs with
  | [] => Some (s, [])
  | (ci, data) :: fs =>
      r ← handle_content (ci_appl_type ci) data s;
      q ← handle_fields fs (set_mLastAppType (ci_appl_type ci) (fst r));
      Some (fst q, snd r ++ snd q)
  end.

(** The buffer holds the field reversed. *)
Definition stored (buf fwd : list Z) (iLast : Z) : Prop :=
  forall j, 0 <= j < zlen fwd -> get buf (iLast - j) = Some (rd fwd j).

Lemma stored_rev front fwd back : stored (front ++ rev fwd ++ back) fwd (zlen front + zlen fwd - 1).
Proof.
  intros j Hj. replace (zlen front + zlen fwd - 1 - j) with (zlen front + (zlen fwd - 1 - j)) by lia.
  assert (zlen (rev fwd) = zlen fwd) as Hr by (unfold zlen; by rewrite length_rev).
  rewrite get_app_r by lia. rewrite get_app_l, get_Some by lia. f_equal.
  rewrite !rd_nth by lia. rewrite rev_nth by (unfold zlen in *; lia). f_equal. unfold zlen in *. lia.
Qed.

Lemma stored_app buf l k iLast : stored buf (l ++ k) iLast -> stored buf l iLast /\ stored buf k (iLast - zlen l).
Proof.
  intros Hs. split; intros j Hj; pose proof (zlen_nonneg l); pose proof (zlen_nonneg k).
  - rewrite Hs by (rewrite zlen_app; lia). by rewrite rd_app_l by lia.
  - replace (iLast - zlen l - j) with (iLast - (zlen l + j)) by lia. rewrite Hs by (rewrite zlen_app; lia).
    rewrite rd_app_r by lia. do 2 f_equal. lia.
Qed.

Lemma stored_get buf x k iLast : stored buf (x :: k) iLast -> get buf iLast = Some x.
Proof.
  intros Hs. specialize (Hs 0). rewrite Z.sub_0_r in Hs. rewrite Hs; [done|]. rewrite zlen_cons. pose proof (zlen_nonneg k). lia.
Qed.

Lemma reversed_stored buf l iLast : stored buf l iLast -> reversed buf iLast (zlen l) = Some l.
Proof.
  intros Hs. pose proof (zlen_nonneg l). unfold reversed.
  destruct (zforM_inv (fun i w => w = slice l 0 i) 0 (zlen l)
    (fun j v => b ← get buf (iLast - j); Some (v ++ [b])) []) as (r & -> & ->); [done|done| |].
  - intros i w Hi ->. rewrite Hs by lia. cbn [mbind option_bind]. eexists. split; [done|]. by rewrite slice_snoc.
  - f_equal. unfold slice, zlen. rewrite drop_0, Nat2Z.id. apply take_ge. lia.
Qed.

Lemma read_CI_stored n cis rest buf base :
  (length cis <= n)%nat -> Forall (fun c => ci_appl_type c <> 0) cis ->
  stored buf (cis ++ (if (length cis =? n)%nat then [] else [0]) ++ rest) base ->
  read_CI n buf base = Some (cis, base - zlen cis - (if (length cis =? n)%nat then 0 else 1)).
Proof.
  revert cis base. induction n as [|n IH]; intros [|c cis] base Hl Hc Hs; cbn [length] in *; try lia.
  - cbn. do 2 f_equal. change (zlen []) with 0. lia.
  - cbn [Nat.eqb app] in *. cbn [read_CI]. rewrite (stored_get _ _ _ _ Hs). cbn [mbind option_bind].
    change (ci_appl_type 0 =? 0) with true. cbn iota. do 2 f_equal. rewrite zlen_nil. lia.
  - apply Forall_cons_1 in Hc as [Hc Hcs]. cbn [app] in Hs. cbn [read_CI]. rewrite (stored_get _ _ _ _ Hs). cbn [mbind option_bind].
    apply Z.eqb_neq in Hc. rewrite Hc. cbn [Nat.eqb] in *. change (c :: cis ++ ?r) with ([c] ++ cis ++ r) in Hs.
    apply stored_app in Hs as [_ Hs]. change (zlen [c]) with 1 in Hs. rewrite (IH cis) by (done || lia).
    cbn [mbind option_bind fst snd]. do 2 f_equal. rewrite zlen_cons. lia.
Qed.

Lemma handle_contents_stored fs buf base s :
  Forall content_ok fs -> stored buf (concat (map snd fs)) base -> zlen (concat (map snd fs)) <= base + 1 <= 32767 ->
  handle_contents (map fst fs) buf base s = handle_fields fs s.
Proof.
  revert base s. induction fs as [|[ci data] fs IH]; intros base s Hok Hs Hb; [done|].
  apply Forall_cons_1 in Hok as [(_ & Hl & Hr) Hok]. cbn [fst snd] in *. cbn [map concat fst snd] in *.
  apply stored_app in Hs as [Hd Hs]. rewrite zlen_app in Hb. pose proof (zlen_nonneg (concat (map snd fs))).
  cbn [handle_contents handle_fields]. rewrite <- Hl, reversed_stored by done. cbn [mbind option_bind].
  destruct (handle_content (ci_appl_type ci) data s) as [[s1 e1]|]; cbn [mbind option_bind fst snd]; [|done].
  rewrite i16_small by lia. destruct (Z.ltb_spec (base - zlen data) (-1)); [lia|].
  rewrite IH by (done || lia). done.
Qed.

Lemma foldr_lengths fs : Forall content_ok fs ->
  foldr (fun c n => ci_length c + n) 0 (map fst fs) = zlen (concat (map snd fs)).
Proof.
  induction 1 as [|[ci data] fs (_ & Hl & _) Hok IH]; [done|]. cbn [map foldr concat fst snd] in *. rewrite zlen_app. lia.
Qed.

(** An X-PAD field with up to four contents, stored in reverse anywhere in
    the buffer, is taken apart into exactly these contents: each is handed to
    its application in order with its bytes in transmission order, the length
    of the field is remembered for fields without indicators, and no byte
    outside the field is read. *)
Theorem variable_PAD_parsed (front back : list Z) (fs : list (Z * list Z)) (s : PadHandler) :
  zlen fs <= 4 -> Forall content_ok fs -> zlen front + zlen (xpad_bytes fs) <= 32767 ->
  handle_variable_PAD (front ++ rev (xpad_bytes fs) ++ back) (zlen front + zlen (xpad_bytes fs) - 1) true s =
  handle_fields fs (set_mXPadLength (zlen (xpad_bytes fs)) s).
Proof.
  intros H4 Hok Hb. pose proof (stored_rev front (xpad_bytes fs) back) as Hs. pose proof (zlen_nonneg front).
  pose proof (zlen_nonneg (concat (map snd fs))).
  set (buf := front ++ _) in *. set (iLast := zlen front + _ - 1) in *. unfold handle_variable_PAD. cbn [negb].
  assert (zlen (map fst fs) = zlen fs) as Hm by (unfold zlen; by rewrite length_map).
  assert ((zlen fs =? 4) = (length (map fst fs) =? 4)%nat) as H44.
  { rewrite length_map. unfold zlen. apply eq_true_iff_eq. rewrite Z.eqb_eq, Nat.eqb_eq. lia. }
  assert (zlen (xpad_bytes fs) = zlen (concat (map snd fs)) + (if zlen fs =? 4 then 4 else zlen fs + 1)) as Hx.
  { unfold xpad_bytes. rewrite !zlen_app, Hm. destruct (Z.eqb_spec (zlen fs) 4); rewrite ?zlen_nil, ?zlen_cons, ?zlen_nil; lia. }
  unfold xpad_bytes in Hs. rewrite H44 in Hs.
  rewrite (read_CI_stored 4 (map fst fs) (concat (map snd fs))); [|rewrite length_map; unfold zlen in H4; lia| |done].
  2: { apply List.Forall_map. eapply List.Forall_impl; [|exact Hok]. by intros f [? _]. }
  cbn [mbind option_bind]. rewrite Hm, foldr_lengths by done. rewrite <- Hx.
  apply stored_app in Hs as [_ Hs]. apply stored_app in Hs as [_ Hs]. rewrite Hm in Hs.
  assert (iLast - zlen fs - zlen (if (length (map fst fs) =? 4)%nat then [] else [0]) =
          iLast - zlen fs - (if (length (map fst fs) =? 4)%nat then 0 else 1)) as Eb by (by destruct (_ =? 4)%nat).
  rewrite Eb in Hs. apply handle_contents_stored; [done|done|].
  rewrite <- H44. subst iLast. revert Hx. pose proof (zlen_nonneg fs). destruct (Z.eqb_spec (zlen fs) 4); intros Hx; lia.
Qed.

Definition sample_contents : list (Z * list Z) := [(2, [label_b0 0 1 1 2; label_b1 0 0; 79; 75]); (35, [1; 2; 3; 4; 5; 6])].

Lemma variable_PAD_parsed_witness :
  handle_variable_PAD ([7] ++ rev (xpad_bytes sample_contents) ++ [0; 2]) (zlen [7] + zlen (xpad_bytes sample_contents) - 1) true PadHandler_new =
  handle_fields sample_contents (set_mXPadLength (zlen (xpad_bytes sample_contents)) PadHandler_new).
Proof.
  apply (variable_PAD_parsed [7] [0; 2] sample_contents PadHandler_new).
  - vm_compute. congruence.
  - repeat (constructor; [split; [vm_compute; congruence|split; [reflexivity|split; vm_compute; congruence]]|]). constructor.
  - vm_compute. congruence.
Defined.

(** ** What is not checked *)
(** The lengths of the contents are not compared with the buffer: a field that
    announces more bytes than there are is read in front of the buffer. *)
Lemma contents_unchecked :
  handle_variable_PAD [1; 2; 3; 4; 0; 0xE2] 5 true PadHandler_new = None.
Proof. vm_compute. reflexivity. Qed.
