(* ===== verification/PadMot.v ===== *)
(** * MOT objects in X-PAD

    The way of a MOT object through the PAD handler: its parts are MSC data
    groups, each announced by a length indicator and cut into X-PAD contents of
    type 12 and 13.  The handler joins them, and the object is delivered as
    [MotObject] says. *)
From S2P Require Import Prelude BitExtractors BitFields Checked Crc MotObject MotHandler PadHandler.
Open Scope Z_scope.

(** ** Data groups as bytes *)
Record pad_group := mk_pad_group {
  pg_ext : option (Z * Z);
  pg_b1 : Z;               (* continuity and repetition index *)
  pg_rfa : Z;
  pg_eua : list Z;
  pg_crc : option (Z * Z)
}.

Definition pair_bytes (o : option (Z * Z)) : list Z := match o with Some (x, y) => [x; y] | None => [] end.

Definition group_h0 (ext crc type : Z) : Z := ext * 128 + crc * 64 + 48 + type.

Definition enc_pad_group (pg : pad_group) (g : SMotGroup) : list Z :=
  [group_h0 (opt_flag (pg_ext pg)) (opt_flag (pg_crc pg)) (g_type g); pg_b1 pg] ++ pair_bytes (pg_ext pg) ++
  [b2z (g_last g) * 128 + g_segment g / 256; g_segment g mod 256;
   pg_rfa pg * 32 + 16 + (2 + zlen (pg_eua pg)); g_tid g / 256; g_tid g mod 256] ++
  pg_eua pg ++ g_bytes g ++ pair_bytes (pg_crc pg).

Record pad_group_ok (pg : pad_group) (g : SMotGroup) : Prop := {
  pgo_type : g_type g = 3 \/ g_type g = 4;
  pgo_segment : 0 <= g_segment g < 2 ^ 15;
  pgo_tid : 0 <= g_tid g < 2 ^ 16;
  pgo_rfa : 0 <= pg_rfa pg < 8;
  pgo_eua : zlen (pg_eua pg) <= 13;
  pgo_bytes : 2 <= zlen (g_bytes g);
  pgo_crc : pg_crc pg = None \/ check_crc_bytes (enc_pad_group pg g) (zlen (enc_pad_group pg g) - 2) = true
}.

Lemma group_h0_bits ext crc type :
  0 <= ext < 2 -> 0 <= crc < 2 -> 0 <= type < 16 ->
  Z.land (group_h0 ext crc type) 0x0F = type /\ Z.testbit (group_h0 ext crc type) 4 = true /\
  Z.testbit (group_h0 ext crc type) 5 = true /\ Z.testbit (group_h0 ext crc type) 6 = (crc =? 1) /\
  Z.testbit (group_h0 ext crc type) 7 = (ext =? 1).
Proof.
  intros He Hc Ht.
  assert (forallb (fun e => forallb (fun c => forallb (fun t =>
    (Z.land (group_h0 e c t) 0x0F =? t) && Z.testbit (group_h0 e c t) 4 && Z.testbit (group_h0 e c t) 5 &&
    eqb (Z.testbit (group_h0 e c t) 6) (c =? 1) && eqb (Z.testbit (group_h0 e c t) 7) (e =? 1))
    (seqZ 0 16)) (seqZ 0 2)) (seqZ 0 2) = true) as H by (vm_compute; reflexivity).
  pose proof (forall_range _ _ H ext He) as H1. pose proof (forall_range _ _ H1 crc Hc) as H2.
  pose proof (forall_range _ _ H2 type Ht) as H3. cbv beta in H3. zbool.
  repeat match goal with H : eqb _ _ = true |- _ => apply eqb_prop in H end. split_and!; done.
Qed.

Lemma seg_bytes l n : 0 <= l < 2 -> 0 <= n < 2 ^ 15 ->
  Z.land (l * 128 + n / 256) 0x80 = l * 128 /\ Z.land (l * 128 + n / 256) 0x7F = n / 256.
Proof.
  intros Hl Hn. assert (0 <= n / 256 < 128) as Hh by (split; [apply Z.div_pos; lia|apply Z.div_lt_upper_bound; lia]).
  assert (forallb (fun l => forallb (fun h => (Z.land (l * 128 + h) 0x80 =? l * 128) && (Z.land (l * 128 + h) 0x7F =? h))
    (seqZ 0 128)) (seqZ 0 2) = true) as H by (vm_compute; reflexivity).
  pose proof (forall_range _ _ H l Hl) as H1. pose proof (forall_range _ _ H1 _ Hh) as H2. cbv beta in H2. zbool. done.
Qed.

Lemma ua_byte r n : 0 <= r < 8 -> 2 <= n < 16 ->
  Z.land (r * 32 + 16 + n) 0x0F = n /\ Z.land (r * 32 + 16 + n) 0x10 = 16.
Proof.
  intros Hr Hn. assert (forallb (fun r => forallb (fun n => (Z.land (r * 32 + 16 + n) 0x0F =? n) && (Z.land (r * 32 + 16 + n) 0x10 =? 16))
    (seqZ 0 16)) (seqZ 0 8) = true) as H by (vm_compute; reflexivity).
  pose proof (forall_range _ _ H r Hr) as H1. pose proof (forall_range _ _ H1 n ltac:(lia)) as H2. cbv beta in H2. zbool. done.
Qed.

Lemma two_bytes w n : 8 <= w -> 0 <= n < 2 ^ w -> Z.lor (Z.shiftl (n / 256) 8) (n mod 256) = n.
Proof.
  intros Hw Hn. pose proof (Z.mod_pos_bound n 256 ltac:(lia)). rewrite Z.shiftl_mul_pow2, (lor_add_disjoint 8) by lia.
  change (2 ^ 8) with 256. pose proof (Z.div_mod n 256). lia.
Qed.

(** The position of the data field. *)
Definition data_index (pg : pad_group) : Z := 7 + 2 * opt_flag (pg_ext pg) + zlen (pg_eua pg).

Lemma zlen_enc_pad_group pg g :
  zlen (enc_pad_group pg g) = data_index pg + zlen (g_bytes g) + 2 * opt_flag (pg_crc pg).
Proof.
  unfold enc_pad_group, data_index. rewrite !zlen_app, !zlen_cons, !zlen_nil.
  destruct (pg_ext pg) as [[? ?]|], (pg_crc pg) as [[? ?]|]; cbn [pair_bytes opt_flag]; rewrite ?zlen_cons; change (zlen (@nil Z)) with 0; lia.
Qed.

Lemma check_crc_bytes_prefix l k n : 0 <= n -> n + 2 <= zlen l -> check_crc_bytes (l ++ k) n = check_crc_bytes l n.
Proof.
  intros H0 Hn. unfold check_crc_bytes. rewrite !rd_app_l by lia. assert (calc_crc (l ++ k) n = calc_crc l n) as ->; [|done].
  unfold calc_crc. do 2 f_equal. apply zfor_ext. intros i c Hi. by rewrite rd_app_l by lia.
Qed.

Lemma read_segment_enc pg g pad :
  pad_group_ok pg g ->
  read_segment (enc_pad_group pg g ++ pad) (zlen (enc_pad_group pg g)) =
  Some (Some (mk_seg (g_type g) (g_last g) (g_segment g) (g_tid g) (data_index pg))).
Proof.
  intros [Ht Hs Hi Hr He Hb Hcrc]. pose proof (zlen_nonneg (pg_eua pg)). pose proof (zlen_nonneg pad).
  assert (0 <= opt_flag (pg_crc pg) < 2) as Hcf by (destruct (pg_crc pg); cbn; lia).
  assert (0 <= opt_flag (pg_ext pg) < 2) as Hxf by (destruct (pg_ext pg); cbn; lia).
  assert (0 <= b2z (g_last g) < 2) as Hlf by (destruct (g_last g); cbn; lia).
  destruct (group_h0_bits _ _ (g_type g) Hxf Hcf ltac:(lia)) as (B0 & B4 & B5 & B6 & B7).
  destruct (seg_bytes _ _ Hlf Hs) as [S1 S2]. destruct (ua_byte (pg_rfa pg) (2 + zlen (pg_eua pg)) Hr ltac:(lia)) as [U1 U2].
  pose proof (zlen_enc_pad_group pg g) as Hl.
  assert (check_crc_bytes (enc_pad_group pg g ++ pad) (zlen (enc_pad_group pg g) - 2) =
          check_crc_bytes (enc_pad_group pg g) (zlen (enc_pad_group pg g) - 2)) as Ec
    by (apply check_crc_bytes_prefix; unfold data_index in Hl; lia).
  unfold read_segment. rewrite Ec. clear Ec.
  assert ((opt_flag (pg_crc pg) =? 1) && negb (check_crc_bytes (enc_pad_group pg g) (zlen (enc_pad_group pg g) - 2)) = false) as Ecrc.
  { destruct Hcrc as [->| ->]; [done|]. apply andb_false_r. }
  rewrite (get_Some _ 0) by (rewrite zlen_app, Hl; unfold data_index; lia).
  change (rd (enc_pad_group pg g ++ pad) 0) with (group_h0 (opt_flag (pg_ext pg)) (opt_flag (pg_crc pg)) (g_type g)).
  cbn [mbind option_bind]. rewrite B0, B4, B5, B6, B7, Ecrc.
  assert (negb (g_type g =? 3) && negb (g_type g =? 4) = false) as -> by (destruct Ht as [->| ->]; done).
  set (i := if opt_flag (pg_ext pg) =? 1 then 4 else 2).
  assert (forall j, 0 <= j < 5 -> get (enc_pad_group pg g ++ pad) (i + j) =
    Some (rd [b2z (g_last g) * 128 + g_segment g / 256; g_segment g mod 256;
              pg_rfa pg * 32 + 16 + (2 + zlen (pg_eua pg)); g_tid g / 256; g_tid g mod 256] j)) as Hget.
  { intros j Hj. unfold i. rewrite get_Some by (rewrite zlen_app, Hl; unfold data_index; destruct (pg_ext pg) as [[? ?]|]; cbn; lia).
    f_equal. assert (j = 0 \/ j = 1 \/ j = 2 \/ j = 3 \/ j = 4) as Hj' by lia.
    unfold enc_pad_group. destruct (pg_ext pg) as [[x y]|]; destruct Hj' as [->|[->|[->|[->| ->]]]]; reflexivity. }
  pose proof (Hget 0 ltac:(lia)) as G0. rewrite Z.add_0_r in G0. rewrite G0, (Hget 1 ltac:(lia)). cbn [mbind option_bind].
  rewrite (Hget 2 ltac:(lia)). cbn [mbind option_bind]. replace (i + 2 + 1) with (i + 3) by lia. replace (i + 2 + 2) with (i + 4) by lia.
  rewrite (Hget 3 ltac:(lia)), (Hget 4 ltac:(lia)).
  change (rd _ 0) with (b2z (g_last g) * 128 + g_segment g / 256). change (rd _ 1) with (g_segment g mod 256).
  change (rd _ 2) with (pg_rfa pg * 32 + 16 + (2 + zlen (pg_eua pg))). change (rd _ 3) with (g_tid g / 256).
  change (rd _ 4) with (g_tid g mod 256). rewrite S1, S2, U1, U2. change (negb (16 =? 0)) with true. cbn [mbind option_bind negb].
  rewrite (two_bytes 15), (two_bytes 16) by lia. rewrite i16_small, uwrap_small by lia. do 3 f_equal.
  - by destruct (g_last g).
  - unfold i, data_index. destruct (pg_ext pg); cbn [opt_flag Z.eqb Pos.eqb]; lia.
Qed.

(** The data field of a group read from its index. *)
Lemma group_data pg g pad j :
  0 <= j < zlen (g_bytes g) -> get (enc_pad_group pg g ++ pad) (data_index pg + j) = Some (rd (g_bytes g) j).
Proof.
  intros Hj. unfold enc_pad_group. rewrite !app_assoc, <- (app_assoc _ (pair_bytes (pg_crc pg)) pad).
  rewrite <- (app_assoc _ (g_bytes g)).
  match goal with |- get (?pre ++ _) _ = _ => assert (data_index pg = zlen pre) as -> end.
  { unfold data_index. rewrite !zlen_app, !zlen_cons. change (zlen (@nil Z)) with 0.
    destruct (pg_ext pg) as [[? ?]|]; cbn [pair_bytes opt_flag]; rewrite ?zlen_cons; change (zlen (@nil Z)) with 0; lia. }
  rewrite get_app_r by lia. by rewrite get_app_l, get_Some by lia.
Qed.

Lemma group_data_ptr pg g pad seg hd :
  g_bytes g = hd ++ seg -> zlen hd = 2 ->
  ptr (enc_pad_group pg g ++ pad) (data_index pg + 2) = Some (seg ++ pair_bytes (pg_crc pg) ++ pad).
Proof.
  intros Eb Hh. pose proof (zlen_nonneg seg). pose proof (zlen_nonneg pad). pose proof (zlen_enc_pad_group pg g) as Hl.
  pose proof (zlen_nonneg (pg_eua pg)). assert (0 <= opt_flag (pg_crc pg)) by (destruct (pg_crc pg); cbn; lia).
  assert (0 <= opt_flag (pg_ext pg)) by (destruct (pg_ext pg); cbn; lia).
  rewrite ptr_Some by (rewrite zlen_app, Hl, Eb, zlen_app; unfold data_index; lia). f_equal.
  unfold enc_pad_group. rewrite Eb, !app_assoc, <- (app_assoc _ (pair_bytes (pg_crc pg)) pad), <- (app_assoc _ seg).
  rewrite (app_assoc seg). apply drop_app_length'.
  assert (forall (l : list Z) n, zlen l = n -> length l = Z.to_nat n) as Hlen by (unfold zlen; lia).
  symmetry. apply Hlen. unfold data_index. rewrite !zlen_app, !zlen_cons, Hh. change (zlen (@nil Z)) with 0.
  destruct (pg_ext pg) as [[? ?]|]; cbn [pair_bytes opt_flag]; rewrite ?zlen_cons; change (zlen (@nil Z)) with 0; lia.
Qed.

Section object.
Context (a : mot_object_on_air) (Ha : on_air_ok a) (Hsegs : Forall (fun s => zlen s < 8192) (air_segs a)).

(** A complete group of a part is the arrival of the part. *)
Lemma build_part pg rep p pad s :
  0 <= rep < 8 -> is_part a p -> pad_group_ok pg (part_group a rep p) ->
  mDataGroupLength (pad_msc s) = zlen (enc_pad_group pg (part_group a rep p)) ->
  build_MSC_segment (enc_pad_group pg (part_group a rep p) ++ pad) s =
  lift_mot s (arrive a (pair_bytes (pg_crc pg) ++ pad) p (mpMotObject s)).
Proof.
  intros Hr Hp Hg Hl. set (g := part_group a rep p) in *. pose proof (zlen_nonneg pad). pose proof (pgo_bytes _ _ Hg) as Hb.
  pose proof (zlen_nonneg (pg_eua pg)). pose proof (zlen_enc_pad_group pg g) as Hz.
  assert (0 <= opt_flag (pg_ext pg)) by (destruct (pg_ext pg); cbn; lia).
  assert (0 <= opt_flag (pg_crc pg)) by (destruct (pg_crc pg); cbn; lia).
  unfold build_MSC_segment. rewrite Hl, zlen_app, Z.min_r by lia.
  destruct (Z.ltb_spec (zlen (enc_pad_group pg g)) 2) as [Hlt|_]; [unfold data_index in Hz; lia|].
  rewrite read_segment_enc by done. cbn [mbind option_bind seg_index seg_type seg_last seg_number seg_tid].
  pose proof (group_data pg g pad 0 ltac:(lia)) as G0. rewrite Z.add_0_r in G0. rewrite G0, group_data by lia. cbn [mbind option_bind].
  destruct (part_group_size a Ha Hsegs rep p Hr) as (size & seg & E0 & E1 & Es & _ & Hsz). fold g in E0, E1.
  rewrite get_Some in E0, E1 by lia. injection E0 as ->. injection E1 as ->. rewrite Es.
  destruct p as [|k]; destruct Hsz as [-> Hseg].
  - rewrite (group_data_ptr pg g pad (air_core a ++ flat_map enc_param (air_params a) ++ []) (seg_header rep (air_header_size a))) by done.
    cbn [mbind option_bind part_group g g_type Z.eqb Pos.eqb g_last g_tid arrive].
    rewrite app_nil_r, <- !app_assoc. done.
  - rewrite (group_data_ptr pg g pad (air_seg a k ++ []) (seg_header rep (zlen (air_seg a k)))) by done.
    cbn [mbind option_bind part_group g g_type Z.eqb Pos.eqb g_last g_tid g_segment arrive].
    rewrite app_nil_r. done.
Qed.
End object.

(** ** Collecting a group from its X-PAD contents *)
(** Continuation contents, type 13. *)
Fixpoint add_all (cs : list (list Z)) (s : PadHandler) : option (PadHandler * list pad_event) :=
  match cs with
  | [] => Some (s, [])
  | c :: cs => r ← handle_content 13 c s; q ← add_all cs (fst r); Some (fst q, snd r ++ snd q)
  end.

(** The length indicator, the start and the continuations of a group. *)
Definition feed_group (len_field c0 : list Z) (cs : list (list Z)) (s : PadHandler) : option (PadHandler * list pad_event) :=
  r0 ← handle_content 1 len_field s;
  r1 ← handle_content 12 c0 (fst r0);
  r2 ← add_all cs (fst r1);
  Some (fst r2, snd r0 ++ snd r1 ++ snd r2).

Lemma add_all_idle cs s : mMscDataGroupBuffer (pad_msc s) = [] -> add_all cs s = Some (s, []).
Proof.
  intros Hb. induction cs as [|c cs IH]; [done|]. cbn [add_all]. unfold handle_content. cbn [Z.eqb Pos.eqb orb].
  unfold add_MSC_element. rewrite Hb. cbn [mbind option_bind fst snd]. by rewrite IH.
Qed.

Lemma build_keeps_msc d s r : build_MSC_segment d s = Some r -> pad_msc (fst r) = pad_msc s.
Proof.
  unfold build_MSC_segment, lift_mot. case_match; [by intros [= <-]|].
  destruct (read_segment _ _) as [[g|]|]; cbn [mbind option_bind]; [|by intros [= <-]|done].
  destruct (get d (seg_index g)); cbn [mbind option_bind]; [|done].
  destruct (get d (seg_index g + 1)); cbn [mbind option_bind]; [|done].
  destruct (ptr d (seg_index g + 2)); cbn [mbind option_bind]; [|done].
  case_match; [destruct (set_header _ _ _ _ _)|destruct (add_body_segment _ _ _ _ _ _)]; cbn [mbind option_bind]; try done; by intros [= <-].
Qed.

Lemma add_all_complete cs buf G pad s :
  mMscDataGroupBuffer (pad_msc s) = buf -> buf <> [] -> mDataGroupLength (pad_msc s) = zlen G -> 0 <= zlen G < 2 ^ 14 ->
  buf ++ concat cs = G ++ pad -> zlen buf < zlen G ->
  exists s1 pad', (exists post, pad = pad' ++ post) /\ pad_msc s1 = set_msc_buffer (G ++ pad') (pad_msc s) /\
    mpMotObject s1 = mpMotObject s /\
    add_all cs s = (r ← build_MSC_segment (G ++ pad') s1; Some (on_msc (set_msc_buffer []) (fst r), snd r)).
Proof.
  revert buf s. induction cs as [|c cs IH]; intros buf s Hb Hne Hl Hg E Hlt.
  { exfalso. apply (f_equal zlen) in E. cbn [concat] in E. rewrite !zlen_app, zlen_nil in E. pose proof (zlen_nonneg pad). lia. }
  cbn [concat] in E. rewrite app_assoc in E. cbn [add_all]. unfold handle_content. cbn [Z.eqb Pos.eqb orb]. unfold add_MSC_element.
  rewrite Hb. destruct buf as [|b0 buf']; [done|]. set (buf := b0 :: buf') in *.
  set (s1 := on_msc (set_msc_buffer (buf ++ c)) s).
  assert (mDataGroupLength (pad_msc s1) = zlen G) as Hl1 by done. rewrite Hl1, uwrap_small by lia.
  destruct (Z.leb_spec (zlen G) (zlen (buf ++ c))) as [Hge|Hless].
  - assert (exists pad', buf ++ c = G ++ pad' /\ exists post, pad = pad' ++ post) as (pad' & Ebc & Hpost).
    { unfold zlen in Hge. exists (drop (length G) (buf ++ c)). split.
      - apply (f_equal (take (length G))) in E. rewrite take_app_length, take_app_le in E by lia.
        rewrite <- E at 1. symmetry. apply take_drop.
      - exists (concat cs). apply (f_equal (drop (length G))) in E. by rewrite drop_app_length, drop_app_le in E by lia. }
    rewrite Ebc. exists s1, pad'. split; [done|]. split; [unfold s1; by rewrite Ebc|]. split; [done|].
    destruct (build_MSC_segment (G ++ pad') s1) as [r|] eqn:Er; cbn [mbind option_bind fst snd]; [|done].
    rewrite add_all_idle by done. cbn [mbind option_bind fst snd]. by rewrite app_nil_r.
  - cbn [mbind option_bind fst snd]. destruct (IH (buf ++ c) s1) as (s2 & pad' & Hpost & Em & Eo & Er); try done.
    rewrite Er. exists s2, pad'. split; [done|]. split; [by rewrite Em|]. split; [done|].
    by destruct (build_MSC_segment (G ++ pad') s2) as [r|].
Qed.

Definition mot_events (evs : list pad_event) : list mot_event :=
  omap (fun e => match e with pad_mot_event m => Some m | _ => None end) evs.

Lemma mot_events_app l k : mot_events (l ++ k) = mot_events l ++ mot_events k.
Proof. unfold mot_events. induction l as [|e l IH]; [done|]. cbn. destruct e; cbn; by rewrite ?IH. Qed.

Lemma mot_events_map l : mot_events (map pad_mot_event l) = l.
Proof. unfold mot_events. induction l as [|e l IH]; [done|]. cbn in *. by rewrite IH. Qed.

(** A part of an object as it is sent in X-PAD. *)
Record pad_part := mk_pad_part {
  pp_part : mot_part;
  pp_rep : Z;
  pp_group : pad_group;
  pp_length : list Z;          (* the length indicator *)
  pp_start : list Z;           (* content of type 12 *)
  pp_conts : list (list Z);    (* contents of type 13 *)
  pp_pad : list Z              (* padding of the last content *)
}.

Definition pp_bytes (a : mot_object_on_air) (x : pad_part) : list Z :=
  enc_pad_group (pp_group x) (part_group a (pp_rep x) (pp_part x)).

Record pad_part_ok (a : mot_object_on_air) (x : pad_part) : Prop := {
  ppo_part : is_part a (pp_part x);
  ppo_rep : 0 <= pp_rep x < 8;
  ppo_group : pad_group_ok (pp_group x) (part_group a (pp_rep x) (pp_part x));
  ppo_size : zlen (pp_bytes a x) < 2 ^ 14;
  ppo_length : zlen (pp_length x) = 4 /\ check_crc_bytes (pp_length x) 2 = true /\
    Z.lor (Z.shiftl (Z.land (rd (pp_length x) 0) 0x3F) 8) (rd (pp_length x) 1) = zlen (pp_bytes a x);
  ppo_fields : pp_start x <> [] /\ pp_start x ++ concat (pp_conts x) = pp_bytes a x ++ pp_pad x;
  ppo_bytes : Forall is_byte (pair_bytes (pg_crc (pp_group x))) /\ Forall is_byte (pp_pad x)
}.

Definition feed_part (x : pad_part) (s : PadHandler) : option (PadHandler * list pad_event) :=
  feed_group (pp_length x) (pp_start x) (pp_conts x) s.

Section delivery.
Context (a : mot_object_on_air) (Ha : on_air_ok a) (Hsegs : Forall (fun s => zlen s < 8192) (air_segs a)).

(** Feeding a part is its arrival, with some of the padding behind it. *)
Lemma feed_part_arrives x s :
  pad_part_ok a x -> exists tail, Forall is_byte tail /\
    forall o' ev, arrive a tail (pp_part x) (mpMotObject s) = Some (o', ev) ->
    exists s' evs, feed_part x s = Some (s', evs) /\ mpMotObject s' = o' /\ mot_events evs = ev.
Proof.
  intros [Hp Hr Hg Hsz (Hl4 & Hlc & Hlv) [Hne Hf] [Hbc Hbp]]. unfold feed_part, feed_group.
  pose proof (build_part a Ha Hsegs (pp_group x) (pp_rep x) (pp_part x)) as Hbuild. fold (pp_bytes a x) in Hbuild.
  pose proof (zlen_nonneg (pp_bytes a x)) as Hz. set (G := pp_bytes a x) in *.
  set (s0 := on_msc (set_mDataGroupLength (zlen G)) s).
  assert (handle_content 1 (pp_length x) s = Some (s0, [])) as -> by (unfold handle_content; by rewrite Hl4, Hlc, Hlv).
  cbn [mbind option_bind fst snd]. change (handle_content 12 ?c s0) with (new_MSC_element c s0). unfold new_MSC_element.
  set (s1 := on_msc (set_msc_buffer []) s0). assert (mDataGroupLength (pad_msc s1) = zlen G) as Hl1 by done.
  rewrite Hl1, uwrap_small by lia. destruct (Z.leb_spec (zlen G) (zlen (pp_start x))) as [Hge|Hlt].
  - assert (exists pad' post, pp_start x = G ++ pad' /\ pp_pad x = pad' ++ post) as (pad' & post & Es & Ep).
    { unfold zlen in Hge. exists (drop (length G) (pp_start x)), (concat (pp_conts x)). split.
      - apply (f_equal (take (length G))) in Hf. rewrite take_app_length, take_app_le in Hf by lia.
        rewrite <- Hf at 1. symmetry. apply take_drop.
      - apply (f_equal (drop (length G))) in Hf. by rewrite drop_app_length, drop_app_le in Hf by lia. }
    rewrite Es, (Hbuild pad' s1 Hr Hp Hg Hl1). exists (pair_bytes (pg_crc (pp_group x)) ++ pad'). split.
    { apply Forall_app. split; [done|]. rewrite Ep in Hbp. by apply Forall_app in Hbp as [? _]. }
    intros o' ev E. unfold lift_mot. change (mpMotObject s1) with (mpMotObject s). rewrite E. cbn [mbind option_bind fst snd].
    rewrite add_all_idle by done. cbn [mbind option_bind fst snd]. eexists _, _. split; [done|]. split; [done|].
    cbn [app]. rewrite app_nil_r, mot_events_app, mot_events_map. apply app_nil_r.
  - cbn [mbind option_bind fst snd].
    set (s2 := on_msc (fun m => set_msc_buffer (pp_start x) (set_msc_element true m)) s1).
    destruct (add_all_complete (pp_conts x) (pp_start x) G (pp_pad x) s2) as (s3 & pad' & (post & Ep) & Em & Eo & ->);
      [done|done|done|lia|done|done|].
    rewrite (Hbuild pad' s3 Hr Hp Hg) by (by rewrite Em). exists (pair_bytes (pg_crc (pp_group x)) ++ pad'). split.
    { apply Forall_app. split; [done|]. rewrite Ep in Hbp. by apply Forall_app in Hbp as [? _]. }
    intros o' ev E. unfold lift_mot. rewrite Eo. change (mpMotObject s2) with (mpMotObject s). rewrite E.
    cbn [mbind option_bind fst snd]. eexists _, _. split; [done|]. split; [done|]. cbn [app].
    change (mot_events (signal_show_mot_handling :: ?l)) with (mot_events l). apply mot_events_map.
Qed.
End delivery.

Fixpoint feed_parts_pad (xs : list pad_part) (s : PadHandler) : option (PadHandler * list pad_event) :=
  match xs with
  | [] => Some (s, [])
  | x :: xs => r ← feed_part x s; q ← feed_parts_pad xs (fst r); Some (fst q, snd r ++ snd q)
  end.

(** Feeding the parts is the arrival of the parts at the object. *)
Lemma feed_parts_arrive a xs s :
  on_air_ok a -> Forall (fun seg => zlen seg < 8192) (air_segs a) -> Forall (pad_part_ok a) xs ->
  exists ps, map fst ps = map pp_part xs /\ Forall (part_ok a) ps /\
    forall o' ev, arrive_all a ps (mpMotObject s) = Some (o', ev) ->
    exists s' evs, feed_parts_pad xs s = Some (s', evs) /\ mpMotObject s' = o' /\ mot_events evs = ev.
Proof.
  intros Ha Hsegs. revert s. induction xs as [|x xs IH]; intros s Hok.
  { exists []. split_and!; [done|constructor|]. intros o' ev [= <- <-]. by exists s, []. }
  apply Forall_cons_1 in Hok as [Hx Hok]. destruct (feed_part_arrives a Ha Hsegs x s Hx) as (tail & Ht & Hfeed).
  destruct (arrive a tail (pp_part x) (mpMotObject s)) as [[o1 ev1]|] eqn:E1.
  - destruct (Hfeed o1 ev1 eq_refl) as (s1 & evs1 & E & Eo & Ee). destruct (IH s1 Hok) as (ps & Em & Hps & Hr).
    exists ((pp_part x, tail) :: ps). split; [cbn; by rewrite Em|]. split; [constructor; [split; [apply Hx|done]|done]|].
    intros o' ev. cbn [arrive_all]. rewrite E1. cbn [mbind option_bind fst snd]. rewrite <- Eo.
    destruct (arrive_all a ps (mpMotObject s1)) as [[o2 ev2]|] eqn:E2; cbn [mbind option_bind fst snd]; [|done].
    intros [= <- <-]. destruct (Hr o2 ev2 eq_refl) as (s2 & evs2 & E3 & Eo2 & Ee2). exists s2, (evs1 ++ evs2). cbn [feed_parts_pad].
    rewrite E. cbn [mbind option_bind fst snd]. rewrite E3. split; [done|]. split; [done|]. by rewrite mot_events_app, Ee, Ee2.
  - destruct (IH s Hok) as (ps & Em & Hps & _). exists ((pp_part x, tail) :: ps).
    split; [cbn; by rewrite Em|]. split; [constructor; [split; [apply Hx|done]|done]|].
    intros o' ev. cbn [arrive_all]. by rewrite E1.
Qed.

(** C16: a slide sent in the X-PAD.  Its header and segments come as data groups,
    each announced by a length indicator and cut in a start and continuations
    at any place, with padding behind the last one, in any order and with
    repetitions.  Reading them never leaves a buffer, the slide is reported
    once its header and all segments have been there and not before, and what
    is reported is the joined segments under the name of the header. *)
Theorem pad_mot_delivered (a : mot_object_on_air) (xs : list pad_part) (s : PadHandler) :
  on_air_ok a -> Forall (fun seg => zlen seg < 8192) (air_segs a) -> Forall (pad_part_ok a) xs ->
  mTransportId (mpMotObject s) <> air_tid a ->
  exists s' evs, feed_parts_pad xs s = Some (s', evs) /\
    (all_arrived a (map pp_part xs) <-> objects (mot_events evs) <> []) /\
    Forall (eq (air_event a (mIsDirElement (mpMotObject s)))) (objects (mot_events evs)).
Proof.
  intros Ha Hsegs Hok Hid. destruct (feed_parts_arrive a xs s Ha Hsegs Hok) as (ps & Em & Hps & Hr).
  destruct (arrive_all_delivers a ps (mpMotObject s) Ha Hps Hid) as (o' & ev & E & Hall & Hf).
  destruct (Hr o' ev E) as (s' & evs & Es & _ & Ee). exists s', evs. rewrite Ee, <- Em. done.
Qed.

(** The slide of [MotObject] in X-PAD contents: segment 2 without a CRC in one
    content, segment 0 in three, the header in two with padding, segment 1. *)
Definition crc_bytes_of (l : list Z) : list Z :=
  [Z.shiftr (calc_crc l (zlen l)) 8; u8 (calc_crc l (zlen l))].

Definition sample_pad_group : pad_group := mk_pad_group None 0 0 [] None.

(** Cut after the given sizes. *)
Fixpoint cut (ns : list nat) (l : list Z) : list (list Z) :=
  match ns with [] => [l] | n :: ns => take n l :: cut ns (drop n l) end.

Definition sample_pad_part (p : mot_part) (first : nat) (ns : list nat) (pad : list Z) : pad_part :=
  let G := enc_pad_group sample_pad_group (part_group sample_object 1 p) in
  let len := [Z.shiftr (zlen G) 8; u8 (zlen G)] in
  mk_pad_part p 1 sample_pad_group (len ++ crc_bytes_of len) (take first G) (cut ns (drop first G ++ pad)) pad.

Definition sample_pad_parts : list pad_part :=
  [sample_pad_part (PartSegment 2) 40 [] []; sample_pad_part (PartSegment 0) 3 [2%nat; 4%nat] [0; 0];
   sample_pad_part PartHeader 8 [] [0; 0; 0]; sample_pad_part (PartSegment 1) 5 [] []].

Lemma pad_mot_delivered_witness :
  exists s' evs, feed_parts_pad sample_pad_parts PadHandler_new = Some (s', evs) /\
    (all_arrived sample_object (map pp_part sample_pad_parts) <-> objects (mot_events evs) <> []) /\
    Forall (eq (air_event sample_object false)) (objects (mot_events evs)).
Proof.
  apply (pad_mot_delivered sample_object sample_pad_parts PadHandler_new).
  - apply sample_object_ok.
  - repeat constructor.
  - repeat (apply List.Forall_cons); [..|apply List.Forall_nil].
    all: split; [vm_compute; try split; congruence|vm_compute; split; congruence| | | | |split; apply forall_bytes; reflexivity].
    all: try (vm_compute; reflexivity).
    all: try (vm_compute; repeat split; congruence).
    all: split; vm_compute; try (by left); try (by right); try split; congruence.
  - discriminate.
Defined.
