(* ===== verification/Mp4Processor.v ===== *)
(** * DAB+ super frames (src/src/base/backend/audio/mp4processor.cpp)

    Five DAB frames make a super frame: a fire-coded header with the start of
    every access unit, the access units with their CRCs, and ten Reed-Solomon
    parity bytes for every interleaved column of 110 bytes.  The processor keeps
    the last five frames in a ring, finds the start of a super frame by the fire
    code, repairs the columns, and gives every access unit with a right CRC to
    the dump buffer, the PAD handler and the AAC decoder.

    The AAC decoder is a library known through the interface [AacDecoder]
    only.  The statistics are kept as the code keeps them.  [None] is an access
    outside of a buffer. *)
From S2P Require Import Prelude BitExtractors BitFields Checked Crc ReedSolomon Firecode BitWriter Latm MotObject DataProcessor PadHandler.
Open Scope Z_scope.

(** ** The decoder and the signals *)
Class AacDecoder (D : Type) := {
  convert_mp4_to_pcm : SStreamParms -> list Z -> Z -> D -> D * Z;
  conceal_lost_frame : Z -> D -> D
}.

Inductive mp4_event :=
  | signal_show_frame_errors (n : Z)
  | signal_show_rs_errors (n : Z)
  | signal_show_aac_errors (n : Z)
  | signal_show_rs_corrections (c ec : Z)
  | signal_is_stereo (b : bool)
  | signal_new_aac_frame
  | put_data_into_ring_buffer (stream : list Z)
  | mp4_pad_event (e : pad_event).

(** ** The state *)
(** Counters of the frame level. *)
Record SFrameCounts := mk_fc {
  mFrameCount : Z; mFrameErrors : Z; mSuccessFrames : Z; mSumFrameCount : Z; mSumFrameErrors : Z
}.
(** Counters of the Reed-Solomon level. *)
Record SRsCounts := mk_rc {
  mRsErrors : Z; mGoodFrames : Z; mTotalCorrections : Z; mSumFcErrors : Z; mSumFcCorrections : Z;
  mSumRsErrors : Z; mSumCorrections : Z; mCrcErrors : Z
}.
(** Counters of the access units. *)
Record SAuCounts := mk_ac { mAacErrors : Z; mAacFrames : Z; mSumCrcErrors : Z; mSum_good_crcs : Z }.

Section processor.
Context {D : Type} `{AacDecoder D}.
(** [__WITH_FDK_AAC__] *)
Variable with_fdk : bool.

Record Mp4Processor := mkMp4 {
  mp4_BitRate : Z;
  mPadhandler : PadHandler;
  mpAacDecoder : D;
  mBlockFillIndex : Z;
  mBlocksInBuffer : Z;
  mSuperFrameSync : Z;
  mFrameByteVec : list Z;
  mOutVec : list Z;
  mp4_fc : SFrameCounts;
  mp4_rc : SRsCounts;
  mp4_ac : SAuCounts
}.

Definition mRsDims (s : Mp4Processor) : Z := i16 (Z.quot (mp4_BitRate s) 8).

Definition Mp4Processor_new (iBitRate : Z) (pad : PadHandler) (dec : D) : Mp4Processor :=
  let dims := i16 (Z.quot iBitRate 8) in
  mkMp4 iBitRate pad dec 0 0 0 (zeros (dims * 120)) (zeros (dims * 110))
    (mk_fc 0 0 0 0 0) (mk_rc 0 0 0 0 0 0 0 0) (mk_ac 0 0 0 0).

Definition set_ring (fill blocks sync : Z) (s : Mp4Processor) : Mp4Processor :=
  mkMp4 (mp4_BitRate s) (mPadhandler s) (mpAacDecoder s) fill blocks sync (mFrameByteVec s) (mOutVec s)
    (mp4_fc s) (mp4_rc s) (mp4_ac s).
Definition set_frame_bytes (v : list Z) (s : Mp4Processor) : Mp4Processor :=
  mkMp4 (mp4_BitRate s) (mPadhandler s) (mpAacDecoder s) (mBlockFillIndex s) (mBlocksInBuffer s) (mSuperFrameSync s)
    v (mOutVec s) (mp4_fc s) (mp4_rc s) (mp4_ac s).
Definition set_out (out : list Z) (rc : SRsCounts) (s : Mp4Processor) : Mp4Processor :=
  mkMp4 (mp4_BitRate s) (mPadhandler s) (mpAacDecoder s) (mBlockFillIndex s) (mBlocksInBuffer s) (mSuperFrameSync s)
    (mFrameByteVec s) out (mp4_fc s) rc (mp4_ac s).
Definition set_fc (fc : SFrameCounts) (s : Mp4Processor) : Mp4Processor :=
  mkMp4 (mp4_BitRate s) (mPadhandler s) (mpAacDecoder s) (mBlockFillIndex s) (mBlocksInBuffer s) (mSuperFrameSync s)
    (mFrameByteVec s) (mOutVec s) fc (mp4_rc s) (mp4_ac s).
Definition set_ac (ac : SAuCounts) (s : Mp4Processor) : Mp4Processor :=
  mkMp4 (mp4_BitRate s) (mPadhandler s) (mpAacDecoder s) (mBlockFillIndex s) (mBlocksInBuffer s) (mSuperFrameSync s)
    (mFrameByteVec s) (mOutVec s) (mp4_fc s) (mp4_rc s) ac.
Definition set_sinks (pad : PadHandler) (dec : D) (s : Mp4Processor) : Mp4Processor :=
  mkMp4 (mp4_BitRate s) pad dec (mBlockFillIndex s) (mBlocksInBuffer s) (mSuperFrameSync s)
    (mFrameByteVec s) (mOutVec s) (mp4_fc s) (mp4_rc s) (mp4_ac s).

(** ** Reed-Solomon and fire code *)
(** What a decoded column does to the counters. *)
Definition count_column (ler : Z) (rc : SRsCounts) : SRsCounts * list mp4_event :=
  let '(mk_rc rse good corr fce fcc srse scorr crce) := rc in
  if ler <? 0 then (mk_rc (i16 (rse + 1)) good corr fce fcc (i32 (srse + 1)) scorr crce, [])
  else
    let corr := i32 (corr + ler) in
    let scorr := i32 (scorr + ler) in
    let good := i32 (good + 1) in
    if 100 <=? good then (mk_rc rse 0 0 fce fcc srse scorr 0, [signal_show_rs_corrections corr crce])
    else (mk_rc rse good corr fce fcc srse scorr crce, []).

(** Column [j]: gather, decode, scatter. *)
Definition rs_column (dims : Z) (frame : list Z) (iBase j : Z) (out : list Z) : option (Z * list Z) :=
  rsIn ← zforM 0 120 (fun k v => b ← get frame ((iBase + j + k * dims) mod (dims * 120)); Some (v ++ [b])) [];
  let '(ler, rsOut) := dec RS rsIn (zeros 110) 135 in
  out ← zforM 0 110 (fun k out => put out (j + k * dims) (rd rsOut k)) out;
  Some (i16 ler, out).

Definition rs_columns (dims : Z) (frame : list Z) (iBase : Z) (st : list Z * SRsCounts * list mp4_event)
  : option (list Z * SRsCounts * list mp4_event) :=
  zforM 0 dims (fun j st =>
    let '(out, rc, evs) := st in
    r ← rs_column dims frame iBase j out;
    let '(ler, out) := r in
    let '(rc, ev) := count_column ler rc in
    Some (out, rc, evs ++ ev)) st.

Definition process_reed_solomon_frame (iBase : Z) (s : Mp4Processor) : option (bool * Mp4Processor * list mp4_event) :=
  r ← rs_columns (mRsDims s) (mFrameByteVec s) iBase (mOutVec s, mp4_rc s, []);
  let '(out, rc, evs) := r in
  let '(mk_rc rse good corr fce fcc srse scorr crce) := rc in
  _ ← inside out 0 12 tt;
  let '(ok, out) := check_and_correct_6bits FC out in
  if ok then
    head ← getn (mFrameByteVec s) iBase 11;
    let fcc := if decide (slice out 0 11 = head) then fcc else i32 (fcc + 1) in
    Some (true, set_out out (mk_rc rse good corr fce fcc srse scorr crce) s, evs)
  else
    Some (false, set_out out (mk_rc rse good corr (i32 (fce + 1)) fcc srse scorr crce) s, evs).

(** ** The header of the super frame *)
Definition stream_parameters (out : list Z) : SStreamParms :=
  let b := rd out 2 in
  let dac := Z.land (Z.shiftr b 6) 1 in
  let sbr := Z.land (Z.shiftr b 5) 1 in
  let ch := Z.land (Z.shiftr b 4) 1 in
  let ps := Z.land (Z.shiftr b 3) 1 in
  let ms := Z.land b 7 in
  mk_sp dac sbr ps ch ms
    (if negb (ch =? 0) then 2 else 1)
    (if negb (dac =? 0) then (if negb (sbr =? 0) then 6 else 3) else (if negb (sbr =? 0) then 8 else 5))
    (if negb (dac =? 0) then 3 else 5).

(** Entries of [mAuStartArr] that are read from the header. *)
Definition au_hi (out : list Z) (i : Z) : Z := rd out i * 16 + Z.shiftr (rd out (i + 1)) 4.
Definition au_lo (out : list Z) (i : Z) : Z := Z.land (rd out i) 0xf * 256 + rd out (i + 1).

Definition mAuStartArr (sp : SStreamParms) (bitRate : Z) (out : list Z) : list Z :=
  let last := 110 * Z.quot bitRate 8 in
  let c := 2 * dacRate sp + sbrFlag sp in
  map i16
    (if c =? 0 then [8; au_hi out 3; au_lo out 4; au_hi out 6; last]
     else if c =? 1 then [5; au_hi out 3; last]
     else if c =? 2 then [11; au_hi out 3; au_lo out 4; au_hi out 6; au_lo out 7; au_hi out 9; last]
     else [6; au_hi out 3; au_lo out 4; last]).

(** ** Access units *)
Definition cAacCoreFrameBytes : Z := 960.

(** The PAD of an access unit that starts with a data stream element; [unit] is
    the rest of [mOutVec] from the access unit on. *)
Definition au_pad (unit : list Z) (pad : PadHandler) : option (PadHandler * list pad_event) :=
  b ← get unit 0;
  if Z.land (Z.shiftr b 5) 7 =? 4 then
    count ← get unit 1;
    buffer ← getn unit 2 count;
    l0 ← get buffer (count - 1);
    l1 ← get buffer (count - 2);
    process_PAD buffer (i16 (count - 3)) l1 l0 pad
  else Some (pad, []).

(** What the decoder gets: the LATM stream, or the bytes and ten zeros. *)
Definition au_audio (stream unit : list Z) (aacFrameLen : Z) : option (list Z * Z) :=
  if with_fdk then Some (stream, zlen stream)
  else bytes ← getn unit 0 aacFrameLen; Some (bytes ++ zeros 10, aacFrameLen).

(** An access unit with a right CRC; the last component is [aacErr]. *)
Definition good_au (sp : SStreamParms) (unit : list Z) (aacFrameLen : Z) (pad : PadHandler) (dec : D)
  : option (PadHandler * D * list mp4_event * Z) :=
  stream ← build_aac_stream aacFrameLen sp unit;
  p ← au_pad unit pad;
  audio ← au_audio stream unit aacFrameLen;
  let '(dec, aacErr) := convert_mp4_to_pcm sp (fst audio) (snd audio) dec in
  Some (fst p, dec,
        [put_data_into_ring_buffer stream; signal_new_aac_frame] ++ map mp4_pad_event (snd p) ++
        [signal_is_stereo ((aacChannelMode sp =? 1) || (psFlag sp =? 1))], aacErr).

(** [if (concealDropouts) mpAacDecoder->conceal_lost_frame(numConcealSamples)] *)
Definition conceal (concealDropouts : bool) (sp : SStreamParms) (dec : D) : D :=
  if concealDropouts
  then conceal_lost_frame (cAacCoreFrameBytes * (if negb (sbrFlag sp =? 0) then 2 else 1) * 2) dec else dec.

Definition aac_error (s : Mp4Processor) : Mp4Processor :=
  let '(mk_ac e n c g) := mp4_ac s in set_ac (mk_ac (i16 (e + 1)) n c g) s.
Definition good_crc (s : Mp4Processor) : Mp4Processor :=
  let '(mk_ac e n c g) := mp4_ac s in set_ac (mk_ac e n c (i32 (g + 1))) s.
Definition crc_error (s : Mp4Processor) : Mp4Processor :=
  let '(mk_ac e n c g) := mp4_ac s in
  let '(mk_rc rse good corr fce fcc srse scorr crce) := mp4_rc s in
  set_ac (mk_ac e n (i32 (c + 1)) g) (set_out (mOutVec s) (mk_rc rse good corr fce fcc srse scorr (i16 (crce + 1))) s).

(** [if (++mAacFrames > 25)] *)
Definition au_tick (s : Mp4Processor) : Mp4Processor * list mp4_event :=
  let '(mk_ac e n c g) := mp4_ac s in
  let n := i16 (n + 1) in
  if 25 <? n then (set_ac (mk_ac 0 0 c g) s, [signal_show_aac_errors e]) else (set_ac (mk_ac e n c g) s, []).

Definition conceal_in (concealDropouts : bool) (sp : SStreamParms) (s : Mp4Processor) : Mp4Processor :=
  set_sinks (mPadhandler s) (conceal concealDropouts sp (mpAacDecoder s)) s.

(** One pass of the loop over the access units: from [a] up to the next one. *)
Definition process_au (concealDropouts : bool) (sp : SStreamParms) (a next : Z) (s : Mp4Processor)
  : option (Mp4Processor * list mp4_event) :=
  let aacFrameLen := next - a - 2 in
  r ← (if (cAacCoreFrameBytes <? aacFrameLen) || (aacFrameLen <? 0)
       then Some (conceal_in concealDropouts sp (aac_error s), [])
       else
         unit ← ptr (mOutVec s) a;
         _ ← inside unit 0 (aacFrameLen + 2) tt;
         if check_crc_bytes unit aacFrameLen then
           g ← good_au sp unit aacFrameLen (mPadhandler s) (mpAacDecoder s);
           let '(pad, dec, evs, aacErr) := g in
           let s := set_sinks pad dec (good_crc s) in
           Some (if aacErr <=? 0 then conceal_in concealDropouts sp (aac_error s) else s, evs)
         else Some (conceal_in concealDropouts sp (crc_error s), []));
  let '(s, ev) := au_tick (fst r) in
  Some (s, snd r ++ ev).

(** [for (auIdx = 0; auIdx < numAUs; ++auIdx)], along [mAuStartArr]. *)
Fixpoint process_aus (concealDropouts : bool) (sp : SStreamParms) (starts : list Z) (s : Mp4Processor)
  : option (Mp4Processor * list mp4_event) :=
  match starts with
  | a :: (next :: _) as rest =>
      r ← process_au concealDropouts sp a next s;
      q ← process_aus concealDropouts sp rest (fst r);
      Some (fst q, snd r ++ snd q)
  | _ => Some (s, [])
  end.

Definition process_super_frame (concealDropouts : bool) (iBase : Z) (s : Mp4Processor)
  : option (bool * Mp4Processor * list mp4_event) :=
  r ← process_reed_solomon_frame iBase s;
  let '(ok, s, evs) := r in
  if negb ok then Some (false, s, evs)
  else
    let sp := stream_parameters (mOutVec s) in
    q ← process_aus concealDropouts sp (mAuStartArr sp (mp4_BitRate s) (mOutVec s)) s;
    Some (true, fst q, evs ++ snd q).

(** ** Frames *)
(** A byte of the bit stream. *)
Definition pack_byte (iV : list Z) (i : Z) : option Z :=
  zforM 0 8 (fun j temp => b ← get iV (i * 8 + j); Some (u8 (Z.lor (Z.shiftl temp 1) (Z.land b 1)))) 0.

Definition store_block (iV : list Z) (numBytes fill : Z) (v : list Z) : option (list Z) :=
  zforM 0 numBytes (fun i v => b ← pack_byte iV i; put v (fill * numBytes + i) b) v.

(** [if (++mFrameCount >= 25)] *)
Definition frame_tick (s : Mp4Processor) : Mp4Processor * list mp4_event :=
  let '(mk_fc n e g c se) := mp4_fc s in
  let n := i16 (n + 1) in
  if 25 <=? n then (set_fc (mk_fc 0 0 g c se) s, [signal_show_frame_errors e]) else (set_fc (mk_fc n e g c se) s, []).

(** [if (++mSuccessFrames > 25)] *)
Definition success_tick (s : Mp4Processor) : Mp4Processor * list mp4_event :=
  let '(mk_fc n e g c se) := mp4_fc s in
  let '(mk_rc rse good corr fce fcc srse scorr crce) := mp4_rc s in
  let g := i16 (g + 1) in
  if 25 <? g
  then (set_fc (mk_fc n e 0 c se) (set_out (mOutVec s) (mk_rc 0 good corr fce fcc srse scorr crce) s), [signal_show_rs_errors rse])
  else (set_fc (mk_fc n e g c se) s, []).

Definition sync_lost (s : Mp4Processor) : Mp4Processor :=
  let '(mk_fc n e g c se) := mp4_fc s in
  set_fc (mk_fc n (i16 (e + 1)) g c (i32 (se + 1))) (set_ring (mBlockFillIndex s) 4 0 s).

(** Not synchronised: does a super frame start at the oldest block? *)
Definition find_sync (numBytes : Z) (s : Mp4Processor) : option Mp4Processor :=
  if mSuperFrameSync s =? 0 then
    p ← ptr (mFrameByteVec s) (mBlockFillIndex s * numBytes);
    _ ← inside p 0 11 tt;
    Some (if check FC p then set_ring (mBlockFillIndex s) (mBlocksInBuffer s) 4 s
          else set_ring (mBlockFillIndex s) 4 0 s)
  else Some s.

(** A full ring with a synchronised start. *)
Definition full_ring (concealDropouts : bool) (numBytes : Z) (s : Mp4Processor)
  : option (Mp4Processor * list mp4_event) :=
  if mSuperFrameSync s =? 0 then Some (s, [])
  else
    r ← process_super_frame concealDropouts (i16 (mBlockFillIndex s * numBytes))
          (set_ring (mBlockFillIndex s) 0 (mSuperFrameSync s) s);
    let '(ok, s, evs) := r in
    if (ok : bool) then
      let '(s, ev) := success_tick (set_ring (mBlockFillIndex s) (mBlocksInBuffer s) 4 s) in
      Some (s, evs ++ ev)
    else
      let s := set_ring (mBlockFillIndex s) (mBlocksInBuffer s) (mSuperFrameSync s - 1) s in
      Some (if mSuperFrameSync s =? 0 then sync_lost s else s, evs).

Definition count_block (s : Mp4Processor) : Mp4Processor :=
  let '(mk_fc n e g c se) := mp4_fc s in
  set_fc (mk_fc n e g (i32 (c + 1)) se)
    (set_ring ((mBlockFillIndex s + 1) mod 5) (i16 (mBlocksInBuffer s + 1)) (mSuperFrameSync s) s).

Definition mp4_add_to_frame (concealDropouts : bool) (iV : list Z) (s : Mp4Processor)
  : option (Mp4Processor * list mp4_event) :=
  let numBits := i16 (24 * mp4_BitRate s) in
  let numBytes := i16 (Z.quot numBits 8) in
  v ← store_block iV numBytes (mBlockFillIndex s) (mFrameByteVec s);
  let s := count_block (set_frame_bytes v s) in
  if 5 <=? mBlocksInBuffer s then
    let '(s, ev0) := frame_tick s in
    s ← find_sync numBytes s;
    r ← full_ring concealDropouts numBytes s;
    Some (fst r, ev0 ++ snd r)
  else Some (s, []).
End processor.
