(* ===== verification/Mp4Properties.v ===== *)
(** * What the super frame processor does with a super frame on air

    The transmitter's side as a specification: a payload of header and access
    units, its columns with their Reed-Solomon parity, interleaved and cut in
    five frames, with at most five damaged bytes in every column.  The theorems
    say that the processor recovers the payload and delivers exactly its access
    units, in order, to the dump, the PAD handler and the decoder, and that its
    ring and synchronisation state stay within their ranges whatever it gets. *)
From S2P Require Import Prelude BitExtractors BitFields Checked Crc ReedSolomon RsDecoder Firecode BitWriter Latm MotObject DataProcessor PadHandler Mp4Processor.
Open Scope Z_scope.

(** ** Lists from their elements *)
Definition tabulate (n : Z) (f : Z -> Z) : list Z := map f (seqZ 0 n).

Lemma zlen_tabulate n f : 0 <= n -> zlen (tabulate n f) = n.
Proof. intros. unfold zlen, tabulate. rewrite length_map, length_seqZ. lia. Qed.

Lemma rd_tabulate n f i : 0 <= i < n -> rd (tabulate n f) i = f i.
Proof.
  intros H. apply rd_lookup; [lia|]. unfold tabulate. rewrite list_lookup_fmap, lookup_seqZ_lt by lia.
  cbn. f_equal. f_equal. lia.
Qed.

Lemma Forall_tabulate (P : Z -> Prop) n f : (forall i, 0 <= i < n -> P (f i)) -> Forall P (tabulate n f).
Proof.
  intros H. unfold tabulate. apply List.Forall_forall. intros x Hx. apply in_map_iff in Hx as (i & <- & Hi).
  apply in_seqZ in Hi. apply H. lia.
Qed.

(** [for (k = 0; k < n; k++) v.push_back(a[f(k)])] *)
Lemma gather (l : list Z) (f : Z -> Z) n :
  0 <= n -> (forall k, 0 <= k < n -> 0 <= f k < zlen l) ->
  zforM 0 n (fun k v => b ← get l (f k); Some (v ++ [b])) [] = Some (tabulate n (fun k => rd l (f k))).
Proof.
  intros Hn Hf. destruct (zforM_inv (fun k v => v = tabulate k (fun k => rd l (f k))) 0 n
    (fun k v => b ← get l (f k); Some (v ++ [b])) []) as (v & -> & ->); [done|done| |done].
  intros i v Hi ->. rewrite get_Some by auto. cbn [mbind option_bind]. eexists. split; [done|].
  unfold tabulate. rewrite seqZ_app, map_app by lia. done.
Qed.

(** ** What leaves the processor apart from statistics *)
Definition is_audible (e : mp4_event) : bool :=
  match e with
  | signal_is_stereo _ | signal_new_aac_frame | put_data_into_ring_buffer _ | mp4_pad_event _ => true
  | _ => false
  end.
Definition audible (evs : list mp4_event) : list mp4_event := List.filter is_audible evs.

Lemma audible_app l k : audible (l ++ k) = audible l ++ audible k.
Proof. apply List.filter_app. Qed.

Lemma audible_all l : (forall e, In e l -> is_audible e = true) -> audible l = l.
Proof.
  induction l as [|e l IH]; intros H; [done|]. cbn. rewrite (H e) by (by left). f_equal. apply IH. intros. apply H. by right.
Qed.

Lemma count_column_silent ler rc : audible (snd (count_column ler rc)) = [].
Proof. destruct rc. cbn. by repeat case_match. Qed.

(** ** The transmitter's columns *)
Definition column (dims : Z) (P : list Z) (j : Z) : list Z := tabulate 110 (fun k => rd P (j + k * dims)).
Definition codeword (dims : Z) (P : list Z) (j : Z) : list Z := enc RS (column dims P j) (zeros 120) 135.

(** Up to five damaged bytes: their places and what is added to them. *)
Definition damage (e : list (Z * Z)) (c : list Z) : list Z := foldr (fun '(q, v) c => wr c q (Z.lxor (rd c q) v)) c e.

Definition damage_ok (e : list (Z * Z)) : Prop := zlen e <= 5 /\ Forall (fun '(q, v) => is_byte v) e.

(** The bytes of the super frame as they are received. *)
Definition received (dims : Z) (P : list Z) (err : Z -> list (Z * Z)) : list Z :=
  tabulate (dims * 120) (fun i => rd (damage (err (i mod dims)) (codeword dims P (i mod dims))) (i / dims)).

(** The ring buffer holds [F] from [base] on. *)
Definition ring_holds (frame : list Z) (base : Z) (F : list Z) : Prop :=
  zlen frame = zlen F /\ forall i, 0 <= i < zlen F -> rd frame ((base + i) mod zlen F) = rd F i.

Lemma column_bytes dims P j : Forall is_byte P -> Forall is_byte (column dims P j).
Proof. intros H. apply Forall_tabulate. intros. apply rd_Forall; [apply is_byte_0|done]. Qed.

Lemma codeword_enc dims P j : enc RS (column dims P j) (zeros 120) 135 = codeword dims P j.
Proof. done. Qed.

Lemma zlen_codeword dims P j : zlen (codeword dims P j) = 120.
Proof. unfold codeword. by destruct (enc_spec (column dims P j) (zeros 120) 135) as [E _]. Qed.

Lemma codeword_bytes dims P j : Forall is_byte P -> Forall is_byte (codeword dims P j).
Proof.
  intros HP. destruct (enc_fill_codeword (column dims P j) (zeros 120) 135) as (Hb & _); [lia|done|by apply column_bytes|].
  fold (codeword dims P j) in Hb. destruct (fill_rf_spec (codeword dims P j) 135) as [_ Hf]; [lia|].
  assert (codeword dims P j = tabulate 120 (fun i => rd (fill_rf RS (codeword dims P j) 135) (i + 135))) as ->.
  { apply list_eq_rd; rewrite zlen_codeword, ?zlen_tabulate by lia; [done|]. intros i Hi. rewrite rd_tabulate, Hf by lia.
    assert ((i + 135 <? 135) = false) as -> by lia. f_equal. lia. }
  apply Forall_tabulate. intros i _. apply rd_Forall; [apply is_byte_0|done].
Qed.

Lemma zlen_damage e c : zlen (damage e c) = zlen c.
Proof. induction e as [|[q v] e IH]; [done|]. cbn [damage foldr]. rewrite zlen_wr. exact IH. Qed.

Lemma damage_bytes e c : Forall (fun '(q, v) => is_byte v) e -> Forall is_byte c -> Forall is_byte (damage e c).
Proof. intros He Hc. induction He as [|[q v] e Hv He IH]; [done|]. cbn [damage foldr]. fold (damage e c). apply Forall_wr; auto with dab. Qed.

Lemma damage_elsewhere e c i : ~ In i (map fst e) -> rd (damage e c) i = rd c i.
Proof.
  induction e as [|[q v] e IH]; intros Hn; [done|]. cbn [damage foldr map fst] in *. fold (damage e c). rewrite rd_wr_ne by (intros E; apply Hn; by left).
  apply IH. intros Hi. apply Hn. by right.
Qed.

Lemma damage_places n e c : zlen (places n c (damage e c)) <= zlen e.
Proof.
  assert (incl (places n c (damage e c)) (map fst e)) as Hi.
  { intros q [_ Hne]%in_places. destruct (in_dec Z.eq_dec q (map fst e)) as [|Hn]; [done|]. exfalso. apply Hne. by rewrite damage_elsewhere. }
  apply List.NoDup_incl_length in Hi; [unfold zlen; rewrite length_map in Hi; lia|apply NoDup_places].
Qed.

(** The decoder gives back the column and counts at most five corrections. *)
Lemma dec_column dims P j e :
  Forall is_byte P -> damage_ok e ->
  exists ler, dec RS (damage e (codeword dims P j)) (zeros 110) 135 = (ler, column dims P j) /\ 0 <= ler <= 5.
Proof.
  intros HP [Hfew He]. pose proof (column_bytes dims P j HP) as Hb. pose proof (damage_places (255 - 135) e (codeword dims P j)) as Hp.
  assert (zlen (column dims P j) = 110) as Hl by (by apply zlen_tabulate).
  assert (slice (column dims P j) 0 110 = column dims P j) as Hs.
  { unfold slice. cbn. apply take_ge. unfold zlen in Hl. lia. }
  assert (Forall is_byte (damage e (codeword dims P j))) as Hd by (apply damage_bytes; [done|by apply codeword_bytes]).
  assert (zlen (zeros 120) = 255 - 135 /\ zlen (zeros 110) = 245 - 135) as [Hz1 Hz2] by (rewrite !zlen_zeros; lia).
  pose proof (fun c' => dec_corrects_few (column dims P j) (zeros 120) (zeros 110) c' 135) as E. rewrite codeword_enc in E.
  destruct (E (damage e (codeword dims P j)) ltac:(lia) Hb ltac:(lia) Hz1 Hz2 Hd ltac:(lia)) as (n & En & Hn). exists n. rewrite En. split; [|exact Hn]. change (245 - 135) with 110. by rewrite Hs.
Qed.

Section columns.
Context (dims : Z) (P : list Z) (err : Z -> list (Z * Z)) (frame : list Z) (base : Z).
Context (Hd : 0 < dims) (HP : Forall is_byte P) (Herr : forall j, damage_ok (err j)).
Context (Hring : ring_holds frame base (received dims P err)).

Lemma zlen_received : zlen (received dims P err) = dims * 120.
Proof. apply zlen_tabulate. lia. Qed.

(** Column [j] of the ring is the damaged code word. *)
Lemma ring_column j :
  0 <= j < dims ->
  zforM 0 120 (fun k v => b ← get frame ((base + j + k * dims) mod (dims * 120)); Some (v ++ [b])) [] =
  Some (damage (err j) (codeword dims P j)).
Proof.
  intros Hj. destruct Hring as [Hl Hr]. rewrite zlen_received in Hl, Hr.
  rewrite gather; [|lia|intros k Hk; rewrite Hl; apply Z.mod_pos_bound; lia]. f_equal.
  apply list_eq_rd; rewrite zlen_tabulate by lia; [by rewrite zlen_damage, zlen_codeword|].
  intros k Hk. rewrite rd_tabulate by lia. rewrite <- Z.add_assoc, Hr by nia. unfold received. rewrite rd_tabulate by nia.
  rewrite Z.div_add, Z.div_small, Z.mod_add, Z.mod_small by lia. done.
Qed.

Lemma rs_column_ok j out :
  0 <= j < dims -> zlen out = dims * 110 ->
  exists ler out', rs_column dims frame base j out = Some (ler, out') /\ 0 <= ler <= 5 /\ zlen out' = dims * 110 /\
    forall i, 0 <= i < dims * 110 -> rd out' i = if i mod dims =? j then rd P i else rd out i.
Proof.
  intros Hj Ho. unfold rs_column. rewrite ring_column by done. cbn [mbind option_bind].
  destruct (dec_column dims P j (err j) HP (Herr j)) as (ler & -> & Hler).
  destruct (zforM_inv (fun k o => zlen o = dims * 110 /\ forall i, 0 <= i < dims * 110 ->
      rd o i = if (i mod dims =? j) && (i / dims <? k) then rd P i else rd out i) 0 110
    (fun k o => put o (j + k * dims) (rd (column dims P j) k)) out) as (o & -> & Hol & Hor); [lia| | |].
  - split; [done|]. intros i Hi. assert (0 <= i / dims) by (apply Z.div_pos; lia).
    assert ((i / dims <? 0) = false) as -> by lia. by rewrite andb_false_r.
  - intros k o Hk [Hol Hor]. rewrite put_Some by nia. eexists. split; [done|]. rewrite zlen_wr. split; [done|].
    intros i Hi. pose proof (Z.div_mod i dims ltac:(lia)) as Edm. pose proof (Z.mod_pos_bound i dims Hd) as Hm.
    destruct (Z.eq_dec (j + k * dims) i) as [<-|Hne].
    + rewrite rd_wr_eq by lia. unfold column. rewrite rd_tabulate by lia. rewrite Z.div_add, Z.div_small, Z.mod_add, Z.mod_small by lia.
      rewrite Z.eqb_refl. by assert ((0 + k <? k + 1) = true) as -> by lia.
    + rewrite rd_wr_ne, Hor by done. destruct (Z.eqb_spec (i mod dims) j) as [Ej|]; [|done]. cbn [andb].
      assert ((i / dims <? k + 1) = (i / dims <? k)) as ->; [|done]. assert (i / dims <> k) by nia. lia.
  - cbn [mbind option_bind]. rewrite i16_small by lia. exists ler, o. split_and!; try lia; try done. intros i Hi. rewrite Hor by done.
    assert (i / dims < 110) by (apply Z.div_lt_upper_bound; lia). assert ((i / dims <? 110) = true) as -> by lia. by rewrite andb_true_r.
Qed.

Lemma rs_columns_ok out rc :
  zlen P = dims * 110 -> zlen out = dims * 110 ->
  exists rc' evs, rs_columns dims frame base (out, rc, []) = Some (P, rc', evs) /\ audible evs = [].
Proof.
  intros HPl Ho. unfold rs_columns.
  destruct (zforM_inv (fun J (st : list Z * SRsCounts * list mp4_event) => let '(o, rc, evs) := st in
      zlen o = dims * 110 /\ audible evs = [] /\ forall i, 0 <= i < dims * 110 -> i mod dims < J -> rd o i = rd P i) 0 dims
    (fun j st => let '(out, rc, evs) := st in
      r ← rs_column dims frame base j out;
      let '(ler, out) := r in
      let '(rc, ev) := count_column ler rc in Some (out, rc, evs ++ ev)) (out, rc, [])) as ([[o rc'] evs] & -> & Hol & Ha & Hr); [lia| | |].
  - split_and!; [done|done|]. intros i _ Hi. pose proof (Z.mod_pos_bound i dims Hd). lia.
  - intros j [[o rc0] evs] Hj (Hol & Ha & Hr). destruct (rs_column_ok j o Hj Hol) as (ler & o' & -> & _ & Hol' & Hr').
    cbn [mbind option_bind]. pose proof (count_column_silent ler rc0) as Hs. destruct (count_column ler rc0) as [rc1 ev].
    eexists. split; [done|]. split_and!; [done|rewrite audible_app, Ha; done|]. intros i Hi Hm. rewrite Hr' by done.
    destruct (Z.eqb_spec (i mod dims) j); [done|]. apply Hr; [done|lia].
  - exists rc', evs. split; [|done]. do 3 f_equal. apply list_eq_rd; [lia|]. intros i Hi. apply Hr; [lia|].
    apply Z.mod_pos_bound. lia.
Qed.
End columns.

Lemma check_accepts f x : check f x = true -> check_and_correct_6bits f x = (true, x).
Proof. unfold check_and_correct_6bits, check. by intros ->. Qed.

(** The columns recovered and the fire code of the payload right. *)
Lemma reed_solomon_recovers {D} (P : list Z) (err : Z -> list (Z * Z)) (base : Z) (s : Mp4Processor (D := D)) :
  0 < mRsDims s -> Forall is_byte P -> zlen P = mRsDims s * 110 -> (forall j, damage_ok (err j)) -> check FC P = true ->
  ring_holds (mFrameByteVec s) base (received (mRsDims s) P err) -> zlen (mOutVec s) = mRsDims s * 110 ->
  0 <= base -> base + 11 <= mRsDims s * 120 ->
  exists rc evs, process_reed_solomon_frame base s = Some (true, set_out P rc s, evs) /\ audible evs = [].
Proof.
  intros Hd HP HPl Herr Hfc Hring Ho Hb0 Hb1. unfold process_reed_solomon_frame.
  destruct (rs_columns_ok (mRsDims s) P err (mFrameByteVec s) base Hd HP Herr Hring (mOutVec s) (mp4_rc s) HPl Ho)
    as (rc & evs & -> & Ha). cbn [mbind option_bind]. destruct rc.
  rewrite (inside_Some P 0 12 tt) by lia. cbn [mbind option_bind]. rewrite (check_accepts FC P Hfc).
  destruct Hring as [Hl _]. rewrite zlen_received in Hl by done. rewrite getn_Some by lia. cbn [mbind option_bind].
  eexists _, evs. by split.
Qed.

(** ** The payload *)
(** Twelve-bit numbers, with [fill] in the last half byte of an odd list. *)
Fixpoint pack12 (fill : Z) (l : list Z) : list Z :=
  match l with
  | a :: b :: l => [a / 16; a mod 16 * 16 + b / 256; b mod 256] ++ pack12 fill l
  | [a] => [a / 16; a mod 16 * 16 + fill]
  | [] => []
  end.

Record super_frame := mk_sf {
  sf_fire : Z * Z;                (* fire code *)
  sf_rfa : Z; sf_dac : Z; sf_sbr : Z; sf_ch : Z; sf_ps : Z; sf_ms : Z;
  sf_fill : Z;
  sf_units : list (list Z)        (* access units without their CRC *)
}.

Definition num_aus (sf : super_frame) : Z := rd [4; 2; 6; 3] (2 * sf_dac sf + sf_sbr sf).
Definition header_bytes (sf : super_frame) : Z := rd [8; 5; 11; 6] (2 * sf_dac sf + sf_sbr sf).

(** The CRC by its polynomial x^16 + x^12 + x^5 + 1, complemented. *)
Definition unit_crc (u : list Z) : list Z := let r := crc_run 0x1021 0xffff (msg_bools u (zlen u)) in [255 - r / 256; 255 - r mod 256].
Definition unit_bytes (u : list Z) : list Z := u ++ unit_crc u.

(** Where the units start, from [off] on, and where the last one ends. *)
Fixpoint unit_starts (off : Z) (units : list (list Z)) : list Z :=
  match units with [] => [off] | u :: us => off :: unit_starts (off + zlen u + 2) us end.

Definition sf_starts (sf : super_frame) : list Z := unit_starts (header_bytes sf) (sf_units sf).

(** The starts between the first and the end. *)
Definition sf_table (sf : super_frame) : list Z := removelast (tail (sf_starts sf)).

Definition sf_flags (sf : super_frame) : Z :=
  sf_rfa sf * 128 + sf_dac sf * 64 + sf_sbr sf * 32 + sf_ch sf * 16 + sf_ps sf * 8 + sf_ms sf.

Definition payload (sf : super_frame) : list Z :=
  [fst (sf_fire sf); snd (sf_fire sf); sf_flags sf] ++ pack12 (sf_fill sf) (sf_table sf) ++ concat (map unit_bytes (sf_units sf)).

Lemma unit_crc_calc u : Forall is_byte u -> unit_crc u = [Z.shiftr (calc_crc u (zlen u)) 8; u8 (calc_crc u (zlen u))].
Proof.
  intros Hu. unfold unit_crc, calc_crc. cbv zeta. rewrite calc_crc_loop_run by (done || (pose proof (zlen_nonneg u); lia)).
  set (r := crc_run _ _ _). assert (is_reg r) as Hr by (apply crc_loop_reg; [done|pose proof (zlen_nonneg u); lia]). unfold is_reg in Hr. change (2 ^ 16) with 65536 in Hr.
  rewrite u16_lnot by done. rewrite Z.shiftr_div_pow2 by lia. unfold uwrap. change (2 ^ 8) with 256. f_equal; [|f_equal]; Z.to_euclidean_division_equations; lia.
Qed.

(** A unit may start with a data stream element, which then lies inside, has the
    two bytes of the F-PAD and needs no second byte for its length. *)
Definition unit_ok (u : list Z) : Prop :=
  Forall is_byte u /\ 1 <= zlen u <= 960 /\
  (Z.land (Z.shiftr (rd u 0) 5) 7 = 4 -> 2 <= zlen u /\ 2 <= rd u 1 < 255 /\ rd u 1 + 2 <= zlen u).

Record sf_ok (dims : Z) (sf : super_frame) : Prop := {
  sfo_fire : is_byte (fst (sf_fire sf)) /\ is_byte (snd (sf_fire sf)) /\ fire_right (payload sf) = true;
  sfo_bits : is_bit (sf_rfa sf) /\ is_bit (sf_dac sf) /\ is_bit (sf_sbr sf) /\ is_bit (sf_ch sf) /\ is_bit (sf_ps sf) /\ 0 <= sf_ms sf < 8;
  sfo_fill : 0 <= sf_fill sf < 16;
  sfo_units : Forall unit_ok (sf_units sf);
  sfo_number : zlen (sf_units sf) = num_aus sf;
  sfo_size : zlen (payload sf) = dims * 110;
  sfo_table : Forall (fun a => a < 4096) (sf_table sf)
}.

Lemma zlen_unit_bytes u : zlen (unit_bytes u) = zlen u + 2.
Proof. unfold unit_bytes. by rewrite zlen_app. Qed.

Lemma flags_bits r d s c p m :
  is_bit r -> is_bit d -> is_bit s -> is_bit c -> is_bit p -> 0 <= m < 8 ->
  let b := r * 128 + d * 64 + s * 32 + c * 16 + p * 8 + m in
  is_byte b /\ Z.land (Z.shiftr b 6) 1 = d /\ Z.land (Z.shiftr b 5) 1 = s /\ Z.land (Z.shiftr b 4) 1 = c /\ Z.land (Z.shiftr b 3) 1 = p /\
  Z.land b 7 = m.
Proof.
  unfold is_bit, is_byte. intros. assert (r = 0 \/ r = 1) as [-> | ->] by lia; assert (d = 0 \/ d = 1) as [-> | ->] by lia;
  assert (s = 0 \/ s = 1) as [-> | ->] by lia; assert (c = 0 \/ c = 1) as [-> | ->] by lia; assert (p = 0 \/ p = 1) as [-> | ->] by lia;
  assert (m = 0 \/ m = 1 \/ m = 2 \/ m = 3 \/ m = 4 \/ m = 5 \/ m = 6 \/ m = 7) as Hm by lia;
  (destruct Hm as [->|[->|[->|[->|[->|[->|[->| ->]]]]]]]; vm_compute; repeat split; congruence).
Qed.

(** The parameters the header announces. *)
Definition sf_parms (sf : super_frame) : SStreamParms :=
  mk_sp (sf_dac sf) (sf_sbr sf) (sf_ps sf) (sf_ch sf) (sf_ms sf) (if sf_ch sf =? 0 then 1 else 2)
    (rd [5; 8; 3; 6] (2 * sf_dac sf + sf_sbr sf)) (if sf_dac sf =? 0 then 5 else 3).

Lemma payload_flags sf : rd (payload sf) 2 = sf_flags sf.
Proof. done. Qed.

Lemma payload_parameters dims sf : sf_ok dims sf -> stream_parameters (payload sf) = sf_parms sf.
Proof.
  intros [_ (Hr & Hd & Hs & Hc & Hp & Hm) _ _ _ _ _].
  destruct (flags_bits _ _ _ _ _ _ Hr Hd Hs Hc Hp Hm) as (_ & E6 & E5 & E4 & E3 & E0).
  unfold stream_parameters, sf_parms. rewrite payload_flags. unfold sf_flags. rewrite E6, E5, E4, E3, E0.
  unfold is_bit in *. assert (sf_dac sf = 0 \/ sf_dac sf = 1) as [-> | ->] by lia; assert (sf_sbr sf = 0 \/ sf_sbr sf = 1) as [-> | ->] by lia;
    assert (sf_ch sf = 0 \/ sf_ch sf = 1) as [-> | ->] by lia; reflexivity.
Qed.

Lemma hi12 a r : 0 <= r < 16 -> a / 16 * 16 + Z.shiftr (a mod 16 * 16 + r) 4 = a.
Proof.
  intros Hr. rewrite Z.shiftr_div_pow2 by lia. change (2 ^ 4) with 16. rewrite Z.div_add_l, (Z.div_small r) by lia.
  pose proof (Z.div_mod a 16). lia.
Qed.

Lemma lo12 x b : 0 <= b < 4096 -> Z.land (x * 16 + b / 256) 0xf * 256 + b mod 256 = b.
Proof.
  intros Hb. change 0xf with (Z.ones 4). rewrite Z.land_ones by lia. change (2 ^ 4) with 16.
  assert (0 <= b / 256 < 16) by (split; [apply Z.div_pos; lia|apply Z.div_lt_upper_bound; lia]).
  rewrite (Z.add_comm (x * 16)), Z.mod_add, Z.mod_small by lia. pose proof (Z.div_mod b 256). lia.
Qed.

Lemma div256_range b : 0 <= b < 4096 -> 0 <= b / 256 < 16.
Proof. intros. split; [apply Z.div_pos; lia|apply Z.div_lt_upper_bound; lia]. Qed.

(** The table of the header, by the number of units it stands for. *)
Lemma table_1 f0 f1 fl fill a rest :
  0 <= fill < 16 ->
  au_hi ([f0; f1; fl] ++ pack12 fill [a] ++ rest) 3 = a.
Proof. intros. by apply hi12. Qed.

Lemma table_hi3 f0 f1 fl fill a b l rest :
  0 <= b < 4096 -> au_hi ([f0; f1; fl] ++ pack12 fill (a :: b :: l) ++ rest) 3 = a.
Proof. intros. by apply hi12, div256_range. Qed.

Lemma table_lo4 f0 f1 fl fill a b l rest :
  0 <= b < 4096 -> au_lo ([f0; f1; fl] ++ pack12 fill (a :: b :: l) ++ rest) 4 = b.
Proof. intros. by apply lo12. Qed.

(** The entries behind a pair are those of the rest of the table. *)
Lemma table_hi6 f0 f1 fl fill x y l rest :
  au_hi ([f0; f1; fl] ++ pack12 fill (x :: y :: l) ++ rest) 6 = au_hi ([f0; f1; fl] ++ pack12 fill l ++ rest) 3.
Proof. done. Qed.

Lemma table_lo7 f0 f1 fl fill x y l rest :
  au_lo ([f0; f1; fl] ++ pack12 fill (x :: y :: l) ++ rest) 7 = au_lo ([f0; f1; fl] ++ pack12 fill l ++ rest) 4.
Proof. done. Qed.

Lemma table_hi9 f0 f1 fl fill x y l rest :
  au_hi ([f0; f1; fl] ++ pack12 fill (x :: y :: l) ++ rest) 9 = au_hi ([f0; f1; fl] ++ pack12 fill l ++ rest) 6.
Proof. done. Qed.

Lemma i16_start a : 0 <= a < 6000 -> i16 a = a.
Proof. intros. apply i16_small. lia. Qed.

Lemma payload_starts dims sf :
  0 < dims <= 48 -> sf_ok dims sf -> mAuStartArr (sf_parms sf) (8 * dims) (payload sf) = sf_starts sf.
Proof.
  intros Hdims [_ (_ & Hd & Hs & _) Hf _ Hn Hz Ht]. unfold mAuStartArr, sf_starts in *.
  replace (Z.quot (8 * dims) 8) with dims by (rewrite Z.mul_comm, Z.quot_mul; lia).
  unfold payload, sf_table, sf_starts, num_aus, header_bytes in *. destruct sf as [[f0 f1] rfa dac sbr ch ps ms fill us].
  cbn [sf_dac sf_sbr sf_units sf_parms dacRate sbrFlag sf_fire fst snd sf_fill] in *. unfold is_bit in Hd, Hs.
  assert (dac = 0 \/ dac = 1) as [-> | ->] by lia; assert (sbr = 0 \/ sbr = 1) as [-> | ->] by lia.
  all: repeat match goal with |- context[2 * ?a + ?b =? ?c] =>
         let v := eval vm_compute in (2 * a + b =? c) in change (2 * a + b =? c) with v end; cbv iota.
  all: match type of Hn with _ = rd ?l ?i => let v := eval vm_compute in (rd l i) in change (rd l i) with v in Hn end.
  all: match goal with |- context[unit_starts (rd ?l ?i)] => let v := eval vm_compute in (rd l i) in change (rd l i) with v in * end.
  all: repeat (destruct us as [|? us]; [exfalso; revert Hn; clear; unfold zlen; cbn; lia|]).
  all: destruct us; [|exfalso; revert Hn; clear; unfold zlen; cbn; lia].
  all: cbn [unit_starts list.tail removelast] in *; repeat match goal with H : Forall _ (_ :: _) |- _ => apply Forall_cons_1 in H as [? ?] end.
  all: match goal with |- context[sf_flags ?x] => generalize (sf_flags x) as fl end.
  all: intros; cbn [map concat] in *; rewrite ?app_nil_r, !zlen_app, !zlen_unit_bytes in Hz; cbn [pack12 app] in Hz; rewrite ?zlen_cons in Hz.
  all: change (zlen (@nil Z)) with 0 in Hz; repeat match goal with l : list Z |- _ => lazymatch goal with H : 0 <= zlen l |- _ => fail | _ => pose proof (zlen_nonneg l) end end.
  all: rewrite ?table_hi9, ?table_lo7, ?table_hi6, ?table_hi3, ?table_lo4, ?table_1 by lia.
  all: rewrite !i16_start by lia; repeat (apply (f_equal2 cons); [lia|]); reflexivity.
Qed.

(** The payload consists of bytes. *)
Lemma pack12_bytes fill l : 0 <= fill < 16 -> Forall (fun a => 0 <= a < 4096) l -> Forall is_byte (pack12 fill l).
Proof.
  intros Hf. assert (forall a, 0 <= a < 4096 -> is_byte (a / 16)) as Hd.
  { intros a Ha. split; [apply Z.div_pos; lia|apply Z.div_lt_upper_bound; lia]. }
  assert (forall a r, 0 <= r < 16 -> is_byte (a mod 16 * 16 + r)) as Hm.
  { intros a r Hr. pose proof (Z.mod_pos_bound a 16). unfold is_byte. lia. }
  revert l. fix IH 1. intros [|a [|b l]] Hl; cbn [pack12 app]; [constructor|..]; apply Forall_cons_1 in Hl as [Ha Hl].
  - constructor; [by apply Hd|]. constructor; [by apply Hm|constructor].
  - apply Forall_cons_1 in Hl as [Hb Hl]. constructor; [by apply Hd|]. constructor; [by apply Hm, div256_range|].
    constructor; [apply (uwrap_range 8); lia|by apply IH].
Qed.

Lemma zlen_pack12 fill l : zlen (pack12 fill l) = (3 * zlen l + 1) / 2.
Proof.
  revert l. fix IH 1. intros [|a [|b l]]; [done|done|]. cbn [pack12]. rewrite zlen_app, IH, !zlen_cons.
  change (zlen (@nil Z)) with 0. replace (3 * (1 + (1 + zlen l)) + 1) with (3 * zlen l + 1 + 3 * 2) by lia. rewrite Z.div_add; lia.
Qed.

Lemma zlen_unit_starts off us : zlen (unit_starts off us) = zlen us + 1.
Proof. revert off. induction us as [|u us IH]; intros off; [done|]. cbn [unit_starts]. rewrite !zlen_cons, IH. lia. Qed.

Lemma unit_starts_pos off us : 0 <= off -> Forall (fun a => 0 <= a) (unit_starts off us).
Proof.
  revert off. induction us as [|u us IH]; intros off Ho; cbn [unit_starts]; [by repeat constructor|].
  pose proof (zlen_nonneg u). constructor; [done|]. apply IH. lia.
Qed.

Lemma Forall_removelast {A} (Q : A -> Prop) l : Forall Q l -> Forall Q (removelast l).
Proof. induction 1 as [|x l Hx Hl IH]; [constructor|]. cbn. destruct l; [constructor|]. by constructor. Qed.

Lemma zlen_removelast {A} (l : list A) : 0 < zlen l -> zlen (removelast l) = zlen l - 1.
Proof.
  induction l as [|x l IH]; [done|]. intros _. cbn [removelast]. destruct l; [done|]. rewrite zlen_cons, IH, (zlen_cons x); [lia|].
  rewrite zlen_cons. pose proof (zlen_nonneg l). lia.
Qed.

Definition payload_head (sf : super_frame) : list Z :=
  [fst (sf_fire sf); snd (sf_fire sf); sf_flags sf] ++ pack12 (sf_fill sf) (sf_table sf).

Lemma zlen_payload_head dims sf : sf_ok dims sf -> zlen (payload_head sf) = header_bytes sf.
Proof.
  intros [_ (_ & Hd & Hs & _) _ _ Hn _ _]. unfold payload_head. rewrite zlen_app, zlen_pack12. unfold sf_table.
  assert (zlen (sf_starts sf) = num_aus sf + 1) as Hl by (unfold sf_starts; rewrite zlen_unit_starts; lia).
  assert (exists x l, sf_starts sf = x :: l) as (x & l & E) by (unfold sf_starts; destruct (sf_units sf); eauto).
  rewrite E in *. rewrite zlen_cons in Hl. cbn [list.tail]. rewrite !zlen_cons. change (zlen (@nil Z)) with 0.
  unfold is_bit, num_aus, header_bytes in *.
  assert (sf_dac sf = 0 \/ sf_dac sf = 1) as [Ed|Ed] by lia; assert (sf_sbr sf = 0 \/ sf_sbr sf = 1) as [Es|Es] by lia; rewrite Ed, Es in *.
  all: match type of Hl with _ = rd ?t ?i + 1 => let v := eval vm_compute in (rd t i) in change (rd t i) with v in Hl end.
  all: rewrite zlen_removelast by lia; replace (zlen l) with (1 + zlen l - 1) by lia; rewrite Hl; reflexivity.
Qed.

Lemma payload_bytes dims sf : sf_ok dims sf -> Forall is_byte (payload sf).
Proof.
  intros [(Hf0 & Hf1 & _) (Hr & Hd & Hs & Hc & Hp & Hm) Hf Hu _ _ Ht].
  destruct (flags_bits _ _ _ _ _ _ Hr Hd Hs Hc Hp Hm) as (Hfl & _). unfold payload.
  apply Forall_app; split; [do 3 (constructor; [done|]); constructor|]. apply Forall_app; split.
  - apply pack12_bytes; [done|]. assert (Forall (fun a => 0 <= a) (sf_table sf)) as Hpos.
    { unfold sf_table. apply Forall_removelast. assert (0 <= header_bytes sf) as Hh.
      { unfold header_bytes. apply rd_Forall; [lia|repeat constructor; lia]. }
      pose proof (unit_starts_pos (header_bytes sf) (sf_units sf) Hh) as Hst. fold (sf_starts sf) in Hst. by destruct Hst. }
    by apply Forall_and.
  - apply Forall_concat, Forall_map. eapply Forall_impl; [|exact Hu]. intros u (Hb & _). unfold unit_bytes. rewrite unit_crc_calc by done.
    assert (0 <= calc_crc u (zlen u) < 65536) as Hcr by (apply (uwrap_range 16); lia).
    apply Forall_app; split; [done|]. constructor; [|constructor; [apply (uwrap_range 8); lia|constructor]].
    rewrite Z.shiftr_div_pow2 by lia. split; [apply Z.div_pos; lia|apply Z.div_lt_upper_bound; lia].
Qed.

(** ** Access units *)
Lemma getn_prefix u rest off n : 0 <= off -> 0 <= n -> off + n <= zlen u -> getn (u ++ rest) off n = getn u off n.
Proof.
  intros H0 H1 H2. pose proof (zlen_nonneg rest). rewrite !getn_Some by (rewrite ?zlen_app; lia). f_equal.
  unfold slice. rewrite drop_app_le, take_app_le; [done|rewrite length_drop|]; unfold zlen in *; lia.
Qed.

Lemma build_aac_stream_prefix sp u rest : build_aac_stream (zlen u) sp (u ++ rest) = build_aac_stream (zlen u) sp u.
Proof.
  assert (forall w, AddBytes (u ++ rest) (zlen u) w = AddBytes u (zlen u) w) as E.
  { intros w. unfold AddBytes, zforM. apply zfor_ext. intros i s Hi. by rewrite rd_app_l by lia. }
  unfold build_aac_stream. destruct (AddFields _ _) as [w|]; cbn [mbind option_bind]; [|done].
  destruct (PayloadLengthInfo _ _) as [w1|]; cbn [mbind option_bind]; [|done]. by rewrite E.
Qed.

Lemma au_pad_prefix u rest pad : unit_ok u -> au_pad (u ++ rest) pad = au_pad u pad.
Proof.
  intros (Hb & Hl & Hp). unfold au_pad. rewrite (get_app_l u rest 0), (get_Some u 0) by lia. cbn [mbind option_bind]. case_match eqn:E; [|done].
  apply Z.eqb_eq in E. destruct (Hp E) as (H2 & Hc & Hin). rewrite (get_app_l u rest 1), (get_Some u 1) by lia. cbn [mbind option_bind].
  by rewrite getn_prefix by lia.
Qed.

Section units.
Context {D : Type} `{AacDecoder D}.
Context (with_fdk cd : bool) (sp : SStreamParms).

Lemma good_au_prefix u rest pad (dec : D) :
  unit_ok u -> good_au with_fdk sp (u ++ rest) (zlen u) pad dec = good_au with_fdk sp u (zlen u) pad dec.
Proof.
  intros Hu. unfold good_au. rewrite build_aac_stream_prefix, au_pad_prefix by done. unfold au_audio.
  pose proof (zlen_nonneg u). by rewrite getn_prefix by lia.
Qed.

(** What an access unit is to the sinks.  The PAD is in its first element when
    that is a data stream element: the F-PAD in the last two bytes, X-PAD in front of
    them. *)
Definition unit_pad (u : list Z) (pad : PadHandler) : option (PadHandler * list pad_event) :=
  if rd u 0 / 32 =? 4 then
    let x := slice u 2 (rd u 1) in process_PAD x (zlen x - 3) (rd x (zlen x - 2)) (rd x (zlen x - 1)) pad
  else Some (pad, []).

(** The bytes for the decoder and their number: the LATM element for that of the FDK,
    the unit itself, with ten zeros behind it, for the other. *)
Definition unit_input (u : list Z) : list Z * Z :=
  if with_fdk then (latm_element sp u, zlen (latm_element sp u)) else (u ++ zeros 10, zlen u).

(** The dump gets the LATM element, the decoder the unit with the parameters of the
    stream; the last component is its answer. *)
Definition unit_delivered (u : list Z) (pad : PadHandler) (dec : D) : option (PadHandler * D * list mp4_event * Z) :=
  '(pad, pe) ← unit_pad u pad;
  let '(dec, answer) := convert_mp4_to_pcm sp (fst (unit_input u)) (snd (unit_input u)) dec in
  Some (pad, dec, [put_data_into_ring_buffer (latm_element sp u); signal_new_aac_frame] ++ map mp4_pad_event pe ++
    [signal_is_stereo ((aacChannelMode sp =? 1) || (psFlag sp =? 1))], answer).

(** What the sinks get of a list of access units.  A decoder that fails may have to
    fill in a lost frame: 960 samples, twice as many with SBR, in two channels. *)
Fixpoint deliver_units (units : list (list Z)) (pad : PadHandler) (dec : D) : option (PadHandler * D * list mp4_event) :=
  match units with
  | [] => Some (pad, dec, [])
  | u :: us =>
      g ← unit_delivered u pad dec;
      let '(pad, dec, evs, answer) := g in
      let dec := if (answer <=? 0) && cd then conceal_lost_frame (if sbrFlag sp =? 0 then 1920 else 3840) dec else dec in
      q ← deliver_units us pad dec;
      let '(pad, dec, evs') := q in Some (pad, dec, evs ++ evs')
  end.

Lemma au_pad_unit u pad : unit_ok u -> au_pad u pad = unit_pad u pad.
Proof.
  intros (Hb & Hl & Hp). unfold au_pad, unit_pad. rewrite (get_Some u 0) by lia. cbn [mbind option_bind].
  assert (is_byte (rd u 0)) as H0b by (apply rd_Forall; [apply is_byte_0|done]). unfold is_byte in H0b.
  assert (Z.land (Z.shiftr (rd u 0) 5) 7 = rd u 0 / 32) as E.
  { change 7 with (Z.ones 3). rewrite Z.land_ones, Z.shiftr_div_pow2 by lia. change (2 ^ 5) with 32. change (2 ^ 3) with 8. apply Z.mod_small. Z.to_euclidean_division_equations; lia. }
  rewrite E in *. destruct (Z.eqb_spec (rd u 0 / 32) 4) as [E4|]; [|done]. destruct (Hp E4) as (H2 & Hc & Hin). rewrite (get_Some u 1) by lia. cbn [mbind option_bind]. rewrite (getn_Some u 2) by lia. cbn [mbind option_bind].
  assert (zlen (slice u 2 (rd u 1)) = rd u 1) as Hx by (apply zlen_slice; lia). rewrite (get_Some _ (rd u 1 - 1)) by lia. cbn [mbind option_bind]. rewrite (get_Some _ (rd u 1 - 2)), Hx by lia. cbn [mbind option_bind]. by rewrite i16_small by lia.
Qed.

Lemma good_au_unit u pad (dec : D) : unit_ok u -> good_au with_fdk sp u (zlen u) pad dec = unit_delivered u pad dec.
Proof.
  intros Hu. pose proof Hu as (Hb & Hl & _). unfold good_au, unit_delivered. rewrite build_aac_element, au_pad_unit by (done || lia). cbn [mbind option_bind].
  destruct (unit_pad u pad) as [[pad1 pe]|]; cbn [mbind option_bind fst snd]; [|done]. unfold au_audio, unit_input. destruct with_fdk; [done|].
  rewrite getn_Some by lia. assert (slice u 0 (zlen u) = u) as -> by (unfold slice, zlen; change (Z.to_nat 0) with 0%nat; by rewrite drop_0, Nat2Z.id, firstn_all). done.
Qed.

Lemma conceal_unit answer (dec : D) :
  (if answer <=? 0 then conceal cd sp dec else dec) = (if (answer <=? 0) && cd then conceal_lost_frame (if sbrFlag sp =? 0 then 1920 else 3840) dec else dec).
Proof. unfold conceal. destruct (answer <=? 0), cd; try done. by destruct (sbrFlag sp =? 0). Qed.

Lemma good_au_audible u len pad (dec : D) p d evs e :
  good_au with_fdk sp u len pad dec = Some (p, d, evs, e) -> audible evs = evs.
Proof.
  unfold good_au. destruct (build_aac_stream _ _ _); cbn [mbind option_bind]; [|done]. destruct (au_pad _ _) as [[? pe]|]; cbn [mbind option_bind]; [|done].
  destruct (au_audio _ _ _ _); cbn [mbind option_bind fst snd]; [|done]. destruct (convert_mp4_to_pcm _ _ _ _). intros [= <- <- <- <-].
  apply audible_all. intros x [<-|[<-|Hx]]; [done|done|]. apply in_app_or in Hx as [Hx|[<-|[]]]; [|done].
  by apply in_map_iff in Hx as (y & <- & _).
Qed.

Lemma success_tick_eq (s : Mp4Processor (D := D)) :
  exists fc rc, fst (success_tick s) = set_fc fc (set_out (mOutVec s) rc s) /\ audible (snd (success_tick s)) = [].
Proof.
  unfold success_tick. destruct (mp4_fc s) as [n e g c se], (mp4_rc s) eqn:E. case_match; [by eexists _, _|].
  exists (mk_fc n e (i16 (g + 1)) c se), (mp4_rc s). split; [|done]. by destruct s.
Qed.

Lemma frame_tick_eq (s : Mp4Processor (D := D)) : exists fc, fst (frame_tick s) = set_fc fc s /\ audible (snd (frame_tick s)) = [].
Proof. unfold frame_tick. destruct (mp4_fc s). case_match; eexists; by split. Qed.

Lemma au_tick_eq (s : Mp4Processor (D := D)) : exists ac, fst (au_tick s) = set_ac ac s /\ audible (snd (au_tick s)) = [].
Proof. unfold au_tick. destruct (mp4_ac s). case_match; eexists; by split. Qed.

Lemma process_au_good pre u rest a next pad' (dec' : D) evs err (s : Mp4Processor) :
  mOutVec s = pre ++ unit_bytes u ++ rest -> zlen pre = a -> next = a + zlen u + 2 -> unit_ok u ->
  good_au with_fdk sp u (zlen u) (mPadhandler s) (mpAacDecoder s) = Some (pad', dec', evs, err) ->
  exists ac ev, process_au with_fdk cd sp a next s =
    Some (set_ac ac (set_sinks pad' (if err <=? 0 then conceal cd sp dec' else dec') s), evs ++ ev) /\ audible ev = [].
Proof.
  intros Ho Ha -> Hu Hg. pose proof Hu as (Hb & Hl & _). pose proof (zlen_nonneg pre). unfold process_au.
  replace (a + zlen u + 2 - a - 2) with (zlen u) by lia.
  assert (((cAacCoreFrameBytes <? zlen u) || (zlen u <? 0)) = false) as -> by (unfold cAacCoreFrameBytes; lia).
  pose proof (zlen_nonneg rest).
  rewrite ptr_Some by (rewrite Ho, !zlen_app, zlen_unit_bytes; lia). cbn [mbind option_bind].
  assert (drop (Z.to_nat a) (mOutVec s) = unit_bytes u ++ rest) as ->.
  { rewrite Ho. apply drop_app_length'. unfold zlen in Ha. lia. }
  rewrite (inside_Some (unit_bytes u ++ rest) 0 (zlen u + 2) tt) by (rewrite ?zlen_app, ?zlen_unit_bytes; lia). cbn [mbind option_bind].
  unfold unit_bytes. rewrite <- app_assoc. rewrite unit_crc_calc by apply Hu. rewrite crc_appended by done. rewrite good_au_prefix, Hg by done.
  cbn [mbind option_bind fst snd]. unfold good_crc. destruct (mp4_ac s) as [e n c g] eqn:Eac.
  match goal with |- context[au_tick ?x] => destruct (au_tick_eq x) as (ac & Es & Hs); destruct (au_tick x) as [s1 ev] end.
  cbn [fst snd] in Es, Hs. exists ac, ev. split; [|done]. rewrite Es. do 2 f_equal. destruct s. cbn. by case_match.
Qed.

Lemma process_aus_cons a b us (s : Mp4Processor (D := D)) :
  process_aus with_fdk cd sp (a :: unit_starts b us) s =
  (r ← process_au with_fdk cd sp a b s; q ← process_aus with_fdk cd sp (unit_starts b us) (fst r); Some (fst q, snd r ++ snd q)).
Proof. by destruct us. Qed.

Lemma process_aus_units us pre off pad' (dec' : D) evs (s : Mp4Processor) :
  mOutVec s = pre ++ concat (map unit_bytes us) -> zlen pre = off -> Forall unit_ok us ->
  deliver_units us (mPadhandler s) (mpAacDecoder s) = Some (pad', dec', evs) ->
  exists ac evs', process_aus with_fdk cd sp (unit_starts off us) s = Some (set_ac ac (set_sinks pad' dec' s), evs') /\
    audible evs' = evs.
Proof.
  revert pre off evs s. induction us as [|u us IH]; intros pre off evs s Ho Hpre Hus Hd.
  { cbn in Hd. injection Hd as <- <- <-. exists (mp4_ac s), []. split; [|done]. by destruct s. }
  apply Forall_cons_1 in Hus as [Hu Hus]. cbn [deliver_units] in Hd.
  destruct (unit_delivered u _ _) as [[[[p1 d1] e1] err]|] eqn:Hg; cbn [mbind option_bind] in Hd; [|done]. rewrite <- good_au_unit in Hg by done. rewrite <- conceal_unit in Hd.
  destruct (deliver_units us _ _) as [[[p2 d2] e2]|] eqn:Hd2; cbn [mbind option_bind] in Hd; [|done]. injection Hd as <- <- <-.
  cbn [unit_starts map concat] in *.
  destruct (process_au_good pre u (concat (map unit_bytes us)) off (off + zlen u + 2) p1 d1 e1 err s Ho Hpre eq_refl Hu Hg) as (ac & ev & Ep & Hs).
  set (s1 := set_ac ac (set_sinks p1 (if err <=? 0 then conceal cd sp d1 else d1) s)) in *.
  destruct (IH (pre ++ unit_bytes u) (off + zlen u + 2) e2 s1) as (ac2 & ev2 & Eq & Hs2);
    [unfold s1; cbn; by rewrite Ho, <- app_assoc|rewrite zlen_app, zlen_unit_bytes; lia|done|done|].
  exists ac2, ((e1 ++ ev) ++ ev2). split.
  - rewrite process_aus_cons, Ep. cbn [mbind option_bind fst snd]. by rewrite Eq.
  - rewrite !audible_app, (good_au_audible u _ _ _ _ _ _ _ Hg), Hs, Hs2, app_nil_r. done.
Qed.
End units.

(** ** The ring *)
Lemma pack_byte_ok B i : Forall is_byte B -> 0 <= i < zlen B -> pack_byte (unpack_bits B) i = Some (rd B i).
Proof.
  intros HB Hi. unfold pack_byte, zforM.
  rewrite (zfor_ext _ _ _ (fun j r => r ≫= (fun temp => Some (u8 (Z.lor (Z.shiftl temp 1) (Z.land (rd (byte_bits (rd B i)) j) 1)))))).
  2: { intros j r Hj. destruct r as [t|]; [|done]. cbn [mbind option_bind]. rewrite get_Some by (rewrite zlen_unpack; lia).
       cbn [mbind option_bind]. by rewrite (Z.mul_comm i), rd_unpack by lia. }
  pose proof (rd_Forall is_byte B i is_byte_0 HB) as Hb. revert Hb. generalize (rd B i) as b. intros b Hb.
  assert (forallb (fun b => bool_decide (zfor 0 8 (fun j (r : option Z) => r ≫= (fun temp =>
    Some (u8 (Z.lor (Z.shiftl temp 1) (Z.land (rd (byte_bits b) j) 1))))) (Some 0) = Some b)) (seqZ 0 256) = true) as Hf by (vm_compute; reflexivity).
  pose proof (forall_range _ _ Hf b Hb) as E. by apply bool_decide_eq_true in E.
Qed.

Lemma store_block_ok B n f v :
  Forall is_byte B -> zlen B = n -> 0 < n -> zlen v = 5 * n -> 0 <= f < 5 ->
  exists v', store_block (unpack_bits B) n f v = Some v' /\ zlen v' = 5 * n /\
    forall i, 0 <= i < 5 * n -> rd v' i = if i / n =? f then rd B (i mod n) else rd v i.
Proof.
  intros HB Hl Hn Hv Hf. unfold store_block.
  destruct (zforM_inv (fun k w => zlen w = 5 * n /\ forall i, 0 <= i < 5 * n ->
      rd w i = if (i / n =? f) && (i mod n <? k) then rd B (i mod n) else rd v i) 0 n
    (fun i v => b ← pack_byte (unpack_bits B) i; put v (f * n + i) b) v) as (w & -> & Hw & Hr); [lia| | |].
  - split; [done|]. intros i Hi. pose proof (Z.mod_pos_bound i n Hn). assert ((i mod n <? 0) = false) as -> by lia. by rewrite andb_false_r.
  - intros k w Hk [Hw Hr]. rewrite pack_byte_ok by (done || lia). cbn [mbind option_bind]. rewrite put_Some by nia. eexists. split; [done|].
    rewrite zlen_wr. split; [done|]. intros i Hi. pose proof (Z.div_mod i n ltac:(lia)) as Edm.
    destruct (Z.eq_dec (f * n + k) i) as [<-|Hne].
    + rewrite rd_wr_eq by lia. rewrite Z.div_add_l, (Z.div_small k), (Z.add_comm (f * n)), Z.mod_add, Z.mod_small by lia.
      assert ((f + 0 =? f) && (k <? k + 1) = true) as -> by lia. done.
    + rewrite rd_wr_ne, Hr by done. destruct (Z.eqb_spec (i / n) f) as [Ef|]; [|done]. cbn [andb].
      assert (i mod n <> k) by nia. assert ((i mod n <? k + 1) = (i mod n <? k)) as -> by lia. done.
  - exists w. split_and!; [done|done|]. intros i Hi. rewrite Hr by done. pose proof (Z.mod_pos_bound i n Hn).
    assert ((i mod n <? n) = true) as -> by lia. by rewrite andb_true_r.
Qed.

(** [k] frames of [F] are in the ring from place [f0] on. *)
Record ring_part {D} (f0 n : Z) (F : list Z) (k : Z) (s : Mp4Processor (D := D)) : Prop := {
  rp_fill : mBlockFillIndex s = (f0 + k) mod 5;
  rp_blocks : mBlocksInBuffer s = k;
  rp_size : zlen (mFrameByteVec s) = 5 * n;
  rp_held : forall b i, 0 <= b < k -> 0 <= i < n -> rd (mFrameByteVec s) ((f0 + b) mod 5 * n + i) = rd F (b * n + i)
}.

Lemma mod5_inj f b k : 0 <= b < 5 -> 0 <= k < 5 -> (f + b) mod 5 = (f + k) mod 5 -> b = k.
Proof. intros. pose proof (Z.div_mod (f + b) 5). pose proof (Z.div_mod (f + k) 5). lia. Qed.

Lemma ring_part_store {D} f0 n F k (s : Mp4Processor (D := D)) :
  0 < n -> 0 <= f0 < 5 -> 0 <= k < 5 -> Forall is_byte F -> zlen F = 5 * n -> ring_part f0 n F k s ->
  exists v, store_block (unpack_bits (slice F (k * n) n)) n (mBlockFillIndex s) (mFrameByteVec s) = Some v /\
    ring_part f0 n F (k + 1) (count_block (set_frame_bytes v s)).
Proof.
  intros Hn Hf0 Hk HF HFl [Hfi Hbl Hsz Hh]. pose proof (Z.mod_pos_bound (f0 + k) 5 ltac:(lia)) as Hfr.
  destruct (store_block_ok (slice F (k * n) n) n (mBlockFillIndex s) (mFrameByteVec s)) as (v & -> & Hv & Hr);
    [by apply Forall_slice|rewrite zlen_slice; nia|done|done|lia|].
  exists v. split; [done|]. unfold count_block. cbn [mp4_fc set_frame_bytes]. destruct (mp4_fc s).
  split; cbn [mBlockFillIndex mBlocksInBuffer mFrameByteVec set_fc set_ring set_frame_bytes].
  - rewrite Hfi, Zplus_mod_idemp_l. f_equal. lia.
  - rewrite Hbl, i16_small; lia.
  - done.
  - intros b i Hb Hi. pose proof (Z.mod_pos_bound (f0 + b) 5 ltac:(lia)). rewrite Hr by nia.
    rewrite Z.div_add_l, (Z.div_small i), (Z.add_comm ((f0 + b) mod 5 * n)), Z.mod_add, (Z.mod_small i n), Z.add_0_r by lia. rewrite Hfi.
    destruct (Z.eqb_spec ((f0 + b) mod 5) ((f0 + k) mod 5)) as [E|Hne].
    + assert (b = k) as -> by (apply (mod5_inj f0); lia). rewrite rd_slice by nia. done.
    + rewrite (Z.add_comm i). apply Hh; [|done]. assert (b <> k) by congruence. lia.
Qed.

Lemma ring_part_full {D} f0 n F (s : Mp4Processor (D := D)) :
  0 < n -> 0 <= f0 < 5 -> zlen F = 5 * n -> ring_part f0 n F 5 s -> ring_holds (mFrameByteVec s) (f0 * n) F.
Proof.
  intros Hn Hf HF [_ _ Hsz Hh]. split; [lia|]. rewrite HF. intros i Hi.
  pose proof (Z.div_mod i n ltac:(lia)) as E. pose proof (Z.mod_pos_bound i n Hn).
  assert (0 <= i / n < 5) by (split; [apply Z.div_pos; lia|apply Z.div_lt_upper_bound; lia]).
  assert ((f0 * n + i) mod (5 * n) = (f0 + i / n) mod 5 * n + i mod n) as ->.
  { pose proof (Z.div_mod (f0 + i / n) 5 ltac:(lia)). pose proof (Z.mod_pos_bound (f0 + i / n) 5 ltac:(lia)).
    symmetry. apply (Z.mod_unique_pos _ _ ((f0 + i / n) / 5)); nia. }
  rewrite Hh by lia. f_equal. lia.
Qed.

Lemma rd_drop l k i : 0 <= k -> 0 <= i -> rd (drop (Z.to_nat k) l) i = rd l (k + i).
Proof.
  intros Hk Hi. rewrite !rd_nth, !nth_lookup, lookup_drop by lia. do 2 f_equal. lia.
Qed.

Lemma check_ext f x y : (forall i, 0 <= i < 11 -> rd x i = rd y i) -> check f x = check f y.
Proof.
  intros E. unfold check, crc16. f_equal.
  assert (forall lo hi c, 0 <= lo -> hi <= 11 -> zfor lo hi (fire_crc_step (crc_table f) x) c = zfor lo hi (fire_crc_step (crc_table f) y) c) as Ez.
  { intros lo hi c Hlo Hhi. apply zfor_ext. intros i s Hi. unfold fire_crc_step. by rewrite E by lia. }
  by rewrite !Ez by lia.
Qed.

(** ** A super frame on air *)
Section air.
Context {D : Type} `{AacDecoder D}.
Context (with_fdk cd : bool) (dims : Z) (Hdims : 0 < dims <= 48).

Record mp4_ok (s : Mp4Processor (D := D)) : Prop := {
  mok_rate : mp4_BitRate s = 8 * dims;
  mok_frame : zlen (mFrameByteVec s) = dims * 120;
  mok_out : zlen (mOutVec s) = dims * 110;
  mok_fill : 0 <= mBlockFillIndex s < 5
}.

Fixpoint feed_frames (frames : list (list Z)) (s : Mp4Processor (D := D)) : option (Mp4Processor (D := D) * list mp4_event) :=
  match frames with
  | [] => Some (s, [])
  | f :: fs => r ← mp4_add_to_frame with_fdk cd f s; q ← feed_frames fs (fst r); Some (fst q, snd r ++ snd q)
  end.

(** The five frames of a super frame, as bits. *)
Definition air_frames (F : list Z) : list (list Z) :=
  map (fun b => unpack_bits (slice F (b * (24 * dims)) (24 * dims))) (seqZ 0 5).

Lemma num_bytes (s : Mp4Processor (D := D)) : mp4_ok s -> i16 (Z.quot (i16 (24 * mp4_BitRate s)) 8) = 24 * dims.
Proof.
  intros [-> _ _ _]. rewrite (i16_small (24 * (8 * dims))) by lia. replace (24 * (8 * dims)) with (24 * dims * 8) by lia.
  rewrite Z.quot_mul by lia. apply i16_small. lia.
Qed.

Lemma dims_of (s : Mp4Processor (D := D)) : mp4_ok s -> mRsDims s = dims.
Proof. intros [E _ _ _]. unfold mRsDims. rewrite E, Z.mul_comm, Z.quot_mul by lia. apply i16_small. lia. Qed.

(** The state between the frames of a super frame. *)
Record collecting (F : list Z) (s0 : Mp4Processor (D := D)) (k : Z) (s : Mp4Processor (D := D)) : Prop := {
  col_ok : mp4_ok s;
  col_ring : ring_part (mBlockFillIndex s0) (24 * dims) F k s;
  col_pad : mPadhandler s = mPadhandler s0;
  col_dec : mpAacDecoder s = mpAacDecoder s0;
  col_sync : mSuperFrameSync s = mSuperFrameSync s0
}.

(** Frame [k] is stored. *)
Lemma frame_stored F s0 k s :
  mp4_ok s0 -> Forall is_byte F -> zlen F = dims * 120 -> 0 <= k < 5 -> collecting F s0 k s ->
  exists v, store_block (unpack_bits (slice F (k * (24 * dims)) (24 * dims))) (24 * dims) (mBlockFillIndex s) (mFrameByteVec s) = Some v /\
    collecting F s0 (k + 1) (count_block (set_frame_bytes v s)).
Proof.
  intros [_ _ _ Hf0] HF HFl Hk [Hok Hr Hp Hd Hs].
  destruct (ring_part_store (mBlockFillIndex s0) (24 * dims) F k s) as (v & E & Hr'); [lia|done|done|done|lia|done|].
  exists v. split; [done|]. destruct Hok as [O1 O2 O3 O4]. pose proof (rp_size _ _ _ _ _ Hr') as Hsz.
  unfold count_block in *. cbn [mp4_fc set_frame_bytes] in *. destruct (mp4_fc s).
  cbn [mFrameByteVec set_fc set_ring set_frame_bytes] in Hsz. split; [|done..].
  split; cbn [mp4_BitRate mFrameByteVec mOutVec mBlockFillIndex set_fc set_ring set_frame_bytes]; try lia; try done.
  apply Z.mod_pos_bound. lia.
Qed.

Lemma frame_collected F s0 k s :
  mp4_ok s0 -> Forall is_byte F -> zlen F = dims * 120 -> 0 <= k < 4 -> collecting F s0 k s ->
  exists s', mp4_add_to_frame with_fdk cd (unpack_bits (slice F (k * (24 * dims)) (24 * dims))) s = Some (s', []) /\ collecting F s0 (k + 1) s'.
Proof.
  intros H0 HF HFl Hk Hc. destruct (frame_stored F s0 k s H0 HF HFl ltac:(lia) Hc) as (v & E & Hc').
  unfold mp4_add_to_frame. rewrite num_bytes by apply Hc. rewrite E. cbn [mbind option_bind].
  rewrite (rp_blocks _ _ _ _ _ (col_ring _ _ _ _ Hc')). assert ((5 <=? k + 1) = false) as -> by lia. eexists. by split.
Qed.

(** A full ring that holds the super frame from its oldest block on. *)
Lemma full_ring_decodes sf err pad' dec' evs (s : Mp4Processor (D := D)) :
  sf_ok dims sf -> (forall j, damage_ok (err j)) -> mp4_ok s -> mSuperFrameSync s <> 0 ->
  ring_holds (mFrameByteVec s) (mBlockFillIndex s * (24 * dims)) (received dims (payload sf) err) ->
  deliver_units with_fdk cd (sf_parms sf) (sf_units sf) (mPadhandler s) (mpAacDecoder s) = Some (pad', dec', evs) ->
  exists s' evs', full_ring with_fdk cd (24 * dims) s = Some (s', evs') /\ audible evs' = evs /\ mp4_ok s' /\
    mPadhandler s' = pad' /\ mpAacDecoder s' = dec' /\ mBlocksInBuffer s' = 0 /\ mSuperFrameSync s' = 4 /\
    mBlockFillIndex s' = mBlockFillIndex s /\ mOutVec s' = payload sf.
Proof.
  intros Hsf Herr Hok Hs0 Hring Hdel. unfold full_ring. apply Z.eqb_neq in Hs0. rewrite Hs0.
  pose proof (dims_of s Hok) as Hdm. pose proof Hok as [Hrate Hfr Hout Hfill].
  rewrite (i16_small (_ * _)) by nia. set (base := mBlockFillIndex s * (24 * dims)) in *.
  set (s1 := set_ring (mBlockFillIndex s) 0 (mSuperFrameSync s) s). unfold process_super_frame.
  destruct (reed_solomon_recovers (payload sf) err base s1) as (rc & e1 & -> & He1).
  all: change (mRsDims s1) with (mRsDims s); rewrite ?Hdm; try done; try lia; try (unfold base; nia).
  { by apply (payload_bytes dims). } { apply Hsf. } { rewrite check_fire_right by (by apply (payload_bytes dims)). apply Hsf. }
  cbn [mbind option_bind negb]. set (s2 := set_out (payload sf) rc s1). change (mOutVec s2) with (payload sf).
  change (mp4_BitRate s2) with (mp4_BitRate s). rewrite Hrate, (payload_parameters dims sf Hsf), (payload_starts dims sf Hdims Hsf).
  destruct (process_aus_units with_fdk cd (sf_parms sf) (sf_units sf) (payload_head sf) (header_bytes sf) pad' dec' evs s2)
    as (ac & e2 & E2 & He2);
    [unfold s2, payload, payload_head; cbn [mOutVec set_out]; by rewrite <- app_assoc|by apply (zlen_payload_head dims)|apply Hsf|done|].
  fold (sf_starts sf) in E2. rewrite E2. cbn [mbind option_bind fst snd].
  set (s3 := set_ac ac (set_sinks pad' dec' s2)).
  destruct (success_tick_eq (set_ring (mBlockFillIndex s3) (mBlocksInBuffer s3) 4 s3)) as (fc & rc' & Es & Hs).
  destruct (success_tick _) as [s4 ev]. cbn [fst snd] in Es, Hs. subst s4. eexists _, _. split; [done|].
  split; [by rewrite !audible_app, He1, He2, Hs, app_nil_r|]. split; [|done].
  split; [done|done|apply Hsf|done].
Qed.

Lemma air_frames_cons F : air_frames F = map (fun b => unpack_bits (slice F (b * (24 * dims)) (24 * dims))) [0; 1; 2; 3; 4].
Proof. done. Qed.

Lemma received_bytes P err : Forall is_byte P -> (forall j, damage_ok (err j)) -> Forall is_byte (received dims P err).
Proof.
  intros HP Herr. apply Forall_tabulate. intros i Hi. apply rd_Forall; [apply is_byte_0|].
  assert (Forall is_byte (codeword dims P (i mod dims))) as Hc by (by apply codeword_bytes).
  apply damage_bytes; [apply Herr|done].
Qed.

(** What is sent: a super frame and what happens to its columns. *)
Definition air_bytes (x : super_frame * (Z -> list (Z * Z))) : list Z := received dims (payload (fst x)) (snd x).
Definition air_ok (x : super_frame * (Z -> list (Z * Z))) : Prop := sf_ok dims (fst x) /\ forall j, damage_ok (snd x j).

(** Synchronised, or the start can be seen: the header came through. *)
Lemma find_sync_ok F (s : Mp4Processor (D := D)) :
  mp4_ok s -> zlen F = dims * 120 -> ring_holds (mFrameByteVec s) (mBlockFillIndex s * (24 * dims)) F ->
  mSuperFrameSync s <> 0 \/ check FC F = true ->
  exists sync, find_sync (24 * dims) s = Some (set_ring (mBlockFillIndex s) (mBlocksInBuffer s) sync s) /\ sync <> 0.
Proof.
  intros [_ Hfr _ Hfill] HF [_ Hr] Hs. unfold find_sync. destruct (Z.eqb_spec (mSuperFrameSync s) 0) as [E|Hne].
  - destruct Hs as [?|Hc]; [done|]. rewrite ptr_Some by nia. cbn [mbind option_bind].
    rewrite inside_Some; [|lia|unfold zlen in *; rewrite length_drop; nia]. cbn [mbind option_bind].
    rewrite (check_ext FC _ F), Hc; [by eexists|]. intros i Hi. rewrite rd_drop by nia. rewrite <- Hr by lia. rewrite HF, Z.mod_small by nia. done.
  - exists (mSuperFrameSync s). split; [by destruct s|done].
Qed.

Lemma super_frame_step x pad' dec' evs (s : Mp4Processor (D := D)) :
  air_ok x -> mp4_ok s -> mBlocksInBuffer s = 0 -> mSuperFrameSync s <> 0 \/ fire_right (air_bytes x) = true ->
  deliver_units with_fdk cd (sf_parms (fst x)) (sf_units (fst x)) (mPadhandler s) (mpAacDecoder s) = Some (pad', dec', evs) ->
  exists s' evs', feed_frames (air_frames (air_bytes x)) s = Some (s', evs') /\ audible evs' = evs /\ mp4_ok s' /\
    mPadhandler s' = pad' /\ mpAacDecoder s' = dec' /\ mBlocksInBuffer s' = 0 /\ mSuperFrameSync s' = 4 /\
    mBlockFillIndex s' = mBlockFillIndex s /\ mOutVec s' = payload (fst x).
Proof.
  intros [Hsf Herr] Hok Hb Hsync Hdel. set (F := air_bytes x) in *.
  assert (zlen F = dims * 120) as HFl by (apply zlen_tabulate; lia).
  assert (Forall is_byte F) as HF by (apply (received_bytes (payload (fst x)) (snd x)); [apply (payload_bytes dims); exact Hsf|exact Herr]).
  assert (collecting F s 0 s) as C0.
  { split; try done. destruct Hok. split; [rewrite Z.add_0_r, Z.mod_small; lia|done|lia|lia]. }
  rewrite air_frames_cons. cbn [map feed_frames].
  destruct (frame_collected F s 0 s Hok HF HFl ltac:(lia) C0) as (s1 & -> & C1). cbn [mbind option_bind fst snd].
  destruct (frame_collected F s 1 s1 Hok HF HFl ltac:(lia) C1) as (s2 & -> & C2). cbn [mbind option_bind fst snd].
  destruct (frame_collected F s 2 s2 Hok HF HFl ltac:(lia) C2) as (s3 & -> & C3). cbn [mbind option_bind fst snd].
  destruct (frame_collected F s 3 s3 Hok HF HFl ltac:(lia) C3) as (s4 & -> & C4). cbn [mbind option_bind fst snd].
  destruct (frame_stored F s 4 s4 Hok HF HFl ltac:(lia) C4) as (v & Ev & C5). unfold mp4_add_to_frame.
  rewrite num_bytes by apply C4. change (3 + 1) with 4 in Ev. rewrite Ev. cbn [mbind option_bind].
  change (4 + 1) with 5 in C5. set (s5 := count_block (set_frame_bytes v s4)) in *. destruct C5 as [Ok5 R5 P5 D5 S5].
  rewrite (rp_blocks _ _ _ _ _ R5). change (5 <=? 5) with true. cbv iota.
  destruct (frame_tick_eq s5) as (fc & Ef & Hf). destruct (frame_tick s5) as [s6 ev0]. cbn [fst snd] in Ef, Hf. subst s6.
  assert (mBlockFillIndex s5 = mBlockFillIndex s) as Efill.
  { rewrite (rp_fill _ _ _ _ _ R5). destruct Hok. replace (mBlockFillIndex s + 5) with (mBlockFillIndex s + 1 * 5) by lia.
    rewrite Z.mod_add, Z.mod_small; lia. }
  pose proof (ring_part_full (mBlockFillIndex s) (24 * dims) F s5 ltac:(lia) (mok_fill _ Hok) ltac:(lia) R5) as Rh.
  assert (mp4_ok (set_fc fc s5)) as Ok6 by (destruct Ok5; by split).
  destruct (find_sync_ok F (set_fc fc s5) Ok6 HFl) as (sync & -> & Hsy);
    [cbn [mFrameByteVec mBlockFillIndex set_fc]; by rewrite Efill|cbn [mSuperFrameSync set_fc]; rewrite check_fire_right by done; by rewrite S5|].
  cbn [mbind option_bind mBlockFillIndex mBlocksInBuffer set_fc].
  set (s7 := set_ring (mBlockFillIndex s5) (mBlocksInBuffer s5) sync (set_fc fc s5)).
  destruct (full_ring_decodes (fst x) (snd x) pad' dec' evs s7) as (s8 & e8 & -> & He8 & Ok8 & Hp & Hd & Hb8 & Hs8 & Hf8 & Ho8).
  { done. } { done. } { destruct Ok5; by split. } { done. }
  { cbn [mFrameByteVec mBlockFillIndex set_ring set_fc s7]. by rewrite Efill. }
  { cbn [mPadhandler mpAacDecoder set_ring set_fc s7]. by rewrite P5, D5. }
  cbn [mbind option_bind fst snd app]. exists s8, ((ev0 ++ e8) ++ []). split; [done|].
  rewrite app_nil_r, audible_app, Hf, He8, Hf8. cbn [mBlockFillIndex set_ring s7]. by rewrite Efill.
Qed.
End air.

(** ** A stream of super frames *)
Fixpoint deliver_super_frames {D : Type} `{AacDecoder D} (with_fdk cd : bool) (sfs : list super_frame) (pad : PadHandler) (dec : D)
  : option (PadHandler * D * list mp4_event) :=
  match sfs with
  | [] => Some (pad, dec, [])
  | sf :: sfs =>
      r ← deliver_units with_fdk cd (sf_parms sf) (sf_units sf) pad dec;
      let '(pad, dec, evs) := r in
      q ← deliver_super_frames with_fdk cd sfs pad dec;
      let '(pad, dec, evs') := q in Some (pad, dec, evs ++ evs')
  end.

Lemma feed_frames_app {D : Type} `{AacDecoder D} with_fdk cd l k (s : Mp4Processor (D := D)) :
  feed_frames with_fdk cd (l ++ k) s =
  (r ← feed_frames with_fdk cd l s; q ← feed_frames with_fdk cd k (fst r); Some (fst q, snd r ++ snd q)).
Proof.
  revert s. induction l as [|f l IH]; intros s; cbn [app feed_frames].
  - cbn [mbind option_bind fst snd]. by destruct (feed_frames _ _ k s) as [[? ?]|].
  - destruct (mp4_add_to_frame _ _ f s) as [r|]; cbn [mbind option_bind]; [|done]. rewrite IH.
    destruct (feed_frames _ _ l (fst r)) as [q|]; cbn [mbind option_bind fst snd]; [|done].
    destruct (feed_frames _ _ k (fst q)) as [t|]; cbn [mbind option_bind fst snd]; [|done]. by rewrite app_assoc.
Qed.

Lemma super_frames_run {D : Type} `{AacDecoder D} (with_fdk cd : bool) (dims : Z)
    (xs : list (super_frame * (Z -> list (Z * Z)))) (s : Mp4Processor (D := D)) (pad' : PadHandler) (dec' : D) (evs : list mp4_event) :
  0 < dims <= 48 -> Forall (air_ok dims) xs -> mp4_ok dims s -> mBlocksInBuffer s = 0 ->
  (mSuperFrameSync s <> 0 \/ exists x, head xs = Some x /\ fire_right (air_bytes dims x) = true) ->
  deliver_super_frames with_fdk cd (map fst xs) (mPadhandler s) (mpAacDecoder s) = Some (pad', dec', evs) ->
  exists s' evs', feed_frames with_fdk cd (flat_map (fun x => air_frames dims (air_bytes dims x)) xs) s = Some (s', evs') /\
    mPadhandler s' = pad' /\ mpAacDecoder s' = dec' /\ audible evs' = evs /\ mBlocksInBuffer s' = 0 /\
    (xs <> [] -> mSuperFrameSync s' = 4).
Proof.
  intros Hd. revert s evs. induction xs as [|x xs IH]; intros s evs Hxs Hok Hb Hs Hdel.
  { cbn in Hdel. injection Hdel as <- <- <-. by exists s, []. }
  apply Forall_cons_1 in Hxs as [Hx Hxs]. cbn [map deliver_super_frames] in Hdel.
  destruct (deliver_units _ _ _ _ _ _) as [[[p1 d1] e1]|] eqn:E1; cbn [mbind option_bind] in Hdel; [|done].
  destruct (deliver_super_frames _ _ _ _ _) as [[[p2 d2] e2]|] eqn:E2; cbn [mbind option_bind] in Hdel; [|done]. injection Hdel as <- <- <-.
  destruct (super_frame_step with_fdk cd dims Hd x p1 d1 e1 s Hx Hok Hb) as (s1 & ev1 & F1 & A1 & Ok1 & P1 & D1 & B1 & S1 & _);
    [destruct Hs as [?|(y & [= <-] & ?)]; auto|done|].
  destruct (IH s1 e2) as (s2 & ev2 & F2 & P2 & D2 & A2 & B2 & S2); try done; [left; lia|by rewrite P1, D1|].
  exists s2, (ev1 ++ ev2). cbn [flat_map]. rewrite feed_frames_app, F1. cbn [mbind option_bind fst snd]. rewrite F2.
  rewrite audible_app, A1, A2. split_and!; try done. intros _. destruct xs; [|by apply S2].
  cbn in F2. injection F2 as <- _. done.
Qed.

(** C4: DAB+ reception. Super frames with the right fire code in their headers, units
    of a right CRC whose data stream element is shorter than 255 bytes, and up to five
    damaged bytes in every Reed-Solomon column, arrive frame by frame at a processor
    that is synchronised or sees the start of the first one, and the PAD handler does
    not fail on the PAD in them. Then the dump buffer, the PAD handler and the decoder
    get exactly the access units that were sent, in order and with the announced
    parameters - the decoder the unit or its LATM element, the PAD handler the X-PAD
    and F-PAD of the data stream element, the dump buffer the element - for every
    decoder and every bit rate up to 384 kbit/s, and the processor stays synchronised. *)
Theorem super_frames_decoded {D : Type} `{AacDecoder D} (with_fdk cd : bool) (dims : Z)
    (xs : list (super_frame * (Z -> list (Z * Z)))) (s : Mp4Processor (D := D)) (pad' : PadHandler) (dec' : D) (evs : list mp4_event) :
  0 < dims <= 48 -> Forall (air_ok dims) xs -> mp4_ok dims s -> mBlocksInBuffer s = 0 ->
  (mSuperFrameSync s <> 0 \/ exists x, head xs = Some x /\ fire_right (air_bytes dims x) = true) ->
  deliver_super_frames with_fdk cd (map fst xs) (mPadhandler s) (mpAacDecoder s) = Some (pad', dec', evs) ->
  exists s' evs', feed_frames with_fdk cd (flat_map (fun x => air_frames dims (air_bytes dims x)) xs) s = Some (s', evs') /\
    mPadhandler s' = pad' /\ mpAacDecoder s' = dec' /\ audible evs' = evs /\ mBlocksInBuffer s' = 0 /\
    (xs <> [] -> mSuperFrameSync s' = 4).
Proof. apply super_frames_run. Qed.

(** A decoder that keeps what it is given. *)
#[local] Instance recording_decoder : AacDecoder (list (list Z)) := {
  convert_mp4_to_pcm := fun _ buf len d => (d ++ [take (Z.to_nat len) buf], 1);
  conceal_lost_frame := fun _ d => d
}.

(** 8 kbit/s, two access units, the first with a dynamic label of two characters in
    its X-PAD. *)
Definition sample_units : list (list Z) :=
  [[128; 8] ++ rev [2; 0; 0x61; 0; 79; 75] ++ [0x20; 0x02] ++ map (fun i => i * 3) (seqZ 0 40); map (fun i => 255 - i) (seqZ 0 51)].
Definition label_event : mp4_event := mp4_pad_event (signal_show_label [79; 75] 0).

Definition sample_sf (f0 f1 : Z) : super_frame := mk_sf (f0, f1) 0 0 1 1 0 0 9 sample_units.

Definition sample_fire : Z := zfor 2 11 (fire_crc_step (crc_table FC) (payload (sample_sf 0 0))) 0.

Definition sample_air : super_frame * (Z -> list (Z * Z)) :=
  (sample_sf (Z.shiftr sample_fire 8) (u8 sample_fire), fun _ => [(37, 0x55); (20, 1); (80, 255); (119, 7); (60, 128)]).

Lemma sample_air_ok : air_ok 1 sample_air.
Proof.
  split; [|intros j; split; [vm_compute; discriminate|repeat (constructor; [cbn; unfold is_byte; lia|]); constructor]]. split.
  - vm_compute. repeat split; congruence.
  - vm_compute. repeat split; congruence.
  - vm_compute. split; congruence.
  - constructor; [|constructor; [|constructor]]; (split; [apply forall_bytes; reflexivity|]); vm_compute; repeat split; congruence.
  - reflexivity.
  - vm_compute. reflexivity.
  - repeat constructor.
Qed.

Lemma super_frames_decoded_witness :
  exists s' evs', feed_frames false true (flat_map (fun x => air_frames 1 (air_bytes 1 x)) [sample_air; sample_air])
      (Mp4Processor_new 8 PadHandler_new []) = Some (s', evs') /\
    mpAacDecoder s' = sample_units ++ sample_units /\ List.filter (fun e => match e with mp4_pad_event _ => true | _ => false end) (audible evs') = [label_event; label_event].
Proof.
  assert (exists pad' evs, deliver_super_frames false true [fst sample_air; fst sample_air] PadHandler_new [] = Some (pad', sample_units ++ sample_units, evs) /\
    List.filter (fun e => match e with mp4_pad_event _ => true | _ => false end) evs = [label_event; label_event]) as (pad' & evs & Hdel & Hev) by (eexists _, _; split; vm_compute; reflexivity).
  destruct (super_frames_decoded false true 1 [sample_air; sample_air] (Mp4Processor_new 8 PadHandler_new []) pad' (sample_units ++ sample_units) evs) as (s' & evs' & E & _ & Hd & He & _).
  - lia.
  - clear. repeat (constructor; [apply sample_air_ok|]). constructor.
  - clear. split; vm_compute; try split; congruence.
  - reflexivity.
  - right. exists sample_air. split; [reflexivity|vm_compute; reflexivity].
  - exact Hdel.
  - exists s', evs'. split; [exact E|]. split; [exact Hd|]. rewrite He. exact Hev.
Defined.

(** ** Two lengths that are not checked *)
(** The starts of the header are compared with each other only: a header with a
    right fire code can place an access unit behind the end of [mOutVec]. *)
Lemma au_start_unchecked :
  let head := [0; 0; 0x20; 900 / 16; 900 mod 16 * 16] ++ zeros 435 in
  let c := zfor 2 11 (fire_crc_step (crc_table FC) head) 0 in
  let P := wr (wr head 0 (Z.shiftr c 8)) 1 (u8 c) in
  zlen P = 4 * 110 /\ check FC P = true /\
  process_aus false true (stream_parameters P) (mAuStartArr (stream_parameters P) 32 P)
    (set_out P (mk_rc 0 0 0 0 0 0 0 0) (Mp4Processor_new 32 PadHandler_new [])) = None.
Proof. vm_compute. split_and!; reflexivity. Qed.

(** The length of a data stream element may be zero, or lead behind the access
    unit and the buffer. *)
Lemma pad_count_unchecked pad : au_pad [0x80; 0; 1; 2] pad = None /\ au_pad [0x80; 255; 1; 2] pad = None.
Proof. by split. Qed.

(** ** The ring whatever is received *)
Section invariant.
Context {D : Type} `{AacDecoder D}.
Context (with_fdk cd : bool) (dims : Z).

(** What the parts of the processor below [mp4_add_to_frame] leave alone. *)
Record same_ring (s s' : Mp4Processor (D := D)) : Prop := {
  sr_rate : mp4_BitRate s' = mp4_BitRate s;
  sr_frame : mFrameByteVec s' = mFrameByteVec s;
  sr_out : zlen (mOutVec s') = zlen (mOutVec s);
  sr_fill : mBlockFillIndex s' = mBlockFillIndex s;
  sr_blocks : mBlocksInBuffer s' = mBlocksInBuffer s;
  sr_sync : mSuperFrameSync s' = mSuperFrameSync s
}.

#[local] Instance same_ring_preorder : PreOrder same_ring.
Proof. split; [by intros s; split|]. intros s1 s2 s3 [] []. split; congruence. Qed.

Lemma put_zlen {A} (l : list A) i v l' : put l i v = Some l' -> zlen l' = zlen l.
Proof. unfold put. case_match; [|done]. intros [= <-]. apply zlen_wr. Qed.

#[local] Instance zlen_preorder {A} : PreOrder (fun l l' : list A => zlen l' = zlen l).
Proof. split; [done|]. intros l1 l2 l3 H1 H2. congruence. Qed.

Lemma store_block_zlen iV n f v v' : store_block iV n f v = Some v' -> zlen v' = zlen v.
Proof.
  apply (zforM_preserves (fun l l' : list Z => zlen l' = zlen l)). intros i a b.
  destruct (pack_byte iV i); cbn [mbind option_bind]; [|done]. apply put_zlen.
Qed.

Lemma rs_column_zlen d frame base j out r : rs_column d frame base j out = Some r -> zlen (snd r) = zlen out.
Proof.
  unfold rs_column. destruct (zforM 0 120 _ _); cbn [mbind option_bind]; [|done]. destruct (dec RS _ _ _) as [ler rsOut].
  destruct (zforM 0 110 _ _) as [o|] eqn:E; cbn [mbind option_bind]; [|done]. intros [= <-]. cbn [snd]. revert E.
  apply (zforM_preserves (fun l l' : list Z => zlen l' = zlen l)). intros. by eapply put_zlen.
Qed.

#[local] Instance fst_zlen_preorder {B C} : PreOrder (fun l l' : list Z * B * C => zlen (l'.1.1) = zlen (l.1.1)).
Proof. split; [done|]. intros l1 l2 l3 H1 H2. congruence. Qed.

Lemma rs_columns_zlen d frame base st st' : rs_columns d frame base st = Some st' -> zlen (st'.1.1) = zlen (st.1.1).
Proof.
  apply (zforM_preserves (fun l l' : list Z * SRsCounts * list mp4_event => zlen (l'.1.1) = zlen (l.1.1))).
  intros j [[o rc] evs] b. destruct (rs_column d frame base j o) as [[ler o']|] eqn:E; cbn [mbind option_bind]; [|done].
  apply rs_column_zlen in E. destruct (count_column ler rc). by intros [= <-].
Qed.

Lemma check_and_correct_zlen f x : zlen (check_and_correct_6bits f x).2 = zlen x.
Proof. unfold check_and_correct_6bits, flip. cbv zeta. repeat case_match; cbn [snd]; by rewrite ?zlen_wr. Qed.

Lemma reed_solomon_ring base s ok s' evs : process_reed_solomon_frame base s = Some (ok, s', evs) -> same_ring s s'.
Proof.
  unfold process_reed_solomon_frame. destruct (rs_columns _ _ _ _) as [[[o rc] e]|] eqn:E; cbn [mbind option_bind]; [|done].
  apply rs_columns_zlen in E. cbn [fst] in E. destruct rc. destruct (inside o 0 12 tt); cbn [mbind option_bind]; [|done].
  pose proof (check_and_correct_zlen FC o) as Hz. destruct (check_and_correct_6bits FC o) as [[] o']; cbn [snd] in Hz.
  - destruct (getn _ _ _); cbn [mbind option_bind]; [|done]. intros [= <- <- <-]. split; try done. cbn. congruence.
  - intros [= <- <- <-]. split; try done. cbn. congruence.
Qed.

Lemma au_tick_ring s : same_ring s (fst (au_tick s)).
Proof. destruct (au_tick_eq s) as (ac & -> & _). by split. Qed.

Lemma process_au_ring sp a b s r : process_au with_fdk cd sp a b s = Some r -> same_ring s (fst r).
Proof.
  unfold process_au.
  assert (same_ring s (aac_error s) /\ same_ring s (good_crc s) /\ same_ring s (crc_error s)) as (He & Hg & Hc).
  { unfold aac_error, good_crc, crc_error. by destruct (mp4_ac s), (mp4_rc s). }
  assert (forall s1, same_ring s s1 -> same_ring s (conceal_in cd sp s1)) as Hci by (intros s1 []; by split).
  destruct (if _ : bool then _ else _) as [[s1 ev1]|] eqn:E; cbn [mbind option_bind fst snd]; [|done].
  assert (same_ring s s1) as H1.
  { revert E. case_match; [intros [= <- _]; by apply Hci|].
    destruct (ptr _ _) as [u|]; cbn [mbind option_bind]; [|done]. destruct (inside _ _ _ _); cbn [mbind option_bind]; [|done].
    case_match; [|intros [= <- _]; by apply Hci]. destruct (good_au _ _ _ _ _ _) as [[[[p d] e] err]|]; cbn [mbind option_bind]; [|done].
    assert (same_ring s (set_sinks p d (good_crc s))) as Hs by (destruct Hg; by split).
    case_match; intros [= <- _]; [|done]. apply Hci. etrans; [exact Hs|]. unfold aac_error. by destruct (mp4_ac _). }
  pose proof (au_tick_ring s1) as Ht. destruct (au_tick s1). intros [= <-]. by etrans.
Qed.

Lemma process_aus_ring sp starts s r : process_aus with_fdk cd sp starts s = Some r -> same_ring s (fst r).
Proof.
  revert s r. induction starts as [|a [|b l] IH]; intros s r; [by intros [= <-]|by intros [= <-]|].
  change (process_aus with_fdk cd sp (a :: b :: l) s) with (r ← process_au with_fdk cd sp a b s;
    q ← process_aus with_fdk cd sp (b :: l) (fst r); Some (fst q, snd r ++ snd q)).
  destruct (process_au _ _ _ _ _ _) as [r1|] eqn:E1; cbn [mbind option_bind]; [|done].
  destruct (process_aus with_fdk cd sp (b :: l) (fst r1)) as [r2|] eqn:E2; cbn [mbind option_bind]; [|done]. intros [= <-]. cbn [fst].
  apply process_au_ring in E1. etrans; [done|]. by apply IH.
Qed.

Lemma process_super_frame_ring base s ok s' evs :
  process_super_frame with_fdk cd base s = Some (ok, s', evs) -> same_ring s s'.
Proof.
  unfold process_super_frame. destruct (process_reed_solomon_frame base s) as [[[ok1 s1] e1]|] eqn:E; cbn [mbind option_bind]; [|done].
  apply reed_solomon_ring in E. destruct ok1; cbn [negb]; [|by intros [= <- <- <-]].
  destruct (process_aus _ _ _ _ _) as [q|] eqn:E2; cbn [mbind option_bind]; [|done]. intros [= <- <- <-].
  etrans; [done|]. by eapply process_aus_ring.
Qed.

(** Sizes, the fill position, how many frames are collected, and the credit of
    the synchronisation. *)
Record mp4_inv (s : Mp4Processor (D := D)) : Prop := {
  inv_ok : mp4_ok dims s;
  inv_blocks : 0 <= mBlocksInBuffer s <= 4;
  inv_sync : 0 <= mSuperFrameSync s <= 4
}.

(** A full ring is emptied, or keeps four blocks for the next attempt. *)
Lemma full_ring_inv n s r :
  mp4_ok dims s -> 0 <= mSuperFrameSync s <= 4 -> (mSuperFrameSync s = 0 -> mBlocksInBuffer s = 4) ->
  full_ring with_fdk cd n s = Some r -> mp4_inv (fst r).
Proof.
  intros Hok Hs Hb. unfold full_ring. destruct (Z.eqb_spec (mSuperFrameSync s) 0) as [E|Hne].
  { intros [= <-]. cbn [fst]. split; [done|lia|lia]. }
  destruct (process_super_frame _ _ _ _) as [[[ok s1] e1]|] eqn:E; cbn [mbind option_bind]; [|done].
  apply process_super_frame_ring in E as [E1 E2 E3 E4 E5 E6]. cbn [mp4_BitRate mFrameByteVec mOutVec mBlockFillIndex mBlocksInBuffer mSuperFrameSync set_ring] in *.
  destruct Hok as [O1 O2 O3 O4]. destruct ok.
  - destruct (success_tick_eq (set_ring (mBlockFillIndex s1) (mBlocksInBuffer s1) 4 s1)) as (fc & rc & Es & _).
    destruct (success_tick _) as [s2 ev]. cbn [fst] in Es. subst s2. intros [= <-]. cbn [fst].
    split; [split; cbn; congruence || lia|cbn; lia|cbn; lia].
  - intros [= <-]. cbn [fst mSuperFrameSync set_ring]. destruct (Z.eqb_spec (mSuperFrameSync s1 - 1) 0).
    + unfold sync_lost. cbn [mp4_fc set_ring]. destruct (mp4_fc s1). split; [split; cbn; congruence || lia|cbn; lia|cbn; lia].
    + split; [split; cbn; congruence || lia|cbn; lia|cbn; lia].
Qed.

Lemma add_to_frame_inv iV s r : mp4_inv s -> mp4_add_to_frame with_fdk cd iV s = Some r -> mp4_inv (fst r).
Proof.
  intros [[O1 O2 O3 O4] Hb Hs]. unfold mp4_add_to_frame. destruct (store_block _ _ _ _) as [v|] eqn:Ev; cbn [mbind option_bind]; [|done].
  apply store_block_zlen in Ev. pose proof (Z.mod_pos_bound (mBlockFillIndex s + 1) 5 ltac:(lia)) as Hm.
  assert (mp4_ok dims (count_block (set_frame_bytes v s)) /\ mBlocksInBuffer (count_block (set_frame_bytes v s)) = mBlocksInBuffer s + 1 /\
          mSuperFrameSync (count_block (set_frame_bytes v s)) = mSuperFrameSync s) as (Ok1 & B1 & S1).
  { unfold count_block. cbn [mp4_fc set_frame_bytes]. destruct (mp4_fc s). cbn. rewrite i16_small by lia.
    split; [split; cbn; congruence || lia|done]. }
  set (s1 := count_block (set_frame_bytes v s)) in *. case_match; [|intros [= <-]; cbn [fst]; split; [done|lia|lia]].
  destruct (frame_tick_eq s1) as (fc & Ef & _). destruct (frame_tick s1) as [s2 ev0]. cbn [fst] in Ef. subst s2.
  destruct (find_sync _ _) as [s3|] eqn:E3; cbn [mbind option_bind]; [|done].
  destruct (full_ring _ _ _ s3) as [q|] eqn:E4; cbn [mbind option_bind]; [|done]. intros [= <-]. cbn [fst].
  assert (mp4_ok dims s3 /\ 0 <= mSuperFrameSync s3 <= 4 /\ (mSuperFrameSync s3 = 0 -> mBlocksInBuffer s3 = 4)) as (Ok3 & Hs3 & Hb3).
  { revert E3. unfold find_sync. cbn [mSuperFrameSync set_fc]. destruct (Z.eqb_spec (mSuperFrameSync s1) 0).
    - destruct (ptr _ _) as [p|]; cbn [mbind option_bind]; [|done]. destruct (inside _ _ _ _); cbn [mbind option_bind]; [|done].
      generalize (check FC p) as ok. intros ok [= <-]. destruct Ok1. destruct ok; split_and!; try split; cbn in *; congruence || lia.
    - intros [= <-]. destruct Ok1. split_and!; try split; cbn in *; try congruence; lia. }
  by apply (full_ring_inv (i16 (Z.quot (i16 (24 * mp4_BitRate s)) 8)) s3).
Qed.

Lemma feed_frames_inv frames s r : mp4_inv s -> feed_frames with_fdk cd frames s = Some r -> mp4_inv (fst r).
Proof.
  revert s r. induction frames as [|f fs IH]; intros s r Hi; cbn [feed_frames]; [by intros [= <-]|].
  destruct (mp4_add_to_frame _ _ f s) as [r1|] eqn:E1; cbn [mbind option_bind]; [|done].
  destruct (feed_frames _ _ fs _) as [r2|] eqn:E2; cbn [mbind option_bind]; [|done]. intros [= <-].
  apply (IH (fst r1) r2); [by eapply add_to_frame_inv|done].
Qed.
End invariant.

(** C35: whatever frames arrive at a new processor, the ring buffer and the
    payload buffer keep their sizes, the fill position stays in the ring, at
    most four frames wait between two calls and the credit of the
    synchronisation stays between 0 and 4. *)
Theorem mp4_ring_invariant {D : Type} `{AacDecoder D} (with_fdk cd : bool) (dims : Z) (pad : PadHandler) (dec : D)
    (frames : list (list Z)) (s : Mp4Processor) (evs : list mp4_event) :
  0 < dims <= 48 -> feed_frames with_fdk cd frames (Mp4Processor_new (8 * dims) pad dec) = Some (s, evs) -> mp4_inv dims s.
Proof.
  intros Hd E. eapply (feed_frames_inv with_fdk cd dims frames _ (s, evs)); [|exact E].
  unfold Mp4Processor_new. rewrite Z.mul_comm, Z.quot_mul, i16_small by lia.
  split; [split|..]; cbn; try lia; rewrite zlen_zeros; lia.
Qed.

Lemma mp4_ring_invariant_witness :
  exists s evs, feed_frames false true [zeros 192; zeros 192; zeros 192; zeros 192; zeros 192; zeros 192]
    (Mp4Processor_new (8 * 1) PadHandler_new []) = Some (s, evs) /\ mp4_inv 1 s.
Proof.
  eexists _, _. split; [vm_compute; reflexivity|].
  eapply (mp4_ring_invariant false true 1 PadHandler_new [] [zeros 192; zeros 192; zeros 192; zeros 192; zeros 192; zeros 192]);
    [lia|vm_compute; reflexivity].
Defined.
