(* ===== verification/EpgDecoder.v ===== *)
(** * The programme guide (src/src/base/backend/data/epg_2/epg_decoder.cpp)

    A binary EPG object (ETSI TS 102 371) is a tree of elements: a tag, a length
    of one, three or four bytes, and the content.  Every [process_...] method
    reads the header at [index], loops over the elements inside and returns the
    index behind the element; an unknown tag ends it early.

    The methods have one type here, [handler]: the buffer, the index, the
    decoder with the programme description the caller passes by pointer ([None]
    is [nullptr]).  The loops share [nodes], and a method is the list of its
    [case]s.  [Outside] is an access outside of the buffer, [Fuel] a loop that
    has made more passes than the buffer has bytes.  [QString] is a parameter:
    a type with conversions from and to UTF-8. *)
From S2P Require Import Prelude Checked.
Open Scope Z_scope.

(** ** Results *)
Inductive run (A : Type) :=
  | Done (a : A)
  | Outside
  | Fuel.
Arguments Done {A} a.
Arguments Outside {A}.
Arguments Fuel {A}.

#[export] Instance run_bind : MBind run := fun A B f r =>
  match r with Done a => f a | Outside => Outside | Fuel => Fuel end.

Definition rget (v : list Z) (i : Z) : run Z := match get v i with Some b => Done b | None => Outside end.

(** ** QString *)
Class QString (Q : Type) := {
  q_fromUtf8 : list Z -> Q;
  q_toUtf8 : Q -> list Z;
  q_isEmpty : Q -> bool
}.

(** A C string: what stands in front of the first zero. *)
Fixpoint c_string (l : list Z) : list Z :=
  match l with [] => [] | b :: l => if b =? 0 then [] else b :: c_string l end.

Definition EPG_TAG : Z := 0x02.
Definition SERVICE_TAG : Z := 0x03.

Section decoder.
Context {Q : Type} `{QString Q}.

Definition q_empty : Q := q_fromUtf8 [].
Definition q_error : Q := q_fromUtf8 [101; 114; 114; 111; 114].    (* "error" *)

(** ** The state *)
Record progDesc := mk_desc {
  shortName : Q; mediumName : Q; longName : Q; shortDescription : Q; longDescription : Q;
  startTime : Z; stopTime : Z
}.
Definition progDesc_new : progDesc := mk_desc q_empty q_empty q_empty q_empty q_empty (-1) (-1).

Definition set_shortName (q : Q) (p : progDesc) : progDesc :=
  mk_desc q (mediumName p) (longName p) (shortDescription p) (longDescription p) (startTime p) (stopTime p).
Definition set_mediumName (q : Q) (p : progDesc) : progDesc :=
  mk_desc (shortName p) q (longName p) (shortDescription p) (longDescription p) (startTime p) (stopTime p).
Definition set_longName (q : Q) (p : progDesc) : progDesc :=
  mk_desc (shortName p) (mediumName p) q (shortDescription p) (longDescription p) (startTime p) (stopTime p).
Definition set_shortDescription (q : Q) (p : progDesc) : progDesc :=
  mk_desc (shortName p) (mediumName p) (longName p) q (longDescription p) (startTime p) (stopTime p).
Definition set_longDescription (q : Q) (p : progDesc) : progDesc :=
  mk_desc (shortName p) (mediumName p) (longName p) (shortDescription p) q (startTime p) (stopTime p).
Definition set_startTime (t : Z) (p : progDesc) : progDesc :=
  mk_desc (shortName p) (mediumName p) (longName p) (shortDescription p) (longDescription p) t (stopTime p).
Definition set_stopTime (t : Z) (p : progDesc) : progDesc :=
  mk_desc (shortName p) (mediumName p) (longName p) (shortDescription p) (longDescription p) (startTime p) t.

(** [signal_set_epg_data(SId, startTime, title, description)] *)
Record epg_event := signal_set_epg_data { ev_SId : Z; ev_time : Z; ev_title : Q; ev_descr : Q }.

Record EpgDecoder := mkEpg {
  epg_SId : Z;
  stringTable : list Q;
  epg_subType : Z;
  julianDate : Z;
  epg_events : list epg_event        (* emitted so far *)
}.

Definition set_string (i : Z) (q : Q) (e : EpgDecoder) : EpgDecoder :=
  mkEpg (epg_SId e) (wr (stringTable e) i q) (epg_subType e) (julianDate e) (epg_events e).

Definition epg_emit (ev : epg_event) (e : EpgDecoder) : EpgDecoder :=
  mkEpg (epg_SId e) (stringTable e) (epg_subType e) (julianDate e) (epg_events e ++ [ev]).

Definition epg_record (p : progDesc) (e : EpgDecoder) : EpgDecoder :=
  if startTime p =? -1 then e
  else if q_isEmpty (mediumName p) && q_isEmpty (shortName p) && q_isEmpty (longName p) then e
  else epg_emit (signal_set_epg_data (epg_SId e) (startTime p)
         (if negb (q_isEmpty (longName p)) then longName p
          else if negb (q_isEmpty (mediumName p)) then mediumName p else shortName p)
         (shortDescription p)) e.

(** ** Elements *)
Definition epg_state : Type := EpgDecoder * option progDesc.
Definition handler : Type := list Z -> Z -> epg_state -> run (Z * epg_state).

(** The header at [index]: where the content starts and its length. *)
Definition epg_header (v : list Z) (index : Z) : run (Z * Z) :=
  length ← rget v (index + 1);
  if length =? 0xFE then
    a ← rget v (index + 2); b ← rget v (index + 3);
    Done (index + 4, Z.lor (Z.shiftl a 8) b)
  else if length =? 0xFF then
    a ← rget v (index + 2); b ← rget v (index + 3); c ← rget v (index + 4);
    Done (index + 5, Z.lor (Z.lor (Z.shiftl a 16) (Z.shiftl b 8)) c)
  else Done (index + 2, length).

(** An element that is passed over. *)
Definition skip : handler := fun v index st =>
  h ← epg_header v index;
  Done (fst h + snd h, st).

(** A [case] either assigns the index and goes on, or returns. *)
Inductive action :=
  | Next (h : handler)
  | Return (h : handler).

Definition leave : action := Return (fun _ index st => Done (index, st)).

(** [while (index < endPoint) switch (v[index])]; [true] is the end of the loop,
    [false] a return out of it. *)
Fixpoint nodes (fuel : nat) (cases : Z -> action) (v : list Z) (endPoint index : Z) (st : epg_state) : run (bool * epg_state) :=
  match fuel with
  | O => Fuel
  | S fuel =>
      if index <? endPoint then
        tag ← rget v index;
        match cases tag with
        | Next h => r ← h v index st; nodes fuel cases v endPoint (fst r) (snd r)
        | Return h => r ← h v index st; Done (false, snd r)
        end
      else Done (true, st)
  end.

Definition loop_fuel (v : list Z) : nat := S (length v).

Fixpoint select (cases : list (Z * action)) (default : action) (tag : Z) : action :=
  match cases with
  | [] => default
  | (t, a) :: cases => if t =? tag then a else select cases default tag
  end.

Definition element (cases : list (Z * action)) : handler := fun v index st =>
  h ← epg_header v index;
  let endPoint := fst h + snd h in
  r ← nodes (loop_fuel v) (select cases leave) v endPoint (fst h) st;
  Done (endPoint, snd r).

(** A callee that is given [nullptr], and one with a description of its own. *)
Definition with_nullptr (h : handler) : handler := fun v index st =>
  r ← h v index (fst st, None);
  Done (fst r, (fst (snd r), snd st)).

(** [if (p == nullptr) return endPoint;] *)
Definition unless_null (h : handler) : handler := fun v index st =>
  match snd st with None => skip v index st | Some _ => h v index st end.

(** ** Attributes *)
Definition epg_getBit (v : list Z) (bitnr : Z) : run Z :=
  b ← rget v (bitnr / 8);
  Done (if Z.land b (Z.shiftr 0x80 (bitnr mod 8)) =? 0 then 0 else 1).

Fixpoint epg_getBits_loop (n : nat) (v : list Z) (bitnr res : Z) : run Z :=
  match n with
  | O => Done res
  | S n => b ← epg_getBit v bitnr; epg_getBits_loop n v (bitnr + 1) (Z.lor (u16 (Z.shiftl res 1)) b)
  end.
Definition epg_getBits (v : list Z) (bitnr length : Z) : run Z := epg_getBits_loop (Z.to_nat length) v bitnr 0.

Definition process_412 : handler := fun v index st => length ← rget v (index + 1); Done (index + length, st).
Definition process_440 : handler := skip.
Definition process_46 : handler := skip.
Definition process_471 : handler := skip.
Definition process_472 : handler := skip.
Definition process_473 : handler := skip.
Definition process_475 : handler := skip.
Definition process_476 : handler := skip.
Definition process_481 : handler := skip.
Definition process_482 : handler := skip.
Definition process_484 : handler := skip.
Definition process_485 : handler := skip.
Definition process_4171 : handler := skip.

(** The version is read, and printed. *)
Definition process_483 : handler := fun v index st =>
  h ← epg_header v index;
  _ ← rget v (fst h);
  _ ← rget v (fst h + 1);
  Done (fst h + snd h, st).

(** The local time offset in half hours: [-halfHours & 0x1F] is
    [(-halfHours) & 0x1F]. *)
Definition lto_halfHours (halfHours : Z) : Z :=
  if negb (Z.land halfHours 0x20 =? 0) then u16 (Z.land (- halfHours) 0x1F) else Z.land halfHours 0x1F.

(** The time point at [index]: minutes of the day, or -1 for another day. *)
Definition time_point (today : Z) (v : list Z) (index : Z) : run Z :=
  date ← epg_getBits v (8 * index + 1) 17;
  if negb (today =? date) then Done (-1)
  else
    ltoFlag ← epg_getBit v (8 * index + 19);
    utcFlag ← epg_getBit v (8 * index + 20);
    let ltoBase := if utcFlag =? 1 then 48 else 32 in
    hours ← epg_getBits v (8 * index + 21) 5;
    minutes ← epg_getBits v (8 * index + 26) 6;
    minutes ← (if negb (ltoFlag =? 0)
               then hh ← epg_getBits v (8 * index + ltoBase) 8; Done (minutes + lto_halfHours hh * 30)
               else Done minutes);
    Done (hours * 60 + minutes).

(** [t] is where the pointer leads, [None] for [nullptr]. *)
Definition process_474 (t : option (Z -> option progDesc -> option progDesc)) : handler := fun v index st =>
  h ← epg_header v index;
  match t with
  | None => Done (fst h + snd h, st)
  | Some set => x ← time_point (julianDate (fst st)) v (fst h); Done (fst h + snd h, (fst st, set x (snd st)))
  end.

Definition to_startTime (x : Z) (p : option progDesc) : option progDesc := set_startTime x <$> p.
Definition to_stopTime (x : Z) (p : option progDesc) : option progDesc := set_stopTime x <$> p.
Definition to_local (x : Z) (p : option progDesc) : option progDesc := p.

(** ** Text *)
(** The characters of [getCData]: tokens below 16 stand for table entries. *)
Definition expand_token (tab : list Q) (b : Z) : list Z :=
  if b <? 16 then match tab !! Z.to_nat b with Some q => c_string (q_toUtf8 q) | None => [] end else [b].

Fixpoint rgetn (n : nat) (v : list Z) (index : Z) : run (list Z) :=
  match n with O => Done [] | S n => b ← rget v index; l ← rgetn n v (index + 1); Done (b :: l) end.

Definition getCData (v : list Z) (index : Z) (e : EpgDecoder) : run Q :=
  t ← rget v index;
  if negb (t =? 0x1) then Done q_empty
  else
    l ← rget v (index + 1);
    if l =? 1 then
      b ← rget v (index + 2);
      Done (if b <? 16 then default q_empty (stringTable e !! Z.to_nat b) else q_empty)
    else
      h ← epg_header v index;
      bytes ← rgetn (Z.to_nat (snd h)) v (fst h);
      Done (q_fromUtf8 (c_string (flat_map (expand_token (stringTable e)) bytes ++ [0]))).

Definition on_desc (f : progDesc -> progDesc) (st : epg_state) : epg_state := (fst st, f <$> snd st).

(** The five text elements differ in the member they set. *)
Definition text_element (set : Q -> progDesc -> progDesc) : handler := unless_null (fun v index st =>
  h ← epg_header v index;
  let endPoint := fst h + snd h in
  r ← nodes (loop_fuel v)
        (select [(0x80, Next process_481);
                 (0x01, Return (fun v index st => q ← getCData v index (fst st); Done (index, on_desc (set q) st)))]
                (Return (fun _ index st => Done (index, on_desc (set q_empty) st))))
        v endPoint (fst h) st;
  Done (endPoint, if fst r : bool then on_desc (set q_error) (snd r) else snd r)).

Definition process_shortName : handler := text_element set_shortName.
Definition process_mediumName : handler := text_element set_mediumName.
Definition process_longName : handler := text_element set_longName.
Definition process_shortDescription : handler := text_element set_shortDescription.
Definition process_longDescription : handler := text_element set_longDescription.

Definition process_token : handler := fun v index st =>
  tag ← rget v index;
  h ← epg_header v index;
  text ← rgetn (Z.to_nat (snd h)) v (fst h);
  Done (fst h + snd h,
        (if tag <=? 16 then set_string tag (q_fromUtf8 (c_string (text ++ [0]))) (fst st) else fst st, snd st)).

Definition process_tokenTable : handler := fun v index st =>
  h ← epg_header v index;
  let endPoint := fst h + snd h in
  r ← nodes (loop_fuel v) (fun _ => Next process_token) v endPoint (fst h) st;
  Done (endPoint, snd r).

Definition process_defaultLanguage : handler := skip.
Definition process_obsolete : handler := skip.

(** ** The elements of a programme *)
Definition process_country : handler := skip.
Definition process_point : handler := skip.
Definition process_polygon : handler := skip.
Definition process_geoLocation : handler := skip.     (* returns at once without the trace option *)
Definition process_keyWords : handler := skip.        (* likewise *)

Definition process_acquisitionTime : handler := element
  [(0x80, Next (process_474 None)); (0x81, Next (process_474 None)); (0x82, Next process_475)].
Definition process_presentationTime : handler := element
  [(0x80, Next (process_474 None)); (0x81, Next (process_474 None)); (0x82, Next process_475)].
Definition process_memberOf : handler := element
  [(0x80, Next process_471); (0x81, Next process_472); (0x82, Next process_482)].
Definition process_relativeTime : handler := element
  [(0x80, Next (process_474 None)); (0x81, Next process_475); (0x82, Next (process_474 None)); (0x83, Next process_475)].
Definition process_time : handler := element
  [(0x80, Next (process_474 (Some to_startTime))); (0x81, Next process_475);
   (0x82, Next (process_474 None)); (0x83, Next process_475)].
Definition process_radiodns : handler := element [(0x80, Next process_440); (0x81, Next process_440)].
Definition process_multiMedia : handler := element
  [(0x80, Next process_473); (0x81, Next process_481); (0x82, Next process_440); (0x83, Next process_46);
   (0x84, Next process_485); (0x85, Next process_485)].
Definition process_link : handler := element
  [(0x80, Next process_440); (0x81, Next process_473); (0x82, Next process_481); (0x83, Next process_440);
   (0x84, Next (process_474 (Some to_local)))].
Definition process_genre : handler := unless_null (element [(0x80, Return process_412); (0x81, Return process_46)]).
Definition process_bearer : handler := element
  [(0x32, Next process_geoLocation); (0x80, Next process_476); (0x82, Next process_440)].
Definition process_onDemand : handler := element
  [(0x29, Next process_bearer); (0x37, Next process_presentationTime); (0x38, Next process_acquisitionTime)].

(** [process_relativeTime(v, index);] without the assignment to [index]. *)
Definition relativeTime_unassigned : handler := fun v index st =>
  r ← process_relativeTime v index st;
  Done (index, snd r).
Definition process_location : handler := unless_null (element
  [(0x2C, Next process_time); (0x29, Next process_bearer); (0x2F, Next relativeTime_unassigned)]).

Definition process_mediaDescription : handler := element
  [(0x1A, Next process_shortDescription); (0x1B, Next process_longDescription); (0x2B, Next process_multiMedia)].
Definition process_serviceScope : handler := element [(0x80, Next process_476)].
Definition process_scope : handler := element
  [(0x25, Next process_serviceScope); (0x80, Next (process_474 (Some to_startTime))); (0x81, Next (process_474 (Some to_stopTime)))].

Definition process_programmeEvent : handler := element
  [(0x10, Next (with_nullptr process_shortName)); (0x11, Next (with_nullptr process_mediumName));
   (0x12, Next (with_nullptr process_longName)); (0x13, Next (with_nullptr process_mediaDescription));
   (0x14, Next (with_nullptr process_genre)); (0x16, Next process_keyWords); (0x17, Next process_memberOf);
   (0x18, Next process_link); (0x19, Next (with_nullptr process_location)); (0x36, Next process_onDemand);
   (0x80, Next process_471); (0x81, Next process_472); (0x82, Next process_483); (0x83, Next process_46);
   (0x84, Next process_46); (0x86, Next process_481)].

(** ** Programmes, groups and schedules *)
(** A description of its own, recorded when the loop comes to its end. *)
Definition recorded_element (cases : list (Z * action)) : handler := fun v index st =>
  h ← epg_header v index;
  let endPoint := fst h + snd h in
  r ← nodes (loop_fuel v) (select cases leave) v endPoint (fst h) (fst st, Some progDesc_new);
  let '(ended, (e, p)) := r in
  Done (endPoint, (match p with Some p => if (ended : bool) then epg_record p e else e | None => e end, snd st)).

Definition process_program : handler := recorded_element
  [(0x10, Next process_shortName); (0x11, Next process_mediumName); (0x12, Next process_longName);
   (0x13, Next process_mediaDescription); (0x14, Next process_genre); (0x16, Next process_keyWords);
   (0x17, Next process_memberOf); (0x18, Next process_link); (0x19, Next process_location);
   (0x2E, Next process_programmeEvent); (0x36, Next process_onDemand);
   (0x80, Next process_471); (0x81, Next process_472); (0x82, Next process_483); (0x83, Next process_46);
   (0x84, Next process_46); (0x86, Next process_481)].

Definition process_schedule : handler := fun v index st =>
  r ← element
    [(0x1C, Next process_program); (0x24, Next process_scope); (0x80, Next process_483);
     (0x81, Next (process_474 None)); (0x82, Next process_440)] v index (fst st, Some progDesc_new);
  Done (fst r, (fst (snd r), snd st)).

(** Groups contain groups; [groups] is the recursive call. *)
Definition process_programGroup (groups : handler) : handler := recorded_element
  [(0x10, Next process_shortName); (0x11, Next process_mediumName); (0x12, Next process_longName);
   (0x13, Next process_mediaDescription); (0x14, Next process_genre); (0x16, Next process_keyWords);
   (0x17, Next process_memberOf); (0x18, Next process_link); (0x20, Next groups);
   (0x80, Next process_471); (0x81, Next process_472); (0x82, Next process_483)].

Fixpoint process_programGroups (depth : nat) : handler :=
  match depth with
  | O => fun _ _ _ => Fuel
  | S depth => element
      [(0x23, Next (process_programGroup (process_programGroups depth))); (0x80, Next process_483);
       (0x81, Next (process_474 None)); (0x82, Next process_440)]
  end.

(** ** Services *)
Definition process_service : handler := element
  [(0x10, Next (with_nullptr process_shortName)); (0x11, Next (with_nullptr process_mediumName));
   (0x12, Next (with_nullptr process_longName)); (0x13, Next (with_nullptr process_mediaDescription));
   (0x14, Next (with_nullptr process_genre)); (0x16, Next process_keyWords); (0x29, Next process_bearer);
   (0x31, Next process_radiodns); (0x32, Next process_geoLocation); (0x80, Next process_483)].

Definition process_ensemble : handler := element
  [(0x10, Next (with_nullptr process_shortName)); (0x11, Next (with_nullptr process_mediumName));
   (0x12, Next (with_nullptr process_longName)); (0x13, Next (with_nullptr process_mediaDescription));
   (0x16, Next process_keyWords); (0x18, Next process_link); (0x28, Next process_service); (0x80, Next process_4171)].

(** ** The object *)
Definition epg_cases (v : list Z) : list (Z * action) :=
  [(0x04, Next process_tokenTable); (0x20, Next (process_programGroups (loop_fuel v))); (0x21, Next process_schedule);
   (0x05, Next process_obsolete); (0x06, Next process_defaultLanguage)].

Definition service_cases : list (Z * action) :=
  [(0x06, Return process_defaultLanguage); (0x26, Return process_ensemble); (0x28, Return process_service);
   (0x80, Return process_483); (0x81, Return (process_474 None)); (0x82, Return process_440); (0x83, Return process_440)].

Definition epg_start (SId subType theDay : Z) (e : EpgDecoder) : EpgDecoder :=
  mkEpg SId (replicate 20 (q_fromUtf8 [32])) subType theDay (epg_events e).

Definition process_epg (v : list Z) (e_length SId subType theDay : Z) (e : EpgDecoder) : run (Z * EpgDecoder) :=
  tag ← rget v 0;
  _ ← rget v 1;
  let e := epg_start SId subType theDay e in
  if negb (tag =? EPG_TAG) && negb (tag =? SERVICE_TAG) then Done (e_length, e)
  else
    h ← epg_header v 0;
    let endPoint := fst h + snd h in
    if tag =? EPG_TAG then
      r ← nodes (loop_fuel v) (select (epg_cases v) leave) v endPoint (fst h) (e, None);
      Done (endPoint, fst (snd r))
    else
      tag ← rget v (fst h);
      match select service_cases leave tag with
      | Next h' | Return h' => r ← h' v (fst h) (e, None); Done (endPoint, fst (snd r))
      end.
End decoder.
