(* ===== verification/EpgProperties.v ===== *)
(** * What the programme guide decoder finds in an object

    The first part gives every element a compositional meaning: [handles h b f]
    says that the method [h] reads the bytes [b] wherever they stand and does
    [f] to the state.  From it follows what a schedule with its token table
    leads to: one entry for every programme of the day.  The second part shows
    that the decoder ends on every input without the byte 0x2F, and that it
    does not end on one with it. *)
From S2P Require Import Prelude BitExtractors BitFields Checked EpgDecoder.
Open Scope Z_scope.

(** ** Elements on air *)
Definition enc_len (n : Z) : list Z :=
  if n <? 254 then [n]
  else if n <? 65536 then [254; n / 256; n mod 256]
  else [255; n / 65536; n / 256 mod 256; n mod 256].

Definition tlv (tag : Z) (body : list Z) : list Z := tag :: enc_len (zlen body) ++ body.

Definition head_size (body : list Z) : Z := 1 + zlen (enc_len (zlen body)).

Section handling.
Context {Q : Type} `{QString Q}.

Lemma rget_pre pre l i : 0 <= i -> rget (pre ++ l) (zlen pre + i) = rget l i.
Proof. intros. unfold rget. by rewrite get_app_r. Qed.

Lemma rget_0 x l : rget (x :: l) 0 = Done x.
Proof. unfold rget. rewrite get_Some; [done|]. rewrite zlen_cons. pose proof (zlen_nonneg l). lia. Qed.

Lemma rget_cons x l i : 0 < i -> rget (x :: l) i = rget l (i - 1).
Proof.
  intros Hi. unfold rget. pose proof (get_app_r [x] l (i - 1) ltac:(lia)) as E. change (zlen [x]) with 1 in E.
  replace (1 + (i - 1)) with i in E by lia. cbn [app] in E. by rewrite E.
Qed.

Ltac rgets := repeat (rewrite rget_pre by lia);
  repeat first [rewrite rget_0; cbn [mbind run_bind] | rewrite rget_cons by lia; cbn [Z.sub Z.opp Z.add Z.pos_sub Pos.pred_double]].

Lemma header_tlv tag body pre post :
  zlen body < 2 ^ 24 ->
  epg_header (pre ++ tlv tag body ++ post) (zlen pre) = Done (zlen pre + head_size body, zlen body).
Proof.
  intros Hb. pose proof (zlen_nonneg body). unfold epg_header, tlv, head_size, enc_len.
  destruct (Z.ltb_spec (zlen body) 254) as [H1|H1]; [|destruct (Z.ltb_spec (zlen body) 65536) as [H2|H2]]; cbn [app]; rgets.
  - destruct (Z.eqb_spec (zlen body) 254); [lia|]. destruct (Z.eqb_spec (zlen body) 255); [lia|]. done.
  - change (254 =? 254) with true. cbv iota. rgets. f_equal. f_equal. rewrite Z.shiftl_mul_pow2, lor_add_disjoint by (lia || apply Z.mod_pos_bound; lia).
    change (2 ^ 8) with 256. pose proof (Z.div_mod (zlen body) 256). lia.
  - change (255 =? 254) with false. change (255 =? 255) with true. cbv iota. rgets. f_equal. f_equal.
    set (n := zlen body) in *. pose proof (Z.div_mod n 256 ltac:(lia)). pose proof (Z.div_mod (n / 256) 256 ltac:(lia)).
    assert (n / 65536 = n / 256 / 256) as -> by (by rewrite Z.div_div).
    pose proof (Z.mod_pos_bound n 256). pose proof (Z.mod_pos_bound (n / 256) 256).
    rewrite !Z.shiftl_mul_pow2, (lor_add_disjoint 16) by lia.
    replace (n / 256 / 256 * 2 ^ 16 + n / 256 mod 256 * 2 ^ 8) with (n / 256 * 2 ^ 8) by lia. rewrite lor_add_disjoint by lia. lia.
Qed.

(** ** What a method does with its bytes *)
Definition handles (h : handler (Q := Q)) (b : list Z) (f : epg_state (Q := Q) -> epg_state (Q := Q)) : Prop :=
  forall pre post st, h (pre ++ b ++ post) (zlen pre) st = Done (zlen pre + zlen b, f st).

Lemma zlen_tlv tag body : zlen (tlv tag body) = head_size body + zlen body.
Proof. unfold tlv, head_size. rewrite zlen_cons, zlen_app. lia. Qed.

Lemma head_size_pos body : 2 <= head_size body.
Proof. unfold head_size, enc_len. repeat case_match; rewrite ?zlen_cons; change (zlen (@nil Z)) with 0; lia. Qed.

Lemma handles_skip tag body : zlen body < 2 ^ 24 -> handles skip (tlv tag body) id.
Proof. intros Hb pre post st. unfold skip. rewrite header_tlv by done. cbn [mbind run_bind fst snd]. rewrite zlen_tlv. f_equal. f_equal. lia. Qed.

(** The content stands behind the header. *)
Lemma tlv_split tag body pre post :
  exists pre', pre ++ tlv tag body ++ post = pre' ++ body ++ post /\ zlen pre' = zlen pre + head_size body.
Proof.
  exists (pre ++ tag :: enc_len (zlen body)). unfold tlv. split; [rewrite <- app_assoc; cbn [app]; by rewrite <- app_assoc|].
  unfold head_size. rewrite zlen_app, zlen_cons. lia.
Qed.

(** A child: its bytes, which start with its tag, and what it does. *)
Record child := mk_child { ch_bytes : list Z; ch_do : epg_state (Q := Q) -> epg_state (Q := Q) }.

Definition child_ok (cases : Z -> action (Q := Q)) (c : child) : Prop :=
  exists tag l h, ch_bytes c = tag :: l /\ cases tag = Next h /\ handles h (ch_bytes c) (ch_do c).

Definition children_bytes (cs : list child) : list Z := concat (map ch_bytes cs).
Definition children_do (cs : list child) (st : epg_state (Q := Q)) : epg_state (Q := Q) := foldl (fun st c => ch_do c st) st cs.

Lemma nodes_children cases cs fuel pre post st :
  Forall (child_ok cases) cs -> (length cs < fuel)%nat ->
  nodes fuel cases (pre ++ children_bytes cs ++ post) (zlen pre + zlen (children_bytes cs)) (zlen pre) st =
  Done (true, children_do cs st).
Proof.
  revert fuel pre st. induction cs as [|c cs IH]; intros [|fuel] pre st Hcs Hf; cbn [length] in Hf; try lia; cbn [nodes].
  - unfold children_bytes. cbn [map concat]. change (zlen (@nil Z)) with 0. by rewrite Z.add_0_r, Z.ltb_irrefl.
  - apply Forall_cons_1 in Hcs as [(tag & l & h & Eb & Ec & Hh) Hcs]. unfold children_bytes in *. cbn [map concat].
    rewrite zlen_app. pose proof (zlen_nonneg (concat (map ch_bytes cs))). pose proof (zlen_nonneg l).
    assert (zlen (ch_bytes c) = 1 + zlen l) as Hl by (by rewrite Eb, zlen_cons).
    destruct (Z.ltb_spec (zlen pre) (zlen pre + (zlen (ch_bytes c) + zlen (concat (map ch_bytes cs))))) as [_|?]; [|lia].
    rewrite <- app_assoc. assert (rget (pre ++ ch_bytes c ++ concat (map ch_bytes cs) ++ post) (zlen pre) = Done tag) as ->.
    { pose proof (rget_pre pre (ch_bytes c ++ concat (map ch_bytes cs) ++ post) 0 ltac:(lia)) as E. rewrite Z.add_0_r in E. rewrite E, Eb. apply rget_0. }
    cbn [mbind run_bind]. rewrite Ec, Hh. cbn [mbind run_bind fst snd].
    replace (zlen pre + (zlen (ch_bytes c) + zlen (concat (map ch_bytes cs)))) with (zlen (pre ++ ch_bytes c) + zlen (concat (map ch_bytes cs)))
      by (rewrite zlen_app; lia).
    rewrite (app_assoc pre), <- (zlen_app pre (ch_bytes c)). apply (IH fuel (pre ++ ch_bytes c) (ch_do c st)); [done|lia].
Qed.

Lemma children_length cases cs : Forall (child_ok cases) cs -> Z.of_nat (length cs) <= zlen (children_bytes cs).
Proof.
  induction 1 as [|c cs (tag & l & h & Eb & _) Hcs IH]; [done|]. unfold children_bytes in *. cbn [map concat length].
  rewrite zlen_app, Eb, zlen_cons. pose proof (zlen_nonneg l). lia.
Qed.

Lemma element_loop tag cases cs pre post st :
  Forall (child_ok cases) cs -> zlen (children_bytes cs) < 2 ^ 24 ->
  let v := pre ++ tlv tag (children_bytes cs) ++ post in
  exists i, epg_header v (zlen pre) = Done (i, zlen (children_bytes cs)) /\
    i + zlen (children_bytes cs) = zlen pre + zlen (tlv tag (children_bytes cs)) /\
    nodes (loop_fuel v) cases v (i + zlen (children_bytes cs)) i st = Done (true, children_do cs st).
Proof.
  intros Hcs Hz v. exists (zlen pre + head_size (children_bytes cs)). split; [by apply header_tlv|]. split; [rewrite zlen_tlv; lia|].
  destruct (tlv_split tag (children_bytes cs) pre post) as (pre' & E & Hp). subst v. rewrite E, <- Hp. apply nodes_children; [done|].
  apply children_length in Hcs. unfold loop_fuel, zlen in *. rewrite !length_app. lia.
Qed.

Lemma handles_element tag cases cs :
  Forall (child_ok (select cases leave)) cs -> zlen (children_bytes cs) < 2 ^ 24 ->
  handles (element cases) (tlv tag (children_bytes cs)) (children_do cs).
Proof.
  intros Hcs Hz pre post st. unfold element. destruct (element_loop tag _ cs pre post st Hcs Hz) as (i & -> & Ei & En).
  cbn [mbind run_bind fst snd]. rewrite En, Ei. done.
Qed.

(** The tag. *)
Lemma rget_start tag body pre post : rget (pre ++ tlv tag body ++ post) (zlen pre) = Done tag.
Proof.
  pose proof (rget_pre pre (tlv tag body ++ post) 0 ltac:(lia)) as E. rewrite Z.add_0_r in E. rewrite E. apply rget_0.
Qed.

(** ** Text *)
Lemma rgetn_at l pre post : rgetn (length l) (pre ++ l ++ post) (zlen pre) = Done l.
Proof.
  revert pre. induction l as [|b l IH]; intros pre; [done|]. cbn [length rgetn app].
  pose proof (rget_pre pre (b :: l ++ post) 0 ltac:(lia)) as E. rewrite Z.add_0_r in E. rewrite E, rget_0. cbn [mbind run_bind].
  specialize (IH (pre ++ [b])). rewrite zlen_app, <- app_assoc in IH. cbn [app] in IH. change (zlen [b]) with 1 in IH. by rewrite IH.
Qed.

Lemma rgetn_content body pre post : rgetn (Z.to_nat (zlen body)) (pre ++ body ++ post) (zlen pre) = Done body.
Proof. unfold zlen at 1. rewrite Nat2Z.id. apply rgetn_at. Qed.

(** The text that [text] stands for: tokens are looked up, a text of one byte
    has to be a token. *)
Definition text_value (tab : list Q) (text : list Z) : Q :=
  match text with
  | [b] => if b <? 16 then default q_empty (tab !! Z.to_nat b) else q_empty
  | _ => q_fromUtf8 (c_string (flat_map (expand_token tab) text ++ [0]))
  end.

Lemma getCData_text text pre post e :
  zlen text < 2 ^ 24 -> getCData (pre ++ tlv 1 text ++ post) (zlen pre) e = Done (text_value (stringTable e) text).
Proof.
  intros Hz. unfold getCData. pose proof (header_tlv 1 text pre post Hz) as Hh.
  destruct (tlv_split 1 text pre post) as (pre' & Ev & Hp).
  rewrite rget_start.
  cbn [mbind run_bind]. change (negb (1 =? 1)) with false. cbv iota.
  assert (exists l, rget (pre ++ tlv 1 text ++ post) (zlen pre + 1) = Done l /\ (l =? 1) = (zlen text =? 1)) as (l & -> & El).
  { unfold tlv, enc_len. repeat case_match; cbn [app]; rgets; eexists; (split; [done|]); lia. }
  cbn [mbind run_bind]. rewrite El. destruct text as [|b [|b2 text]].
  - change (zlen [] =? 1) with false. cbv iota. rewrite Hh. cbn [mbind run_bind fst snd]. rewrite Ev, <- Hp, rgetn_content. done.
  - change (zlen [b] =? 1) with true. cbv iota. unfold tlv, enc_len. change (zlen [b] <? 254) with true. cbn [app]. rgets. done.
  - assert ((zlen (b :: b2 :: text) =? 1) = false) as -> by (rewrite !zlen_cons; pose proof (zlen_nonneg text); lia).
    rewrite Hh. cbn [mbind run_bind fst snd]. rewrite Ev, <- Hp, rgetn_content. done.
Qed.

(** A text element with its character data. *)
Definition text_do (set : Q -> progDesc -> progDesc) (text : list Z) (st : epg_state (Q := Q)) : epg_state (Q := Q) :=
  on_desc (set (text_value (stringTable (fst st)) text)) st.

Lemma handles_text set tag text :
  zlen text < 2 ^ 23 -> handles (text_element set) (tlv tag (tlv 1 text)) (text_do set text).
Proof.
  intros Hz pre post st. pose proof (head_size_pos text) as Hhs. pose proof (zlen_nonneg text).
  assert (zlen (tlv 1 text) < 2 ^ 24) as Hz2.
  { rewrite zlen_tlv. unfold head_size, enc_len. repeat case_match; rewrite ?zlen_cons; change (zlen (@nil Z)) with 0; lia. }
  unfold text_element, unless_null, text_do, on_desc. destruct st as [e [p|]]; cbn [fst snd fmap option_fmap option_map].
  2: by rewrite (handles_skip tag (tlv 1 text) Hz2 pre post (e, None)).
  rewrite header_tlv by done. cbn [mbind run_bind fst snd].
  destruct (tlv_split tag (tlv 1 text) pre post) as (pre' & Ev & Hp). rewrite Ev, <- Hp.
  unfold loop_fuel. cbn [nodes]. rewrite zlen_tlv. destruct (Z.ltb_spec (zlen pre') (zlen pre' + (head_size text + zlen text))) as [_|?]; [|lia].
  rewrite rget_start.
  cbn [mbind run_bind]. change (select _ _ 1) with (Return (fun v index (st : epg_state (Q := Q)) => q ← getCData v index (fst st); Done (index, on_desc (set q) st))).
  cbv iota beta. rewrite getCData_text by lia. cbn [mbind run_bind fst snd]. do 2 f_equal. rewrite !zlen_tlv in *. lia.
Qed.

(** ** Tokens *)
Definition token_do (tag : Z) (text : list Z) (st : epg_state (Q := Q)) : epg_state (Q := Q) :=
  (set_string tag (q_fromUtf8 (c_string (text ++ [0]))) (fst st), snd st).

Lemma handles_token tag text : 0 <= tag <= 16 -> zlen text < 2 ^ 24 -> handles process_token (tlv tag text) (token_do tag text).
Proof.
  intros Ht Hz pre post st. unfold process_token.
  rewrite rget_start.
  cbn [mbind run_bind]. rewrite header_tlv by done. cbn [mbind run_bind fst snd].
  destruct (tlv_split tag text pre post) as (pre' & Ev & Hp). rewrite Ev, <- Hp, rgetn_content. cbn [mbind run_bind].
  assert ((tag <=? 16) = true) as -> by lia. unfold token_do. do 2 f_equal. rewrite zlen_tlv. lia.
Qed.

(** ** Time points *)
Lemma getBit_at tb pre post n :
  Forall is_byte tb -> 0 <= n < 8 * zlen tb ->
  epg_getBit (pre ++ tb ++ post) (8 * zlen pre + n) = Done (rd (unpack_bits tb) n).
Proof.
  intros Hb Hn. unfold epg_getBit. rewrite (Z.mul_comm 8), Z.div_add_l, (Z.add_comm (zlen pre * 8)), Z.mod_add by lia.
  pose proof (Z.div_mod n 8 ltac:(lia)) as E. pose proof (Z.mod_pos_bound n 8 ltac:(lia)) as Hm.
  assert (0 <= n / 8 < zlen tb) as Hi by (split; [apply Z.div_pos; lia|apply Z.div_lt_upper_bound; lia]).
  rewrite rget_pre by lia. unfold rget. rewrite get_app_l, get_Some by lia. cbn [mbind run_bind]. f_equal.
  rewrite E at 3. rewrite rd_unpack by lia. pose proof (rd_Forall is_byte tb (n / 8) is_byte_0 Hb) as Hr.
  revert Hr Hm. generalize (rd tb (n / 8)) as b, (n mod 8) as k. intros b k Hr Hm.
  assert (forallb (fun b => forallb (fun k => (if Z.land b (Z.shiftr 0x80 k) =? 0 then 0 else 1) =? rd (byte_bits b) k) (seqZ 0 8)) (seqZ 0 256) = true)
    as Hf by (vm_compute; reflexivity).
  pose proof (forall_range _ _ (forall_range _ _ Hf b Hr) k Hm) as Ek. by apply Z.eqb_eq in Ek.
Qed.

Lemma field_front d off n : 0 <= n -> field d off (n + 1) = rd d off * 2 ^ n + field d (off + 1) n.
Proof.
  intros Hn. rewrite Z.add_comm, field_split by lia. change 1 with (0 + 1) at 1. rewrite field_succ, field_0 by lia.
  rewrite Z.add_0_r. lia.
Qed.

Lemma getBits_loop_at tb pre post k n res :
  Forall is_byte tb -> 0 <= n -> n + Z.of_nat k <= 8 * zlen tb -> 0 <= res < 2 ^ 16 ->
  epg_getBits_loop k (pre ++ tb ++ post) (8 * zlen pre + n) res =
  Done (uwrap 16 (res * 2 ^ Z.of_nat k + field (unpack_bits tb) n (Z.of_nat k))).
Proof.
  intros Hb. revert n res. induction k as [|k IH]; intros n res Hn Hk Hres; cbn [epg_getBits_loop].
  - rewrite field_0 by lia. change (2 ^ Z.of_nat 0) with 1. by rewrite Z.mul_1_r, Z.add_0_r, uwrap_small.
  - rewrite getBit_at by (done || lia). cbn [mbind run_bind]. rewrite <- Z.add_assoc.
    assert (is_bit (rd (unpack_bits tb) n)) as Hbit by (apply rd_Forall; [apply is_bit_0|apply unpack_bits_bit]).
    assert (Z.lor (u16 (Z.shiftl res 1)) (rd (unpack_bits tb) n) = uwrap 16 (res * 2 + rd (unpack_bits tb) n)) as ->.
    { rewrite Z.shiftl_mul_pow2 by lia. change (2 ^ 1) with 2. unfold uwrap.
      replace (2 ^ 16) with (2 * 2 ^ 15) by lia. rewrite (Z.mul_comm res), Z.mul_mod_distr_l by lia.
      replace (2 * (res mod 2 ^ 15)) with (res mod 2 ^ 15 * 2 ^ 1) by lia. rewrite lor_add_disjoint by (unfold is_bit in Hbit; lia).
      apply (Z.mod_unique_pos _ _ (res / 2 ^ 15)).
      - pose proof (Z.mod_pos_bound res (2 ^ 15)). unfold is_bit in Hbit. lia.
      - pose proof (Z.div_mod res (2 ^ 15)). lia. }
    rewrite IH; [|lia|lia|apply (uwrap_range 16); lia]. f_equal. unfold uwrap.
    rewrite <- (Z.add_mod_idemp_l (_ * _)), Z.mul_mod_idemp_l, Z.add_mod_idemp_l by lia. f_equal.
    replace (Z.of_nat (S k)) with (Z.of_nat k + 1) by lia. rewrite field_front, Z.pow_add_r by lia. lia.
Qed.

Lemma getBits_at tb pre post n k :
  Forall is_byte tb -> 0 <= n -> 0 <= k -> n + k <= 8 * zlen tb -> field (unpack_bits tb) n k < 2 ^ 16 ->
  epg_getBits (pre ++ tb ++ post) (8 * zlen pre + n) k = Done (field (unpack_bits tb) n k).
Proof.
  intros Hb Hn Hk Hl Hf. unfold epg_getBits. rewrite getBits_loop_at by (done || lia). rewrite Z2Nat.id by done. f_equal.
  rewrite uwrap_small; [lia|]. split; [|lia]. apply Z.add_nonneg_nonneg; [lia|]. apply field_range; [lia|apply unpack_bits_bit].
Qed.

(** A time point without local time offset; [at_rest] are the seconds. *)
Record air_time := mk_time {
  at_date : Z; at_hours : Z; at_minutes : Z; at_utc : Z; at_rfa : Z; at_rfu : Z; at_rest : list Z; at_bytes : list Z
}.

Record time_ok (t : air_time) : Prop := {
  tok_bytes : Forall is_byte (at_bytes t) /\ zlen (at_bytes t) < 2 ^ 20;
  tok_bits : unpack_bits (at_bytes t) =
    msb 1 (at_rfa t) ++ msb 17 (at_date t) ++ msb 1 (at_rfu t) ++ msb 1 0 ++ msb 1 (at_utc t) ++
    msb 5 (at_hours t) ++ msb 6 (at_minutes t) ++ at_rest t;
  tok_ranges : 0 <= at_date t < 65536 /\ 0 <= at_hours t < 32 /\ 0 <= at_minutes t < 64 /\ is_bit (at_utc t)
}.

Definition time_value (today : Z) (t : air_time) : Z :=
  if today =? at_date t then at_hours t * 60 + at_minutes t else -1.

Lemma time_point_at today t pre post :
  time_ok t -> time_point today (pre ++ at_bytes t ++ post) (zlen pre) = Done (time_value today t).
Proof.
  intros [[Hb _] Ebits (Hd & Hh & Hm & Hu)]. pose proof (f_equal zlen Ebits) as Hl.
  rewrite zlen_unpack, !zlen_app, !zlen_msb in Hl by lia. pose proof (zlen_nonneg (at_rest t)).
  assert (field (unpack_bits (at_bytes t)) 1 17 = at_date t) as E1 by (rewrite Ebits; flds).
  assert (field (unpack_bits (at_bytes t)) 21 5 = at_hours t) as E2 by (rewrite Ebits; flds).
  assert (field (unpack_bits (at_bytes t)) 26 6 = at_minutes t) as E3 by (rewrite Ebits; flds).
  assert (rd (unpack_bits (at_bytes t)) 19 = 0) as E4.
  { rewrite Ebits. do 3 (rewrite rd_app_r by (rewrite zlen_msb; lia); rewrite zlen_msb by lia). done. }
  unfold time_point, time_value. rewrite (getBits_at _ _ _ 1 17), E1 by (done || lia). cbn [mbind run_bind].
  destruct (today =? at_date t); cbn [negb]; [|done].
  rewrite (getBit_at _ _ _ 19), E4 by (done || lia). cbn [mbind run_bind].
  rewrite (getBit_at _ _ _ 20) by (done || lia). cbn [mbind run_bind].
  rewrite (getBits_at _ _ _ 21 5), E2 by (done || lia). cbn [mbind run_bind].
  rewrite (getBits_at _ _ _ 26 6), E3 by (done || lia). done.
Qed.

Lemma handles_time set tag t :
  time_ok t -> handles (process_474 (Some set)) (tlv tag (at_bytes t))
    (fun st => (fst st, set (time_value (julianDate (fst st)) t) (snd st))).
Proof.
  intros Ht pre post st. pose proof (proj2 (tok_bytes _ Ht)) as Hz. unfold process_474. rewrite header_tlv by lia. cbn [mbind run_bind fst snd].
  destruct (tlv_split tag (at_bytes t) pre post) as (pre' & -> & E). rewrite <- E, time_point_at by done. cbn [mbind run_bind].
  do 2 f_equal. rewrite zlen_tlv. lia.
Qed.

(** ** Programmes *)
Inductive name_kind := ShortName | MediumName | LongName.

Inductive item :=
  | IName (k : name_kind) (text : list Z)
  | IDescr (text : list Z)                 (* media description, short *)
  | ITime (t : air_time)                   (* location, time *)
  | IAttr (tag : Z) (body : list Z).       (* something that is passed over *)

Definition name_tag (k : name_kind) : Z := match k with ShortName => 0x10 | MediumName => 0x11 | LongName => 0x12 end.
Definition name_set (k : name_kind) : Q -> progDesc -> progDesc :=
  match k with ShortName => set_shortName | MediumName => set_mediumName | LongName => set_longName end.

Definition attr_tags : list Z := [0x16; 0x80; 0x81; 0x83; 0x84; 0x86].

Definition enc_item (i : item) : list Z :=
  match i with
  | IName k text => tlv (name_tag k) (tlv 0x01 text)
  | IDescr text => tlv 0x13 (tlv 0x1A (tlv 0x01 text))
  | ITime t => tlv 0x19 (tlv 0x2C (tlv 0x80 (at_bytes t)))
  | IAttr tag body => tlv tag body
  end.

Definition item_ok (i : item) : Prop :=
  match i with
  | IName _ text | IDescr text => zlen text < 2 ^ 20
  | ITime t => time_ok t
  | IAttr tag body => In tag attr_tags /\ zlen body < 2 ^ 24
  end.

(** What an item says of the programme. *)
Definition item_desc (tab : list Q) (today : Z) (p : progDesc) (i : item) : progDesc :=
  match i with
  | IName k text => name_set k (text_value tab text) p
  | IDescr text => set_shortDescription (text_value tab text) p
  | ITime t => set_startTime (time_value today t) p
  | IAttr _ _ => p
  end.

Definition item_do (i : item) (st : epg_state (Q := Q)) : epg_state (Q := Q) :=
  on_desc (fun p => item_desc (stringTable (fst st)) (julianDate (fst st)) p i) st.

Lemma zlen_tlv_bound tag body n : zlen body < n -> zlen (tlv tag body) < n + 5.
Proof.
  intros Hb. rewrite zlen_tlv. unfold head_size, enc_len. repeat case_match; rewrite ?zlen_cons; change (zlen (@nil Z)) with 0; lia.
Qed.

Lemma handles_ext h b f g : handles h b f -> (forall st, f st = g st) -> handles h b g.
Proof. intros Hh E pre post st. by rewrite Hh, E. Qed.

Lemma child_single cases tag body h f :
  cases tag = Next h -> handles h (tlv tag body) f -> child_ok cases (mk_child (tlv tag body) f).
Proof. intros Ec Hh. by exists tag, (enc_len (zlen body) ++ body), h. Qed.

(** An element with one child. *)
Lemma handles_one tag cases tag1 body f h :
  select cases leave tag1 = Next h -> handles h (tlv tag1 body) f -> zlen (tlv tag1 body) < 2 ^ 24 ->
  handles (element cases) (tlv tag (tlv tag1 body)) f.
Proof.
  intros Ec Hh Hz. pose proof (handles_element tag cases [mk_child (tlv tag1 body) f]) as Hc.
  unfold children_bytes, children_do in Hc. cbn [map concat ch_bytes foldl ch_do] in Hc. rewrite app_nil_r in Hc.
  apply Hc; [|done]. constructor; [|constructor]. by eapply child_single.
Qed.

Lemma handles_unless h b f :
  handles h b f -> handles skip b id -> (forall e, f (e, None) = (e, None)) -> handles (unless_null h) b f.
Proof.
  intros Hh Hs Hn pre post [e [p|]]; unfold unless_null; cbn [snd]; [apply Hh|]. by rewrite Hs, Hn.
Qed.

Lemma handles_item i :
  item_ok i -> exists tag body h,
    enc_item i = tlv tag body /\ handles h (enc_item i) (item_do i) /\ In (tag, Next h)
    [(0x10, Next process_shortName); (0x11, Next process_mediumName); (0x12, Next process_longName);
     (0x13, Next process_mediaDescription); (0x16, Next process_keyWords); (0x19, Next process_location);
     (0x80, Next process_471); (0x81, Next process_472); (0x83, Next process_46); (0x84, Next process_46); (0x86, Next process_481)].
Proof.
  intros Hi. destruct i as [k text|text|t|tag body]; cbn [item_ok enc_item] in *.
  - exists (name_tag k), (tlv 1 text), (text_element (name_set k)). split; [done|]. split.
    + eapply handles_ext; [apply handles_text; lia|done].
    + destruct k; cbn; tauto.
  - exists 0x13, (tlv 0x1A (tlv 1 text)), process_mediaDescription. split; [done|]. split; [|cbn; tauto].
    eapply handles_ext; [eapply handles_one; [reflexivity|apply handles_text; lia|]|done].
    pose proof (zlen_tlv_bound 1 text (2 ^ 20) Hi) as H1. pose proof (zlen_tlv_bound 0x1A _ _ H1). lia.
  - exists 0x19, (tlv 0x2C (tlv 0x80 (at_bytes t))), process_location. split; [done|]. split; [|cbn; tauto].
    pose proof (zlen_tlv_bound 0x80 (at_bytes t) (2 ^ 20) (proj2 (tok_bytes _ Hi))) as H1. pose proof (zlen_tlv_bound 0x2C _ _ H1) as H2.
    eapply handles_ext; [apply handles_unless|].
    + eapply handles_one; [reflexivity|eapply handles_one; [reflexivity|by apply handles_time|lia]|lia].
    + apply handles_skip. lia.
    + done.
    + done.
  - destruct Hi as [Ht Hz]. exists tag, body. pose proof (handles_skip tag body Hz) as Hs.
    assert (handles skip (tlv tag body) (item_do (IAttr tag body))) as Hd.
    { eapply handles_ext; [done|]. intros [e [p|]]; done. }
    repeat (destruct Ht as [<-|Ht]; [eexists; split; [done|]; split; [exact Hd|cbn; tauto]|]). destruct Ht.
Qed.

Definition item_child (i : item) : child := mk_child (enc_item i) (item_do i).

Lemma item_children_do items e p :
  children_do (map item_child items) (e, Some p) = (e, Some (foldl (item_desc (stringTable e) (julianDate e)) p items)).
Proof. revert p. induction items as [|i items IH]; intros p; [done|]. apply IH. Qed.

(** The description a programme leads to, and the entry, if there is one. *)
Definition programme_desc (tab : list Q) (today : Z) (items : list item) : progDesc := foldl (item_desc tab today) progDesc_new items.

Definition programme_event (SId : Z) (tab : list Q) (today : Z) (items : list item) : option epg_event :=
  let p := programme_desc tab today items in
  if (startTime p =? -1) || (q_isEmpty (mediumName p) && q_isEmpty (shortName p) && q_isEmpty (longName p)) then None
  else Some (signal_set_epg_data SId (startTime p)
    (if negb (q_isEmpty (longName p)) then longName p else if negb (q_isEmpty (mediumName p)) then mediumName p else shortName p)
    (shortDescription p)).

Definition enc_programme (items : list item) : list Z := tlv 0x1C (concat (map enc_item items)).

Definition programme_ok (items : list item) : Prop := Forall item_ok items /\ zlen (concat (map enc_item items)) < 2 ^ 24.

Definition emit_option (ev : option epg_event) (e : EpgDecoder (Q := Q)) : EpgDecoder (Q := Q) :=
  match ev with Some ev => epg_emit ev e | None => e end.

Definition programme_do (items : list item) (e : EpgDecoder (Q := Q)) : EpgDecoder (Q := Q) :=
  emit_option (programme_event (epg_SId e) (stringTable e) (julianDate e) items) e.

Lemma handles_programme items :
  programme_ok items -> handles process_program (enc_programme items) (fun st => (programme_do items (fst st), snd st)).
Proof.
  intros [Hi Hz] pre post st. unfold enc_programme.
  assert (concat (map enc_item items) = children_bytes (map item_child items)) as Eb by (unfold children_bytes; by rewrite map_map).
  rewrite Eb in *. unfold process_program, recorded_element.
  match goal with |- context[select ?c leave] => set (cases := c) end.
  assert (Forall (child_ok (select cases leave)) (map item_child items)) as Hc.
  { apply Forall_map. eapply Forall_impl; [|exact Hi]. intros i Hio. destruct (handles_item i Hio) as (tag & body & h & E & Hh & Hin).
    exists tag, (enc_len (zlen body) ++ body), h. split; [exact E|]. split; [|exact Hh]. clear - Hin.
    cbn in Hin. repeat (destruct Hin as [[= <- <-]|Hin]; [reflexivity|]). destruct Hin. }
  destruct (element_loop 0x1C _ _ pre post (fst st, Some progDesc_new) Hc Hz) as (i & -> & Ei & En).
  cbn [mbind run_bind fst snd]. rewrite En, Ei. cbn [mbind run_bind]. rewrite item_children_do. do 2 f_equal. f_equal.
  unfold programme_do, programme_event, programme_desc, epg_record, emit_option.
  destruct (startTime _ =? -1); [done|]. cbn [orb]. by destruct (_ && _).
Qed.

(** ** The object *)
Definition enc_schedule (progs : list (list item)) : list Z := tlv 0x21 (concat (map enc_programme progs)).

Lemma handles_schedule progs :
  Forall programme_ok progs -> zlen (concat (map enc_programme progs)) < 2 ^ 24 ->
  handles process_schedule (enc_schedule progs) (fun st => (foldl (fun e items => programme_do items e) (fst st) progs, snd st)).
Proof.
  intros Hp Hz pre post st. unfold enc_schedule, process_schedule.
  set (cs := map (fun items => mk_child (enc_programme items) (fun st => (programme_do items (fst st), snd st))) progs).
  assert (concat (map enc_programme progs) = children_bytes cs) as Eb by (unfold children_bytes, cs; by rewrite map_map).
  rewrite Eb in *. rewrite handles_element; [|..|done].
  - cbn [mbind run_bind fst snd]. do 2 f_equal. f_equal. unfold children_do, cs. generalize (fst st) as e, (Some (progDesc_new (Q := Q))) as o.
    clear. intros e o. revert e. induction progs as [|items progs IH]; intros e; [done|]. apply IH.
  - apply Forall_map. eapply Forall_impl; [|exact Hp]. intros items Ho. eapply child_single; [reflexivity|]. by apply handles_programme.
Qed.

Definition enc_tokens (toks : list (Z * list Z)) : list Z := tlv 0x04 (concat (map (fun t => tlv (fst t) (snd t)) toks)).
Definition token_ok (t : Z * list Z) : Prop := 0 <= fst t <= 16 /\ zlen (snd t) < 2 ^ 24.
Definition tokens_do (toks : list (Z * list Z)) (e : EpgDecoder (Q := Q)) : EpgDecoder (Q := Q) :=
  foldl (fun e t => set_string (fst t) (q_fromUtf8 (c_string (snd t ++ [0]))) e) e toks.

Lemma handles_tokens toks :
  Forall token_ok toks -> zlen (concat (map (fun t => tlv (fst t) (snd t)) toks)) < 2 ^ 24 ->
  handles process_tokenTable (enc_tokens toks) (fun st => (tokens_do toks (fst st), snd st)).
Proof.
  intros Ht Hz pre post st. unfold enc_tokens, process_tokenTable.
  set (cs := map (fun t => mk_child (tlv (fst t) (snd t)) (token_do (fst t) (snd t))) toks).
  assert (concat (map (fun t => tlv (fst t) (snd t)) toks) = children_bytes cs) as Eb by (unfold children_bytes, cs; by rewrite map_map).
  rewrite Eb in *. destruct (element_loop 0x04 (fun _ => Next process_token) cs pre post st) as (i & -> & Ei & En); [|done|].
  - apply Forall_map. eapply Forall_impl; [|exact Ht]. intros t [H1 H2]. eapply child_single; [reflexivity|]. by apply handles_token.
  - cbn [mbind run_bind fst snd]. rewrite En, Ei. cbn [mbind run_bind snd]. do 2 f_equal. unfold children_do, cs. clear.
    destruct st as [e p]. cbn [fst snd]. revert e. induction toks as [|t toks IH]; intros e; [done|]. apply IH.
Qed.

(** The token table of the object. *)
Definition token_table (toks : list (Z * list Z)) : list Q :=
  foldl (fun tab t => wr tab (fst t) (q_fromUtf8 (c_string (snd t ++ [0])))) (replicate 20 (q_fromUtf8 [32])) toks.

Lemma tokens_do_fields toks e :
  tokens_do toks e = mkEpg (epg_SId e) (foldl (fun tab t => wr tab (fst t) (q_fromUtf8 (c_string (snd t ++ [0])))) (stringTable e) toks)
    (epg_subType e) (julianDate e) (epg_events e).
Proof. unfold tokens_do. revert e. induction toks as [|t toks IH]; intros e; [by destruct e|]. cbn [foldl]. by rewrite IH. Qed.

Lemma programmes_do_fields progs e :
  foldl (fun e items => programme_do items e) e progs =
  mkEpg (epg_SId e) (stringTable e) (epg_subType e) (julianDate e)
    (epg_events e ++ omap (programme_event (epg_SId e) (stringTable e) (julianDate e)) progs).
Proof.
  revert e. induction progs as [|items progs IH]; intros e; [cbn; rewrite app_nil_r; by destruct e|]. cbn [foldl]. rewrite IH.
  unfold programme_do. cbn [omap list_omap]. destruct (programme_event _ _ _ items) as [ev|]; cbn [emit_option]; [|done].
  cbn. by rewrite <- app_assoc.
Qed.

Definition enc_epg (toks : list (Z * list Z)) (progs : list (list item)) : list Z :=
  tlv EPG_TAG (enc_tokens toks ++ enc_schedule progs).

Lemma process_epg_object toks progs post e_length SId subType day e :
  Forall token_ok toks -> Forall programme_ok progs -> zlen (enc_epg toks progs) < 2 ^ 24 ->
  process_epg (enc_epg toks progs ++ post) e_length SId subType day e =
  Done (zlen (enc_epg toks progs), mkEpg SId (token_table toks) subType day
    (epg_events e ++ omap (programme_event SId (token_table toks) day) progs)).
Proof.
  intros Ht Hp Hz. unfold enc_epg in *.
  assert (forall b tag, zlen b <= zlen (tlv tag b)) as Hle by (intros b tag; rewrite zlen_tlv; pose proof (head_size_pos b); lia).
  pose proof (Hle (enc_tokens toks ++ enc_schedule progs) EPG_TAG) as H1. rewrite zlen_app in H1.
  pose proof (Hle _ 0x04 : zlen (concat (map (fun t => tlv (fst t) (snd t)) toks)) <= zlen (enc_tokens toks)) as H2.
  pose proof (Hle _ 0x21 : zlen (concat (map enc_programme progs)) <= zlen (enc_schedule progs)) as H3.
  pose proof (zlen_nonneg (enc_tokens toks)). pose proof (zlen_nonneg (enc_schedule progs)).
  set (cs := [mk_child (enc_tokens toks) (fun st => (tokens_do toks (fst st), snd st));
              mk_child (enc_schedule progs) (fun st => (foldl (fun e items => programme_do items e) (fst st) progs, snd st))] : list child).
  assert (enc_tokens toks ++ enc_schedule progs = children_bytes cs) as Eb by (unfold children_bytes; cbn; by rewrite app_nil_r).
  rewrite Eb in *. set (v := tlv EPG_TAG (children_bytes cs) ++ post). unfold process_epg.
  pose proof (rget_start EPG_TAG (children_bytes cs) [] post) as Et. cbn [app] in Et. change (zlen []) with 0 in Et. fold v in Et. rewrite Et.
  cbn [mbind run_bind]. assert (exists l, rget v 1 = Done l) as (l & ->).
  { unfold v, tlv, enc_len. repeat case_match; cbn [app]; rgets; by eexists. }
  cbn [mbind run_bind]. change (negb (EPG_TAG =? EPG_TAG) && negb (EPG_TAG =? SERVICE_TAG)) with false. cbv iota.
  destruct (element_loop EPG_TAG (select (epg_cases v) leave) cs [] post (epg_start SId subType day e, None)) as (i & Eh & Ei & En).
  - constructor; [|constructor; [|constructor]].
    + eapply child_single; [reflexivity|]. apply handles_tokens; [done|lia].
    + eapply child_single; [reflexivity|]. apply handles_schedule; [done|lia].
  - pose proof (Hle (children_bytes cs) EPG_TAG). lia.
  - cbn [app] in Eh, En. change (zlen []) with 0 in Eh, Ei. fold v in Eh, En. rewrite Eh. cbn [mbind run_bind fst snd].
    change (EPG_TAG =? EPG_TAG) with true. cbv iota. rewrite En, Ei. cbn [mbind run_bind fst snd]. rewrite Z.add_0_l. do 2 f_equal.
    unfold children_do, cs. cbn [foldl ch_do fst snd]. rewrite programmes_do_fields, tokens_do_fields. done.
Qed.
(** *** What a guide announces
    The meaning of a token is the last text sent for it, and a blank without one. *)
Definition token_meaning (toks : list (Z * list Z)) (b : Z) : list Z := match list.last (filter (fun t => fst t = b) toks) with Some t => snd t | None => [32] end.
Definition plain_text (toks : list (Z * list Z)) (text : list Z) : list Z := flat_map (fun b => if b <? 16 then token_meaning toks b else [b]) text.

Definition name_text (k : name_kind) (i : item) : option (list Z) := match i with IName k' text => if decide (name_tag k = name_tag k') then Some text else None | _ => None end.
Definition descr_text (i : item) : option (list Z) := match i with IDescr text => Some text | _ => None end.
Definition time_of (i : item) : option air_time := match i with ITime t => Some t | _ => None end.

Definition last_text (toks : list (Z * list Z)) (which : item -> option (list Z)) (items : list item) : Q := q_fromUtf8 (default [] (plain_text toks <$> list.last (omap which items))).
Definition start_minute (day : Z) (items : list item) : option Z :=
  t ← list.last (omap time_of items); if at_date t =? day then Some (60 * at_hours t + at_minutes t) else None.

(** The entry of a programme: with a start on the day and a name, the longest. *)
Definition announced (SId : Z) (toks : list (Z * list Z)) (day : Z) (items : list item) : option epg_event :=
  start ← start_minute day items;
  name ← head (filter (fun q => q_isEmpty q = false) (map (fun k => last_text toks (name_text k) items) [LongName; MediumName; ShortName]));
  Some (signal_set_epg_data SId start name (last_text toks descr_text items)).

(** A character string survives the conversion there and back, and has no zero. *)
Definition kept (text : list Z) : Prop := q_toUtf8 (q_fromUtf8 text) = text /\ ~ In 0 text.
(** A text is not one single character: the decoder loses such a text. *)
Definition text_readable (text : list Z) : Prop := zlen text = 1 -> rd text 0 < 16.
Definition item_readable (i : item) : Prop :=
  match i with IName _ text | IDescr text => text_readable text /\ Forall is_byte text | _ => True end.

Lemma c_string_id l : ~ In 0 l -> c_string (l ++ [0]) = l /\ c_string l = l.
Proof.
  induction l as [|b l IH]; [done|]. intros Hn. cbn in Hn |- *. destruct (Z.eqb_spec b 0) as [->|]; [by destruct Hn; left|]. destruct IH as [-> ->]; [tauto|done].
Qed.

Lemma token_meaning_snoc toks t b : token_meaning (toks ++ [t]) b = if decide (fst t = b) then snd t else token_meaning toks b.
Proof. unfold token_meaning. rewrite list.filter_app, filter_cons, filter_nil. case_decide; [by rewrite last_snoc|by rewrite app_nil_r]. Qed.

Lemma token_kept toks b : kept [32] -> Forall (fun t => kept (snd t)) toks -> kept (token_meaning toks b).
Proof.
  intros Hb Ht. unfold token_meaning. destruct (list.last _) as [t|] eqn:E; [|done]. apply last_Some_elem_of in E. apply list_elem_of_filter in E as [_ E].
  rewrite List.Forall_forall in Ht. by apply Ht, list_elem_of_In.
Qed.

Lemma token_table_lookup toks b : Forall token_ok toks -> Forall (fun t => kept (snd t)) toks -> 0 <= b < 16 ->
  token_table toks !! Z.to_nat b = Some (q_fromUtf8 (token_meaning toks b)) /\ zlen (token_table toks) = 20.
Proof.
  intros Ht Hk Hb. induction toks as [|t toks IH] using rev_ind.
  - split; [|done]. unfold token_table. cbn [foldl]. apply lookup_replicate_2. lia.
  - apply Forall_app in Ht as [Ht [[Ht0 _] _]%Forall_cons_1]. apply Forall_app in Hk as [Hk [[_ Hz] _]%Forall_cons_1]. destruct (IH Ht Hk) as [E L]. clear IH.
    unfold token_table in *. rewrite foldl_snoc, token_meaning_snoc. set (tab := foldl _ _ toks) in *. split; [|by rewrite zlen_wr]. rewrite (proj1 (c_string_id _ Hz)).
    unfold wr. assert ((fst t <? 0) = false) as -> by lia. unfold zlen in L. case_decide as Hd.
    + subst b. apply list_lookup_insert_eq. lia.
    + rewrite list_lookup_insert_ne by lia. exact E.
Qed.

Lemma text_value_plain toks text : kept [32] -> Forall token_ok toks -> Forall (fun t => kept (snd t)) toks -> text_readable text -> Forall is_byte text ->
  text_value (token_table toks) text = q_fromUtf8 (plain_text toks text).
Proof.
  intros Hb Ht Hk Hr Hbytes.
  assert (forall b, is_byte b -> b < 16 -> token_table toks !! Z.to_nat b = Some (q_fromUtf8 (token_meaning toks b))) as Htab by (intros b [Hb0 _] Hb1; apply token_table_lookup; done || lia).
  assert (flat_map (expand_token (token_table toks)) text = plain_text toks text /\ ~ In 0 (plain_text toks text)) as [E Ez].
  { clear Hr. induction Hbytes as [|b text Hbb Hbytes [E Ez]]; [split; [done|intros []]|]. unfold plain_text in *. cbn [flat_map]. rewrite E, in_app_iff. unfold expand_token at 1.
    destruct (Z.ltb_spec b 16) as [Hlt|Hge].
    - rewrite (Htab b Hbb Hlt). destruct (token_kept toks b Hb Hk) as [-> Hz]. rewrite (proj2 (c_string_id _ Hz)). split; [done|tauto].
    - split; [done|]. cbn. intros [[->|[]]|?]; [lia|done]. }
  destruct text as [|b [|b2 text]]; cbn [text_value]; try by rewrite E, (proj1 (c_string_id _ Ez)).
  assert (b < 16) as Hlt by (by apply Hr). unfold plain_text. cbn [flat_map]. rewrite app_nil_r. apply Forall_cons_1 in Hbytes as [Hbb _].
  assert ((b <? 16) = true) as -> by lia. by rewrite (Htab b Hbb Hlt).
Qed.

Lemma start_minute_value day items : Forall item_ok items ->
  match start_minute day items with Some m => 0 <= m | None => True end.
Proof.
  intros Hi. unfold start_minute. destruct (list.last _) as [t|] eqn:E; [|done]. cbn [mbind option_bind]. destruct (at_date t =? day); [|done].
  apply last_Some_elem_of in E. apply list_elem_of_omap in E as (i & Hin & E). destruct i; try done. cbn in E. injection E as ->.
  rewrite List.Forall_forall in Hi. apply list_elem_of_In in Hin. destruct (tok_ranges _ (Hi _ Hin)) as (_ & Hh & Hm & _). lia.
Qed.

Lemma desc_fields toks day items : kept [32] -> Forall token_ok toks -> Forall (fun t => kept (snd t)) toks -> Forall item_ok items -> Forall item_readable items ->
  let p := programme_desc (token_table toks) day items in
  shortName p = last_text toks (name_text ShortName) items /\ mediumName p = last_text toks (name_text MediumName) items /\
  longName p = last_text toks (name_text LongName) items /\ shortDescription p = last_text toks descr_text items /\
  startTime p = default (-1) (start_minute day items).
Proof.
  intros Hb Ht Hk Hi Hr. induction items as [|i items IH] using rev_ind; [done|].
  apply Forall_app in Hi as [Hi [Hi1 _]%Forall_cons_1]. apply Forall_app in Hr as [Hr [Hr1 _]%Forall_cons_1]. specialize (IH Hi Hr).
  cbv zeta in *. unfold programme_desc in *. rewrite foldl_snoc. set (p := foldl _ _ items) in *. destruct IH as (E1 & E2 & E3 & E4 & E5).
  unfold last_text, start_minute in *. rewrite !omap_app. cbn [omap list_omap].
  destruct i as [k text|text|t|tag body]; cbn [name_text descr_text time_of item_desc item_readable] in *.
  - rewrite text_value_plain by tauto. destruct k; cbn [name_set name_tag]; repeat case_decide; try lia; rewrite ?app_nil_r, ?last_snoc; done.
  - rewrite text_value_plain by tauto. rewrite !app_nil_r, ?last_snoc. done.
  - rewrite !app_nil_r, ?last_snoc. repeat (split; [done|]). cbn. unfold time_value. rewrite (Z.eqb_sym day). case_match; cbn; [lia|done].
  - by rewrite !app_nil_r.
Qed.

Lemma programme_announced SId toks day items : kept [32] -> Forall token_ok toks -> Forall (fun t => kept (snd t)) toks -> Forall item_ok items -> Forall item_readable items ->
  programme_event SId (token_table toks) day items = announced SId toks day items.
Proof.
  intros Hb Ht Hk Hi Hr. destruct (desc_fields toks day items Hb Ht Hk Hi Hr) as (E1 & E2 & E3 & E4 & E5). unfold programme_event, announced. rewrite E1, E2, E3, E4, E5.
  pose proof (start_minute_value day items Hi) as Hm. destruct (start_minute day items) as [m|]; [|done]. cbn [default from_option id mbind option_bind map].
  assert ((m =? -1) = false) as -> by lia. rewrite !filter_cons, filter_nil. cbn [orb].
  destruct (q_isEmpty (last_text toks (name_text LongName) items)) eqn:EL, (q_isEmpty (last_text toks (name_text MediumName) items)) eqn:EM, (q_isEmpty (last_text toks (name_text ShortName) items)) eqn:ES; done.
Qed.

Lemma programmes_announced SId toks day progs : kept [32] -> Forall token_ok toks -> Forall (fun t => kept (snd t)) toks ->
  Forall (fun items => Forall item_ok items /\ Forall item_readable items) progs ->
  omap (programme_event SId (token_table toks) day) progs = omap (announced SId toks day) progs.
Proof.
  intros Hb Ht Hk Hp. induction Hp as [|items progs [Hi Hr] Hp IH]; [done|]. cbn [omap list_omap]. by rewrite IH, programme_announced.
Qed.
End handling.


(** Strings as byte lists, which is what they are for ASCII. *)
#[local] Instance byte_string : QString (list Z) := {
  q_fromUtf8 := fun l => l; q_toUtf8 := fun q => q; q_isEmpty := fun q => match q with [] => true | _ => false end
}.

Definition sample_epg_tokens : list (Z * list Z) := [(1, [78; 101; 119; 115])].

(** 60000 is 25 February 2023; 07:30, and the day before. *)
Definition sample_time (date h m : Z) : air_time :=
  let w := date * 2 ^ 14 + h * 2 ^ 6 + m in
  mk_time date h m 0 0 0 [] [w / 2 ^ 24; w / 2 ^ 16 mod 256; w / 2 ^ 8 mod 256; w mod 256].

Definition sample_programmes : list (list item) :=
  [[IAttr 0x81 [0; 0; 1]; IName ShortName [1]; IName LongName [84; 104; 101; 32; 1]; IDescr [97; 98]; ITime (sample_time 60000 7 30)];
   [IName ShortName [79; 108; 100]; ITime (sample_time 59999 7 30)]].


(** ** Termination *)
Section termination.
Context {Q : Type} `{QString Q} (v : list Z) (Hv : Forall is_byte v).

(** From the place [i0] on the method does not run out of passes, and leaves the
    index at least two bytes further. *)
Definition advances (i0 : Z) (h : handler (Q := Q)) : Prop :=
  forall index st, i0 <= index < zlen v ->
    match h v index st with Done r => index + 2 <= fst r | Outside => True | Fuel => False end.

Definition ends (i0 : Z) (h : handler (Q := Q)) : Prop := forall index st, i0 <= index < zlen v -> h v index st <> Fuel.

Definition action_ok (i0 : Z) (a : action (Q := Q)) : Prop :=
  match a with Next h => advances i0 h | Return h => ends i0 h end.

Definition cases_ok (i0 : Z) (cases : list (Z * action (Q := Q))) : Prop :=
  Forall (fun c => In (fst c) v -> action_ok i0 (snd c)) cases.

Lemma advances_ends i0 h : advances i0 h -> ends i0 h.
Proof. intros Ha index st Hi E. specialize (Ha index st Hi). by rewrite E in Ha. Qed.

Lemma rget_run i : rget v i = Outside \/ exists b, rget v i = Done b /\ 0 <= i < zlen v /\ In b v /\ is_byte b.
Proof.
  unfold rget. destruct (get v i) as [b|] eqn:E; [right|by left]. apply get_inv in E as [Hi ->]. exists (rd v i).
  assert (In (rd v i) v) as Hin.
  { rewrite rd_nth by lia. apply nth_In. unfold zlen in Hi. lia. }
  split; [done|]. split; [done|]. split; [done|]. apply rd_Forall; [apply is_byte_0|done].
Qed.

Lemma shift_byte_pos a n : is_byte a -> 0 <= n -> 0 <= Z.shiftl a n.
Proof. intros Ha Hn. apply Z.shiftl_nonneg. unfold is_byte in Ha. lia. Qed.

(** The header leads two bytes further at least, to a content of some length. *)
Lemma header_run index :
  epg_header v index = Outside \/ exists i l, epg_header v index = Done (i, l) /\ index + 2 <= i /\ 0 <= l.
Proof.
  unfold epg_header. destruct (rget_run (index + 1)) as [->|(b1 & -> & _ & _ & H1)]; [by left|]. cbn [mbind run_bind].
  case_match; [|case_match].
  - destruct (rget_run (index + 2)) as [->|(a & -> & _ & _ & Ha)]; [by left|]. cbn [mbind run_bind].
    destruct (rget_run (index + 3)) as [->|(b & -> & _ & _ & Hb)]; [by left|]. cbn [mbind run_bind]. right. eexists _, _. split; [done|].
    split; [lia|]. apply Z.lor_nonneg. split; [apply shift_byte_pos; [done|lia]|unfold is_byte in Hb; lia].
  - destruct (rget_run (index + 2)) as [->|(a & -> & _ & _ & Ha)]; [by left|]. cbn [mbind run_bind].
    destruct (rget_run (index + 3)) as [->|(b & -> & _ & _ & Hb)]; [by left|]. cbn [mbind run_bind].
    destruct (rget_run (index + 4)) as [->|(c & -> & _ & _ & Hc)]; [by left|]. cbn [mbind run_bind]. right. eexists _, _. split; [done|].
    split; [lia|]. apply Z.lor_nonneg. split; [|unfold is_byte in Hc; lia].
    apply Z.lor_nonneg. split; apply shift_byte_pos; done || lia.
  - right. eexists _, _. split; [done|]. unfold is_byte in H1. lia.
Qed.

Lemma select_ok i0 cases default tag :
  cases_ok i0 cases -> action_ok i0 default -> In tag v -> action_ok i0 (select cases default tag).
Proof.
  intros Hc Hd Hin. induction Hc as [|[t a] cases Ha Hc IH]; [done|]. cbn [select]. destruct (Z.eqb_spec t tag) as [->|]; [by apply Ha|done].
Qed.

Lemma nodes_ends i0 cases endPoint fuel index st :
  0 <= i0 -> (forall tag, In tag v -> action_ok i0 (cases tag)) -> i0 <= index -> Z.max 0 (zlen v - index) < Z.of_nat fuel ->
  nodes fuel cases v endPoint index st <> Fuel.
Proof.
  intros H0 Hc. revert index st. induction fuel as [|fuel IH]; intros index st Hi Hf; [lia|]. cbn [nodes].
  destruct (index <? endPoint); [|done]. destruct (rget_run index) as [->|(tag & -> & Hb & Hin & _)]; [done|]. cbn [mbind run_bind].
  specialize (Hc tag Hin). destruct (cases tag) as [h|h]; cbn [action_ok] in Hc.
  - specialize (Hc index st ltac:(lia)). destruct (h v index st) as [r| |]; cbn [mbind run_bind]; [|done|done].
    apply IH; lia.
  - specialize (Hc index st ltac:(lia)). by destruct (h v index st).
Qed.

Lemma leave_ok i0 : action_ok i0 leave.
Proof. by intros index st _. Qed.

(** The loop of an element, from behind its header. *)
Lemma element_nodes i0 cases default endPoint index st i :
  0 <= i0 <= index -> index + 2 <= i -> cases_ok (i0 + 2) cases -> action_ok (i0 + 2) default ->
  nodes (loop_fuel v) (select cases default) v endPoint i st <> Fuel.
Proof.
  intros Hi0 Hi Hc Hd. apply (nodes_ends (i0 + 2)); [lia|intros; by apply select_ok|lia|].
  unfold loop_fuel. pose proof (zlen_nonneg v). unfold zlen in *. lia.
Qed.

Lemma skip_advances i0 : advances i0 skip.
Proof.
  intros index st Hi. unfold skip. destruct (header_run index) as [->|(i & l & -> & Hi2 & Hl)]; [done|]. cbn. lia.
Qed.

Lemma element_advances i0 cases : 0 <= i0 -> cases_ok (i0 + 2) cases -> advances i0 (element cases).
Proof.
  intros H0 Hc index st Hi. unfold element. destruct (header_run index) as [->|(i & l & -> & Hi2 & Hl)]; [done|].
  cbn [mbind run_bind fst snd]. pose proof (element_nodes i0 cases leave (i + l) index st i) as Hn.
  destruct (nodes _ _ _ _ _ _) as [r| |]; cbn [mbind run_bind fst]; [lia|done|]. apply Hn; done || lia || apply leave_ok.
Qed.

Lemma recorded_advances i0 cases : 0 <= i0 -> cases_ok (i0 + 2) cases -> advances i0 (recorded_element cases).
Proof.
  intros H0 Hc index st Hi. unfold recorded_element. destruct (header_run index) as [->|(i & l & -> & Hi2 & Hl)]; [done|].
  cbn [mbind run_bind fst snd]. pose proof (element_nodes i0 cases leave (i + l) index (fst st, Some progDesc_new) i) as Hn.
  destruct (nodes _ _ _ _ _ _) as [[ended [e p]]| |]; cbn [mbind run_bind fst]; [lia|done|]. apply Hn; done || lia || apply leave_ok.
Qed.

Lemma nullptr_advances i0 h : advances i0 h -> advances i0 (with_nullptr h).
Proof.
  intros Ha index st Hi. unfold with_nullptr. specialize (Ha index (fst st, None) Hi). by destruct (h v index (fst st, None)) as [r| |].
Qed.

Lemma unless_advances i0 h : advances i0 h -> advances i0 (unless_null h).
Proof. intros Ha index st Hi. unfold unless_null. destruct (snd st); [by apply Ha|by apply (skip_advances i0)]. Qed.

Lemma getBits_ends n i res : epg_getBits_loop n v i res <> Fuel.
Proof.
  revert i res. induction n as [|n IH]; intros i res; cbn [epg_getBits_loop]; [done|]. unfold epg_getBit.
  destruct (rget_run (i / 8)) as [->|(b & -> & _)]; [done|]. cbn [mbind run_bind]. apply IH.
Qed.

Lemma time_point_ends today i : time_point today v i <> Fuel.
Proof.
  unfold time_point, epg_getBits, epg_getBit.
  repeat match goal with
  | |- context[epg_getBits_loop ?n v ?i ?r] =>
      pose proof (getBits_ends n i r); destruct (epg_getBits_loop n v i r); cbn [mbind run_bind]; try done
  | |- context[rget v ?i] => destruct (rget_run i) as [->|(? & -> & _)]; cbn [mbind run_bind]; try done
  | |- context[if ?b then _ else _] => destruct b; cbn [mbind run_bind]; try done
  end.
Qed.

Lemma process_474_advances i0 t : advances i0 (process_474 t).
Proof.
  intros index st Hi. unfold process_474. destruct (header_run index) as [->|(i & l & -> & Hi2 & Hl)]; [done|]. cbn [mbind run_bind fst snd].
  destruct t as [set|]; [|cbn; lia]. pose proof (time_point_ends (julianDate (fst st)) i).
  destruct (time_point _ _ _); cbn [mbind run_bind fst]; [lia|done|done].
Qed.

Lemma process_483_advances i0 : advances i0 process_483.
Proof.
  intros index st Hi. unfold process_483. destruct (header_run index) as [->|(i & l & -> & Hi2 & Hl)]; [done|]. cbn [mbind run_bind fst snd].
  destruct (rget_run i) as [->|(? & -> & _)]; [done|]. cbn [mbind run_bind].
  destruct (rget_run (i + 1)) as [->|(? & -> & _)]; [done|]. cbn. lia.
Qed.

Lemma process_412_ends i0 : ends i0 process_412.
Proof. intros index st Hi. unfold process_412. by destruct (rget_run (index + 1)) as [->|(? & -> & _)]. Qed.

Lemma rgetn_ends n i : rgetn n v i <> Fuel.
Proof.
  revert i. induction n as [|n IH]; intros i; cbn [rgetn]; [done|]. destruct (rget_run i) as [->|(? & -> & _)]; [done|]. cbn [mbind run_bind].
  specialize (IH (i + 1)). by destruct (rgetn n v (i + 1)).
Qed.

Lemma getCData_ends i e : getCData v i e <> Fuel.
Proof.
  unfold getCData. destruct (rget_run i) as [->|(? & -> & _)]; [done|]. cbn [mbind run_bind]. case_match; [done|].
  destruct (rget_run (i + 1)) as [->|(? & -> & _)]; [done|]. cbn [mbind run_bind]. case_match.
  - by destruct (rget_run (i + 2)) as [->|(? & -> & _)].
  - destruct (header_run i) as [->|(j & l & -> & _)]; [done|]. cbn [mbind run_bind fst snd]. pose proof (rgetn_ends (Z.to_nat l) j).
    by destruct (rgetn _ _ _).
Qed.

Lemma text_advances i0 set : 0 <= i0 -> advances i0 (text_element set).
Proof.
  intros H0. apply unless_advances. intros index st Hi. destruct (header_run index) as [->|(i & l & -> & Hi2 & Hl)]; [done|].
  cbn [mbind run_bind fst snd]. match goal with |- context[nodes ?f (select ?c ?d) v ?e i st] => pose proof (element_nodes i0 c d e index st i) as Hn end.
  destruct (nodes _ _ _ _ _ _) as [r| |]; cbn [mbind run_bind fst]; [lia|done|]. apply Hn; try done; try lia.
  constructor; [intros _; apply skip_advances|constructor; [|constructor]]. intros _ i1 st1 Hi1. pose proof (getCData_ends i1 (fst st1)).
    by destruct (getCData v i1 (fst st1)).
Qed.

Lemma token_advances i0 : advances i0 process_token.
Proof.
  intros index st Hi. unfold process_token. destruct (rget_run index) as [->|(? & -> & _)]; [done|]. cbn [mbind run_bind].
  destruct (header_run index) as [->|(i & l & -> & Hi2 & Hl)]; [done|]. cbn [mbind run_bind fst snd].
  pose proof (rgetn_ends (Z.to_nat l) i). destruct (rgetn _ _ _); cbn [mbind run_bind fst]; [lia|done|done].
Qed.

Lemma tokenTable_advances i0 : 0 <= i0 -> advances i0 process_tokenTable.
Proof.
  intros H0 index st Hi. unfold process_tokenTable. destruct (header_run index) as [->|(i & l & -> & Hi2 & Hl)]; [done|]. cbn [mbind run_bind fst snd].
  assert (nodes (loop_fuel v) (fun _ => Next process_token) v (i + l) i st <> Fuel) as Hn.
  { apply (nodes_ends i0); [lia|intros; apply token_advances|lia|]. unfold loop_fuel. pose proof (zlen_nonneg v). unfold zlen in *. lia. }
  destruct (nodes _ _ _ _ _ _) as [r| |]; cbn [mbind run_bind fst]; [lia|done|done].
Qed.

(** The methods, from the leaves up; all of them at any place. *)
Create HintDb epg.
#[local] Hint Resolve skip_advances process_474_advances process_483_advances process_412_ends text_advances
  tokenTable_advances nullptr_advances unless_advances element_advances recorded_advances advances_ends : epg.
#[local] Hint Extern 2 (0 <= _) => lia : epg.

Ltac epg_cases_tac := repeat (apply List.Forall_cons || apply List.Forall_nil); intros _; cbn [fst snd action_ok].
Ltac epg_method := intros; first [apply element_advances | apply recorded_advances | apply unless_advances, element_advances];
  [lia|epg_cases_tac; eauto 6 with epg].

Lemma link_advances i0 : 0 <= i0 -> advances i0 process_link.
Proof. epg_method. Qed.
Lemma memberOf_advances i0 : 0 <= i0 -> advances i0 process_memberOf.
Proof. epg_method. Qed.
Lemma relativeTime_advances i0 : 0 <= i0 -> advances i0 process_relativeTime.
Proof. epg_method. Qed.
Lemma time_advances i0 : 0 <= i0 -> advances i0 process_time.
Proof. epg_method. Qed.
Lemma radiodns_advances i0 : 0 <= i0 -> advances i0 process_radiodns.
Proof. epg_method. Qed.
Lemma multiMedia_advances i0 : 0 <= i0 -> advances i0 process_multiMedia.
Proof. epg_method. Qed.
Lemma genre_advances i0 : 0 <= i0 -> advances i0 process_genre.
Proof. epg_method. Qed.
Lemma bearer_advances i0 : 0 <= i0 -> advances i0 process_bearer.
Proof. epg_method. Qed.
Lemma presentationTime_advances i0 : 0 <= i0 -> advances i0 process_presentationTime.
Proof. epg_method. Qed.
Lemma acquisitionTime_advances i0 : 0 <= i0 -> advances i0 process_acquisitionTime.
Proof. epg_method. Qed.
Lemma serviceScope_advances i0 : 0 <= i0 -> advances i0 process_serviceScope.
Proof. epg_method. Qed.
#[local] Hint Resolve link_advances memberOf_advances relativeTime_advances time_advances radiodns_advances multiMedia_advances
  genre_advances bearer_advances presentationTime_advances acquisitionTime_advances serviceScope_advances : epg.

Lemma onDemand_advances i0 : 0 <= i0 -> advances i0 process_onDemand.
Proof. epg_method. Qed.
Lemma mediaDescription_advances i0 : 0 <= i0 -> advances i0 process_mediaDescription.
Proof. epg_method. Qed.
Lemma scope_advances i0 : 0 <= i0 -> advances i0 process_scope.
Proof. epg_method. Qed.
#[local] Hint Resolve onDemand_advances mediaDescription_advances scope_advances : epg.

Context (Hrel : ~ In 0x2F v).

Lemma location_advances i0 : 0 <= i0 -> advances i0 process_location.
Proof.
  intros. apply unless_advances, element_advances; [lia|].
  repeat (apply List.Forall_cons || apply List.Forall_nil); cbn [fst snd action_ok]; [eauto with epg..|done].
Qed.
#[local] Hint Resolve location_advances : epg.

Lemma programmeEvent_advances i0 : 0 <= i0 -> advances i0 process_programmeEvent.
Proof. epg_method. Qed.
Lemma service_advances i0 : 0 <= i0 -> advances i0 process_service.
Proof. epg_method. Qed.
#[local] Hint Resolve programmeEvent_advances service_advances : epg.

Lemma program_advances i0 : 0 <= i0 -> advances i0 process_program.
Proof. epg_method. Qed.
Lemma ensemble_advances i0 : 0 <= i0 -> advances i0 process_ensemble.
Proof. epg_method. Qed.
#[local] Hint Resolve program_advances ensemble_advances : epg.

Lemma schedule_advances i0 : 0 <= i0 -> advances i0 process_schedule.
Proof.
  intros H0 index st Hi. unfold process_schedule. match goal with |- context[element ?c] => assert (advances i0 (element c)) as Ha by epg_method end.
  specialize (Ha index (fst st, Some progDesc_new) Hi). by destruct (element _ _ _ _) as [r| |].
Qed.

(** Every level of groups takes four bytes. *)
Lemma groups_advances depth i0 : 0 <= i0 -> zlen v - i0 <= Z.of_nat depth -> advances i0 (process_programGroups depth).
Proof.
  revert i0. induction depth as [|depth IH]; intros i0 H0 Hd; [intros index st Hi; lia|]. cbn [process_programGroups].
  assert (advances (i0 + 2 + 2) (process_programGroups depth)) as Hg by (apply IH; lia).
  apply element_advances; [lia|]. epg_cases_tac; [|by eauto with epg..].
  apply recorded_advances; [lia|]. epg_cases_tac; by eauto with epg.
Qed.

Lemma process_epg_ends e_length SId subType day e : process_epg v e_length SId subType day e <> Fuel.
Proof.
  unfold process_epg. destruct (rget_run 0) as [->|(tag & -> & _)]; [done|]. cbn [mbind run_bind].
  destruct (rget_run 1) as [->|(? & -> & _)]; [done|]. cbn [mbind run_bind]. case_match; [done|].
  destruct (header_run 0) as [->|(i & l & -> & Hi & Hl)]; [done|]. cbn [mbind run_bind fst snd]. case_match.
  - assert (nodes (loop_fuel v) (select (epg_cases v) leave) v (i + l) i (epg_start SId subType day e, None) <> Fuel) as Hn.
    { apply (element_nodes 0 _ _ _ 0); [lia|lia| |apply leave_ok]. epg_cases_tac; try (by eauto with epg).
      - apply groups_advances; [lia|]. unfold loop_fuel, zlen. lia.
      - apply schedule_advances. lia. }
    by destruct (nodes _ _ _ _ _ _).
  - destruct (rget_run i) as [->|(t & -> & Hr & Hin & _)]; [done|]. cbn [mbind run_bind].
    assert (action_ok 0 (select service_cases leave t)) as Ha.
    { apply select_ok; [|apply leave_ok|done]. epg_cases_tac; by eauto with epg. }
    destruct (select service_cases leave t) as [h|h]; cbn [action_ok] in Ha;
      [specialize (advances_ends _ _ Ha i (epg_start SId subType day e, None) ltac:(lia))|specialize (Ha i (epg_start SId subType day e, None) ltac:(lia))];
      by destruct (h v i _).
Qed.
End termination.

(** C40: the decoder ends, in a result or with an access outside of the object,
    for every object in which the byte 0x2F does not occur: no loop makes more
    passes than the object has bytes, however the lengths are nested or
    wrong. *)
Theorem epg_terminates {Q : Type} `{QString Q} (v : list Z) (e_length SId subType day : Z) (e : EpgDecoder (Q := Q)) :
  Forall is_byte v -> ~ In 0x2F v -> process_epg v e_length SId subType day e <> Fuel.
Proof. intros. by apply process_epg_ends. Qed.

Lemma epg_terminates_witness :
  process_epg [0x02; 4; 0x20; 200; 0x23; 0xFE] 6 7 0 60000 (mkEpg 0 [] 0 0 []) <> Fuel.
Proof.
  apply (epg_terminates [0x02; 4; 0x20; 200; 0x23; 0xFE] 6 7 0 60000 (mkEpg 0 [] 0 0 [])).
  - apply forall_bytes. reflexivity.
  - cbn. lia.
Defined.

(** ** What does not work *)
(** In a location a relative time does not move the index: the loop stays there
    for any number of passes. *)
Lemma relative_time_loops {Q : Type} `{QString Q} (v : list Z) (endPoint index i : Z) (e : EpgDecoder (Q := Q)) (p : progDesc) fuel :
  rget v index = Done 0x2F -> index < endPoint -> process_relativeTime v index (e, Some p) = Done (i, (e, Some p)) ->
  nodes fuel (select [(0x2C, Next process_time); (0x29, Next process_bearer); (0x2F, Next relativeTime_unassigned)] leave)
    v endPoint index (e, Some p) = Fuel.
Proof.
  intros Ht Hi Hr. assert (relativeTime_unassigned v index (e, Some p) = Done (index, (e, Some p))) as E
    by (unfold relativeTime_unassigned; by rewrite Hr).
  induction fuel as [|fuel IH]; [done|]. cbn [nodes]. assert ((index <? endPoint) = true) as -> by lia.
  rewrite Ht. cbn [mbind run_bind]. change (select _ leave 0x2F) with (Next (relativeTime_unassigned (Q := Q))). cbv iota.
  rewrite E. cbn [mbind run_bind fst snd]. apply IH.
Qed.

(** A whole object that keeps the decoder busy. *)
Lemma epg_object_loops :
  process_epg (tlv 0x02 (tlv 0x21 (tlv 0x1C (tlv 0x19 (tlv 0x2F (tlv 0x81 [0; 60])))))) 0 7 0 60000 (mkEpg 0 [] 0 0 []) = Fuel.
Proof. vm_compute. reflexivity. Qed.

(** The offset to UTC: two half hours to the west come out as thirty to the
    east, [-halfHours & 0x1F] taking the negation first. *)
Lemma negative_offset_wrong : lto_halfHours 0x22 = 30.
Proof. reflexivity. Qed.

(** The date has 17 bits, of which 16 are kept. *)
Lemma date_truncated v : 4 <= zlen v -> Forall is_byte v -> field (unpack_bits v) 1 17 = 65536 -> epg_getBits v 1 17 = Done 0.
Proof.
  intros Hl Hv E. pose proof (getBits_loop_at v [] [] 17 1 0 Hv) as Hg. cbn [app] in Hg. rewrite app_nil_r in Hg.
  change (zlen []) with 0 in Hg. unfold epg_getBits. change (Z.to_nat 17) with 17%nat. change (8 * 0 + 1) with 1 in Hg. rewrite Hg by lia.
  change (Z.of_nat 17) with 17. by rewrite E.
Qed.

(** A text of one character that is not a token is lost. *)
Lemma single_character_lost : text_value (replicate 20 []) [65] = [] /\ text_value (replicate 20 []) [65; 66] = [65; 66].
Proof. by split. Qed.
