(* ===== verification/RingBuffer.v ===== *)
(** * Ring buffers (src/src/common/ringbuffer.h)

    The lock-free single-producer, single-consumer ring buffer that connects the
    device, the decoders, the audio output and the GUI.  The template parameter
    is the type [A]; a cell of [buffer] is one element.  The indices run to
    twice the size, so that a full and an empty buffer differ.

    The theorem shows that the operations implement a bounded queue;
    RingThreads.v is about the two threads.  [None] is a copy outside of
    the buffer or of the caller's data. *)
From S2P Require Import Prelude.
Open Scope Z_scope.

(** ** The class *)
(** [for (u32 i = 1; i < 32; i <<= 1) iVal |= iVal >> i;] *)
Definition smear (iVal : Z) : Z :=
  fold_left (fun v i => Z.lor v (Z.shiftr v i)) [1; 2; 4; 8; 16] iVal.

Definition round_up_to_next_power_of_2 (iVal : Z) : Z :=
  if iVal =? 0 then 1 else u32 (smear (iVal - 1) + 1).

Section ring.
Context {A : Type}.

Record RingBuffer := mkRing {
  bufferSize : Z;
  writeIndex : Z;
  readIndex : Z;
  bigMask : Z;
  smallMask : Z;
  buffer : list A
}.

(** [zero] is what the allocator puts into the cells. *)
Definition RingBuffer_new (elementCount : Z) (zero : A) : RingBuffer :=
  let size := round_up_to_next_power_of_2 elementCount in
  mkRing size 0 0 (u32 (u32 (Z.shiftl size 1) - 1)) (u32 (size - 1)) (replicate (Z.to_nat size) zero).

Definition set_write (w : Z) (b : list A) (s : RingBuffer) : RingBuffer :=
  mkRing (bufferSize s) w (readIndex s) (bigMask s) (smallMask s) b.
Definition set_read (r : Z) (s : RingBuffer) : RingBuffer :=
  mkRing (bufferSize s) (writeIndex s) r (bigMask s) (smallMask s) (buffer s).

Definition get_ring_buffer_read_available (s : RingBuffer) : Z :=
  i32 (Z.land (u32 (writeIndex s - readIndex s)) (bigMask s)).
Definition get_ring_buffer_write_available (s : RingBuffer) : Z :=
  i32 (bufferSize s - get_ring_buffer_read_available s).

Definition flush_ring_buffer (s : RingBuffer) : RingBuffer := set_read 0 (set_write 0 (buffer s) s).

Definition advance_ring_buffer_write_index (n : Z) (s : RingBuffer) : RingBuffer :=
  set_write (Z.land (u32 (writeIndex s + n)) (bigMask s)) (buffer s) s.
Definition advance_ring_buffer_read_index (n : Z) (s : RingBuffer) : RingBuffer :=
  set_read (Z.land (u32 (readIndex s + n)) (bigMask s)) s.

(** The regions: offset and size of the first, size of the second, which starts
    at 0, and the number of elements. *)
Definition regions (elementCount available index : Z) (s : RingBuffer) : Z * Z * Z * Z :=
  let n := if available <? u32 elementCount then available else u32 elementCount in
  let index := Z.land index (smallMask s) in
  if bufferSize s <? index + n
  then (index, bufferSize s - index, n - (bufferSize s - index), n)
  else (index, n, 0, n).
Definition get_ring_buffer_write_regions (elementCount : Z) (s : RingBuffer) : Z * Z * Z * Z :=
  regions elementCount (u32 (get_ring_buffer_write_available s)) (writeIndex s) s.
Definition get_ring_buffer_read_regions (elementCount : Z) (s : RingBuffer) : Z * Z * Z * Z :=
  regions elementCount (u32 (get_ring_buffer_read_available s)) (readIndex s) s.

(** [memcpy(&buf[off], src, n)] and [memcpy(dst, &buf[off], n)] *)
Definition copy_in (off n : Z) (src buf : list A) : option (list A) :=
  if (0 <=? off) && (0 <=? n) && (off + n <=? zlen buf) && (n <=? zlen src)
  then Some (take (Z.to_nat off) buf ++ take (Z.to_nat n) src ++ drop (Z.to_nat (off + n)) buf) else None.
Definition copy_out (off n : Z) (buf : list A) : option (list A) :=
  if (0 <=? off) && (0 <=? n) && (off + n <=? zlen buf) then Some (slice buf off n) else None.

Definition put_data_into_ring_buffer (data : list A) (elementCount : Z) (s : RingBuffer) : option (RingBuffer * Z) :=
  let '(off, size1, size2, n) := get_ring_buffer_write_regions elementCount s in
  b ← copy_in off size1 data (buffer s);
  b ← (if 0 <? size2 then copy_in 0 size2 (drop (Z.to_nat size1) data) b else Some b);
  Some (advance_ring_buffer_write_index n (set_write (writeIndex s) b s), n).

Definition get_data_from_ring_buffer (elementCount : Z) (s : RingBuffer) : option (RingBuffer * list A) :=
  let '(off, size1, size2, n) := get_ring_buffer_read_regions elementCount s in
  d1 ← copy_out off size1 (buffer s);
  d2 ← (if 0 <? size2 then copy_out 0 size2 (buffer s) else Some []);
  Some (advance_ring_buffer_read_index n s, d1 ++ d2).

Definition skip_data_in_ring_buffer (n_values : Z) (s : RingBuffer) : RingBuffer * Z :=
  let n := if get_ring_buffer_read_available s <? i32 n_values then get_ring_buffer_read_available s else n_values in
  (advance_ring_buffer_read_index n s, n).

Definition get_writable_ring_buffer_segment (iElemCnt : Z) (s : RingBuffer) : Z * Z * Z :=
  let '(off, size1, _, n) := get_ring_buffer_write_regions iElemCnt s in (off, size1, n).
End ring.
Arguments RingBuffer : clear implicits.

(** ** Rounding up *)
(** Bit [k] of [w] is set when one of the bits [k .. k + n - 1] of [v] is. *)
Definition smeared (n v w : Z) : Prop :=
  forall k, 0 <= k -> Z.testbit w k = true <-> exists j, k <= j < k + n /\ Z.testbit v j = true.

Lemma smeared_double n v w : 0 < n -> smeared n v w -> smeared (2 * n) v (Z.lor w (Z.shiftr w n)).
Proof.
  intros Hn Hw k Hk. rewrite Z.lor_spec, Z.shiftr_spec, orb_true_iff, (Hw k), (Hw (k + n)) by lia. split.
  - intros [(j & Hj & E)|(j & Hj & E)]; exists j; (split; [lia|done]).
  - intros (j & Hj & E). destruct (Z_lt_le_dec j (k + n)); [left|right]; exists j; (split; [lia|done]).
Qed.

Lemma smear_smeared v : smeared 32 v (smear v).
Proof.
  assert (smeared 1 v v) as H1.
  { intros k Hk. split; [intros E; exists k; split; [lia|done]|]. intros (j & Hj & E). by replace k with j by lia. }
  unfold smear. cbn [fold_left]. change 32 with (2 * (2 * (2 * (2 * (2 * 1))))).
  repeat (apply smeared_double; [lia|]). exact H1.
Qed.

Lemma smear_ones v : 0 < v < 2 ^ 32 -> smear v = Z.ones (Z.log2 v + 1).
Proof.
  intros Hv. pose proof (Z.log2_nonneg v). assert (Z.log2 v < 32) by (apply Z.log2_lt_pow2; lia).
  apply Z.bits_inj'. intros k Hk. rewrite Z.testbit_ones_nonneg by lia. apply eq_iff_eq_true. rewrite (smear_smeared v k Hk), Z.ltb_lt. split.
  - intros (j & Hj & E). destruct (Z_lt_le_dec (Z.log2 v) j) as [Hlt|]; [|lia]. by rewrite Z.bits_above_log2 in E by lia.
  - intros Hlt. exists (Z.log2 v). split; [lia|]. apply Z.bit_log2. lia.
Qed.

Lemma round_up_spec n :
  1 <= n <= 2 ^ 31 -> exists k, 0 <= k <= 31 /\ round_up_to_next_power_of_2 n = 2 ^ k /\ n <= 2 ^ k < 2 * n.
Proof.
  intros Hn. unfold round_up_to_next_power_of_2. destruct (Z.eqb_spec n 0); [lia|].
  destruct (Z.eq_dec n 1) as [->|Hn1]; [exists 0; split; [lia|]; split; [reflexivity|lia]|].
  rewrite smear_ones by lia. pose proof (Z.log2_nonneg (n - 1)). assert (Z.log2 (n - 1) < 31) by (apply Z.log2_lt_pow2; lia).
  destruct (Z.log2_spec (n - 1)) as [Hlo Hhi]; [lia|]. exists (Z.log2 (n - 1) + 1). split; [lia|].
  rewrite Z.ones_equiv, <- Z.add_1_r, Z.pow_add_r in * by lia.
  assert (2 ^ (Z.log2 (n - 1) + 1) <= 2 ^ 31) by (apply Z.pow_le_mono_r; lia). rewrite Z.pow_add_r in * by lia. split; [|lia].
  replace (Z.pred (2 ^ Z.log2 (n - 1) * 2 ^ 1) + 1) with (2 ^ Z.log2 (n - 1) * 2 ^ 1) by lia. apply uwrap_small. lia.
Qed.

(** ** Places in the ring *)
Section places.
Context {A : Type} (k : Z) (Hk : 0 <= k <= 30).
Let N := 2 ^ k.

Lemma size_range : 1 <= N <= 2 ^ 30.
Proof. unfold N. pose proof (Z.pow_pos_nonneg 2 k ltac:(lia) ltac:(lia)). assert (2 ^ k <= 2 ^ 30) by (apply Z.pow_le_mono_r; lia). lia. Qed.

(** Sizes and masks. *)
Record ring_shape (s : RingBuffer A) : Prop := {
  rs_size : bufferSize s = N;
  rs_big : bigMask s = 2 * N - 1;
  rs_small : smallMask s = N - 1;
  rs_cells : zlen (buffer s) = N
}.

Lemma mask_big x : Z.land (u32 x) (2 * N - 1) = x mod (2 * N).
Proof.
  assert (2 * N = 2 ^ (k + 1)) as E by (unfold N; rewrite Z.pow_add_r; lia). rewrite E.
  replace (2 ^ (k + 1) - 1) with (Z.ones (k + 1)) by (rewrite Z.ones_equiv; lia). rewrite Z.land_ones by lia. unfold uwrap.
  apply Z.mod_mod_divide. exists (2 ^ (32 - (k + 1))). rewrite <- Z.pow_add_r by lia. f_equal. lia.
Qed.

Lemma mask_small x : Z.land x (N - 1) = x mod N.
Proof. unfold N. replace (2 ^ k - 1) with (Z.ones k) by (rewrite Z.ones_equiv; lia). apply Z.land_ones. lia. Qed.

Lemma place x : x mod (2 * N) mod N = x mod N.
Proof. pose proof size_range. apply Z.mod_mod_divide. exists 2. lia. Qed.

(** Different places within a window of the size of the buffer. *)
Lemma place_ne p q : 0 < q - p < N -> p mod N <> q mod N.
Proof.
  intros H E. pose proof (Z.div_mod p N ltac:(lia)). pose proof (Z.div_mod q N ltac:(lia)).
  assert (q - p = N * (q / N - p / N)) as Eq by lia. assert (0 < q / N - p / N < 1) by nia. lia.
Qed.
End places.

(** ** A bounded queue *)
Section queue.
Context {A : Type} (k : Z) (Hk : 0 <= k <= 30).
Let N := 2 ^ k.

(** [S] is all that has been put, of which [R] elements have been taken out. *)
Record ring_holds (S : list A) (R : Z) (s : RingBuffer A) : Prop := {
  rh_shape : ring_shape k s;
  rh_fill : 0 <= R <= zlen S /\ zlen S - R <= N;
  rh_write : writeIndex s = zlen S mod (2 * N);
  rh_read : readIndex s = R mod (2 * N);
  rh_cells : forall p, R <= p < zlen S -> buffer s !! Z.to_nat (p mod N) = S !! Z.to_nat p
}.

Lemma N_range : 1 <= N <= 2 ^ 30.
Proof. by apply size_range. Qed.

Lemma read_available_holds S R s : ring_holds S R s -> get_ring_buffer_read_available s = zlen S - R.
Proof.
  intros [[_ Hb _ _] Hf Hw Hr _]. pose proof N_range. unfold get_ring_buffer_read_available. rewrite Hb, Hw, Hr, (mask_big k Hk). fold N.
  rewrite <- Zminus_mod, Z.mod_small by lia. apply i32_small. lia.
Qed.

Lemma write_available_holds S R s : ring_holds S R s -> get_ring_buffer_write_available s = N - (zlen S - R).
Proof.
  intros H. pose proof N_range. unfold get_ring_buffer_write_available. rewrite (read_available_holds S R) by done.
  destruct H as [[-> _ _ _] Hf _ _ _]. fold N. apply i32_small. lia.
Qed.

(** ** Copying across the end *)
(** Where cell [c] stands, counted from [off]. *)
Lemma wrapped c off : 0 <= off < N -> 0 <= c < N -> (c - off) mod N = if c <? off then c - off + N else c - off.
Proof.
  intros Ho Hc. destruct (Z.ltb_spec c off); [|apply Z.mod_small; lia].
  symmetry. apply (Z.mod_unique_pos _ _ (-1)); lia.
Qed.

Lemma copy_in_spec off n src (buf : list A) :
  0 <= off -> 0 <= n -> off + n <= zlen buf -> n <= zlen src ->
  exists b, copy_in off n src buf = Some b /\ zlen b = zlen buf /\
    forall c, 0 <= c < zlen buf ->
      b !! Z.to_nat c = if (off <=? c) && (c <? off + n) then src !! Z.to_nat (c - off) else buf !! Z.to_nat c.
Proof.
  intros H1 H2 H3 H4. unfold copy_in. assert (((0 <=? off) && (0 <=? n) && (off + n <=? zlen buf) && (n <=? zlen src)) = true) as -> by lia.
  eexists. split; [done|]. unfold zlen in *. split.
  - rewrite !length_app, !length_take, length_drop. lia.
  - intros c Hc. destruct (Z.leb_spec off c) as [Hlo|Hlo]; cbn [andb].
    + rewrite lookup_app_r by (rewrite length_take; lia). rewrite length_take. destruct (Z.ltb_spec c (off + n)).
      * rewrite lookup_app_l, lookup_take_lt by (rewrite ?length_take; lia). f_equal. lia.
      * rewrite lookup_app_r by (rewrite length_take; lia). rewrite length_take, lookup_drop. f_equal. lia.
    + rewrite lookup_app_l, lookup_take_lt by (rewrite ?length_take; lia). done.
Qed.

(** Both regions: [n] elements from place [off] on, around the end. *)
Lemma copy_in_ring off n (data buf : list A) :
  0 <= off < N -> 0 <= n <= N -> zlen buf = N -> n <= zlen data ->
  let size1 := if N <? off + n then N - off else n in
  let size2 := if N <? off + n then n - (N - off) else 0 in
  exists b, (b ← copy_in off size1 data buf;
             if 0 <? size2 then copy_in 0 size2 (drop (Z.to_nat size1) data) b else Some b) = Some b /\ zlen b = N /\
    forall c, 0 <= c < N -> b !! Z.to_nat c = if (c - off) mod N <? n then data !! Z.to_nat ((c - off) mod N) else buf !! Z.to_nat c.
Proof.
  intros Ho Hn Hb Hd size1 size2. subst size1 size2. destruct (Z.ltb_spec N (off + n)) as [Hw|Hw].
  - destruct (copy_in_spec off (N - off) data buf) as (b1 & -> & L1 & C1); [lia..|]. cbn [mbind option_bind].
    assert ((0 <? n - (N - off)) = true) as -> by lia.
    destruct (copy_in_spec 0 (n - (N - off)) (drop (Z.to_nat (N - off)) data) b1) as (b2 & -> & L2 & C2); [lia|lia|lia| |].
    { unfold zlen in *. rewrite length_drop. lia. }
    exists b2. split; [done|]. split; [lia|]. intros c Hc. rewrite C2, C1 by lia. rewrite wrapped by lia.
    destruct (Z.ltb_spec c off) as [Hlt|Hge].
    + assert ((0 <=? c) && (c <? 0 + (n - (N - off))) = (c - off + N <? n)) as -> by lia.
      assert ((off <=? c) && (c <? off + (N - off)) = false) as -> by lia. destruct (c - off + N <? n); [|done].
      rewrite lookup_drop. f_equal. lia.
    + assert ((0 <=? c) && (c <? 0 + (n - (N - off))) = false) as -> by lia.
      assert ((off <=? c) && (c <? off + (N - off)) = true) as -> by lia. by assert ((c - off <? n) = true) as -> by lia.
  - destruct (copy_in_spec off n data buf) as (b1 & -> & L1 & C1); [lia..|]. cbn [mbind option_bind]. change (0 <? 0) with false. cbv iota.
    exists b1. split; [done|]. split; [lia|]. intros c Hc. rewrite C1 by lia. rewrite wrapped by lia.
    destruct (Z.ltb_spec c off).
    + assert ((off <=? c) && (c <? off + n) = false) as -> by lia. by assert ((c - off + N <? n) = false) as -> by lia.
    + by assert ((off <=? c) && (c <? off + n) = (c - off <? n)) as -> by lia.
Qed.

(** How many elements are moved: the negative and the huge are cut. *)
Definition moved (count available : Z) : Z := Z.min (u32 count) available.

Lemma regions_holds count available index (s : RingBuffer A) :
  ring_shape k s -> 0 <= available <= N ->
  let n := moved count available in
  let off := index mod N in
  regions count (u32 available) index s =
  (off, if N <? off + n then N - off else n, if N <? off + n then n - (N - off) else 0, n).
Proof.
  intros [Hs _ Hsm _] Ha n off. pose proof N_range. unfold regions. rewrite Hs, Hsm, (uwrap_small 32 available) by lia.
  rewrite mask_small by done. fold N off. assert ((if available <? u32 count then available else u32 count) = n) as -> by (unfold n, moved; destruct (Z.ltb_spec available (u32 count)); lia).
  by destruct (N <? off + n).
Qed.

Lemma moved_range count available : 0 <= available -> 0 <= moved count available <= available.
Proof. intros H. unfold moved. pose proof (uwrap_range 32 count ltac:(lia)). lia. Qed.

Lemma bind_nested {B C D} (x : option B) (f : B -> option C) (g : C -> option D) :
  (b ← x; c ← f b; g c) = (c ← (b ← x; f b); g c).
Proof. by destruct x. Qed.

(** Moving an index on by [n]. *)
Lemma advance_place i n : Z.land (u32 (i mod (2 * N) + n)) (2 * N - 1) = (i + n) mod (2 * N).
Proof. unfold N. rewrite (mask_big k Hk). apply Zplus_mod_idemp_l. Qed.

Lemma place_N x : x mod (2 * N) mod N = x mod N.
Proof. apply (place k Hk). Qed.

(** The cells of the elements [p], relative to an index. *)
Lemma offset_mod p i : 0 <= p - i < N -> (p mod N - i mod N) mod N = p - i.
Proof. intros H. rewrite <- Zminus_mod. by apply Z.mod_small. Qed.

Lemma write_regions_holds count S R s :
  ring_holds S R s -> let n := moved count (N - (zlen S - R)) in let off := zlen S mod N in
  get_ring_buffer_write_regions count s = (off, if N <? off + n then N - off else n, if N <? off + n then n - (N - off) else 0, n).
Proof.
  intros H. pose proof (rh_fill _ _ _ H). unfold get_ring_buffer_write_regions. rewrite (write_available_holds S R s H).
  rewrite regions_holds by (apply H || lia). by rewrite (rh_write _ _ _ H), place_N.
Qed.
Lemma read_regions_holds count S R s :
  ring_holds S R s -> let n := moved count (zlen S - R) in let off := R mod N in
  get_ring_buffer_read_regions count s = (off, if N <? off + n then N - off else n, if N <? off + n then n - (N - off) else 0, n).
Proof.
  intros H. pose proof (rh_fill _ _ _ H). unfold get_ring_buffer_read_regions. rewrite (read_available_holds S R s H).
  rewrite regions_holds by (apply H || lia). by rewrite (rh_read _ _ _ H), place_N.
Qed.

Lemma put_holds data count S R s :
  ring_holds S R s -> moved count (N - (zlen S - R)) <= zlen data ->
  exists s', put_data_into_ring_buffer data count s = Some (s', moved count (N - (zlen S - R))) /\
    ring_holds (S ++ take (Z.to_nat (moved count (N - (zlen S - R)))) data) R s'.
Proof.
  intros H Hd. pose proof N_range. pose proof H as [Hsh Hf Hw Hr Hc].
  pose proof (moved_range count (N - (zlen S - R)) ltac:(lia)) as Hn.
  unfold put_data_into_ring_buffer. rewrite (write_regions_holds count S R s H). set (n := moved count (N - (zlen S - R))) in *. rewrite bind_nested.
  pose proof (Z.mod_pos_bound (zlen S) N ltac:(lia)) as Hoff.
  destruct (copy_in_ring (zlen S mod N) n data (buffer s)) as (b & Eb & Lb & Cb); [lia|lia|apply Hsh|lia|]. rewrite Eb.
  cbn [mbind option_bind]. eexists. split; [done|]. assert (zlen (S ++ take (Z.to_nat n) data) = zlen S + n) as EL.
  { unfold zlen in *. rewrite length_app, length_take. lia. }
  destruct Hsh as [Hs1 Hs2 Hs3 Hs4]. constructor; rewrite ?EL.
  - by constructor.
  - lia.
  - cbn. rewrite Hs2, Hw. apply advance_place.
  - done.
  - intros p Hp. cbn. pose proof (Z.mod_pos_bound p N ltac:(lia)). rewrite Cb by lia.
    destruct (Z_lt_le_dec p (zlen S)) as [Hlt|Hge].
    + rewrite lookup_app_l, <- Hc by (unfold zlen in *; lia). destruct (Z.ltb_spec ((p mod N - zlen S mod N) mod N) n) as [Hm|]; [|done].
      rewrite <- Zminus_mod in Hm. rewrite <- (Z_mod_plus_full _ 1), Z.mod_small in Hm by lia. lia.
    + rewrite offset_mod by lia. assert ((p - zlen S <? n) = true) as -> by lia.
      rewrite lookup_app_r, lookup_take_lt by (unfold zlen in *; lia). f_equal. unfold zlen. lia.
Qed.
(** Reading both regions. *)
Lemma copy_out_spec off n (buf : list A) : 0 <= off -> 0 <= n -> off + n <= zlen buf -> copy_out off n buf = Some (slice buf off n).
Proof. intros H1 H2 H3. unfold copy_out. by assert (((0 <=? off) && (0 <=? n) && (off + n <=? zlen buf)) = true) as -> by lia. Qed.

(** Equal cells, equal slices; two slices that follow each other. *)
Lemma slice_cells (buf S : list A) off R m :
  0 <= off -> 0 <= R -> (forall i, 0 <= i < m -> buf !! Z.to_nat (off + i) = S !! Z.to_nat (R + i)) -> slice buf off m = slice S R m.
Proof.
  intros Ho HR H. apply list_eq. intros i. unfold slice. destruct (decide (i < Z.to_nat m)%nat).
  - rewrite !lookup_take_lt, !lookup_drop by done. specialize (H (Z.of_nat i) ltac:(lia)).
    rewrite !Z2Nat.inj_add, !Nat2Z.id in H by lia. done.
  - by rewrite !lookup_take_ge by lia.
Qed.

Lemma slice_follow (S : list A) R a b : 0 <= R -> 0 <= a -> 0 <= b -> slice S R a ++ slice S (R + a) b = slice S R (a + b).
Proof.
  intros HR Ha Hb. unfold slice. rewrite !Z2Nat.inj_add by lia. by rewrite <- drop_drop, take_take_drop.
Qed.

Lemma get_holds count S R s :
  ring_holds S R s -> let n := moved count (zlen S - R) in
  exists s', get_data_from_ring_buffer count s = Some (s', slice S R n) /\ ring_holds S (R + n) s'.
Proof.
  intros H n. pose proof N_range. pose proof H as [Hsh Hf Hw Hr Hc].
  pose proof (moved_range count (zlen S - R) ltac:(lia)) as Hn. fold n in Hn.
  unfold get_data_from_ring_buffer. rewrite (read_regions_holds count S R s H). fold n. pose proof (Z.mod_pos_bound R N ltac:(lia)) as Hoff. destruct Hsh as [Hs1 Hs2 Hs3 Hs4]. fold N in Hs4.
  exists (advance_ring_buffer_read_index n s). split.
  - destruct (Z.ltb_spec N (R mod N + n)) as [Hwr|Hwr].
    + rewrite (copy_out_spec (R mod N)) by lia. cbn [mbind option_bind]. assert ((0 <? n - (N - R mod N)) = true) as -> by lia.
      rewrite copy_out_spec by lia. cbn [mbind option_bind]. do 2 f_equal. replace n with ((N - R mod N) + (n - (N - R mod N))) at 2 by lia.
      rewrite <- slice_follow by lia. f_equal; apply slice_cells; [lia..| |lia|lia|]; intros i Hi; rewrite <- Hc by lia; do 2 f_equal.
      * rewrite <- Zplus_mod_idemp_l. symmetry. apply Z.mod_small. lia.
      * rewrite <- !Z.add_assoc, <- Zplus_mod_idemp_l. apply (Z.mod_unique_pos _ _ 1); lia.
    + rewrite (copy_out_spec (R mod N) n) by lia. cbn. rewrite app_nil_r.
      do 2 f_equal. apply slice_cells; [lia..|]. intros i Hi. rewrite <- Hc by lia. do 2 f_equal.
      rewrite <- Zplus_mod_idemp_l. symmetry. apply Z.mod_small. lia.
  - constructor; cbn; [by constructor|lia|done| |].
    + rewrite Hs2, Hr. apply advance_place.
    + intros p Hp. apply Hc. lia.
Qed.
Lemma skip_holds m S R s :
  0 <= m < 2 ^ 31 -> ring_holds S R s -> let n := Z.min m (zlen S - R) in
  exists s', skip_data_in_ring_buffer m s = (s', n) /\ ring_holds S (R + n) s'.
Proof.
  intros Hm H n. pose proof N_range. unfold skip_data_in_ring_buffer. rewrite (read_available_holds S R s H), i32_small by lia.
  pose proof H as [[Hs1 Hs2 Hs3 Hs4] Hf Hw Hr Hc].
  assert ((if zlen S - R <? m then zlen S - R else m) = n) as -> by (unfold n; destruct (Z.ltb_spec (zlen S - R) m); lia).
  eexists. split; [done|]. constructor; cbn; [by constructor|lia|done| |].
  - rewrite Hs2, Hr. apply advance_place.
  - intros p Hp. apply Hc. lia.
Qed.

Lemma flush_holds (s : RingBuffer A) : ring_shape k s -> ring_holds [] 0 (flush_ring_buffer s).
Proof.
  intros [H1 H2 H3 H4]. pose proof N_range. constructor; cbn; [by constructor|change (zlen []) with 0; lia|by rewrite Z.mod_0_l by lia..|].
  intros p Hp. change (zlen []) with 0 in Hp. lia.
Qed.
End queue.

Lemma round_up_size n : 0 <= n <= 2 ^ 30 -> exists k, 0 <= k <= 30 /\ round_up_to_next_power_of_2 n = 2 ^ k /\ n <= 2 ^ k.
Proof.
  intros Hn. destruct (Z.eq_dec n 0) as [->|]; [by exists 0|].
  destruct (round_up_spec n) as (k & Hk & E & H); [lia|]. exists k. split; [|split; [done|lia]].
  destruct (Z.eq_dec k 31) as [->|]; [|lia]. exfalso. lia.
Qed.

Lemma new_holds {A} n k (zero : A) :
  0 <= k <= 30 -> round_up_to_next_power_of_2 n = 2 ^ k -> ring_holds k [] 0 (RingBuffer_new n zero).
Proof.
  intros Hk E. pose proof (N_range k Hk) as HN. unfold RingBuffer_new. rewrite E, Z.shiftl_mul_pow2 by lia.
  rewrite (uwrap_small 32 (2 ^ k * 2 ^ 1)), !uwrap_small by lia.
  constructor; cbn; [|change (zlen []) with 0; lia|by rewrite Z.mod_0_l by lia..|intros p; change (zlen []) with 0; lia].
  constructor; cbn; [done|lia|done|]. unfold zlen. rewrite length_replicate. lia.
Qed.

(** ** The contract *)
(** What a client calls, and what it sees of the call. *)
Inductive ring_op (A : Type) :=
  | op_put (data : list A) (elementCount : Z)
  | op_get (elementCount : Z)
  | op_skip (n_values : Z)
  | op_read_available
  | op_write_available
  | op_flush.
Arguments op_put {A}. Arguments op_get {A}. Arguments op_skip {A}.
Arguments op_read_available {A}. Arguments op_write_available {A}. Arguments op_flush {A}.

Inductive ring_result (A : Type) := res_count (n : Z) | res_data (d : list A).
Arguments res_count {A}. Arguments res_data {A}.

Definition ring_call {A} (op : ring_op A) (s : RingBuffer A) : option (RingBuffer A * ring_result A) :=
  match op with
  | op_put data count => '(s, n) ← put_data_into_ring_buffer data count s; Some (s, res_count n)
  | op_get count => '(s, d) ← get_data_from_ring_buffer count s; Some (s, res_data d)
  | op_skip n => let '(s, n) := skip_data_in_ring_buffer n s in Some (s, res_count n)
  | op_read_available => Some (s, res_count (get_ring_buffer_read_available s))
  | op_write_available => Some (s, res_count (get_ring_buffer_write_available s))
  | op_flush => Some (flush_ring_buffer s, res_count 0)
  end.

(** A queue of at most [N] elements. *)
Definition queue_call {A} (N : Z) (op : ring_op A) (q : list A) : list A * ring_result A :=
  match op with
  | op_put data count => let n := Z.min (u32 count) (N - zlen q) in (q ++ take (Z.to_nat n) data, res_count n)
  | op_get count => let n := Z.min (u32 count) (zlen q) in (drop (Z.to_nat n) q, res_data (take (Z.to_nat n) q))
  | op_skip m => let n := Z.min m (zlen q) in (drop (Z.to_nat n) q, res_count n)
  | op_read_available => (q, res_count (zlen q))
  | op_write_available => (q, res_count (N - zlen q))
  | op_flush => ([], res_count 0)
  end.

(** The caller's side: as many elements as it announces, no skip of 2^31. *)
Definition op_ok {A} (op : ring_op A) : Prop :=
  match op with op_put data count => u32 count <= zlen data | op_skip n => 0 <= n < 2 ^ 31 | _ => True end.

Fixpoint ring_run {A} (ops : list (ring_op A)) (s : RingBuffer A) : option (list (ring_result A)) :=
  match ops with
  | [] => Some []
  | op :: ops => '(s, r) ← ring_call op s; rs ← ring_run ops s; Some (r :: rs)
  end.
Fixpoint queue_run {A} (N : Z) (ops : list (ring_op A)) (q : list A) : list (ring_result A) :=
  match ops with [] => [] | op :: ops => let '(q, r) := queue_call N op q in r :: queue_run N ops q end.

(** The ring that holds what is left of [S] is the queue of it. *)
Definition represents {A} (k : Z) (q : list A) (s : RingBuffer A) : Prop :=
  exists S R, ring_holds k S R s /\ q = drop (Z.to_nat R) S.

Lemma call_simulates {A} k (op : ring_op A) q s :
  0 <= k <= 30 -> op_ok op -> represents k q s ->
  exists s', ring_call op s = Some (s', (queue_call (2 ^ k) op q).2) /\ represents k (queue_call (2 ^ k) op q).1 s'.
Proof.
  intros Hk Hop (S & R & H & ->). pose proof (rh_fill k S R s H) as Hf. pose proof (N_range k Hk) as HN.
  assert (zlen (drop (Z.to_nat R) S) = zlen S - R) as Eq by (unfold zlen in *; rewrite length_drop; lia).
  destruct op as [data count|count|m| | |]; cbn [ring_call queue_call op_ok fst snd] in *; rewrite ?Eq.
  - destruct (put_holds k Hk data count S R s H) as (s' & -> & H'); [unfold moved; lia|]. exists s'. split; [done|].
    eexists _, R. split; [exact H'|]. rewrite drop_app_le by (unfold zlen in *; lia). done.
  - pose proof (moved_range k Hk count (zlen S - R) ltac:(lia)) as Hm.
    destruct (get_holds k Hk count S R s H) as (s' & -> & H'). exists s'. split; [done|]. exists S, (R + moved count (zlen S - R)).
    split; [done|]. by rewrite drop_drop, Z2Nat.inj_add by lia.
  - destruct (skip_holds k Hk m S R s Hop H) as (s' & -> & H'). exists s'. split; [done|]. eexists S, _.
    split; [done|]. by rewrite drop_drop, Z2Nat.inj_add by lia.
  - rewrite (read_available_holds k Hk S R s H). exists s. split; [done|]. by exists S, R.
  - rewrite (write_available_holds k Hk S R s H). exists s. split; [done|]. by exists S, R.
  - exists (flush_ring_buffer s). split; [done|]. exists [], 0. split; [|done]. apply flush_holds; [done|apply H].
Qed.

Lemma run_simulates {A} k (ops : list (ring_op A)) : 0 <= k <= 30 ->
  forall q s, Forall op_ok ops -> represents k q s -> ring_run ops s = Some (queue_run (2 ^ k) ops q).
Proof.
  intros Hk. induction ops as [|op ops IH]; intros q s Hok Hs; [done|]. apply Forall_cons_1 in Hok as [Hop Hok].
  destruct (call_simulates k op q s Hk Hop Hs) as (s' & E & Hs'). cbn. rewrite E. cbn.
  rewrite (IH _ s' Hok Hs'). by destruct (queue_call _ op q).
Qed.

(** C23: a ring buffer implements a bounded queue.  Whatever sequence of calls a
    client makes on a new ring buffer (at most 2^30 elements asked for; every put
    brings as many elements as it announces), every call succeeds, no copy
    leaves the buffer, and the results are those of a first-in first-out queue
    whose capacity is the element count rounded up to a power of two: a put
    takes over what fits, a get delivers the oldest elements in their order,
    and the wrap-around of the indices never shows. *)
Theorem ring_refines_queue {A} (elementCount : Z) (zero : A) (ops : list (ring_op A)) :
  0 <= elementCount <= 2 ^ 30 -> Forall op_ok ops ->
  exists k, 0 <= k <= 30 /\ elementCount <= 2 ^ k /\ round_up_to_next_power_of_2 elementCount = 2 ^ k /\
    ring_run ops (RingBuffer_new elementCount zero) = Some (queue_run (2 ^ k) ops []).
Proof.
  intros Hn Hops. destruct (round_up_size elementCount Hn) as (k & Hk & E & Hle). exists k. split; [done|]. split; [done|]. split; [done|].
  apply run_simulates; [done|done|]. exists [], 0. split; [by apply new_holds|done].
Qed.

Definition sample_ops : list (ring_op Z) :=
  [op_put [1; 2; 3] 3; op_get 2; op_put [4; 5; 6; 7] 4; op_write_available; op_get 9; op_skip 1; op_put [8] 1; op_read_available; op_flush; op_get 1].

Lemma ring_refines_queue_witness :
  (exists k, 0 <= k <= 30 /\ 3 <= 2 ^ k /\ round_up_to_next_power_of_2 3 = 2 ^ k /\
    ring_run sample_ops (RingBuffer_new 3 0) = Some (queue_run (2 ^ k) sample_ops [])) /\
  ring_run sample_ops (RingBuffer_new 3 0) =
  Some [res_count 3; res_data [1; 2]; res_count 3; res_count 0; res_data [3; 4; 5; 6]; res_count 0; res_count 1; res_count 1; res_count 0; res_data []].
Proof.
  split; [|vm_compute; reflexivity]. apply (ring_refines_queue 3 0 sample_ops); [lia|].
  repeat (apply List.Forall_cons; [vm_compute; first [exact I|congruence|split; congruence]|]). apply List.Forall_nil.
Defined.
