(* ===== verification/RingThreads.v ===== *)
(** * The ring buffer between two threads (src/src/common/ringbuffer.h)

    One thread puts, another one gets, without a lock.  The calls are broken
    into what the other thread can see of them: reading the other side's index,
    copying one element, publishing the own index.  The steps of the threads
    interleave in any order; the memory barriers of the code are what makes them
    visible in the order of the program.  [produced] and [consumed] are ghosts:
    all that completed puts have taken over, and all that completed gets have
    handed out. *)
From S2P Require Import Prelude RingBuffer.
From stdpp Require Import relations.
Open Scope Z_scope.

Section threads.
Context {A : Type}.

(** Between the regions and the update of the index: the place of the first
    region and its size, the number of elements, and how far the copy is. *)
Record putting := mkPutting { p_data : list A; p_off : Z; p_size1 : Z; p_count : Z; p_done : Z }.
Record getting := mkGetting { g_off : Z; g_size1 : Z; g_count : Z; g_data : list A }.

Record system := mkSystem {
  ring : RingBuffer A;
  producer : option putting;
  consumer : option getting;
  produced : list A;
  consumed : list A
}.

(** The cell of element [i] of a call: the first region, then the second. *)
Definition region_cell (off size1 i : Z) : Z := if i <? size1 then off + i else i - size1.

Definition set_buffer (b : list A) (s : RingBuffer A) : RingBuffer A := set_write (writeIndex s) b s.

Inductive thread_step : system -> system -> Prop :=
  | put_start s c P C data count off size1 size2 n :
      get_ring_buffer_write_regions count s = (off, size1, size2, n) -> n <= zlen data ->
      thread_step (mkSystem s None c P C) (mkSystem s (Some (mkPutting data off size1 n 0)) c P C)
  | put_copy s c P C data off size1 n i x :
      i < n -> data !! Z.to_nat i = Some x ->
      thread_step (mkSystem s (Some (mkPutting data off size1 n i)) c P C)
        (mkSystem (set_buffer (<[Z.to_nat (region_cell off size1 i) := x]> (buffer s)) s)
           (Some (mkPutting data off size1 n (i + 1))) c P C)
  | put_publish s c P C data off size1 n :
      thread_step (mkSystem s (Some (mkPutting data off size1 n n)) c P C)
        (mkSystem (advance_ring_buffer_write_index n s) None c (P ++ take (Z.to_nat n) data) C)
  | get_start s p P C count off size1 size2 n :
      get_ring_buffer_read_regions count s = (off, size1, size2, n) ->
      thread_step (mkSystem s p None P C) (mkSystem s p (Some (mkGetting off size1 n [])) P C)
  | get_copy s p P C off size1 n d x :
      zlen d < n -> buffer s !! Z.to_nat (region_cell off size1 (zlen d)) = Some x ->
      thread_step (mkSystem s p (Some (mkGetting off size1 n d)) P C)
        (mkSystem s p (Some (mkGetting off size1 n (d ++ [x]))) P C)
  | get_publish s p P C off size1 n d :
      zlen d = n ->
      thread_step (mkSystem s p (Some (mkGetting off size1 n d)) P C)
        (mkSystem (advance_ring_buffer_read_index n s) p None P (C ++ d)).

Definition system_new (elementCount : Z) (zero : A) : system :=
  mkSystem (RingBuffer_new elementCount zero) None None [] [].

(** ** The invariant *)
Section invariant.
Context (k : Z) (Hk : 0 <= k <= 30).
Let N := 2 ^ k.

Record putting_ok (P : list A) (R : Z) (buf : list A) (p : putting) : Prop := {
  po_off : p_off p = zlen P mod N;
  po_size1 : p_size1 p = if N <? p_off p + p_count p then N - p_off p else p_count p;
  po_count : 0 <= p_done p <= p_count p /\ p_count p <= N - (zlen P - R);
  po_data : p_count p <= zlen (p_data p);
  po_cells : forall i, 0 <= i < p_done p -> buf !! Z.to_nat ((zlen P + i) mod N) = p_data p !! Z.to_nat i
}.

Record getting_ok (P : list A) (R : Z) (g : getting) : Prop := {
  go_off : g_off g = R mod N;
  go_size1 : g_size1 g = if N <? g_off g + g_count g then N - g_off g else g_count g;
  go_count : zlen (g_data g) <= g_count g <= zlen P - R;
  go_data : g_data g = slice P R (zlen (g_data g))
}.

Record system_ok (y : system) : Prop := {
  so_ring : ring_holds k (produced y) (zlen (consumed y)) (ring y);
  so_prefix : consumed y = take (length (consumed y)) (produced y);
  so_put : forall p, producer y = Some p -> putting_ok (produced y) (zlen (consumed y)) (buffer (ring y)) p;
  so_get : forall g, consumer y = Some g -> getting_ok (produced y) (zlen (consumed y)) g
}.

(** The cell of element [i] is the place of the stream it belongs to. *)
Lemma region_cell_place X off size1 n i :
  off = X mod N -> size1 = (if N <? off + n then N - off else n) -> 0 <= i < n -> n <= N -> region_cell off size1 i = (X + i) mod N.
Proof.
  intros -> -> Hi Hn. pose proof (N_range k Hk) as HN. fold N in HN. pose proof (Z.mod_pos_bound X N ltac:(lia)). unfold region_cell.
  rewrite <- Zplus_mod_idemp_l. destruct (Z.ltb_spec N (X mod N + n)); destruct (Z.ltb_spec i (N - X mod N)); try destruct (Z.ltb_spec i n); try lia.
  - symmetry. apply Z.mod_small. lia.
  - apply (Z.mod_unique_pos _ _ 1); lia.
  - symmetry. apply Z.mod_small. lia.
Qed.

Lemma place_apart p q : p < q < p + N -> p mod N <> q mod N.
Proof. intros H. apply (place_ne k Hk). fold N. lia. Qed.

Lemma place_cell_ne p q : p <> q -> q < p + N -> p < q + N -> Z.to_nat (p mod N) <> Z.to_nat (q mod N).
Proof.
  intros Hne H1 H2 E. pose proof (N_range k Hk) as HN. fold N in HN. pose proof (Z.mod_pos_bound p N ltac:(lia)).
  pose proof (Z.mod_pos_bound q N ltac:(lia)). assert (p mod N = q mod N) as E' by lia. revert E'.
  destruct (Z_lt_le_dec p q); [apply place_apart; lia|]. intros E'. symmetry in E'. revert E'. apply place_apart. lia.
Qed.

Lemma put_start_ok s c P C data count off size1 size2 n :
  system_ok (mkSystem s None c P C) -> get_ring_buffer_write_regions count s = (off, size1, size2, n) -> n <= zlen data ->
  system_ok (mkSystem s (Some (mkPutting data off size1 n 0)) c P C).
Proof.
  intros [Hr Hp _ Hg] E Hd. cbn in *. rewrite (write_regions_holds k Hk count P (zlen C) s Hr) in E. injection E as <- <- _ <-.
  pose proof (rh_fill k _ _ _ Hr). constructor; cbn; try done. intros p [= <-].
  pose proof (moved_range k Hk count (2 ^ k - (zlen P - zlen C)) ltac:(lia)).
  constructor; cbn; try done; [|intros i Hi; lia]. unfold N. lia.
Qed.

Lemma get_start_ok s p P C count off size1 size2 n :
  system_ok (mkSystem s p None P C) -> get_ring_buffer_read_regions count s = (off, size1, size2, n) ->
  system_ok (mkSystem s p (Some (mkGetting off size1 n [])) P C).
Proof.
  intros [Hr Hp Hput _] E. cbn in *. rewrite (read_regions_holds k Hk count P (zlen C) s Hr) in E. injection E as <- <- _ <-.
  pose proof (rh_fill k _ _ _ Hr). constructor; cbn; try done. intros g [= <-].
  pose proof (moved_range k Hk count (zlen P - zlen C) ltac:(lia)). by constructor.
Qed.

(** A cell that no published element has may be written. *)
Lemma put_copy_ok s c P C data off size1 n i x :
  system_ok (mkSystem s (Some (mkPutting data off size1 n i)) c P C) -> i < n -> data !! Z.to_nat i = Some x ->
  system_ok (mkSystem (set_buffer (<[Z.to_nat (region_cell off size1 i) := x]> (buffer s)) s)
    (Some (mkPutting data off size1 n (i + 1))) c P C).
Proof.
  intros [Hr Hp Hput Hg] Hi Ex. cbn in *. destruct (Hput _ eq_refl) as [Ho H1 Hc Hd Hcell]. cbn in *. pose proof (rh_fill k _ _ _ Hr) as Hf. cbn in Hf.
  destruct Hr as [[Hs1 Hs2 Hs3 Hs4] _ Hw Hrd Hold]. cbn in *. fold N in Hf, Hs4, Hold.
  rewrite (region_cell_place (zlen P) off size1 n i) by (done || lia). pose proof (Z.mod_pos_bound (zlen P + i) N ltac:(unfold N; lia)) as Hb.
  constructor; cbn; [|done| |done].
  - constructor; cbn; [|done|done|done|].
    + constructor; cbn; try done. unfold zlen in *. by rewrite length_insert.
    + intros p Hpr. fold N. rewrite list_lookup_insert_ne; [by apply Hold|]. apply place_cell_ne; unfold N in *; lia.
  - intros p [= <-]. constructor; cbn; try done; [fold N; lia|]. intros j Hj. destruct (Z.eq_dec j i) as [->|Hne].
    + rewrite list_lookup_insert_eq; [done|]. unfold zlen in *. lia.
    + rewrite list_lookup_insert_ne; [apply Hcell; lia|]. apply place_cell_ne; unfold N in *; lia.
Qed.

Lemma put_publish_ok s c P C data off size1 n :
  system_ok (mkSystem s (Some (mkPutting data off size1 n n)) c P C) ->
  system_ok (mkSystem (advance_ring_buffer_write_index n s) None c (P ++ take (Z.to_nat n) data) C).
Proof.
  intros [Hr Hp Hput Hg]. cbn in *. destruct (Hput _ eq_refl) as [Ho H1 Hc Hd Hcell]. cbn in *. pose proof (rh_fill k _ _ _ Hr) as Hf.
  destruct Hr as [[Hs1 Hs2 Hs3 Hs4] _ Hw Hrd Hold]. cbn in *. fold N in Hf, Hs4, Hold.
  assert (zlen (P ++ take (Z.to_nat n) data) = zlen P + n) as EL by (unfold zlen in *; rewrite length_app, length_take; lia).
  constructor; cbn; [| |done|].
  - constructor; cbn; rewrite ?EL; [by constructor|fold N; lia| |done|].
    + rewrite Hs2, Hw. apply (advance_place k Hk).
    + intros p Hpr. fold N. destruct (Z_lt_le_dec p (zlen P)).
      * rewrite lookup_app_l by (unfold zlen in *; lia). apply Hold. lia.
      * rewrite lookup_app_r, lookup_take_lt by (unfold zlen in *; lia). replace p with (zlen P + (p - zlen P)) at 1 by lia.
        rewrite Hcell by lia. f_equal. unfold zlen. lia.
  - rewrite take_app_le by (unfold zlen in *; lia). done.
  - intros g Eg. destruct (Hg g Eg) as [G1 G2 G3 G4]. constructor; try done; [lia|]. rewrite G4 at 1. unfold slice.
    rewrite drop_app_le by (unfold zlen in *; lia). rewrite take_app_le; [done|]. rewrite length_drop. unfold zlen in *. lia.
Qed.

(** What the copied cells of a get hold. *)
Lemma take_slice (P : list A) C m :
  C = take (length C) P -> 0 <= m -> C ++ slice P (zlen C) m = take (length C + Z.to_nat m) P.
Proof. intros E Hm. rewrite E at 1. unfold slice, zlen. rewrite Nat2Z.id. apply take_take_drop. Qed.

Lemma slice_one_more (P : list A) R m x : 0 <= R -> 0 <= m -> P !! Z.to_nat (R + m) = Some x -> slice P R (m + 1) = slice P R m ++ [x].
Proof.
  intros HR Hm E. unfold slice. rewrite Z2Nat.inj_add by lia. change (Z.to_nat 1) with 1%nat. rewrite Nat.add_1_r. apply take_S_r.
  rewrite lookup_drop, <- E. f_equal. lia.
Qed.

Lemma get_copy_cell y g i :
  system_ok y -> consumer y = Some g -> 0 <= i < g_count g ->
  buffer (ring y) !! Z.to_nat (region_cell (g_off g) (g_size1 g) i) = produced y !! Z.to_nat (zlen (consumed y) + i).
Proof.
  intros [Hr _ _ Hg] Eg Hi. destruct (Hg _ Eg) as [Ho H1 Hc _]. pose proof (rh_fill k _ _ _ Hr) as Hf.
  rewrite (region_cell_place (zlen (consumed y)) _ _ (g_count g)) by (done || (unfold N in *; lia)). apply (rh_cells k _ _ _ Hr). lia.
Qed.

Lemma get_copy_ok s p P C off size1 n d x :
  system_ok (mkSystem s p (Some (mkGetting off size1 n d)) P C) -> zlen d < n ->
  buffer s !! Z.to_nat (region_cell off size1 (zlen d)) = Some x ->
  system_ok (mkSystem s p (Some (mkGetting off size1 n (d ++ [x]))) P C).
Proof.
  intros H Hd Ex. pose proof (get_copy_cell _ _ (zlen d) H eq_refl) as Hcell. cbn in Hcell. destruct H as [Hr Hp Hput Hg]. cbn in *.
  destruct (Hg _ eq_refl) as [Ho H1 Hc Hdata]. cbn in *. constructor; cbn; try done. intros g [= <-].
  assert (zlen (d ++ [x]) = zlen d + 1) as EL by (unfold zlen; rewrite length_app; cbn; lia).
  constructor; cbn; try done; rewrite EL; [lia|]. pose proof (zlen_nonneg d). rewrite (slice_one_more P (zlen C) (zlen d) x).
  - by rewrite <- Hdata.
  - apply zlen_nonneg.
  - done.
  - rewrite <- Hcell by lia. exact Ex.
Qed.

Lemma get_publish_ok s p P C off size1 d :
  system_ok (mkSystem s p (Some (mkGetting off size1 (zlen d) d)) P C) ->
  system_ok (mkSystem (advance_ring_buffer_read_index (zlen d) s) p None P (C ++ d)).
Proof.
  intros [Hr Hp Hput Hg]. cbn in *. destruct (Hg _ eq_refl) as [Ho H1 Hc Hdata]. cbn in *. pose proof (rh_fill k _ _ _ Hr) as Hf.
  destruct Hr as [[Hs1 Hs2 Hs3 Hs4] _ Hw Hrd Hold]. cbn in *. pose proof (zlen_nonneg d). constructor; cbn; rewrite ?zlen_app; [| | |done].
  - constructor; cbn; [by constructor|fold N in Hf |- *; lia|done| |].
    + rewrite Hs2, Hrd. apply (advance_place k Hk).
    + intros q Hq. apply Hold. lia.
  - rewrite length_app, Hdata at 1. rewrite take_slice by done. f_equal. unfold zlen. lia.
  - intros q Eq. destruct (Hput q Eq) as [P1 P2 P3 P4 P5]. constructor; try done. lia.
Qed.

Lemma thread_step_ok y y' : system_ok y -> thread_step y y' -> system_ok y'.
Proof.
  intros H Hstep. destruct Hstep; subst.
  - by eapply put_start_ok.
  - by apply put_copy_ok.
  - by eapply put_publish_ok.
  - by eapply get_start_ok.
  - by apply get_copy_ok.
  - by eapply get_publish_ok.
Qed.

Lemma threads_reachable_ok y y' : system_ok y -> rtc thread_step y y' -> system_ok y'.
Proof. intros H. induction 1; eauto using thread_step_ok. Qed.

Lemma system_new_ok n (zero : A) : round_up_to_next_power_of_2 n = N -> system_ok (system_new n zero).
Proof. intros E. constructor; cbn; [by apply new_holds|done..]. Qed.

(** ** Progress *)
(** A put that has started can be finished, whatever the other thread does. *)
Lemma put_finishes todo : forall s c P C data off size1 n i,
  system_ok (mkSystem s (Some (mkPutting data off size1 n i)) c P C) -> n - i = Z.of_nat todo ->
  exists s', rtc thread_step (mkSystem s (Some (mkPutting data off size1 n i)) c P C) (mkSystem s' None c (P ++ take (Z.to_nat n) data) C).
Proof.
  induction todo as [|todo IH]; intros s c P C data off size1 n i H Hi; destruct (so_put _ H _ eq_refl) as [_ _ Hc Hd _]; cbn in *.
  - replace i with n in * by lia. eexists. eapply rtc_once, put_publish.
  - destruct (lookup_lt_is_Some_2 data (Z.to_nat i)) as [x Ex]; [unfold zlen in *; lia|].
    pose proof (put_copy_ok s c P C data off size1 n i x H ltac:(lia) Ex) as H'. destruct (IH _ _ _ _ _ _ _ _ _ H') as [s' Hs']; [lia|].
    exists s'. eapply rtc_l; [|exact Hs']. apply put_copy; [lia|done].
Qed.

Lemma get_finishes todo : forall s p P C off size1 n d,
  system_ok (mkSystem s p (Some (mkGetting off size1 n d)) P C) -> n - zlen d = Z.of_nat todo ->
  exists s', rtc thread_step (mkSystem s p (Some (mkGetting off size1 n d)) P C) (mkSystem s' p None P (C ++ slice P (zlen C) n)).
Proof.
  induction todo as [|todo IH]; intros s p P C off size1 n d H Hn; destruct (so_get _ H _ eq_refl) as [_ _ Hc Hd]; cbn in *.
  - replace n with (zlen d) in * by lia. rewrite <- Hd. eexists. by eapply rtc_once, get_publish.
  - pose proof (get_copy_cell _ _ (zlen d) H eq_refl) as Hcell. cbn in Hcell. pose proof (zlen_nonneg d).
    destruct (lookup_lt_is_Some_2 P (Z.to_nat (zlen C + zlen d))) as [x Ex]; [unfold zlen in *; lia|]. rewrite Ex in Hcell.
    pose proof (get_copy_ok s p P C off size1 n d x H ltac:(lia) ltac:(apply Hcell; lia)) as H'.
    destruct (IH _ _ _ _ _ _ _ _ H') as [s' Hs']; [rewrite zlen_app; change (zlen [x]) with 1; lia|].
    exists s'. eapply rtc_l; [|exact Hs']. apply get_copy; [lia|]. apply Hcell. lia.
Qed.

Lemma put_ends y : system_ok y ->
  exists s' P', rtc thread_step y (mkSystem s' None (consumer y) P' (consumed y)) /\ produced y `prefix_of` P'.
Proof.
  destruct y as [s [[data off size1 n i]|] c P C]; intros H; cbn.
  - pose proof (po_count _ _ _ _ (so_put _ H _ eq_refl)) as Hc. cbn in Hc.
    destruct (put_finishes (Z.to_nat (n - i)) _ _ _ _ _ _ _ _ _ H) as [s' Hs']; [lia|]. eexists s', _. split; [exact Hs'|]. by eexists.
  - by exists s, P.
Qed.

Lemma get_ends y : system_ok y ->
  exists s' C', rtc thread_step y (mkSystem s' (producer y) None (produced y) C').
Proof.
  destruct y as [s p [[off size1 n d]|] P C]; intros H; cbn.
  - pose proof (go_count _ _ _ (so_get _ H _ eq_refl)) as Hc. cbn in Hc.
    destruct (get_finishes (Z.to_nat (n - zlen d)) _ _ _ _ _ _ _ _ H) as [s' Hs']; [lia|]. by eexists _, _.
  - by exists s, C.
Qed.

(** A get of everything. *)
Lemma get_all s P C : system_ok (mkSystem s None None P C) ->
  exists s', rtc thread_step (mkSystem s None None P C) (mkSystem s' None None P P).
Proof.
  intros H. pose proof (so_ring _ H) as Hr. cbn in Hr. pose proof (rh_fill k _ _ _ Hr) as Hf. pose proof (N_range k Hk) as HN.
  pose proof (read_regions_holds k Hk (zlen P - zlen C) P (zlen C) s Hr) as E. unfold moved in E. rewrite uwrap_small, Z.min_id in E by lia.
  pose proof (get_start_ok _ _ _ _ _ _ _ _ _ H E) as H'.
  destruct (get_finishes (Z.to_nat (zlen P - zlen C)) _ _ _ _ _ _ _ _ H') as [s' Hs']; [change (zlen []) with 0; lia|].
  exists s'. eapply rtc_l; [eapply get_start, E|]. rewrite take_slice in Hs' by (apply (so_prefix _ H) || lia).
  rewrite take_ge in Hs' by (unfold zlen; lia). exact Hs'.
Qed.
End invariant.

(** ** Theorems *)
(** What the running get has copied so far. *)
Definition copied (y : system) : list A := match consumer y with Some g => g_data g | None => [] end.

(** C21: one putting and one getting thread share the ring buffer safely.  In
    every state that any interleaving of their steps reaches, what has been
    handed out, the part that a running get has copied included, is a prefix of
    what has been put: nothing is lost, repeated or torn; no more than the size
    of the buffer is outstanding; both calls stay inside of the buffer; and no
    cell is open to both threads at the same time, so that there is no data
    race on the elements. *)
Theorem ring_threads_safe (elementCount : Z) (zero : A) (y : system) :
  0 <= elementCount <= 2 ^ 30 -> rtc thread_step (system_new elementCount zero) y ->
  consumed y ++ copied y `prefix_of` produced y /\
  zlen (produced y) - zlen (consumed y) <= bufferSize (ring y) /\
  (forall p i, producer y = Some p -> 0 <= i < p_count p -> 0 <= region_cell (p_off p) (p_size1 p) i < zlen (buffer (ring y))) /\
  (forall g i, consumer y = Some g -> 0 <= i < g_count g -> 0 <= region_cell (g_off g) (g_size1 g) i < zlen (buffer (ring y))) /\
  (forall p g i j, producer y = Some p -> consumer y = Some g -> 0 <= i < p_count p -> 0 <= j < g_count g ->
     region_cell (p_off p) (p_size1 p) i <> region_cell (g_off g) (g_size1 g) j).
Proof.
  intros Hn Hreach. destruct (round_up_size elementCount Hn) as (k & Hk & E & _). pose proof (N_range k Hk) as HN.
  pose proof (threads_reachable_ok k Hk _ _ (system_new_ok k Hk _ zero E) Hreach) as [Hr Hp Hput Hget].
  pose proof (rh_fill k _ _ _ Hr) as Hf. pose proof (rh_shape k _ _ _ Hr) as [Hs1 _ _ Hs4].
  assert (forall p i, producer y = Some p -> 0 <= i < p_count p -> region_cell (p_off p) (p_size1 p) i = (zlen (produced y) + i) mod 2 ^ k) as Cp.
  { intros p i Ep Hi. destruct (Hput p Ep) as [Ho H1 Hc _ _]. by apply (region_cell_place k Hk _ _ _ (p_count p)); [..|lia]. }
  assert (forall g i, consumer y = Some g -> 0 <= i < g_count g -> region_cell (g_off g) (g_size1 g) i = (zlen (consumed y) + i) mod 2 ^ k) as Cg.
  { intros g i Eg Hi. destruct (Hget g Eg) as [Ho H1 Hc _]. by apply (region_cell_place k Hk _ _ _ (g_count g)); [..|lia]. }
  split_and!.
  - unfold copied. destruct (consumer y) as [g|] eqn:Eg.
    + destruct (Hget g eq_refl) as [_ _ Hc ->]. rewrite take_slice by (done || apply zlen_nonneg). apply prefix_take.
    + rewrite app_nil_r, Hp. apply prefix_take.
  - lia.
  - intros p i Ep Hi. rewrite Cp, Hs4 by done. apply Z.mod_pos_bound. lia.
  - intros g i Eg Hi. rewrite Cg, Hs4 by done. apply Z.mod_pos_bound. lia.
  - intros p g i j Ep Eg Hi Hj Ec. rewrite Cp, Cg in Ec by done. pose proof (po_count k _ _ _ _ (Hput p Ep)). pose proof (go_count k _ _ _ (Hget g Eg)).
    pose proof (zlen_nonneg (g_data g)). symmetry in Ec. revert Ec. apply (place_apart k Hk). lia.
Qed.

(** C22: neither thread can block the other one for good.  From every state that
    an interleaving reaches, the running put and the running get can be
    finished, and everything that has been put can be handed out. *)
Theorem ring_threads_drain (elementCount : Z) (zero : A) (y : system) :
  0 <= elementCount <= 2 ^ 30 -> rtc thread_step (system_new elementCount zero) y ->
  exists y', rtc thread_step y y' /\ producer y' = None /\ consumer y' = None /\ consumed y' = produced y' /\ produced y `prefix_of` produced y'.
Proof.
  intros Hn Hreach. destruct (round_up_size elementCount Hn) as (k & Hk & E & _).
  pose proof (threads_reachable_ok k Hk _ _ (system_new_ok k Hk _ zero E) Hreach) as H0.
  destruct (put_ends k Hk y H0) as (s1 & P1 & R1 & Hpre). pose proof (threads_reachable_ok k Hk _ _ H0 R1) as H1.
  destruct (get_ends k Hk _ H1) as (s2 & C2 & R2). cbn in R2. pose proof (threads_reachable_ok k Hk _ _ H1 R2) as H2.
  destruct (get_all k Hk _ _ _ H2) as (s3 & R3). exists (mkSystem s3 None None P1 P1).
  split; [|done]. by etrans; [exact R1|]; etrans.
Qed.
End threads.

(** A put in the middle of its copy while a get is in the middle of its own. *)
Definition sample_system : system :=
  mkSystem (mkRing 4 2 0 7 3 [7; 8; 9; 0]) (Some (mkPutting [9] 2 1 1 1)) (Some (mkGetting 0 2 2 [7])) [7; 8] [].

Lemma sample_system_reached : rtc thread_step (system_new 4 0) sample_system.
Proof.
  eapply rtc_l. { apply (put_start _ _ _ _ [7; 8] 2 0 2 0 2); [reflexivity|vm_compute; congruence]. }
  eapply rtc_l. { apply (put_copy _ _ _ _ _ _ _ _ _ 7); [lia|reflexivity]. }
  eapply rtc_l. { apply (put_copy _ _ _ _ _ _ _ _ _ 8); [lia|reflexivity]. }
  eapply rtc_l. { apply put_publish. }
  eapply rtc_l. { apply (put_start _ _ _ _ [9] 1 2 1 0 1); [reflexivity|vm_compute; congruence]. }
  eapply rtc_l. { apply (get_start _ _ _ _ 5 0 2 0 2). reflexivity. }
  eapply rtc_l. { apply (get_copy _ _ _ _ _ _ _ _ 7); [vm_compute; reflexivity|reflexivity]. }
  eapply rtc_l. { apply (put_copy _ _ _ _ _ _ _ _ _ 9); [lia|reflexivity]. }
  vm_compute. apply rtc_refl.
Qed.

Lemma ring_threads_safe_witness :
  0 <= 4 <= 2 ^ 30 /\ [] ++ [7] `prefix_of` [7; 8].
Proof. split; [lia|]. apply (ring_threads_safe 4 0 sample_system); [lia|apply sample_system_reached]. Defined.

Lemma ring_threads_drain_witness :
  exists y', rtc thread_step sample_system y' /\ producer y' = None /\ consumer y' = None /\ consumed y' = produced y' /\ [7; 8] `prefix_of` produced y'.
Proof. apply (ring_threads_drain 4 0 sample_system); [lia|apply sample_system_reached]. Defined.
