(* ===== verification/DataHandlers.v ===== *)
(** * IP and transparent data channel handlers
    (src/src/base/backend/data/ip_datahandler.cpp, tdc_datahandler.cpp)

    Two more data handlers of packet-mode services, as instances of
    [VirtualDataHandler].  Both write what they find into a ring buffer of bytes,
    which the application empties when it gets the signal; the ring buffer is
    their state.  A group is given as one bit per element.  [None] is an access
    outside of the group or of a local array. *)
From S2P Require Import Prelude BitExtractors BitFields Checked Crc DataProcessor RingBuffer.
Open Scope Z_scope.

(** [signal_write_datagramm(int)], [signal_bytes_out(int, int)] *)
Inductive data_event :=
  | signal_write_datagramm (length : Z)
  | signal_bytes_out (frameType length : Z).

Definition data_result : Type := option (RingBuffer Z * list data_event).

(** ** IpDataHandler *)
(** The 16 bit words of the header, added up. *)
Definition ip_checkSum (data : list Z) (headerSize : Z) : option Z :=
  zforM 0 (2 * headerSize)
    (fun i checkSum =>
       hi ← get data (2 * i); lo ← get data (2 * i + 1);
       Some (u32 (checkSum + Z.lor (Z.shiftl hi 8) lo))) 0.

(** [data] is the vector from byte [at] on, which may lie behind its end. *)
Definition process_udpVector (v : list Z) (at_ length : Z) (dataBuffer : RingBuffer Z) : data_result :=
  r ← put_data_into_ring_buffer (drop (Z.to_nat (at_ + 8)) v) (length - 8) dataBuffer;
  Some (fst r, [signal_write_datagramm (length - 8)]).

Definition process_ipVector (v : list Z) (dataBuffer : RingBuffer Z) : data_result :=
  b0 ← get v 0; b2 ← get v 2; b3 ← get v 3; protocol ← get v 9;
  let headerSize := Z.land b0 0x0F in
  let ipSize := i16 (Z.lor (Z.shiftl b2 8) b3) in
  checkSum ← ip_checkSum v headerSize;
  let checkSum := u32 (Z.shiftr checkSum 16 + Z.land checkSum 0xFFFF) in
  if negb (Z.land (u32 (Z.lnot checkSum)) 0xFFFF =? 0) then Some (dataBuffer, [])
  else if protocol =? 17 then process_udpVector v (4 * headerSize) (i16 (ipSize - 4 * headerSize)) dataBuffer
  else Some (dataBuffer, []).

(** The bytes of the packet; [i] has 16 bits and cannot count further. *)
Definition read_ipVector (msc : list Z) (next ipLength : Z) : option (list Z) :=
  if 32768 <=? ipLength then None
  else inside msc next (8 * ipLength) (map (fun i => getBits_8 msc (next + 8 * i)) (seqZ 0 ipLength)).

(** The header of the data group, up to the index of its data field. *)
Definition ip_next (msc : list Z) (extensionFlag segmentFlag userAccessFlag : bool) : option Z :=
  let next := if extensionFlag then 32 else 16 in
  next ← (if segmentFlag then inside msc next 16 (next + 16) else Some next);
  if userAccessFlag then
    transportIdFlag ← inside msc (next + 3) 1 (getBits_1 msc (next + 3));
    lengthInd ← inside msc (next + 4) 4 (getBits_4 msc (next + 4));
    let next := next + 8 in
    _ ← (if transportIdFlag =? 0 then Some tt else inside msc next 16 tt);
    Some (next + lengthInd * 8)
  else Some next.

Definition ip_add_MSC_data_group (msc : list Z) (dataBuffer : RingBuffer Z) : data_result :=
  _ ← inside msc 0 4 tt;
  let extensionFlag := negb (getBits_1 msc 0 =? 0) in
  let crcFlag := negb (getBits_1 msc 1 =? 0) in
  let segmentFlag := negb (getBits_1 msc 2 =? 0) in
  let userAccessFlag := negb (getBits_1 msc 3 =? 0) in
  if crcFlag && negb (check_CRC_bits msc (zlen msc)) then Some (dataBuffer, [])
  else
    next ← ip_next msc extensionFlag segmentFlag userAccessFlag;
    ipLength ← inside msc (next + 16) 16 (getBits msc (next + 16) 16);
    if ipLength <? zlen msc / 8 then
      ipVector ← read_ipVector msc next ipLength;
      b0 ← get ipVector 0;
      if negb (Z.shiftr b0 4 =? 4) then Some (dataBuffer, [])
      else process_ipVector ipVector dataBuffer
    else Some (dataBuffer, []).

#[export] Instance ip_data_handler : VirtualDataHandler (RingBuffer Z) data_event := {
  add_MSC_data_group := ip_add_MSC_data_group
}.

(** ** tdc_dataHandler *)
(** [#define swap(a) (((a) << 8) | ((a) >> 8))] *)
Definition swap (a : Z) : Z := Z.lor (Z.shiftl a 8) (Z.shiftr a 8).

Definition usCalculCRC_step (byte crc : Z) : Z :=
  let crc := u16 (Z.lxor (swap crc) byte) in
  let crc := Z.lxor crc (Z.shiftr (u8 crc) 4) in
  u16 (Z.lxor (Z.lxor crc (Z.shiftl (swap (u8 crc)) 4)) (Z.shiftl (u8 crc) 5)).

Definition usCalculCRC (buf : list Z) (lg : Z) : Z :=
  u16 (Z.lxor (zfor 0 lg (fun count crc => usCalculCRC_step (rd buf count) crc) 0xFFFF) 0xFFFF).

(** [n] bytes of the group from bit [off] on. *)
Definition group_bytes (data : list Z) (off n : Z) : option (list Z) :=
  inside data off (8 * n) (map (fun i => getBits data (off + i * 8) 8) (seqZ 0 n)).

Definition serviceComponentFrameheaderCRC (data : list Z) (offset : Z) : option bool :=
  length ← inside data (offset + 8) 16 (i16 (getBits data (offset + 8) 16));
  let size := if length <? 13 then length else 13 in
  if length <? 0 then Some false
  else
    crc ← inside data (offset + 24) 16 (getBits data (offset + 24) 16);
    head ← group_bytes data offset 3;
    rest ← group_bytes data (offset + 40) size;
    Some (usCalculCRC (head ++ rest) (3 + size) =? crc).

(** [buffer] is filled, given to the ring buffer and the signal; the CRC of a
    frame of type 0 is only reported. *)
Definition handleFrame_type_0 (data : list Z) (offset length : Z) (dataBuffer : RingBuffer Z)
  : option (RingBuffer Z * list data_event * Z) :=
  buffer ← group_bytes data offset length;
  _ ← get buffer (length - 2);
  _ ← get buffer (length - 2 + 1);
  r ← put_data_into_ring_buffer buffer length dataBuffer;
  Some (fst r, [signal_bytes_out 0 length], offset + length * 8).

(** [do ... while (llengths > 10)] over the components, which are only passed. *)
Fixpoint tdc_components (fuel : nat) (data : list Z) (lOffset llengths : Z) : option unit :=
  match fuel with
  | O => None
  | S fuel =>
      flength ← inside data (lOffset + 8) 16 (getBits data (lOffset + 8) 16);
      let llengths := llengths - (flength + 5) in
      if 10 <? llengths then tdc_components fuel data (lOffset + (flength + 5) * 8) llengths else Some tt
  end.

Definition handleFrame_type_1 (data : list Z) (offset length : Z) (dataBuffer : RingBuffer Z)
  : option (RingBuffer Z * list data_event * Z) :=
  buffer ← group_bytes data offset length;
  r ← put_data_into_ring_buffer buffer length dataBuffer;
  encryption ← inside data (offset + 24) 8 (getBits data (offset + 24) 8);
  _ ← (if encryption =? 0 then tdc_components (Z.to_nat length + 1) data (offset + 4 * 8) (length - 4) else Some tt);
  Some (fst r, [signal_bytes_out 1 length], offset + length * 8).

(** The search for the sync word; the group is passed in steps of a byte. *)
Fixpoint tdc_sync (fuel : nat) (data : list Z) (offset : Z) : option Z :=
  match fuel with
  | O => None
  | S fuel =>
      if offset + 16 <? zlen data then
        if getBits data offset 16 =? 0xFF0F then Some offset else tdc_sync fuel data (offset + 8)
      else Some offset
  end.

(** The header CRC: sync word, length, type and up to eleven bytes. *)
Definition tdc_header_ok (data : list Z) (offset length : Z) : option bool :=
  let size := if length <? 11 then length else 11 in
  a ← group_bytes data offset 4;
  b ← group_bytes data (offset + 6 * 8) 1;
  c ← group_bytes data (offset + 7 * 8) size;
  d ← group_bytes data (offset + 4 * 8) 2;
  Some (check_crc_bytes (a ++ b ++ c ++ d) (5 + size)).

Fixpoint tdc_loop (fuel : nat) (data : list Z) (offset : Z) (dataBuffer : RingBuffer Z) : data_result :=
  match fuel with
  | O => None
  | S fuel =>
      if offset <? zlen data then
        offset ← tdc_sync (Z.to_nat (zlen data) + 1) data offset;
        if zlen data <=? offset + 16 then Some (dataBuffer, [])
        else
          length ← inside data (offset + 16) 16 (i16 (getBits data (offset + 16) 16));
          frametypeIndicator ← inside data (offset + 32) 24 (getBits data (offset + 48) 8);
          if (length <? 0) || ((zlen data - offset) / 8 <=? length) then Some (dataBuffer, [])
          else
            ok ← tdc_header_ok data offset length;
            if negb ok then Some (dataBuffer, [])
            else if (frametypeIndicator =? 0) || (frametypeIndicator =? 1) then
              r ← (if frametypeIndicator =? 0 then handleFrame_type_0 data (offset + 7 * 8) length dataBuffer
                   else handleFrame_type_1 data (offset + 7 * 8) length dataBuffer);
              let '(dataBuffer, events, offset) := r in
              q ← tdc_loop fuel data offset dataBuffer;
              Some (fst q, events ++ snd q)
            else Some (dataBuffer, [])
      else Some (dataBuffer, [])
  end.

(** A pass takes at least seven bytes. *)
Definition tdc_add_MSC_data_group (m : list Z) (dataBuffer : RingBuffer Z) : data_result :=
  tdc_loop (Z.to_nat (zlen m) + 1) m 0 dataBuffer.

#[export] Instance tdc_data_handler : VirtualDataHandler (RingBuffer Z) data_event := {
  add_MSC_data_group := tdc_add_MSC_data_group
}.

(** ** The CRC of the component headers *)
(** What a byte adds to the shifted register. *)
Definition usCalculCRC_byte (x : Z) : Z :=
  let y := Z.lxor x (Z.shiftr x 4) in Z.lxor (Z.lxor y (Z.shiftl (swap y) 4)) (Z.shiftl y 5).

Lemma usCalculCRC_table x : is_byte x -> u16 (usCalculCRC_byte x) = rd crctab_1021 x.
Proof. intros Hx. apply Z.eqb_eq. revert x Hx. apply (forall_range 256). by vm_compute. Qed.

Lemma byte_high x i : is_byte x -> 8 <= i -> Z.testbit x i = false.
Proof. intros Hx Hi. rewrite <- (Z.mod_small x (2 ^ 8)) by done. by apply Z.mod_pow2_bits_high. Qed.

Lemma byte_shiftr x n : is_byte x -> 0 <= n -> is_byte (Z.shiftr x n).
Proof.
  intros Hx Hn. unfold is_byte in *. rewrite Z.shiftr_div_pow2 by done. pose proof (Z.pow_pos_nonneg 2 n ltac:(lia) Hn).
  split; [apply Z.div_pos; lia|]. apply Z.div_lt_upper_bound; nia.
Qed.

Lemma u8_low r x : is_byte x -> u8 (Z.lxor (u16 (Z.shiftl r 8)) x) = x.
Proof.
  intros Hx. rewrite uwrap_lxor by lia. rewrite (uwrap_small 8 x) by (unfold is_byte in Hx; lia).
  replace (u8 (u16 (Z.shiftl r 8))) with 0; [apply Z.lxor_0_l|]. symmetry. apply Z.bits_inj'. intros i Hi.
  rewrite Z.bits_0, !uwrap_testbit by lia. destruct (Z.ltb_spec i 8); [|done]. rewrite Z.shiftl_spec_low by lia. by rewrite andb_false_r.
Qed.

Lemma usCalculCRC_step_table b crc : is_byte b -> is_reg crc -> usCalculCRC_step b crc = calc_crc_step b crc.
Proof.
  intros Hb Hc. pose proof (reg_hi_byte crc Hc) as Hh. set (x := Z.lxor b (Z.shiftr crc 8)). assert (is_byte x) as Hx by (unfold x; auto with dab).
  assert (u16 (Z.lxor (swap crc) b) = Z.lxor (u16 (Z.shiftl crc 8)) x) as E.
  { unfold swap, x. rewrite uwrap_lxor by lia. rewrite (uwrap_small 16 b) by (unfold is_byte in Hb; lia).
    rewrite (Z.lxor_comm b), <- Z.lxor_assoc. f_equal. apply Z.bits_inj'. intros i Hi. rewrite Z.lxor_spec, !uwrap_testbit, Z.lor_spec by lia.
    destruct (Z.ltb_spec i 8) as [Hlt|Hge].
    - rewrite Z.shiftl_spec_low by lia. assert ((i <? 16) = true) as -> by lia. cbn [andb orb]. by rewrite xorb_false_l.
    - rewrite (byte_high (Z.shiftr crc 8)) by done. by rewrite orb_false_r, xorb_false_r. }
  unfold usCalculCRC_step, calc_crc_step. rewrite E, u8_low by done. fold x. rewrite (Z.lxor_assoc (u16 (Z.shiftl crc 8)) x), u8_low by (apply lxor_byte; [done|by apply byte_shiftr]).
  replace (Z.land x 255) with x by (change 255 with (Z.ones 8); rewrite Z.land_ones by lia; symmetry; by apply Z.mod_small).
  rewrite <- usCalculCRC_table by done. unfold usCalculCRC_byte. cbv zeta. set (y := Z.lxor x (Z.shiftr x 4)).
  assert (forall z, u16 (u16 z) = u16 z) as Hid by (intros z; apply uwrap_small, uwrap_range; lia).
  rewrite !(uwrap_lxor 16), !Hid by lia. rewrite (Z.lxor_comm _ (u16 (Z.shiftl crc 8))). by rewrite !Z.lxor_assoc.
Qed.

(** The CRC of the component headers is the CRC of crc.cpp, computed another way. *)
Lemma usCalculCRC_correct (buf : list Z) (lg : Z) : Forall is_byte buf -> 0 <= lg <= zlen buf -> usCalculCRC buf lg = calc_crc buf lg.
Proof.
  intros Hb Hl. unfold usCalculCRC, calc_crc. rewrite calc_crc_loop_run by done. pose proof (crc_loop_reg buf lg Hb Hl) as Hr.
  rewrite u16_lnot by done. replace (zfor 0 lg (fun count crc => usCalculCRC_step (rd buf count) crc) 65535) with (crc_run 0x1021 0xffff (msg_bools buf lg)).
  - revert Hr. generalize (crc_run 4129 65535 (msg_bools buf lg)). intros r Hr. rewrite <- u16_lnot by done.
    rewrite !uwrap_lxor by lia. apply Z.bits_inj'. intros i Hi. rewrite Z.lxor_spec, !uwrap_testbit, Z.lnot_spec by lia.
    destruct (Z.ltb_spec i 16); [|done]. change 65535 with (Z.ones 16). rewrite Z.ones_spec_low by lia. cbn [andb]. by rewrite xorb_true_r.
  - rewrite <- calc_crc_loop_run by done. symmetry.
    assert (forall m, 0 <= m <= lg -> zfor 0 m (fun count crc => usCalculCRC_step (rd buf count) crc) 65535 = zfor 0 m (fun i crc => calc_crc_step (rd buf i) crc) 65535) as H;
      [|apply H; lia].
    intros m Hm. apply (zfor_inv (fun i s => s = zfor 0 i (fun i crc => calc_crc_step (rd buf i) crc) 65535)); [lia|done|].
    intros i s Hi ->. rewrite zfor_last by lia. apply usCalculCRC_step_table; [by apply rd_Forall; auto with dab|].
    rewrite calc_crc_loop_run by (done || lia). apply crc_loop_reg; [done|lia].
Qed.

(** ** Bytes of a group *)
Lemma field_prefix l k off n : 0 <= n -> off + n <= zlen l -> field (l ++ k) off n = field l off n.
Proof.
  intros Hn Ho. unfold field. f_equal. apply map_ext_in. intros i Hi. apply in_seqZ in Hi. by rewrite rd_app_l by lia.
Qed.

(** A group that ends in the bits of the bytes [l] and some more. *)
Lemma getBits_8_bytes hd l tl i :
  Forall is_bit hd -> Forall is_bit tl -> Forall is_byte l -> 0 <= i < zlen l ->
  getBits_8 (hd ++ unpack_bits l ++ tl) (zlen hd + 8 * i) = rd l i.
Proof.
  intros Hh Ht Hl Hi. rewrite getBits_8_field by (repeat (apply Forall_app; split); auto using unpack_bits_bit).
  rewrite field_skip, field_prefix by (rewrite ?zlen_unpack; lia). replace (zlen hd + 8 * i - zlen hd) with (8 * i) by lia.
  by apply field_unpack_byte.
Qed.

Lemma getBits_word hd l tl i :
  Forall is_bit hd -> Forall is_bit tl -> Forall is_byte l -> 0 <= i -> i + 1 < zlen l ->
  getBits (hd ++ unpack_bits l ++ tl) (zlen hd + 8 * i) 16 = 256 * rd l i + rd l (i + 1).
Proof.
  intros Hh Ht Hl Hi Hi2. rewrite getBits_field by (lia || (repeat (apply Forall_app; split); auto using unpack_bits_bit)).
  rewrite field_skip, field_prefix by (rewrite ?zlen_unpack; lia).
  replace (zlen hd + 8 * i - zlen hd) with (8 * i) by lia. rewrite (field_split _ _ 8 8) by lia.
  replace (8 * i + 8) with (8 * (i + 1)) by lia. rewrite !field_unpack_byte by (done || lia). lia.
Qed.

(** ** IP datagrams *)
(** The one's complement sum of RFC 1071, before it is folded. *)
Definition words_sum (h : list Z) (n : Z) : Z := zfor 0 n (fun i s => s + (256 * rd h (2 * i) + rd h (2 * i + 1))) 0.

Lemma header_byte h i : Forall is_byte h -> is_byte (rd h i).
Proof. intros Hh. by apply rd_Forall; auto with dab. Qed.

Lemma words_sum_range h n : Forall is_byte h -> 0 <= n -> 2 * n <= zlen h -> 0 <= words_sum h n <= 65535 * n.
Proof.
  intros Hh Hn Hl. apply (zfor_inv (fun i s => 0 <= s <= 65535 * i)); [lia|lia|]. intros i s Hi Hs.
  pose proof (header_byte h (2 * i) Hh) as H1. pose proof (header_byte h (2 * i + 1) Hh) as H2.
  unfold is_byte in *. lia.
Qed.

Lemma lor_bytes hi lo : is_byte lo -> 0 <= hi -> Z.lor (Z.shiftl hi 8) lo = 256 * hi + lo.
Proof.
  intros Hl Hh. unfold is_byte in Hl. rewrite Z.shiftl_mul_pow2, (lor_add_disjoint 8) by lia. lia.
Qed.

Lemma ip_checkSum_words h n :
  Forall is_byte h -> 0 <= n <= 15 -> 4 * n <= zlen h -> ip_checkSum h n = Some (words_sum h (2 * n)).
Proof.
  intros Hh Hn Hl. unfold ip_checkSum. destruct (zforM_inv (fun i s => s = words_sum h i) 0 (2 * n)
    (fun i checkSum => hi ← get h (2 * i); lo ← get h (2 * i + 1); Some (u32 (checkSum + Z.lor (Z.shiftl hi 8) lo))) 0) as (s & -> & ->);
    [lia|done| |done].
  intros i s Hi ->. rewrite !get_Some by lia. cbn [mbind option_bind]. eexists. split; [done|].
  pose proof (header_byte h (2 * i) Hh) as H1. pose proof (header_byte h (2 * i + 1) Hh) as H2. unfold is_byte in H1, H2.
  rewrite lor_bytes by (unfold is_byte; lia). pose proof (words_sum_range h i Hh ltac:(lia) ltac:(lia)).
  unfold words_sum at 2. rewrite zfor_last by lia. apply uwrap_small. unfold words_sum in *. lia.
Qed.

Lemma land_word x : Z.land x 0xFFFF = x mod 2 ^ 16.
Proof. change 0xFFFF with (Z.ones 16). by apply Z.land_ones. Qed.

(** One fold is enough for a header of at most fifteen double words. *)
Lemma checksum_test s :
  0 <= s <= 65535 * 30 ->
  (Z.land (u32 (Z.lnot (u32 (Z.shiftr s 16 + Z.land s 0xFFFF)))) 0xFFFF =? 0) = (s mod 65535 =? 0) && negb (s =? 0).
Proof.
  intros Hs. rewrite !land_word, Z.shiftr_div_pow2 by lia.
  pose proof (Z.div_mod s (2 ^ 16) ltac:(lia)) as E. pose proof (Z.mod_pos_bound s (2 ^ 16) ltac:(lia)).
  assert (0 <= s / 2 ^ 16 <= 29) as Hq by (split; [apply Z.div_pos; lia|apply Z.lt_succ_r, Z.div_lt_upper_bound; lia]).
  set (q := s / 2 ^ 16) in *. set (r := s mod 2 ^ 16) in *. rewrite (uwrap_small 32 (q + r)) by lia.
  assert (u32 (Z.lnot (q + r)) = 2 ^ 32 - 1 - (q + r)) as ->.
  { unfold uwrap. rewrite Z.lnot_eq_pred_opp. symmetry. apply Z.mod_unique_pos with (q := -1); lia. }
  assert ((2 ^ 32 - 1 - (q + r)) mod 2 ^ 16 = 65535 - (q + r) + (if 65535 <? q + r then 65536 else 0)) as ->.
  { destruct (Z.ltb_spec 65535 (q + r)); symmetry; [apply Z.mod_unique_pos with (q := 65534)|apply Z.mod_unique_pos with (q := 65535)]; lia. }
  assert (s mod 65535 = q + r - (if 65535 <=? q + r then 65535 else 0)) as ->.
  { destruct (Z.leb_spec 65535 (q + r)); symmetry; [apply Z.mod_unique_pos with (q := q + 1)|apply Z.mod_unique_pos with (q := q)]; lia. }
  destruct (Z.ltb_spec 65535 (q + r)), (Z.leb_spec 65535 (q + r)); lia.
Qed.

(** The head of an MSC data group (EN 300 401, 5.3.3), any fields present. *)
Record group_head := mk_head {
  gh_crc : bool;
  gh_rest : list Z;            (* type, continuity and repetition index *)
  gh_ext : option (list Z);    (* extension field *)
  gh_seg : option (list Z);    (* segment field *)
  gh_user : option (list Z * bool * list Z)   (* reserved bits, transport id flag, content *)
}.

Definition opt_field (o : option (list Z)) : list Z := default [] o.
Definition user_field (o : option (list Z * bool * list Z)) : list Z :=
  match o with Some (rfa, tid, u) => rfa ++ [b2z tid] ++ msb 4 (zlen u) ++ unpack_bits u | None => [] end.

Definition head_bits (g : group_head) : list Z :=
  [b2z (bool_decide (is_Some (gh_ext g))); b2z (gh_crc g); b2z (bool_decide (is_Some (gh_seg g))); b2z (bool_decide (is_Some (gh_user g)))] ++
  gh_rest g ++ opt_field (gh_ext g) ++ opt_field (gh_seg g) ++ user_field (gh_user g).

Definition bits_of_length (n : Z) (l : list Z) : Prop := Forall is_bit l /\ zlen l = n.

Record head_ok (g : group_head) : Prop := {
  gho_rest : bits_of_length 12 (gh_rest g);
  gho_ext : forall l, gh_ext g = Some l -> bits_of_length 16 l;
  gho_seg : forall l, gh_seg g = Some l -> bits_of_length 16 l;
  gho_user : forall rfa tid u, gh_user g = Some (rfa, tid, u) -> bits_of_length 3 rfa /\ zlen u < 16
}.

Lemma b2z_bit b : is_bit (b2z b).
Proof. by destruct b. Qed.

Lemma b2z_flag b : negb (b2z b =? 0) = b.
Proof. by destruct b. Qed.

Lemma opt_field_ok o n : (forall l, o = Some l -> bits_of_length n l) -> Forall is_bit (opt_field o) /\ zlen (opt_field o) = if bool_decide (is_Some o) then n else 0.
Proof.
  intros H. destruct o as [l|]; cbn [opt_field default]; [|by split; [apply List.Forall_nil|]].
  rewrite bool_decide_true by (by eexists). by apply H.
Qed.

Lemma user_field_bit o : (forall rfa tid u, o = Some (rfa, tid, u) -> bits_of_length 3 rfa /\ zlen u < 16) -> Forall is_bit (user_field o).
Proof.
  intros H. destruct o as [[[rfa tid] u]|]; cbn [user_field]; [|apply List.Forall_nil]. destruct (H _ _ _ eq_refl) as [[Hr _] _].
  repeat (apply Forall_app; split); auto using msb_bit, unpack_bits_bit. apply List.Forall_cons; [apply b2z_bit|apply List.Forall_nil].
Qed.

Lemma head_bits_bit g : head_ok g -> Forall is_bit (head_bits g).
Proof.
  intros [[H1 _] H2 H3 H4]. unfold head_bits. apply Forall_app; split.
  - repeat (apply List.Forall_cons; [apply b2z_bit|]). apply List.Forall_nil.
  - repeat (apply Forall_app; split); [done|apply (opt_field_ok _ 16 H2)|apply (opt_field_ok _ 16 H3)|by apply user_field_bit].
Qed.

(** [_next] is where the data field starts. *)
Lemma ip_next_head g body :
  head_ok g -> Forall is_bit body -> 16 <= zlen body ->
  ip_next (head_bits g ++ body) (bool_decide (is_Some (gh_ext g))) (bool_decide (is_Some (gh_seg g))) (bool_decide (is_Some (gh_user g)))
  = Some (zlen (head_bits g)).
Proof.
  intros Hg Hb Hl. pose proof (head_bits_bit g Hg) as Hbits. assert (Forall is_bit (head_bits g ++ body)) as Hd by (by apply Forall_app).
  destruct Hg as [[_ H1] H2 H3 H4]. destruct (opt_field_ok _ 16 H2) as [_ L2]. destruct (opt_field_ok _ 16 H3) as [_ L3].
  pose proof (zlen_nonneg (user_field (gh_user g))) as Hun.
  set (A := [b2z (bool_decide (is_Some (gh_ext g))); b2z (gh_crc g); b2z (bool_decide (is_Some (gh_seg g))); b2z (bool_decide (is_Some (gh_user g)))] ++
    gh_rest g ++ opt_field (gh_ext g) ++ opt_field (gh_seg g)).
  assert (head_bits g = A ++ user_field (gh_user g)) as EA by (unfold head_bits, A; by rewrite <- !app_assoc).
  assert (zlen A = (if bool_decide (is_Some (gh_ext g)) then 32 else 16) + (if bool_decide (is_Some (gh_seg g)) then 16 else 0)) as LA.
  { unfold A. rewrite !zlen_app, L2, L3, H1. change (zlen [_; _; _; _]) with 4. destruct (bool_decide (is_Some (gh_ext g))), (bool_decide (is_Some (gh_seg g))); lia. }
  rewrite EA in *. rewrite zlen_app. unfold ip_next. set (d := (A ++ user_field (gh_user g)) ++ body) in *.
  assert (zlen d = zlen A + zlen (user_field (gh_user g)) + zlen body) as Ld by (unfold d; rewrite !zlen_app; lia).
  assert ((if bool_decide (is_Some (gh_seg g)) then inside d (if bool_decide (is_Some (gh_ext g)) then 32 else 16) 16 ((if bool_decide (is_Some (gh_ext g)) then 32 else 16) + 16)
    else Some (if bool_decide (is_Some (gh_ext g)) then 32 else 16)) = Some (zlen A)) as ->.
  { destruct (bool_decide (is_Some (gh_ext g))), (bool_decide (is_Some (gh_seg g))); rewrite ?inside_Some by lia; f_equal; lia. }
  cbn [mbind option_bind]. destruct (gh_user g) as [[[rfa tid] u]|] eqn:Eu.
  - rewrite bool_decide_true by (by eexists). destruct (H4 _ _ _ eq_refl) as [[_ Hr] Hu]. pose proof (zlen_nonneg u). pose proof (zlen_nonneg A).
    cbn [user_field] in *. rewrite !zlen_app, zlen_msb, zlen_unpack, Hr in * by lia. change (zlen [b2z tid]) with 1 in *.
    rewrite !inside_Some by lia. cbn [mbind option_bind].
    assert (getBits_4 d (zlen A + 4) = zlen u) as ->.
    { rewrite getBits_4_field by done. unfold d. rewrite <- !app_assoc, !field_skip by (rewrite ?Hr; change (zlen [b2z tid]) with 1; lia).
      rewrite Hr. change (zlen [b2z tid]) with 1. replace (zlen A + 4 - zlen A - 3 - 1) with 0 by lia. apply field_hit; lia. }
    destruct (getBits_1 d (zlen A + 3) =? 0); cbn [mbind option_bind]; f_equal; lia.
  - rewrite bool_decide_false by (by intros [? ?]). cbn [user_field]. change (zlen []) with 0. f_equal.
Qed.

Lemma read_ipVector_bytes hd v tl :
  Forall is_bit hd -> Forall is_bit tl -> Forall is_byte v -> zlen v < 32768 ->
  read_ipVector (hd ++ unpack_bits v ++ tl) (zlen hd) (zlen v) = Some v.
Proof.
  intros Hh Ht Hv Hl. pose proof (zlen_nonneg hd). pose proof (zlen_nonneg tl). pose proof (zlen_nonneg v).
  unfold read_ipVector. assert ((32768 <=? zlen v) = false) as -> by lia.
  rewrite inside_Some by (rewrite ?zlen_app, ?zlen_unpack; lia). f_equal. transitivity (map (rd v) (seqZ 0 (zlen v))); [|apply map_rd]. apply map_ext_in.
  intros i Hi. apply in_seqZ in Hi. apply getBits_8_bytes; done || lia.
Qed.

(** An IPv4 packet with a UDP datagram: header [h], UDP header [u], content [p]. *)
Record datagram_ok (h u p : list Z) : Prop := {
  dg_bytes : Forall is_byte (h ++ u ++ p);
  dg_version : 64 + 5 <= rd h 0 < 80;
  dg_header : zlen h = 4 * (rd h 0 - 64);
  dg_total : 256 * rd h 2 + rd h 3 = zlen (h ++ u ++ p);
  dg_small : zlen (h ++ u ++ p) < 32768;
  dg_protocol : rd h 9 = 17;
  dg_udp : zlen u = 8
}.

Definition header_sum (h : list Z) : Z := words_sum h (2 * (rd h 0 - 64)).

Lemma words_sum_prefix h k n : 2 * n <= zlen h -> words_sum (h ++ k) n = words_sum h n.
Proof. intros Hl. apply zfor_ext. intros i s Hi. by rewrite !rd_app_l by lia. Qed.

Lemma words_sum_pos h n : Forall is_byte h -> 0 < n -> 2 * n <= zlen h -> 0 < rd h 0 -> 0 < words_sum h n.
Proof.
  intros Hh Hn Hl H0. unfold words_sum. rewrite zfor_first by lia.
  apply (zfor_inv (fun i s => 0 < s) (0 + 1) n); [lia| |].
  - pose proof (header_byte h (2 * 0 + 1) Hh) as H1. unfold is_byte in H1. change (2 * 0) with 0 in *. lia.
  - intros i s Hi Hs. pose proof (header_byte h (2 * i) Hh) as H1. pose proof (header_byte h (2 * i + 1) Hh) as H2. unfold is_byte in *. lia.
Qed.

Lemma process_ipVector_datagram {k q} h u p s :
  0 <= k <= 30 -> datagram_ok h u p -> represents k q s ->
  exists s', process_ipVector (h ++ u ++ p) s =
    Some (if header_sum h mod 65535 =? 0 then (s', [signal_write_datagramm (zlen p)]) else (s, [])) /\
    represents k (queue_call (2 ^ k) (op_put p (zlen p)) q).1 s'.
Proof.
  intros Hk [Hb H0 Hh Ht Hs Hp Hu] Hq. pose proof (zlen_nonneg p) as Lp. pose proof Hb as Hb'. apply Forall_app in Hb' as [Hbh Hbp].
  rewrite !zlen_app, Hu in Ht, Hs. unfold process_ipVector. rewrite !get_Some by (rewrite !zlen_app; lia). cbn [mbind option_bind].
  rewrite !rd_app_l by lia. pose proof (header_byte h 2 Hbh) as B2. pose proof (header_byte h 3 Hbh) as B3.
  assert (Z.land (rd h 0) 0x0F = rd h 0 - 64) as ->.
  { change 0x0F with (Z.ones 4). rewrite Z.land_ones by lia. symmetry. apply Z.mod_unique_pos with (q := 4); lia. }
  rewrite lor_bytes by (unfold is_byte in *; lia). rewrite Ht, (i16_small (zlen h + (8 + zlen p))) by lia.
  rewrite ip_checkSum_words by (rewrite ?zlen_app; done || lia). cbn [mbind option_bind]. rewrite words_sum_prefix by lia. fold (header_sum h).
  assert (0 < header_sum h <= 65535 * 30) as Hsum.
  { unfold header_sum. split; [apply words_sum_pos; done || lia|]. pose proof (words_sum_range h (2 * (rd h 0 - 64)) Hbh ltac:(lia) ltac:(lia)). lia. }
  rewrite checksum_test by lia. assert ((header_sum h =? 0) = false) as -> by lia. cbn [negb]. rewrite andb_true_r.
  destruct (call_simulates k (op_put p (zlen p)) q s Hk) as (s' & E & Hs'); [cbn; rewrite uwrap_small; lia|done|].
  exists s'. split; [|exact Hs']. destruct (header_sum h mod 65535 =? 0); cbn [negb]; [|done]. rewrite Hp. cbn [Z.eqb].
  unfold process_udpVector. replace (drop (Z.to_nat (4 * (rd h 0 - 64) + 8)) (h ++ u ++ p)) with p.
  2:{ rewrite app_assoc, drop_app_le, drop_ge; [done|..]; rewrite length_app; unfold zlen in *; lia. }
  rewrite i16_small by lia. replace (zlen h + (8 + zlen p) - 4 * (rd h 0 - 64) - 8) with (zlen p) by lia.
  cbn [ring_call] in E. destruct (put_data_into_ring_buffer p (zlen p) s) as [[s1 n]|]; [|done]. cbn in E. injection E as -> _. done.
Qed.

(** C29: an IPv4 packet with a UDP datagram in an MSC data group: the content of
    the datagram, and nothing else, is appended to the data buffer (as far as
    there is room), and announced with its length.  This is so whichever of
    the optional fields the group has.  If the group has a CRC that is wrong, or
    the checksum of the IP header (RFC 1071) is, nothing happens. *)
Theorem ip_datagram_delivered (k : Z) (q : list Z) (s : RingBuffer Z) (g : group_head) (h u p tl : list Z) :
  0 <= k <= 30 -> represents k q s -> head_ok g -> datagram_ok h u p -> Forall is_bit tl ->
  let d := head_bits g ++ unpack_bits (h ++ u ++ p) ++ tl in
  exists s', ip_add_MSC_data_group d s =
    Some (if (negb (gh_crc g) || check_CRC_bits d (zlen d)) && (header_sum h mod 65535 =? 0)
          then (s', [signal_write_datagramm (zlen p)]) else (s, [])) /\
    represents k (queue_call (2 ^ k) (op_put p (zlen p)) q).1 s'.
Proof.
  intros Hk Hq Hg Hdg Htl d. destruct (process_ipVector_datagram h u p s Hk Hdg Hq) as (s' & E & Hs'). exists s'. split; [|exact Hs'].
  pose proof Hdg as [Hb H0 Hh Ht Hsm Hp Hu]. pose proof (head_bits_bit g Hg) as Hbits. pose proof (zlen_nonneg p). pose proof (zlen_nonneg tl).
  set (v := h ++ u ++ p) in *. assert (zlen h + 8 <= zlen v) as Lv by (unfold v; rewrite !zlen_app; lia).
  assert (zlen d = zlen (head_bits g) + 8 * zlen v + zlen tl) as Ld by (unfold d; rewrite !zlen_app, zlen_unpack; lia).
  assert (16 <= zlen (head_bits g)) as Lh.
  { unfold head_bits. rewrite !zlen_app. destruct Hg as [[_ ->] _ _ _]. change (zlen [_; _; _; _]) with 4.
    pose proof (zlen_nonneg (opt_field (gh_ext g))). pose proof (zlen_nonneg (opt_field (gh_seg g))). pose proof (zlen_nonneg (user_field (gh_user g))). lia. }
  unfold ip_add_MSC_data_group. rewrite inside_Some by lia. cbn [mbind option_bind].
  change (getBits_1 d 0) with (b2z (bool_decide (is_Some (gh_ext g)))). change (getBits_1 d 1) with (b2z (gh_crc g)).
  change (getBits_1 d 2) with (b2z (bool_decide (is_Some (gh_seg g)))). change (getBits_1 d 3) with (b2z (bool_decide (is_Some (gh_user g)))).
  rewrite !b2z_flag. destruct (gh_crc g && negb (check_CRC_bits d (zlen d))) eqn:Ec.
  { by assert (negb (gh_crc g) || check_CRC_bits d (zlen d) = false) as -> by (revert Ec; by destruct (gh_crc g), (check_CRC_bits d (zlen d))). }
  assert (negb (gh_crc g) || check_CRC_bits d (zlen d) = true) as -> by (revert Ec; by destruct (gh_crc g), (check_CRC_bits d (zlen d))).
  cbn [andb]. change (ip_next d) with (ip_next (head_bits g ++ unpack_bits v ++ tl)). rewrite ip_next_head by (done || (try (apply Forall_app; split); auto using unpack_bits_bit) || (rewrite zlen_app, zlen_unpack; lia)).
  cbn [mbind option_bind]. rewrite inside_Some by lia. cbn [mbind option_bind].
  pose proof (getBits_word (head_bits g) v tl 2 Hbits Htl Hb ltac:(lia) ltac:(lia)) as Ew. fold d in Ew. change (8 * 2) with 16 in Ew. rewrite Ew.
  assert (256 * rd v 2 + rd v (2 + 1) = zlen v) as -> by (change (2 + 1) with 3; unfold v at 1 2; by rewrite !rd_app_l, Ht by lia).
  pose proof (Z.div_le_lower_bound (zlen d) 8 (zlen v + 1) ltac:(lia) ltac:(lia)).
  assert ((zlen v <? zlen d / 8) = true) as -> by lia. unfold d. rewrite read_ipVector_bytes by done. cbn [mbind option_bind].
  rewrite get_Some by lia. cbn [mbind option_bind]. assert (rd v 0 = rd h 0) as -> by (unfold v; apply rd_app_l; lia).
  rewrite Z.shiftr_div_pow2 by lia. assert (rd h 0 / 2 ^ 4 = 4) as -> by (symmetry; apply Z.div_unique_pos with (r := rd h 0 - 64); lia).
  exact E.
Qed.

Definition sample_head : group_head := mk_head false (zeros 12) None (Some (zeros 16)) (Some ([0; 0; 0], true, [1; 2])).
Definition sample_ip : list Z := [0x45; 0; 0; 30; 0; 1; 0; 0; 64; 17; 0x66; 0xCC; 10; 0; 0; 1; 10; 0; 0; 2].
Definition sample_udp : list Z := [0; 99; 0; 99; 0; 10; 0; 0].

Lemma sample_head_ok : head_ok sample_head.
Proof.
  assert (forall l n, forallb is_bitb l = true -> zlen l = n -> bits_of_length n l) as H by (intros l n Hb Hl; split; [by apply forall_bits01|done]).
  split; [by apply H|done|intros l [= <-]; by apply H|intros rfa tid u [= <- <- <-]; split; [by apply H|done]].
Qed.

Lemma sample_datagram_ok : datagram_ok sample_ip sample_udp [7; 8].
Proof. split; [apply forall_bytes; reflexivity|split; vm_compute; congruence|done..]. Qed.

Lemma empty_ring_represents : represents 3 [] (RingBuffer_new 8 0).
Proof. exists [], 0. split; [by apply new_holds|done]. Qed.

Lemma ip_datagram_delivered_witness :
  exists s', ip_add_MSC_data_group (head_bits sample_head ++ unpack_bits (sample_ip ++ sample_udp ++ [7; 8]) ++ []) (RingBuffer_new 8 0) =
    Some (s', [signal_write_datagramm 2]) /\ represents 3 [7; 8] s'.
Proof. apply (ip_datagram_delivered 3 [] (RingBuffer_new 8 0) sample_head sample_ip sample_udp [7; 8] []); [lia|apply empty_ring_represents|apply sample_head_ok|apply sample_datagram_ok|apply List.Forall_nil]. Defined.

(** ** What the IP handler does not check *)
(** A length field of 0: the first byte of an empty vector is read. *)
Lemma ip_length_zero : ip_add_MSC_data_group (zeros 48) (RingBuffer_new 8 0) = None.
Proof. vm_compute. reflexivity. Qed.

(** A length field that leaves out the head of the group: a packet that ends
    behind the group is read. *)
Lemma ip_length_unchecked :
  ip_add_MSC_data_group (zeros 16 ++ unpack_bits [0x45; 0; 0; 20; 0; 0; 0; 0; 0; 17; 0; 0; 0; 0; 0; 0; 0; 0; 0]) (RingBuffer_new 8 0) = None.
Proof. vm_compute. reflexivity. Qed.

(** A header length that is longer than the packet. *)
Lemma ip_header_unchecked :
  ip_add_MSC_data_group (zeros 16 ++ unpack_bits [0x4F; 0; 0; 10; 0; 0; 0; 0; 0; 17]) (RingBuffer_new 8 0) = None.
Proof. vm_compute. reflexivity. Qed.

(** A total length without room for the UDP header: a negative count is taken
    for a huge one, and the buffer is filled with what lies behind the packet. *)
Lemma udp_length_unchecked :
  ip_add_MSC_data_group (zeros 16 ++ unpack_bits [0x45; 0; 0; 20; 0; 0; 0; 0; 0; 17; 0xBA; 0xDA; 0; 0; 0; 0; 0; 0; 0; 0]) (RingBuffer_new 8 0) = None.
Proof. vm_compute. reflexivity. Qed.

(** ** Frames of the transparent data channel *)
(** A group of whole bytes, read at whole bytes. *)
Lemma unpack_word B i : Forall is_byte B -> 0 <= i -> i + 1 < zlen B -> getBits (unpack_bits B) (8 * i) 16 = 256 * rd B i + rd B (i + 1).
Proof.
  intros HB Hi Hl. rewrite getBits_field by (lia || apply unpack_bits_bit). rewrite (field_split _ _ 8 8) by lia.
  replace (8 * i + 8) with (8 * (i + 1)) by lia. rewrite !field_unpack_byte by (done || lia). lia.
Qed.

Lemma unpack_octet B i : Forall is_byte B -> 0 <= i < zlen B -> getBits (unpack_bits B) (8 * i) 8 = rd B i.
Proof. intros HB Hi. rewrite getBits_field by (lia || apply unpack_bits_bit). by apply field_unpack_byte. Qed.

Lemma group_bytes_unpack pre B suf off :
  Forall is_byte (pre ++ B ++ suf) -> off = 8 * zlen pre -> group_bytes (unpack_bits (pre ++ B ++ suf)) off (zlen B) = Some B.
Proof.
  intros HB ->. pose proof (zlen_nonneg pre). pose proof (zlen_nonneg B). pose proof (zlen_nonneg suf). unfold group_bytes.
  rewrite inside_Some by (rewrite ?zlen_unpack, ?zlen_app; lia). f_equal. transitivity (map (rd B) (seqZ 0 (zlen B))); [|apply map_rd].
  apply map_ext_in. intros i Hi. apply in_seqZ in Hi. replace (8 * zlen pre + i * 8) with (8 * (zlen pre + i)) by lia.
  rewrite unpack_octet by (rewrite ?zlen_app; done || lia). rewrite rd_app_r, rd_app_l by lia. f_equal. lia.
Qed.

Record tdc_frame := mk_tdc { tf_type : Z; tf_body : list Z }.

Definition tdc_head (f : tdc_frame) : list Z := [0xFF; 0x0F; zlen (tf_body f) / 256; zlen (tf_body f) mod 256].
Definition tdc_crc (f : tdc_frame) : Z :=
  let l := tdc_head f ++ [tf_type f] ++ take 11 (tf_body f) in calc_crc l (zlen l).
Definition enc_tdc (f : tdc_frame) : list Z :=
  tdc_head f ++ [Z.shiftr (tdc_crc f) 8; u8 (tdc_crc f)] ++ [tf_type f] ++ tf_body f.

(** A component of a frame of type 1: identifier, length, CRC and data. *)
Record tdc_component := mk_tc { tc_id : Z; tc_crc : list Z; tc_data : list Z }.
Definition enc_component (c : tdc_component) : list Z := [tc_id c; zlen (tc_data c) / 256; zlen (tc_data c) mod 256] ++ tc_crc c ++ tc_data c.
Definition component_ok (c : tdc_component) : Prop := zlen (tc_crc c) = 2 /\ zlen (tc_data c) < 65536.

Definition tdc_frame_ok (f : tdc_frame) : Prop :=
  Forall is_byte (tf_body f) /\ zlen (tf_body f) < 32768 /\
  (tf_type f = 0 /\ 2 <= zlen (tf_body f) \/
   tf_type f = 1 /\ exists hd enc cs, tf_body f = hd ++ [enc] ++ flat_map enc_component cs /\ zlen hd = 3 /\
     (enc <> 0 \/ cs <> [] /\ Forall component_ok cs)).

Lemma zlen_enc_component c : component_ok c -> zlen (enc_component c) = zlen (tc_data c) + 5.
Proof. intros [H _]. unfold enc_component. rewrite !zlen_app, H. change (zlen [_; _; _]) with 3. lia. Qed.

Lemma rd_second a b l : rd (a :: b :: l) 1 = b.
Proof. done. Qed.
Lemma rd_third a b c l : rd (a :: b :: c :: l) 2 = c.
Proof. done. Qed.

Lemma tdc_components_pass cs : forall fuel pre suf,
  cs <> [] -> Forall component_ok cs -> Forall is_byte (pre ++ flat_map enc_component cs ++ suf) -> zlen (flat_map enc_component cs) < Z.of_nat fuel ->
  tdc_components fuel (unpack_bits (pre ++ flat_map enc_component cs ++ suf)) (8 * zlen pre) (zlen (flat_map enc_component cs)) = Some tt.
Proof.
  induction cs as [|c cs IH]; intros fuel pre suf Hne Hcs HB Hf; [done|]. apply Forall_cons_1 in Hcs as [Hc Hcs].
  pose proof (zlen_enc_component c Hc) as Lc. cbn [flat_map] in *. rewrite zlen_app, Lc in Hf. pose proof (zlen_nonneg (flat_map enc_component cs)). 
  pose proof (zlen_nonneg (tc_data c)). pose proof (zlen_nonneg pre). pose proof (zlen_nonneg suf).
  destruct fuel as [|fuel]; [lia|]. cbn [tdc_components]. replace (8 * zlen pre + 8) with (8 * (zlen pre + 1)) by lia.
  rewrite inside_Some by (rewrite ?zlen_unpack, ?zlen_app, ?Lc; lia). cbn [mbind option_bind].
  rewrite unpack_word by (rewrite ?zlen_app, ?Lc; done || lia).
  assert (256 * rd (pre ++ (enc_component c ++ flat_map enc_component cs) ++ suf) (zlen pre + 1) +
    rd (pre ++ (enc_component c ++ flat_map enc_component cs) ++ suf) (zlen pre + 1 + 1) = zlen (tc_data c)) as ->.
  { rewrite !(rd_app_r pre) by lia. replace (zlen pre + 1 - zlen pre) with 1 by lia. replace (zlen pre + 1 + 1 - zlen pre) with 2 by lia.
    unfold enc_component. cbn [app].
    rewrite rd_second, rd_third. pose proof (Z.div_mod (zlen (tc_data c)) 256). lia. }
  rewrite zlen_app, Lc. replace (zlen (tc_data c) + 5 + zlen (flat_map enc_component cs) - (zlen (tc_data c) + 5)) with (zlen (flat_map enc_component cs)) by lia.
  destruct (Z.ltb_spec 10 (zlen (flat_map enc_component cs))) as [Hgt|]; [|done].
  assert (pre ++ (enc_component c ++ flat_map enc_component cs) ++ suf = (pre ++ enc_component c) ++ flat_map enc_component cs ++ suf) as E by (by rewrite <- !app_assoc).
  rewrite E in *. replace (8 * zlen pre + (zlen (tc_data c) + 5) * 8) with (8 * zlen (pre ++ enc_component c)) by (rewrite zlen_app, Lc; lia).
  apply IH; [|done|done|lia]. intros ->. change (10 < 0) in Hgt. lia.
Qed.

(** The search for the next frame. *)
Lemma tdc_sync_found fill : forall fuel pre rest,
  Forall is_byte (pre ++ fill ++ 0xFF :: 0x0F :: rest) -> ~ In 0xFF fill -> rest <> [] -> (length fill < fuel)%nat ->
  tdc_sync fuel (unpack_bits (pre ++ fill ++ 0xFF :: 0x0F :: rest)) (8 * zlen pre) = Some (8 * zlen (pre ++ fill)).
Proof.
  induction fill as [|b fill IH]; intros fuel pre rest HB Hn Hr Hf; (destruct fuel as [|fuel]; [cbn in Hf; lia|]); cbn [tdc_sync].
  - assert (1 <= zlen rest) as L by (destruct rest; [done|unfold zlen; cbn; lia]). pose proof (zlen_nonneg pre). cbn [app] in *.
    assert ((8 * zlen pre + 16 <? zlen (unpack_bits (pre ++ 0xFF :: 0x0F :: rest))) = true) as ->.
    { rewrite zlen_unpack, zlen_app, !zlen_cons. lia. }
    rewrite unpack_word by (rewrite ?zlen_app, ?zlen_cons; done || lia). rewrite !(rd_app_r pre) by lia.
    replace (zlen pre - zlen pre) with 0 by lia. replace (zlen pre + 1 - zlen pre) with 1 by lia. change (256 * rd (255 :: 15 :: rest) 0 + rd (255 :: 15 :: rest) 1) with 0xFF0F.
    cbn [Z.eqb Pos.eqb]. by rewrite app_nil_r.
  - pose proof (zlen_nonneg pre). pose proof (zlen_nonneg fill). pose proof (zlen_nonneg rest).
    assert ((8 * zlen pre + 16 <? zlen (unpack_bits (pre ++ (b :: fill) ++ 0xFF :: 0x0F :: rest))) = true) as ->.
    { rewrite zlen_unpack, !zlen_app, !zlen_cons. lia. }
    rewrite unpack_word by (rewrite ?zlen_app, ?zlen_cons; done || lia). set (B := pre ++ (b :: fill) ++ 0xFF :: 0x0F :: rest) in *.
    assert (rd B (zlen pre) = b) as -> by (unfold B; rewrite rd_app_r by lia; replace (zlen pre - zlen pre) with 0 by lia; done).
    pose proof (header_byte B (zlen pre + 1) HB) as Hb1. unfold is_byte in Hb1.
    assert ((256 * b + rd B (zlen pre + 1) =? 0xFF0F) = false) as ->.
    { apply Z.eqb_neq. intros E. apply Hn. left. assert (rd B (zlen pre + 1) = 65295 - 256 * b) by lia. lia. }
    assert (B = (pre ++ [b]) ++ fill ++ 0xFF :: 0x0F :: rest) as -> by (unfold B; by rewrite <- app_assoc).
    replace (8 * zlen pre + 8) with (8 * zlen (pre ++ [b])) by (rewrite zlen_app; change (zlen [b]) with 1; lia).
    rewrite IH; [by rewrite <- app_assoc|exact HB|intros Hin; apply Hn; by right|done|cbn in Hf; lia].
Qed.

Lemma tdc_sync_end fill : forall fuel pre,
  Forall is_byte (pre ++ fill) -> ~ In 0xFF fill -> (length fill < fuel)%nat ->
  exists o, tdc_sync fuel (unpack_bits (pre ++ fill)) (8 * zlen pre) = Some o /\ zlen (unpack_bits (pre ++ fill)) <= o + 16.
Proof.
  induction fill as [|b fill IH]; intros fuel pre HB Hn Hf; (destruct fuel as [|fuel]; [cbn in Hf; lia|]); cbn [tdc_sync]; pose proof (zlen_nonneg pre).
  - rewrite app_nil_r. assert ((8 * zlen pre + 16 <? zlen (unpack_bits pre)) = false) as -> by (rewrite zlen_unpack; lia).
    eexists. split; [done|]. rewrite zlen_unpack. lia.
  - destruct (Z.ltb_spec (8 * zlen pre + 16) (zlen (unpack_bits (pre ++ b :: fill)))) as [Hlt|Hge]; [|by eexists].
    rewrite zlen_unpack in Hlt. pose proof Hlt as Hlt'. rewrite zlen_app, zlen_cons in Hlt'. rewrite unpack_word by (done || lia).
    rewrite !(rd_app_r pre) by lia. replace (zlen pre - zlen pre) with 0 by lia. change (rd (b :: fill) 0) with b.
    pose proof (header_byte (b :: fill) (zlen pre + 1 - zlen pre) ltac:(by apply Forall_app in HB as [_ ?])) as Hb1. unfold is_byte in Hb1.
    set (x := rd (b :: fill) (zlen pre + 1 - zlen pre)) in *.
    assert ((256 * b + x =? 0xFF0F) = false) as -> by (apply Z.eqb_neq; intros E; apply Hn; left; lia).
    assert (pre ++ b :: fill = (pre ++ [b]) ++ fill) as E by (by rewrite <- app_assoc). rewrite E in *.
    replace (8 * zlen pre + 8) with (8 * zlen (pre ++ [b])) by (rewrite zlen_app; change (zlen [b]) with 1; lia).
    apply IH; [done|intros Hin; apply Hn; by right|cbn in Hf; lia].
Qed.

Lemma group_part B pre M suf off n :
  B = pre ++ M ++ suf -> Forall is_byte B -> off = 8 * zlen pre -> n = zlen M -> group_bytes (unpack_bits B) off n = Some M.
Proof. intros -> HB -> ->. by apply group_bytes_unpack. Qed.

Lemma calc_crc_reg l n : Forall is_byte l -> 0 <= n <= zlen l -> is_reg (calc_crc l n).
Proof. intros Hl Hn. unfold is_reg. apply uwrap_range. lia. Qed.

(** The handlers, when all that they read is there. *)
Lemma handle_0 data off n body s s' m :
  group_bytes data off n = Some body -> 2 <= zlen body -> put_data_into_ring_buffer body (zlen body) s = Some (s', m) -> n = zlen body ->
  handleFrame_type_0 data off n s = Some (s', [signal_bytes_out 0 n], off + n * 8).
Proof.
  intros Eg Hl Ep ->. unfold handleFrame_type_0. rewrite Eg. cbn [mbind option_bind]. rewrite !get_Some by lia.
  cbn [mbind option_bind]. by rewrite Ep.
Qed.

Lemma handle_1 data off n body s s' m :
  group_bytes data off n = Some body -> 0 <= off -> off + 32 <= zlen data -> put_data_into_ring_buffer body (zlen body) s = Some (s', m) -> n = zlen body ->
  (getBits data (off + 24) 8 = 0 -> tdc_components (Z.to_nat n + 1) data (off + 4 * 8) (n - 4) = Some tt) ->
  handleFrame_type_1 data off n s = Some (s', [signal_bytes_out 1 n], off + n * 8).
Proof.
  intros Eg Ho Hl Ep ->. assert (0 <= off + 24 /\ off + 24 + 8 <= zlen data) as [H1 H2] by lia.
  unfold handleFrame_type_1. rewrite Eg. generalize (getBits data (off + 24) 8). intros e Hc. cbn [mbind option_bind]. rewrite Ep.
  cbn [mbind option_bind]. rewrite inside_Some by (exact H1 || exact H2). cbn [mbind option_bind].
  destruct (Z.eqb_spec e 0) as [Ez|]; [|done]. by rewrite (Hc Ez).
Qed.

Section frame.
Context (pre suf : list Z) (f : tdc_frame).
Context (Hf : tdc_frame_ok f) (HB : Forall is_byte (pre ++ enc_tdc f ++ suf)).
Let B := pre ++ enc_tdc f ++ suf.
Let d := unpack_bits B.
Let len := zlen (tf_body f).

Lemma zlen_enc_tdc : zlen (enc_tdc f) = 7 + len.
Proof. unfold enc_tdc, tdc_head. rewrite !zlen_app, !zlen_cons, zlen_nil. unfold len. lia. Qed.

Lemma tdc_lengths : 0 <= len < 32768 /\ zlen d = 8 * (zlen pre + 7 + len + zlen suf) /\ 0 <= zlen pre /\ 0 <= zlen suf.
Proof.
  destruct Hf as (_ & Hl & _). pose proof (zlen_nonneg (tf_body f)). pose proof (zlen_nonneg pre). pose proof (zlen_nonneg suf).
  unfold d, B. rewrite zlen_unpack, !zlen_app, zlen_enc_tdc. unfold len in *. lia.
Qed.

(** The parts of the frame. *)
Lemma tdc_part a M b off n : enc_tdc f = a ++ M ++ b -> off = 8 * (zlen pre + zlen a) -> n = zlen M -> group_bytes d off n = Some M.
Proof.
  intros E -> ->. apply (group_part B (pre ++ a) M (b ++ suf)); [|done|by rewrite zlen_app|done].
  unfold B. by rewrite E, <- !app_assoc.
Qed.

Lemma tdc_length_field : i16 (getBits d (8 * zlen pre + 16) 16) = len.
Proof.
  destruct tdc_lengths as (Hl & Ld & Hp & Hs). replace (8 * zlen pre + 16) with (8 * (zlen pre + 2)) by lia.
  unfold d. rewrite unpack_word by (first [exact HB|unfold B; rewrite ?zlen_app, ?zlen_enc_tdc; lia]). unfold B. rewrite !(rd_app_r pre) by lia.
  replace (zlen pre + 2 - zlen pre) with 2 by lia. replace (zlen pre + 2 + 1 - zlen pre) with 3 by lia.
  rewrite !rd_app_l by (rewrite zlen_enc_tdc; lia).
  change (rd (enc_tdc f) 2) with (zlen (tf_body f) / 256). change (rd (enc_tdc f) 3) with (zlen (tf_body f) mod 256).
  pose proof (Z.div_mod (zlen (tf_body f)) 256 ltac:(lia)) as E. rewrite <- E. apply i16_small. fold len. lia.
Qed.

Lemma tdc_type_field : getBits d (8 * zlen pre + 48) 8 = tf_type f.
Proof.
  destruct tdc_lengths as (Hl & Ld & Hp & Hs). replace (8 * zlen pre + 48) with (8 * (zlen pre + 6)) by lia.
  unfold d. rewrite unpack_octet by (first [exact HB|unfold B; rewrite ?zlen_app, ?zlen_enc_tdc; lia]). unfold B. rewrite (rd_app_r pre) by lia.
  replace (zlen pre + 6 - zlen pre) with 6 by lia. by rewrite rd_app_l by (rewrite zlen_enc_tdc; lia).
Qed.

Lemma tdc_bytes : Forall is_byte (tdc_head f) /\ is_byte (tf_type f) /\ Forall is_byte (tf_body f).
Proof.
  apply Forall_app in HB as [_ H]. apply Forall_app in H as [H _]. unfold enc_tdc in H.
  apply Forall_app in H as [H1 H]. apply Forall_app in H as [_ H]. apply Forall_app in H as [H2 H3]. by apply Forall_cons_1 in H2 as [H2 _].
Qed.

Lemma tdc_header_checked : tdc_header_ok d (8 * zlen pre) len = Some true.
Proof.
  destruct tdc_lengths as (Hl & Ld & Hp & Hs). destruct tdc_bytes as (H1 & H2 & H3). unfold tdc_header_ok.
  set (size := if len <? 11 then len else 11). assert (zlen (take 11 (tf_body f)) = size) as Lt.
  { unfold size, len, zlen. rewrite length_take. destruct (Z.ltb_spec (Z.of_nat (length (tf_body f))) 11); lia. }
  assert (zlen (tdc_head f) = 4) as L4 by reflexivity. set (c := [Z.shiftr (tdc_crc f) 8; u8 (tdc_crc f)]).
  assert (zlen c = 2) as L2 by reflexivity. assert (zlen [tf_type f] = 1) as L1 by reflexivity.
  assert (enc_tdc f = tdc_head f ++ c ++ [tf_type f] ++ tf_body f) as E by reflexivity.
  rewrite (tdc_part [] (tdc_head f) (c ++ [tf_type f] ++ tf_body f) (8 * zlen pre) 4) by (done || (rewrite ?zlen_nil; lia)).
  rewrite (tdc_part (tdc_head f ++ c) [tf_type f] (tf_body f) (8 * zlen pre + 6 * 8) 1) by (first [by rewrite <- !app_assoc|rewrite ?zlen_app; lia]).
  rewrite (tdc_part (tdc_head f ++ c ++ [tf_type f]) (take 11 (tf_body f)) (drop 11 (tf_body f)) (8 * zlen pre + 7 * 8) size)
    by (first [by rewrite <- !app_assoc, take_drop|rewrite ?zlen_app; lia]).
  rewrite (tdc_part (tdc_head f) c ([tf_type f] ++ tf_body f) (8 * zlen pre + 4 * 8) 2) by (done || lia).
  cbn [mbind option_bind]. f_equal. set (msg := tdc_head f ++ [tf_type f] ++ take 11 (tf_body f)).
  assert (zlen msg = 5 + size) as Lm by (unfold msg; rewrite !zlen_app, Lt; change (zlen (tdc_head f)) with 4; change (zlen [_]) with 1; lia).
  assert (Forall is_byte msg) as Hm.
  { unfold msg. repeat (apply Forall_app; split); [done|by apply List.Forall_cons; [|apply List.Forall_nil]|by apply Forall_take]. }
  pose proof (crc_appended msg [] (5 + size) Hm ltac:(lia)) as E'. unfold c, tdc_crc. fold msg. rewrite Lm. revert E'.
  unfold msg. by rewrite app_nil_r, <- !app_assoc.
Qed.

(** The handlers, on a frame that is there. *)
Lemma tdc_body_bytes : group_bytes d (8 * zlen pre + 7 * 8) len = Some (tf_body f).
Proof.
  apply (tdc_part (tdc_head f ++ [Z.shiftr (tdc_crc f) 8; u8 (tdc_crc f)] ++ [tf_type f]) (tf_body f) []); [|rewrite !zlen_app|done].
  - unfold enc_tdc. by rewrite app_nil_r, <- !app_assoc.
  - change (zlen (tdc_head f)) with 4. change (zlen [_; _]) with 2. change (zlen [_]) with 1. lia.
Qed.

(** What either handler does with the data buffer. *)
Lemma put_body k q s : 0 <= k <= 30 -> represents k q s ->
  exists s' n, put_data_into_ring_buffer (tf_body f) len s = Some (s', n) /\
    represents k (queue_call (2 ^ k) (op_put (tf_body f) len) q).1 s'.
Proof.
  intros Hk Hq. destruct tdc_lengths as (Hl & _).
  destruct (call_simulates k (op_put (tf_body f) len) q s Hk) as (s' & E & Hs'); [cbn; rewrite uwrap_small; [done|lia]|done|].
  cbn [ring_call] in E. destruct (put_data_into_ring_buffer (tf_body f) len s) as [[s1 n]|]; [|done]. cbn in E. injection E as -> _. by exists s', n.
Qed.

Lemma tdc_components_done : tf_type f = 1 ->
  getBits d (8 * zlen pre + 7 * 8 + 24) 8 = 0 ->
  4 <= len /\ tdc_components (Z.to_nat len + 1) d (8 * zlen pre + 7 * 8 + 4 * 8) (len - 4) = Some tt.
Proof.
  destruct tdc_lengths as (Hl & Ld & Hp & Hs). intros Ht. destruct Hf as (Hbody & _ & [[Ht0 _]|[_ (hd & enc & cs & Eb & Lh & Hcs)]]); [lia|].
  assert (len = 4 + zlen (flat_map enc_component cs)) as El by (unfold len; rewrite Eb, !zlen_app, Lh; change (zlen [enc]) with 1; lia).
  pose proof (zlen_nonneg (flat_map enc_component cs)).
  replace (8 * zlen pre + 7 * 8 + 24) with (8 * (zlen pre + 10)) by lia. unfold d at 1.
  rewrite unpack_octet by (first [exact HB|unfold B; rewrite ?zlen_app, ?zlen_enc_tdc; lia]). unfold B at 1. rewrite (rd_app_r pre) by lia.
  replace (zlen pre + 10 - zlen pre) with 10 by lia. rewrite rd_app_l by (rewrite zlen_enc_tdc; lia).
  set (hdr := tdc_head f ++ [Z.shiftr (tdc_crc f) 8; u8 (tdc_crc f)] ++ [tf_type f]). assert (zlen hdr = 7) as L7 by reflexivity.
  assert (enc_tdc f = hdr ++ tf_body f) as E by (unfold enc_tdc, hdr; by rewrite <- !app_assoc).
  rewrite E, Eb, rd_app_r, L7, rd_app_r, Lh by lia. change (10 - 7 - 3) with 0. change (rd ([enc] ++ flat_map enc_component cs) 0) with enc.
  intros ->. destruct Hcs as [|[Hne Hcs]]; [done|]. split; [lia|].
  assert (B = (pre ++ hdr ++ hd ++ [0]) ++ flat_map enc_component cs ++ suf) as EB by (unfold B; by rewrite E, Eb, <- !app_assoc).
  assert (zlen (pre ++ hdr ++ hd ++ [0]) = zlen pre + 11) as Lp by (rewrite !zlen_app, L7, Lh; change (zlen [0]) with 1; lia).
  unfold d. rewrite EB. replace (len - 4) with (zlen (flat_map enc_component cs)) by lia.
  replace (8 * zlen pre + 7 * 8 + 4 * 8) with (8 * zlen (pre ++ hdr ++ hd ++ [0])) by lia.
  apply tdc_components_pass; [done|done|rewrite <- EB; exact HB|lia].
Qed.

Lemma tdc_frame_end : 8 * zlen pre + 7 * 8 + len * 8 = 8 * zlen (pre ++ enc_tdc f).
Proof. rewrite zlen_app, zlen_enc_tdc. lia. Qed.

Lemma tdc_type_1_length : tf_type f = 1 -> 4 <= len.
Proof.
  intros Ht. destruct Hf as (_ & _ & [[Ht0 _]|[_ (hd & enc & cs & Eb & Lh & _)]]); [lia|]. unfold len. rewrite Eb, !zlen_app, Lh.
  change (zlen [enc]) with 1. pose proof (zlen_nonneg (flat_map enc_component cs)). lia.
Qed.

(** A frame is handed on, and the group is read on behind it. *)
Lemma tdc_frame_step k q s : 0 <= k <= 30 -> represents k q s ->
  exists s', represents k (queue_call (2 ^ k) (op_put (tf_body f) len) q).1 s' /\
    (if tf_type f =? 0 then handleFrame_type_0 d (8 * zlen pre + 7 * 8) len s else handleFrame_type_1 d (8 * zlen pre + 7 * 8) len s)
    = Some (s', [signal_bytes_out (tf_type f) len], 8 * zlen (pre ++ enc_tdc f)).
Proof.
  intros Hk Hq. destruct tdc_lengths as (Hl & Ld & Hp & Hs). destruct (put_body k q s Hk Hq) as (s' & n & Ep & Hs'). exists s'. split; [exact Hs'|].
  rewrite <- tdc_frame_end. pose proof Hf as (_ & _ & [[Ht Hl2]|[Ht _]]); rewrite Ht.
  - apply (handle_0 _ _ _ (tf_body f) _ _ n); [apply tdc_body_bytes|exact Hl2|exact Ep|done].
  - pose proof (tdc_type_1_length Ht). apply (handle_1 _ _ _ (tf_body f) _ _ n); [apply tdc_body_bytes|lia|lia|exact Ep|done|].
    intros Ez. apply (tdc_components_done Ht Ez).
Qed.
End frame.

(** One pass of the loop over the frames. *)
Lemma tdc_loop_pass fuel data offset o len t s s' ev o' :
  offset < zlen data -> tdc_sync (Z.to_nat (zlen data) + 1) data offset = Some o -> 0 <= o -> o + 56 <= zlen data ->
  i16 (getBits data (o + 16) 16) = len -> 0 <= len < (zlen data - o) / 8 -> tdc_header_ok data o len = Some true ->
  getBits data (o + 48) 8 = t -> t = 0 \/ t = 1 ->
  (if t =? 0 then handleFrame_type_0 data (o + 7 * 8) len s else handleFrame_type_1 data (o + 7 * 8) len s) = Some (s', ev, o') ->
  tdc_loop (S fuel) data offset s = (q ← tdc_loop fuel data o' s'; Some (fst q, ev ++ snd q)).
Proof.
  intros H1 H2 H3 H4 H5 H6 H7 H8 H9 H10. cbn [tdc_loop]. assert ((offset <? zlen data) = true) as -> by lia. rewrite H2. cbn [mbind option_bind].
  assert ((zlen data <=? o + 16) = false) as -> by lia. rewrite H5, H8. rewrite !inside_Some by lia. cbn [mbind option_bind].
  assert (((len <? 0) || ((zlen data - o) / 8 <=? len)) = false) as -> by lia. rewrite H7. cbn [mbind option_bind negb].
  assert (((t =? 0) || (t =? 1)) = true) as -> by lia. by rewrite H10.
Qed.

(** What the data buffer holds after the bodies of the frames. *)
Definition queue_puts (N : Z) (q : list Z) (bodies : list (list Z)) : list Z :=
  fold_left (fun q p => (queue_call N (op_put p (zlen p)) q).1) bodies q.

(** Frames with something between them in which 0xFF does not occur. *)
Definition tdc_stream (items : list (list Z * tdc_frame)) (tail : list Z) : list Z :=
  flat_map (fun it => fst it ++ enc_tdc (snd it)) items ++ tail.

Lemma tdc_loop_frames k items : forall fuel pre tail q s,
  0 <= k <= 30 -> represents k q s -> Forall is_byte (pre ++ tdc_stream items tail) ->
  Forall (fun it => ~ In 0xFF (fst it) /\ tdc_frame_ok (snd it)) items -> ~ In 0xFF tail -> (length items < fuel)%nat ->
  exists s', tdc_loop fuel (unpack_bits (pre ++ tdc_stream items tail)) (8 * zlen pre) s =
    Some (s', map (fun it => signal_bytes_out (tf_type (snd it)) (zlen (tf_body (snd it)))) items) /\
    represents k (queue_puts (2 ^ k) q (map (fun it => tf_body (snd it)) items)) s'.
Proof.
  induction items as [|[fill f] items IH]; intros fuel pre tail q s Hk Hq HB Hit Ht Hfuel; (destruct fuel as [|fuel]; [cbn in Hfuel; lia|]).
  - exists s. split; [|done]. unfold tdc_stream in *. cbn [flat_map app map] in *. cbn [tdc_loop].
    destruct (8 * zlen pre <? zlen (unpack_bits (pre ++ tail))); [|done].
    destruct (tdc_sync_end tail (Z.to_nat (zlen (unpack_bits (pre ++ tail))) + 1) pre HB Ht) as (o & -> & Ho).
    { rewrite zlen_unpack, zlen_app. pose proof (zlen_nonneg pre). unfold zlen. lia. }
    cbn [mbind option_bind]. by assert ((zlen (unpack_bits (pre ++ tail)) <=? o + 16) = true) as -> by lia.
  - apply Forall_cons_1 in Hit as [[Hfill Hf] Hit]. cbn [fst snd] in *.
    assert (pre ++ tdc_stream ((fill, f) :: items) tail = (pre ++ fill) ++ enc_tdc f ++ tdc_stream items tail) as E.
    { unfold tdc_stream. cbn [flat_map fst snd]. by rewrite <- !app_assoc. }
    rewrite E in *. destruct (tdc_lengths (pre ++ fill) (tdc_stream items tail) f Hf) as (Hl & Ld & Hp & Hs).
    destruct (tdc_frame_step (pre ++ fill) (tdc_stream items tail) f Hf HB k q s Hk Hq) as (s1 & Hq1 & Hstep).
    assert (((pre ++ fill) ++ enc_tdc f) ++ tdc_stream items tail = (pre ++ fill) ++ enc_tdc f ++ tdc_stream items tail) as E1 by (by rewrite <- app_assoc).
    destruct (IH fuel ((pre ++ fill) ++ enc_tdc f) tail _ s1 Hk Hq1) as (s' & E2 & Hs'); [by rewrite E1|done|done|cbn in Hfuel; lia|].
    rewrite E1 in E2. exists s'. split; [|exact Hs'].
    pose proof (zlen_nonneg pre). pose proof (zlen_nonneg fill). rewrite zlen_app in Ld.
    rewrite (tdc_loop_pass fuel _ _ (8 * zlen (pre ++ fill)) (zlen (tf_body f)) (tf_type f) s s1
      [signal_bytes_out (tf_type f) (zlen (tf_body f))] (8 * zlen ((pre ++ fill) ++ enc_tdc f)));
      [|lia| |lia|rewrite zlen_app; lia|by apply tdc_length_field| |by apply tdc_header_checked|by apply tdc_type_field| |exact Hstep].
    + by rewrite E2.
    + rewrite <- app_assoc. apply (tdc_sync_found fill _ pre); [by rewrite <- app_assoc in HB|done|done|].
      rewrite zlen_unpack, !zlen_app. unfold zlen. lia.
    + rewrite Ld. split; [lia|]. apply Z.lt_le_trans with (zlen (tf_body f) + 1); [lia|]. apply Z.div_le_lower_bound; [lia|]. rewrite zlen_app; lia.
    + destruct Hf as (_ & _ & [[-> _]|[-> _]]); [by left|by right].
Qed.

(** C30: every frame of a transparent data channel in a data group is handed on
    whole, in order: its body is appended to the data buffer (as far as there
    is room), and announced with its type and length.  Between the frames,
    and behind the last one, anything may stand in which the byte 0xFF does
    not occur. *)
Theorem tdc_frames_delivered (k : Z) (q : list Z) (s : RingBuffer Z) (items : list (list Z * tdc_frame)) (tail : list Z) :
  0 <= k <= 30 -> represents k q s -> Forall is_byte (tdc_stream items tail) ->
  Forall (fun it => ~ In 0xFF (fst it) /\ tdc_frame_ok (snd it)) items -> ~ In 0xFF tail ->
  exists s', tdc_add_MSC_data_group (unpack_bits (tdc_stream items tail)) s =
    Some (s', map (fun it => signal_bytes_out (tf_type (snd it)) (zlen (tf_body (snd it)))) items) /\
    represents k (queue_puts (2 ^ k) q (map (fun it => tf_body (snd it)) items)) s'.
Proof.
  intros Hk Hq HB Hit Ht. apply (tdc_loop_frames k items _ [] tail q s); try done. rewrite zlen_unpack.
  assert (zlen items <= zlen (tdc_stream items tail)) as Hl; [|unfold zlen in *; lia].
  clear. unfold tdc_stream. rewrite zlen_app. pose proof (zlen_nonneg tail). induction items as [|it items IH]; [unfold zlen in *; cbn; lia|].
  cbn [flat_map]. rewrite !zlen_app, zlen_enc_tdc, zlen_cons. pose proof (zlen_nonneg (fst it)). pose proof (zlen_nonneg (tf_body (snd it))). lia.
Qed.

Definition sample_tdc : list (list Z * tdc_frame) :=
  [([], mk_tdc 0 [1; 2; 3]); ([0; 0], mk_tdc 1 ([4; 5; 6] ++ [0] ++ flat_map enc_component [mk_tc 7 [0; 0] [8; 9]]))].

Lemma tdc_frames_delivered_witness :
  exists s', tdc_add_MSC_data_group (unpack_bits (tdc_stream sample_tdc [0; 1])) (RingBuffer_new 8 0) =
    Some (s', [signal_bytes_out 0 3; signal_bytes_out 1 11]) /\ represents 3 [1; 2; 3; 4; 5; 6; 0; 7] s'.
Proof.
  apply (tdc_frames_delivered 3 [] (RingBuffer_new 8 0) sample_tdc [0; 1]); [lia|apply empty_ring_represents|apply forall_bytes; vm_compute; reflexivity| |cbn; lia].
  repeat (apply List.Forall_cons; [split; [cbn; lia|split; [apply forall_bytes; reflexivity|split; [vm_compute; reflexivity|]]]|]); [..|apply List.Forall_nil].
  - left. split; [reflexivity|vm_compute; congruence].
  - right. split; [reflexivity|]. exists [4; 5; 6], 0, [mk_tc 7 [0; 0] [8; 9]]. split; [reflexivity|]. split; [reflexivity|]. right.
    split; [discriminate|]. apply List.Forall_cons; [split; reflexivity|apply List.Forall_nil].
Defined.

(** ** What the TDC handler does not check *)
(** The length is compared with the group, but not the seven bytes of the header:
    the body is read behind the end of the group. *)
Lemma tdc_length_unchecked :
  tdc_add_MSC_data_group (unpack_bits (take 12 (enc_tdc (mk_tdc 2 [0; 0; 0; 0; 0; 0; 0; 0; 0; 0; 0])))) (RingBuffer_new 8 0) = None.
Proof. vm_compute. reflexivity. Qed.

(** A frame of type 0 without room for its CRC: the array is read at index -2. *)
Lemma tdc_crc_unchecked : tdc_add_MSC_data_group (unpack_bits (enc_tdc (mk_tdc 0 []))) (RingBuffer_new 8 0) = None.
Proof. vm_compute. reflexivity. Qed.
