(* ===== verification/EtiGenerator.v ===== *)
(** * ETI generator (src/src/base/eti_handler/eti_generator.cpp)

    Writes the received multiplex into a file in the ETI(NI, G.703) format: for
    every CIF a frame of 6144 bytes with a header that describes the streams,
    the FIBs of the CIF, and the decoded bytes of every sub-channel.

    The static arrays of the file are members of the record.  The FIC decoder is
    shared with the receiver and given to the calls that read it.  Written
    frames are collected in [etiFile].  [None] is a failing [assert] or an access
    outside of a buffer; the only such access that is not [None] is the write to
    [fibValid] (which nothing reads): elements behind its end are dropped here,
    [fibValid_overrun] says when the code writes them. *)
From S2P Require Import Prelude Checked Crc Protection Backend FibConfig FibFig0 FibDecoder FicDecoder.
Open Scope Z_scope.

Definition cCifBits : Z := 55296.

Record EtiGenerator := mkEti {
  etiFile : option (list (list Z));
  eti_running : bool;
  index_Out : Z;
  Minor : Z;
  CIFCount_hi : Z;
  CIFCount_lo : Z;
  amount : Z;
  mSubChIdList : list Z;
  cif_In : list Z;
  cifVector : list (list Z);
  fibVector : list (list Z);
  fibValid : list bool;
  temp : list Z;
  protTable : list (option Protection);
  descrambler : list (list Z);
  theVector : list Z
}.

(** Setters for what the operations change together. *)
Definition set_run (f : option (list (list Z))) (r : bool) (s : EtiGenerator) : EtiGenerator :=
  mkEti f r (index_Out s) (Minor s) (CIFCount_hi s) (CIFCount_lo s) (amount s) (mSubChIdList s) (cif_In s)
    (cifVector s) (fibVector s) (fibValid s) (temp s) (protTable s) (descrambler s) (theVector s).
Definition set_place (index minor amount : Z) (s : EtiGenerator) : EtiGenerator :=
  mkEti (etiFile s) (eti_running s) index minor (CIFCount_hi s) (CIFCount_lo s) amount (mSubChIdList s) (cif_In s)
    (cifVector s) (fibVector s) (fibValid s) (temp s) (protTable s) (descrambler s) (theVector s).
Definition set_frame (hi lo : Z) (ids : list Z) (fibs : list (list Z)) (valid : list bool) (s : EtiGenerator) : EtiGenerator :=
  mkEti (etiFile s) (eti_running s) (index_Out s) (Minor s) hi lo (amount s) ids (cif_In s)
    (cifVector s) fibs valid (temp s) (protTable s) (descrambler s) (theVector s).
Definition set_cif (cif : list Z) (rows : list (list Z)) (t : list Z) (s : EtiGenerator) : EtiGenerator :=
  mkEti (etiFile s) (eti_running s) (index_Out s) (Minor s) (CIFCount_hi s) (CIFCount_lo s) (amount s) (mSubChIdList s) cif
    rows (fibVector s) (fibValid s) t (protTable s) (descrambler s) (theVector s).
Definition set_tables (prots : list (option Protection)) (descr : list (list Z)) (v : list Z) (s : EtiGenerator) : EtiGenerator :=
  mkEti (etiFile s) (eti_running s) (index_Out s) (Minor s) (CIFCount_hi s) (CIFCount_lo s) (amount s) (mSubChIdList s) (cif_In s)
    (cifVector s) (fibVector s) (fibValid s) (temp s) prots descr v.

(** [reset]; a descrambler of [nullptr] is the empty list. *)
Definition eti_reset (s : EtiGenerator) : EtiGenerator :=
  mkEti (etiFile s) false 0 (-1) (-1) (-1) 0 (mSubChIdList s) (cif_In s) (cifVector s) (fibVector s) (fibValid s) (temp s)
    (replicate 64 None) (replicate 64 []) (theVector s).

Definition start_eti_generator (opened : bool) (s : EtiGenerator) : EtiGenerator * bool :=
  (set_run (if opened then Some [] else None) false (eti_reset s), opened).
Definition stop_eti_generator (s : EtiGenerator) : EtiGenerator := set_run None false s.

(** ** [_init_eti] *)
(** The count of the CIF: the one of the frame and [minor]. *)
Definition eti_cif_count (hi lo minor : Z) : Z * Z :=
  let lo := i16 (lo + minor) in
  let '(hi, lo) := if 250 <=? lo then (i16 (hi + 1), Z.rem lo 250) else (hi, lo) in
  (if 20 <=? hi then 20 else hi, lo).

Definition eti_stream_info (fib : FibDecoder) (subChId : Z) : option SChannelData :=
  if subChId <? 64 then
    let data := get_sub_channel_info fib subChId in
    if cd_in_use data then Some data else None
  else None.

(** [STC]: where a stream comes from and how long it is. *)
Definition eti_STC (data : SChannelData) : list Z :=
  let SAD := cd_start_cu data in
  let TPL := if cd_uepFlag data then Z.lor 0x10 (cd_protlev data - 1) else Z.lor 0x20 (cd_protlev data) in
  let STL := Z.quot (cd_bitrate data * 3) 8 in
  [u8 (Z.lor (Z.shiftl (cd_id data) 2) (Z.shiftr (Z.land SAD 0x300) 8)); u8 (Z.land SAD 0xFF);
   u8 (Z.lor (Z.shiftl TPL 2) (Z.shiftr (Z.land STL 0x300) 8)); u8 (Z.land STL 0xFF)].

Definition eti_FSYNC (lo : Z) : list Z := if Z.land lo 1 =? 0 then [0x07; 0x3a; 0xb6] else [0xf8; 0xc5; 0x49].

(** [FL]: the frame length in words of 32 bits. *)
Definition eti_FL (datas : list SChannelData) : Z :=
  fold_left (fun FL data => FL + Z.quot (cd_bitrate data * 3) 4) datas 0 + (zlen datas + 1 + 24).

(** The bytes written from the start of [oEti]; their number is the result. *)
Definition init_eti (fib : FibDecoder) (ids : list Z) (hi lo minor : Z) : option (list Z) :=
  let '(hi, lo) := eti_cif_count hi lo minor in
  datas ← mapM (eti_stream_info fib) ids;
  let NST := zlen datas in
  let FL := eti_FL datas in
  let FP := u8 (Z.rem (hi * 250 + lo) 8) in
  let eti := [0xFF] ++ eti_FSYNC lo ++
    [u8 lo; u8 (Z.lor (Z.shiftl 1 7) NST);
     u8 (Z.lor (Z.lor (Z.shiftl FP 5) (Z.shiftl 1 3)) (Z.shiftr (Z.land FL 0x700) 8)); u8 (Z.land FL 0xff)] ++
    concat (map eti_STC datas) ++ [0xFF; 0xFF] in
  let HCRC := calc_crc (drop 4 eti) (zlen eti - 4) in
  Some (eti ++ [Z.shiftr (Z.land HCRC 0xff00) 8; Z.land HCRC 0xff]).

(** ** [_process_cif], [_process_sub_channel] *)
(** Eight bits, one per element, make a byte. *)
Definition pack8 (bits : list Z) (j : Z) : Z :=
  zfor 0 8 (fun k t => Z.lor (Z.shiftl t 1) (Z.land (rd bits (8 * j + k)) 1)) 0.
Definition pack_vector (bits : list Z) (n : Z) : list Z := map (pack8 bits) (seqZ 0 n).

(** The decoder writes [outSize] bits into [outVector] and reads its addresses
    from the segment of the sub-channel. *)
Definition process_sub_channel (input : list Z) (data : SChannelData) (prot : Protection) (desc : list Z)
  : option (Protection * list Z) :=
  let n := 24 * cd_bitrate data in
  if (n <? outSize prot) || (zlen desc <? n) then None
  else
    iV ← getn input (cd_start_cu data * 64) (zlen (viterbiBlockAddresses prot));
    let '(prot, out) := backend_deconvolve prot iV in
    let outVector := disperse desc (out ++ zeros (n - outSize prot)) n in
    Some (prot, pack_vector outVector (Z.quot n 8)).

(** The table entry of a sub-channel, made when it is used first. *)
Definition eti_entry (subChId : Z) (data : SChannelData) (prots : list (option Protection)) (descr : list (list Z))
  : option (Protection * list Z) :=
  match nth (Z.to_nat subChId) prots None with
  | Some p => Some (p, nth (Z.to_nat subChId) descr [])
  | None =>
      p ← (if cd_uepFlag data then UepProtection_new (cd_bitrate data) (cd_protlev data)
           else EepProtection_new (cd_bitrate data) (cd_protlev data));
      Some (p, make_disperse (cd_bitrate data))
  end.

Definition eti_tables : Type := list (option Protection) * list (list Z) * list Z * Z.

(** One pass of the loop over the sub-channels. *)
Definition eti_stream (fib : FibDecoder) (input : list Z) (subChId : Z) (t : eti_tables) : option eti_tables :=
  let '(prots, descr, output, offset) := t in
  if subChId <? 0 then None
  else
    data ← eti_stream_info fib subChId;
    '(p, desc) ← eti_entry subChId data prots descr;
    '(p, bytes) ← process_sub_channel input data p desc;
    output ← putn output offset bytes;
    Some (<[Z.to_nat subChId := Some p]> prots, <[Z.to_nat subChId := desc]> descr, output,
          offset + Z.quot (cd_bitrate data * 24) 8).

Fixpoint process_cif (fib : FibDecoder) (input : list Z) (ids : list Z) (t : eti_tables) : option eti_tables :=
  match ids with
  | [] => Some t
  | subChId :: ids => t ← eti_stream fib input subChId t; process_cif fib input ids t
  end.

(** ** [process_block] *)
(** At symbol 4: the FIBs of the frame, its CIF count and its sub-channels. *)
Definition import_fic (fic : FicDecoder) (s : EtiGenerator) : EtiGenerator :=
  let '(fibBits, ficValid) := get_fib_bits fic in
  let fibs := zfor 0 4 (fun i v => <[Z.to_nat (Z.land (index_Out s + i) 15) := pack_vector (slice fibBits (i * 768) 768) 96]> v) (fibVector s) in
  let valid := zfor 0 4 (fun i v => <[Z.to_nat (index_Out s + i) := nth (Z.to_nat i) ficValid false]> v) (fibValid s) in
  let '(hi, lo) := get_cif_count_parts (mpFibDecoder fic) in
  set_place (index_Out s) 0 (amount s) (set_frame hi lo (get_sub_channel_id_list (mpFibDecoder fic)) fibs valid s).

Definition eti_deinterleave (index : Z) (cif : list Z) (i : Z) (st : list Z * list (list Z)) : list Z * list (list Z) :=
  let '(t, rows) := st in
  let k := rd interleaveMap (Z.land i 15) in
  (wr t i (rd2 rows (Z.land (index + k) 15) i), wr2 rows (Z.land index 15) i (rd cif i)).

(** The frame of a CIF; [theVector] is filled from the start. *)
Definition eti_frame (fib : FibDecoder) (s : EtiGenerator) : option EtiGenerator :=
  hdr ← init_eti fib (mSubChIdList s) (CIFCount_hi s) (CIFCount_lo s) (i16 (Minor s));
  let base := zlen hdr in
  v ← putn (theVector s) 0 hdr;
  v ← putn v base (nth (Z.to_nat (index_Out s)) (fibVector s) []);
  '(prots, descr, v, offset) ← process_cif fib (temp s) (mSubChIdList s) (protTable s, descrambler s, v, base + 96);
  let crc := calc_crc (drop (Z.to_nat base) v) (offset - base) in
  v ← putn v offset [Z.shiftr (Z.land crc 0xFF00) 8; Z.land crc 0xFF; 0xFF; 0xFF; 0xFF; 0xFF; 0xFF; 0xFF];
  let offset := offset + 8 in
  v ← putn v offset (replicate (Z.to_nat (6144 - offset)) 0x55);
  Some (set_run (option_map (fun w => w ++ [v]) (etiFile s)) (eti_running s) (set_tables prots descr v s)).

(** The last symbol of a CIF. *)
Definition end_of_cif (fib : FibDecoder) (s : EtiGenerator) : option EtiGenerator :=
  let '(t, rows) := zfor 0 cCifBits (eti_deinterleave (index_Out s) (cif_In s)) (temp s, cifVector s) in
  let s := set_cif (cif_In s) rows t s in
  if amount s <? 15 then Some (set_place (Z.land (index_Out s + 1) 15) (-1) (amount s + 1) s)
  else if (CIFCount_hi s <? 0) || (CIFCount_lo s <? 0) then Some (set_place (index_Out s) (-1) (amount s) s)
  else if Minor s <? 0 then Some s
  else
    s ← eti_frame fib s;
    Some (set_place (Z.land (index_Out s + 1) 15) (Minor s + 1) (amount s) s).

Definition eti_process_block (fic : FicDecoder) (ibits : list Z) (iOfdmSymbIdx : Z) (s : EtiGenerator) : option EtiGenerator :=
  let s := if negb (eti_running s) && (match etiFile s with Some _ => true | None => false end) && (iOfdmSymbIdx =? 1)
           then set_run (etiFile s) true s else s in
  if negb (eti_running s) then Some s
  else if iOfdmSymbIdx <? 4 then Some s
  else
    let s := if iOfdmSymbIdx =? 4 then import_fic fic s else s in
    let CIF_index := Z.rem (iOfdmSymbIdx - 4) 18 in
    bits ← getn ibits 0 3072;
    cif ← putn (cif_In s) (CIF_index * 3072) bits;
    let s := set_cif cif (cifVector s) (temp s) s in
    if CIF_index =? 17 then end_of_cif (mpFibDecoder fic) s else Some s.
