(* ===== verification/EtiProperties.v ===== *)
(** * What the ETI generator writes

    The frame of a CIF, for every configuration the FIB decoder can have
    collected: its layout, that it always fits, that its header says what it
    holds, and that its streams are what the MSC backends deliver.  And the
    start of a recording, CIF by CIF. *)
From stdpp Require Import gmap.
From S2P Require Import Prelude BitExtractors BitFields Checked Crc Viterbi Protection Backend FibConfig FibFig0 FibDecoder FibInvariant FibProperties FicDecoder EtiGenerator.
Open Scope Z_scope.

(** ** The configuration *)
Definition sub_channels (fib : FibDecoder) : list SFig0s1_BasicSubChannelOrganization :=
  items (Fig0s1_BasicSubChannelOrganizationVec (mpFibConfigFig0Curr fib)).
Definition entry_data (e : SFig0s1_BasicSubChannelOrganization) : SChannelData :=
  mk_cd true (s1_SubChId e) (s1_StartAddr e) (s1_ShortForm e) (s1_ProtectionLevel e) (s1_SubChannelSize e) (s1_BitRate e).
Definition total {A} (f : A -> Z) (l : list A) : Z := fold_right (fun x n => f x + n) 0 l.

Lemma pairwise_cons {A} (R : A -> A -> Prop) x l : pairwise R (x :: l) -> Forall (R x) l /\ pairwise R l.
Proof.
  intros H. split.
  - apply Forall_lookup. intros i y Hy. by apply (H 0%nat (S i) x y ltac:(lia)).
  - intros i j a b Hij Ha Hb. by apply (H (S i) (S j) a b ltac:(lia)).
Qed.

(** Intervals that do not meet have room side by side. *)
Lemma disjoint_total (l : list SFig0s1_BasicSubChannelOrganization) :
  pairwise disjoint_cu l -> Forall entry_ok l -> total s1_SubChannelSize l <= 864.
Proof.
  intros Hp Hok. set (cus := concat (map (fun e => seqZ (s1_StartAddr e) (s1_SubChannelSize e)) l)).
  assert (List.NoDup cus /\ incl cus (seqZ 0 864) /\ zlen cus = total s1_SubChannelSize l) as (Hn & Hi & Hl).
  { unfold cus. clear cus. induction l as [|e l IH]; [cbn; split_and!; [apply List.NoDup_nil|apply incl_nil_l|done]|].
    apply pairwise_cons in Hp as [He Hp]. apply Forall_cons_1 in Hok as [Hoke Hok]. destruct (IH Hp Hok) as (Hn & Hi & Hl).
    destruct Hoke as (_ & Hs & Hz & Hfit & _). cbn [map concat total fold_right]. split_and!.
    - apply List.NoDup_app; [apply NoDup_ListNoDup, NoDup_seqZ|done|]. intros x Hx Hin. apply in_seqZ in Hx.
      apply in_concat in Hin as (c & Hc & Hxc). apply in_map_iff in Hc as (e' & <- & He').
      apply in_seqZ in Hxc. rewrite Forall_forall in He. specialize (He e' He').
      unfold disjoint_cu in He. lia.
    - apply incl_app; [|done]. intros x Hx. apply in_seqZ in Hx. apply in_seqZ. lia.
    - rewrite zlen_app, Hl. unfold zlen. rewrite length_seqZ. unfold total. lia. }
  pose proof (NoDup_incl_length Hn Hi) as Hle. rewrite length_seqZ in Hle. unfold zlen in Hl. lia.
Qed.

Lemma keys_count (l : list SFig0s1_BasicSubChannelOrganization) :
  pairwise (fun x y => s1_SubChId x <> s1_SubChId y) l -> Forall entry_ok l -> zlen l <= 64.
Proof.
  intros Hp Hok. assert (List.NoDup (map s1_SubChId l) /\ incl (map s1_SubChId l) (seqZ 0 64)) as [Hn Hi].
  { induction l as [|e l IH]; [cbn; split; [apply List.NoDup_nil|apply incl_nil_l]|]. apply pairwise_cons in Hp as [He Hp]. apply Forall_cons_1 in Hok as [Hoke Hok].
    destruct (IH Hp Hok) as [Hn Hi]. split.
    - apply List.NoDup_cons; [|done]. intros Hin. apply in_map_iff in Hin as (e' & E & He').
      rewrite Forall_forall in He. specialize (He e' He'). by rewrite E in He.
    - apply incl_cons; [|done]. apply in_seqZ. destruct Hoke as [H _]. lia. }
  pose proof (NoDup_incl_length Hn Hi) as Hle. rewrite length_map, length_seqZ in Hle. unfold zlen. lia.
Qed.

Section config.
Context (fib : FibDecoder) (Hc : cfg_ok (mpFibConfigFig0Curr fib)).
Context (H8 : Forall (fun e => 8 <= s1_BitRate e) (sub_channels fib)).

(** Every sub-channel is found under its id. *)
Lemma lookup_of_entry e : In e (sub_channels fib) ->
  get_Fig0s1_BasicSubChannelOrganization_of_SubChId (mpFibConfigFig0Curr fib) (s1_SubChId e) = Some e.
Proof.
  intros He. unfold get_Fig0s1_BasicSubChannelOrganization_of_SubChId. set (v := Fig0s1_BasicSubChannelOrganizationVec (mpFibConfigFig0Curr fib)) in *.
  pose proof (ok_s1_key _ Hc) as Hk. fold v in Hk. unfold sub_channels in He. fold v in He.
  destruct (vfind (is_s1 (s1_SubChId e)) v) as [e'|] eqn:E.
  - apply vfind_Some in E as [Hin Eid]. unfold is_s1 in Eid. apply Z.eqb_eq in Eid. f_equal.
    apply list_elem_of_In, list_elem_of_lookup in He as [i Hi]. apply list_elem_of_In, list_elem_of_lookup in Hin as [j Hj].
    destruct (Nat.lt_total i j) as [Hij|[Hij|Hij]]; [|subst j; rewrite Hi in Hj; by injection Hj|].
    + by destruct (Hk i j e e' Hij Hi Hj).
    + by destruct (Hk j i e' e Hij Hj Hi).
  - exfalso. apply vfind_None in E. rewrite Forall_forall in E. specialize (E e He). unfold is_s1 in E. lia.
Qed.

Lemma info_of_entry e : In e (sub_channels fib) -> get_sub_channel_info fib (s1_SubChId e) =
  mk_cd true (s1_SubChId e) (s1_StartAddr e) (s1_ShortForm e) (s1_ProtectionLevel e) (s1_SubChannelSize e) (i16 (s1_BitRate e)).
Proof. intros He. unfold get_sub_channel_info. by rewrite lookup_of_entry. Qed.

Lemma entry_facts e : In e (sub_channels fib) -> entry_ok e /\ 8 <= s1_BitRate e.
Proof.
  intros He. pose proof (ok_s1 _ Hc) as H. rewrite Forall_forall in H. rewrite Forall_forall in H8.
  split; [by apply H|by apply H8].
Qed.

Lemma uep_capacity : forallb (fun r => 15 * tBitRate r <=? 32 * CUSize r) cProtLevelTable = true.
Proof. vm_compute. reflexivity. Qed.

Lemma option_a_cus l : 0 <= l < 4 -> 4 <= rd [12; 8; 6; 4] l.
Proof. intros Hl. apply Z.leb_le. revert l Hl. apply (forall_range 4). reflexivity. Qed.
Lemma option_b_cus l : 0 <= l < 4 -> 15 <= rd [27; 21; 18; 15] l.
Proof. intros Hl. apply Z.leb_le. revert l Hl. apply (forall_range 4). reflexivity. Qed.

(** No sub-channel has more than 32/15 kbit/s per capacity unit. *)
Lemma entry_capacity e : entry_ok e -> 8 <= s1_BitRate e -> 15 * s1_BitRate e <= 32 * s1_SubChannelSize e.
Proof.
  intros (_ & _ & Hz & _ & H) Hr. destruct (s1_ShortForm e).
  - pose proof uep_capacity as Hu. rewrite forallb_forall in Hu. specialize (Hu _ H). cbn in Hu. lia.
  - destruct H as (H0 & Ho0 & Ho1 & Hor). destruct (Z.eq_dec (s1_Option e) 0) as [E|].
    + destruct (Ho0 E) as [Hl ->]. set (m := rd [12; 8; 6; 4] (s1_ProtectionLevel e)).
      pose proof (option_a_cus _ Hl) as Hn. fold m in Hn.
      pose proof (Z.mul_div_le (s1_SubChannelSize e) m ltac:(lia)). pose proof (Z.div_pos (s1_SubChannelSize e) m Hz ltac:(lia)). nia.
    + destruct (Z.eq_dec (s1_Option e) 1) as [E|]; [|specialize (Hor ltac:(lia)); lia].
      destruct (Ho1 E) as [Hl ->]. set (m := rd [27; 21; 18; 15] (s1_ProtectionLevel e - 4)).
      pose proof (option_b_cus (s1_ProtectionLevel e - 4) ltac:(lia)) as Hn. fold m in Hn.
      pose proof (Z.mul_div_le (s1_SubChannelSize e) m ltac:(lia)). pose proof (Z.div_pos (s1_SubChannelSize e) m Hz ltac:(lia)). nia.
Qed.

Lemma entry_rate e : In e (sub_channels fib) -> 8 <= s1_BitRate e <= 1843.
Proof. intros He. destruct (entry_facts e He) as [Hok Hr]. pose proof (entry_capacity e Hok Hr). destruct Hok as (_ & Hs & _ & Hf & _). lia. Qed.

Lemma stream_info e : In e (sub_channels fib) -> eti_stream_info fib (s1_SubChId e) = Some (entry_data e).
Proof.
  intros He. pose proof (entry_rate e He) as Hr. destruct (entry_facts e He) as [(Hid & _) _]. unfold eti_stream_info.
  assert ((s1_SubChId e <? 64) = true) as -> by lia. rewrite info_of_entry by done. cbn [cd_in_use]. unfold entry_data. by rewrite i16_small by lia.
Qed.

Lemma stream_infos l : (forall e, In e l -> In e (sub_channels fib)) -> mapM (eti_stream_info fib) (map s1_SubChId l) = Some (map entry_data l).
Proof.
  induction l as [|e l IH]; intros H; [done|]. cbn [map mapM]. rewrite stream_info by (apply H; by left). cbn [mbind option_bind].
  rewrite IH by (intros; apply H; by right). done.
Qed.

(** All streams together. *)
Lemma rates_total : 5 * (3 * total s1_BitRate (sub_channels fib)) <= 32 * 864.
Proof.
  pose proof (disjoint_total _ (ok_s1_cu _ Hc) (ok_s1 _ Hc)) as Ht. fold (sub_channels fib) in Ht.
  assert (15 * total s1_BitRate (sub_channels fib) <= 32 * total s1_SubChannelSize (sub_channels fib)) as H; [|lia].
  pose proof entry_facts as Hf. clear -Hf. induction (sub_channels fib) as [|e l IH]; [done|]. cbn [total fold_right].
  destruct (Hf e ltac:(by left)) as [Ho Hr]. pose proof (entry_capacity e Ho Hr). specialize (IH ltac:(intros; apply Hf; by right)).
  unfold total in IH. lia.
Qed.

Lemma streams_count : zlen (sub_channels fib) <= 64.
Proof. apply keys_count; [apply (ok_s1_key _ Hc)|apply (ok_s1 _ Hc)]. Qed.
End config.

(** ** The streams *)
Definition entry_desc (e : SFig0s1_BasicSubChannelOrganization) : SDescriptorType :=
  mkDescriptor 0 (s1_StartAddr e) (s1_SubChannelSize e) (s1_ShortForm e) (s1_ProtectionLevel e) (s1_BitRate e) (s1_SubChId e).

(** The bytes of a stream: the frame the MSC backend of the sub-channel would
    deliver for the same soft bits, eight bits to a byte. *)
Definition stream_bytes (input : list Z) (e : SFig0s1_BasicSubChannelOrganization) : list Z :=
  match Backend_new (entry_desc e) with
  | Some b => pack_vector (decoded b (slice input (s1_StartAddr e * 64) (s1_SubChannelSize e * 64))) (3 * s1_BitRate e)
  | None => []
  end.

Lemma deconvolver_size d p : BackendDeconvolver_new d = Some p -> outSize p = 24 * dBitRate d.
Proof.
  unfold BackendDeconvolver_new. destruct (dShortForm d); intros H.
  - unfold UepProtection_new in H. repeat (apply bind_Some in H as (? & _ & H)). by injection H as <-.
  - unfold EepProtection_new in H. repeat (apply bind_Some in H as (? & _ & H)). repeat case_match. 
    repeat (apply bind_Some in H as (? & _ & H)). by injection H as <-.
Qed.

Lemma viterbi_frame_length F block : 0 <= F <= 2 ^ 20 -> Forall is_bit (viterbi_frame F block) /\ zlen (viterbi_frame F block) = F.
Proof.
  intros HF. unfold viterbi_frame. rewrite viterbi_survivor by (done || lia || (unfold fits32; lia) || (apply zlen_zeros; lia)).
  by destruct (survivor_zero_split block F ltac:(lia)) as (s0 & _ & Hb & Hl & _).
Qed.

(** Depuncturing reads no more values than there are addresses. *)
Lemma depuncture_prefix addrs input off n block :
  0 <= off -> zlen addrs <= n -> depuncture addrs (slice input off (zlen addrs)) block = depuncture addrs (slice input off n) block.
Proof.
  intros Ho Hn. apply zfor_ext. intros i b Hi. by rewrite !rd_slice by lia.
Qed.

Lemma make_disperse_length r : 0 <= r -> zlen (make_disperse r) = 24 * r.
Proof.
  intros Hr. rewrite make_disperse_prbs by done. assert (forall n hist, length (prbs n hist) = n) as H.
  { induction n as [|n IH]; intros hist; [done|]. cbn [prbs length]. by rewrite IH. }
  unfold zlen. rewrite H. lia.
Qed.

Lemma zlen_replicate {A} n (x : A) : 0 <= n -> zlen (replicate (Z.to_nat n) x) = n.
Proof. intros. unfold zlen. rewrite length_replicate. lia. Qed.

Lemma putn_app P rest bytes :
  zlen bytes <= zlen rest -> putn (P ++ rest) (zlen P) bytes = Some (P ++ bytes ++ drop (length bytes) rest).
Proof.
  intros H. unfold putn. pose proof (zlen_nonneg P). rewrite zlen_app.
  assert (((0 <=? zlen P) && (zlen P + zlen bytes <=? zlen P + zlen rest)) = true) as -> by lia. unfold zlen. f_equal.
  rewrite <- Nat2Z.inj_add, !Nat2Z.id, take_app_length. do 2 f_equal. by rewrite drop_app_add.
Qed.

(** A table entry: not made yet, or a used deconvolver of the sub-channel. *)
Definition slot_ok (e : SFig0s1_BasicSubChannelOrganization) (p : Protection) (desc : list Z) : Prop :=
  (exists p0, BackendDeconvolver_new (entry_desc e) = Some p0 /\ prot_equiv p p0) /\ desc = make_disperse (s1_BitRate e).

Record tables_ok (fib : FibDecoder) (prots : list (option Protection)) (descr : list (list Z)) : Prop := {
  to_sizes : length prots = 64%nat /\ length descr = 64%nat;
  to_slots : forall e p, In e (sub_channels fib) -> nth (Z.to_nat (s1_SubChId e)) prots None = Some p ->
    slot_ok e p (nth (Z.to_nat (s1_SubChId e)) descr [])
}.

Section streams.
Context (fib : FibDecoder) (Hc : cfg_ok (mpFibConfigFig0Curr fib)).
Context (H8 : Forall (fun e => 8 <= s1_BitRate e) (sub_channels fib)).
Context (input : list Z) (Hin : zlen input = cCifBits).

Lemma process_sub_channel_spec e p desc :
  In e (sub_channels fib) -> slot_ok e p desc ->
  exists p', process_sub_channel input (entry_data e) p desc = Some (p', stream_bytes input e) /\ slot_ok e p' desc.
Proof.
  intros He [(p0 & Ep0 & Hp) ->]. destruct (entry_facts fib Hc H8 e He) as [Hok Hr]. pose proof (entry_rate fib Hc H8 e He) as Hr2.
  destruct (entry_serviceable e 0 (s1_SubChId e) Hok Hr) as (Hs & Hf & _ & p1 & Ep1 & Ha & Hl). cbn [dCuStartAddr dCuSize] in Hs, Hf, Hl.
  fold (entry_desc e) in Ep1. rewrite Ep0 in Ep1. injection Ep1 as <-.
  pose proof (deconvolver_size _ _ Ep0) as Hsz. cbn [dBitRate entry_desc] in Hsz. pose proof Hp as (_ & Eo & Ea & _).
  assert (addresses_ok p) as Hap by (apply (addresses_ok_equiv p0); [by symmetry|done]).
  unfold process_sub_channel, stream_bytes. cbn [cd_bitrate cd_start_cu entry_data]. rewrite Eo, Hsz, make_disperse_length by lia.
  assert (((24 * s1_BitRate e <? 24 * s1_BitRate e) || (24 * s1_BitRate e <? 24 * s1_BitRate e)) = false) as -> by lia.
  rewrite Ea. pose proof (zlen_nonneg (viterbiBlockAddresses p0)). unfold cCifBits in Hin. rewrite getn_Some by lia. cbn [mbind option_bind].
  unfold Backend_new. rewrite Ep0. cbn [mbind option_bind dCuSize dBitRate entry_desc]. unfold decoded. cbn [disperseVector deconvolver desc dBitRate].
  unfold backend_deconvolve. rewrite (deconvolve_equiv viterbi_frame p p0) by done. unfold deconvolve. cbn [snd].
  rewrite (depuncture_prefix _ input _ (s1_SubChannelSize e * 64)) by lia. set (block := depuncture _ _ _).
  eexists. split.
  - cbn [outSize dBitRate entry_desc]. rewrite Hsz, Z.sub_diag. change (zeros 0) with (@nil Z). rewrite app_nil_r.
    replace (24 * s1_BitRate e) with (3 * s1_BitRate e * 8) at 4 by lia. rewrite Z.quot_mul by lia. by rewrite (Z.mul_comm (s1_BitRate e) 24).
  - split; [|done]. exists p0. split; [done|]. unfold block. rewrite <- (depuncture_prefix _ input) by lia.
    etransitivity; [|apply (deconvolve_equiv_self viterbi_frame p0 (slice input (s1_StartAddr e * 64) (zlen (viterbiBlockAddresses p0))) Ha)].
    unfold deconvolve. cbn [fst]. by rewrite Hsz.
Qed.

Lemma zlen_stream_bytes e : In e (sub_channels fib) -> zlen (stream_bytes input e) = 3 * s1_BitRate e.
Proof.
  intros He. pose proof (entry_rate fib Hc H8 e He) as Hr. destruct (entry_facts fib Hc H8 e He) as [Hok Hr8].
  destruct (entry_serviceable e 0 (s1_SubChId e) Hok Hr8) as (_ & _ & _ & p & Ep & _). fold (entry_desc e) in Ep.
  unfold stream_bytes, Backend_new. rewrite Ep. cbn [mbind option_bind]. unfold pack_vector. apply zlen_map_seqZ. lia.
Qed.

(** The deconvolver of a sub-channel, made or found. *)
Lemma eti_entry_ok e prots descr :
  In e (sub_channels fib) -> tables_ok fib prots descr ->
  exists p desc, eti_entry (s1_SubChId e) (entry_data e) prots descr = Some (p, desc) /\ slot_ok e p desc.
Proof.
  intros He [_ Hs]. unfold eti_entry. destruct (nth (Z.to_nat (s1_SubChId e)) prots None) as [p|] eqn:E.
  - exists p, (nth (Z.to_nat (s1_SubChId e)) descr []). split; [done|]. by apply Hs.
  - destruct (entry_facts fib Hc H8 e He) as [Hok Hr8]. destruct (entry_serviceable e 0 (s1_SubChId e) Hok Hr8) as (_ & _ & _ & p & Ep & _).
    fold (entry_desc e) in Ep. exists p, (make_disperse (s1_BitRate e)). pose proof Ep as Ep'.
    unfold BackendDeconvolver_new in Ep'. cbn [dShortForm dBitRate dProtLevel entry_desc] in Ep'. cbn [cd_uepFlag cd_bitrate cd_protlev entry_data].
    rewrite Ep'. cbn [mbind option_bind]. split; [done|]. split; [|done]. by exists p.
Qed.

Lemma keys_apart e e' : In e (sub_channels fib) -> In e' (sub_channels fib) -> s1_SubChId e = s1_SubChId e' -> e = e'.
Proof.
  intros He He' E.
  assert (get_Fig0s1_BasicSubChannelOrganization_of_SubChId (mpFibConfigFig0Curr fib) (s1_SubChId e) = Some e /\
    get_Fig0s1_BasicSubChannelOrganization_of_SubChId (mpFibConfigFig0Curr fib) (s1_SubChId e') = Some e') as [H2 H3]; [|congruence].
  split; by apply (lookup_of_entry fib Hc).
Qed.

Lemma tables_ok_insert e p desc prots descr :
  In e (sub_channels fib) -> slot_ok e p desc -> tables_ok fib prots descr ->
  tables_ok fib (<[Z.to_nat (s1_SubChId e) := Some p]> prots) (<[Z.to_nat (s1_SubChId e) := desc]> descr).
Proof.
  intros He Hp [[L1 L2] Hs]. destruct (entry_facts fib Hc H8 e He) as [(Hid & _) _]. constructor; [by rewrite !length_insert|].
  intros e' p' He' E. destruct (entry_facts fib Hc H8 e' He') as [(Hid' & _) _]. rewrite nth_lookup in E. rewrite nth_lookup.
  destruct (Z.eq_dec (s1_SubChId e') (s1_SubChId e)) as [Eid|Hne].
  - apply keys_apart in Eid as ->; [|done..]. rewrite list_lookup_insert_eq in E by lia. rewrite list_lookup_insert_eq by lia. cbn in *. by injection E as <-.
  - rewrite list_lookup_insert_ne, <- nth_lookup in E by lia. rewrite list_lookup_insert_ne, <- nth_lookup by lia. by apply Hs.
Qed.

Lemma process_cif_spec l : forall prots descr P rest,
  (forall e, In e l -> In e (sub_channels fib)) -> tables_ok fib prots descr -> 3 * total s1_BitRate l <= zlen rest ->
  exists prots' descr', tables_ok fib prots' descr' /\
    process_cif fib input (map s1_SubChId l) (prots, descr, P ++ rest, zlen P) =
    Some (prots', descr', P ++ concat (map (stream_bytes input) l) ++ drop (Z.to_nat (3 * total s1_BitRate l)) rest, zlen P + 3 * total s1_BitRate l).
Proof.
  induction l as [|e l IH]; intros prots descr P rest Hl Ht Hr.
  - exists prots, descr. split; [done|]. cbn. rewrite drop_0. by rewrite Z.add_0_r.
  - pose proof (Hl e ltac:(by left)) as He. pose proof (entry_rate fib Hc H8 e He) as Hrate. destruct (entry_facts fib Hc H8 e He) as [(Hid & _) _].
    assert (0 <= total s1_BitRate l) as Hpos.
    { assert (forall e', In e' l -> 8 <= s1_BitRate e') as Hp by (intros e' He'; apply (entry_rate fib Hc H8 e'), Hl; by right).
      clear -Hp. induction l as [|e' l IH]; [done|]. cbn [total fold_right]. pose proof (Hp e' ltac:(by left)). specialize (IH ltac:(intros; apply Hp; by right)). unfold total in IH. lia. }
    cbn [total fold_right] in Hr |- *. fold (total s1_BitRate l) in *.
    destruct (eti_entry_ok e prots descr He Ht) as (p & desc & Ee & Hslot). destruct (process_sub_channel_spec e p desc He Hslot) as (p' & Ep & Hslot').
    pose proof (zlen_stream_bytes e He) as Lb.
    cbn [map process_cif]. unfold eti_stream. assert ((s1_SubChId e <? 0) = false) as -> by lia.
    rewrite (stream_info fib Hc H8 e He). cbn [mbind option_bind]. rewrite Ee. cbn [mbind option_bind]. rewrite Ep. cbn [mbind option_bind].
    rewrite putn_app by lia. cbn [mbind option_bind cd_bitrate entry_data].
    replace (Z.quot (s1_BitRate e * 24) 8) with (3 * s1_BitRate e) by (replace (s1_BitRate e * 24) with (3 * s1_BitRate e * 8) by lia; by rewrite Z.quot_mul by lia).
    assert (P ++ stream_bytes input e ++ drop (length (stream_bytes input e)) rest = (P ++ stream_bytes input e) ++ drop (length (stream_bytes input e)) rest) as -> by (by rewrite app_assoc).
    replace (zlen P + 3 * s1_BitRate e) with (zlen (P ++ stream_bytes input e)) by (rewrite zlen_app; lia).
    destruct (IH _ _ (P ++ stream_bytes input e) (drop (length (stream_bytes input e)) rest) ltac:(intros; apply Hl; by right) (tables_ok_insert e p' desc prots descr He Hslot' Ht)) as (prots' & descr' & Ht' & E).
    { unfold zlen in *. rewrite length_drop. lia. }
    exists prots', descr'. split; [done|]. rewrite E. rewrite drop_drop. do 2 f_equal; [|rewrite zlen_app; lia]. f_equal. rewrite <- !app_assoc. cbn [concat]. rewrite <- app_assoc. do 4 f_equal.
    unfold zlen in Lb. lia.
Qed.
End streams.

(** ** The header, read back (ETS 300 799, 5.3 to 5.8) *)
Record eti_stream_header := mk_esh { esh_SCID : Z; esh_SAD : Z; esh_TPL : Z; esh_STL : Z }.
Record eti_header := mk_eh { eh_FCT : Z; eh_FP : Z; eh_FL : Z; eh_streams : list eti_stream_header }.

Fixpoint parse_streams (n : nat) (v : list Z) : option (list eti_stream_header * list Z) :=
  match n, v with
  | O, _ => Some ([], v)
  | S n, b0 :: b1 :: b2 :: b3 :: v =>
      '(l, v) ← parse_streams n v;
      Some (mk_esh (b0 / 4) (b0 mod 4 * 256 + b1) (b2 / 4) (b2 mod 4 * 256 + b3) :: l, v)
  | _, _ => None
  end.

(** Error level 0, the sync word of the parity of the frame count, the FIC in the
    frame, mode 1, and the CRC of the header. *)
Definition parse_header (v : list Z) : option (eti_header * list Z) :=
  match v with
  | err :: f0 :: f1 :: f2 :: fct :: b5 :: b6 :: b7 :: more =>
      '(streams, more) ← parse_streams (Z.to_nat (b5 mod 128)) more;
      if (err =? 0xFF) && (b5 / 128 =? 1) && (b6 / 8 mod 4 =? 1) &&
         bool_decide ([f0; f1; f2] = if Z.even fct then [0x07; 0x3a; 0xb6] else [0xf8; 0xc5; 0x49]) &&
         crc_right (drop 4 v) (4 * (b5 mod 128) + 6)
      then Some (mk_eh fct (b6 / 32) (b6 mod 8 * 256 + b7) streams, drop 4 more) else None
  | _ => None
  end.

Definition stream_header (e : SFig0s1_BasicSubChannelOrganization) : eti_stream_header :=
  mk_esh (s1_SubChId e) (s1_StartAddr e)
    (if s1_ShortForm e then 16 + (s1_ProtectionLevel e - 1) else 32 + s1_ProtectionLevel e) (3 * s1_BitRate e / 8).

Lemma stc_high a b : 0 <= a < 64 -> 0 <= b < 1024 -> u8 (Z.lor (Z.shiftl a 2) (Z.shiftr (Z.land b 0x300) 8)) = 4 * a + b / 256.
Proof.
  intros Ha Hb. assert (Z.shiftr (Z.land b 0x300) 8 = b / 256) as ->.
  { apply Z.eqb_eq. revert b Hb. apply (forall_range 1024). vm_compute. reflexivity. }
  assert (0 <= b / 256 < 4) as Hd by (split; [apply Z.div_pos; lia|apply Z.div_lt_upper_bound; lia]).
  rewrite Z.shiftl_mul_pow2, (lor_add_disjoint 2) by lia. rewrite uwrap_small; lia.
Qed.

Lemma stc_low b : u8 (Z.land b 0xFF) = b mod 256.
Proof.
  change 0xFF with (Z.ones 8). rewrite Z.land_ones by lia. change (2 ^ 8) with 256. apply uwrap_small. apply Z.mod_pos_bound. lia.
Qed.

Lemma parse_stream a b c d n more l v :
  0 <= a < 64 -> 0 <= b < 1024 -> 0 <= c < 64 -> 0 <= d < 1024 -> parse_streams n more = Some (l, v) ->
  parse_streams (S n) ([4 * a + b / 256; b mod 256; 4 * c + d / 256; d mod 256] ++ more) = Some (mk_esh a b c d :: l, v).
Proof.
  intros Ha Hb Hc Hd E. cbn [app parse_streams]. rewrite E. cbn [mbind option_bind].
  assert (forall x y, 0 <= y < 1024 -> (4 * x + y / 256) / 4 = x /\ (4 * x + y / 256) mod 4 * 256 + y mod 256 = y) as H.
  { intros x y Hy. assert (0 <= y / 256 < 4) as Hq by (split; [apply Z.div_pos; lia|apply Z.div_lt_upper_bound; lia]).
    assert ((4 * x + y / 256) / 4 = x) as E1 by (symmetry; apply Z.div_unique_pos with (r := y / 256); lia).
    assert ((4 * x + y / 256) mod 4 = y / 256) as E2 by (symmetry; apply Z.mod_unique_pos with (q := x); lia).
    rewrite E2. split; [done|]. pose proof (Z.div_mod y 256). lia. }
  destruct (H a b Hb) as [-> ->]. by destruct (H c d Hd) as [-> ->].
Qed.

Lemma uep_levels : forallb (fun r => (1 <=? ProtLevel r) && (ProtLevel r <=? 5) && (tBitRate r mod 8 =? 0)) cProtLevelTable = true.
Proof. vm_compute. reflexivity. Qed.

(** Protection level and bit rate of a sub-channel. *)
Lemma entry_level e : entry_ok e -> 8 <= s1_BitRate e ->
  (if s1_ShortForm e then 1 <= s1_ProtectionLevel e <= 5 else 0 <= s1_ProtectionLevel e < 8) /\ s1_BitRate e mod 8 = 0.
Proof.
  intros (_ & _ & _ & _ & H) Hr. destruct (s1_ShortForm e).
  - pose proof uep_levels as Hu. rewrite forallb_forall in Hu. specialize (Hu _ H). cbn [ProtLevel tBitRate] in Hu. zbool. lia.
  - destruct H as (H0 & Ho0 & Ho1 & Hor). destruct (Z.eq_dec (s1_Option e) 0) as [E|]; [|destruct (Z.eq_dec (s1_Option e) 1) as [E|]; [|specialize (Hor ltac:(lia)); lia]].
    + destruct (Ho0 E) as [Hl ->]. split; [lia|]. apply Z.mod_mul. lia.
    + destruct (Ho1 E) as [Hl ->]. split; [lia|]. replace 32 with (4 * 8) by lia. rewrite Z.mul_assoc. apply Z.mod_mul. lia.
Qed.

Lemma lor_levels : forallb (fun p => (Z.lor 0x10 p =? 16 + p) && (Z.lor 0x20 p =? 32 + p)) (seqZ 0 8) = true.
Proof. vm_compute. reflexivity. Qed.

Lemma eti_STC_bytes e : entry_ok e -> 8 <= s1_BitRate e ->
  let h := stream_header e in
  eti_STC (entry_data e) = [4 * esh_SCID h + esh_SAD h / 256; esh_SAD h mod 256; 4 * esh_TPL h + esh_STL h / 256; esh_STL h mod 256] /\
  0 <= esh_SCID h < 64 /\ 0 <= esh_SAD h < 1024 /\ 0 <= esh_TPL h < 64 /\ 0 <= esh_STL h < 1024.
Proof.
  intros Hok Hr h. pose proof (entry_level e Hok Hr) as [Hl _]. pose proof (entry_capacity e Hok Hr) as Hcap. destruct Hok as (Hid & Hs & Hz & Hf & _).
  pose proof lor_levels as Hlor. cbn [esh_SCID esh_SAD esh_TPL esh_STL h stream_header].
  assert (0 <= 3 * s1_BitRate e / 8 < 1024) as Hstl by (split; [apply Z.div_pos; lia|apply Z.div_lt_upper_bound; lia]).
  assert ((if s1_ShortForm e then Z.lor 16 (s1_ProtectionLevel e - 1) else Z.lor 32 (s1_ProtectionLevel e)) =
    (if s1_ShortForm e then 16 + (s1_ProtectionLevel e - 1) else 32 + s1_ProtectionLevel e)) as Et.
  { destruct (s1_ShortForm e).
    - pose proof (forall_range _ _ Hlor (s1_ProtectionLevel e - 1) ltac:(lia)) as H. cbv beta in H. zbool. done.
    - pose proof (forall_range _ _ Hlor (s1_ProtectionLevel e) ltac:(lia)) as H. cbv beta in H. zbool. done. }
  assert (0 <= (if s1_ShortForm e then 16 + (s1_ProtectionLevel e - 1) else 32 + s1_ProtectionLevel e) < 64) as Ht by (destruct (s1_ShortForm e); lia).
  split; [|split_and!; lia]. unfold eti_STC. cbn [cd_start_cu cd_uepFlag cd_protlev cd_bitrate cd_id entry_data].
  rewrite Et, (Z.mul_comm (s1_BitRate e) 3), Z.quot_div_nonneg by lia. by rewrite !stc_high, !stc_low by lia.
Qed.

Lemma crc_bytes c : is_reg c -> Z.shiftr (Z.land c 0xff00) 8 = Z.shiftr c 8 /\ Z.land c 0xff = u8 c.
Proof.
  intros Hc. split; [|change 0xff with (Z.ones 8); by rewrite Z.land_ones by lia].
  rewrite Z.shiftr_land. change (Z.shiftr 0xff00 8) with (Z.ones 8). rewrite Z.land_ones by lia. apply Z.mod_small. by apply reg_hi_byte.
Qed.

Lemma eti_STC_byte d : Forall is_byte (eti_STC d).
Proof. repeat (apply List.Forall_cons; [apply uwrap_range; lia|]). apply List.Forall_nil. Qed.

Lemma concat_STC_byte l : Forall is_byte (concat (map eti_STC l)).
Proof. induction l as [|d l IH]; [apply List.Forall_nil|]. cbn [map concat]. apply Forall_app. split; [apply eti_STC_byte|done]. Qed.

Lemma zlen_concat_STC l : zlen (concat (map eti_STC l)) = 4 * zlen l.
Proof. induction l as [|d l IH]; [done|]. cbn [map concat]. rewrite zlen_app, IH, zlen_cons. change (zlen (eti_STC d)) with 4. lia. Qed.

Lemma count_byte n : 0 <= n <= 64 -> u8 (Z.lor (Z.shiftl 1 7) n) = 128 + n.
Proof. intros Hn. apply Z.eqb_eq. revert n Hn. intros n Hn. apply (forall_range 65 (fun n => u8 (Z.lor (Z.shiftl 1 7) n) =? 128 + n)); [vm_compute; reflexivity|lia]. Qed.

Lemma phase_byte FP FL : 0 <= FP < 8 -> 0 <= FL < 2048 ->
  u8 (Z.lor (Z.lor (Z.shiftl FP 5) (Z.shiftl 1 3)) (Z.shiftr (Z.land FL 0x700) 8)) = 32 * FP + 8 + FL / 256.
Proof.
  intros HP HL. assert (Z.shiftr (Z.land FL 0x700) 8 = FL / 256) as ->.
  { apply Z.eqb_eq. revert FL HL. apply (forall_range 2048). vm_compute. reflexivity. }
  assert (0 <= FL / 256 < 8) as Hd by (split; [apply Z.div_pos; lia|apply Z.div_lt_upper_bound; lia]). generalize dependent (FL / 256). intros q Hq.
  assert (forallb (fun FP => forallb (fun q => u8 (Z.lor (Z.lor (Z.shiftl FP 5) (Z.shiftl 1 3)) q) =? 32 * FP + 8 + q) (seqZ 0 8)) (seqZ 0 8) = true) as H by (vm_compute; reflexivity).
  pose proof (forall_range _ _ H FP HP) as H1. pose proof (forall_range _ _ H1 q Hq) as H2. by apply Z.eqb_eq.
Qed.

(** Days have 5000 CIFs, a multiple of the eight phases. *)
Lemma cif_count_spec hi lo minor hi' lo' :
  0 <= hi < 20 -> 0 <= lo < 250 -> 0 <= minor < 4 -> eti_cif_count hi lo minor = (hi', lo') ->
  lo' = (lo + minor) mod 250 /\ 0 <= lo' < 250 /\ 0 <= hi' <= 20 /\ (hi' * 250 + lo') mod 8 = (hi * 250 + lo + minor) mod 8.
Proof.
  intros Hh Hl Hm. unfold eti_cif_count. rewrite (i16_small (lo + minor)), (i16_small (hi + 1)) by lia.
  destruct (Z.leb_spec 250 (lo + minor)) as [Hge|Hlt].
  - assert (Z.rem (lo + minor) 250 = lo + minor - 250) as ->.
    { rewrite Z.rem_mod_nonneg by lia. symmetry. apply Z.mod_unique_pos with (q := 1); lia. }
    destruct (Z.leb_spec 20 (hi + 1)); intros [= <- <-]; (split; [apply Z.mod_unique_pos with (q := 1); lia|]); (split; [lia|]); (split; [lia|]); f_equal; lia.
  - destruct (Z.leb_spec 20 hi); [lia|]. intros [= <- <-]. split; [symmetry; apply Z.mod_small; lia|]. split; [lia|]. split; [lia|]. f_equal. lia.
Qed.

Section header.
Context (fib : FibDecoder) (Hc : cfg_ok (mpFibConfigFig0Curr fib)).
Context (H8 : Forall (fun e => 8 <= s1_BitRate e) (sub_channels fib)).

Lemma parse_all_streams l more : (forall e, In e l -> In e (sub_channels fib)) ->
  parse_streams (length l) (concat (map eti_STC (map entry_data l)) ++ more) = Some (map stream_header l, more).
Proof.
  induction l as [|e l IH]; intros Hl; [done|]. destruct (entry_facts fib Hc H8 e (Hl e ltac:(by left))) as [Hok Hr].
  destruct (eti_STC_bytes e Hok Hr) as (E & H1 & H2 & H3 & H4). cbn [map concat length]. rewrite E, <- app_assoc.
  rewrite (parse_stream _ _ _ _ _ _ (map stream_header l) more H1 H2 H3 H4); [done|]. apply IH. intros. apply Hl. by right.
Qed.

Lemma FL_spec : eti_FL (map entry_data (sub_channels fib)) = zlen (sub_channels fib) + 25 + total (fun e => 3 * s1_BitRate e / 4) (sub_channels fib).
Proof.
  unfold eti_FL. assert (forall l a, (forall e, In e l -> 0 <= s1_BitRate e) ->
    fold_left (fun FL data => FL + Z.quot (cd_bitrate data * 3) 4) (map entry_data l) a = a + total (fun e => 3 * s1_BitRate e / 4) l) as H.
  { induction l as [|e l IH]; intros a Hl; [cbn; lia|]. cbn [map fold_left]. rewrite IH by (intros; apply Hl; by right). cbn [total fold_right cd_bitrate entry_data].
    pose proof (Hl e ltac:(by left)). rewrite (Z.mul_comm (s1_BitRate e) 3), Z.quot_div_nonneg by lia. fold (total (fun e => 3 * s1_BitRate e / 4) l). lia. }
  rewrite H by (intros e He; pose proof (entry_rate fib Hc H8 e He); lia). unfold zlen. rewrite length_map. lia.
Qed.

(** The frame length counts the words from the first stream header to the end
    of the streams. *)
Lemma words_total l : (forall e, In e l -> In e (sub_channels fib)) -> 4 * total (fun e => 3 * s1_BitRate e / 4) l = 3 * total s1_BitRate l /\ 0 <= total s1_BitRate l.
Proof.
  induction l as [|e l IH]; intros Hl; [done|]. destruct (entry_facts fib Hc H8 e (Hl e ltac:(by left))) as [Hok Hr].
  destruct (entry_level e Hok Hr) as [_ Hm]. destruct IH as [IH1 IH2]; [intros; apply Hl; by right|]. cbn [total fold_right].
  fold (total (fun e => 3 * s1_BitRate e / 4) l). fold (total s1_BitRate l).
  assert (4 * (3 * s1_BitRate e / 4) = 3 * s1_BitRate e) as E; [|lia].
  pose proof (Z.div_mod (s1_BitRate e) 8 ltac:(lia)). symmetry. apply Z_div_exact_2; [lia|].
  replace (3 * s1_BitRate e) with (3 * (s1_BitRate e / 8) * 2 * 4) by lia. apply Z.mod_mul. lia.
Qed.

Lemma FL_words : 4 * eti_FL (map entry_data (sub_channels fib)) = 4 * zlen (sub_channels fib) + 4 + 96 + 3 * total s1_BitRate (sub_channels fib) /\
  0 <= eti_FL (map entry_data (sub_channels fib)) < 2048.
Proof.
  rewrite FL_spec. destruct (words_total (sub_channels fib)) as [E1 E2]; [done|]. pose proof (rates_total fib Hc H8). pose proof (streams_count fib Hc).
  pose proof (zlen_nonneg (sub_channels fib)). lia.
Qed.

(** The header as it is put together, with a CRC that fits. *)
Definition header_body (fct fp fl : Z) : list Z :=
  [fct; 128 + zlen (sub_channels fib); 32 * fp + 8 + fl / 256; fl mod 256] ++ concat (map eti_STC (map entry_data (sub_channels fib))) ++ [0xFF; 0xFF].

Lemma zlen_header_body fct fp fl : zlen (header_body fct fp fl) = 4 * zlen (sub_channels fib) + 6.
Proof.
  unfold header_body. rewrite !zlen_app, zlen_concat_STC. change (zlen [_; _; _; _]) with 4. change (zlen [_; _]) with 2. unfold zlen. rewrite length_map. lia.
Qed.

Lemma parse_built fct fp fl sync c rest :
  0 <= fp < 8 -> 0 <= fl < 2048 -> sync = (if Z.even fct then [0x07; 0x3a; 0xb6] else [0xf8; 0xc5; 0x49]) ->
  crc_right (header_body fct fp fl ++ c ++ rest) (4 * zlen (sub_channels fib) + 6) = true -> zlen c = 2 ->
  parse_header ([0xFF] ++ sync ++ header_body fct fp fl ++ c ++ rest) = Some (mk_eh fct fp fl (map stream_header (sub_channels fib)), rest).
Proof.
  intros Hfp Hfl Hs Hcrc Hc2. pose proof (streams_count fib Hc) as Hn. pose proof (zlen_nonneg (sub_channels fib)) as Hn0.
  assert (exists f0 f1 f2, sync = [f0; f1; f2]) as (f0 & f1 & f2 & ->) by (rewrite Hs; destruct (Z.even fct); by eexists _, _, _).
  assert ((128 + zlen (sub_channels fib)) mod 128 = zlen (sub_channels fib)) as E5 by (symmetry; apply Z.mod_unique_pos with (q := 1); lia).
  assert ((128 + zlen (sub_channels fib)) / 128 = 1) as E5' by (symmetry; apply Z.div_unique_pos with (r := zlen (sub_channels fib)); lia).
  assert (0 <= fl / 256 < 8) as Hq by (split; [apply Z.div_pos; lia|apply Z.div_lt_upper_bound; lia]).
  assert ((32 * fp + 8 + fl / 256) / 32 = fp) as E6 by (symmetry; apply Z.div_unique_pos with (r := 8 + fl / 256); lia).
  assert ((32 * fp + 8 + fl / 256) mod 8 = fl / 256) as E6' by (symmetry; apply Z.mod_unique_pos with (q := 4 * fp + 1); lia).
  assert ((32 * fp + 8 + fl / 256) / 8 mod 4 = 1) as E6''.
  { assert ((32 * fp + 8 + fl / 256) / 8 = 4 * fp + 1) as -> by (symmetry; apply Z.div_unique_pos with (r := fl / 256); lia).
    symmetry. apply Z.mod_unique_pos with (q := fp); lia. }
  pose proof (Z.div_mod fl 256 ltac:(lia)) as Efl. unfold parse_header. unfold header_body at 1. cbn [app].
  rewrite E5, <- !app_assoc. replace (Z.to_nat (zlen (sub_channels fib))) with (length (sub_channels fib)) by (unfold zlen; lia).
  rewrite parse_all_streams by done. cbn [mbind option_bind]. rewrite E5', E6, E6', E6''. rewrite bool_decide_true by done.
  match goal with |- context [crc_right ?x _] => replace x with (header_body fct fp fl ++ c ++ rest) by (unfold header_body; cbn [app drop]; by rewrite <- ?app_assoc) end.
  rewrite Hcrc. cbn [Z.eqb Pos.eqb andb]. do 2 f_equal; [f_equal; lia|].
  destruct c as [|c0 [|c1 [|c2 c]]]; unfold zlen in Hc2; cbn [length] in Hc2; try lia. done.
Qed.

Lemma init_eti_spec hi lo minor : 0 <= hi < 20 -> 0 <= lo < 250 -> 0 <= minor < 4 ->
  exists hdr, init_eti fib (get_sub_channel_id_list fib) hi lo minor = Some hdr /\ Forall is_byte hdr /\ zlen hdr = 12 + 4 * zlen (sub_channels fib) /\
    forall rest, parse_header (hdr ++ rest) =
      Some (mk_eh ((lo + minor) mod 250) ((hi * 250 + lo + minor) mod 8) (eti_FL (map entry_data (sub_channels fib))) (map stream_header (sub_channels fib)), rest).
Proof.
  intros Hh Hl Hm. unfold init_eti. destruct (eti_cif_count hi lo minor) as [hi' lo'] eqn:Ec.
  destruct (cif_count_spec _ _ _ _ _ Hh Hl Hm Ec) as (Elo & Hlo & Hhi & EFP). unfold get_sub_channel_id_list. fold (sub_channels fib).
  rewrite (stream_infos fib Hc H8) by done. cbn [mbind option_bind]. set (l := sub_channels fib) in *.
  destruct FL_words as [_ HFL]. fold l in HFL. pose proof (streams_count fib Hc) as Hn. fold l in Hn. pose proof (zlen_nonneg l) as Hn0.
  assert (zlen (map entry_data l) = zlen l) as Ln by (unfold zlen; by rewrite length_map). rewrite Ln.
  assert (u8 (Z.rem (hi' * 250 + lo') 8) = (hi * 250 + lo + minor) mod 8) as ->.
  { rewrite Z.rem_mod_nonneg, EFP by lia. apply uwrap_small. pose proof (Z.mod_pos_bound (hi * 250 + lo + minor) 8 ltac:(lia)). lia. }
  pose proof (Z.mod_pos_bound (hi * 250 + lo + minor) 8 ltac:(lia)) as HFP. set (FP := (hi * 250 + lo + minor) mod 8) in *. set (FL := eti_FL (map entry_data l)) in *.
  rewrite count_byte, phase_byte, stc_low, (uwrap_small 8 lo') by lia.
  assert (0 <= FL / 256 < 8) as HFLq by (split; [apply Z.div_pos; lia|apply Z.div_lt_upper_bound; lia]). pose proof (Z.mod_pos_bound FL 256 ltac:(lia)) as HFLr.
  set (body := header_body lo' FP FL). assert (Forall is_byte body) as Hbody.
  { unfold body, header_body. repeat (apply Forall_app; split); [|apply concat_STC_byte|apply forall_bytes; reflexivity].
    fold l. repeat (apply List.Forall_cons; [unfold is_byte; lia|]). apply List.Forall_nil. }
  pose proof (zlen_header_body lo' FP FL) as Lb. fold l body in Lb.
  assert (Z.land lo' 1 = lo' mod 2) as Eland by (change 1 with (Z.ones 1); by rewrite Z.land_ones by lia).
  assert (eti_FSYNC lo' = if Z.even lo' then [0x07; 0x3a; 0xb6] else [0xf8; 0xc5; 0x49]) as Esync by (unfold eti_FSYNC; rewrite Eland, Zmod_even; by destruct (Z.even lo')).
  assert (Forall is_byte (eti_FSYNC lo') /\ zlen (eti_FSYNC lo') = 3) as [Hsb Ls] by (rewrite Esync; destruct (Z.even lo'); (split; [apply forall_bytes; reflexivity|done])).
  change (eti_FSYNC lo' ++ [lo'; 128 + zlen l; 32 * FP + 8 + FL / 256; FL mod 256] ++ concat (map eti_STC (map entry_data l)) ++ [255; 255]) with (eti_FSYNC lo' ++ body).
  assert (zlen ([255] ++ eti_FSYNC lo' ++ body) - 4 = zlen body) as -> by (rewrite !zlen_app, Ls; change (zlen [255]) with 1; lia).
  assert (drop 4 ([255] ++ eti_FSYNC lo' ++ body) = body) as -> by (rewrite Esync; by destruct (Z.even lo')).
  set (crc := calc_crc body (zlen body)). assert (is_reg crc) as Hcrc by (apply uwrap_range; lia). destruct (crc_bytes crc Hcrc) as [-> ->].
  eexists. split; [reflexivity|]. split; [|split].
  - apply Forall_app; split; [apply Forall_app; split; [apply forall_bytes; reflexivity|apply Forall_app; by split]|].
    apply List.Forall_cons; [by apply reg_hi_byte|]. apply List.Forall_cons; [apply uwrap_range; lia|apply List.Forall_nil].
  - rewrite !zlen_app, Lb, Ls. change (zlen [255]) with 1. change (zlen [_; _]) with 2. lia.
  - intros rest. rewrite <- Elo, <- !app_assoc. apply parse_built; [lia|lia|exact Esync| |reflexivity]. fold l body. rewrite <- Lb. by apply crc_appended_right.
Qed.
End header.

(** ** The frame *)
Definition eti_tail (main : list Z) : list Z :=
  let crc := calc_crc main (zlen main) in [Z.shiftr crc 8; u8 crc; 0xFF; 0xFF; 0xFF; 0xFF; 0xFF; 0xFF].
Definition eti_layout (hdr main : list Z) : list Z :=
  hdr ++ main ++ eti_tail main ++ replicate (Z.to_nat (6144 - (zlen hdr + zlen main + 8))) 0x55.

(** The state the end of a CIF finds. *)
Record eti_ready (fib : FibDecoder) (s : EtiGenerator) : Prop := {
  er_ids : mSubChIdList s = get_sub_channel_id_list fib;
  er_count : 0 <= CIFCount_hi s < 20 /\ 0 <= CIFCount_lo s < 250;
  er_minor : 0 <= Minor s < 4;
  er_vector : zlen (theVector s) = 6144;
  er_temp : zlen (temp s) = cCifBits;
  er_fib : Forall is_byte (nth (Z.to_nat (index_Out s)) (fibVector s) []) /\ zlen (nth (Z.to_nat (index_Out s)) (fibVector s) []) = 96;
  er_tables : tables_ok fib (protTable s) (descrambler s)
}.

(** FIC and streams. *)
Definition eti_main (fib : FibDecoder) (s : EtiGenerator) : list Z :=
  nth (Z.to_nat (index_Out s)) (fibVector s) [] ++ concat (map (stream_bytes (temp s)) (sub_channels fib)).

Lemma zlen_concat_streams fib input l :
  cfg_ok (mpFibConfigFig0Curr fib) -> Forall (fun e => 8 <= s1_BitRate e) (sub_channels fib) -> (forall e, In e l -> In e (sub_channels fib)) ->
  zlen (concat (map (stream_bytes input) l)) = 3 * total s1_BitRate l.
Proof.
  intros Hc H8. induction l as [|e l IH]; intros Hl; [done|]. cbn [map concat total fold_right].
  rewrite zlen_app, (zlen_stream_bytes fib Hc H8 input) by (apply Hl; by left). rewrite IH by (intros; apply Hl; by right). unfold total. lia.
Qed.

Lemma eti_frame_spec fib s :
  cfg_ok (mpFibConfigFig0Curr fib) -> Forall (fun e => 8 <= s1_BitRate e) (sub_channels fib) -> eti_ready fib s ->
  exists hdr prots descr, init_eti fib (get_sub_channel_id_list fib) (CIFCount_hi s) (CIFCount_lo s) (Minor s) = Some hdr /\
    tables_ok fib prots descr /\ zlen (eti_layout hdr (eti_main fib s)) = 6144 /\
    eti_frame fib s = Some (set_run (option_map (fun w => w ++ [eti_layout hdr (eti_main fib s)]) (etiFile s)) (eti_running s)
      (set_tables prots descr (eti_layout hdr (eti_main fib s)) s)).
Proof.
  intros Hc H8 [Eids [Hhi Hlo] Hm Hv Ht [Hfb Hfl] Htab].
  destruct (init_eti_spec fib Hc H8 _ _ _ Hhi Hlo Hm) as (hdr & Eh & Hhb & Lh & _).
  set (main := eti_main fib s). set (fibs := nth (Z.to_nat (index_Out s)) (fibVector s) []) in *. set (subs := sub_channels fib) in *.
  pose proof (rates_total fib Hc H8) as Hrt. pose proof (streams_count fib Hc) as Hn. pose proof (zlen_nonneg subs) as Hn0. fold subs in Hrt, Hn.
  destruct (words_total fib Hc H8 subs ltac:(done)) as [_ Htot].
  pose proof (zlen_concat_streams fib (temp s) subs Hc H8 ltac:(done)) as Lc.
  assert (zlen main = 96 + 3 * total s1_BitRate subs) as Lm by (unfold main, eti_main; fold fibs subs; rewrite zlen_app; lia).
  set (rest1 := drop (length hdr) (theVector s)). set (rest2 := drop (length fibs) rest1).
  assert (zlen rest1 = 6144 - zlen hdr) as L1 by (unfold rest1, zlen in *; rewrite length_drop; lia).
  assert (zlen rest2 = 6144 - zlen hdr - 96) as L2 by (unfold rest2, zlen in *; rewrite length_drop; lia).
  destruct (process_cif_spec fib Hc H8 (temp s) Ht subs (protTable s) (descrambler s) (hdr ++ fibs) rest2 ltac:(done) Htab) as (prots & descr & Htab' & Ecif); [lia|].
  set (rest3 := drop (Z.to_nat (3 * total s1_BitRate subs)) rest2) in *.
  assert (zlen rest3 = 6144 - zlen hdr - zlen main) as L3 by (unfold rest3, zlen in *; rewrite length_drop; lia).
  exists hdr, prots, descr. split; [done|]. split; [done|].
  assert (zlen (eti_layout hdr main) = 6144) as LL.
  { unfold eti_layout. rewrite !zlen_app. change (zlen (eti_tail main)) with 8. rewrite zlen_replicate; lia. }
  split; [done|]. unfold eti_frame. rewrite Eids, (i16_small (Minor s)), Eh by lia. cbn [mbind option_bind].
  pose proof (putn_app [] (theVector s) hdr ltac:(lia)) as E1. cbn [app] in E1. change (zlen []) with 0 in E1. rewrite E1. cbn [mbind option_bind]. fold rest1 fibs.
  rewrite putn_app by lia. cbn [mbind option_bind]. fold rest2. rewrite app_assoc.
  replace (zlen hdr + 96) with (zlen (hdr ++ fibs)) by (rewrite zlen_app; lia).
  unfold get_sub_channel_id_list. fold (sub_channels fib) subs. rewrite Ecif. cbn [mbind option_bind].
  replace ((hdr ++ fibs) ++ concat (map (stream_bytes (temp s)) subs) ++ rest3) with (hdr ++ main ++ rest3) by (unfold main, eti_main; fold fibs subs; by rewrite <- !app_assoc).
  replace (zlen (hdr ++ fibs) + 3 * total s1_BitRate subs) with (zlen (hdr ++ main)) by (rewrite !zlen_app; lia).
  replace (drop (Z.to_nat (zlen hdr)) (hdr ++ main ++ rest3)) with (main ++ rest3) by (unfold zlen; by rewrite Nat2Z.id, drop_app_length).
  replace (zlen (hdr ++ main) - zlen hdr) with (zlen main) by (rewrite zlen_app; lia). rewrite calc_crc_app.
  set (crc := calc_crc main (zlen main)). assert (is_reg crc) as Hcrc by (apply uwrap_range; lia). destruct (crc_bytes crc Hcrc) as [-> ->].
  change [Z.shiftr crc 8; u8 crc; 255; 255; 255; 255; 255; 255] with (eti_tail main). rewrite (app_assoc hdr), putn_app by (change (zlen (eti_tail main)) with 8; lia).
  cbn [mbind option_bind]. set (rest4 := drop (length (eti_tail main)) rest3). rewrite (app_assoc _ (eti_tail main)).
  replace (zlen (hdr ++ main) + 8) with (zlen ((hdr ++ main) ++ eti_tail main)) by (rewrite (zlen_app (hdr ++ main)); change (zlen (eti_tail main)) with 8; lia).
  assert (zlen rest4 = 6144 - zlen ((hdr ++ main) ++ eti_tail main)) as L4.
  { rewrite !zlen_app. change (zlen (eti_tail main)) with 8. unfold rest4, zlen in *. rewrite length_drop. change (length (eti_tail main)) with 8%nat. lia. }
  assert (0 <= 6144 - zlen ((hdr ++ main) ++ eti_tail main)) as L5 by (rewrite !zlen_app; change (zlen (eti_tail main)) with 8; lia).
  rewrite putn_app by (rewrite zlen_replicate; lia). cbn [mbind option_bind].
  rewrite (drop_ge rest4) by (rewrite length_replicate; unfold zlen in L4 |- *; lia). rewrite app_nil_r.
  replace (zlen ((hdr ++ main) ++ eti_tail main)) with (zlen hdr + zlen main + 8) by (rewrite !zlen_app; change (zlen (eti_tail main)) with 8; lia).
  unfold eti_layout. by rewrite <- !app_assoc.
Qed.

(** ** The frame, read back *)
Record eti_contents := mk_ec { ec_header : eti_header; ec_fibs : list Z; ec_streams : list (list Z) }.

Fixpoint cut_streams (headers : list eti_stream_header) (v : list Z) : list (list Z) :=
  match headers with
  | [] => []
  | h :: headers => take (Z.to_nat (8 * esh_STL h)) v :: cut_streams headers (drop (Z.to_nat (8 * esh_STL h)) v)
  end.

(** The frame length counts the words of the stream headers, of the end of the
    header and of what follows: the FIBs and the streams, with a CRC behind. *)
Definition parse_frame (v : list Z) : option eti_contents :=
  '(h, more) ← parse_header v;
  let n := 4 * (eh_FL h - zlen (eh_streams h) - 1) in
  if (zlen v =? 6144) && (96 <=? n) && (n + 2 <=? zlen more) && crc_right more n &&
     (96 + total (fun s => 8 * esh_STL s) (eh_streams h) =? n)
  then Some (mk_ec h (take 96 more) (cut_streams (eh_streams h) (drop 96 more))) else None.

Section layout.
Context (fib : FibDecoder) (Hc : cfg_ok (mpFibConfigFig0Curr fib)).
Context (H8 : Forall (fun e => 8 <= s1_BitRate e) (sub_channels fib)).

Lemma stream_length e : In e (sub_channels fib) -> 8 * esh_STL (stream_header e) = 3 * s1_BitRate e.
Proof.
  intros He. destruct (entry_facts fib Hc H8 e He) as [Hok Hr]. destruct (entry_level e Hok Hr) as [_ Hm].
  cbn [esh_STL stream_header]. Z.to_euclidean_division_equations; lia.
Qed.

Lemma cut_all input l rest : (forall e, In e l -> In e (sub_channels fib)) ->
  cut_streams (map stream_header l) (concat (map (stream_bytes input) l) ++ rest) = map (stream_bytes input) l.
Proof.
  induction l as [|e l IH]; intros Hl; [done|]. cbn [map cut_streams concat]. pose proof (Hl e ltac:(by left)) as He.
  pose proof (zlen_stream_bytes fib Hc H8 input e He) as Lb.
  rewrite stream_length by done. replace (Z.to_nat (3 * s1_BitRate e)) with (length (stream_bytes input e)) by (unfold zlen in Lb; lia).
  rewrite <- app_assoc, take_app_length, drop_app_length, IH by (intros; apply Hl; by right). done.
Qed.

Lemma total_lengths l : (forall e, In e l -> In e (sub_channels fib)) ->
  total (fun s => 8 * esh_STL s) (map stream_header l) = 3 * total s1_BitRate l.
Proof.
  induction l as [|e l IH]; intros Hl; [done|]. cbn [map total fold_right]. rewrite stream_length by (apply Hl; by left).
  unfold total in IH |- *. rewrite IH by (intros; apply Hl; by right). lia.
Qed.
End layout.

(** The eight bits from [8 j] on, most significant first, as a number. *)
Definition octet (bits : list Z) (j : Z) : Z :=
  128 * (rd bits (8 * j) mod 2) + 64 * (rd bits (8 * j + 1) mod 2) + 32 * (rd bits (8 * j + 2) mod 2) + 16 * (rd bits (8 * j + 3) mod 2) +
  8 * (rd bits (8 * j + 4) mod 2) + 4 * (rd bits (8 * j + 5) mod 2) + 2 * (rd bits (8 * j + 6) mod 2) + rd bits (8 * j + 7) mod 2.
Definition octets (bits : list Z) (n : Z) : list Z := map (octet bits) (seqZ 0 n).

Lemma pack8_octet bits j : pack8 bits j = octet bits j.
Proof.
  assert (forall t x, Z.lor (Z.shiftl t 1) (Z.land x 1) = 2 * t + x mod 2) as H.
  { intros t x. change 1 with (Z.ones 1) at 2. rewrite Z.land_ones, Z.shiftl_mul_pow2 by lia. change (2 ^ 1) with 2.
    pose proof (Z.mod_pos_bound x 2 ltac:(lia)). change (t * 2) with (t * 2 ^ 1). rewrite lor_add_disjoint by lia. lia. }
  unfold pack8. change (zfor 0 8 ?f ?t) with (f 7 (f 6 (f 5 (f 4 (f 3 (f 2 (f 1 (f 0 t)))))))). cbv beta. rewrite !H, Z.add_0_r. unfold octet. ring.
Qed.

Lemma pack_octets bits n : pack_vector bits n = octets bits n.
Proof. apply map_ext. apply pack8_octet. Qed.

Lemma pack8_byte bits j : is_byte (pack8 bits j).
Proof.
  unfold pack8, is_byte. change 256 with (2 ^ 8).
  apply (zfor_inv (fun k t => 0 <= t < 2 ^ k)); [lia|lia|]. intros k t Hk Ht.
  assert (0 <= Z.land (rd bits (8 * j + k)) 1 < 2) as Hb by (change 1 with (Z.ones 1); rewrite Z.land_ones by lia; apply Z.mod_pos_bound; lia).
  rewrite Z.shiftl_mul_pow2, lor_add_disjoint, (Z.pow_add_r 2 k 1) by lia. lia.
Qed.

Lemma pack_vector_bytes bits n : 0 <= n -> Forall is_byte (pack_vector bits n) /\ zlen (pack_vector bits n) = n.
Proof. intros Hn. split; [|by apply zlen_map_seqZ]. apply Forall_map, List.Forall_forall. intros. apply pack8_byte. Qed.

Lemma eti_main_bytes fib s : eti_ready fib s -> Forall is_byte (eti_main fib s).
Proof.
  intros H. apply Forall_app. split; [apply H|]. apply Forall_concat, Forall_map, List.Forall_forall. intros e _. unfold stream_bytes.
  destruct (Backend_new (entry_desc e)); [|apply List.Forall_nil]. unfold pack_vector. apply Forall_map, List.Forall_forall. intros. apply pack8_byte.
Qed.

(** A receiver of the frame finds in it what went into it. *)
Lemma parse_layout fib s hdr :
  cfg_ok (mpFibConfigFig0Curr fib) -> Forall (fun e => 8 <= s1_BitRate e) (sub_channels fib) -> eti_ready fib s ->
  init_eti fib (get_sub_channel_id_list fib) (CIFCount_hi s) (CIFCount_lo s) (Minor s) = Some hdr ->
  zlen (eti_layout hdr (eti_main fib s)) = 6144 ->
  parse_frame (eti_layout hdr (eti_main fib s)) =
  Some (mk_ec (mk_eh ((CIFCount_lo s + Minor s) mod 250) ((CIFCount_hi s * 250 + CIFCount_lo s + Minor s) mod 8)
                (eti_FL (map entry_data (sub_channels fib))) (map stream_header (sub_channels fib)))
          (nth (Z.to_nat (index_Out s)) (fibVector s) []) (map (stream_bytes (temp s)) (sub_channels fib))).
Proof.
  intros Hc H8 Hr Eh LL. pose proof Hr as [_ [Hhi Hlo] Hm _ _ [_ Hfl] _]. destruct (init_eti_spec fib Hc H8 _ _ _ Hhi Hlo Hm) as (hdr' & Eh' & _ & Lh & Hparse).
  rewrite Eh in Eh'. injection Eh' as <-. unfold parse_frame. rewrite LL. unfold eti_layout. rewrite Hparse. cbn [mbind option_bind eh_FL eh_streams].
  destruct (FL_words fib Hc H8) as [HFL _]. assert (zlen (map stream_header (sub_channels fib)) = zlen (sub_channels fib)) as -> by (unfold zlen; by rewrite length_map).
  pose proof (zlen_concat_streams fib (temp s) (sub_channels fib) Hc H8 ltac:(done)) as Lc. destruct (words_total fib Hc H8 (sub_channels fib) ltac:(done)) as [_ Htot].
  assert (4 * (eti_FL (map entry_data (sub_channels fib)) - zlen (sub_channels fib) - 1) = zlen (eti_main fib s)) as ->
    by (unfold eti_main; rewrite zlen_app; lia).
  assert (zlen (eti_main fib s) = 96 + 3 * total s1_BitRate (sub_channels fib)) as Lm by (unfold eti_main; rewrite zlen_app; lia).
  rewrite (total_lengths fib Hc H8), zlen_app by done. change (eti_tail (eti_main fib s)) with ([Z.shiftr (calc_crc (eti_main fib s) (zlen (eti_main fib s))) 8; u8 (calc_crc (eti_main fib s) (zlen (eti_main fib s)))] ++ [0xFF; 0xFF; 0xFF; 0xFF; 0xFF; 0xFF]).
  rewrite <- app_assoc, crc_appended_right by (done || by apply eti_main_bytes). rewrite zlen_app. change (zlen [_; _]) with 2.
  match goal with |- context [2 + zlen ?x] => pose proof (zlen_nonneg x) end.
  match goal with |- (if ?c then _ else _) = _ => assert (c = true) as -> by (rewrite !andb_true_iff; repeat split; lia) end.
  unfold eti_main. set (fibs := nth _ _ _) in *. rewrite <- app_assoc. replace 96%nat with (length fibs) by (unfold zlen in Hfl; lia).
  rewrite take_app_length, drop_app_length, (cut_all fib Hc H8) by done. done.
Qed.
