(* ===== verification/EtiRecording.v ===== *)
(** * A recording of the ETI generator, DAB frame by DAB frame

    The generator is started, then gets the symbols 1 to 75 of one DAB frame
    after the other.  The theorem says which ETI frames are in the file in the
    end, and compares their streams with what MSC backends fed with the same
    CIFs hand to their drivers. *)
From stdpp Require Import gmap.
From S2P Require Import Prelude BitExtractors BitFields Checked Crc Viterbi Protection Backend FibConfig FibFig0 FibDecoder FibInvariant FibProperties FicDecoder EtiGenerator EtiProperties.
Open Scope Z_scope.

(** ** The calls *)
Fixpoint eti_blocks (fic : FicDecoder) (blocks : list (list Z)) (idx : Z) (s : EtiGenerator) : option EtiGenerator :=
  match blocks with
  | [] => Some s
  | b :: blocks => s ← eti_process_block fic b idx s; eti_blocks fic blocks (idx + 1) s
  end.

Lemma eti_blocks_app fic bs1 bs2 idx s :
  eti_blocks fic (bs1 ++ bs2) idx s = (s ← eti_blocks fic bs1 idx s; eti_blocks fic bs2 (idx + zlen bs1) s).
Proof.
  revert idx s. induction bs1 as [|b bs1 IH]; intros idx s; [cbn; by rewrite Z.add_0_r|]. cbn [app eti_blocks].
  destruct (eti_process_block fic b idx s) as [s1|]; cbn [mbind option_bind]; [|done]. rewrite IH, zlen_cons.
  by replace (idx + (1 + zlen bs1)) with (idx + 1 + zlen bs1) by lia.
Qed.

(** One symbol of a CIF, the [j]th. *)
Lemma block_store fic b idx j s P rest :
  eti_running s = true -> 4 <= idx -> Z.rem (idx - 4) 18 = j -> zlen b = 3072 ->
  cif_In s = P ++ rest -> zlen P = 3072 * j -> 3072 <= zlen rest ->
  eti_process_block fic b idx s =
  let s1 := if idx =? 4 then import_fic fic s else s in
  let s2 := set_cif ((P ++ b) ++ drop (length b) rest) (cifVector s1) (temp s1) s1 in
  if j =? 17 then end_of_cif (mpFibDecoder fic) s2 else Some s2.
Proof.
  intros Hr Hi Hj Hb Ec HP Hrest. unfold eti_process_block. rewrite Hr. cbn [negb andb]. rewrite Hr. cbn [negb].
  assert ((idx <? 4) = false) as -> by lia. rewrite Hj. set (s1 := if idx =? 4 then _ else _).
  assert (cif_In s1 = P ++ rest) as Ec1 by (unfold s1; destruct (idx =? 4); [unfold import_fic; by repeat case_match|done]).
  rewrite getn_Some by lia. cbn [mbind option_bind]. assert (slice b 0 3072 = b) as ->.
  { unfold slice. change (Z.to_nat 0) with 0%nat. rewrite drop_0, take_ge; [done|]. unfold zlen in Hb. lia. }
  rewrite Ec1. replace (j * 3072) with (zlen P) by lia. rewrite putn_app by lia. cbn [mbind option_bind]. cbv zeta. by rewrite <- app_assoc.
Qed.

Lemma cif_tail fic c bs : 0 <= c -> Forall (fun b => zlen b = 3072) bs -> bs <> [] -> forall j s P rest,
  eti_running s = true -> 1 <= j -> j + zlen bs = 18 -> cif_In s = P ++ rest -> zlen P = 3072 * j -> zlen rest = 3072 * (18 - j) ->
  eti_blocks fic bs (4 + 18 * c + j) s =
  end_of_cif (mpFibDecoder fic) (set_cif (P ++ concat bs) (cifVector s) (temp s) s).
Proof.
  intros Hc Hbs. induction Hbs as [|b bs Hb Hbs IH]; intros Hne j s P rest Hr Hj Hn Ec HP Hrest; [done|].
  rewrite zlen_cons in Hn. pose proof (zlen_nonneg bs). cbn [eti_blocks concat].
  rewrite (block_store fic b (4 + 18 * c + j) j s P rest) by (done || lia || (rewrite Z.rem_mod_nonneg by lia; Z.to_euclidean_division_equations; lia)).
  cbv zeta. assert ((4 + 18 * c + j =? 4) = false) as -> by lia. destruct bs as [|b2 bs].
  - change (zlen []) with 0 in Hn. assert ((j =? 17) = true) as -> by lia. cbn [eti_blocks concat]. rewrite app_nil_r, (drop_ge rest) by (unfold zlen in *; lia).
    rewrite app_nil_r. by destruct (end_of_cif _ _).
  - rewrite zlen_cons in Hn. pose proof (zlen_nonneg bs). assert ((j =? 17) = false) as -> by lia. cbn [mbind option_bind].
    rewrite <- Z.add_assoc. rewrite (IH ltac:(done) (j + 1) _ (P ++ b) (drop (length b) rest)).
    + cbn [cifVector temp set_cif]. by rewrite <- app_assoc.
    + done.
    + lia.
    + rewrite zlen_cons. lia.
    + done.
    + rewrite zlen_app. lia.
    + unfold zlen in *. rewrite length_drop. lia.
Qed.

(** Eighteen symbols make a CIF. *)
Lemma cif_blocks fic c bs s :
  0 <= c -> Forall (fun b => zlen b = 3072) bs -> zlen bs = 18 -> eti_running s = true -> zlen (cif_In s) = cCifBits ->
  eti_blocks fic bs (4 + 18 * c) s =
  let s1 := if c =? 0 then import_fic fic s else s in
  end_of_cif (mpFibDecoder fic) (set_cif (concat bs) (cifVector s1) (temp s1) s1).
Proof.
  intros Hc Hbs Hn Hr Hl. destruct Hbs as [|b bs Hb Hbs]; [done|]. rewrite zlen_cons in Hn. cbn [eti_blocks concat]. unfold cCifBits in Hl.
  rewrite (block_store fic b (4 + 18 * c) 0 s [] (cif_In s)) by (done || lia || (rewrite Z.rem_mod_nonneg by lia; Z.to_euclidean_division_equations; lia)).
  cbv zeta. assert ((4 + 18 * c =? 4) = (c =? 0)) as -> by lia. set (s1 := if c =? 0 then _ else _).
  assert (eti_running s1 = true) as Hr1 by (unfold s1; destruct (c =? 0); [unfold import_fic; by repeat case_match|done]).
  change (0 =? 17) with false. cbn [mbind option_bind app]. rewrite (cif_tail fic c bs Hc Hbs) with (P := b) (rest := drop (length b) (cif_In s)).
  - done.
  - destruct bs; [done|done].
  - done.
  - lia.
  - lia.
  - done.
  - lia.
  - unfold zlen in *. rewrite length_drop. lia.
Qed.

(** ** The de-interleaver, and the backend's *)
Lemma deinterleave_same index c t rows : 0 <= index < 16 ->
  zfor 0 cCifBits (eti_deinterleave index c) (t, rows) = zfor 0 cCifBits (deinterleave_step index c) (t, rows).
Proof.
  intros Hi. apply zfor_ext. intros i [t' rows'] _. unfold eti_deinterleave, deinterleave_step. rewrite (land15 index), Z.mod_small by lia. done.
Qed.

(** A segment that starts at a capacity unit is de-interleaved alone as it is in
    the whole CIF: units are multiples of sixteen bits. *)
Lemma slice_assembled (cifs : Z -> list Z) n t off len :
  0 <= off -> 0 <= len -> off + len <= n -> off mod 16 = 0 ->
  slice (assembled cifs n t) off len = assembled (fun u => slice (cifs u) off len) len t.
Proof.
  intros Ho Hl Hn Hm. assert (zlen (assembled cifs n t) = n) as La by (apply zlen_map_seqZ; lia).
  apply list_eq_rd; [unfold assembled at 2; rewrite zlen_slice, zlen_map_seqZ by lia; done|]. rewrite zlen_slice by lia. intros i Hi.
  rewrite rd_slice by lia. unfold assembled. rewrite !rd_map_seqZ by lia. rewrite <- Z.add_mod_idemp_l, Hm, Z.add_0_l by lia.
  unfold cif. destruct (_ <? 0); [done|]. by rewrite rd_slice by lia.
Qed.

(** What a backend for the sub-channel, fed with its part of the CIFs from the
    first to number [t], hands to its driver last, in bytes. *)
Definition backend_bytes (cifs : Z -> list Z) (e : SFig0s1_BasicSubChannelOrganization) (t : Z) : list Z :=
  match Backend_new (entry_desc e) with
  | Some b =>
      octets (List.last (run b (map (fun u => slice (cifs u) (s1_StartAddr e * 64) (s1_SubChannelSize e * 64)) (seqZ 0 (t + 1)))) [])
        (3 * s1_BitRate e)
  | None => []
  end.

Lemma stream_is_backend cifs e t :
  entry_ok e -> 8 <= s1_BitRate e -> 16 <= t -> stream_bytes (assembled cifs cCifBits t) e = backend_bytes cifs e t.
Proof.
  intros Hok H8 Ht. destruct (entry_serviceable e 0 (s1_SubChId e) Hok H8) as (Hs & Hf & Hv & p & Ep & Ha & _). fold (entry_desc e) in Ep, Hv. cbn [dCuStartAddr dCuSize] in Hs, Hf.
  destruct Hok as (_ & Hs' & Hz & _). unfold stream_bytes, backend_bytes. destruct (Backend_new (entry_desc e)) as [b0|] eqn:Eb; [|done].
  set (inputs := fun u => slice (cifs u) (s1_StartAddr e * 64) (s1_SubChannelSize e * 64)).
  assert (fragmentSize b0 = s1_SubChannelSize e * 64 /\ deconvolver b0 = p) as [Ef Ed] by (unfold Backend_new in Eb; rewrite Ep in Eb; by injection Eb as <-).
  pose proof (backend_inv_start (entry_desc e) b0 inputs Eb ltac:(cbn [dCuSize entry_desc]; lia)) as Hinv.
  replace (t + 1) with (Z.of_nat (Z.to_nat (t + 1))) by lia. rewrite (run_spec b0 inputs 0) by (rewrite ?Ed, ?Ef; done || lia).
  replace (Z.of_nat (Z.to_nat (t + 1))) with (t + 1) by lia. rewrite seqZ_app, flat_map_app by lia. cbn [flat_map].
  rewrite (seqZ_cons (0 + t)), Z.add_0_l by lia. change (Z.pred 1) with 0. rewrite (seqZ_nil _ 0) by lia. cbn [flat_map]. assert ((t <? 16) = false) as -> by lia.
  cbn [app]. rewrite pack_octets, List.last_last, Ef. unfold inputs. rewrite slice_assembled; [done|lia|lia| |].
  - unfold cCifBits. lia.
  - replace (s1_StartAddr e * 64) with (s1_StartAddr e * 4 * 16) by lia. apply Z.mod_mul. lia.
Qed.

(** ** The state before CIF number [t]

    The start-up keeps [index_Out] at 15 for the sixteenth CIF, so that the
    seventeenth is stored in its place: what counts from then on are the CIFs
    from number 16. *)
Record eti_sizes (s : EtiGenerator) : Prop := {
  es_in : zlen (cif_In s) = cCifBits;
  es_rows : wf_data cCifBits (cifVector s);
  es_temp : zlen (temp s) = cCifBits;
  es_vector : zlen (theVector s) = 6144;
  es_fibs : length (fibVector s) = 16%nat
}.

Definition place (t : Z) : Z := if t <? 16 then t else (t - 1) mod 16.

Record eti_at (cifs : Z -> list Z) (fib : FibDecoder) (t : Z) (s : EtiGenerator) : Prop := {
  ea_sizes : eti_sizes s;
  ea_index : index_Out s = place t;
  ea_amount : amount s = Z.min t 15;
  ea_stored : forall u i, 16 <= u -> t - 16 <= u < t -> 0 <= i < cCifBits -> rd2 (cifVector s) (place u) i = rd (cifs u) i;
  ea_tables : tables_ok fib (protTable s) (descrambler s)
}.

(** ... in a DAB frame, before its CIF [c]. *)
Record eti_in_frame (fic : FicDecoder) (t c : Z) (s : EtiGenerator) : Prop := {
  ef_ids : mSubChIdList s = get_sub_channel_id_list (mpFibDecoder fic);
  ef_count : (CIFCount_hi s, CIFCount_lo s) = get_cif_count_parts (mpFibDecoder fic);
  ef_minor : c < 4 -> Minor s = if (t <? 16) && negb (c =? 0) then -1 else c;
  ef_fibs : forall i, c <= i < 4 -> nth (Z.to_nat (Z.land (place t + (i - c)) 15)) (fibVector s) [] = pack_vector (slice (mFibBitsEntireFrame fic) (i * 768) 768) 96
}.

Lemma place_range t : 0 <= t -> 0 <= place t < 16.
Proof. intros. unfold place. destruct (Z.ltb_spec t 16); [lia|]. apply Z.mod_pos_bound. lia. Qed.

Lemma place_next t : 0 <= t -> t <> 15 -> Z.land (place t + 1) 15 = place (t + 1).
Proof.
  intros Ht Hn. rewrite land15. unfold place. destruct (Z.ltb_spec t 16), (Z.ltb_spec (t + 1) 16); try lia; Z.to_euclidean_division_equations; lia.
Qed.

Lemma place_stays : place 16 = place 15.
Proof. reflexivity. Qed.

Lemma eti_place_apart t u : 16 <= u -> t - 15 <= u < t -> place u <> place t.
Proof. intros Hu Ht. unfold place. destruct (Z.ltb_spec u 16), (Z.ltb_spec t 16); try lia. Z.to_euclidean_division_equations; lia. Qed.

(** Storing CIF [t], and what is assembled meanwhile. *)
Lemma store_cif cifs fib t s t' rows :
  0 <= t -> eti_at cifs fib t s -> cif_In s = cifs t ->
  zfor 0 cCifBits (eti_deinterleave (index_Out s) (cif_In s)) (temp s, cifVector s) = (t', rows) ->
  zlen t' = cCifBits /\ wf_data cCifBits rows /\
  (forall u i, 16 <= u -> t - 15 <= u < t + 1 -> 0 <= i < cCifBits -> rd2 rows (place u) i = rd (cifs u) i) /\
  (32 <= t -> t' = assembled cifs cCifBits t).
Proof.
  intros Ht [[_ Hwf Htl _ _] Ei _ Hst _] Ec. pose proof (place_range t Ht) as Hp. rewrite Ei, Ec, deinterleave_same by done. intros E.
  pose proof (deinterleave_loop cCifBits (place t) (cifs t) (temp s) (cifVector s) ltac:(done) Hwf Htl Hp) as H. rewrite E in H.
  destruct H as (H1 & H2 & H3 & H4). split_and!; [done..| |].
  - intros u i Hu Hut Hi. rewrite H4 by (pose proof (place_range u); lia). destruct (Z.ltb_spec i cCifBits); [|lia]. rewrite andb_true_r.
    destruct (Z.eqb_spec (place u) (place t)) as [Ep|Hne].
    + destruct (Z.eq_dec u t) as [->|]; [done|]. by destruct (eti_place_apart t u ltac:(lia) ltac:(lia)).
    + assert (u <> t) by congruence. apply Hst; lia.
  - intros H32. apply list_eq_rd; [unfold assembled; by rewrite zlen_map_seqZ by done|]. rewrite H1. intros i Hi. unfold assembled.
    rewrite rd_map_seqZ, H3 by done. pose proof (interleaveMap_range (i mod 16)) as Hm. set (m := rd interleaveMap (i mod 16)) in *.
    unfold cif. destruct (Z.ltb_spec (t - 16 + m) 0); [lia|]. rewrite <- Hst by lia. f_equal.
    unfold place. destruct (Z.ltb_spec t 16), (Z.ltb_spec (t - 16 + m) 16); try lia. Z.to_euclidean_division_equations; lia.
Qed.

(** Reads the members of an updated state. *)
Ltac eti_fields := cbn [etiFile eti_running index_Out Minor CIFCount_hi CIFCount_lo amount mSubChIdList cif_In cifVector fibVector fibValid temp protTable
  descrambler theVector set_cif set_place set_run set_tables set_frame].

(** ** The end of a CIF *)
(** The frame of CIF [t], the [c]th of the DAB frame with this FIC. *)
Definition frame_of (cifs : Z -> list Z) (fic : FicDecoder) (t c : Z) (v : list Z) : Prop :=
  let fib := mpFibDecoder fic in
  exists contents, parse_frame v = Some contents /\
    ec_header contents = mk_eh ((mCifCount_lo fib + c) mod 250) ((mCifCount_hi fib * 250 + mCifCount_lo fib + c) mod 8)
      (zlen (sub_channels fib) + 25 + total (fun e => 3 * s1_BitRate e / 4) (sub_channels fib)) (map stream_header (sub_channels fib)) /\
    ec_fibs contents = octets (slice (mFibBitsEntireFrame fic) (c * 768) 768) 96 /\
    (32 <= t -> ec_streams contents = map (fun e => backend_bytes cifs e t) (sub_channels fib)).

(** What a configuration has to be for a recording: collected from FIBs, with bit
    rates, and with a CIF count in its range. *)
Record recordable (fic : FicDecoder) : Prop := {
  rc_config : cfg_ok (mpFibConfigFig0Curr (mpFibDecoder fic));
  rc_rates : Forall (fun e => 8 <= s1_BitRate e) (sub_channels (mpFibDecoder fic));
  rc_count : 0 <= mCifCount_hi (mpFibDecoder fic) < 20 /\ 0 <= mCifCount_lo (mpFibDecoder fic) < 250
}.

Section cif_step.
Context (cifs : Z -> list Z) (fic : FicDecoder) (t c : Z) (s : EtiGenerator).
Context (Hrec : recordable fic) (Ht : 0 <= t) (Hc : 0 <= c < 4) (Htc : t mod 4 = c).
Context (Hat : eti_at cifs (mpFibDecoder fic) t s) (Hin : eti_in_frame fic t c s) (Ecif : cif_In s = cifs t).

Lemma wait_step : t < 16 ->
  exists s', end_of_cif (mpFibDecoder fic) s = Some s' /\ eti_at cifs (mpFibDecoder fic) (t + 1) s' /\ eti_in_frame fic (t + 1) (c + 1) s' /\
    etiFile s' = etiFile s /\ eti_running s' = eti_running s.
Proof.
  intros Hlt. unfold end_of_cif. destruct (zfor 0 cCifBits _ _) as [t' rows] eqn:E.
  destruct (store_cif _ _ _ _ _ _ Ht Hat Ecif E) as (Lt & Wr & Hst & _). clear E. destruct Hat as [[Z1 _ _ Z4 Z5] Ei Ea _ Htab], Hin as [F1 F2 F3 F4]; specialize (F3 ltac:(lia)).
  cbn [amount set_cif]. rewrite Ea. pose proof rc_count _ Hrec as Hcount. injection F2 as Ehi Elo. fold (mpFibDecoder fic) in *.
  assert (forall u i, 16 <= u -> t + 1 - 16 <= u < t + 1 -> 0 <= i < cCifBits -> rd2 rows (place u) i = rd (cifs u) i) as Hst' by (intros; apply Hst; lia).
  destruct (Z.eq_dec t 15) as [E15|Hne].
  - subst t. cbn [Z.min Z.ltb Z.compare Pos.compare Pos.compare_cont]. cbn [CIFCount_hi CIFCount_lo Minor set_cif]. rewrite Ehi, Elo, F3.
    assert ((mCifCount_hi (mpFibDecoder fic) <? 0) || (mCifCount_lo (mpFibDecoder fic) <? 0) = false) as -> by lia.
    assert (c = 3) as -> by (rewrite <- Htc; reflexivity). cbn [Z.ltb Z.compare Pos.compare Pos.compare_cont andb negb Z.eqb].
    eexists. split; [reflexivity|]. split_and!; [|split; eti_fields; [done|by rewrite Ehi, Elo|lia|lia]|done|done].
    split; [by split|eti_fields; by rewrite Ei|eti_fields; lia|done|done].
  - assert ((Z.min t 15 <? 15) = true) as -> by lia. eexists. split; [reflexivity|]. split_and!; [| |done|done].
    + split; [by split|eti_fields; rewrite Ei; apply place_next; lia|eti_fields; lia|done|done].
    + assert ((t + 1 <? 16) = true) as E16 by lia. split; eti_fields; [done|by rewrite Ehi, Elo|intros _; rewrite E16; destruct (Z.eqb_spec (c + 1) 0); [lia|done]|].
      intros i Hi. rewrite <- (F4 i) by lia. do 2 f_equal. rewrite !land15. rewrite <- place_next, land15 by lia. Z.to_euclidean_division_equations; lia.
Qed.

Lemma write_step w : 16 <= t -> etiFile s = Some w ->
  exists s' v, end_of_cif (mpFibDecoder fic) s = Some s' /\ eti_at cifs (mpFibDecoder fic) (t + 1) s' /\ eti_in_frame fic (t + 1) (c + 1) s' /\
    etiFile s' = Some (w ++ [v]) /\ eti_running s' = eti_running s /\ frame_of cifs fic t c v.
Proof.
  intros Hge Hw. unfold end_of_cif. destruct (zfor 0 cCifBits _ _) as [t' rows] eqn:E.
  destruct (store_cif _ _ _ _ _ _ Ht Hat Ecif E) as (Lt & Wr & Hst & Has). clear E. destruct Hat as [[Z1 _ _ Z4 Z5] Ei Ea _ Htab], Hin as [F1 F2 F3 F4], Hrec as [Hcfg H8 Hcount]. specialize (F3 ltac:(lia)).
  injection F2 as Ehi Elo. assert ((t <? 16) = false) as E16 by lia. rewrite E16 in F3. cbn [andb] in F3. set (fib := mpFibDecoder fic) in *.
  cbn [amount CIFCount_hi CIFCount_lo Minor set_cif]. rewrite Ea, Ehi, Elo, F3. set (s1 := set_cif (cif_In s) rows t' s).
  assert ((Z.min t 15 <? 15) = false) as -> by lia. assert ((mCifCount_hi fib <? 0) || (mCifCount_lo fib <? 0) = false) as -> by lia. assert ((c <? 0) = false) as -> by lia.
  assert (nth (Z.to_nat (index_Out s1)) (fibVector s1) [] = pack_vector (slice (mFibBitsEntireFrame fic) (c * 768) 768) 96) as Efib.
  { eti_fields. rewrite <- (F4 c) by lia. do 2 f_equal. rewrite Z.sub_diag, Z.add_0_r, land15, Z.mod_small by (by apply place_range). done. }
  assert (eti_ready fib s1) as Hready.
  { split; unfold s1; eti_fields; fold s1; try done; try lia.
    change (nth (Z.to_nat (index_Out s)) (fibVector s) []) with (nth (Z.to_nat (index_Out s1)) (fibVector s1) []). rewrite Efib. apply pack_vector_bytes. lia. }
  destruct (eti_frame_spec fib s1 Hcfg H8 Hready) as (hdr & prots & descr & Eh & Htab' & LL & Ef). rewrite Ef. cbn [mbind option_bind].
  pose proof (parse_layout fib s1 hdr Hcfg H8 Hready Eh LL) as Hparse. set (v := eti_layout hdr (eti_main fib s1)) in *.
  exists (set_place (Z.land (index_Out s1 + 1) 15) (Minor s1 + 1) (amount s1) (set_run (option_map (fun w => w ++ [v]) (etiFile s1)) (eti_running s1) (set_tables prots descr v s1))), v.
  split; [reflexivity|]. split_and!; [| |unfold s1; eti_fields; by rewrite Hw|done|].
  - split; [by split|unfold s1; eti_fields; rewrite Ei; apply place_next; lia|unfold s1; eti_fields; lia|unfold s1; eti_fields; intros; apply Hst; lia|done].
  - assert ((t + 1 <? 16) = false) as E17 by lia. split; unfold s1; eti_fields; [done|by rewrite Ehi, Elo|intros _; rewrite E17, F3; done|].
    intros i Hi. rewrite <- (F4 i) by lia. do 2 f_equal. rewrite !land15. rewrite <- place_next, land15 by lia. Z.to_euclidean_division_equations; lia.
  - eexists. split; [exact Hparse|]. cbn [ec_header ec_fibs ec_streams]. split_and!; [|by rewrite Efib, pack_octets|].
    + unfold s1; eti_fields. rewrite Ehi, Elo, F3. by rewrite (FL_spec fib Hcfg H8).
    + intros H32. unfold s1; eti_fields. rewrite (Has H32). apply map_ext_in. intros e He.
      destruct (entry_facts fib Hcfg H8 e He) as [Hok Hr]. apply stream_is_backend; [done..|lia].
Qed.
End cif_step.

(** ** A DAB frame *)
Lemma import_spec cifs fic t s :
  0 <= t -> t mod 4 = 0 -> eti_at cifs (mpFibDecoder fic) t s ->
  eti_at cifs (mpFibDecoder fic) t (import_fic fic s) /\ eti_in_frame fic t 0 (import_fic fic s) /\
  etiFile (import_fic fic s) = etiFile s /\ eti_running (import_fic fic s) = eti_running s /\ cif_In (import_fic fic s) = cif_In s.
Proof.
  intros Ht Hm [[Z1 Z2 Z3 Z4 Z5] Ei Ea Hst Htab]. unfold import_fic, get_fib_bits, get_cif_count_parts. eti_fields. pose proof (place_range t Ht) as Hp.
  change (zfor 0 4 ?f ?v) with (f 3 (f 2 (f 1 (f 0 v)))). cbv beta. rewrite Ei. split_and!; [| |done..].
  - split; [|done..]. split; eti_fields; [done..|]. by rewrite !length_insert.
  - split; eti_fields; [done|done|intros _; by destruct (t <? 16)|]. intros i Hi. rewrite Z.sub_0_r.
    assert (forall k k', 0 <= k < 4 -> 0 <= k' < 4 -> k <> k' -> Z.to_nat (Z.land (place t + k) 15) <> Z.to_nat (Z.land (place t + k') 15)) as Hne.
    { intros k k' Hk Hk' Hkk. rewrite !land15. pose proof (Z.mod_pos_bound (place t + k) 16 ltac:(lia)). pose proof (Z.mod_pos_bound (place t + k') 16 ltac:(lia)).
      intros E. assert ((place t + k) mod 16 = (place t + k') mod 16) by lia. Z.to_euclidean_division_equations; lia. }
    assert (forall k, 0 <= k < 4 -> (Z.to_nat (Z.land (place t + k) 15) < 16)%nat) as Hlt.
    { intros k Hk. rewrite land15. pose proof (Z.mod_pos_bound (place t + k) 16 ltac:(lia)). lia. }
    rewrite nth_lookup. assert (i = 0 \/ i = 1 \/ i = 2 \/ i = 3) as [->|[->|[->| ->]]] by lia;
      repeat (rewrite list_lookup_insert_ne by (apply Hne; lia)); rewrite list_lookup_insert_eq by (rewrite ?length_insert, Z5; apply Hlt; lia); done.
Qed.

(** The symbols of a CIF end it: before number 16 nothing is written, from then on
    its frame. *)
Lemma cif_step cifs fic bs t c s w :
  recordable fic -> 0 <= t -> 0 <= c < 4 -> t mod 4 = c -> eti_running s = true -> etiFile s = Some w ->
  Forall (fun b => zlen b = 3072) bs -> zlen bs = 18 -> concat bs = cifs t ->
  eti_at cifs (mpFibDecoder fic) t s -> (c <> 0 -> eti_in_frame fic t c s) ->
  exists s' vs, eti_blocks fic bs (4 + 18 * c) s = Some s' /\ eti_at cifs (mpFibDecoder fic) (t + 1) s' /\ eti_in_frame fic (t + 1) (c + 1) s' /\
    eti_running s' = true /\ etiFile s' = Some (w ++ vs) /\
    Forall2 (fun u v => frame_of cifs fic u (u mod 4) v) (if t <? 16 then [] else [t]) vs.
Proof.
  intros Hrec Ht Hc Htc Hr Hw Hbs Hn Ecif Hat Hin. rewrite cif_blocks by (done || lia || apply Hat). cbv zeta.
  set (s1 := if c =? 0 then import_fic fic s else s).
  assert (eti_at cifs (mpFibDecoder fic) t s1 /\ eti_in_frame fic t c s1 /\ etiFile s1 = Some w /\ eti_running s1 = true) as (Hat1 & Hin1 & Hw1 & Hr1).
  { unfold s1. destruct (Z.eqb_spec c 0) as [->|Hne]; [|split_and!; auto]. destruct (import_spec cifs fic t s Ht ltac:(done) Hat) as (H1 & H2 & H3 & H4 & _).
    rewrite H3, H4. by split_and!. }
  set (s2 := set_cif (concat bs) (cifVector s1) (temp s1) s1).
  assert (zlen (cifs t) = cCifBits) as Lc.
  { rewrite <- Ecif. clear -Hbs Hn. replace cCifBits with (3072 * zlen bs) by (rewrite Hn; reflexivity). clear Hn.
    induction Hbs as [|b bs Hb Hbs IH]; [done|]. cbn [concat]. rewrite zlen_app, zlen_cons, IH, Hb. lia. }
  assert (eti_at cifs (mpFibDecoder fic) t s2) as Hat2.
  { destruct Hat1 as [[Z1 Z2 Z3 Z4 Z5] Ei Ea Hst Htab]. split; [split; unfold s2; eti_fields; [by rewrite Ecif|done..]|done..]. }
  assert (eti_in_frame fic t c s2) as Hin2 by (destruct Hin1; by split).
  destruct (Z.ltb_spec t 16) as [Hlt|Hge].
  - destruct (wait_step cifs fic t c s2 Hrec Ht Hc Htc Hat2 Hin2 Ecif Hlt) as (s' & E & H1 & H2 & H3 & H4).
    exists s', []. split_and!; [done..| | |constructor]; [by rewrite H4|]. rewrite app_nil_r, H3. done.
  - destruct (write_step cifs fic t c s2 Hrec Ht Hc Hat2 Hin2 Ecif w Hge Hw1) as (s' & v & E & H1 & H2 & H3 & H4 & H5).
    exists s', [v]. split_and!; [done..| | |]; [by rewrite H4|done|]. constructor; [by rewrite Htc|constructor].
Qed.

(** The symbols a receiver passes on: three of the FIC, then those of four CIFs. *)
Definition cif_bits (msc : Z -> Z -> list Z) (t : Z) : list Z := concat (map (msc t) (seqZ 0 18)).
Definition dab_frame (ficSymbols : Z -> list (list Z)) (msc : Z -> Z -> list Z) (f : Z) : list (list Z) :=
  ficSymbols f ++ map (msc (4 * f)) (seqZ 0 18) ++ map (msc (4 * f + 1)) (seqZ 0 18) ++ map (msc (4 * f + 2)) (seqZ 0 18) ++ map (msc (4 * f + 3)) (seqZ 0 18).

Lemma zlen_symbols (msc : Z -> Z -> list Z) t : zlen (map (msc t) (seqZ 0 18)) = 18.
Proof. unfold zlen. by rewrite length_map, length_seqZ. Qed.

Lemma tables_ok_same fib fib' prots descr : sub_channels fib = sub_channels fib' -> tables_ok fib prots descr -> tables_ok fib' prots descr.
Proof. intros E [H1 H2]. split; [done|]. by rewrite <- E. Qed.

Lemma eti_at_same cifs fib fib' t s : sub_channels fib = sub_channels fib' -> eti_at cifs fib t s -> eti_at cifs fib' t s.
Proof. intros E [H1 H2 H3 H4 H5]. split; try done. by eapply tables_ok_same. Qed.

(** The symbols of the FIC only start the recording. *)
Lemma fic_symbols fic b1 b2 b3 s w : etiFile s = Some w ->
  eti_blocks fic [b1; b2; b3] 1 s = Some (set_run (etiFile s) true s).
Proof.
  intros Hw. cbn [eti_blocks]. unfold eti_process_block. rewrite Hw. destruct s as [f r]; cbn in Hw; subst f; destruct r; reflexivity.
Qed.

Section recording.
Context (ficSymbols : Z -> list (list Z)) (msc : Z -> Z -> list Z) (fics : Z -> FicDecoder) (subs : list SFig0s1_BasicSubChannelOrganization).
Context (Hfic : forall f, 0 <= f -> zlen (ficSymbols f) = 3) (Hmsc : forall t j, 0 <= t -> zlen (msc t j) = 3072).
Context (Hrec : forall f, 0 <= f -> recordable (fics f) /\ sub_channels (mpFibDecoder (fics f)) = subs).
Let cifs := cif_bits msc.

(** Frame [u] of the recording. *)
Definition record_of (u : Z) (v : list Z) : Prop := frame_of cifs (fics (u / 4)) u (u mod 4) v.

Lemma cif_step' f c s w :
  0 <= f -> 0 <= c < 4 -> eti_running s = true -> etiFile s = Some w ->
  eti_at cifs (mpFibDecoder (fics f)) (4 * f + c) s -> (c <> 0 -> eti_in_frame (fics f) (4 * f + c) c s) ->
  exists s' vs, eti_blocks (fics f) (map (msc (4 * f + c)) (seqZ 0 18)) (4 + 18 * c) s = Some s' /\
    eti_at cifs (mpFibDecoder (fics f)) (4 * f + (c + 1)) s' /\ eti_in_frame (fics f) (4 * f + (c + 1)) (c + 1) s' /\
    eti_running s' = true /\ etiFile s' = Some (w ++ vs) /\ Forall2 record_of (if f <? 4 then [] else [4 * f + c]) vs.
Proof.
  intros Hf Hc Hr Hw Hat Hin. assert ((4 * f + c) mod 4 = c) as Hm by (Z.to_euclidean_division_equations; lia).
  destruct (Hrec f Hf) as [Hrf _].
  destruct (cif_step cifs (fics f) (map (msc (4 * f + c)) (seqZ 0 18)) (4 * f + c) c s w) as (s' & vs & H1 & H2 & H3 & H4 & H5 & H6); try done; try lia.
  - apply Forall_map, List.Forall_forall. intros j _. apply Hmsc. lia.
  - exists s', vs. rewrite Z.add_assoc. split_and!; [done..|]. replace (4 * f + c <? 16) with (f <? 4) in H6 by lia.
    destruct (f <? 4); [by inversion H6|]. inversion H6 as [|? v ? ? Hv Hnil]. inversion Hnil. constructor; [|constructor]. unfold record_of.
    replace ((4 * f + c) / 4) with f by (Z.to_euclidean_division_equations; lia). done.
Qed.

Lemma frame_step f s w :
  0 <= f -> etiFile s = Some w -> eti_at cifs (mpFibDecoder (fics f)) (4 * f) s ->
  exists s' vs, eti_blocks (fics f) (dab_frame ficSymbols msc f) 1 s = Some s' /\ eti_at cifs (mpFibDecoder (fics f)) (4 * (f + 1)) s' /\
    etiFile s' = Some (w ++ vs) /\ Forall2 record_of (if f <? 4 then [] else [4 * f; 4 * f + 1; 4 * f + 2; 4 * f + 3]) vs.
Proof.
  intros Hf Hw Hat. unfold dab_frame. pose proof (Hfic f Hf) as H3. destruct (ficSymbols f) as [|b1 [|b2 [|b3 [|b4 l]]]]; try (unfold zlen in H3; cbn [length] in H3; lia).
  rewrite eti_blocks_app, (fic_symbols _ _ _ _ _ w) by done. cbn [mbind option_bind]. change (1 + zlen [b1; b2; b3]) with (4 + 18 * 0).
  set (s0 := set_run (etiFile s) true s). assert (eti_at cifs (mpFibDecoder (fics f)) (4 * f + 0) s0) as Hat0.
  { rewrite Z.add_0_r. destruct Hat as [[Z1 Z2 Z3 Z4 Z5] Ei Ea Hst Htab]. split; [by split|done..]. }
  destruct (cif_step' f 0 s0 w Hf ltac:(lia) ltac:(done) Hw Hat0 ltac:(done)) as (s1 & v1 & E1 & A1 & I1 & R1 & W1 & F1).
  destruct (cif_step' f 1 s1 _ Hf ltac:(lia) R1 W1 A1 ltac:(done)) as (s2 & v2 & E2 & A2 & I2 & R2 & W2 & F2).
  destruct (cif_step' f 2 s2 _ Hf ltac:(lia) R2 W2 A2 ltac:(done)) as (s3 & v3 & E3 & A3 & I3 & R3 & W3 & F3).
  destruct (cif_step' f 3 s3 _ Hf ltac:(lia) R3 W3 A3 ltac:(done)) as (s4 & v4 & E4 & A4 & I4 & R4 & W4 & F4).
  exists s4, (v1 ++ v2 ++ v3 ++ v4). rewrite Z.add_0_r in E1. rewrite eti_blocks_app, zlen_symbols, E1. cbn [mbind option_bind].
  change (4 + 18 * 0 + 18) with (4 + 18 * 1). rewrite eti_blocks_app, zlen_symbols, E2. cbn [mbind option_bind].
  change (4 + 18 * 1 + 18) with (4 + 18 * 2). rewrite eti_blocks_app, zlen_symbols, E3. cbn [mbind option_bind].
  change (4 + 18 * 2 + 18) with (4 + 18 * 3). rewrite E4. split_and!; [done|..].
  - replace (4 * (f + 1)) with (4 * f + (3 + 1)) by lia. done.
  - by rewrite W4, <- !app_assoc.
  - destruct (f <? 4); [by inversion F1; inversion F2; inversion F3; inversion F4|].
    rewrite Z.add_0_r in F1. exact (Forall2_app F1 (Forall2_app F2 (Forall2_app F3 F4))).
Qed.

Fixpoint eti_record (n : nat) (s : EtiGenerator) : option EtiGenerator :=
  match n with
  | O => Some s
  | S n => s ← eti_record n s; eti_blocks (fics (Z.of_nat n)) (dab_frame ficSymbols msc (Z.of_nat n)) 1 s
  end.

Lemma record_spec n s0 :
  eti_sizes s0 ->
  exists s frames, eti_record n (fst (start_eti_generator true s0)) = Some s /\ etiFile s = Some frames /\
    eti_at cifs (mpFibDecoder (fics 0)) (4 * Z.of_nat n) s /\ Forall2 record_of (seqZ 16 (4 * Z.of_nat n - 16)) frames.
Proof.
  intros Hs. induction n as [|n (s & frames & E & Hw & Hat & Hf)].
  - exists (fst (start_eti_generator true s0)), []. split_and!; [done..| |constructor]. destruct Hs. split; [by split|done|done|lia|].
    split; [done|]. intros e p _ Hp. unfold start_eti_generator, eti_reset in Hp. cbn [fst protTable set_run] in Hp. rewrite nth_lookup in Hp.
    destruct (replicate 64 (@None Protection) !! Z.to_nat (s1_SubChId e)) eqn:El; [apply lookup_replicate in El as [-> _]|]; done.
  - cbn [eti_record]. rewrite E. cbn [mbind option_bind]. set (f := Z.of_nat n) in *.
    assert (forall g, 0 <= g -> sub_channels (mpFibDecoder (fics g)) = subs) as Hsame by (intros g Hg; by destruct (Hrec g Hg)).
    destruct (frame_step f s frames ltac:(lia) Hw) as (s' & vs & E' & Hat' & Hw' & Hf').
    { apply (eti_at_same _ (mpFibDecoder (fics 0))); [|done]. rewrite !Hsame by lia. done. }
    exists s', (frames ++ vs). split_and!; [done..| |].
    + replace (Z.of_nat (S n)) with (f + 1) by lia. apply (eti_at_same _ (mpFibDecoder (fics f))); [|done]. rewrite !Hsame by lia. done.
    + destruct (Z.ltb_spec f 4) as [Hlt|Hge].
      * rewrite seqZ_nil in Hf |- * by lia. inversion Hf. inversion Hf'. constructor.
      * replace (4 * Z.of_nat (S n) - 16) with (4 * f - 16 + 4) by lia. rewrite seqZ_app by lia. apply Forall2_app; [done|].
        replace (16 + (4 * f - 16)) with (4 * f) by lia. rewrite !seqZ_cons, seqZ_nil by lia. by rewrite <- !Z.add_1_r, <- !Z.add_assoc.
Qed.
End recording.

(** ** Limits of the code *)
(** From the fifth DAB frame on every fourth import of the FIC starts at index 15,
    and writes the elements 16, 17 and 18 of [fibValid], which has sixteen. *)
Lemma fibValid_overrun cifs fib f s : 4 <= f -> f mod 4 = 0 -> eti_at cifs fib (4 * f) s -> map (fun i => index_Out s + i) [0; 1; 2; 3] = [15; 16; 17; 18].
Proof.
  intros Hf Hm [_ -> _ _ _]. unfold place. destruct (Z.ltb_spec (4 * f) 16); [lia|].
  replace ((4 * f - 1) mod 16) with 15 by (Z.to_euclidean_division_equations; lia). reflexivity.
Qed.

(** CIF 16 is assembled with a bit of CIF 15 where one of CIF 0 belongs: the end of
    CIF 15 returns before [index_Out] moves on, so CIF 16 takes its place. *)
Lemma first_frame_mixed cifs fib s t1 rows1 t2 rows2 :
  eti_at cifs fib 15 s ->
  zfor 0 cCifBits (eti_deinterleave (place 15) (cifs 15)) (temp s, cifVector s) = (t1, rows1) ->
  zfor 0 cCifBits (eti_deinterleave (place 16) (cifs 16)) (t1, rows1) = (t2, rows2) ->
  rd t2 0 = rd (cifs 15) 0 /\ rd (assembled cifs cCifBits 16) 0 = rd (cifs 0) 0.
Proof.
  intros [[_ Hwf Htl _ _] _ _ _ _]. change (place 15) with 15. change (place 16) with 15. rewrite !deinterleave_same by lia. intros E1 E2. split.
  - pose proof (deinterleave_loop cCifBits 15 (cifs 15) (temp s) (cifVector s) ltac:(done) Hwf Htl ltac:(lia)) as H. rewrite E1 in H. destruct H as (L1 & W1 & _ & H1).
    pose proof (deinterleave_loop cCifBits 15 (cifs 16) t1 rows1 ltac:(done) W1 L1 ltac:(lia)) as H. rewrite E2 in H. destruct H as (_ & _ & H2 & _).
    clear E1 E2. assert (0 <= 0 < cCifBits) as H0 by (unfold cCifBits; lia). rewrite H2 by exact H0. change ((15 + rd interleaveMap (0 mod 16)) mod 16) with 15. rewrite H1 by (unfold cCifBits; lia). reflexivity.
  - clear E1 E2. unfold assembled. rewrite rd_map_seqZ by (unfold cCifBits; lia). reflexivity.
Qed.


(** A FIB with a CIF count and a sub-channel. *)
Definition recorded_fib : list Z :=
  msb 3 0 ++ msb 5 5 ++ msb 3 0 ++ msb 5 0 ++ msb 16 0x10F2 ++ msb 2 0 ++ msb 1 0 ++ msb 5 3 ++ msb 8 17 ++ sample_fib (LongForm 5 0 0 2 48).
Definition recorded_state : FibDecoder := default FibDecoder_new (process_FIB no_qt 7 recorded_fib FibDecoder_new).
Definition blank_generator : EtiGenerator :=
  mkEti None false 0 (-1) (-1) (-1) 0 [] (zeros cCifBits) (replicate 16 (zeros cCifBits)) (replicate 16 (zeros 96)) (replicate 16 false) (zeros cCifBits)
    (replicate 64 None) (replicate 64 []) (zeros 6144).

