(* ===== verification/Mp2Decoder.v ===== *)
(** * MPEG layer II decoder (src/src/base/backend/audio/mp2processor.cpp)

    From the bytes of a frame to samples: bit reader, header, bit allocation,
    scale factors, requantization and synthesis filter, all in fixed point.

    Products and sums are taken at 32 bits, as the code does, and stored in [V] at
    16.  A two-dimensional member is a list of two rows, one for a channel; the
    three parts of a scale factor, and the three samples of a subband, are next
    to each other in the row, [3 * sb] on.  [None] is a read behind the vector
    that holds the frame. *)
From S2P Require Import Prelude Checked Mp2Tables.
Open Scope Z_scope.

(** ** [_get_bits] *)
Record Mp2Reader := mkReader { bit_window : Z; bits_in_window : Z; frame_pos : Z }.

Fixpoint refill (fuel : nat) (iFrame : list Z) (r : Mp2Reader) : option Mp2Reader :=
  if bits_in_window r <? 16 then
    match fuel with
    | O => None
    | S fuel =>
        byte ← get iFrame (frame_pos r);
        refill fuel iFrame (mkReader (Z.lor (bit_window r) (i32 (Z.shiftl byte (16 - bits_in_window r)))) (bits_in_window r + 8) (frame_pos r + 1))
    end
  else Some r.

Definition mp2_get_bits (iFrame : list Z) (iBitCount : Z) (r : Mp2Reader) : option (Z * Mp2Reader) :=
  let result := Z.shiftr (bit_window r) (24 - iBitCount) in
  r ← refill 3 iFrame (mkReader (Z.land (i32 (Z.shiftl (bit_window r) iBitCount)) 0xFFFFFF) (bits_in_window r - iBitCount) (frame_pos r));
  Some (result, r).

(** ** State *)
Inductive mp2_event :=
  | signal_show_frameErrors (n : Z)
  | signal_is_stereo (b : bool)
  | signal_new_mp2_frame
  | signal_new_audio (size rate : Z).

(** An [allocation] of 0 is the null pointer, of [k + 1] the entry [k] of the
    quantizer table. *)
Record Mp2Decoder := mkMp2Decoder {
  V : list (list Z);
  Voffs : Z;
  allocation : list (list Z);
  scfsi : list (list Z);
  scalefactor : list (list Z);
  sample : list (list Z);
  numberofFrames : Z;
  errorFrames : Z
}.

Definition Mp2Decoder_new : Mp2Decoder :=
  mkMp2Decoder (replicate 2 (zeros 1024)) 0 (replicate 2 (zeros 32)) (replicate 2 (zeros 32)) (replicate 2 (zeros 96)) (replicate 2 (zeros 96)) 0 0.

Definition get_mp2_sample_rate (iFrame : list Z) : option Z :=
  if zlen iFrame =? 0 then Some 0
  else
    b0 ← get iFrame 0;
    if negb (b0 =? 0xFF) then Some 0
    else
      b1 ← get iFrame 1;
      if negb (Z.land b1 0xF6 =? 0xF4) then Some 0
      else
        b2 ← get iFrame 2;
        if 0xE0 <=? b2 - 0x10 then Some 0
        else Some (rd sample_rates (Z.lxor (Z.shiftr (Z.land b1 0x08) 1) 4 + Z.land (Z.shiftr b2 2) 3)).

(** ** Allocation and scale factors *)
Definition read_allocation (iFrame : list Z) (sb b2_table : Z) (r : Mp2Reader) : option (Z * Mp2Reader) :=
  let table_idx := rd2 quant_lut_step3 b2_table sb in
  '(v, r) ← mp2_get_bits iFrame (Z.shiftr table_idx 4) r;
  Some (rd2 quant_lut_step4 (Z.land table_idx 15) v, r).

Definition read_allocations (iFrame : list Z) (bound sblimit b2_table : Z) (st : list (list Z) * Mp2Reader) : option (list (list Z) * Mp2Reader) :=
  st ← zforM 0 bound (fun sb st => zforM 0 2 (fun ch '(al, r) =>
         '(a, r) ← read_allocation iFrame sb b2_table r; Some (wr2 al ch sb a, r)) st) st;
  zforM bound sblimit (fun sb '(al, r) =>
    '(a, r) ← read_allocation iFrame sb b2_table r; Some (wr2 (wr2 al 1 sb a) 0 sb a, r)) st.

Definition read_scfsi (iFrame : list Z) (allocation : list (list Z)) (nch sblimit : Z) (st : list (list Z) * Mp2Reader) : option (list (list Z) * Mp2Reader) :=
  zforM 0 sblimit (fun sb st =>
    '(si, r) ← zforM 0 nch (fun ch '(si, r) =>
       if rd2 allocation ch sb =? 0 then Some (si, r)
       else '(v, r) ← mp2_get_bits iFrame 2 r; Some (wr2 si ch sb v, r)) st;
    Some (if nch =? 1 then wr2 si 1 sb (rd2 si 0 sb) else si, r)) st.

Definition wr3 (row : list (list Z)) (ch sb a b c : Z) : list (list Z) :=
  wr2 (wr2 (wr2 row ch (3 * sb) a) ch (3 * sb + 1) b) ch (3 * sb + 2) c.

(** The scale factors of the three parts of a frame. *)
Definition read_scalefactor (iFrame : list Z) (scfsi ch sb : Z) (st : list (list Z) * Mp2Reader) : option (list (list Z) * Mp2Reader) :=
  let '(sf, r) := st in
  '(a, r) ← mp2_get_bits iFrame 6 r;
  if scfsi =? 0 then
    '(b, r) ← mp2_get_bits iFrame 6 r;
    '(c, r) ← mp2_get_bits iFrame 6 r;
    Some (wr3 sf ch sb a b c, r)
  else if scfsi =? 1 then '(c, r) ← mp2_get_bits iFrame 6 r; Some (wr3 sf ch sb a a c, r)
  else if scfsi =? 2 then Some (wr3 sf ch sb a a a, r)
  else '(c, r) ← mp2_get_bits iFrame 6 r; Some (wr3 sf ch sb a c c, r).

Definition read_scalefactors (iFrame : list Z) (allocation scfsi : list (list Z)) (nch sblimit : Z) (st : list (list Z) * Mp2Reader) : option (list (list Z) * Mp2Reader) :=
  zforM 0 sblimit (fun sb st =>
    '(sf, r) ← zforM 0 nch (fun ch st =>
       if rd2 allocation ch sb =? 0 then Some st else read_scalefactor iFrame (rd2 scfsi ch sb) ch sb st) st;
    Some (if nch =? 1 then wr3 sf 1 sb (rd2 sf 0 (3 * sb)) (rd2 sf 0 (3 * sb + 1)) (rd2 sf 0 (3 * sb + 2)) else sf, r)) st.

(** ** Samples *)
(** The scale factor in 25 bits; 63 is not allowed and silences. *)
Definition resolve_scalefactor (iScalefactor : Z) : Z :=
  if iScalefactor =? 63 then 0
  else
    let adj := Z.quot iScalefactor 3 in
    Z.shiftr (i32 (rd scf_base (Z.rem iScalefactor 3) + Z.shiftr (i32 (Z.shiftl 1 adj)) 1)) adj.

Definition read_codes (iFrame : list Z) (q : SQuantizerSpec) (r : Mp2Reader) : option (list Z * Mp2Reader) :=
  if grouping q then
    '(val, r) ← mp2_get_bits iFrame (cw_bits q) r;
    let s0 := Z.rem val (nlevels q) in
    let val := Z.quot val (nlevels q) in
    Some ([s0; Z.rem val (nlevels q); Z.quot val (nlevels q)], r)
  else
    '(a, r) ← mp2_get_bits iFrame (cw_bits q) r;
    '(b, r) ← mp2_get_bits iFrame (cw_bits q) r;
    '(c, r) ← mp2_get_bits iFrame (cw_bits q) r;
    Some ([a; b; c], r).

Definition requantize (nlevels scf s : Z) : Z :=
  let scale := Z.quot 65536 (nlevels + 1) in
  let adj := Z.shiftr (nlevels + 1) 1 - 1 in
  let val := i32 ((adj - s) * scale) in
  Z.shiftr (i32 (i32 (val * Z.shiftr scf 12) + Z.shiftr (i32 (i32 (val * Z.land scf 4095) + 2048)) 12)) 12.

Definition read_samples (iFrame : list Z) (alloc iScalefactor : Z) (r : Mp2Reader) : option (list Z * Mp2Reader) :=
  if alloc =? 0 then Some ([0; 0; 0], r)
  else
    let q := nth (Z.to_nat (alloc - 1)) quantizer_table (mkSpec 0 false 0) in
    '(codes, r) ← read_codes iFrame q r;
    Some (map (requantize (nlevels q) (resolve_scalefactor iScalefactor)) codes, r).

(** The samples of a granule, all subbands. *)
Definition put_samples (row : list (list Z)) (ch sb : Z) (s : list Z) : list (list Z) := wr3 row ch sb (rd s 0) (rd s 1) (rd s 2).

Definition read_granule (iFrame : list Z) (d : Mp2Decoder) (bound sblimit part : Z) (st : list (list Z) * Mp2Reader) : option (list (list Z) * Mp2Reader) :=
  st ← zforM 0 bound (fun sb st => zforM 0 2 (fun ch '(sm, r) =>
         '(s, r) ← read_samples iFrame (rd2 (allocation d) ch sb) (rd2 (scalefactor d) ch (3 * sb + part)) r;
         Some (put_samples sm ch sb s, r)) st) st;
  '(sm, r) ← zforM bound sblimit (fun sb '(sm, r) =>
         '(s, r) ← read_samples iFrame (rd2 (allocation d) 0 sb) (rd2 (scalefactor d) 0 (3 * sb + part)) r;
         Some (put_samples (put_samples sm 0 sb s) 1 sb s, r)) st;
  Some (zfor 0 2 (fun ch sm => zfor sblimit 32 (fun sb sm => put_samples sm ch sb [0; 0; 0]) sm) sm, r).

(** ** The synthesis filter *)
Definition matrixing (s : list Z) (idx i : Z) : Z :=
  let sum := zfor 0 32 (fun j sum => i32 (sum + i32 (N i j * rd s (3 * j + idx)))) 0 in
  i16 (Z.shiftr (i32 (sum + 8192)) 14).

Definition fill_V (s : list Z) (idx offs : Z) (v : list Z) : list Z :=
  zfor 0 64 (fun i v => wr v (offs + i) (matrixing s idx i)) v.

Definition build_U (v : list Z) (offs : Z) (U : list Z) : list Z :=
  zfor 0 8 (fun i U => zfor 0 32 (fun j U =>
    wr (wr U (Z.shiftl i 6 + j) (rd v (Z.land (offs + Z.shiftl i 7 + j) 1023)))
      (Z.shiftl i 6 + j + 32) (rd v (Z.land (offs + Z.shiftl i 7 + j + 96) 1023))) U) U.

Definition window_U (U : list Z) : list Z :=
  zfor 0 512 (fun i U => wr U i (Z.shiftr (i32 (i32 (rd U i * rd D i) + 32)) 6)) U.

Definition output_sample (U : list Z) (j : Z) : Z :=
  let sum := zfor 0 16 (fun i sum => i32 (sum - rd U (Z.shiftl i 5 + j))) 0 in
  let sum := Z.shiftr (i32 (sum + 8)) 4 in
  let sum := if sum <? -32768 then -32768 else sum in
  let sum := if 32767 <? sum then 32767 else sum in
  i16 (u16 sum).

(** A block of 32 samples of a channel; [pcm] is written from [base] on. *)
Definition synthesis_channel (idx base ch : Z) (d : Mp2Decoder) (pcm : list Z) : Mp2Decoder * list Z :=
  let v := fill_V (nth (Z.to_nat ch) (sample d) []) idx (Voffs d) (nth (Z.to_nat ch) (V d) []) in
  let U := window_U (build_U v (Voffs d) (zeros 512)) in
  (mkMp2Decoder (wr (V d) ch v) (Voffs d) (allocation d) (scfsi d) (scalefactor d) (sample d) (numberofFrames d) (errorFrames d),
   zfor 0 32 (fun j pcm => wr pcm (base + Z.lor (Z.lor (Z.shiftl idx 6) (Z.shiftl j 1)) ch) (output_sample U j)) pcm).

Definition shift_V (d : Mp2Decoder) : Mp2Decoder :=
  mkMp2Decoder (V d) (Z.land (Voffs d - 64) 1023) (allocation d) (scfsi d) (scalefactor d) (sample d) (numberofFrames d) (errorFrames d).

Definition synthesis (base : Z) (st : Mp2Decoder * list Z) : Mp2Decoder * list Z :=
  zfor 0 3 (fun idx '(d, pcm) => zfor 0 2 (fun ch '(d, pcm) => synthesis_channel idx base ch d pcm) (shift_V d, pcm)) st.

(** ** [_mp2_decode_frame] *)
Definition set_side (al si sf : list (list Z)) (d : Mp2Decoder) : Mp2Decoder :=
  mkMp2Decoder (V d) (Voffs d) al si sf (sample d) (numberofFrames d) (errorFrames d).
Definition set_sample (sm : list (list Z)) (d : Mp2Decoder) : Mp2Decoder :=
  mkMp2Decoder (V d) (Voffs d) (allocation d) (scfsi d) (scalefactor d) sm (numberofFrames d) (errorFrames d).
Definition set_counts (frames errors : Z) (d : Mp2Decoder) : Mp2Decoder :=
  mkMp2Decoder (V d) (Voffs d) (allocation d) (scfsi d) (scalefactor d) (sample d) frames errors.

Definition STEREO : Z := 0.
Definition JOINT_STEREO : Z := 1.
Definition MONO : Z := 3.

Definition count_frame (d : Mp2Decoder) : Mp2Decoder * list mp2_event :=
  let n := i16 (numberofFrames d + 1) in
  if 25 <=? n then (set_counts 0 0 d, [signal_show_frameErrors (errorFrames d)]) else (set_counts n (errorFrames d) d, []).

(** The header: indices into the tables of rates, padding, mode and bound.  [None]
    inside is a frame that is not decoded. *)
Record Mp2Header := mkHeader { h_bit_rate_index : Z; h_sampling_frequency : Z; h_padding_bit : Z; h_mode : Z; h_bound : Z }.

Definition read_header (iFrame : list Z) (b1 b2 : Z) : option (option (Mp2Header * Mp2Reader)) :=
  '(v, r) ← mp2_get_bits iFrame 4 (mkReader (Z.shiftl b2 16) 8 3);
  let bit_rate_index_minus1 := u32 (v - 1) in
  if 13 <? bit_rate_index_minus1 then Some None
  else
    '(sampling_frequency, r) ← mp2_get_bits iFrame 2 r;
    if sampling_frequency =? 3 then Some None
    else
      let mpeg2 := Z.land b1 0x08 =? 0 in
      '(padding_bit, r) ← mp2_get_bits iFrame 1 r;
      '(_, r) ← mp2_get_bits iFrame 1 r;
      '(mode, r) ← mp2_get_bits iFrame 2 r;
      '(ext, r) ← mp2_get_bits iFrame 2 r;
      let bound := if mode =? JOINT_STEREO then Z.shiftl (ext + 1) 2 else if mode =? MONO then 0 else 32 in
      '(_, r) ← mp2_get_bits iFrame 4 r;
      '(_, r) ← (if Z.land b1 1 =? 0 then mp2_get_bits iFrame 16 r else Some (0, r));
      Some (Some (mkHeader (if mpeg2 then bit_rate_index_minus1 + 14 else bit_rate_index_minus1)
                    (if mpeg2 then sampling_frequency + 4 else sampling_frequency) padding_bit mode bound, r)).

Definition mp2_frame_size (h : Mp2Header) : Z :=
  Z.quot (144000 * rd bitrates (h_bit_rate_index h)) (rd sample_rates (h_sampling_frequency h)) + h_padding_bit h.

(** The quantizer table and the number of subbands. *)
Definition quantizer_lookup (h : Mp2Header) : Z * Z :=
  if negb (Z.land (h_sampling_frequency h) 4 =? 0) then (2, 30)
  else
    let table_idx := rd2 quant_lut_step1 (if h_mode h =? MONO then 0 else 1) (h_bit_rate_index h) in
    let table_idx := rd2 quant_lut_step2 table_idx (h_sampling_frequency h) in
    (Z.shiftr table_idx 6, Z.land table_idx 63).

Definition granule (iFrame : list Z) (bound sblimit part gr : Z) (st : Mp2Decoder * list Z * Mp2Reader) : option (Mp2Decoder * list Z * Mp2Reader) :=
  let '(d, pcm, r) := st in
  '(sm, r) ← read_granule iFrame d bound sblimit part (sample d, r);
  let '(d, pcm) := synthesis (192 * (4 * part + gr)) (set_sample sm d, pcm) in
  Some (d, pcm, r).

Definition decode_audio (iFrame : list Z) (h : Mp2Header) (d : Mp2Decoder) (pcm : list Z) (r : Mp2Reader) : option (Mp2Decoder * list Z) :=
  let '(table_idx, sblimit) := quantizer_lookup h in
  let bound := if sblimit <? h_bound h then sblimit else h_bound h in
  let nch := if h_mode h =? MONO then 1 else 2 in
  '(al, r) ← read_allocations iFrame bound sblimit table_idx (allocation d, r);
  '(si, r) ← read_scfsi iFrame al nch sblimit (scfsi d, r);
  '(sf, r) ← read_scalefactors iFrame al si nch sblimit (scalefactor d, r);
  '(d, pcm, _) ← zforM 0 3 (fun part st => zforM 0 4 (fun gr st => granule iFrame bound sblimit part gr st) st) (set_side al si sf d, pcm, r);
  Some (d, pcm).

(** The result is the frame size, 0 for a frame that is no good; without a place
    for the samples only that is computed. *)
Definition mp2_decode_frame (iFrame : list Z) (opPcm : option (list Z)) (d : Mp2Decoder)
  : option (Mp2Decoder * Z * list Z * list mp2_event) :=
  let '(d, events) := count_frame d in
  let pcm := default [] opPcm in
  b0 ← get iFrame 0; b1 ← get iFrame 1; b2 ← get iFrame 2;
  if negb (b0 =? 0xFF) || negb (Z.land b1 0xF6 =? 0xF4) || (0xE0 <=? b2 - 0x10)
  then Some (set_counts (numberofFrames d) (i16 (errorFrames d + 1)) d, 0, pcm, events)
  else
    h ← read_header iFrame b1 b2;
    match h with
    | None => Some (d, 0, pcm, events)
    | Some (h, r) =>
        let events := events ++ [signal_is_stereo ((h_mode h =? JOINT_STEREO) || (h_mode h =? STEREO))] in
        match opPcm with
        | None => Some (d, mp2_frame_size h, [], events)
        | Some pcm => '(d, pcm) ← decode_audio iFrame h d pcm r; Some (d, mp2_frame_size h, pcm, events)
        end
    end.
