(* ===== verification/Mp2Standard.v ===== *)
(** * MPEG audio layer II, as the standard has it

    The tables and formulas of ISO/IEC 11172-3 and 13818-3 that the reference
    decoder of [Mp2Synthesis] and [Mp2Frames] is built from, written down without
    the tables and the arithmetic of the code: rates, bit allocation, scale
    factors, requantization, matrix and window.  The lemmas at the end compare
    them with what the code has. *)
From S2P Require Import Prelude Mp2Tables Mp2Decoder.
Open Scope Z_scope.

(** ** Rates *)
Definition layer2_rates (mpeg2 : bool) : list Z :=
  if mpeg2 then [8; 16; 24; 32; 40; 48; 56; 64; 80; 96; 112; 128; 144; 160] else [32; 48; 56; 64; 80; 96; 112; 128; 160; 192; 224; 256; 320; 384].
Definition layer2_frequencies (mpeg2 : bool) : list Z := if mpeg2 then [22050; 24000; 16000] else [44100; 48000; 32000].

(** A frame has 1152 samples. *)
Definition layer2_bytes (mpeg2 : bool) (rate freq padding : Z) : Z :=
  1152 / 8 * 1000 * rd (layer2_rates mpeg2) (rate - 1) / rd (layer2_frequencies mpeg2) freq + padding.

(** ** Bit allocation
    The tables B.2a to B.2d, and the one for the low sampling frequencies. *)
Inductive alloc_table := table_a | table_b | table_c | table_d | table_low.

Definition table_for (mpeg2 : bool) (rate freq channels : Z) : alloc_table :=
  let per_channel := rd (layer2_rates mpeg2) (rate - 1) / channels in
  if mpeg2 then table_low
  else if per_channel <=? 48 then (if freq =? 2 then table_d else table_c)
  else if (per_channel <=? 80) || (freq =? 1) then table_a
  else table_b.

Definition subbands (t : alloc_table) : Z :=
  match t with table_a => 27 | table_b => 30 | table_c => 8 | table_d => 12 | table_low => 30 end.

(** The numbers of levels that the codes 1, 2, ... of a subband stand for. *)
Definition levels_row (t : alloc_table) (sb : Z) : list Z :=
  match t with
  | table_a | table_b =>
      if sb <? 3 then [3; 7; 15; 31; 63; 127; 255; 511; 1023; 2047; 4095; 8191; 16383; 32767; 65535]
      else if sb <? 11 then [3; 5; 7; 9; 15; 31; 63; 127; 255; 511; 1023; 2047; 4095; 8191; 65535]
      else if sb <? 23 then [3; 5; 7; 9; 15; 31; 65535]
      else [3; 5; 65535]
  | table_c | table_d =>
      if sb <? 2 then [3; 5; 9; 15; 31; 63; 127; 255; 511; 1023; 2047; 4095; 8191; 16383; 32767]
      else [3; 5; 9; 15; 31; 63; 127]
  | table_low =>
      if sb <? 4 then [3; 5; 7; 9; 15; 31; 63; 127; 255; 511; 1023; 2047; 4095; 8191; 16383]
      else if sb <? 11 then [3; 5; 9; 15; 31; 63; 127]
      else [3; 5; 9]
  end.
Definition alloc_bits (t : alloc_table) (sb : Z) : Z := Z.log2 (zlen (levels_row t sb) + 1).
Definition alloc_levels (t : alloc_table) (sb a : Z) : Z := rd (0 :: levels_row t sb) a.

(** Three samples of 3, 5 or 9 levels share a code word. *)
Definition quantizer_of (levels : Z) : SQuantizerSpec :=
  if levels =? 3 then mkSpec 3 true 5 else if levels =? 5 then mkSpec 5 true 7 else if levels =? 9 then mkSpec 9 true 10
  else mkSpec levels false (Z.log2 (levels + 1)).

(** ** Samples *)
(** The greatest [x] below [2 ^ n] with a cube of at most [v]. *)
Fixpoint cube_root (n : nat) (v x : Z) : Z :=
  match n with
  | O => x
  | S n => let y := x + 2 ^ Z.of_nat n in cube_root n v (if y * y * y <=? v then y else x)
  end.

(** [2 ^ (25 - k / 3)], rounded, is the factor of index [k] in a fraction of 25
    bits: that of [k mod 3], halved and rounded again.  The index 63 is not used. *)
Definition scale_factor (k : Z) : Z :=
  if k =? 63 then 0
  else let base := (cube_root 28 (2 ^ (78 - k mod 3)) 0 + 1) / 2 in (base + 2 ^ (k / 3) / 2) / 2 ^ (k / 3).

(** The middle of the levels is 0, the rest is the fraction in 16 bits, times
    the factor, rounded. *)
Definition dequantized (levels k c : Z) : Z := (((levels + 1) / 2 - 1 - c) * (65536 / (levels + 1)) * scale_factor k + 2048) / 16777216.

(** ** Matrix and window *)
(** [cos (k * pi / 64)] in a fraction of 40 bits, by its series. *)
Definition pi40 : Z := 3454217652358.
Fixpoint cos_terms (n : nat) (i t x2 acc : Z) : Z :=
  match n with
  | O => acc
  | S n => cos_terms n (i + 2) (- (t * x2) / ((i + 1) * (i + 2) * 2 ^ 40)) x2 (acc + t)
  end.
Definition cos40 (k : Z) : Z := let x := pi40 * (k mod 128) / 64 in cos_terms 24 0 (2 ^ 40) (x * x / 2 ^ 40) 0.

(** ... times 256, without the places behind the point; what the series misses is
    less than [2 ^ 20] units. *)
Definition cosine (i j : Z) : Z :=
  let c := 256 * cos40 ((16 + i) * (2 * j + 1)) in Z.sgn c * ((Z.abs c + 2 ^ 20) / 2 ^ 40).

(** The first half of the window, with 16 bits behind the point; the second half
    is the first one backwards with the other sign, rounded up as well. *)
Definition half_window : list Z :=
  [0; 0; 0; 0; 0; 0; 0; -1; -1; -1; -1; -2; -2; -3; -3; -4;
   -4; -5; -6; -6; -7; -8; -9; -10; -12; -13; -15; -16; -18; -20; -23; -25;
   -28; -30; -34; -37; -40; -44; -48; -52; -57; -62; -67; -72; -78; -84; -90; -96;
   -103; -110; -116; -124; -131; -138; -146; -153; -160; -168; -175; -182; -189; -195; -201; -207;
   213; 218; 222; 225; 227; 228; 228; 227; 224; 221; 215; 208; 200; 189; 177; 163;
   146; 127; 106; 83; 57; 29; -1; -35; -71; -110; -152; -196; -243; -293; -346; -400;
   -458; -518; -580; -644; -710; -778; -847; -918; -990; -1063; -1136; -1209; -1282; -1355; -1427; -1497;
   -1566; -1633; -1697; -1758; -1816; -1869; -1918; -1961; -2000; -2031; -2056; -2074; -2084; -2086; -2079; -2062;
   2037; 2000; 1952; 1893; 1822; 1739; 1644; 1535; 1414; 1280; 1131; 970; 794; 605; 402; 185;
   -44; -287; -544; -813; -1094; -1387; -1691; -2005; -2329; -2662; -3003; -3350; -3704; -4062; -4424; -4787;
   -5152; -5516; -5878; -6236; -6588; -6934; -7270; -7596; -7909; -8208; -8490; -8754; -8997; -9218; -9415; -9584;
   -9726; -9837; -9915; -9958; -9965; -9934; -9862; -9749; -9591; -9388; -9138; -8839; -8491; -8091; -7639; -7133;
   6574; 5959; 5288; 4561; 3776; 2935; 2037; 1082; 70; -997; -2121; -3299; -4532; -5817; -7153; -8539;
   -9974; -11454; -12979; -14547; -16154; -17798; -19477; -21188; -22928; -24693; -26481; -28288; -30111; -31946; -33790; -35639;
   -37488; -39335; -41175; -43005; -44820; -46616; -48389; -50136; -51852; -53533; -55177; -56777; -58332; -59837; -61288; -62683;
   -64018; -65289; -66493; -67628; -68691; -69678; -70589; -71419; -72168; -72834; -73414; -73907; -74312; -74629; -74855; -74991;
   75038].
Definition window (k : Z) : Z :=
  if k <=? 256 then rd half_window k else if k mod 64 =? 0 then rd half_window (512 - k) else 1 - rd half_window (512 - k).

(** ** The code has the same *)
Lemma range_check (P : Z -> bool) n i : forallb P (seqZ 0 n) = true -> 0 <= i < n -> P i = true.
Proof. intros H Hi. rewrite forallb_forall in H. apply H, in_seqZ. lia. Qed.

Lemma matrix_check : forallb (fun i => forallb (fun j => N i j =? cosine i j) (seqZ 0 32)) (seqZ 0 64) = true.
Proof. by vm_compute. Qed.

Lemma N_cosine i j : 0 <= i < 64 -> 0 <= j < 32 -> N i j = cosine i j.
Proof. intros Hi Hj. pose proof (range_check _ 32 j (range_check _ 64 i matrix_check Hi) Hj) as H. cbv beta in H. lia. Qed.

Lemma window_check : forallb (fun k => rd D k =? window k) (seqZ 0 512) = true.
Proof. by vm_compute. Qed.

Lemma D_window k : 0 <= k < 512 -> rd D k = window k.
Proof. intros Hk. pose proof (range_check _ 512 k window_check Hk) as H. cbv beta in H. lia. Qed.

Lemma scale_check : forallb (fun k => resolve_scalefactor k =? scale_factor k) (seqZ 0 64) = true.
Proof. by vm_compute. Qed.

Lemma resolve_scale k : 0 <= k < 64 -> resolve_scalefactor k = scale_factor k.
Proof. intros Hk. pose proof (range_check _ 64 k scale_check Hk) as H. cbv beta in H. lia. Qed.

(** The entry of the quantizer table for a number of levels, counted from 1. *)
Definition class_of (levels : Z) : Z :=
  if levels =? 0 then 0 else zfor 0 17 (fun i a => if nlevels (nth (Z.to_nat i) quantizer_table (mkSpec 0 false 0)) =? levels then i + 1 else a) 0.

Definition all_tables : list alloc_table := [table_a; table_b; table_c; table_d; table_low].
Lemma in_all_tables t : In t all_tables.
Proof. destruct t; cbn; tauto. Qed.

(** In the two tables for low bit rates the code has 65535 levels for the last
    code of the first two subbands. *)
Definition last_code (t : alloc_table) (sb a : Z) : bool := match t with table_c | table_d => (sb <? 2) && (a =? 15) | _ => false end.

Definition code_table (t : alloc_table) : Z := match t with table_a | table_b => 1 | table_c | table_d => 0 | table_low => 2 end.

Definition alloc_agrees (t : alloc_table) (sb a : Z) : bool :=
  let levels := alloc_levels t sb a in
  let q := nth (Z.to_nat (class_of levels - 1)) quantizer_table (mkSpec 0 false 0) in
  last_code t sb a ||
  ((rd2 quant_lut_step4 (Z.land (rd2 quant_lut_step3 (code_table t) sb) 15) a =? class_of levels) && (0 <=? class_of levels) && (class_of levels <=? 17) && Bool.eqb (class_of levels =? 0) (levels =? 0) &&
   ((levels =? 0) || ((nlevels q =? nlevels (quantizer_of levels)) && Bool.eqb (grouping q) (grouping (quantizer_of levels)) && (cw_bits q =? cw_bits (quantizer_of levels))))).

Lemma tables_check : forallb (fun t => forallb (fun sb =>
    (alloc_bits t sb =? Z.shiftr (rd2 quant_lut_step3 (code_table t) sb) 4) && forallb (alloc_agrees t sb) (seqZ 0 (2 ^ alloc_bits t sb)))
  (seqZ 0 (subbands t))) all_tables = true.
Proof. by vm_compute. Qed.

Lemma tables_agree t sb : 0 <= sb < subbands t ->
  Z.shiftr (rd2 quant_lut_step3 (code_table t) sb) 4 = alloc_bits t sb /\ forall a, 0 <= a < 2 ^ alloc_bits t sb -> alloc_agrees t sb a = true.
Proof.
  intros Hsb. pose proof tables_check as H. rewrite forallb_forall in H. specialize (H t (in_all_tables t)). pose proof (range_check _ _ sb H Hsb) as H1. cbv beta in H1.
  apply andb_true_iff in H1 as [H1 H2]. split; [lia|]. intros a Ha. by apply (range_check _ _ a H2).
Qed.

(** What a code of the bit allocation means to the decoder. *)
Lemma alloc_code t sb a : 0 <= sb < subbands t -> 0 <= a < 2 ^ alloc_bits t sb -> last_code t sb a = false ->
  rd2 quant_lut_step4 (Z.land (rd2 quant_lut_step3 (code_table t) sb) 15) a = class_of (alloc_levels t sb a) /\
  0 <= class_of (alloc_levels t sb a) <= 17 /\ (class_of (alloc_levels t sb a) =? 0) = (alloc_levels t sb a =? 0) /\
  (alloc_levels t sb a <> 0 -> nth (Z.to_nat (class_of (alloc_levels t sb a) - 1)) quantizer_table (mkSpec 0 false 0) = quantizer_of (alloc_levels t sb a)).
Proof.
  intros Hsb Ha Hl. destruct (tables_agree t sb Hsb) as [_ H]. specialize (H a Ha). unfold alloc_agrees in H. rewrite Hl in H. cbn [orb] in H.
  apply andb_true_iff in H as [H H3]. apply andb_true_iff in H as [H1 H2]. split; [lia|]. split; [lia|]. split; [by apply eqb_prop in H2|]. intros Hne.
  apply orb_true_iff in H3 as [H3|H3]; [lia|]. apply andb_true_iff in H3 as [H3 H5]. apply andb_true_iff in H3 as [H3 H4]. apply eqb_prop in H4.
  destruct (nth _ quantizer_table _) as [n g w], (quantizer_of _) as [n' g' w']. cbn in *. f_equal; [lia|done|lia].
Qed.

Lemma lookup_check : forallb (fun m2 : bool => forallb (fun rate => forallb (fun freq => forallb (fun mode =>
    let h := mkHeader (if m2 then rate - 1 + 14 else rate - 1) (if m2 then freq + 4 else freq) 0 mode 0 in
    let t := table_for m2 rate freq (if mode =? 3 then 1 else 2) in
    (fst (quantizer_lookup h) =? code_table t) && (snd (quantizer_lookup h) =? subbands t) && (mp2_frame_size h =? layer2_bytes m2 rate freq 0))
  (seqZ 0 4)) (seqZ 0 3)) (seqZ 1 14)) [true; false] = true.
Proof. by vm_compute. Qed.

Lemma alloc_bits_range t sb : 0 <= alloc_bits t sb <= 4.
Proof. unfold alloc_bits, levels_row. destruct t; repeat case_match; split; vm_compute; discriminate. Qed.

(** The decoder's choice of table, and the size of the frame. *)
Lemma lookup_table (m2 : bool) rate freq padding mode bound : 1 <= rate <= 14 -> 0 <= freq <= 2 -> 0 <= mode < 4 ->
  let h := mkHeader (if m2 then rate - 1 + 14 else rate - 1) (if m2 then freq + 4 else freq) padding mode bound in
  let t := table_for m2 rate freq (if mode =? 3 then 1 else 2) in
  quantizer_lookup h = (code_table t, subbands t) /\ mp2_frame_size h = layer2_bytes m2 rate freq padding.
Proof.
  intros Hr Hf Hm. pose proof lookup_check as H. rewrite forallb_forall in H. specialize (H m2 ltac:(destruct m2; cbn; tauto)). cbv beta in H.
  rewrite forallb_forall in H. specialize (H rate ltac:(apply in_seqZ; lia)). cbv beta in H. rewrite forallb_forall in H. specialize (H freq ltac:(apply in_seqZ; lia)). cbv beta in H.
  rewrite forallb_forall in H. specialize (H mode ltac:(apply in_seqZ; lia)). cbv beta zeta in H. apply andb_true_iff in H as [H H3]. apply andb_true_iff in H as [H1 H2]. cbv zeta.
  set (t := table_for _ _ _ _) in *. split; [|unfold mp2_frame_size, layer2_bytes in *; cbn [h_bit_rate_index h_sampling_frequency h_padding_bit] in *; lia].
  unfold quantizer_lookup in *. cbn [h_bit_rate_index h_sampling_frequency h_mode] in *. destruct (negb _); cbn [fst snd] in *; f_equal; lia.
Qed.

(** Without overflow the code's two products make the rounded one. *)
Lemma two_products val s : (val * (s / 4096) + (val * (s mod 4096) + 2048) / 4096) / 4096 = (val * s + 2048) / 16777216.
Proof.
  rewrite <- Z.div_add_l by lia. change 16777216 with (4096 * 4096). rewrite <- Z.div_div by lia. do 2 f_equal. pose proof (Z.div_mod s 4096 ltac:(lia)) as E. rewrite E at 3. ring.
Qed.
