(* ===== verification/Mp2Properties.v ===== *)
(** * Facts about the MPEG layer II decoder

    The bit reader returns the bits of the frame; the fixed-point arithmetic does
    not overflow where the code words are valid; the ring of the synthesis filter
    is the shift register of the standard; no read leaves a large enough frame. *)
From S2P Require Import Prelude BitExtractors BitFields Checked Mp2Tables Mp2Decoder.
Open Scope Z_scope.

(** ** The bit reader *)
(** [r] has passed on the first [p] bits of the frame. *)
Record reader_at (l : list Z) (p : Z) (r : Mp2Reader) : Prop := {
  ra_bits : 16 <= bits_in_window r < 24;
  ra_pos : 8 * frame_pos r = p + bits_in_window r;
  ra_window : bit_window r = field (unpack_bits l) p (bits_in_window r) * 2 ^ (24 - bits_in_window r)
}.

Lemma low_24 x : Z.land (i32 x) 0xFFFFFF = x mod 2 ^ 24.
Proof.
  change 0xFFFFFF with (Z.ones 24). rewrite Z.land_ones by lia. unfold swrap.
  change (2 ^ (32 - 1)) with (2 ^ 24 * 128). change (2 ^ 32) with (2 ^ 24 * 256).
  rewrite Z.rem_mul_r by lia. Z.to_euclidean_division_equations. lia.
Qed.

Section reader.
Context (l : list Z) (Hl : Forall is_byte l).

Lemma refill_ok fuel : forall p r,
  0 <= p -> 0 <= bits_in_window r < 24 -> 16 <= bits_in_window r + 8 * Z.of_nat fuel -> 8 * frame_pos r = p + bits_in_window r ->
  bit_window r = field (unpack_bits l) p (bits_in_window r) * 2 ^ (24 - bits_in_window r) -> p + 23 <= 8 * zlen l ->
  exists r', refill fuel l r = Some r' /\ reader_at l p r'.
Proof.
  induction fuel as [|fuel IH]; intros p [w b pos] Hp Hb Hf Hpos Hw Hin; cbn [bit_window bits_in_window frame_pos] in *; cbn [refill bits_in_window].
  - destruct (Z.ltb_spec b 16); [lia|]. eexists. split; [done|]. constructor; cbn [bit_window bits_in_window frame_pos]; [lia|done|done].
  - destruct (Z.ltb_spec b 16) as [H16|]; [|eexists; split; [done|constructor; cbn [bit_window bits_in_window frame_pos]; [lia|done|done]]].
    cbn [frame_pos bit_window bits_in_window]. rewrite get_Some by lia. cbn [mbind option_bind].
    assert (is_byte (rd l pos)) as Hbyte by (apply rd_Forall; [unfold is_byte; lia|done]). unfold is_byte in Hbyte.
    assert (2 ^ (16 - b) <= 2 ^ 16) as Hle by (apply Z.pow_le_mono_r; lia). assert (0 < 2 ^ (16 - b)) as Hp2 by (apply Z.pow_pos_nonneg; lia).
    apply IH; cbn [bit_window bits_in_window frame_pos]; try lia.
    rewrite Z.shiftl_mul_pow2, i32_small by (change (2 ^ 16) with 65536 in Hle; nia). rewrite Hw. replace (24 - b) with (8 + (16 - b)) by lia. replace (24 - (b + 8)) with (16 - b) by lia.
    rewrite Z.pow_add_r, Z.mul_assoc by lia. rewrite <- !(Z.shiftl_mul_pow2 _ (16 - b)), <- Z.shiftl_lor by lia. f_equal.
    rewrite lor_add_disjoint by lia. rewrite (field_split _ p b 8) by lia. replace (p + b) with (8 * pos) by lia.
    rewrite field_unpack_byte by (done || lia). done.
Qed.

(** From a window with enough bits. *)
Lemma get_bits_window n p r :
  0 <= p -> 0 <= n <= bits_in_window r -> bits_in_window r < 24 -> 8 * frame_pos r = p + bits_in_window r ->
  bit_window r = field (unpack_bits l) p (bits_in_window r) * 2 ^ (24 - bits_in_window r) -> p + n + 23 <= 8 * zlen l ->
  exists r', mp2_get_bits l n r = Some (field (unpack_bits l) p n, r') /\ reader_at l (p + n) r'.
Proof.
  destruct r as [w b pos]. cbn [bit_window bits_in_window frame_pos]. intros Hp Hn Hb Hpos Hw Hin. unfold mp2_get_bits. cbn [bit_window bits_in_window frame_pos].
  assert (field (unpack_bits l) p b = field (unpack_bits l) p n * 2 ^ (b - n) + field (unpack_bits l) (p + n) (b - n)) as Ef
    by (rewrite <- field_split by lia; f_equal; lia).
  pose proof (field_range (unpack_bits l) (p + n) (b - n) ltac:(lia) (unpack_bits_bit l)) as Hlow.
  pose proof (field_range (unpack_bits l) p n ltac:(lia) (unpack_bits_bit l)) as Hhigh.
  assert (0 < 2 ^ (24 - b)) as H2 by (apply Z.pow_pos_nonneg; lia). assert (2 ^ (24 - n) = 2 ^ (b - n) * 2 ^ (24 - b)) as E2 by (rewrite <- Z.pow_add_r by lia; f_equal; lia).
  assert (Z.shiftr w (24 - n) = field (unpack_bits l) p n) as ->.
  { rewrite Z.shiftr_div_pow2, Hw, Ef by lia. symmetry. apply Z.div_unique_pos with (r := field (unpack_bits l) (p + n) (b - n) * 2 ^ (24 - b)); nia. }
  rewrite low_24, Z.shiftl_mul_pow2 by lia.
  assert ((w * 2 ^ n) mod 2 ^ 24 = field (unpack_bits l) (p + n) (b - n) * 2 ^ (24 - (b - n))) as ->.
  { assert (2 ^ (24 - (b - n)) = 2 ^ (24 - b) * 2 ^ n) as E3 by (rewrite <- Z.pow_add_r by lia; f_equal; lia).
    assert (2 ^ 24 = 2 ^ (b - n) * 2 ^ (24 - b) * 2 ^ n) as E4 by (rewrite <- !Z.pow_add_r by lia; f_equal; lia).
    assert (0 < 2 ^ n) as Hn2 by (apply Z.pow_pos_nonneg; lia). symmetry.
    apply Z.mod_unique_pos with (q := field (unpack_bits l) p n); [rewrite E3, E4; split; nia|]. rewrite Hw, Ef, E3, E4. ring. }
  destruct (refill_ok 3 (p + n) (mkReader (field (unpack_bits l) (p + n) (b - n) * 2 ^ (24 - (b - n))) (b - n) pos)) as (r' & -> & Hr'); cbn [bit_window bits_in_window frame_pos]; try (done || lia).
  cbn [mbind option_bind]. by exists r'.
Qed.

Lemma get_bits_ok n p r :
  0 <= p -> 0 <= n <= 16 -> reader_at l p r -> p + n + 23 <= 8 * zlen l ->
  exists r', mp2_get_bits l n r = Some (field (unpack_bits l) p n, r') /\ reader_at l (p + n) r'.
Proof. intros Hp Hn [Hb Hpos Hw] Hin. apply get_bits_window; try done; lia. Qed.

(** The start of the reader: the third byte is in the window. *)
Lemma get_bits_first n :
  0 <= n <= 8 -> 16 + n + 23 <= 8 * zlen l ->
  exists r', mp2_get_bits l n (mkReader (Z.shiftl (rd l 2) 16) 8 3) = Some (field (unpack_bits l) 16 n, r') /\ reader_at l (16 + n) r'.
Proof.
  intros Hn Hin. apply get_bits_window; cbn [bit_window bits_in_window frame_pos]; try lia.
  rewrite Z.shiftl_mul_pow2 by lia. change 16 with (8 * 2) at 2. by rewrite field_unpack_byte by (done || lia).
Qed.
End reader.

(** ** Reading with a budget
    [m] returns, from a reader that has passed on [p] bits, after at most [n] more
    with a result in [Q], if the frame has them. *)
Definition ok_read {A} (l : list Z) (p n : Z) (Q : A -> Prop) (m : option (A * Mp2Reader)) : Prop :=
  p + n + 23 <= 8 * zlen l -> exists a r' p', m = Some (a, r') /\ reader_at l p' r' /\ p <= p' <= p + n /\ Q a.

Lemma ok_bind {A B} l p n1 n2 Q1 Q2 m (f : A * Mp2Reader -> option (B * Mp2Reader)) :
  0 <= n2 -> ok_read l p n1 Q1 m ->
  (forall a r' p', p <= p' -> reader_at l p' r' -> Q1 a -> ok_read l p' n2 Q2 (f (a, r'))) -> ok_read l p (n1 + n2) Q2 (m ≫= f).
Proof.
  intros Hn H1 H2 Hin. destruct (H1 ltac:(lia)) as (a & r' & p' & -> & Hr & Hp & Ha). destruct (H2 a r' p' ltac:(lia) Hr Ha ltac:(lia)) as (b & r2 & p2 & E & Hr2 & Hp2 & Hb).
  exists b, r2, p2. split_and!; [exact E|done|lia|lia|done].
Qed.

Lemma ok_ret {A} l p (Q : A -> Prop) a r : reader_at l p r -> Q a -> ok_read l p 0 Q (Some (a, r)).
Proof. intros Hr Ha _. exists a, r, p. split_and!; [done|done|lia|lia|done]. Qed.

Lemma ok_weaken {A} l p n n' (Q Q' : A -> Prop) m : n <= n' -> (forall a, Q a -> Q' a) -> ok_read l p n Q m -> ok_read l p n' Q' m.
Proof. intros Hn HQ H Hin. destruct (H ltac:(lia)) as (a & r' & p' & E & Hr & Hp & Ha). exists a, r', p'. split_and!; [done|done|lia|lia|auto]. Qed.

Lemma ok_loop {S} l p c lo hi (P : S -> Prop) (body : Z -> S * Mp2Reader -> option (S * Mp2Reader)) s r :
  lo <= hi -> 0 <= c -> P s -> reader_at l p r ->
  (forall i p' s r, lo <= i < hi -> p <= p' -> reader_at l p' r -> P s -> ok_read l p' c P (body i (s, r))) ->
  ok_read l p ((hi - lo) * c) P (zforM lo hi body (s, r)).
Proof.
  intros Hlo Hc HP Hr Hb Hin.
  destruct (zforM_inv (fun i '(s, r) => P s /\ exists p', reader_at l p' r /\ p <= p' <= p + (i - lo) * c) lo hi body (s, r)) as ([s' r'] & E & Hs' & p' & Hr' & Hp'); [done| |..].
  - split; [done|]. exists p. split; [done|lia].
  - intros i [s1 r1] Hi (Hs1 & p1 & Hr1 & Hp1). destruct (Hb i p1 s1 r1 Hi ltac:(lia) Hr1 Hs1) as (s2 & r2 & p2 & E2 & Hr2 & Hp2 & Hs2); [nia|].
    exists (s2, r2). split; [done|]. split; [done|]. exists p2. split; [done|nia].
  - exists s', r', p'. split_and!; [done|done|lia|lia|done].
Qed.

(** Two rows of [n] values from [lo] to [hi]. *)
Definition rows_ok (n lo hi : Z) (a : list (list Z)) : Prop :=
  length a = 2%nat /\ Forall (fun row => zlen row = n /\ Forall (fun x => lo <= x <= hi) row) a.

Lemma rows_rd2 n lo hi a ch i : lo <= 0 <= hi -> rows_ok n lo hi a -> lo <= rd2 a ch i <= hi.
Proof.
  intros H0 [Hl Ha]. unfold rd2. apply (rd_Forall (fun x => lo <= x <= hi)); [lia|].
  destruct (nth_in_or_default (Z.to_nat ch) a []) as [Hin| ->]; [|constructor]. rewrite Forall_forall in Ha. by apply Ha.
Qed.

Lemma rows_row n lo hi a ch : rows_ok n lo hi a -> 0 <= ch < 2 -> zlen (nth (Z.to_nat ch) a []) = n /\ Forall (fun x => lo <= x <= hi) (nth (Z.to_nat ch) a []).
Proof. intros [Hl Ha] Hch. rewrite Forall_forall in Ha. apply Ha, nth_In. lia. Qed.

Lemma rows_wr n lo hi a ch row : 0 <= ch < 2 -> rows_ok n lo hi a -> zlen row = n -> Forall (fun x => lo <= x <= hi) row -> rows_ok n lo hi (wr a ch row).
Proof.
  intros Hch [Hl Ha] Hn Hrow. unfold wr. destruct (ch <? 0); [done|]. split; [by rewrite length_insert|]. by apply Forall_insert.
Qed.

Lemma rows_wr2 n lo hi a ch i v : 0 <= ch < 2 -> rows_ok n lo hi a -> lo <= v <= hi -> rows_ok n lo hi (wr2 a ch i v).
Proof.
  intros Hch Ha Hv. destruct (rows_row _ _ _ _ ch Ha Hch) as [Hn Hrow]. unfold wr2. apply rows_wr; [done|done|by rewrite zlen_wr|by apply Forall_wr].
Qed.

Lemma rows_wr3 n lo hi a ch sb x y z : 0 <= ch < 2 -> rows_ok n lo hi a -> lo <= x <= hi -> lo <= y <= hi -> lo <= z <= hi -> rows_ok n lo hi (wr3 a ch sb x y z).
Proof. intros Hch Ha Hx Hy Hz. unfold wr3. by repeat (apply rows_wr2; [done| |done]). Qed.

Abbreviation sample_max := 524288.

Section reading.
Context (l : list Z) (Hl : Forall is_byte l).

Lemma ok_bits n p r : 0 <= p -> 0 <= n <= 16 -> reader_at l p r -> ok_read l p n (fun v => v = field (unpack_bits l) p n /\ 0 <= v < 2 ^ n) (mp2_get_bits l n r).
Proof.
  intros Hp Hn Hr Hin. destruct (get_bits_ok l Hl n p r Hp Hn Hr Hin) as (r' & E & Hr'). eexists _, r', (p + n). split_and!; [exact E|done|lia|lia|done|..];
    apply field_range; (lia || apply unpack_bits_bit).
Qed.

Lemma step3_bits : forallb (fun row => forallb (fun x => (0 <=? Z.shiftr x 4) && (Z.shiftr x 4 <=? 4)) row) quant_lut_step3 = true.
Proof. reflexivity. Qed.
Lemma step4_entries : forallb (fun row => forallb (fun x => (0 <=? x) && (x <=? 17)) row) quant_lut_step4 = true.
Proof. reflexivity. Qed.

Lemma rd2_table (P : Z -> bool) t a b : P 0 = true -> forallb (fun row => forallb P row) t = true -> P (rd2 t a b) = true.
Proof.
  intros H0 Ht. unfold rd2. apply (rd_Forall (fun x => P x = true)); [done|]. rewrite forallb_forall in Ht.
  destruct (nth_in_or_default (Z.to_nat a) t []) as [Hin| ->]; [|constructor]. apply Forall_forall. intros x Hx. specialize (Ht _ Hin). rewrite forallb_forall in Ht. by apply Ht.
Qed.

Lemma allocation_ok p sb b2 r : 0 <= p -> reader_at l p r -> ok_read l p 4 (fun a => 0 <= a <= 17) (read_allocation l sb b2 r).
Proof.
  intros Hp Hr. unfold read_allocation. set (n := Z.shiftr (rd2 quant_lut_step3 b2 sb) 4).
  assert (0 <= n <= 4) as Hn.
  { pose proof (rd2_table (fun x => (0 <=? Z.shiftr x 4) && (Z.shiftr x 4 <=? 4)) _ b2 sb eq_refl step3_bits) as H. cbv beta in H. unfold n. lia. }
  apply (ok_weaken l p (n + 0) _ (fun a => 0 <= a <= 17)); [lia|done|]. apply (ok_bind l p n 0 _ _ _ _ ltac:(lia) (ok_bits n p r Hp ltac:(lia) Hr)).
  intros v r' p' _ Hr' _. apply ok_ret; [done|]. pose proof (rd2_table (fun x => (0 <=? x) && (x <=? 17)) _ (Z.land (rd2 quant_lut_step3 b2 sb) 15) v eq_refl step4_entries) as H. cbv beta in H. lia.
Qed.

Lemma allocations_ok p bound sblimit b2 al r :
  0 <= p -> 0 <= bound <= sblimit -> reader_at l p r -> rows_ok 32 0 17 al ->
  ok_read l p (8 * sblimit) (rows_ok 32 0 17) (read_allocations l bound sblimit b2 (al, r)).
Proof.
  intros Hp Hb Hr Hal. unfold read_allocations. apply (ok_weaken l p ((bound - 0) * ((2 - 0) * 4) + (sblimit - bound) * 4) _ (rows_ok 32 0 17)); [lia|done|].
  apply ok_bind with (Q1 := rows_ok 32 0 17); [lia| |].
  - apply ok_loop; [lia|lia|done|done|]. intros sb p1 a1 r1 _ Hp1 Hr1 Ha1. apply ok_loop; [lia|lia|done|done|]. intros ch p2 a2 r2 Hch Hp2 Hr2 Ha2.
    apply (ok_weaken l p2 (4 + 0) _ (rows_ok 32 0 17)); [lia|done|]. eapply ok_bind; [lia|apply allocation_ok; [lia|done]|].
    intros v r3 p3 _ Hr3 Hv. cbv beta in Hv. apply ok_ret; [done|]. apply rows_wr2; [lia|done|lia].
  - intros a1 r1 p1 Hp1 Hr1 Ha1. apply ok_loop; [lia|lia|done|done|]. intros sb p2 a2 r2 _ Hp2 Hr2 Ha2.
    apply (ok_weaken l p2 (4 + 0) _ (rows_ok 32 0 17)); [lia|done|]. eapply ok_bind; [lia|apply allocation_ok; [lia|done]|].
    intros v r3 p3 _ Hr3 Hv. cbv beta in Hv. apply ok_ret; [done|]. by repeat (apply rows_wr2; [lia| |lia]).
Qed.

Lemma scfsi_ok p al nch sblimit si r :
  0 <= p -> 1 <= nch <= 2 -> 0 <= sblimit -> reader_at l p r -> rows_ok 32 0 3 si ->
  ok_read l p (4 * sblimit) (rows_ok 32 0 3) (read_scfsi l al nch sblimit (si, r)).
Proof.
  intros Hp Hn Hs Hr Hsi. unfold read_scfsi. apply (ok_weaken l p ((sblimit - 0) * ((nch - 0) * 2 + 0)) _ (rows_ok 32 0 3)); [nia|done|].
  apply ok_loop; [lia|lia|done|done|]. intros sb p1 s1 r1 _ Hp1 Hr1 Hs1. apply ok_bind with (Q1 := rows_ok 32 0 3); [lia| |].
  - apply ok_loop; [lia|lia|done|done|]. intros ch p2 s2 r2 Hch Hp2 Hr2 Hs2. destruct (rd2 al ch sb =? 0).
    + by apply (ok_weaken l p2 0 _ (rows_ok 32 0 3)); [lia|done|apply ok_ret].
    + apply (ok_weaken l p2 (2 + 0) _ (rows_ok 32 0 3)); [lia|done|]. eapply ok_bind; [lia|apply ok_bits; [lia|lia|done]|].
      intros v r3 p3 _ Hr3 [_ Hv]. apply ok_ret; [done|]. apply rows_wr2; [lia|done|lia].
  - intros s2 r2 p2 _ Hr2 Hs2. apply ok_ret; [done|]. destruct (nch =? 1); [|done]. apply rows_wr2; [lia|done|]. by apply (rows_rd2 32).
Qed.

Lemma scalefactor_ok p scfsi ch sb sf r :
  0 <= p -> 0 <= ch < 2 -> reader_at l p r -> rows_ok 96 0 63 sf ->
  ok_read l p 18 (rows_ok 96 0 63) (read_scalefactor l scfsi ch sb (sf, r)).
Proof.
  intros Hp Hch Hr Hsf. unfold read_scalefactor. apply (ok_weaken l p (6 + 12) _ (rows_ok 96 0 63)); [lia|done|].
  eapply ok_bind; [lia|apply ok_bits; [lia|lia|done]|]. intros a r1 p1 Hp1 Hr1 [_ Ha].
  assert (forall (f : Z -> list (list Z)), (forall v, 0 <= v <= 63 -> rows_ok 96 0 63 (f v)) ->
    ok_read l p1 12 (rows_ok 96 0 63) ('(v, r) ← mp2_get_bits l 6 r1; Some (f v, r))) as Hone.
  { intros f Hf. apply (ok_weaken l p1 (6 + 0) _ (rows_ok 96 0 63)); [lia|done|]. eapply ok_bind; [lia|apply ok_bits; [lia|lia|done]|].
    intros v r2 p2 _ Hr2 [_ Hv]. apply ok_ret; [done|]. apply Hf. lia. }
  destruct (scfsi =? 0); [|destruct (scfsi =? 1); [|destruct (scfsi =? 2)]].
  - apply (ok_weaken l p1 (6 + (6 + 0)) _ (rows_ok 96 0 63)); [lia|done|]. eapply ok_bind; [lia|apply ok_bits; [lia|lia|done]|]. intros b r2 p2 Hp2 Hr2 [_ Hb].
    eapply ok_bind; [lia|apply ok_bits; [lia|lia|done]|]. intros c r3 p3 _ Hr3 [_ Hcc]. apply ok_ret; [done|]. by apply rows_wr3; try lia.
  - apply Hone. intros v Hv. by apply rows_wr3; try lia.
  - apply (ok_weaken l p1 0 _ (rows_ok 96 0 63)); [lia|done|]. apply ok_ret; [done|]. by apply rows_wr3; try lia.
  - apply Hone. intros v Hv. by apply rows_wr3; try lia.
Qed.

Lemma scalefactors_ok p al si nch sblimit sf r :
  0 <= p -> 1 <= nch <= 2 -> 0 <= sblimit -> reader_at l p r -> rows_ok 96 0 63 sf ->
  ok_read l p (36 * sblimit) (rows_ok 96 0 63) (read_scalefactors l al si nch sblimit (sf, r)).
Proof.
  intros Hp Hn Hs Hr Hsf. unfold read_scalefactors. apply (ok_weaken l p ((sblimit - 0) * ((nch - 0) * 18 + 0)) _ (rows_ok 96 0 63)); [nia|done|].
  apply ok_loop; [lia|lia|done|done|]. intros sb p1 s1 r1 _ Hp1 Hr1 Hs1. apply ok_bind with (Q1 := rows_ok 96 0 63); [lia| |].
  - apply ok_loop; [lia|lia|done|done|]. intros ch p2 s2 r2 Hch Hp2 Hr2 Hs2. destruct (rd2 al ch sb =? 0).
    + by apply (ok_weaken l p2 0 _ (rows_ok 96 0 63)); [lia|done|apply ok_ret].
    + by apply scalefactor_ok; try lia.
  - intros s2 r2 p2 _ Hr2 Hs2. apply ok_ret; [done|]. destruct (nch =? 1); [|done]. by apply rows_wr3; [lia|done|apply (rows_rd2 96)..].
Qed.

(** Samples stay below 2^19 in any case, the sum being shifted. *)
Lemma requantize_range n scf s : - sample_max <= requantize n scf s <= sample_max.
Proof.
  unfold requantize. rewrite (Z.shiftr_div_pow2 _ 12) by lia. set (x := i32 _ + _).
  pose proof (swrap_range 32 (i32 (i32 ((Z.shiftr (n + 1) 1 - 1 - s) * Z.quot 65536 (n + 1)) * Z.shiftr scf 12) +
    Z.shiftr (i32 (i32 (i32 ((Z.shiftr (n + 1) 1 - 1 - s) * Z.quot 65536 (n + 1)) * Z.land scf 4095) + 2048)) 12) ltac:(lia)) as H.
  fold x in H. change (2 ^ (32 - 1)) with 2147483648 in H. change (2 ^ 12) with 4096. Z.to_euclidean_division_equations; lia.
Qed.

Lemma codes_ok p q r : 0 <= p -> 0 <= cw_bits q <= 16 -> reader_at l p r -> ok_read l p 48 (fun c => True) (read_codes l q r).
Proof.
  intros Hp Hq Hr. unfold read_codes. destruct (grouping q).
  - apply (ok_weaken l p (cw_bits q + 0) _ (fun _ => True)); [lia|done|]. eapply ok_bind; [lia|by apply ok_bits; try lia|]. intros v r1 p1 _ Hr1 _. by apply ok_ret.
  - apply (ok_weaken l p (cw_bits q + (cw_bits q + (cw_bits q + 0))) _ (fun _ => True)); [lia|done|]. eapply ok_bind; [lia|by apply ok_bits; try lia|]. intros a r1 p1 Hp1 Hr1 _.
    eapply ok_bind; [lia|by apply ok_bits; try lia|]. intros b r2 p2 Hp2 Hr2 _. eapply ok_bind; [lia|by apply ok_bits; try lia|]. intros c r3 p3 _ Hr3 _. by apply ok_ret.
Qed.

Lemma quantizer_bits a : 0 <= cw_bits (nth a quantizer_table (mkSpec 0 false 0)) <= 16.
Proof. do 17 (destruct a as [|a]; [cbn; lia|]). destruct a; cbn; lia. Qed.

Definition samples_ok (s : list Z) : Prop := Forall (fun x => - sample_max <= x <= sample_max) s.

Lemma read_samples_ok p al scf r : 0 <= p -> reader_at l p r -> ok_read l p 48 samples_ok (read_samples l al scf r).
Proof.
  intros Hp Hr. unfold read_samples. destruct (al =? 0).
  - apply (ok_weaken l p 0 _ samples_ok); [lia|done|]. apply ok_ret; [done|]. repeat constructor; lia.
  - apply (ok_weaken l p (48 + 0) _ samples_ok); [lia|done|]. eapply ok_bind; [lia|apply codes_ok; [done|apply quantizer_bits|done]|].
    intros c r1 p1 _ Hr1 _. apply ok_ret; [done|]. apply Forall_map, List.Forall_forall. intros x _. apply requantize_range.
Qed.

Lemma put_samples_ok row ch sb s : 0 <= ch < 2 -> rows_ok 96 (- sample_max) sample_max row -> samples_ok s -> rows_ok 96 (- sample_max) sample_max (put_samples row ch sb s).
Proof. intros Hch Hrow Hs. by apply rows_wr3; [|done|apply (rd_Forall (fun x => - sample_max <= x <= sample_max)); [lia|done]..]. Qed.

Lemma granule_samples_ok p d bound sblimit part sm r :
  0 <= p -> 0 <= bound <= sblimit -> sblimit <= 32 -> reader_at l p r -> rows_ok 96 (- sample_max) sample_max sm ->
  ok_read l p (96 * sblimit) (rows_ok 96 (- sample_max) sample_max) (read_granule l d bound sblimit part (sm, r)).
Proof.
  intros Hp Hb H32 Hr Hsm. unfold read_granule. set (Q := rows_ok 96 (- sample_max) sample_max) in *.
  apply (ok_weaken l p ((bound - 0) * ((2 - 0) * (48 + 0)) + ((sblimit - bound) * (48 + 0) + 0)) _ Q); [lia|done|].
  apply ok_bind with (Q1 := Q); [lia| |].
  - apply ok_loop; [lia|lia|done|done|]. intros sb p1 s1 r1 _ Hp1 Hr1 Hs1. apply ok_loop; [lia|lia|done|done|]. intros ch p2 s2 r2 Hch Hp2 Hr2 Hs2.
    eapply ok_bind; [lia|apply read_samples_ok; [lia|done]|]. intros v r3 p3 _ Hr3 Hv. apply ok_ret; [done|]. by apply put_samples_ok; [lia|done|].
  - intros s1 r1 p1 Hp1 Hr1 Hs1. apply ok_bind with (Q1 := Q); [lia| |].
    + apply ok_loop; [lia|lia|done|done|]. intros sb p2 s2 r2 _ Hp2 Hr2 Hs2. eapply ok_bind; [lia|apply read_samples_ok; [lia|done]|].
      intros v r3 p3 _ Hr3 Hv. apply ok_ret; [done|]. by apply put_samples_ok; [lia|apply put_samples_ok; [lia|done..]|].
    + intros s2 r2 p2 _ Hr2 Hs2. apply ok_ret; [done|]. apply (zfor_inv (fun _ sm => Q sm)); [lia|done|]. intros ch s3 Hch Hs3.
      apply (zfor_inv (fun _ sm => Q sm)); [lia|done|]. intros sb s4 _ Hs4. apply put_samples_ok; [lia|done|]. repeat constructor; lia.
Qed.
End reading.

(** ** The whole frame *)
(** The members have their sizes, and values of their types. *)
Record mp2_ok (d : Mp2Decoder) : Prop := {
  mo_V : rows_ok 1024 (-32768) 32767 (V d);
  mo_Voffs : 0 <= Voffs d < 1024 /\ Voffs d mod 64 = 0;
  mo_allocation : rows_ok 32 0 17 (allocation d);
  mo_scfsi : rows_ok 32 0 3 (scfsi d);
  mo_scalefactor : rows_ok 96 0 63 (scalefactor d);
  mo_sample : rows_ok 96 (- sample_max) sample_max (sample d)
}.

Definition pcm_ok (pcm : list Z) : Prop := zlen pcm = 2304 /\ Forall (fun x => -32768 <= x <= 32767) pcm.

Lemma i16_range z : -32768 <= i16 z <= 32767.
Proof. pose proof (swrap_range 16 z ltac:(lia)) as H. change (2 ^ (16 - 1)) with 32768 in H. lia. Qed.

Lemma fill_V_ok s idx offs v : zlen v = 1024 -> Forall (fun x => -32768 <= x <= 32767) v ->
  zlen (fill_V s idx offs v) = 1024 /\ Forall (fun x => -32768 <= x <= 32767) (fill_V s idx offs v).
Proof.
  intros Hn Hv. apply (zfor_inv (fun _ v => zlen v = 1024 /\ Forall (fun x => -32768 <= x <= 32767) v)); [lia|done|].
  intros i v' _ [Hn' Hv']. split; [by rewrite zlen_wr|]. apply Forall_wr; [done|apply i16_range].
Qed.

Lemma synthesis_channel_ok idx base ch d pcm :
  0 <= ch < 2 -> mp2_ok d -> pcm_ok pcm -> let '(d', pcm') := synthesis_channel idx base ch d pcm in mp2_ok d' /\ pcm_ok pcm'.
Proof.
  intros Hch [HV Ho Ha Hs Hf Hsm] Hp. unfold synthesis_channel. destruct (rows_row _ _ _ _ ch HV Hch) as [Hn Hrow].
  destruct (fill_V_ok (nth (Z.to_nat ch) (sample d) []) idx (Voffs d) _ Hn Hrow) as [Hn' Hrow']. split.
  - split; try done. by apply rows_wr.
  - apply (zfor_inv (fun _ p => pcm_ok p)); [lia|done|]. intros j p _ [Hpn Hpf]. split; [by rewrite zlen_wr|]. apply Forall_wr; [done|apply i16_range].
Qed.

Lemma shift_V_ok d : mp2_ok d -> mp2_ok (shift_V d).
Proof.
  intros [HV [Ho Hm] Ha Hs Hf Hsm]. split; try done. cbn [Voffs shift_V]. change 1023 with (Z.ones 10). rewrite Z.land_ones by lia. change (2 ^ 10) with 1024.
  split; [apply Z.mod_pos_bound; lia|]. Z.to_euclidean_division_equations; lia.
Qed.

Lemma synthesis_ok base d pcm : mp2_ok d -> pcm_ok pcm -> let '(d', pcm') := synthesis base (d, pcm) in mp2_ok d' /\ pcm_ok pcm'.
Proof.
  intros Hd Hp. unfold synthesis. apply (zfor_inv (fun _ '(d, pcm) => mp2_ok d /\ pcm_ok pcm)); [lia|done|]. intros idx [d1 p1] _ [Hd1 Hp1].
  apply (zfor_inv (fun _ '(d, pcm) => mp2_ok d /\ pcm_ok pcm)); [lia|by split; [apply shift_V_ok|]|]. intros ch [d2 p2] Hch [Hd2 Hp2]. by apply synthesis_channel_ok.
Qed.

(** The header, in terms of the bits of the frame. *)
Definition header_of (l : list Z) : Mp2Header :=
  let F := field (unpack_bits l) in
  let mpeg2 := F 12 1 =? 0 in
  mkHeader (if mpeg2 then F 16 4 - 1 + 14 else F 16 4 - 1) (if mpeg2 then F 20 2 + 4 else F 20 2) (F 22 1) (F 24 2)
    (if F 24 2 =? 1 then 4 * (F 26 2 + 1) else if F 24 2 =? 3 then 0 else 32).
Definition side_start (l : list Z) : Z := if field (unpack_bits l) 15 1 =? 0 then 48 else 32.
Definition header_usable (l : list Z) : bool :=
  let F := field (unpack_bits l) in (1 <=? F 16 4) && (F 16 4 <=? 14) && negb (F 20 2 =? 3).

Lemma byte_flags : forallb (fun b => (Z.eqb (Z.land b 0x08) 0 && (b / 8 mod 2 =? 0) || negb (Z.land b 0x08 =? 0) && (b / 8 mod 2 =? 1)) &&
  (Z.eqb (Z.land b 1) 0 && (b mod 2 =? 0) || negb (Z.land b 1 =? 0) && (b mod 2 =? 1))) (seqZ 0 256) = true.
Proof. by vm_compute. Qed.

Lemma field_in_byte l i k n : Forall is_byte l -> 0 <= i < zlen l -> 0 <= k -> 0 <= n -> k + n <= 8 ->
  field (unpack_bits l) (8 * i + k) n = rd l i / 2 ^ (8 - k - n) mod 2 ^ n.
Proof.
  intros Hl Hi Hk Hn Hkn. rewrite <- (field_unpack_byte l i) by done. pose proof (field_split (unpack_bits l) (8 * i) k (8 - k) ltac:(lia) ltac:(lia)) as E1.
  pose proof (field_split (unpack_bits l) (8 * i + k) n (8 - k - n) ltac:(lia) ltac:(lia)) as E2. replace (k + (8 - k)) with 8 in E1 by lia. replace (n + (8 - k - n)) with (8 - k) in E2 by lia.
  pose proof (field_range (unpack_bits l) (8 * i + k) n ltac:(lia) (unpack_bits_bit l)) as R1.
  pose proof (field_range (unpack_bits l) (8 * i + k + n) (8 - k - n) ltac:(lia) (unpack_bits_bit l)) as R2. rewrite E1, E2.
  replace (8 - k) with (n + (8 - k - n)) at 1 by lia. rewrite Z.pow_add_r by lia.
  set (m := 2 ^ (8 - k - n)) in *. assert (0 < m) by (apply Z.pow_pos_nonneg; lia). assert (0 < 2 ^ n) by (apply Z.pow_pos_nonneg; lia).
  rewrite <- (Z.div_unique_pos _ m (field (unpack_bits l) (8 * i) k * 2 ^ n + field (unpack_bits l) (8 * i + k) n) (field (unpack_bits l) (8 * i + k + n) (8 - k - n))) by nia.
  apply Z.mod_unique_pos with (q := field (unpack_bits l) (8 * i) k); lia.
Qed.

Lemma byte_flag l i : Forall is_byte l -> 0 <= i < zlen l ->
  (Z.land (rd l i) 0x08 =? 0) = (field (unpack_bits l) (8 * i + 4) 1 =? 0) /\ (Z.land (rd l i) 1 =? 0) = (field (unpack_bits l) (8 * i + 7) 1 =? 0).
Proof.
  intros Hl Hi. rewrite !field_in_byte by (done || lia). change (2 ^ (8 - 4 - 1)) with 8. change (2 ^ (8 - 7 - 1)) with 1. change (2 ^ 1) with 2. rewrite Z.div_1_r.
  assert (is_byte (rd l i)) as Hb by (apply rd_Forall; [unfold is_byte; lia|done]). pose proof byte_flags as H. rewrite forallb_forall in H.
  specialize (H (rd l i)). cbv beta in H. assert (In (rd l i) (seqZ 0 256)) as Hin by (apply in_seqZ; unfold is_byte in Hb; lia). specialize (H Hin).
  destruct (Z.land (rd l i) 8 =? 0), (Z.land (rd l i) 1 =? 0); cbn [andb orb negb] in H; lia.
Qed.

Lemma read_header_spec l : Forall is_byte l -> 9 <= zlen l ->
  if header_usable l
  then exists r, read_header l (rd l 1) (rd l 2) = Some (Some (header_of l, r)) /\ reader_at l (side_start l) r
  else read_header l (rd l 1) (rd l 2) = Some None.
Proof.
  intros Hl Hn. unfold read_header, header_usable, header_of, side_start. set (F := field (unpack_bits l)).
  destruct (byte_flag l 1 Hl ltac:(lia)) as [E3 E0]. change (8 * 1 + 4) with 12 in E3. change (8 * 1 + 7) with 15 in E0. fold F in E3, E0. rewrite E3, E0.
  destruct (get_bits_first l Hl 4 ltac:(lia) ltac:(lia)) as (r1 & -> & R1). cbn [mbind option_bind]. fold F.
  pose proof (field_range (unpack_bits l) 16 4 ltac:(lia) (unpack_bits_bit l)) as B1. fold F in B1. change (2 ^ 4) with 16 in B1.
  assert ((13 <? u32 (F 16 4 - 1)) = negb ((1 <=? F 16 4) && (F 16 4 <=? 14))) as ->.
  { destruct (Z.eq_dec (F 16 4) 0) as [->|]; [done|]. rewrite uwrap_small by lia. lia. }
  destruct ((1 <=? F 16 4) && (F 16 4 <=? 14)) eqn:Eb; cbn [negb andb]; [|done]. rewrite uwrap_small by lia.
  destruct (get_bits_ok l Hl 2 20 r1 ltac:(lia) ltac:(lia) R1 ltac:(lia)) as (r2 & -> & R2). cbn [mbind option_bind]. change (16 + 4) with 20 in *. fold F.
  destruct (F 20 2 =? 3); cbn [negb]; [done|]. change (20 + 2) with 22 in *.
  destruct (get_bits_ok l Hl 1 22 r2 ltac:(lia) ltac:(lia) R2 ltac:(lia)) as (r3 & -> & R3). cbn [mbind option_bind]. change (22 + 1) with 23 in *.
  destruct (get_bits_ok l Hl 1 23 r3 ltac:(lia) ltac:(lia) R3 ltac:(lia)) as (r4 & -> & R4). cbn [mbind option_bind]. change (23 + 1) with 24 in *.
  destruct (get_bits_ok l Hl 2 24 r4 ltac:(lia) ltac:(lia) R4 ltac:(lia)) as (r5 & -> & R5). cbn [mbind option_bind]. change (24 + 2) with 26 in *. fold F.
  destruct (get_bits_ok l Hl 2 26 r5 ltac:(lia) ltac:(lia) R5 ltac:(lia)) as (r6 & -> & R6). cbn [mbind option_bind]. change (26 + 2) with 28 in *.
  destruct (get_bits_ok l Hl 4 28 r6 ltac:(lia) ltac:(lia) R6 ltac:(lia)) as (r7 & -> & R7). cbn [mbind option_bind]. change (28 + 4) with 32 in *. fold F.
  rewrite (Z.shiftl_mul_pow2 (F 26 2 + 1) 2), (Z.mul_comm (F 26 2 + 1)) by lia. change (2 ^ 2) with 4. unfold JOINT_STEREO, MONO.
  destruct (F 15 1 =? 0); [|cbn [mbind option_bind]; by exists r7].
  destruct (get_bits_ok l Hl 16 32 r7 ltac:(lia) ltac:(lia) R7 ltac:(lia)) as (r8 & -> & R8). cbn [mbind option_bind]. by exists r8.
Qed.

Lemma step2_limits : forallb (fun row => forallb (fun x => (Z.land x 63 <=? 30) && (0 <=? Z.land x 63)) row) quant_lut_step2 = true.
Proof. reflexivity. Qed.

Lemma sblimit_range h : 0 <= snd (quantizer_lookup h) <= 30.
Proof.
  unfold quantizer_lookup. destruct (negb _); [cbn; lia|]. cbn [snd].
  match goal with |- context [rd2 quant_lut_step2 ?a ?b] => pose proof (rd2_table (fun x => (Z.land x 63 <=? 30) && (0 <=? Z.land x 63)) _ a b eq_refl step2_limits) as H end.
  cbv beta in H. lia.
Qed.

Lemma bound_range l : 0 <= h_bound (header_of l).
Proof.
  unfold header_of. cbn [h_bound]. pose proof (field_range (unpack_bits l) 26 2 ltac:(lia) (unpack_bits_bit l)). repeat case_match; lia.
Qed.

(** Three parts of four granules, one after the other. *)
Section granules.
Context (l : list Z) (Hl : Forall is_byte l) (bound sblimit : Z) (Hb : 0 <= bound <= sblimit) (H30 : sblimit <= 30).

Lemma granule_ok p part gr d pcm r :
  0 <= p -> reader_at l p r -> mp2_ok d -> pcm_ok pcm ->
  ok_read l p 2880 (fun '(d, pcm) => mp2_ok d /\ pcm_ok pcm) (granule l bound sblimit part gr (d, pcm, r)).
Proof.
  intros Hp Hr Hd Hpcm. unfold granule. apply (ok_weaken l p (96 * sblimit + 0) _ (fun '(d, pcm) => mp2_ok d /\ pcm_ok pcm)); [lia|done|].
  pose proof Hd as [HV Ho Ha Hs Hf Hsm]. eapply ok_bind; [lia|apply granule_samples_ok; try done; lia|]. intros sm r1 p1 _ Hr1 Hsm1. cbv beta in Hsm1.
  assert (mp2_ok (set_sample sm d)) as Hd1 by (by split). pose proof (synthesis_ok (192 * (4 * part + gr)) _ _ Hd1 Hpcm) as H.
  destruct (synthesis _ _) as [d2 pcm2]. by apply ok_ret.
Qed.

Lemma granules_ok p d pcm r :
  0 <= p -> reader_at l p r -> mp2_ok d -> pcm_ok pcm ->
  ok_read l p 34560 (fun '(d, pcm) => mp2_ok d /\ pcm_ok pcm)
    (zforM 0 3 (fun part st => zforM 0 4 (fun gr st => granule l bound sblimit part gr st) st) (d, pcm, r)).
Proof.
  intros Hp Hr Hd Hpcm. set (P := fun '(d, pcm) => mp2_ok d /\ pcm_ok pcm). apply (ok_weaken l p ((3 - 0) * ((4 - 0) * 2880)) _ P); [lia|done|].
  apply (ok_loop l p _ 0 3 P _ (d, pcm) r); [lia|lia|done|done|]. intros part p1 s1 r1 _ Hp1 Hr1 Hs1.
  apply (ok_loop l p1 _ 0 4 P _ s1 r1); [lia|lia|done|done|]. intros gr p2 [d2 pcm2] r2 _ Hp2 Hr2 [Hd2 Hpcm2]. apply granule_ok; try done. lia.
Qed.
End granules.

Lemma decode_audio_ok l h d pcm p r :
  Forall is_byte l -> 0 <= p <= 48 -> reader_at l p r -> 0 <= h_bound h -> 4509 <= zlen l -> mp2_ok d -> pcm_ok pcm ->
  exists d' pcm', decode_audio l h d pcm r = Some (d', pcm') /\ mp2_ok d' /\ pcm_ok pcm'.
Proof.
  intros Hl Hp Hr Hbound Hn [HV Ho Ha Hs Hf Hsm] Hpcm. unfold decode_audio. pose proof (sblimit_range h) as Hlim. destruct (quantizer_lookup h) as [table_idx sblimit]. cbn [snd] in Hlim.
  set (bound := if sblimit <? h_bound h then sblimit else h_bound h). assert (0 <= bound <= sblimit) as Hb by (unfold bound; destruct (Z.ltb_spec sblimit (h_bound h)); lia).
  set (nch := if h_mode h =? MONO then 1 else 2). assert (1 <= nch <= 2) as Hnch by (unfold nch; destruct (_ =? _); lia).
  destruct (allocations_ok l Hl p bound sblimit table_idx (allocation d) r ltac:(lia) Hb Hr Ha ltac:(lia)) as (al & r1 & p1 & -> & R1 & P1 & Hal). cbn [mbind option_bind].
  destruct (scfsi_ok l Hl p1 al nch sblimit (scfsi d) r1 ltac:(lia) Hnch ltac:(lia) R1 Hs ltac:(lia)) as (si & r2 & p2 & -> & R2 & P2 & Hsi). cbn [mbind option_bind].
  destruct (scalefactors_ok l Hl p2 al si nch sblimit (scalefactor d) r2 ltac:(lia) Hnch ltac:(lia) R2 Hf ltac:(lia)) as (sf & r3 & p3 & -> & R3 & P3 & Hsf). cbn [mbind option_bind].
  assert (mp2_ok (set_side al si sf d)) as Hd by (by split).
  destruct (granules_ok l Hl bound sblimit Hb ltac:(lia) p3 _ pcm r3 ltac:(lia) R3 Hd Hpcm ltac:(lia)) as ([d' pcm'] & r4 & p4 & -> & _ & _ & H1 & H2).
  cbn [mbind option_bind]. by exists d', pcm'.
Qed.

Definition mp2_sync (l : list Z) : bool := (rd l 0 =? 0xFF) && (Z.land (rd l 1) 0xF6 =? 0xF4) && (rd l 2 - 0x10 <? 0xE0).

(** C31: decoding a frame in a vector of at least 4509 bytes, whatever is in it,
    stays inside of the vector and of the decoder's arrays, keeps every member in
    the range of its type, and leaves 2304 samples of 16 bits; the result is the
    frame size of the header, or 0 and nothing decoded where the header cannot be
    used. *)
Theorem mp2_decode_total (l pcm : list Z) (d : Mp2Decoder) :
  Forall is_byte l -> 4509 <= zlen l -> mp2_ok d -> pcm_ok pcm ->
  exists d' pcm' events, mp2_decode_frame l (Some pcm) d = Some (d', if mp2_sync l && header_usable l then mp2_frame_size (header_of l) else 0, pcm', events) /\
    mp2_ok d' /\ pcm_ok pcm' /\ (mp2_sync l && header_usable l = false -> pcm' = pcm /\ V d' = V d).
Proof.
  intros Hl Hn Hd Hpcm. unfold mp2_decode_frame. assert (exists d1 e1, count_frame d = (d1, e1) /\ mp2_ok d1 /\ V d1 = V d) as (d1 & e1 & -> & Hd1 & EV).
  { unfold count_frame. destruct (25 <=? _); do 2 eexists; (split; [reflexivity|]); by destruct Hd. }
  rewrite !get_Some by lia. cbn [mbind option_bind default].
  assert (negb (rd l 0 =? 255) || negb (Z.land (rd l 1) 246 =? 244) || (224 <=? rd l 2 - 16) = negb (mp2_sync l)) as -> by (unfold mp2_sync; lia).
  destruct (mp2_sync l); cbn [negb andb]; [|do 3 eexists; split; [reflexivity|]; split_and!; [by destruct Hd1|done|done]].
  pose proof (read_header_spec l Hl ltac:(lia)) as Hh. destruct (header_usable l).
  - destruct Hh as (r & -> & Hr). cbn [mbind option_bind].
    destruct (decode_audio_ok l (header_of l) d1 pcm (side_start l) r Hl ltac:(unfold side_start; destruct (_ =? _); lia) Hr (bound_range l) Hn Hd1 Hpcm) as (d2 & pcm2 & -> & H1 & H2).
    cbn [mbind option_bind]. do 3 eexists. split; [reflexivity|]. by split_and!.
  - rewrite Hh. cbn [mbind option_bind]. do 3 eexists. split; [reflexivity|]. by split_and!.
Qed.

Lemma Mp2Decoder_new_ok : mp2_ok Mp2Decoder_new.
Proof.
  assert (forall n hi lo, lo <= 0 <= hi -> rows_ok (Z.of_nat n) lo hi (replicate 2 (replicate n 0))) as H.
  { intros n hi lo Hr. split; [done|]. apply Forall_replicate. split; [unfold zlen; by rewrite length_replicate|]. by apply Forall_replicate. }
  split; [apply (H 1024%nat)|by split|apply (H 32%nat)|apply (H 32%nat)|apply (H 96%nat)|apply (H 96%nat)]; cbn; done.
Qed.

(** A frame at 48 kHz, 384 kbit/s, stereo, all other bits ones. *)
Definition ones_frame : list Z := [0xFF; 0xFD; 0xE4; 0x00] ++ replicate 4505 0xFF.

Lemma mp2_decode_total_witness :
  exists d' pcm' events, mp2_decode_frame ones_frame (Some (zeros 2304)) Mp2Decoder_new = Some (d', 1152, pcm', events) /\ mp2_ok d' /\ pcm_ok pcm'.
Proof.
  destruct (mp2_decode_total ones_frame (zeros 2304) Mp2Decoder_new) as (d' & pcm' & events & E & H1 & H2 & _).
  - apply forall_bytes. vm_compute. reflexivity.
  - vm_compute. discriminate.
  - exact Mp2Decoder_new_ok.
  - split; [reflexivity|]. apply Forall_replicate. lia.
  - exists d', pcm', events. split; [exact E|]. split; [exact H1|exact H2].
Defined.
