(* ===== verification/Mp2Synthesis.v ===== *)
(** * The synthesis filter of the MPEG layer II decoder

    The ring [V] with its moving start is the shift register of ISO 11172-3, and
    no sum or product of the filter overflows 32 bits, nor a value of [V] 16, as
    long as the subband samples are in the range of valid code words.  The samples
    are those of the reference below, which computes with integers of any size. *)
From S2P Require Import Prelude BitExtractors Checked Mp2Tables Mp2Decoder Mp2Standard Mp2Properties.
Open Scope Z_scope.

(** ** Reference *)
Definition zsum (n : Z) (f : Z -> Z) : Z := zfor 0 n (fun j a => a + f j) 0.

(** The vector of 64 values for a block of 32 subband samples. *)
Definition v_ref (s : list Z) (i : Z) : Z := (zsum 32 (fun j => cosine i j * rd s j) + 8192) / 16384.

(** [hist] holds the blocks of a channel, the last first. *)
Definition u_ref (hist : list (list Z)) (k : Z) : Z :=
  let b := k mod 64 in v_ref (nth (Z.to_nat (2 * (k / 64) + if b <? 32 then 0 else 1)) hist []) b.
Definition window_ref (hist : list (list Z)) (k : Z) : Z := (u_ref hist k * window k + 32) / 64.
Definition clamp (lo hi x : Z) : Z := Z.max lo (Z.min hi x).
Definition pcm_ref (hist : list (list Z)) (j : Z) : Z := clamp (-32768) 32767 ((8 - zsum 16 (fun i => window_ref hist (32 * i + j))) / 16).

(** Samples of a channel from valid code words; there are at most 30 subbands. *)
Definition subband_ok (s : list Z) : Prop := forall j, - 65536 <= rd s j <= 65536 /\ (30 <= j -> rd s j = 0).

(** ** Bounds *)
Lemma zsum_succ n f : 0 <= n -> zsum (n + 1) f = zsum n f + f n.
Proof. intros. unfold zsum. by rewrite zfor_last by done. Qed.

Lemma zsum_0 f : zsum 0 f = 0.
Proof. unfold zsum. by rewrite zfor_done. Qed.

Lemma zsum_ind (P : Z -> Z -> Prop) n f : 0 <= n -> P 0 0 -> (forall i a, 0 <= i < n -> P i a -> P (i + 1) (a + f i)) -> P n (zsum n f).
Proof. intros Hn H0 Hs. apply (zfor_inv P); [done|done|]. intros. by apply Hs. Qed.

Lemma zsum_le n f g : 0 <= n -> (forall i, 0 <= i < n -> f i <= g i) -> zsum n f <= zsum n g.
Proof.
  intros Hn H. apply (zsum_ind (fun i a => a <= zsum i g)); [done|by rewrite zsum_0|]. intros i a Hi Ha. rewrite zsum_succ by lia. specialize (H i Hi). lia.
Qed.

Lemma zsum_abs n f : 0 <= n -> Z.abs (zsum n f) <= zsum n (fun i => Z.abs (f i)).
Proof.
  intros Hn. apply (zsum_ind (fun i a => Z.abs a <= zsum i (fun i => Z.abs (f i)))); [done|by rewrite zsum_0|]. intros i a Hi Ha. rewrite zsum_succ by lia. lia.
Qed.

Lemma zsum_scale n f c : 0 <= n -> zsum n (fun i => f i * c) = zsum n f * c.
Proof. intros Hn. apply (zsum_ind (fun i a => a = zsum i f * c)); [done|by rewrite zsum_0|]. intros i a Hi ->. rewrite zsum_succ by lia. lia. Qed.

Lemma zsum_const n c : 0 <= n -> zsum n (fun _ => c) = n * c.
Proof. intros Hn. apply (zsum_ind (fun i a => a = i * c)); [done|done|]. intros i a Hi ->. lia. Qed.

Lemma zsum_ext n f g : 0 <= n -> (forall i, 0 <= i < n -> f i = g i) -> zsum n f = zsum n g.
Proof. intros Hn H. apply zfor_ext. intros i a Hi. by rewrite H. Qed.

(** What row [i] of the matrix can add up to, and the vector then. *)
Definition row_max (i : Z) : Z := zsum 30 (fun j => Z.abs (N i j)) * 65536.
Definition v_max (i : Z) : Z := (row_max i + 8192) / 16384.

Lemma v_max_eq i : v_max i = (row_max i + 8192) / 16384.
Proof. reflexivity. Qed.

Lemma matrix_range : forallb (fun i => forallb (fun j => Z.abs (N i j) <=? 256) (seqZ 0 32)) (seqZ 0 64) = true.
Proof. by vm_compute. Qed.
Lemma v_max_16 : forallb (fun i => v_max i <=? 32766) (seqZ 0 64) = true.
Proof. by vm_compute. Qed.
Lemma window_32 : forallb (fun k => (v_max (k mod 64) + 1) * Z.abs (rd D k) + 32 <? 2 ^ 31) (seqZ 0 512) = true.
Proof. by vm_compute. Qed.

Lemma N_abs i j : 0 <= i < 64 -> 0 <= j < 32 -> Z.abs (N i j) <= 256.
Proof. intros Hi Hj. pose proof (range_check _ 32 j (range_check _ 64 i matrix_range Hi) Hj) as H. cbv beta in H. lia. Qed.

Lemma sum_bound s i : subband_ok s -> 0 <= i < 64 -> Z.abs (zsum 32 (fun j => N i j * rd s j)) <= row_max i.
Proof.
  intros Hs Hi. etransitivity; [by apply zsum_abs|]. unfold row_max. rewrite <- zsum_scale by lia. change 32 with (30 + 1 + 1). rewrite !zsum_succ by lia.
  destruct (Hs 30) as [_ ->]; [|lia]. destruct (Hs (30 + 1)) as [_ ->]; [|lia]. rewrite !Z.mul_0_r. cbn [Z.abs]. rewrite !Z.add_0_r.
  apply zsum_le; [lia|]. intros j Hj. rewrite Z.abs_mul. destruct (Hs j) as [H _]. nia.
Qed.

Lemma v_ref_N s i : 0 <= i < 64 -> v_ref s i = (zsum 32 (fun j => N i j * rd s j) + 8192) / 16384.
Proof. intros Hi. unfold v_ref. do 2 f_equal. apply zsum_ext; [lia|]. intros j Hj. by rewrite N_cosine. Qed.

Lemma v_bound s i : subband_ok s -> 0 <= i < 64 -> Z.abs (v_ref s i) <= v_max i + 1.
Proof.
  intros Hs Hi. pose proof (sum_bound s i Hs Hi) as H. rewrite v_max_eq, v_ref_N by done. set (x := zsum _ _) in *. Z.to_euclidean_division_equations; lia.
Qed.

(** The matrixing of a channel's row: sample [idx] of every subband. *)
Definition block_of (row : list Z) (idx : Z) : list Z := map (fun j => rd row (3 * j + idx)) (seqZ 0 32).

Lemma rd_block row idx j : 0 <= j < 32 -> rd (block_of row idx) j = rd row (3 * j + idx).
Proof. intros Hj. unfold block_of. by rewrite rd_map_seqZ by lia. Qed.

(** The sum over the subbands, term by term at 32 bits. *)
Lemma matrix_sum row idx i m : subband_ok (block_of row idx) -> 0 <= i < 64 -> 0 <= m <= 32 ->
  zfor 0 m (fun j sum => i32 (sum + i32 (N i j * rd row (3 * j + idx)))) 0 = zsum m (fun j => N i j * rd (block_of row idx) j) /\
  Z.abs (zsum m (fun j => N i j * rd (block_of row idx) j)) <= m * 16777216.
Proof.
  intros Hs Hi [Hm H32]. revert H32. pattern m. apply natlike_ind; [..|done]; [intros; rewrite zfor_done, zsum_0 by done; split; [done|lia]|].
  clear m Hm. intros m Hm IH Hm2. destruct (IH ltac:(lia)) as [E B].
  rewrite <- Z.add_1_r, zfor_last, zsum_succ, E by lia. pose proof (N_abs i m Hi ltac:(lia)) as HN. destruct (Hs m) as [Hsm _]. rewrite (rd_block row idx m) in * by lia.
  assert (Z.abs (N i m * rd row (3 * m + idx)) <= 16777216) as Hp by (rewrite Z.abs_mul; nia).
  rewrite (i32_small (N i m * _)), i32_small by lia. split; [done|]. lia.
Qed.

Lemma v_max_range i : 0 <= i < 64 -> v_max i <= 32766.
Proof. intros Hi. pose proof (range_check _ 64 i v_max_16 Hi) as H. cbv beta in H. lia. Qed.

Lemma matrixing_exact row idx i : subband_ok (block_of row idx) -> 0 <= i < 64 -> matrixing row idx i = v_ref (block_of row idx) i.
Proof.
  intros Hs Hi. unfold matrixing. destruct (matrix_sum row idx i 32 Hs Hi ltac:(lia)) as [-> _].
  pose proof (sum_bound _ i Hs Hi) as HB. pose proof (v_max_range i Hi) as Hv. rewrite v_max_eq in Hv. rewrite v_ref_N by done. set (x := zsum 32 _) in *. generalize dependent x. generalize dependent (row_max i). intros M Hv x HB.
  assert (M <= 536862720) as Hr by (Z.to_euclidean_division_equations; lia).
  rewrite i32_small, Z.shiftr_div_pow2 by lia. change (2 ^ 14) with 16384. apply i16_small. Z.to_euclidean_division_equations; lia.
Qed.

(** ** The ring *)
Lemma land_ring x : Z.land x 1023 = x mod 1024.
Proof. change 1023 with (Z.ones 10). by rewrite Z.land_ones by lia. Qed.

(** The row of a channel holds the vectors of the last sixteen blocks, the last
    one at the start. *)
Definition ring_holds_blocks (row : list Z) (offs : Z) (hist : list (list Z)) : Prop :=
  zlen row = 1024 /\ 0 <= offs < 1024 /\ offs mod 64 = 0 /\
  forall k i, 0 <= k < 16 -> 0 <= i < 64 -> rd row ((offs + 64 * k + i) mod 1024) = v_ref (nth (Z.to_nat k) hist []) i.

Lemma fill_V_rd s idx offs v m : 0 <= offs -> offs + 64 <= zlen v -> 0 <= m ->
  rd (fill_V s idx offs v) m = if (offs <=? m) && (m <? offs + 64) then matrixing s idx (m - offs) else rd v m.
Proof.
  intros Ho Hn Hm. unfold fill_V.
  assert (forall c, 0 <= c <= 64 -> let v' := zfor 0 c (fun i v => wr v (offs + i) (matrixing s idx i)) v in
    zlen v' = zlen v /\ rd v' m = if (offs <=? m) && (m <? offs + c) then matrixing s idx (m - offs) else rd v m) as H; [|by apply (H 64)].
  intros c [Hc H64] v'. subst v'. revert H64. pattern c. apply natlike_ind; [..|done].
  - intros _. rewrite zfor_done by done. split; [done|]. by assert ((offs <=? m) && (m <? offs + 0) = false) as -> by lia.
  - clear c Hc. intros c Hc IH H64. destruct (IH ltac:(lia)) as [L R]. rewrite <- Z.add_1_r, zfor_last by lia. split; [by rewrite zlen_wr|].
    destruct (Z.eq_dec m (offs + c)) as [->|Hne].
    + rewrite rd_wr_eq by lia. assert ((offs <=? offs + c) && (offs + c <? offs + (c + 1)) = true) as -> by lia. f_equal. lia.
    + rewrite rd_wr_ne, R by lia. by assert ((offs <=? m) && (m <? offs + (c + 1)) = (offs <=? m) && (m <? offs + c)) as -> by lia.
Qed.

(** Shifting and filling: a block more. *)
Lemma ring_next row offs hist srow idx :
  ring_holds_blocks row offs hist -> subband_ok (block_of srow idx) ->
  let offs' := Z.land (offs - 64) 1023 in ring_holds_blocks (fill_V srow idx offs' row) offs' (block_of srow idx :: hist).
Proof.
  intros (Hn & Ho & Hm & Hr) Hs offs'. assert (offs' = (offs - 64) mod 1024) as Eo by apply land_ring.
  assert (0 <= offs' <= 960 /\ offs' mod 64 = 0) as [Ho' Hm'] by (rewrite Eo; Z.to_euclidean_division_equations; lia).
  split_and!; [|lia|lia|done|].
  - unfold fill_V. apply (zfor_inv (fun _ v => zlen v = 1024)); [lia|done|]. intros i v _ Hv. by rewrite zlen_wr.
  - intros k i Hk Hi. assert (0 <= (offs' + 64 * k + i) mod 1024 < 1024) as Hp by (apply Z.mod_pos_bound; lia). rewrite fill_V_rd by lia.
    destruct (Z.eq_dec k 0) as [->|Hne].
    + rewrite Z.mul_0_r, Z.add_0_r, Z.mod_small by lia. assert ((offs' <=? offs' + i) && (offs' + i <? offs' + 64) = true) as -> by lia.
      replace (offs' + i - offs') with i by lia. by apply matrixing_exact.
    + assert ((offs' <=? (offs' + 64 * k + i) mod 1024) && ((offs' + 64 * k + i) mod 1024 <? offs' + 64) = false) as ->.
      { apply not_true_is_false. intros Hb. assert (exists q, offs' + 64 * k + i = 1024 * q + (offs' + 64 * k + i) mod 1024) as [q Eq] by (eexists; apply Z.div_mod; lia). lia. }
      assert ((offs' + 64 * k + i) mod 1024 = (offs + 64 * (k - 1) + i) mod 1024) as -> by (rewrite Eo; Z.to_euclidean_division_equations; lia).
      rewrite Hr by lia. replace (Z.to_nat k) with (S (Z.to_nat (k - 1))) by lia. done.
Qed.

(** ** Window and output *)
Lemma build_U_ok v offs : let U := build_U v offs (zeros 512) in
  zlen U = 512 /\ forall k, 0 <= k < 512 -> rd U k = rd v ((offs + 128 * (k / 64) + if k mod 64 <? 32 then k mod 64 else k mod 64 + 64) mod 1024).
Proof.
  cbv zeta. unfold build_U. set (want := fun k => rd v ((offs + 128 * (k / 64) + if k mod 64 <? 32 then k mod 64 else k mod 64 + 64) mod 1024)).
  apply (zfor_inv (fun a U => zlen U = 512 /\ forall k, 0 <= k < 64 * a -> rd U k = want k)); [lia|split; [done|intros; lia]|].
  intros a U Ha [HL HU].
  destruct (zfor_inv (fun b U => zlen U = 512 /\ (forall k, 0 <= k < 64 * a -> rd U k = want k) /\ (forall k, 0 <= k < b -> rd U (64 * a + k) = want (64 * a + k) /\ rd U (64 * a + 32 + k) = want (64 * a + 32 + k)))
    0 32 (fun j U => wr (wr U (Z.shiftl a 6 + j) (rd v (Z.land (offs + Z.shiftl a 7 + j) 1023))) (Z.shiftl a 6 + j + 32) (rd v (Z.land (offs + Z.shiftl a 7 + j + 96) 1023))) U) as (L & R1 & R2); [lia|split_and!; [done|done|intros; lia]| |].
  - intros b U' Hb (L & R1 & R2). rewrite !Z.shiftl_mul_pow2, !land_ring by lia. change (2 ^ 6) with 64. change (2 ^ 7) with 128. rewrite (Z.mul_comm a).
    split_and!; [by rewrite !zlen_wr|intros k Hk; rewrite !rd_wr_ne by lia; by apply R1|]. intros k Hk. destruct (Z.eq_dec k b) as [->|Hne].
    + rewrite rd_wr_ne, rd_wr_eq by lia. replace (64 * a + 32 + b) with (64 * a + b + 32) by lia. rewrite rd_wr_eq by (rewrite zlen_wr; lia).
      unfold want. replace ((64 * a + b) / 64) with a by (Z.to_euclidean_division_equations; lia). replace ((64 * a + b) mod 64) with b by (Z.to_euclidean_division_equations; lia).
      replace ((64 * a + b + 32) / 64) with a by (Z.to_euclidean_division_equations; lia). replace ((64 * a + b + 32) mod 64) with (b + 32) by (Z.to_euclidean_division_equations; lia).
      destruct (Z.ltb_spec b 32); [|lia]. destruct (Z.ltb_spec (b + 32) 32); [lia|]. split; do 2 f_equal; lia.
    + rewrite !rd_wr_ne by lia. apply R2. lia.
  - split; [done|]. intros k Hk. destruct (Z.lt_ge_cases k (64 * a)); [apply R1; lia|]. destruct (Z.lt_ge_cases k (64 * a + 32)).
    + replace k with (64 * a + (k - 64 * a)) by lia. apply R2. lia.
    + replace k with (64 * a + 32 + (k - 64 * a - 32)) by lia. apply R2. lia.
Qed.

Lemma window_U_ok U : zlen U = 512 -> zlen (window_U U) = 512 /\ forall k, 0 <= k < 512 -> rd (window_U U) k = Z.shiftr (i32 (i32 (rd U k * rd D k) + 32)) 6.
Proof.
  intros HL. unfold window_U. destruct (zfor_update_spec (fun i x => Z.shiftr (i32 (i32 (x * rd D i) + 32)) 6) 0 512 U) as [L R]; [lia|lia|lia|].
  split; [by rewrite L|]. intros k Hk. rewrite R. by assert ((0 <=? k) && (k <? 512) = true) as -> by lia.
Qed.

Section output.
Context (hist : list (list Z)) (Hhist : Forall subband_ok hist).

Lemma subband_nil : subband_ok [].
Proof. intros j. unfold rd. destruct (j <? 0); [lia|]. destruct (Z.to_nat j); cbn; lia. Qed.

Lemma hist_ok k : subband_ok (nth k hist []).
Proof. destruct (nth_in_or_default k hist []) as [Hin| ->]; [|apply subband_nil]. rewrite Forall_forall in Hhist. by apply Hhist. Qed.

Lemma window_max k : 0 <= k < 512 -> (v_max (k mod 64) + 1) * Z.abs (rd D k) + 32 < 2 ^ 31.
Proof. intros Hk. pose proof (range_check _ 512 k window_32 Hk) as H. cbv beta in H. lia. Qed.

Lemma window_exact row offs k :
  ring_holds_blocks row offs hist -> 0 <= k < 512 ->
  rd (window_U (build_U row offs (zeros 512))) k = window_ref hist k /\ Z.abs (window_ref hist k) <= 33554432.
Proof.
  intros (_ & Ho & _ & Hr) Hk. destruct (build_U_ok row offs) as [L R]. rewrite (proj2 (window_U_ok _ L)) by lia. rewrite R by lia. clear L R.
  set (b := k mod 64). assert (0 <= b < 64) as Hb by (apply Z.mod_pos_bound; lia). assert (0 <= k / 64 < 8) as Ha by (split; [apply Z.div_pos|apply Z.div_lt_upper_bound]; lia).
  assert (rd row ((offs + 128 * (k / 64) + (if b <? 32 then b else b + 64)) mod 1024) = u_ref hist k) as ->.
  { unfold u_ref. fold b. destruct (b <? 32).
    - rewrite <- Hr by lia. do 2 f_equal. lia.
    - rewrite <- Hr by lia. do 2 f_equal. lia. }
  assert (Z.abs (u_ref hist k) <= v_max b + 1) as Hu by (unfold u_ref; fold b; apply v_bound; [apply hist_ok|lia]).
  pose proof (window_max k Hk) as Hm. fold b in Hm. change (2 ^ 31) with 2147483648 in Hm. unfold window_ref. rewrite <- D_window by done. set (u := u_ref hist k) in *.
  assert (Z.abs (u * rd D k) + 32 < 2147483648) as Hp by (rewrite Z.abs_mul; nia). set (p := u * rd D k) in *.
  rewrite !i32_small by (rewrite ?i32_small; lia). rewrite Z.shiftr_div_pow2 by lia. change (2 ^ 6) with 64. split; [done|]. Z.to_euclidean_division_equations; lia.
Qed.

Lemma output_exact row offs j :
  ring_holds_blocks row offs hist -> 0 <= j < 32 -> output_sample (window_U (build_U row offs (zeros 512))) j = pcm_ref hist j.
Proof.
  intros Hrow Hj. unfold output_sample. set (U := window_U _).
  assert (forall m, 0 <= m -> m <= 16 -> zfor 0 m (fun i sum => i32 (sum - rd U (Z.shiftl i 5 + j))) 0 = - zsum m (fun i => window_ref hist (32 * i + j)) /\
    Z.abs (zsum m (fun i => window_ref hist (32 * i + j))) <= m * 33554432) as H.
  { intros m Hm. pattern m. apply natlike_ind; [..|done]; [intros _; rewrite zfor_done, zsum_0 by done; split; [done|lia]|].
    clear m Hm. intros m Hm IH H16. destruct (IH ltac:(lia)) as [E B]. rewrite <- Z.add_1_r, zfor_last, zsum_succ, E by lia.
    rewrite Z.shiftl_mul_pow2, (Z.mul_comm m) by lia. change (2 ^ 5) with 32. destruct (window_exact row offs (32 * m + j) Hrow ltac:(lia)) as [Ew Bw]. unfold U. rewrite Ew.
    rewrite i32_small by lia. split; lia. }
  destruct (H 16 ltac:(lia) ltac:(lia)) as [-> B]. unfold pcm_ref. set (x := zsum 16 _) in *. rewrite i32_small, Z.shiftr_div_pow2 by lia. change (2 ^ 4) with 16.
  replace (8 - x) with (- x + 8) by lia. set (y := (- x + 8) / 16). unfold clamp.
  assert ((if 32767 <? (if y <? -32768 then -32768 else y) then 32767 else (if y <? -32768 then -32768 else y)) = Z.max (-32768) (Z.min 32767 y)) as ->.
  { destruct (Z.ltb_spec y (-32768)); [destruct (Z.ltb_spec 32767 (-32768)); lia|]. destruct (Z.ltb_spec 32767 y); lia. }
  set (z := Z.max _ _). assert (-32768 <= z <= 32767) as Hz by lia. clearbody z. clear - Hz.
  unfold swrap, uwrap. change (2 ^ (16 - 1)) with 32768. change (2 ^ 16) with 65536. rewrite Zplus_mod_idemp_l. rewrite Z.mod_small by lia. lia.
Qed.
End output.

(** ** The samples of a granule *)
Lemma pcm_index : forallb (fun idx => forallb (fun j => forallb (fun ch => Z.lor (Z.lor (Z.shiftl idx 6) (Z.shiftl j 1)) ch =? 64 * idx + 2 * j + ch) (seqZ 0 2)) (seqZ 0 32)) (seqZ 0 3) = true.
Proof. by vm_compute. Qed.

Lemma pcm_index_eq idx j ch : 0 <= idx < 3 -> 0 <= j < 32 -> 0 <= ch < 2 -> Z.lor (Z.lor (Z.shiftl idx 6) (Z.shiftl j 1)) ch = 64 * idx + 2 * j + ch.
Proof.
  intros Hi Hj Hc. pose proof (range_check _ 2 ch (range_check _ 32 j (range_check _ 3 idx pcm_index Hi) Hj) Hc) as H. cbv beta in H. lia.
Qed.

Lemma write_channel (out : Z -> Z) idx base ch pcm :
  0 <= idx < 3 -> 0 <= ch < 2 -> 0 <= base -> base + 192 <= zlen pcm ->
  let pcm' := zfor 0 32 (fun j pcm => wr pcm (base + Z.lor (Z.lor (Z.shiftl idx 6) (Z.shiftl j 1)) ch) (out j)) pcm in
  zlen pcm' = zlen pcm /\ (forall j, 0 <= j < 32 -> rd pcm' (base + (64 * idx + 2 * j + ch)) = out j) /\
  (forall m, (forall j, 0 <= j < 32 -> m <> base + (64 * idx + 2 * j + ch)) -> rd pcm' m = rd pcm m).
Proof.
  intros Hi Hc Hb Hn. cbv zeta.
  apply (zfor_inv (fun c p => zlen p = zlen pcm /\ (forall j, 0 <= j < c -> rd p (base + (64 * idx + 2 * j + ch)) = out j) /\
    (forall m, (forall j, 0 <= j < c -> m <> base + (64 * idx + 2 * j + ch)) -> rd p m = rd pcm m))); [lia|split_and!; [done|intros; lia|done]|].
  intros j p Hj (L & R1 & R2). rewrite pcm_index_eq by done. split_and!; [by rewrite zlen_wr| |].
  - intros i Hji. destruct (Z.eq_dec i j) as [->|]; [rewrite rd_wr_eq by lia; done|]. rewrite rd_wr_ne by lia. apply R1. lia.
  - intros m Hm. rewrite rd_wr_ne by (specialize (Hm j ltac:(lia)); lia). apply R2. intros i Hi'. apply Hm. lia.
Qed.

(** The two channels, each with its history. *)
Record filter_state (h0 h1 : list (list Z)) (d : Mp2Decoder) : Prop := {
  fs_two : length (V d) = 2%nat;
  fs_ring0 : ring_holds_blocks (nth 0 (V d) []) (Voffs d) h0;
  fs_ring1 : ring_holds_blocks (nth 1 (V d) []) (Voffs d) h1;
  fs_hist0 : Forall subband_ok h0;
  fs_hist1 : Forall subband_ok h1
}.

Definition same_side (d d' : Mp2Decoder) : Prop :=
  allocation d' = allocation d /\ scfsi d' = scfsi d /\ scalefactor d' = scalefactor d /\ sample d' = sample d.

Definition hist_of (ch : Z) (h0 h1 : list (list Z)) : list (list Z) := if ch =? 0 then h0 else h1.

Definition put_channel (row : list Z) (offs idx base ch : Z) (pcm : list Z) : list Z :=
  zfor 0 32 (fun j pcm => wr pcm (base + Z.lor (Z.lor (Z.shiftl idx 6) (Z.shiftl j 1)) ch) (output_sample (window_U (build_U row offs (zeros 512))) j)) pcm.

Lemma channel_0 idx base v0 v1 offs al si sf sm nf ef pcm : let w0 := fill_V (nth 0 sm []) idx offs v0 in
  synthesis_channel idx base 0 (mkMp2Decoder [v0; v1] offs al si sf sm nf ef) pcm = (mkMp2Decoder [w0; v1] offs al si sf sm nf ef, put_channel w0 offs idx base 0 pcm).
Proof. reflexivity. Qed.

Lemma channel_1 idx base v0 v1 offs al si sf sm nf ef pcm : let w1 := fill_V (nth 1 sm []) idx offs v1 in
  synthesis_channel idx base 1 (mkMp2Decoder [v0; v1] offs al si sf sm nf ef) pcm = (mkMp2Decoder [v0; w1] offs al si sf sm nf ef, put_channel w1 offs idx base 1 pcm).
Proof. reflexivity. Qed.

(** One block of both channels. *)
Lemma block_step idx base h0 h1 d pcm :
  0 <= idx < 3 -> 0 <= base -> base + 192 <= zlen pcm -> filter_state h0 h1 d ->
  subband_ok (block_of (nth 0 (sample d) []) idx) -> subband_ok (block_of (nth 1 (sample d) []) idx) ->
  let '(d', pcm') := zfor 0 2 (fun ch '(d, pcm) => synthesis_channel idx base ch d pcm) (shift_V d, pcm) in
  let h0' := block_of (nth 0 (sample d) []) idx :: h0 in
  let h1' := block_of (nth 1 (sample d) []) idx :: h1 in
  filter_state h0' h1' d' /\ same_side d d' /\ zlen pcm' = zlen pcm /\
  (forall ch j, 0 <= ch < 2 -> 0 <= j < 32 -> rd pcm' (base + (64 * idx + 2 * j + ch)) = pcm_ref (hist_of ch h0' h1') j) /\
  (forall m, m < base + 64 * idx \/ base + 64 * idx + 64 <= m -> rd pcm' m = rd pcm m).
Proof.
  intros Hi Hb Hn [H2 R0 R1 F0 F1] S0 S1. destruct d as [v offs al si sf sm nf ef]. cbn [V Voffs sample] in *.
  destruct v as [|v0 [|v1 [|? ?]]]; try done. cbn [nth] in R0, R1.
  change (zfor 0 2 ?f ?s) with (f 1 (f 0 s)). cbv beta. unfold shift_V. cbn [V Voffs allocation scfsi scalefactor sample numberofFrames errorFrames].
  pose proof (ring_next v0 offs h0 _ idx R0 S0) as N0. pose proof (ring_next v1 offs h1 _ idx R1 S1) as N1. cbv zeta in N0, N1.
  set (offs' := Z.land (offs - 64) 1023) in *. set (s0 := nth 0 sm []) in *. set (s1 := nth 1 sm []) in *.
  rewrite channel_0. cbv zeta. fold s0. set (w0 := fill_V s0 idx offs' v0) in *. rewrite channel_1. cbv zeta. fold s1. set (w1 := fill_V s1 idx offs' v1) in *.
  destruct (write_channel (output_sample (window_U (build_U w0 offs' (zeros 512)))) idx base 0 pcm Hi ltac:(lia) Hb Hn) as (L0 & P0 & K0). fold (put_channel w0 offs' idx base 0 pcm) in L0, P0, K0.
  set (pcm0 := put_channel w0 offs' idx base 0 pcm) in *.
  destruct (write_channel (output_sample (window_U (build_U w1 offs' (zeros 512)))) idx base 1 pcm0 Hi ltac:(lia) Hb ltac:(lia)) as (L1 & P1 & K1). fold (put_channel w1 offs' idx base 1 pcm0) in L1, P1, K1.
  set (pcm1 := put_channel w1 offs' idx base 1 pcm0) in *.
  assert (Forall subband_ok (block_of s0 idx :: h0)) as F0' by (by constructor). assert (Forall subband_ok (block_of s1 idx :: h1)) as F1' by (by constructor).
  refine (conj _ (conj _ (conj _ (conj _ _)))); [|by split_and!|rewrite L1; exact L0| |].
  - split; [reflexivity|exact N0|exact N1|exact F0'|exact F1'].
  - intros ch j Hch Hj. assert (ch = 0 \/ ch = 1) as [->| ->] by lia; cbn [hist_of Z.eqb].
    + rewrite K1 by lia. rewrite P0 by lia. by apply output_exact.
    + rewrite P1 by lia. by apply output_exact.
  - intros m Hm. rewrite K1, K0 by lia. reflexivity.
Qed.

(** The history after block [idx] of the granule in [row]. *)
Definition after (row : list Z) (h : list (list Z)) (idx : Z) : list (list Z) := rev (map (block_of row) (seqZ 0 (idx + 1))) ++ h.
Definition row_of (ch : Z) (d : Mp2Decoder) : list Z := nth (Z.to_nat ch) (sample d) [].
Definition granule_valid (d : Mp2Decoder) : Prop := forall ch idx, 0 <= ch < 2 -> 0 <= idx < 3 -> subband_ok (block_of (row_of ch d) idx).

Lemma synthesis_spec base h0 h1 d pcm :
  0 <= base -> base + 192 <= zlen pcm -> filter_state h0 h1 d -> granule_valid d ->
  let '(d', pcm') := synthesis base (d, pcm) in
  filter_state (after (row_of 0 d) h0 2) (after (row_of 1 d) h1 2) d' /\ same_side d d' /\ zlen pcm' = zlen pcm /\
  (forall idx ch j, 0 <= idx < 3 -> 0 <= ch < 2 -> 0 <= j < 32 ->
     rd pcm' (base + (64 * idx + 2 * j + ch)) = pcm_ref (after (row_of ch d) (hist_of ch h0 h1) idx) j) /\
  (forall m, m < base \/ base + 192 <= m -> rd pcm' m = rd pcm m).
Proof.
  intros Hb Hn Hf Hv. unfold synthesis. change (zfor 0 3 ?f ?s) with (f 2 (f 1 (f 0 s))). cbv beta.
  assert (forall ch, 0 <= ch < 2 -> forall d', same_side d d' -> row_of ch d' = row_of ch d) as Hrow by (intros ch _ d' (_ & _ & _ & E); unfold row_of; by rewrite E).
  pose proof (block_step 0 base h0 h1 d pcm ltac:(lia) Hb Hn Hf (Hv 0 0 ltac:(lia) ltac:(lia)) (Hv 1 0 ltac:(lia) ltac:(lia))) as B0.
  destruct (zfor 0 2 (fun ch '(d, pcm) => synthesis_channel 0 base ch d pcm) (shift_V d, pcm)) as [d1 p1]. cbv zeta in B0. destruct B0 as (F1 & S1 & L1 & P1 & K1). cbv iota.
  change (nth 0 (sample d) []) with (row_of 0 d) in *. change (nth 1 (sample d) []) with (row_of 1 d) in *.
  pose proof (Hrow 0 ltac:(lia) d1 S1) as E10. pose proof (Hrow 1 ltac:(lia) d1 S1) as E11.
  pose proof (block_step 1 base _ _ d1 p1 ltac:(lia) Hb ltac:(lia) F1) as B1. change (nth 0 (sample d1) []) with (row_of 0 d1) in B1. change (nth 1 (sample d1) []) with (row_of 1 d1) in B1.
  rewrite E10, E11 in B1. specialize (B1 (Hv 0 1 ltac:(lia) ltac:(lia)) (Hv 1 1 ltac:(lia) ltac:(lia))).
  destruct (zfor 0 2 (fun ch '(d, pcm) => synthesis_channel 1 base ch d pcm) (shift_V d1, p1)) as [d2 p2]. cbv zeta in B1. destruct B1 as (F2 & S2 & L2 & P2 & K2). cbv iota.
  assert (same_side d d2) as S2' by (destruct S1 as (? & ? & ? & ?), S2 as (? & ? & ? & ?); split_and!; congruence).
  pose proof (Hrow 0 ltac:(lia) d2 S2') as E20. pose proof (Hrow 1 ltac:(lia) d2 S2') as E21.
  pose proof (block_step 2 base _ _ d2 p2 ltac:(lia) Hb ltac:(lia) F2) as B2. change (nth 0 (sample d2) []) with (row_of 0 d2) in B2. change (nth 1 (sample d2) []) with (row_of 1 d2) in B2.
  rewrite E20, E21 in B2. specialize (B2 (Hv 0 2 ltac:(lia) ltac:(lia)) (Hv 1 2 ltac:(lia) ltac:(lia))).
  destruct (zfor 0 2 (fun ch '(d, pcm) => synthesis_channel 2 base ch d pcm) (shift_V d2, p2)) as [d3 p3]. cbv zeta in B2. destruct B2 as (F3 & S3 & L3 & P3 & K3).
  refine (conj F3 (conj _ (conj _ (conj _ _)))).
  - destruct S2' as (? & ? & ? & ?), S3 as (? & ? & ? & ?). split_and!; congruence.
  - lia.
  - intros idx ch j Hi Hc Hj. assert (ch = 0 \/ ch = 1) as Hch by lia. assert (idx = 0 \/ idx = 1 \/ idx = 2) as [->|[->| ->]] by lia.
    + rewrite K3, K2, P1 by lia. by destruct Hch as [->| ->].
    + rewrite K3, P2 by lia. by destruct Hch as [->| ->].
    + rewrite P3 by lia. by destruct Hch as [->| ->].
  - intros m Hm. rewrite K3, K2, K1 by lia. done.
Qed.
