(* ===== verification/Mp2Frames.v ===== *)
(** * Decoding an encoded MPEG layer II frame

    A frame as ISO 11172-3 codes it - header, bit allocation, scale factor
    selection, scale factors, samples - and what the decoder makes of it: the
    output of the synthesis filter for the dequantized samples, with the blocks of
    the frames before it still in the filter.  Layout, tables and formulas of the
    reference are those of Mp2Standard.v. *)
From S2P Require Import Prelude BitExtractors BitFields Checked Mp2Tables Mp2Decoder Mp2Standard Mp2Properties Mp2Synthesis.
Open Scope Z_scope.

(** ** Reading what was written
    [m] takes the bits from position [p] on and returns something in [Q]. *)
Definition parsed {A} (l : list Z) (p : Z) (bits : list Z) (Q : A -> Prop) (m : option (A * Mp2Reader)) : Prop :=
  stands (unpack_bits l) p bits -> p + zlen bits + 23 <= 8 * zlen l -> exists a r', m = Some (a, r') /\ Q a /\ reader_at l (p + zlen bits) r'.

Section parsing.
Context (l : list Z) (Hl : Forall is_byte l).

Lemma parsed_bits p n v r : 0 <= p -> 0 <= n <= 16 -> 0 <= v < 2 ^ n -> reader_at l p r -> parsed l p (msb n v) (fun x => x = v) (mp2_get_bits l n r).
Proof.
  intros Hp Hn Hv Hr Hs Hin. rewrite zlen_msb in * by lia. destruct (get_bits_ok l Hl n p r Hp Hn Hr Hin) as (r' & E & Hr').
  exists v, r'. split; [|done]. rewrite E. by rewrite (field_stands _ _ _ v) by (done || lia).
Qed.

Lemma parsed_ret {A} p (Q : A -> Prop) a r : reader_at l p r -> Q a -> parsed l p [] Q (Some (a, r)).
Proof. intros Hr Ha _ _. exists a, r. split; [done|]. change (zlen []) with 0. by rewrite Z.add_0_r. Qed.

Lemma parsed_bind {A B} p b1 b2 (Q1 : A -> Prop) (Q2 : B -> Prop) m f :
  parsed l p b1 Q1 m -> (forall a r, Q1 a -> reader_at l (p + zlen b1) r -> parsed l (p + zlen b1) b2 Q2 (f (a, r))) -> parsed l p (b1 ++ b2) Q2 (m ≫= f).
Proof.
  intros H1 H2 Hs Hin. apply stands_app in Hs as [Hs1 Hs2]. rewrite zlen_app in *. pose proof (zlen_nonneg b2).
  destruct (H1 Hs1 ltac:(lia)) as (a & r & -> & Ha & Hr). destruct (H2 a r Ha Hr Hs2 ltac:(lia)) as (b & r' & E & Hb & Hr'). exists b, r'. split; [done|]. by rewrite Z.add_assoc.
Qed.

(** ... when nothing follows. *)
Lemma parsed_map {A B} p bits (Q1 : A -> Prop) (Q2 : B -> Prop) m f :
  parsed l p bits Q1 m -> (forall a r, Q1 a -> exists b, f (a, r) = Some (b, r) /\ Q2 b) -> parsed l p bits Q2 (m ≫= f).
Proof.
  intros H Hf. rewrite <- (app_nil_r bits). apply parsed_bind with (Q1 := Q1); [done|]. intros a r Ha Hr. destruct (Hf a r Ha) as (b & -> & Hb). by apply parsed_ret.
Qed.

Lemma parsed_loop {S} (enc : Z -> list Z) (I : Z -> S -> Prop) p lo hi body s r :
  0 <= p -> lo <= hi -> reader_at l p r -> I lo s ->
  (forall i p s r, lo <= i < hi -> 0 <= p -> I i s -> reader_at l p r -> parsed l p (enc i) (I (i + 1)) (body i (s, r))) ->
  parsed l p (flat_map enc (seqZ lo (hi - lo))) (I hi) (zforM lo hi body (s, r)).
Proof.
  intros Hp Hlo Hr HI Hb Hs Hin.
  set (done_ := fun i => flat_map enc (seqZ lo (i - lo))).
  assert (forall i, lo <= i -> done_ (i + 1) = done_ i ++ enc i) as Hd.
  { intros i Hi. unfold done_. replace (i + 1 - lo) with (i - lo + 1) by lia. rewrite seqZ_app, flat_map_app by lia. f_equal.
    replace (lo + (i - lo)) with i by lia. rewrite seqZ_cons, seqZ_nil by lia. cbn [flat_map]. by rewrite app_nil_r. }
  assert (forall i, lo <= i <= hi -> exists more, flat_map enc (seqZ lo (hi - lo)) = done_ i ++ more) as Hpre.
  { intros i Hi. exists (flat_map enc (seqZ i (hi - i))). unfold done_. rewrite <- flat_map_app. f_equal.
    replace (hi - lo) with (i - lo + (hi - i)) by lia. rewrite seqZ_app by lia. do 2 f_equal. lia. }
  destruct (zforM_inv (fun i '(s', r') => I i s' /\ reader_at l (p + zlen (done_ i)) r') lo hi body (s, r)) as ([s' r'] & E & HI' & Hr'); [done| |..].
  - unfold done_. rewrite Z.sub_diag, seqZ_nil by lia. change (zlen (flat_map enc [])) with 0. by rewrite Z.add_0_r.
  - intros i [s1 r1] Hi (HI1 & Hr1). destruct (Hpre (i + 1) ltac:(lia)) as [more Em]. rewrite Em, Hd, <- app_assoc in Hs, Hin by lia.
    apply stands_app in Hs as [_ Hs]. apply stands_app in Hs as [Hs _]. rewrite !zlen_app in Hin. pose proof (zlen_nonneg more). pose proof (zlen_nonneg (done_ i)).
    destruct (Hb i (p + zlen (done_ i)) s1 r1 Hi ltac:(lia) HI1 Hr1 Hs ltac:(lia)) as (s2 & r2 & E2 & HI2 & Hr2). exists (s2, r2). split; [exact E2|].
    split; [done|]. rewrite Hd, zlen_app by lia. by rewrite Z.add_assoc.
  - exists s', r'. split; [exact E|]. by split.
Qed.
End parsing.

(** ** The frame *)
Record mp2_frame := mkFrame {
  f_mpeg2 : bool;
  f_crc : option Z;
  f_rate : Z; f_freq : Z; f_padding : Z; f_private : Z; f_mode : Z; f_ext : Z; f_rest : Z;
  f_alloc : Z -> Z -> Z;          (* channel, subband *)
  f_scfsi : Z -> Z -> Z;
  f_scf : Z -> Z -> Z -> Z;       (* channel, subband, part *)
  f_code : Z -> Z -> Z -> Z -> Z  (* granule, channel, subband, sample *)
}.

Definition f_channels (f : mp2_frame) : Z := if f_mode f =? 3 then 1 else 2.
Definition f_table (f : mp2_frame) : alloc_table := table_for (f_mpeg2 f) (f_rate f) (f_freq f) (f_channels f).
Definition f_sblimit (f : mp2_frame) : Z := subbands (f_table f).

(** From here on the channels share the code words: all of a single channel, and
    from the subband of the mode extension on in joint stereo. *)
Definition f_bound (f : mp2_frame) : Z := if f_mode f =? 3 then 0 else if f_mode f =? 1 then Z.min (f_sblimit f) (4 * (f_ext f + 1)) else f_sblimit f.
Definition f_bytes (f : mp2_frame) : Z := layer2_bytes (f_mpeg2 f) (f_rate f) (f_freq f) (f_padding f).

(** From [bound] on both channels have what the first one has. *)
Definition source (f : mp2_frame) (ch sb : Z) : Z := if sb <? f_bound f then ch else 0.
Definition nbal (f : mp2_frame) (sb : Z) : Z := alloc_bits (f_table f) sb.
Definition f_levels (f : mp2_frame) (ch sb : Z) : Z := alloc_levels (f_table f) sb (f_alloc f (source f ch sb) sb).

Definition enc_header (f : mp2_frame) : list Z :=
  msb 12 0xFFF ++ msb 1 (b2z (negb (f_mpeg2 f))) ++ msb 2 2 ++ msb 1 (match f_crc f with Some _ => 0 | None => 1 end) ++
  msb 4 (f_rate f) ++ msb 2 (f_freq f) ++ msb 1 (f_padding f) ++ msb 1 (f_private f) ++ msb 2 (f_mode f) ++ msb 2 (f_ext f) ++ msb 4 (f_rest f) ++
  match f_crc f with Some c => msb 16 c | None => [] end.

Definition enc_alloc (f : mp2_frame) : list Z :=
  flat_map (fun sb => flat_map (fun ch => msb (nbal f sb) (f_alloc f ch sb)) (seqZ 0 2)) (seqZ 0 (f_bound f)) ++
  flat_map (fun sb => msb (nbal f sb) (f_alloc f 0 sb)) (seqZ (f_bound f) (f_sblimit f - f_bound f)).

Definition enc_scfsi (f : mp2_frame) : list Z :=
  flat_map (fun sb => flat_map (fun ch => if f_levels f ch sb =? 0 then [] else msb 2 (f_scfsi f ch sb)) (seqZ 0 (f_channels f))) (seqZ 0 (f_sblimit f)).

Definition enc_scf1 (f : mp2_frame) (ch sb : Z) : list Z :=
  let s := f_scf f ch sb in
  if f_scfsi f ch sb =? 0 then msb 6 (s 0) ++ msb 6 (s 1) ++ msb 6 (s 2)
  else if f_scfsi f ch sb =? 1 then msb 6 (s 0) ++ msb 6 (s 2)
  else if f_scfsi f ch sb =? 2 then msb 6 (s 0)
  else msb 6 (s 0) ++ msb 6 (s 1).

Definition enc_scf (f : mp2_frame) : list Z :=
  flat_map (fun sb => flat_map (fun ch => if f_levels f ch sb =? 0 then [] else enc_scf1 f ch sb) (seqZ 0 (f_channels f))) (seqZ 0 (f_sblimit f)).

Definition enc_codes (q : SQuantizerSpec) (c : Z -> Z) : list Z :=
  if grouping q then msb (cw_bits q) (c 0 + nlevels q * (c 1 + nlevels q * c 2))
  else msb (cw_bits q) (c 0) ++ msb (cw_bits q) (c 1) ++ msb (cw_bits q) (c 2).

Definition enc_samples (f : mp2_frame) (g ch sb : Z) : list Z :=
  if f_levels f ch sb =? 0 then [] else enc_codes (quantizer_of (f_levels f ch sb)) (f_code f g ch sb).

Definition enc_granule (f : mp2_frame) (g : Z) : list Z :=
  flat_map (fun sb => flat_map (fun ch => enc_samples f g ch sb) (seqZ 0 2)) (seqZ 0 (f_bound f)) ++
  flat_map (fun sb => enc_samples f g 0 sb) (seqZ (f_bound f) (f_sblimit f - f_bound f)).

Definition enc_frame (f : mp2_frame) : list Z :=
  enc_header f ++ enc_alloc f ++ enc_scfsi f ++ enc_scf f ++
  flat_map (fun part => flat_map (fun gr => enc_granule f (4 * part + gr)) (seqZ 0 4)) (seqZ 0 3).

(** The fields fit, and the selection says which scale factors are alike. *)
Definition code_ok (q : SQuantizerSpec) (c : Z) : Prop := 0 <= c < if grouping q then nlevels q else 2 ^ cw_bits q.
Definition scf_ok (si : Z) (s : Z -> Z) : Prop :=
  (forall part, 0 <= part < 3 -> 0 <= s part < 64) /\ 0 <= si < 4 /\
  (si = 1 -> s 1 = s 0) /\ (si = 2 -> s 1 = s 0 /\ s 2 = s 0) /\ (si = 3 -> s 2 = s 1).

Record frame_ok (f : mp2_frame) : Prop := {
  fo_rate : 1 <= f_rate f <= 14;
  fo_freq : 0 <= f_freq f <= 2;
  fo_bits : 0 <= f_padding f < 2 /\ 0 <= f_private f < 2 /\ 0 <= f_mode f < 4 /\ 0 <= f_ext f < 4 /\ 0 <= f_rest f < 16;
  fo_crc : match f_crc f with Some c => 0 <= c < 65536 | None => True end;
  fo_alloc : forall ch sb, 0 <= ch < 2 -> 0 <= sb < f_sblimit f -> 0 <= f_alloc f ch sb < 2 ^ nbal f sb;
  fo_last : forall ch sb, 0 <= ch < 2 -> 0 <= sb < f_sblimit f -> last_code (f_table f) sb (f_alloc f ch sb) = false;
  fo_scf : forall ch sb, 0 <= ch < 2 -> 0 <= sb < f_sblimit f -> f_levels f ch sb <> 0 -> scf_ok (f_scfsi f ch sb) (f_scf f ch sb);
  fo_code : forall g ch sb i, 0 <= g < 12 -> 0 <= ch < 2 -> 0 <= sb < f_sblimit f -> 0 <= i < 3 -> f_levels f ch sb <> 0 -> code_ok (quantizer_of (f_levels f ch sb)) (f_code f g ch sb i)
}.

(** What the decoder's header record has for such a frame. *)
Definition frame_header (f : mp2_frame) : Mp2Header :=
  mkHeader (if f_mpeg2 f then f_rate f - 1 + 14 else f_rate f - 1) (if f_mpeg2 f then f_freq f + 4 else f_freq f) (f_padding f) (f_mode f)
    (if f_mode f =? 1 then 4 * (f_ext f + 1) else if f_mode f =? 3 then 0 else 32).

(** ** Two-row arrays *)
Definition sized (n : Z) (a : list (list Z)) : Prop := length a = 2%nat /\ Forall (fun row => zlen row = n) a.

Lemma sized_row n a ch : sized n a -> 0 <= ch < 2 -> zlen (nth (Z.to_nat ch) a []) = n.
Proof. intros [H2 Hn] Hch. rewrite Forall_forall in Hn. apply Hn, nth_In. lia. Qed.

Lemma sized_wr2 n a ch i v : sized n a -> 0 <= ch < 2 -> sized n (wr2 a ch i v).
Proof.
  intros Ha Hch. pose proof (sized_row n a ch Ha Hch) as Hr. destruct Ha as [H2 Hn]. unfold wr2, wr at 1. destruct (ch <? 0); [done|].
  split; [by rewrite length_insert|]. apply Forall_insert; [done|]. by rewrite zlen_wr.
Qed.

Lemma rd2_wr2_two n a ch i v ch' i' : sized n a -> 0 <= ch < 2 -> 0 <= i < n -> 0 <= ch' < 2 ->
  rd2 (wr2 a ch i v) ch' i' = if (ch' =? ch) && (i' =? i) then v else rd2 a ch' i'.
Proof.
  intros Ha Hch Hi Hch'. pose proof (sized_row n a ch Ha Hch) as Hr. destruct Ha as [H2 Hn]. unfold rd2, wr2, wr at 1. destruct (Z.ltb_spec ch 0); [lia|].
  rewrite (nth_lookup (<[_ := _]> a)). destruct (Z.eqb_spec ch' ch) as [->|Hne].
  - rewrite list_lookup_insert_eq by lia. cbn [default from_option andb]. unfold id. destruct (Z.eqb_spec i' i) as [->|]; [by rewrite rd_wr_eq by lia|by rewrite rd_wr_ne].
  - rewrite list_lookup_insert_ne by lia. by rewrite <- nth_lookup.
Qed.

Lemma sized_wr3 n a ch sb x y z : sized n a -> 0 <= ch < 2 -> sized n (wr3 a ch sb x y z).
Proof. intros Ha Hch. unfold wr3. by repeat apply sized_wr2. Qed.

Lemma rd2_wr3 a ch sb x y z ch' sb' part : sized 96 a -> 0 <= ch < 2 -> 0 <= sb < 32 -> 0 <= ch' < 2 -> 0 <= part < 3 ->
  rd2 (wr3 a ch sb x y z) ch' (3 * sb' + part) =
  if (ch' =? ch) && (sb' =? sb) then (if part =? 0 then x else if part =? 1 then y else z) else rd2 a ch' (3 * sb' + part).
Proof.
  intros Ha Hch Hsb Hch' Hp. unfold wr3. rewrite !(rd2_wr2_two 96) by (lia || (by repeat apply sized_wr2)).
  destruct (Z.eqb_spec ch' ch); cbn [andb]; [|done].
  destruct (Z.eqb_spec (3 * sb' + part) (3 * sb + 2)), (Z.eqb_spec (3 * sb' + part) (3 * sb + 1)), (Z.eqb_spec (3 * sb' + part) (3 * sb)), (Z.eqb_spec sb' sb), (Z.eqb_spec part 0), (Z.eqb_spec part 1); lia || done.
Qed.

(** ** Dequantization within 17 bits *)
Lemma resolve_range : forallb (fun s => (0 <=? resolve_scalefactor s) && (resolve_scalefactor s <=? 33554432)) (seqZ 0 64) = true.
Proof. by vm_compute. Qed.

Lemma scale_range k : 0 <= k < 64 -> 0 <= resolve_scalefactor k <= 33554432.
Proof. intros Hk. pose proof (range_check _ 64 k resolve_range Hk) as H. cbv beta in H. lia. Qed.

Lemma positive_levels : forallb (fun q => 0 <? nlevels q) quantizer_table = true.
Proof. by vm_compute. Qed.
Lemma levels_positive q : In q quantizer_table -> 0 < nlevels q.
Proof. intros Hin. pose proof positive_levels as H. rewrite forallb_forall in H. specialize (H q Hin). cbv beta in H. lia. Qed.

(** Without overflow, and with the value of the fraction rounded down. *)
Lemma requantize_exact n scf c val :
  val = (Z.shiftr (n + 1) 1 - 1 - c) * Z.quot 65536 (n + 1) -> - 32768 <= val <= 32768 -> 0 <= scf <= 33554432 ->
  requantize n scf c = (val * scf + 2048) / 16777216 /\ -65536 <= requantize n scf c <= 65536.
Proof.
  intros -> Hv Hs. unfold requantize. set (val := _ * _) in *. clearbody val. rewrite (i32_small val) by lia.
  change 4095 with (Z.ones 12). rewrite Z.land_ones, !Z.shiftr_div_pow2 by lia. change (2 ^ 12) with 4096.
  pose proof (Z.mod_pos_bound scf 4096 ltac:(lia)) as Hlo. pose proof (Z.div_mod scf 4096 ltac:(lia)) as Ediv. set (hi := scf / 4096) in *. set (lo := scf mod 4096) in *.
  assert (0 <= hi <= 8192) as Hhi by lia. assert (- 268435456 <= val * hi <= 268435456) as P1 by nia. assert (- 134217728 <= val * lo <= 134217728) as P2 by nia.
  rewrite (i32_small (val * hi)), (i32_small (val * lo)), (i32_small (val * lo + 2048)) by lia.
  pose proof (Z.div_mod (val * lo + 2048) 4096 ltac:(lia)) as E2. pose proof (Z.mod_pos_bound (val * lo + 2048) 4096 ltac:(lia)) as M2. set (m := (val * lo + 2048) / 4096) in *.
  assert (- 268435456 <= val * hi + m <= 268435456) as P3.
  { assert (4096 * (val * hi) + val * lo = val * scf) as Es by (rewrite Ediv; ring). assert (- 1099511627776 <= val * scf <= 1099511627776) as Pv by nia.
    destruct (Z.eq_dec hi 8192); [assert (lo = 0) as Elo by lia; rewrite Elo in *; lia|]. assert (- 268402688 <= val * hi <= 268402688) as P4 by nia. lia. }
  rewrite i32_small by lia. split; [apply (two_products val scf)|]. split; [apply Z.div_le_lower_bound; lia|apply Z.div_le_upper_bound; lia].
Qed.

Lemma code_values : forallb (fun q => (- 32768 <=? (Z.shiftr (nlevels q + 1) 1 - 1) * Z.quot 65536 (nlevels q + 1)) && ((Z.shiftr (nlevels q + 1) 1 - 1) * Z.quot 65536 (nlevels q + 1) <=? 32768) &&
  (let last := (if grouping q then nlevels q else 2 ^ cw_bits q) - 1 in
   (- 32768 <=? (Z.shiftr (nlevels q + 1) 1 - 1 - last) * Z.quot 65536 (nlevels q + 1)) && (0 <=? Z.quot 65536 (nlevels q + 1)))) quantizer_table = true.
Proof. by vm_compute. Qed.

Lemma code_value q c : In q quantizer_table -> code_ok q c -> - 32768 <= (Z.shiftr (nlevels q + 1) 1 - 1 - c) * Z.quot 65536 (nlevels q + 1) <= 32768.
Proof.
  intros Hq Hc. pose proof code_values as H. rewrite forallb_forall in H. specialize (H q Hq). cbv beta zeta in H. unfold code_ok in Hc.
  set (adj := Z.shiftr (nlevels q + 1) 1 - 1) in *. set (scale := Z.quot 65536 (nlevels q + 1)) in *. set (top := if grouping q then nlevels q else 2 ^ cw_bits q) in *. zbool. nia.
Qed.

Lemma quantizer_levels n : nlevels (quantizer_of n) = n.
Proof. unfold quantizer_of. destruct (Z.eqb_spec n 3) as [->|]; [done|]. destruct (Z.eqb_spec n 5) as [->|]; [done|]. by destruct (Z.eqb_spec n 9) as [->|]. Qed.

(** The sample of a code word, and its range. *)
Lemma dequantize_code n q k c : q = quantizer_of n -> In q quantizer_table -> code_ok q c -> 0 <= k < 64 ->
  requantize (nlevels q) (resolve_scalefactor k) c = dequantized n k c.
Proof.
  intros -> Hq Hc Hk. destruct (requantize_exact _ (resolve_scalefactor k) c _ eq_refl (code_value _ c Hq Hc) (scale_range k Hk)) as [-> _].
  rewrite quantizer_levels, resolve_scale by done. unfold dequantized. rewrite Z.shiftr_div_pow2 by lia. change (2 ^ 1) with 2.
  rewrite Z.quot_div_nonneg; [done|lia|]. assert (0 < nlevels (quantizer_of n)) as Hn by by apply levels_positive. rewrite quantizer_levels in Hn. lia.
Qed.

Lemma dequantized_range n k c : In (quantizer_of n) quantizer_table -> code_ok (quantizer_of n) c -> 0 <= k < 64 -> -65536 <= dequantized n k c <= 65536.
Proof.
  intros Hq Hc Hk. rewrite <- (dequantize_code n _ k c eq_refl) by done.
  by destruct (requantize_exact _ (resolve_scalefactor k) c _ eq_refl (code_value _ c Hq Hc) (scale_range k Hk)) as [_ H].
Qed.

(** ** Side information *)
Section frame.
Context (l : list Z) (Hl : Forall is_byte l) (f : mp2_frame) (Hf : frame_ok f).

Lemma bound_facts : 0 <= f_bound f <= f_sblimit f /\ f_sblimit f <= 30.
Proof.
  assert (0 <= f_sblimit f <= 30) as H by (unfold f_sblimit; destruct (f_table f); cbn; lia). unfold f_bound. destruct Hf as [_ _ (_ & _ & _ & He & _) _ _ _ _ _].
  repeat case_match; lia.
Qed.

Lemma bound_code : f_bound f = if f_sblimit f <? h_bound (frame_header f) then f_sblimit f else h_bound (frame_header f).
Proof.
  assert (0 <= f_sblimit f <= 30) as H by (unfold f_sblimit; destruct (f_table f); cbn; lia). unfold f_bound, frame_header. cbn [h_bound].
  destruct (Z.eqb_spec (f_mode f) 3) as [->|]; cbn; [by destruct (Z.ltb_spec (f_sblimit f) 0); lia|]. destruct (f_mode f =? 1); case_match; lia.
Qed.

Lemma lookup_code : quantizer_lookup (frame_header f) = (code_table (f_table f), f_sblimit f) /\ mp2_frame_size (frame_header f) = f_bytes f.
Proof. destruct Hf as [Hr Hq (Hp & _ & Hm & _) _ _ _ _ _]. apply lookup_table; lia. Qed.

(** What the decoder makes of the allocation of a subband. *)
Lemma levels_code ch sb : 0 <= ch < 2 -> 0 <= sb < f_sblimit f ->
  rd2 quant_lut_step4 (Z.land (rd2 quant_lut_step3 (code_table (f_table f)) sb) 15) (f_alloc f (source f ch sb) sb) = class_of (f_levels f ch sb) /\
  0 <= class_of (f_levels f ch sb) <= 17 /\ (class_of (f_levels f ch sb) =? 0) = (f_levels f ch sb =? 0) /\
  (f_levels f ch sb <> 0 -> nth (Z.to_nat (class_of (f_levels f ch sb) - 1)) quantizer_table (mkSpec 0 false 0) = quantizer_of (f_levels f ch sb)).
Proof.
  intros Hch Hsb. assert (0 <= source f ch sb < 2) as Hs by (unfold source; destruct (_ <? _); lia).
  apply alloc_code; [done|by apply (fo_alloc f Hf)|by apply (fo_last f Hf)].
Qed.

Lemma quantizer_in ch sb : 0 <= ch < 2 -> 0 <= sb < f_sblimit f -> f_levels f ch sb <> 0 -> In (quantizer_of (f_levels f ch sb)) quantizer_table.
Proof. intros Hch Hsb Hne. destruct (levels_code ch sb Hch Hsb) as (_ & Hr & E & H). rewrite <- (H Hne). apply nth_In. cbn [length quantizer_table]. lia. Qed.

Lemma source_first sb : source f 0 sb = 0.
Proof. unfold source. by destruct (_ <? _). Qed.

Lemma f_levels_same sb : f_bound f <= sb -> f_levels f 1 sb = f_levels f 0 sb.
Proof. intros H. unfold f_levels, source. by assert ((sb <? f_bound f) = false) as -> by lia. Qed.

Lemma nbal_range sb : 0 <= nbal f sb <= 4.
Proof. apply alloc_bits_range. Qed.

Lemma parsed_allocation p ch sb r : 0 <= p -> 0 <= ch < 2 -> 0 <= sb < f_sblimit f -> reader_at l p r ->
  parsed l p (msb (nbal f sb) (f_alloc f (source f ch sb) sb)) (fun a => a = class_of (f_levels f ch sb)) (read_allocation l sb (code_table (f_table f)) r).
Proof.
  intros Hp Hch Hsb Hr. unfold read_allocation. destruct (tables_agree (f_table f) sb Hsb) as [-> _]. fold (nbal f sb). pose proof (nbal_range sb). assert (0 <= source f ch sb < 2) as Hs by (unfold source; destruct (_ <? _); lia).
  apply parsed_map with (Q1 := fun x => x = f_alloc f (source f ch sb) sb); [apply parsed_bits; [done|done|lia|by apply (fo_alloc f Hf)|done]|].
  intros a r' ->. eexists. split; [reflexivity|]. by apply levels_code.
Qed.

Lemma parsed_allocations p al r : 0 <= p -> sized 32 al -> reader_at l p r ->
  parsed l p (enc_alloc f) (fun al => sized 32 al /\ forall ch sb, 0 <= ch < 2 -> 0 <= sb < f_sblimit f -> rd2 al ch sb = class_of (f_levels f ch sb))
    (read_allocations l (f_bound f) (f_sblimit f) (code_table (f_table f)) (al, r)).
Proof.
  intros Hp Hal Hr. destruct bound_facts as [Hb H30]. unfold read_allocations, enc_alloc.
  set (I := fun sb' al => sized 32 al /\ forall ch sb, 0 <= ch < 2 -> 0 <= sb < sb' -> rd2 al ch sb = class_of (f_levels f ch sb)).
  change (fun al => sized 32 al /\ forall ch sb, 0 <= ch < 2 -> 0 <= sb < f_sblimit f -> rd2 al ch sb = class_of (f_levels f ch sb)) with (I (f_sblimit f)).
  apply parsed_bind with (Q1 := I (f_bound f)).
  - rewrite <- (Z.sub_0_r (f_bound f)) at 1. apply parsed_loop; [done|lia|done|split; [done|intros; lia]|]. intros sb p1 a1 r1 Hsb Hp1 [Hs1 Ha1] Hr1.
    change 2 with (2 - 0) at 1.
    set (J := fun c al => sized 32 al /\ (forall ch sb', 0 <= ch < 2 -> 0 <= sb' < sb -> rd2 al ch sb' = class_of (f_levels f ch sb')) /\ forall ch, 0 <= ch < c -> rd2 al ch sb = class_of (f_levels f ch sb)).
    assert (parsed l p1 (flat_map (fun ch => msb (nbal f sb) (f_alloc f ch sb)) (seqZ 0 (2 - 0))) (J 2)
      (zforM 0 2 (fun ch '(al, r) => '(a, r) ← read_allocation l sb (code_table (f_table f)) r; Some (wr2 al ch sb a, r)) (a1, r1))) as H.
    + apply parsed_loop; [done|lia|done|split_and!; [done|done|intros; lia]|]. intros ch p2 a2 r2 Hch Hp2 (Hs2 & Ha2 & Hc2) Hr2.
      assert (f_alloc f ch sb = f_alloc f (source f ch sb) sb) as -> by (unfold source; by assert ((sb <? f_bound f) = true) as -> by lia).
      eapply parsed_map; [apply parsed_allocation; try done; lia|]. intros a r3 ->. eexists. split; [reflexivity|]. split_and!; [by apply sized_wr2; try lia|..].
      * intros ch' sb' Hch' Hsb'. rewrite (rd2_wr2_two 32) by (done || lia). assert ((sb' =? sb) = false) as -> by lia. rewrite andb_false_r. by apply Ha2.
      * intros ch' Hch'. rewrite (rd2_wr2_two 32) by (done || lia). rewrite Z.eqb_refl, andb_true_r. destruct (Z.eqb_spec ch' ch) as [->|]; [done|]. apply Hc2. lia.
    + intros Hst Hin. destruct (H Hst Hin) as (a & r' & E & (Hs' & Ha' & Hc') & Hr'). exists a, r'. split; [exact E|]. split; [|done]. split; [done|].
      intros ch sb' Hch Hsb'. destruct (Z.eq_dec sb' sb) as [->|]; [by apply Hc'|apply Ha'; lia].
  - intros a1 r1 Ha1 Hr1. pose proof (zlen_nonneg (flat_map (fun sb => flat_map (fun ch => msb (nbal f sb) (f_alloc f ch sb)) (seqZ 0 2)) (seqZ 0 (f_bound f)))).
    apply parsed_loop; [lia|lia|done|done|]. intros sb p2 a2 r2 Hsb Hp2 [Hs2 Ha2] Hr2.
    pose proof (parsed_allocation p2 0 sb r2 Hp2 ltac:(lia) ltac:(lia) Hr2) as HA. rewrite source_first in HA. eapply parsed_map; [exact HA|]. intros a r3 ->. eexists. split; [reflexivity|]. split; [apply sized_wr2; [apply sized_wr2; [exact Hs2|lia]|lia]|].
    intros ch sb' Hch Hsb'. rewrite !(rd2_wr2_two 32) by (lia || (by repeat (apply sized_wr2; [|lia]))). destruct (Z.eqb_spec sb' sb) as [->|]; [|rewrite !andb_false_r; apply Ha2; lia].
    rewrite !andb_true_r. assert (ch = 0 \/ ch = 1) as [->| ->] by lia; [done|]. cbn [Z.eqb]. f_equal. symmetry. apply f_levels_same. lia.
Qed.

(** The scale factors of the first channel are those of both when there is one. *)
Definition scf_source (ch : Z) : Z := if f_channels f =? 1 then 0 else ch.
Definition allocated (al : list (list Z)) : Prop := forall ch sb, 0 <= ch < 2 -> 0 <= sb < f_sblimit f -> rd2 al ch sb = class_of (f_levels f ch sb).

Lemma channels_range : f_channels f = 2 \/ f_channels f = 1 /\ f_bound f = 0.
Proof.
  unfold f_channels. destruct (Z.eqb_spec (f_mode f) 3) as [E|]; [right|by left]. split; [done|].
  unfold f_bound. by rewrite E.
Qed.

Lemma mono_same sb : 0 <= sb -> f_channels f = 1 -> f_levels f 1 sb = f_levels f 0 sb.
Proof. intros Hsb H. destruct channels_range as [E|[_ E]]; [lia|]. apply f_levels_same. lia. Qed.

Lemma parsed_scfsi p al si r : 0 <= p -> sized 32 si -> allocated al -> reader_at l p r ->
  parsed l p (enc_scfsi f) (fun si => sized 32 si /\ forall ch sb, 0 <= ch < 2 -> 0 <= sb < f_sblimit f -> f_levels f ch sb <> 0 -> rd2 si ch sb = f_scfsi f (scf_source ch) sb)
    (read_scfsi l al (f_channels f) (f_sblimit f) (si, r)).
Proof.
  intros Hp Hsi Hal Hr. pose proof bound_facts as [_ H30]. unfold read_scfsi, enc_scfsi. rewrite <- (Z.sub_0_r (f_sblimit f)) at 1.
  set (I := fun sb' si => sized 32 si /\ forall ch sb, 0 <= ch < 2 -> 0 <= sb < sb' -> f_levels f ch sb <> 0 -> rd2 si ch sb = f_scfsi f (scf_source ch) sb).
  apply (parsed_loop l _ I); [done|pose proof bound_facts; lia|done|split; [done|intros; lia]|]. intros sb p1 s1 r1 Hsb Hp1 [Hs1 Ha1] Hr1.
  set (J := fun c si => sized 32 si /\ (forall ch sb', 0 <= ch < 2 -> 0 <= sb' < sb -> f_levels f ch sb' <> 0 -> rd2 si ch sb' = f_scfsi f (scf_source ch) sb') /\
    forall ch, 0 <= ch < c -> f_levels f ch sb <> 0 -> rd2 si ch sb = f_scfsi f ch sb).
  apply parsed_map with (Q1 := J (f_channels f)).
  - rewrite <- (Z.sub_0_r (f_channels f)) at 1. apply (parsed_loop l _ J); [done|destruct channels_range as [E|[E _]]; lia|done|split_and!; [done|done|intros; lia]|].
    intros ch p2 s2 r2 Hch Hp2 (Hs2 & Ha2 & Hc2) Hr2. assert (0 <= ch < 2) as Hch2 by (destruct channels_range as [E|[E _]]; lia). rewrite Hal by lia. destruct (levels_code ch sb Hch2 Hsb) as (_ & _ & -> & _). destruct (Z.eqb_spec (f_levels f ch sb) 0) as [E0|Hne].
    + apply parsed_ret; [done|]. split_and!; [done|done|]. intros ch' Hch' Hq. destruct (Z.eq_dec ch' ch) as [->|]; [done|]. apply Hc2; [lia|done].
    + destruct (fo_scf f Hf ch sb Hch2 Hsb Hne) as (_ & Hv & _).
      eapply parsed_map; [apply parsed_bits; [done|done|lia|exact Hv|done]|]. intros a r3 ->. eexists. split; [reflexivity|]. split_and!; [by apply sized_wr2|..].
      * intros ch' sb' Hch' Hsb' Hq. rewrite (rd2_wr2_two 32) by (done || lia). assert ((sb' =? sb) = false) as -> by lia. rewrite andb_false_r. by apply Ha2.
      * intros ch' Hch' Hq. rewrite (rd2_wr2_two 32) by (done || lia). rewrite Z.eqb_refl, andb_true_r. destruct (Z.eqb_spec ch' ch) as [->|]; [done|]. apply Hc2; [lia|done].
  - intros s2 r2 (Hs2 & Ha2 & Hc2). eexists. split; [reflexivity|]. unfold I, scf_source in *. destruct channels_range as [E|[E _]]; rewrite E in *; cbn [Z.eqb Pos.eqb] in *.
    + split; [done|]. intros ch sb' Hch Hsb' Hq. destruct (Z.eq_dec sb' sb) as [->|]; [by apply Hc2|apply Ha2; [done|lia|done]].
    + split; [by apply sized_wr2; try lia|]. intros ch sb' Hch Hsb' Hq. rewrite (rd2_wr2_two 32) by (done || lia). destruct (Z.eqb_spec sb' sb) as [->|]; [|rewrite andb_false_r; apply Ha2; [done|lia|done]].
      rewrite andb_true_r. assert (f_levels f 0 sb <> 0) as Hq0 by (assert (ch = 0 \/ ch = 1) as [->| ->] by lia; [done|by rewrite <- mono_same by lia]).
      destruct (Z.eqb_spec ch 1); [by apply Hc2; try lia|]. replace ch with 0 by lia. by apply Hc2; try lia.
Qed.

Lemma parsed_scalefactor p ch sb sf r :
  0 <= p -> 0 <= ch < 2 -> 0 <= sb < f_sblimit f -> f_levels f ch sb <> 0 -> sized 96 sf -> reader_at l p r ->
  parsed l p (enc_scf1 f ch sb) (fun sf' => sf' = wr3 sf ch sb (f_scf f ch sb 0) (f_scf f ch sb 1) (f_scf f ch sb 2))
    (read_scalefactor l (f_scfsi f ch sb) ch sb (sf, r)).
Proof.
  intros Hp Hch Hsb Hq Hsf Hr. destruct (fo_scf f Hf ch sb Hch Hsb Hq) as (Hv & Hsi & H1 & H2 & H3). unfold read_scalefactor, enc_scf1. set (si := f_scfsi f ch sb) in *. set (v := f_scf f ch sb) in *.
  assert (forall p r i, 0 <= p -> 0 <= i < 3 -> reader_at l p r -> parsed l p (msb 6 (v i)) (fun x => x = v i) (mp2_get_bits l 6 r)) as Hb
    by (intros; apply parsed_bits; [done|done|lia|by apply Hv|done]).
  destruct (Z.eqb_spec si 0) as [|N0].
  - apply parsed_bind with (Q1 := fun x => x = v 0); [by apply Hb; try lia|]. intros a r1 -> Hr1. pose proof (zlen_nonneg (msb 6 (v 0))).
    apply parsed_bind with (Q1 := fun x => x = v 1); [apply Hb; [lia|lia|done]|]. intros b r2 -> Hr2. pose proof (zlen_nonneg (msb 6 (v 1))).
    eapply parsed_map; [apply (Hb _ _ 2); [lia|lia|done]|]. intros c r3 ->. eexists. by split.
  - destruct (Z.eqb_spec si 1) as [E|N1]; [|destruct (Z.eqb_spec si 2) as [E|N2]].
    + apply parsed_bind with (Q1 := fun x => x = v 0); [by apply Hb; try lia|]. intros a r1 -> Hr1. pose proof (zlen_nonneg (msb 6 (v 0))).
      eapply parsed_map; [apply (Hb _ _ 2); [lia|lia|done]|]. intros c r3 ->. eexists. split; [reflexivity|]. by rewrite (H1 E).
    + eapply parsed_map; [apply (Hb _ _ 0); [lia|lia|done]|]. intros c r3 ->. eexists. split; [reflexivity|]. destruct (H2 E) as [-> ->]. done.
    + apply parsed_bind with (Q1 := fun x => x = v 0); [by apply Hb; try lia|]. intros a r1 -> Hr1. pose proof (zlen_nonneg (msb 6 (v 0))).
      eapply parsed_map; [apply (Hb _ _ 1); [lia|lia|done]|]. intros c r3 ->. eexists. split; [reflexivity|]. by rewrite (H3 ltac:(lia)).
Qed.

Definition scf_known (sf : list (list Z)) : Prop := sized 96 sf /\
  forall ch sb part, 0 <= ch < 2 -> 0 <= sb < f_sblimit f -> 0 <= part < 3 -> f_levels f ch sb <> 0 -> rd2 sf ch (3 * sb + part) = f_scf f (scf_source ch) sb part.

Lemma parsed_scalefactors p al si sf r : 0 <= p -> sized 96 sf -> allocated al ->
  (forall ch sb, 0 <= ch < 2 -> 0 <= sb < f_sblimit f -> f_levels f ch sb <> 0 -> rd2 si ch sb = f_scfsi f (scf_source ch) sb) -> reader_at l p r ->
  parsed l p (enc_scf f) scf_known (read_scalefactors l al si (f_channels f) (f_sblimit f) (sf, r)).
Proof.
  intros Hp Hsf Hal Hsi Hr. pose proof bound_facts as [_ H30]. unfold read_scalefactors, enc_scf. rewrite <- (Z.sub_0_r (f_sblimit f)) at 1.
  set (I := fun sb' sf => sized 96 sf /\ forall ch sb part, 0 <= ch < 2 -> 0 <= sb < sb' -> 0 <= part < 3 -> f_levels f ch sb <> 0 -> rd2 sf ch (3 * sb + part) = f_scf f (scf_source ch) sb part).
  change scf_known with (I (f_sblimit f)).
  apply (parsed_loop l _ I); [done|pose proof bound_facts; lia|done|split; [done|intros; lia]|]. intros sb p1 s1 r1 Hsb Hp1 [Hs1 Ha1] Hr1.
  set (J := fun c sf => sized 96 sf /\ (forall ch sb' part, 0 <= ch < 2 -> 0 <= sb' < sb -> 0 <= part < 3 -> f_levels f ch sb' <> 0 -> rd2 sf ch (3 * sb' + part) = f_scf f (scf_source ch) sb' part) /\
    forall ch part, 0 <= ch < c -> 0 <= part < 3 -> f_levels f ch sb <> 0 -> rd2 sf ch (3 * sb + part) = f_scf f ch sb part).
  apply parsed_map with (Q1 := J (f_channels f)).
  - rewrite <- (Z.sub_0_r (f_channels f)) at 1. apply (parsed_loop l _ J); [done|destruct channels_range as [E|[E _]]; lia|done|split_and!; [done|done|intros; lia]|].
    intros ch p2 s2 r2 Hch Hp2 (Hs2 & Ha2 & Hc2) Hr2. assert (0 <= ch < 2) as Hch2 by (destruct channels_range as [E|[E _]]; lia). rewrite Hal by lia. destruct (levels_code ch sb Hch2 Hsb) as (_ & _ & -> & _). destruct (Z.eqb_spec (f_levels f ch sb) 0) as [E0|Hne].
    + apply parsed_ret; [done|]. split_and!; [done|done|]. intros ch' part Hch' Hpart Hq. destruct (Z.eq_dec ch' ch) as [->|]; [done|]. apply Hc2; [lia|done|done].
    + rewrite Hsi by (done || lia). assert (scf_source ch = ch) as -> by (unfold scf_source; destruct channels_range as [E|[E _]]; rewrite E in *; cbn; lia).
      intros Hst Hin. destruct (parsed_scalefactor p2 ch sb s2 r2 Hp2 Hch2 Hsb Hne Hs2 Hr2 Hst Hin) as (s3 & r3 & E3 & -> & Hr3). exists (wr3 s2 ch sb (f_scf f ch sb 0) (f_scf f ch sb 1) (f_scf f ch sb 2)), r3.
      split; [exact E3|]. split; [|done]. split_and!; [by apply sized_wr3|..].
      * intros ch' sb' part Hch' Hsb' Hpart Hq. rewrite rd2_wr3 by (done || lia). assert ((sb' =? sb) = false) as -> by lia. rewrite andb_false_r. by apply Ha2.
      * intros ch' part Hch' Hpart Hq. rewrite rd2_wr3 by (done || lia). rewrite Z.eqb_refl, andb_true_r. destruct (Z.eqb_spec ch' ch) as [->|]; [|apply Hc2; [lia|done|done]].
        assert (part = 0 \/ part = 1 \/ part = 2) as [->|[->| ->]] by lia; done.
  - intros s2 r2 (Hs2 & Ha2 & Hc2). eexists. split; [reflexivity|]. unfold I, scf_source in *. destruct channels_range as [E|[E _]]; rewrite E in *; cbn [Z.eqb Pos.eqb] in *.
    + split; [done|]. intros ch sb' part Hch Hsb' Hpart Hq. destruct (Z.eq_dec sb' sb) as [->|]; [by apply Hc2|apply Ha2; [done|lia|done|done]].
    + split; [by apply sized_wr3; try lia|]. intros ch sb' part Hch Hsb' Hpart Hq. rewrite rd2_wr3 by (done || lia). destruct (Z.eqb_spec sb' sb) as [->|]; [|rewrite andb_false_r; apply Ha2; [done|lia|done|done]].
      rewrite andb_true_r. assert (f_levels f 0 sb <> 0) as Hq0 by (assert (ch = 0 \/ ch = 1) as [->| ->] by lia; [done|by rewrite <- mono_same by lia]).
      assert (forall part, 0 <= part < 3 -> rd2 s2 0 (3 * sb + part) = f_scf f 0 sb part) as H0 by (intros; by apply Hc2; try lia).
      destruct (Z.eqb_spec ch 1); [|replace ch with 0 by lia; by apply H0]. pose proof (H0 0 ltac:(lia)) as H00. rewrite Z.add_0_r in H00. rewrite H00, !H0 by lia.
      assert (part = 0 \/ part = 1 \/ part = 2) as [->|[->| ->]] by lia; done.
Qed.

(** ** Samples *)
(** The sample of a subband that a granule codes; a channel without its own bits
    has code and scale factor of the first. *)
Definition ref_sample (g ch sb idx : Z) : Z :=
  if sb <? f_sblimit f then
    let c := source f ch sb in
    if f_levels f c sb =? 0 then 0 else dequantized (f_levels f c sb) (f_scf f c sb (g / 4)) (f_code f g c sb idx)
  else 0.

Lemma quantizer_entries : forallb (fun q => (0 <? nlevels q) && (0 <=? cw_bits q) && (cw_bits q <=? 16) && (negb (grouping q) || (nlevels q * nlevels q * nlevels q <=? 2 ^ cw_bits q)))
  quantizer_table = true.
Proof. by vm_compute. Qed.

Lemma quantizer_facts q : In q quantizer_table -> 0 < nlevels q /\ 0 <= cw_bits q <= 16 /\ (grouping q = true -> nlevels q * nlevels q * nlevels q <= 2 ^ cw_bits q).
Proof.
  intros Hin. pose proof quantizer_entries as H. rewrite forallb_forall in H. specialize (H q Hin). cbv beta in H.
  destruct (grouping q); cbn [negb orb] in H; split_and!; try lia; intros; lia.
Qed.

Lemma parsed_codes p q c r :
  0 <= p -> 0 < nlevels q -> 0 <= cw_bits q <= 16 -> (grouping q = true -> nlevels q * nlevels q * nlevels q <= 2 ^ cw_bits q) ->
  (forall i, 0 <= i < 3 -> code_ok q (c i)) -> reader_at l p r ->
  parsed l p (enc_codes q c) (fun v => v = [c 0; c 1; c 2]) (read_codes l q r).
Proof.
  intros Hp Hn Hq Hg Hc Hr. pose proof (Hc 0 ltac:(lia)) as C0. pose proof (Hc 1 ltac:(lia)) as C1. pose proof (Hc 2 ltac:(lia)) as C2. unfold code_ok in *.
  unfold read_codes, enc_codes. destruct (grouping q).
  - specialize (Hg eq_refl). set (n := nlevels q) in *. assert (0 <= c 0 + n * (c 1 + n * c 2) < n * n * n) as Hv by nia.
    eapply parsed_map; [apply parsed_bits; [done|done|lia|lia|done]|]. intros v r' ->. eexists. split; [reflexivity|].
    rewrite (Z.rem_mod_nonneg (c 0 + _)), (Z.quot_div_nonneg (c 0 + _)) by lia.
    assert ((c 0 + n * (c 1 + n * c 2)) / n = c 1 + n * c 2) as -> by (symmetry; apply Z.div_unique_pos with (r := c 0); lia).
    assert ((c 0 + n * (c 1 + n * c 2)) mod n = c 0) as -> by (symmetry; apply Z.mod_unique_pos with (q := c 1 + n * c 2); lia).
    rewrite Z.rem_mod_nonneg, Z.quot_div_nonneg by nia.
    assert ((c 1 + n * c 2) / n = c 2) as -> by (symmetry; apply Z.div_unique_pos with (r := c 1); lia).
    assert ((c 1 + n * c 2) mod n = c 1) as -> by (symmetry; apply Z.mod_unique_pos with (q := c 2); lia). done.
  - pose proof (zlen_nonneg (msb (cw_bits q) (c 0))). pose proof (zlen_nonneg (msb (cw_bits q) (c 1))).
    apply parsed_bind with (Q1 := fun x => x = c 0); [by apply parsed_bits; try lia|]. intros a r1 -> Hr1.
    apply parsed_bind with (Q1 := fun x => x = c 1); [by apply parsed_bits; try lia|]. intros b r2 -> Hr2.
    eapply parsed_map; [apply (parsed_bits l Hl _ _ (c 2)); try done; lia|]. intros d r3 ->. eexists. by split.
Qed.

Lemma source_idem ch sb : f_levels f (source f ch sb) sb = f_levels f ch sb.
Proof. unfold f_levels. f_equal. unfold source. by destruct (sb <? f_bound f). Qed.

Lemma parsed_samples p g ch sb al scf r :
  0 <= p -> 0 <= g < 12 -> 0 <= ch < 2 -> 0 <= sb < f_sblimit f -> source f ch sb = ch -> al = class_of (f_levels f ch sb) ->
  (f_levels f ch sb <> 0 -> scf = f_scf f ch sb (g / 4)) -> reader_at l p r ->
  parsed l p (enc_samples f g ch sb) (fun v => v = [ref_sample g ch sb 0; ref_sample g ch sb 1; ref_sample g ch sb 2]) (read_samples l al scf r).
Proof.
  intros Hp Hg Hch Hsb Hsrc -> Hscf Hr. unfold read_samples, enc_samples, ref_sample. assert ((sb <? f_sblimit f) = true) as -> by lia. rewrite Hsrc. cbv zeta.
  destruct (levels_code ch sb Hch Hsb) as (_ & _ & -> & Hq). destruct (Z.eqb_spec (f_levels f ch sb) 0) as [E|Hne]; [by apply parsed_ret|]. rewrite (Hscf Hne), (Hq Hne).
  pose proof (quantizer_in ch sb Hch Hsb Hne) as Hin. destruct (quantizer_facts _ Hin) as (H1 & H2 & H3).
  assert (forall i, 0 <= i < 3 -> code_ok (quantizer_of (f_levels f ch sb)) (f_code f g ch sb i)) as Hc by (intros i Hi; by apply (fo_code f Hf)).
  eapply parsed_map; [by apply parsed_codes|]. intros v r' ->. eexists. split; [reflexivity|]. cbn [map].
  assert (0 <= g / 4 < 3) as Hpart by (split; [apply Z.div_pos|apply Z.div_lt_upper_bound]; lia). destruct (fo_scf f Hf ch sb Hch Hsb Hne) as (Hs & _). specialize (Hs (g / 4) Hpart).
  by rewrite !(dequantize_code _ _ _ _ eq_refl Hin) by (done || (apply Hc; lia)).
Qed.

(** What the side information left in the decoder. *)
Definition side_known (d : Mp2Decoder) : Prop := allocated (allocation d) /\ scf_known (scalefactor d).

Lemma put_samples_wr3 sm ch sb x y z : put_samples sm ch sb [x; y; z] = wr3 sm ch sb x y z.
Proof. reflexivity. Qed.

Lemma parsed_granule p d part gr sm r :
  0 <= p -> 0 <= part < 3 -> 0 <= gr < 4 -> side_known d -> sized 96 sm -> reader_at l p r ->
  parsed l p (enc_granule f (4 * part + gr))
    (fun sm => sized 96 sm /\ forall ch sb idx, 0 <= ch < 2 -> 0 <= sb < 32 -> 0 <= idx < 3 -> rd2 sm ch (3 * sb + idx) = ref_sample (4 * part + gr) ch sb idx)
    (read_granule l d (f_bound f) (f_sblimit f) part (sm, r)).
Proof.
  intros Hp Hpart Hgr [Hal [_ Hscf]] Hsm Hr. destruct bound_facts as [Hb H30]. set (g := 4 * part + gr). assert (g / 4 = part) as Eg by (unfold g; Z.to_euclidean_division_equations; lia).
  assert (0 <= g < 12) as Hg by lia. unfold read_granule, enc_granule.
  set (I := fun sb' sm => sized 96 sm /\ forall ch sb idx, 0 <= ch < 2 -> 0 <= sb < sb' -> 0 <= idx < 3 -> rd2 sm ch (3 * sb + idx) = ref_sample g ch sb idx).
  assert (forall sm ch sb ch' sb' idx, sized 96 sm -> 0 <= ch < 2 -> 0 <= sb < 32 -> 0 <= ch' < 2 -> 0 <= idx < 3 -> forall w, (forall i, 0 <= i < 3 -> w i = ref_sample g ch sb i) ->
    rd2 (wr3 sm ch sb (w 0) (w 1) (w 2)) ch' (3 * sb' + idx) = if (ch' =? ch) && (sb' =? sb) then ref_sample g ch sb idx else rd2 sm ch' (3 * sb' + idx)) as Hw3.
  { intros sm' ch sb ch' sb' idx Hsm' Hch Hsb Hch' Hidx w Hw. rewrite rd2_wr3 by done. destruct ((ch' =? ch) && (sb' =? sb)); [|done]. rewrite !Hw by lia.
    assert (idx = 0 \/ idx = 1 \/ idx = 2) as [->|[->| ->]] by lia; done. }
  apply parsed_bind with (Q1 := I (f_bound f)).
  - rewrite <- (Z.sub_0_r (f_bound f)) at 1. apply (parsed_loop l _ I); [done|lia|done|split; [done|intros; lia]|]. intros sb p1 s1 r1 Hsb Hp1 [Hs1 Ha1] Hr1.
    set (J := fun c sm => sized 96 sm /\ (forall ch sb' idx, 0 <= ch < 2 -> 0 <= sb' < sb -> 0 <= idx < 3 -> rd2 sm ch (3 * sb' + idx) = ref_sample g ch sb' idx) /\
      forall ch idx, 0 <= ch < c -> 0 <= idx < 3 -> rd2 sm ch (3 * sb + idx) = ref_sample g ch sb idx).
    assert (parsed l p1 (flat_map (fun ch => enc_samples f g ch sb) (seqZ 0 (2 - 0))) (J 2)
      (zforM 0 2 (fun ch '(sm, r) => '(s, r) ← read_samples l (rd2 (allocation d) ch sb) (rd2 (scalefactor d) ch (3 * sb + part)) r; Some (put_samples sm ch sb s, r)) (s1, r1))) as H.
    + apply (parsed_loop l _ J); [done|lia|done|split_and!; [done|done|intros; lia]|]. intros ch p2 s2 r2 Hch Hp2 (Hs2 & Ha2 & Hc2) Hr2.
      assert (source f ch sb = ch) as Hsrc by (unfold source; by assert ((sb <? f_bound f) = true) as -> by lia).
      eapply parsed_map; [apply (parsed_samples p2 g ch sb); try done; [lia|apply Hal; lia|]|].
      { intros Hq. rewrite Hscf by (done || lia). rewrite Eg. f_equal. unfold scf_source. destruct channels_range as [E|[E E0]]; rewrite E; [done|lia]. }
      intros v r3 ->. eexists. split; [reflexivity|]. rewrite put_samples_wr3. split_and!; [by apply sized_wr3|..].
      * intros ch' sb' idx Hch' Hsb' Hidx. rewrite (Hw3 s2 ch sb ch' sb' idx ltac:(done) ltac:(lia) ltac:(lia) ltac:(lia) Hidx (ref_sample g ch sb) ltac:(done)). assert ((sb' =? sb) = false) as -> by lia. rewrite andb_false_r. by apply Ha2.
      * intros ch' idx Hch' Hidx. rewrite (Hw3 s2 ch sb ch' sb idx ltac:(done) ltac:(lia) ltac:(lia) ltac:(lia) Hidx (ref_sample g ch sb) ltac:(done)). rewrite Z.eqb_refl, andb_true_r. destruct (Z.eqb_spec ch' ch) as [->|]; [done|]. apply Hc2; [lia|done].
    + intros Hst Hin. destruct (H Hst Hin) as (a & r' & E & (Hs' & Ha' & Hc') & Hr'). exists a, r'. split; [exact E|]. split; [|done]. split; [done|].
      intros ch sb' idx Hch Hsb' Hidx. destruct (Z.eq_dec sb' sb) as [->|]; [by apply Hc'|apply Ha'; [done|lia|done]].
  - intros s1 r1 Hs1 Hr1. pose proof (zlen_nonneg (flat_map (fun sb => flat_map (fun ch => enc_samples f g ch sb) (seqZ 0 2)) (seqZ 0 (f_bound f)))).
    apply parsed_map with (Q1 := I (f_sblimit f)).
    + apply (parsed_loop l _ I); [lia|lia|done|done|]. intros sb p2 s2 r2 Hsb Hp2 [Hs2 Ha2] Hr2.
      eapply parsed_map; [apply (parsed_samples p2 g 0 sb); try done; [lia|apply source_first|apply Hal; lia|]|].
      { intros Hq. rewrite Hscf by (done || lia). rewrite Eg. f_equal. unfold scf_source. by destruct (_ =? _). }
      intros v r3 ->. eexists. split; [reflexivity|]. rewrite !put_samples_wr3. split; [apply sized_wr3; [by apply sized_wr3|lia]|].
      assert (forall i, ref_sample g 1 sb i = ref_sample g 0 sb i) as E10.
      { intros i. unfold ref_sample. destruct (sb <? f_sblimit f); [|done]. cbv zeta. rewrite source_first. unfold source. by assert ((sb <? f_bound f) = false) as -> by lia. }
      intros ch sb' idx Hch Hsb' Hidx.
      rewrite (Hw3 (wr3 s2 0 sb (ref_sample g 0 sb 0) (ref_sample g 0 sb 1) (ref_sample g 0 sb 2)) 1 sb ch sb' idx ltac:(by apply sized_wr3) ltac:(lia) ltac:(lia) Hch Hidx (ref_sample g 0 sb) ltac:(intros; by rewrite E10)).
      rewrite (Hw3 s2 0 sb ch sb' idx Hs2 ltac:(lia) ltac:(lia) Hch Hidx (ref_sample g 0 sb) ltac:(done)).
      destruct (Z.eqb_spec sb' sb) as [->|]; [|rewrite !andb_false_r; apply Ha2; [done|lia|done]]. rewrite !andb_true_r. assert (ch = 0 \/ ch = 1) as [->| ->] by lia; done.
    + intros s2 r2 [Hs2 Ha2]. eexists. split; [reflexivity|].
      set (K := fun c sm => sized 96 sm /\ (forall ch sb idx, 0 <= ch < 2 -> 0 <= sb < f_sblimit f -> 0 <= idx < 3 -> rd2 sm ch (3 * sb + idx) = ref_sample g ch sb idx) /\
        forall ch sb idx, 0 <= ch < c -> f_sblimit f <= sb < 32 -> 0 <= idx < 3 -> rd2 sm ch (3 * sb + idx) = 0).
      assert (forall ch sb i, f_sblimit f <= sb -> ref_sample g ch sb i = 0) as Hz by (intros ch sb i Hsb; unfold ref_sample; by assert ((sb <? f_sblimit f) = false) as -> by lia).
      assert (K 2 (zfor 0 2 (fun ch sm => zfor (f_sblimit f) 32 (fun sb sm => put_samples sm ch sb [0; 0; 0]) sm) s2)) as (Hs3 & Ha3 & Hc3).
      { apply (zfor_inv K); [lia|split_and!; [done|done|intros; lia]|]. intros ch s3 Hch (Hs3 & Ha3 & Hc3).
        destruct (zfor_inv (fun c sm => sized 96 sm /\ (forall ch' sb idx, 0 <= ch' < 2 -> 0 <= sb < f_sblimit f -> 0 <= idx < 3 -> rd2 sm ch' (3 * sb + idx) = ref_sample g ch' sb idx) /\
          (forall ch' sb idx, 0 <= ch' < ch -> f_sblimit f <= sb < 32 -> 0 <= idx < 3 -> rd2 sm ch' (3 * sb + idx) = 0) /\ (forall sb idx, f_sblimit f <= sb < c -> 0 <= idx < 3 -> rd2 sm ch (3 * sb + idx) = 0))
          (f_sblimit f) 32 (fun sb sm => put_samples sm ch sb [0; 0; 0]) s3) as (H1 & H2 & H3 & H4); [lia|split_and!; [done|done|done|intros; lia]| |].
        - intros sb s4 Hsb (H1 & H2 & H3 & H4). rewrite put_samples_wr3. split_and!; [by apply sized_wr3|..].
          + intros ch' sb' idx Hch' Hsb' Hidx. rewrite rd2_wr3 by (done || lia). assert ((sb' =? sb) = false) as -> by lia. rewrite andb_false_r. by apply H2.
          + intros ch' sb' idx Hch' Hsb' Hidx. rewrite rd2_wr3 by (done || lia). assert ((ch' =? ch) = false) as -> by lia. by apply H3.
          + intros sb' idx Hsb' Hidx. rewrite rd2_wr3 by (done || lia). rewrite Z.eqb_refl. destruct (Z.eqb_spec sb' sb); cbn [andb]; [by destruct (idx =? 0), (idx =? 1)|]. apply H4; [lia|done].
        - split_and!; [done|done|]. intros ch' sb idx Hch' Hsb Hidx. destruct (Z.eq_dec ch' ch) as [->|]; [by apply H4|apply H3; [lia|done|done]]. }
      split; [done|]. intros ch sb idx Hch Hsb Hidx. destruct (Z.lt_ge_cases sb (f_sblimit f)); [apply Ha3; [done|lia|done]|]. rewrite Hz by done. by apply Hc3; try lia.
Qed.
End frame.
(** ** The blocks of a frame *)
Section frame2.
Context (f : mp2_frame) (Hf : frame_ok f).

Lemma ref_sample_range g ch sb idx : 0 <= g < 12 -> 0 <= ch < 2 -> 0 <= sb -> 0 <= idx < 3 -> -65536 <= ref_sample f g ch sb idx <= 65536 /\ (30 <= sb -> ref_sample f g ch sb idx = 0).
Proof.
  intros Hg Hch Hsb Hidx. pose proof (bound_facts f Hf) as [_ H30]. unfold ref_sample. destruct (Z.ltb_spec sb (f_sblimit f)); [|split; [lia|done]]. split; [|lia].
  cbv zeta. set (c := source f ch sb). assert (0 <= c < 2) as Hc by (unfold c, source; destruct (_ <? _); lia). destruct (Z.eqb_spec (f_levels f c sb) 0) as [|Hne]; [lia|].
  assert (0 <= g / 4 < 3) as Hp by (split; [apply Z.div_pos|apply Z.div_lt_upper_bound]; lia). destruct (fo_scf f Hf c sb Hc ltac:(lia) Hne) as (Hs & _).
  apply dequantized_range; [by apply quantizer_in; try lia|by apply (fo_code f Hf); try lia|by apply Hs].
Qed.

(** Block [t] of a channel, and the blocks of the frame so far, the last first. *)
Definition ref_block (ch t : Z) : list Z := map (fun sb => ref_sample f (t / 3) ch sb (t mod 3)) (seqZ 0 32).
Definition ref_blocks (ch n : Z) : list (list Z) := rev (map (ref_block ch) (seqZ 0 n)).

Lemma ref_block_ok ch t : 0 <= ch < 2 -> 0 <= t < 36 -> subband_ok (ref_block ch t).
Proof.
  intros Hch Ht j. destruct (Z.lt_ge_cases j 0); [unfold rd; destruct (Z.ltb_spec j 0); lia|]. destruct (Z.lt_ge_cases j 32).
  - unfold ref_block. rewrite rd_map_seqZ by lia. apply ref_sample_range; try lia; [split; [apply Z.div_pos|apply Z.div_lt_upper_bound]; lia|apply Z.mod_pos_bound; lia].
  - rewrite rd_overflow by (unfold ref_block; rewrite zlen_map_seqZ; lia). lia.
Qed.
End frame2.

(** ** The whole frame *)
Section decode.
Context (l : list Z) (Hl : Forall is_byte l) (f : mp2_frame) (Hf : frame_ok f) (h0 h1 : list (list Z)) (size : Z) (Hsize : 2304 <= size).

Definition written (n : Z) (pcm : list Z) : Prop :=
  zlen pcm = size /\ forall t ch j, 0 <= t < n -> 0 <= ch < 2 -> 0 <= j < 32 ->
    rd pcm (2 * (32 * t + j) + ch) = pcm_ref (ref_blocks f ch (t + 1) ++ hist_of ch h0 h1) j.

(** After [k] granules. *)
Definition granules_done (k : Z) (st : Mp2Decoder * list Z) : Prop :=
  let '(d, pcm) := st in
  filter_state (ref_blocks f 0 (3 * k) ++ h0) (ref_blocks f 1 (3 * k) ++ h1) d /\ side_known f d /\
  (sized 32 (allocation d) /\ sized 32 (scfsi d)) /\ sized 96 (sample d) /\ written (3 * k) pcm.

Lemma after_blocks ch k idx row h :
  0 <= k -> 0 <= idx < 3 -> (forall i, 0 <= i < 3 -> block_of row i = ref_block f ch (3 * k + i)) ->
  after row (ref_blocks f ch (3 * k) ++ h) idx = ref_blocks f ch (3 * k + idx + 1) ++ h.
Proof.
  intros Hk Hi Hrow. unfold after, ref_blocks. rewrite app_assoc. f_equal. rewrite <- rev_app_distr. f_equal.
  rewrite <- (Z.add_assoc (3 * k)), (seqZ_app 0 (3 * k) (idx + 1)), map_app by lia. f_equal. rewrite Z.add_0_l. replace (seqZ (3 * k) (idx + 1)) with (map (Z.add (3 * k)) (seqZ 0 (idx + 1))).
  - rewrite map_map. apply map_ext_in. intros i Hin%in_seqZ. apply Hrow. lia.
  - pose proof (fmap_add_seqZ (3 * k) 0 (idx + 1)) as E. rewrite Z.add_0_r in E. exact E.
Qed.

Lemma granule_parsed p k d pcm r :
  0 <= p -> 0 <= k < 12 -> granules_done k (d, pcm) -> reader_at l p r ->
  parsed l p (enc_granule f k) (granules_done (k + 1)) (granule l (f_bound f) (f_sblimit f) (k / 4) (k mod 4) (d, pcm, r)).
Proof.
  intros Hp Hk (Hfs & Hside & Hsz & Hsm & Hlen & Hpcm) Hr. unfold granule. pose proof (Z.div_mod k 4 ltac:(lia)) as Ek. pose proof (Z.mod_pos_bound k 4 ltac:(lia)) as Mk.
  assert (0 <= k / 4 < 3) as Dk by lia. pose proof (parsed_granule l Hl f Hf p d (k / 4) (k mod 4) (sample d) r Hp Dk Mk Hside Hsm Hr) as H. rewrite <- Ek in H.
  eapply parsed_map; [exact H|]. clear H. intros sm r' [Hsm' Hval]. set (d1 := set_sample sm d).
  assert (forall ch i, 0 <= ch < 2 -> 0 <= i < 3 -> block_of (row_of ch d1) i = ref_block f ch (3 * k + i)) as Hrow.
  { intros ch i Hch Hi. unfold block_of, ref_block, row_of. cbn [d1 sample set_sample]. apply map_ext_in. intros sb Hsb%in_seqZ.
    replace ((3 * k + i) / 3) with k by (Z.to_euclidean_division_equations; lia). replace ((3 * k + i) mod 3) with i by (Z.to_euclidean_division_equations; lia).
    apply Hval; lia. }
  assert (filter_state (ref_blocks f 0 (3 * k) ++ h0) (ref_blocks f 1 (3 * k) ++ h1) d1) as Hfs1 by (destruct Hfs; by split).
  assert (granule_valid d1) as Hv by (intros ch i Hch Hi; rewrite Hrow by done; apply ref_block_ok; [done|done|lia]).
  pose proof (synthesis_spec (192 * (4 * (k / 4) + k mod 4)) _ _ d1 pcm ltac:(lia) ltac:(lia) Hfs1 Hv) as H. rewrite <- Ek in H.
  rewrite <- Ek. destruct (synthesis (192 * k) (d1, pcm)) as [d2 pcm2]. destruct H as (Hfs2 & (Ea & Es & Ef & Em) & Ln & Hnew & Hold). exists (d2, pcm2). split; [reflexivity|].
  rewrite !(after_blocks _ k 2) in Hfs2 by (lia || (intros; apply Hrow; lia)). replace (3 * k + 2 + 1) with (3 * (k + 1)) in Hfs2 by lia.
  split; [exact Hfs2|]. split; [unfold side_known; rewrite Ea, Ef; exact Hside|]. split; [rewrite Ea, Es; exact Hsz|]. split; [rewrite Em; exact Hsm'|]. split; [lia|].
  intros t ch j Ht Hch Hj. destruct (Z.lt_ge_cases t (3 * k)).
  - rewrite Hold by lia. apply Hpcm; lia.
  - set (idx := t - 3 * k). replace (2 * (32 * t + j) + ch) with (192 * k + (64 * idx + 2 * j + ch)) by lia. rewrite Hnew by lia. f_equal.
    replace (t + 1) with (3 * k + idx + 1) by lia. unfold hist_of. destruct (Z.eqb_spec ch 0) as [->|]; [|replace ch with 1 by lia]; apply after_blocks; try lia; intros; apply Hrow; lia.
Qed.

Lemma granules_parsed p d pcm r :
  0 <= p -> granules_done 0 (d, pcm) -> reader_at l p r ->
  parsed l p (flat_map (fun part => flat_map (fun gr => enc_granule f (4 * part + gr)) (seqZ 0 4)) (seqZ 0 3)) (granules_done 12)
    (zforM 0 3 (fun part st => zforM 0 4 (fun gr st => granule l (f_bound f) (f_sblimit f) part gr st) st) (d, pcm, r)).
Proof.
  intros Hp Hd Hr. apply (parsed_loop l _ (fun part => granules_done (4 * part)) p 0 3 _ (d, pcm) r); [done|lia|done|done|]. intros part p1 s1 r1 Hpart Hp1 Hs1 Hr1.
  replace (4 * (part + 1)) with (4 * part + 4) by lia. apply (parsed_loop l _ (fun gr => granules_done (4 * part + gr)) p1 0 4 _ s1 r1); [done|lia|done|by rewrite Z.add_0_r|].
  intros gr p2 [d2 pcm2] r2 Hgr Hp2 Hs2 Hr2. pose proof (granule_parsed p2 (4 * part + gr) d2 pcm2 r2 Hp2 ltac:(lia) Hs2 Hr2) as H.
  replace ((4 * part + gr) / 4) with part in H by (Z.to_euclidean_division_equations; lia). replace ((4 * part + gr) mod 4) with gr in H by (Z.to_euclidean_division_equations; lia).
  by rewrite Z.add_assoc.
Qed.

(** The arrays of the side information have their sizes. *)
Record mp2_sized (d : Mp2Decoder) : Prop := {
  ms_side : sized 32 (allocation d) /\ sized 32 (scfsi d);
  ms_scalefactor : sized 96 (scalefactor d);
  ms_sample : sized 96 (sample d)
}.

(** Everything behind the header. *)
Definition enc_audio : list Z := enc_alloc f ++ enc_scfsi f ++ enc_scf f ++
  flat_map (fun part => flat_map (fun gr => enc_granule f (4 * part + gr)) (seqZ 0 4)) (seqZ 0 3).

Lemma audio_decoded p d pcm r :
  0 <= p -> mp2_sized d -> filter_state h0 h1 d -> zlen pcm = size -> reader_at l p r ->
  stands (unpack_bits l) p enc_audio -> p + zlen enc_audio + 23 <= 8 * zlen l ->
  exists d' pcm', decode_audio l (frame_header f) d pcm r = Some (d', pcm') /\ granules_done 12 (d', pcm').
Proof.
  intros Hp [[Ha Hsi0] Hsf0 Hsm0] Hfs Hlen Hr Hs Hin. unfold decode_audio. destruct (lookup_code f Hf) as [-> _]. rewrite <- (bound_code f).
  change (if h_mode (frame_header f) =? MONO then 1 else 2) with (f_channels f).
  unfold enc_audio in *. apply stands_app in Hs as [S1 Hs]. apply stands_app in Hs as [S2 Hs]. apply stands_app in Hs as [S3 S4]. rewrite !zlen_app in Hin.
  set (l4 := flat_map _ (seqZ 0 3)) in *. pose proof (zlen_nonneg (enc_alloc f)). pose proof (zlen_nonneg (enc_scfsi f)). pose proof (zlen_nonneg (enc_scf f)). pose proof (zlen_nonneg l4).
  destruct (parsed_allocations l Hl f Hf p (allocation d) r Hp Ha Hr S1 ltac:(lia)) as (al & r1 & -> & [Hal1 Hal] & R1). cbn [mbind option_bind].
  destruct (parsed_scfsi l Hl f Hf (p + zlen (enc_alloc f)) al (scfsi d) r1 ltac:(lia) Hsi0 Hal R1 S2 ltac:(lia)) as (si & r2 & -> & [Hsi1 Hsi] & R2). cbn [mbind option_bind].
  destruct (parsed_scalefactors l Hl f Hf (p + zlen (enc_alloc f) + zlen (enc_scfsi f)) al si (scalefactor d) r2 ltac:(lia) Hsf0 Hal Hsi R2 S3 ltac:(lia)) as (sf & r3 & -> & Hsf & R3). cbn [mbind option_bind].
  assert (granules_done 0 (set_side al si sf d, pcm)) as Hd0.
  { split; [destruct Hfs; by split|]. split; [by split|]. split; [by split|]. split; [exact Hsm0|]. split; [done|]. intros; lia. }
  destruct (granules_parsed (p + zlen (enc_alloc f) + zlen (enc_scfsi f) + zlen (enc_scf f)) _ pcm r3 ltac:(lia) Hd0 R3 S4 ltac:(fold l4; lia)) as ([d' pcm'] & r4 & -> & H12 & _). cbn [mbind option_bind]. by exists d', pcm'.
Qed.
End decode.

(** ** The header *)
Lemma header_parsed l f : Forall is_byte l -> frame_ok f -> stands (unpack_bits l) 0 (enc_header f) -> 9 <= zlen l ->
  mp2_sync l = true /\ header_usable l = true /\ header_of l = frame_header f /\ side_start l = zlen (enc_header f).
Proof.
  intros Hl Hf Hs Hn. destruct Hf as [Hrate Hfreq (Hpad & Hpriv & Hmode & Hext & Hrest) Hcrc _ _ _ _]. set (F := field (unpack_bits l)).
  unfold enc_header in *. set (id := b2z (negb (f_mpeg2 f))) in *. set (prot := match f_crc f with Some _ => 0 | None => 1 end) in *.
  assert (0 <= id < 2) as Hid by (unfold id; destruct (f_mpeg2 f); cbn; lia). assert (0 <= prot < 2) as Hprot by (unfold prot; destruct (f_crc f); lia).
  apply stands_app in Hs as [S0 Hs]. apply stands_app in Hs as [S1 Hs]. apply stands_app in Hs as [S2 Hs]. apply stands_app in Hs as [S3 Hs]. apply stands_app in Hs as [S4 Hs].
  apply stands_app in Hs as [S5 Hs]. apply stands_app in Hs as [S6 Hs]. apply stands_app in Hs as [_ Hs]. apply stands_app in Hs as [S8 Hs]. apply stands_app in Hs as [S9 _].
  rewrite !zlen_msb in * by lia. cbn [Z.add Pos.add Pos.succ Pos.add_carry] in *.
  assert (F 0 12 = 0xFFF) as E0 by (by apply field_stands). assert (F 12 1 = id) as E1 by (by apply field_stands). assert (F 13 2 = 2) as E2 by (by apply field_stands).
  assert (F 15 1 = prot) as E3 by (by apply field_stands). assert (F 16 4 = f_rate f) as E4 by (apply field_stands; [lia|lia|done]). assert (F 20 2 = f_freq f) as E5 by (apply field_stands; [lia|lia|done]).
  assert (F 22 1 = f_padding f) as E6 by (by apply field_stands). assert (F 24 2 = f_mode f) as E8 by (by apply field_stands). assert (F 26 2 = f_ext f) as E9 by (by apply field_stands).
  assert (F 0 12 = rd l 0 * 2 ^ 4 + F 8 4) as G0 by (unfold F; rewrite (field_split _ 0 8 4) by lia; change 0 with (8 * 0) at 1; by rewrite field_unpack_byte by (done || lia)).
  assert (rd l 1 = (F 8 4 * 2 ^ 4 + ((F 12 1 * 2 ^ 3) + (F 13 2 * 2 ^ 1 + F 15 1)))) as G1.
  { rewrite <- (field_unpack_byte l 1) by (done || lia). change (8 * 1) with 8. unfold F. rewrite (field_split _ 8 4 4), (field_split _ (8 + 4) 1 3), (field_split _ (8 + 4 + 1) 2 1) by lia. done. }
  assert (rd l 2 = F 16 4 * 2 ^ 4 + F 20 4) as G2.
  { rewrite <- (field_unpack_byte l 2) by (done || lia). change (8 * 2) with 16. unfold F. by rewrite (field_split _ 16 4 4) by lia. }
  pose proof (field_range (unpack_bits l) 8 4 ltac:(lia) (unpack_bits_bit l)) as R0. fold F in R0. pose proof (field_range (unpack_bits l) 20 4 ltac:(lia) (unpack_bits_bit l)) as R2. fold F in R2.
  change (2 ^ 4) with 16 in *. change (2 ^ 3) with 8 in *. change (2 ^ 1) with 2 in *.
  assert (rd l 0 = 255 /\ F 8 4 = 15) as [B0 B8] by lia. rewrite B8, E1, E2, E3 in G1.
  split; [|split; [|split]].
  - unfold mp2_sync. rewrite B0. assert (Z.land (rd l 1) 0xF6 = 0xF4) as ->.
    { rewrite G1. assert (id = 0 \/ id = 1) as [->| ->] by lia; assert (prot = 0 \/ prot = 1) as [->| ->] by lia; reflexivity. }
    rewrite G2, E4. lia.
  - unfold header_usable. fold F. rewrite E4, E5. lia.
  - unfold header_of, frame_header. fold F. rewrite E1, E4, E5, E6, E8, E9. unfold id. by destruct (f_mpeg2 f).
  - unfold side_start. fold F. rewrite E3. unfold prot. rewrite !zlen_app, !zlen_msb by lia. destruct (f_crc f); [rewrite zlen_msb by lia|]; reflexivity.
Qed.

(** One frame behind any earlier ones. *)
Lemma frame_decoded (l : list Z) (f : mp2_frame) (h0 h1 : list (list Z)) (d : Mp2Decoder) (pcm : list Z) :
  Forall is_byte l -> frame_ok f -> stands (unpack_bits l) 0 (enc_frame f) -> zlen (enc_frame f) + 40 <= 8 * zlen l ->
  mp2_sized d -> filter_state h0 h1 d -> zlen pcm = 2304 ->
  exists d' pcm' events, mp2_decode_frame l (Some pcm) d = Some (d', f_bytes f, pcm', events) /\
    mp2_sized d' /\ filter_state (ref_blocks f 0 36 ++ h0) (ref_blocks f 1 36 ++ h1) d' /\ zlen pcm' = 2304 /\
    forall t ch j, 0 <= t < 36 -> 0 <= ch < 2 -> 0 <= j < 32 ->
      rd pcm' (2 * (32 * t + j) + ch) = pcm_ref (ref_blocks f ch (t + 1) ++ hist_of ch h0 h1) j.
Proof.
  intros Hl Hf Hs Hin Hd Hfs Hlen. change (enc_frame f) with (enc_header f ++ enc_audio f) in *. apply stands_app in Hs as [Sh Sa]. rewrite zlen_app in Hin. rewrite Z.add_0_l in Sa.
  pose proof (zlen_nonneg (enc_audio f)) as Ha0. assert (32 <= zlen (enc_header f)) as Hh0.
  { unfold enc_header. rewrite !zlen_app, !zlen_msb by lia. pose proof (zlen_nonneg (match f_crc f with Some c => msb 16 c | None => [] end)). lia. }
  assert (9 <= zlen l) as Hn by lia.
  destruct (header_parsed l f Hl Hf Sh Hn) as (Hsync & Huse & Hhd & Hst). unfold mp2_decode_frame.
  assert (exists d1 e1, count_frame d = (d1, e1) /\ mp2_sized d1 /\ filter_state h0 h1 d1) as (d1 & e1 & -> & Hd1 & Hfs1).
  { unfold count_frame. destruct (25 <=? _); do 2 eexists; (split; [reflexivity|]); split; destruct Hd, Hfs; by split. }
  rewrite !get_Some by lia. cbn [mbind option_bind default].
  assert (negb (rd l 0 =? 255) || negb (Z.land (rd l 1) 246 =? 244) || (224 <=? rd l 2 - 16) = false) as -> by (unfold mp2_sync in Hsync; lia).
  pose proof (read_header_spec l Hl Hn) as Hh. rewrite Huse in Hh. destruct Hh as (r & -> & Hr). cbn [mbind option_bind]. rewrite Hhd. rewrite Hst in Hr.
  destruct (audio_decoded l Hl f Hf h0 h1 2304 ltac:(lia) (zlen (enc_header f)) d1 pcm r ltac:(lia) Hd1 Hfs1 Hlen Hr Sa ltac:(lia)) as (d2 & pcm2 & -> & Hfs2 & Hside & Hsz & Hsm & Hl2 & Hpcm2).
  cbn [mbind option_bind]. destruct (lookup_code f Hf) as [_ ->]. do 3 eexists. split; [reflexivity|]. split; [destruct Hside as [_ [Hsf _]]; by split|]. by split.
Qed.


(** A stereo frame with two kinds of code words in the first subband. *)
Definition sample_mp2 : mp2_frame :=
  mkFrame false None 8 1 0 0 0 0 0 (fun ch sb => if sb =? 0 then ch + 1 else 0) (fun _ _ => 1) (fun _ _ part => if part =? 2 then 5 else 3) (fun g ch _ i => (g + ch + i) mod 3).
Definition bytes_of (bits : list Z) : list Z := map (fun i => field bits (8 * i) 8) (seqZ 0 (zlen bits / 8)).
Definition sample_mp2_bytes : list Z := bytes_of (enc_frame sample_mp2 ++ zeros 48).

Lemma stands_check d off l : forallb (fun i => rd d (off + i) =? rd l i) (seqZ 0 (zlen l)) = true -> stands d off l.
Proof. intros H i Hi. rewrite forallb_forall in H. specialize (H i ltac:(apply in_seqZ; lia)). cbv beta in H. lia. Qed.

Lemma sample_mp2_ok : frame_ok sample_mp2.
Proof.
  split; cbn [f_rate f_freq f_padding f_private f_mode f_ext f_rest f_crc f_alloc f_scfsi f_scf f_code sample_mp2]; try lia; try done.
  - intros ch sb Hch Hsb. destruct (Z.eqb_spec sb 0) as [->|]; [change (nbal sample_mp2 0) with 4; change (2 ^ 4) with 16; lia|].
    split; [lia|]. apply Z.pow_pos_nonneg; [lia|]. pose proof (nbal_range sample_mp2 sb). lia.
  - intros ch sb _ _ _. split; [intros part Hp; destruct (part =? 2); lia|]. split; [lia|]. split; [done|]. split; lia.
  - intros g ch sb i _ Hch _ _. unfold code_ok. pose proof (Z.mod_pos_bound (g + ch + i) 3 ltac:(lia)) as Hm. set (c := (_ + _) mod 3) in *.
    destruct (Z.eqb_spec sb 0) as [->|Hne]; [|unfold f_levels; cbn [f_alloc sample_mp2]; by destruct (Z.eqb_spec sb 0)].
    assert (ch = 0 \/ ch = 1) as [->| ->] by lia; intros _; vm_compute (if grouping _ then _ else _); lia.
Qed.

Lemma filter_state_new : filter_state [] [] Mp2Decoder_new.
Proof.
  assert (ring_holds_blocks (zeros 1024) 0 []) as H.
  { split; [done|]. split; [lia|]. split; [done|]. intros k i Hk Hi. rewrite rd_zeros. assert (nth (Z.to_nat k) (@nil (list Z)) [] = []) as -> by (by destruct (Z.to_nat k)).
    symmetry. unfold v_ref. rewrite (zsum_ext 32 _ (fun _ => 0)), zsum_const by (lia || (intros j Hj; assert (rd [] j = 0) as -> by (apply rd_overflow; change (zlen []) with 0; lia); lia)). done. }
  by split.
Qed.

