(* ===== verification/Mp2Processor.v ===== *)
(** * MPEG layer II frames (src/src/base/backend/audio/mp2processor.cpp)

    The frame processor of DAB audio: finds the frames in the bits the backend
    delivers, hands their PAD to the PAD handler and their bytes to the decoder,
    and puts samples and frames into the buffers of the receiver.

    The PAD handler is the one of PadHandler.v, the buffers are ring buffers of
    RingBuffer.v.  [None] is a failing [assert] or an access outside of a buffer. *)
From S2P Require Import Prelude BitExtractors Checked RingBuffer PadHandler Mp2Tables Mp2Decoder.
Open Scope Z_scope.

Inductive ESyncState := SearchingForSync | GetSampleRate | GetData.

Record Mp2Processor := mkMp2 {
  mp2_bitRate : Z;
  my_padhandler : PadHandler;
  audioBuffer : RingBuffer Z;
  frameBuffer : RingBuffer Z;
  sampleRate : Z;
  decoder : Mp2Decoder;
  MP2frame : list Z;
  MP2SyncState : ESyncState;
  MP2framesize : Z;
  MP2headerCount : Z;
  MP2bitCount : Z
}.

Inductive mp2_out := out_mp2 (e : mp2_event) | out_pad (e : pad_event).

Definition Mp2Processor_new (bitRate : Z) (pad : PadHandler) (iopAudioBuffer iopFrameBuffer : RingBuffer Z) : Mp2Processor :=
  let framesize := i16 (24 * bitRate) in
  mkMp2 bitRate pad iopAudioBuffer iopFrameBuffer 48000 Mp2Decoder_new (zeros (2 * framesize)) SearchingForSync framesize 0 0.

Definition set_sync (state : ESyncState) (headerCount bitCount : Z) (s : Mp2Processor) : Mp2Processor :=
  mkMp2 (mp2_bitRate s) (my_padhandler s) (audioBuffer s) (frameBuffer s) (sampleRate s) (decoder s) (MP2frame s) state (MP2framesize s) headerCount bitCount.
Definition set_frame_bits (frame : list Z) (bitCount : Z) (s : Mp2Processor) : Mp2Processor :=
  mkMp2 (mp2_bitRate s) (my_padhandler s) (audioBuffer s) (frameBuffer s) (sampleRate s) (decoder s) frame (MP2SyncState s) (MP2framesize s) (MP2headerCount s) bitCount.
Definition set_rate (rate : Z) (s : Mp2Processor) : Mp2Processor :=
  mkMp2 (mp2_bitRate s) (my_padhandler s) (audioBuffer s) (frameBuffer s) rate (decoder s) (MP2frame s) (MP2SyncState s) (MP2framesize s) (MP2headerCount s) (MP2bitCount s).
Definition set_pad (pad : PadHandler) (s : Mp2Processor) : Mp2Processor :=
  mkMp2 (mp2_bitRate s) pad (audioBuffer s) (frameBuffer s) (sampleRate s) (decoder s) (MP2frame s) (MP2SyncState s) (MP2framesize s) (MP2headerCount s) (MP2bitCount s).
Definition set_output (d : Mp2Decoder) (audio frames : RingBuffer Z) (s : Mp2Processor) : Mp2Processor :=
  mkMp2 (mp2_bitRate s) (my_padhandler s) audio frames (sampleRate s) d (MP2frame s) (MP2SyncState s) (MP2framesize s) (MP2headerCount s) (MP2bitCount s).

Definition set_sample_rate (iSampleRate : Z) (s : Mp2Processor) : Mp2Processor :=
  if sampleRate s =? iSampleRate then s
  else if negb (iSampleRate =? 48000) && negb (iSampleRate =? 24000) then s
  else set_rate iSampleRate s.

(** [_add_bit_to_mp2] *)
Definition add_bit_to_mp2 (ioV : list Z) (ib iNm : Z) : option (list Z) :=
  b ← get ioV (Z.quot iNm 8);
  let newByte := u8 (Z.shiftl 1 (7 - Z.land iNm 7)) in
  Some (wr ioV (Z.quot iNm 8) (if ib =? 0 then Z.land b (u8 (Z.lnot newByte)) else Z.lor b newByte)).

(** [_process_pad_data]: F-PAD and, in front of the scale factor CRC, X-PAD. *)
Definition pad_byte (bits : list Z) (off i : Z) : option Z :=
  inside bits (off + 8 * i) 8 (zfor 0 8 (fun j b => u8 (Z.lor (u8 (Z.shiftl b 1)) (Z.land (rd bits (off + 8 * i + j)) 1))) 0).

Definition process_pad_data (bitRate : Z) (iBits : list Z) (my_padhandler : PadHandler) : option (PadHandler * list pad_event) :=
  let scfCrcSize := if 56000 <=? bitRate * 1000 then 4 else 2 in
  let vLengthBytes := i16 (i16 (Z.quot (24 * bitRate) 8) - (scfCrcSize + 2)) in
  L0 ← inside iBits (zlen iBits - 8) 8 (getBits_8 iBits (zlen iBits - 8));
  L1 ← inside iBits (zlen iBits - 16) 8 (getBits_8 iBits (zlen iBits - 16));
  let fPadType := Z.land (Z.shiftr L1 6) 0x3 in
  let xPadInd := Z.land (Z.shiftr L1 4) 0x3 in
  if negb (fPadType =? 0) || (xPadInd =? 0) || (xPadInd =? 3) then Some (my_padhandler, [])
  else
    let off := if xPadInd =? 1 then 8 * (vLengthBytes - 4) else 0 in
    let vLengthBytes := if xPadInd =? 1 then 4 else vLengthBytes in
    pPadData ← mapM (pad_byte iBits off) (seqZ 0 vLengthBytes);
    process_PAD pPadData (vLengthBytes - 1) L1 L0 my_padhandler.

Definition KJMP2_SAMPLES_PER_FRAME : Z := 1152.

(** A frame is complete. *)
Definition frame_complete (iBits : list Z) (audioBufferFillSize : Z) (s : Mp2Processor) : option (Mp2Processor * list mp2_out) :=
  '(pad, pads) ← process_pad_data (mp2_bitRate s) iBits (my_padhandler s);
  let s := set_pad pad s in
  '(d, frameSize, sample_buf, events) ← mp2_decode_frame (MP2frame s) (Some (zeros (2 * KJMP2_SAMPLES_PER_FRAME))) (decoder s);
  '(s, more) ←
    (if 0 <? frameSize then
       '(frames, _) ← put_data_into_ring_buffer (MP2frame s) frameSize (frameBuffer s);
       '(audio, _) ← put_data_into_ring_buffer sample_buf (2 * KJMP2_SAMPLES_PER_FRAME) (audioBuffer s);
       Some (set_output d audio frames s,
             if audioBufferFillSize <? get_ring_buffer_read_available audio then [signal_new_mp2_frame; signal_new_audio audioBufferFillSize (sampleRate s)] else [])
     else Some (set_output d (audioBuffer s) (frameBuffer s) s, []));
  Some (set_sync SearchingForSync 0 0 s, map out_pad pads ++ map out_mp2 (events ++ more)).

(** [lf], the bits of a frame, is taken at the start of a call and when the
    sample rate has been read. *)
Definition mp2_lf (s : Mp2Processor) : Z := i16 (if sampleRate s =? 48000 then MP2framesize s else 2 * MP2framesize s).

Definition mp2_bit (iBits : list Z) (audioBufferFillSize i : Z) (st : Mp2Processor * list mp2_out * Z) : option (Mp2Processor * list mp2_out * Z) :=
  let '(s, events, lf) := st in
  let bit := rd iBits i in
  match MP2SyncState s with
  | GetData =>
      v ← add_bit_to_mp2 (MP2frame s) bit (MP2bitCount s);
      let s := set_frame_bits v (i16 (MP2bitCount s + 1)) s in
      if lf <=? MP2bitCount s then '(s, more) ← frame_complete iBits audioBufferFillSize s; Some (s, events ++ more, lf)
      else Some (s, events, lf)
  | SearchingForSync =>
      if bit =? 1 then
        let s := set_sync SearchingForSync (i16 (MP2headerCount s + 1)) (MP2bitCount s) s in
        if MP2headerCount s =? 12 then
          v ← zforM 0 12 (fun n v => add_bit_to_mp2 v 1 n) (MP2frame s);
          Some (set_sync GetSampleRate (MP2headerCount s) 12 (set_frame_bits v 12 s), events, lf)
        else Some (s, events, lf)
      else Some (set_sync SearchingForSync 0 (MP2bitCount s) s, events, lf)
  | GetSampleRate =>
      v ← add_bit_to_mp2 (MP2frame s) bit (MP2bitCount s);
      let s := set_frame_bits v (i16 (MP2bitCount s + 1)) s in
      if MP2bitCount s =? 24 then
        rate ← get_mp2_sample_rate (MP2frame s);
        let s := set_sync GetData (MP2headerCount s) (MP2bitCount s) (set_sample_rate rate s) in
        Some (s, events, mp2_lf s)
      else Some (s, events, lf)
  end.

Definition mp2_add_to_frame (iBits : list Z) (s : Mp2Processor) : option (Mp2Processor * list mp2_out) :=
  if negb (MP2framesize s =? i16 (zlen iBits)) then None
  else
    '(s, events, _) ← zforM 0 (MP2framesize s) (mp2_bit iBits (Z.quot (sampleRate s) 8)) (s, [], mp2_lf s);
    Some (s, events).
