(* ===== verification/Mp2Stream.v ===== *)
(** * DAB audio: from the bits of the backend to samples

    The frame processor of MPEG layer II on a stream of logical frames, each with
    one audio frame at 48 kHz: it finds every frame, gives its PAD to the PAD
    handler, and the samples of the reference decoder to the audio buffer. *)
From S2P Require Import Prelude BitExtractors BitFields Checked RingBuffer PadHandler Mp2Tables Mp2Decoder Mp2Standard Mp2Properties Mp2Synthesis Mp2Frames Mp2Processor.
Open Scope Z_scope.

(** ** Bits into bytes *)
Lemma add_bit_byte : forallb (fun b => forallb (fun k => forallb (fun v =>
    let nb := u8 (Z.shiftl 1 (7 - k)) in let x := if v =? 0 then Z.land b (u8 (Z.lnot nb)) else Z.lor b nb in
    (0 <=? x) && (x <? 256) && forallb (fun k' => rd (byte_bits x) k' =? if k' =? k then v else rd (byte_bits b) k') (seqZ 0 8)) [0; 1]) (seqZ 0 8)) (seqZ 0 256) = true.
Proof. by vm_compute. Qed.

Lemma add_bit_ok v b n : Forall is_byte v -> 0 <= n < 8 * zlen v -> is_bit b ->
  exists v', add_bit_to_mp2 v b n = Some v' /\ Forall is_byte v' /\ zlen v' = zlen v /\
    forall k, 0 <= k < 8 * zlen v -> rd (unpack_bits v') k = if k =? n then b else rd (unpack_bits v) k.
Proof.
  intros Hv Hn Hb. unfold add_bit_to_mp2. rewrite Z.quot_div_nonneg by lia. assert (0 <= n / 8 < zlen v) as Hq by (split; [apply Z.div_pos|apply Z.div_lt_upper_bound]; lia).
  rewrite get_Some by done. cbn [mbind option_bind]. replace (Z.land n 7) with (n mod 8) by (change 7 with (Z.ones 3); by rewrite Z.land_ones by lia).
  pose proof (Z.mod_pos_bound n 8 ltac:(lia)) as Hm. pose proof (Z.div_mod n 8 ltac:(lia)) as En. assert (is_byte (rd v (n / 8))) as Hby by (apply rd_Forall; [unfold is_byte; lia|done]).
  set (x := if b =? 0 then _ else _).
  assert (is_byte x /\ forall k', 0 <= k' < 8 -> rd (byte_bits x) k' = if k' =? n mod 8 then b else rd (byte_bits (rd v (n / 8))) k') as [Hx Hk].
  { pose proof add_bit_byte as H. rewrite forallb_forall in H. specialize (H (rd v (n / 8)) ltac:(apply in_seqZ; unfold is_byte in Hby; lia)). cbv beta in H.
    rewrite forallb_forall in H. specialize (H (n mod 8) ltac:(apply in_seqZ; lia)). cbv beta in H. rewrite forallb_forall in H.
    specialize (H b ltac:(unfold is_bit in Hb; assert (b = 0 \/ b = 1) as [->| ->] by lia; [by left|by right; left])). cbv beta zeta in H. fold x in H.
    apply andb_true_iff in H as [H H2]. split; [unfold is_byte; lia|]. intros k' Hk'. rewrite forallb_forall in H2. specialize (H2 k' ltac:(apply in_seqZ; lia)). cbv beta in H2. lia. }
  clearbody x. exists (wr v (n / 8) x). split; [done|]. split; [by apply Forall_wr|]. split; [by rewrite zlen_wr|]. intros k Hkr.
  pose proof (Z.div_mod k 8 ltac:(lia)) as Ek. pose proof (Z.mod_pos_bound k 8 ltac:(lia)) as Mk. assert (0 <= k / 8 < zlen v) as Hkq by (split; [apply Z.div_pos|apply Z.div_lt_upper_bound]; lia).
  rewrite Ek at 1 3. rewrite !rd_unpack by (rewrite ?zlen_wr; lia). destruct (Z.eq_dec (k / 8) (n / 8)) as [E|Hne].
  - rewrite E, rd_wr_eq, Hk by lia. by assert ((k mod 8 =? n mod 8) = (k =? n)) as -> by lia.
  - rewrite rd_wr_ne by lia. by assert ((k =? n) = false) as -> by lia.
Qed.

(** [v] has the first [n] of the bits. *)
Definition has_bits (size n : Z) (bits v : list Z) : Prop :=
  Forall is_byte v /\ zlen v = size /\ forall k, 0 <= k < n -> rd (unpack_bits v) k = rd bits k.

Lemma has_bits_add size n bits v : 0 <= n < 8 * size -> Forall is_bit bits -> has_bits size n bits v ->
  exists v', add_bit_to_mp2 v (rd bits n) n = Some v' /\ has_bits size (n + 1) bits v'.
Proof.
  intros Hn Hb (Hv & Hs & Hk). assert (is_bit (rd bits n)) as Hbit by (apply rd_Forall; [unfold is_bit; lia|done]).
  destruct (add_bit_ok v (rd bits n) n Hv ltac:(lia) Hbit) as (v' & E & Hv' & Hs' & Hk'). exists v'. split; [done|]. split; [done|]. split; [lia|].
  intros k Hkr. rewrite Hk' by lia. destruct (Z.eqb_spec k n) as [->|]; [done|]. apply Hk. lia.
Qed.

Lemma zforM_split {S} lo mid hi (body : Z -> S -> option S) s : lo <= mid <= hi -> zforM lo hi body s = (s' ← zforM lo mid body s; zforM mid hi body s').
Proof.
  intros H. unfold zforM, zfor. replace (hi - lo) with (mid - lo + (hi - mid)) by lia. rewrite seqZ_app, fold_left_app by lia. replace (lo + (mid - lo)) with mid by lia.
  destruct (fold_left _ (seqZ lo (mid - lo)) (Some s)) as [s'|]; [done|]. cbn [mbind option_bind]. by induction (seqZ mid (hi - mid)).
Qed.

(** ** One logical frame *)
(** The audio frame [f] at 48 kHz in the bytes [F], for a sub-channel of [B] kbit/s;
    what the coded samples leave of them is PAD. *)
Record carries (B : Z) (F : list Z) (f : mp2_frame) : Prop := {
  ca_frame : frame_ok f;
  ca_bytes : Forall is_byte F;
  ca_size : zlen F = 3 * B;
  ca_stands : stands (unpack_bits F) 0 (enc_frame f);
  ca_rate : f_mpeg2 f = false /\ f_freq f = 1;
  ca_frame_size : f_bytes f = 3 * B;
  ca_scf_crc : f_channels f = 1 \/ B < 56 \/ 112 <= B
}.

(** The PAD of a frame (EN 300 401, 7.4): its last two bytes are the F-PAD; in
    front of them stands the CRC of the scale factors, two bytes long below 56
    kbit/s for a channel and four bytes from there on, and in front of that the
    X-PAD, of four bytes or of any number. *)
Definition scf_crc_bytes (f : mp2_frame) : Z := if rd (layer2_rates (f_mpeg2 f)) (f_rate f - 1) / f_channels f <? 56 then 2 else 4.
Definition x_pad (f : mp2_frame) (F : list Z) : list Z :=
  let n := zlen F - 2 - scf_crc_bytes f in
  let L1 := rd F (zlen F - 2) in
  if negb (L1 / 64 =? 0) then [] else if L1 / 16 mod 4 =? 1 then slice F (n - 4) 4 else if L1 / 16 mod 4 =? 2 then slice F 0 n else [].

(** Nothing without X-PAD; else the handler gets its bytes, the number of the last
    one and the F-PAD. *)
Definition frame_pad (f : mp2_frame) (F : list Z) (pad : PadHandler) : option (PadHandler * list pad_event) :=
  match x_pad f F with
  | [] => Some (pad, [])
  | x => process_PAD x (zlen x - 1) (rd F (zlen F - 2)) (rd F (zlen F - 1)) pad
  end.

Lemma mapM_total {X Y} (g : X -> option Y) (h : X -> Y) l : (forall x, In x l -> g x = Some (h x)) -> mapM g l = Some (map h l).
Proof.
  induction l as [|x l IH]; intros H; [done|]. cbn [mapM map]. rewrite (H x) by (by left). cbn [mbind option_bind]. rewrite IH by (intros; apply H; by right). done.
Qed.

Lemma collected_byte : forallb (fun b => zfor 0 8 (fun j v => u8 (Z.lor (u8 (Z.shiftl v 1)) (Z.land (rd (byte_bits b) j) 1))) 0 =? b) (seqZ 0 256) = true.
Proof. by vm_compute. Qed.

Lemma pad_byte_ok F o i : Forall is_byte F -> 0 <= o + i < zlen F -> pad_byte (unpack_bits F) (8 * o) i = Some (rd F (o + i)).
Proof.
  intros HF Hi. unfold pad_byte. rewrite inside_Some by (rewrite ?zlen_unpack; lia). f_equal.
  assert (is_byte (rd F (o + i))) as Hb by (apply rd_Forall; [unfold is_byte; lia|done]). pose proof (range_check _ 256 (rd F (o + i)) collected_byte) as H. cbv beta in H.
  assert (forall j b, 0 <= j < 8 -> u8 (Z.lor (u8 (Z.shiftl b 1)) (Z.land (rd (unpack_bits F) (8 * o + 8 * i + j)) 1)) = u8 (Z.lor (u8 (Z.shiftl b 1)) (Z.land (rd (byte_bits (rd F (o + i))) j) 1))) as Ej.
  { intros j b Hj. replace (8 * o + 8 * i + j) with (8 * (o + i) + j) by lia. by rewrite rd_unpack by lia. }
  rewrite (zfor_ext 0 8 _ (fun j v => u8 (Z.lor (u8 (Z.shiftl v 1)) (Z.land (rd (byte_bits (rd F (o + i))) j) 1)))) by (intros; by apply Ej).
  unfold is_byte in Hb. lia.
Qed.

Lemma pad_bytes_ok F o n : Forall is_byte F -> 0 <= o -> 0 <= n -> o + n <= zlen F -> mapM (pad_byte (unpack_bits F) (8 * o)) (seqZ 0 n) = Some (slice F o n).
Proof.
  intros HF Ho Hn Hin. rewrite (mapM_total _ (fun i => rd F (o + i))) by (intros i Hi%in_seqZ; apply pad_byte_ok; [done|lia]). f_equal.
  apply list_eq_rd; rewrite zlen_map_seqZ by lia; [rewrite zlen_slice; lia|]. intros i Hi. rewrite rd_map_seqZ, rd_slice by lia. done.
Qed.

(** The decoder finds it. *)
Lemma pad_found B F f pad : 8 <= B <= 384 -> carries B F f -> process_pad_data B (unpack_bits F) pad = frame_pad f F pad.
Proof.
  intros HB [Hf HF Hsz _ [Hm2 Hfq] Hfs Hcrc]. assert (scf_crc_bytes f = if 56000 <=? B * 1000 then 4 else 2) as Ec.
  { assert (rd (layer2_rates (f_mpeg2 f)) (f_rate f - 1) = B) as ER.
    { unfold f_bytes, layer2_bytes in Hfs. rewrite Hm2, Hfq in *. change (rd (layer2_frequencies false) 1) with 48000 in Hfs. destruct (fo_bits f Hf) as ([Hp _] & _).
      set (r := rd _ _) in *. change (1152 / 8 * 1000) with (3 * 48000) in Hfs. replace (3 * 48000 * r) with (3 * r * 48000) in Hfs by lia. rewrite Z.div_mul in Hfs by lia. destruct (fo_bits f Hf) as (? & _). lia. }
    unfold scf_crc_bytes. rewrite ER. unfold f_channels in *. destruct (f_mode f =? 3).
    - rewrite Z.div_1_r. destruct (Z.ltb_spec B 56), (Z.leb_spec 56000 (B * 1000)); lia.
    - destruct (Z.ltb_spec (B / 2) 56), (Z.leb_spec 56000 (B * 1000)); Z.to_euclidean_division_equations; lia. }
  unfold process_pad_data, frame_pad, x_pad. rewrite zlen_unpack, Hsz, Ec. set (crc := if 56000 <=? B * 1000 then 4 else 2). assert (2 <= crc <= 4) as Hc by (unfold crc; destruct (_ <=? _); lia).
  rewrite Z.quot_div_nonneg by lia. replace (24 * B / 8) with (3 * B) by (Z.to_euclidean_division_equations; lia). rewrite (i16_small (3 * B)), (i16_small (3 * B - _)) by lia.
  rewrite !inside_Some by (rewrite ?zlen_unpack; lia). cbn [mbind option_bind]. rewrite !getBits_8_field by apply unpack_bits_bit.
  replace (8 * (3 * B) - 8) with (8 * (3 * B - 1)) by lia. replace (8 * (3 * B) - 16) with (8 * (3 * B - 2)) by lia. rewrite !field_unpack_byte by (done || lia).
  assert (is_byte (rd F (3 * B - 2))) as Hb by (apply rd_Forall; [unfold is_byte; lia|done]). set (L1 := rd F (3 * B - 2)) in *. unfold is_byte in Hb.
  assert (forall x, Z.land x 3 = x mod 4) as H3 by (intros x; change 3 with (Z.ones 2); by rewrite Z.land_ones by lia).
  rewrite !H3, !Z.shiftr_div_pow2 by lia. change (2 ^ 6) with 64. change (2 ^ 4) with 16.
  rewrite (Z.mod_small (L1 / 64)) by (split; [apply Z.div_pos; lia|apply Z.div_lt_upper_bound; lia]). destruct (L1 / 64 =? 0); cbn [negb orb]; [|done].
  pose proof (Z.mod_pos_bound (L1 / 16) 4 ltac:(lia)) as Hx. set (ind := L1 / 16 mod 4) in *. replace (3 * B - (crc + 2)) with (3 * B - 2 - crc) by lia.
  assert (ind = 0 \/ ind = 1 \/ ind = 2 \/ ind = 3) as [->|[->|[->| ->]]] by lia; cbn [Z.eqb Pos.eqb orb]; [done| | |done].
  - rewrite pad_bytes_ok by (done || lia). cbn [mbind option_bind]. assert (zlen (slice F (3 * B - 2 - crc - 4) 4) = 4) as Lx by (rewrite zlen_slice; lia).
    revert Lx. destruct (slice F (3 * B - 2 - crc - 4) 4); [done|]. by intros ->.
  - change 0 with (8 * 0) at 1. rewrite pad_bytes_ok by (done || lia). cbn [mbind option_bind]. assert (zlen (slice F 0 (3 * B - 2 - crc)) = 3 * B - 2 - crc) as Lx by (rewrite zlen_slice; lia).
    revert Lx. destruct (slice F 0 (3 * B - 2 - crc)); [change (zlen []) with 0; lia|]. by intros ->.
Qed.

(** The processor between two frames; the buffers hold the queues [qa] and [qf]. *)
Record mp2_ready (B ka kf : Z) (qa qf : list Z) (h0 h1 : list (list Z)) (s : Mp2Processor) : Prop := {
  mr_rate : mp2_bitRate s = B /\ MP2framesize s = 24 * B /\ sampleRate s = 48000;
  mr_sync : MP2SyncState s = SearchingForSync /\ MP2headerCount s = 0 /\ MP2bitCount s = 0;
  mr_frame : Forall is_byte (MP2frame s) /\ zlen (MP2frame s) = 48 * B;
  mr_decoder : mp2_sized (decoder s) /\ filter_state h0 h1 (decoder s);
  mr_audio : represents ka qa (audioBuffer s);
  mr_frames : represents kf qf (frameBuffer s)
}.

Definition put_queue (k : Z) (x q : list Z) : list Z := (queue_call (2 ^ k) (op_put x (zlen x)) q).1.

(** The samples of a frame, the channels interleaved. *)
Definition pcm_frame (f : mp2_frame) (h0 h1 : list (list Z)) : list Z :=
  map (fun i => pcm_ref (ref_blocks f (i mod 2) (i / 64 + 1) ++ hist_of (i mod 2) h0 h1) (i / 2 mod 32)) (seqZ 0 2304).

Definition pads_of (l : list mp2_out) : list pad_event := flat_map (fun o => match o with out_pad e => [e] | _ => [] end) l.

Lemma pads_of_events p e : pads_of (map out_pad p ++ map out_mp2 e) = p.
Proof.
  unfold pads_of. rewrite flat_map_app. assert (flat_map (fun o => match o with out_pad e => [e] | _ => [] end) (map out_mp2 e) = []) as -> by (by induction e).
  rewrite app_nil_r. induction p as [|x p IH]; [done|]. cbn. by rewrite IH.
Qed.

Lemma put_represents k x q (s : RingBuffer Z) (data : list Z) n : 0 <= k <= 30 -> zlen x < 2 ^ 32 -> represents k q s -> n = zlen x -> (exists more, data = x ++ more) ->
  exists s' c, put_data_into_ring_buffer data n s = Some (s', c) /\ represents k (put_queue k x q) s'.
Proof.
  intros Hk Hx Hs -> [more ->]. pose proof (zlen_nonneg x). pose proof (zlen_nonneg more).
  destruct (call_simulates k (op_put (x ++ more) (zlen x)) q s Hk) as (s' & E & Hs'); [cbn; rewrite uwrap_small by lia; rewrite zlen_app; lia|done|].
  cbn [ring_call] in E. destruct (put_data_into_ring_buffer (x ++ more) (zlen x) s) as [[s1 n1]|]; [|done]. cbn in E. injection E as -> _. exists s', n1. split; [done|].
  unfold put_queue. cbn [queue_call fst] in *. rewrite uwrap_small in * by lia. rewrite take_app_le in Hs'; [done|]. unfold zlen in *. lia.
Qed.

Lemma has_bits_frame size F v : Forall is_byte F -> zlen F <= size -> has_bits size (8 * zlen F) (unpack_bits F) v -> exists more, v = F ++ more.
Proof.
  intros HF Hle (Hv & Hs & Hk). exists (drop (length F) v). rewrite <- (take_drop (length F) v) at 1. f_equal. pose proof (zlen_nonneg F).
  apply list_eq_rd; [unfold zlen in *; rewrite length_take; lia|]. intros i Hi. assert (zlen (take (length F) v) = zlen F) as Lt by (unfold zlen in *; rewrite length_take; lia). rewrite Lt in Hi.
  rewrite <- (field_unpack_byte F i HF Hi). assert (rd (take (length F) v) i = rd v i) as ->.
  { rewrite <- (take_drop (length F) v) at 2. by rewrite rd_app_l by lia. }
  rewrite <- (field_unpack_byte v i Hv) by lia. unfold field. f_equal. apply map_ext_in. intros k Hkin%in_seqZ. apply Hk. lia.
Qed.

Lemma stands_app_l d more off l : 0 <= off -> off + zlen l <= zlen d -> stands d off l -> stands (d ++ more) off l.
Proof. intros Ho Hl Hs i Hi. rewrite rd_app_l by lia. by apply Hs. Qed.

Section frame.
Context (B ka kf : Z) (HB : 8 <= B <= 384) (Hka : 0 <= ka <= 30) (Hkf : 0 <= kf <= 30).

(** The frame is in [MP2frame]: its PAD and samples are delivered. *)
Lemma frame_complete_ok F f qa qf h0 h1 s fill pad pe :
  carries B F f -> zlen (enc_frame f) <= 8 * zlen F ->
  mp2_bitRate s = B /\ MP2framesize s = 24 * B /\ sampleRate s = 48000 -> has_bits (48 * B) (24 * B) (unpack_bits F) (MP2frame s) ->
  mp2_sized (decoder s) /\ filter_state h0 h1 (decoder s) -> represents ka qa (audioBuffer s) -> represents kf qf (frameBuffer s) ->
  frame_pad f F (my_padhandler s) = Some (pad, pe) ->
  exists s' ev, frame_complete (unpack_bits F) fill s = Some (s', ev) /\
    mp2_ready B ka kf (put_queue ka (pcm_frame f h0 h1) qa) (put_queue kf F qf) (ref_blocks f 0 36 ++ h0) (ref_blocks f 1 36 ++ h1) s' /\
    my_padhandler s' = pad /\ pads_of ev = pe.
Proof.
  intros Hcarries Hfit (Hrate & Hsize & Hsr) Hbits [Hd Hfst] Ha Hfr Hpad. unfold frame_complete. rewrite Hrate, (pad_found B F f _ HB Hcarries), Hpad. destruct Hcarries as [Hf HF Hsz Hst [Hm2 Hfq] Hfs _]. cbn [mbind option_bind].
  destruct (has_bits_frame (48 * B) F (MP2frame s) HF ltac:(lia)) as [more Ev]; [by rewrite Hsz; replace (8 * (3 * B)) with (24 * B) by lia|].
  destruct Hbits as (Hvb & Hvs & _). cbn [MP2frame set_pad decoder]. pose proof (zlen_nonneg (enc_frame f)).
  destruct (frame_decoded (MP2frame s) f h0 h1 (decoder s) (zeros (2 * KJMP2_SAMPLES_PER_FRAME)) Hvb Hf) as (d' & pcm' & events & E & Hd' & Hfst' & Lp & Hpcm); try done.
  { rewrite Ev, unpack_app. apply stands_app_l; [lia|rewrite zlen_unpack; lia|done]. }
  { rewrite Hvs. lia. }
  rewrite E. cbn [mbind option_bind]. rewrite Hfs. assert ((0 <? 3 * B) = true) as -> by lia.
  destruct (put_represents kf F qf (frameBuffer s) (MP2frame s) (3 * B) Hkf ltac:(lia) Hfr ltac:(lia) ltac:(by exists more)) as (fr' & c1 & Ef & Hfr').
  cbn [frameBuffer audioBuffer set_pad]. rewrite Ef. cbn [mbind option_bind].
  assert (pcm' = pcm_frame f h0 h1) as ->.
  { apply list_eq_rd; [rewrite Lp; unfold pcm_frame; by rewrite zlen_map_seqZ by lia|]. intros i Hi. rewrite Lp in Hi. unfold pcm_frame. rewrite rd_map_seqZ by lia.
    rewrite <- Hpcm by (Z.to_euclidean_division_equations; lia). f_equal. Z.to_euclidean_division_equations; lia. }
  destruct (put_represents ka (pcm_frame f h0 h1) qa (audioBuffer s) (pcm_frame f h0 h1) (2 * KJMP2_SAMPLES_PER_FRAME) Hka) as (au' & c2 & Eu & Hau'); [rewrite Lp; lia|done|by rewrite Lp|by exists []; rewrite app_nil_r|].
  rewrite Eu. cbn [mbind option_bind]. do 2 eexists. split; [reflexivity|]. split; [|split; [done|apply pads_of_events]].
  split; [done|done|by split|by split|done|done].
Qed.

(** *** The state machine, bit by bit *)
Definition at_bit (s : Mp2Processor) (state : ESyncState) (headerCount bitCount : Z) (v : list Z) : Mp2Processor :=
  mkMp2 (mp2_bitRate s) (my_padhandler s) (audioBuffer s) (frameBuffer s) (sampleRate s) (decoder s) v state (MP2framesize s) headerCount bitCount.

Lemma zforM_one {S} i hi (body : Z -> S -> option S) s : hi = i + 1 -> zforM i hi body s = body i s.
Proof. intros ->. unfold zforM, zfor. replace (i + 1 - i) with 1 by lia. rewrite seqZ_cons, seqZ_nil by lia. done. Qed.

Lemma bit_8 : forallb (fun b => (Z.land b 8 =? 0) || (Z.lxor (Z.shiftr (Z.land b 8) 1) 4 =? 0)) (seqZ 0 256) = true.
Proof. by vm_compute. Qed.

Lemma same_byte size n v F i : Forall is_byte F -> has_bits size n (unpack_bits F) v -> 0 <= i -> 8 * i + 8 <= n -> i < zlen F -> i < size -> rd v i = rd F i.
Proof.
  intros HF (Hv & Hs & Hk) Hi Hn HiF His. rewrite <- (field_unpack_byte v i Hv) by lia. rewrite <- (field_unpack_byte F i HF) by lia.
  unfold field. f_equal. apply map_ext_in. intros k Hkin%in_seqZ. apply Hk. lia.
Qed.

Lemma sample_rate_48 F f v : carries B F f -> zlen (enc_frame f) <= 8 * zlen F -> has_bits (48 * B) 24 (unpack_bits F) v -> get_mp2_sample_rate v = Some 48000.
Proof.
  intros [Hf HF Hsz Hst [Hm2 Hfq] Hfs _] Hfit Hv. pose proof Hv as (Hvb & Hvs & _).
  change (enc_frame f) with (enc_header f ++ enc_audio f) in Hst. apply stands_app in Hst as [Sh _]. destruct (header_parsed F f HF Hf Sh ltac:(lia)) as (Hsync & _ & Hhd & _).
  unfold mp2_sync in Hsync. zbool. unfold get_mp2_sample_rate. assert ((zlen v =? 0) = false) as -> by lia. rewrite !get_Some by lia. cbn [mbind option_bind].
  assert (forall i, 0 <= i < 3 -> rd v i = rd F i) as Hb by (intros i Hi; apply (same_byte (48 * B) 24); try done; lia). rewrite !Hb by lia.
  assert (negb (rd F 0 =? 255) = false) as -> by lia. assert (negb (Z.land (rd F 1) 246 =? 244) = false) as -> by lia. assert ((224 <=? rd F 2 - 16) = false) as -> by lia.
  f_equal. assert (header_of F = frame_header f) as E by done. unfold header_of, frame_header in E. rewrite Hm2 in E. injection E as E1 E2 _ _ _.
  destruct (byte_flag F 1 HF ltac:(lia)) as [E3 _]. change (8 * 1 + 4) with 12 in E3.
  assert (field (unpack_bits F) 12 1 <> 0) as H12.
  { intros E0. rewrite E0 in E2. cbn [Z.eqb] in E2. pose proof (field_range (unpack_bits F) 20 2 ltac:(lia) (unpack_bits_bit F)). lia. }
  destruct (Z.eqb_spec (field (unpack_bits F) 12 1) 0) as [|_]; [done|].
  assert (Z.lxor (Z.shiftr (Z.land (rd F 1) 8) 1) 4 = 0) as ->.
  { pose proof bit_8 as H8. rewrite forallb_forall in H8. assert (is_byte (rd F 1)) as Hby by (apply rd_Forall; [unfold is_byte; lia|done]). specialize (H8 (rd F 1) ltac:(apply in_seqZ; unfold is_byte in Hby; lia)). cbv beta in H8.
    rewrite E3 in H8. cbn [orb] in H8. lia. }
  assert (Z.land (Z.shiftr (rd F 2) 2) 3 = 1) as ->; [|reflexivity].
  change 3 with (Z.ones 2). rewrite Z.land_ones, Z.shiftr_div_pow2 by lia. rewrite <- Hfq, <- E2. change 20 with (8 * 2 + 4). rewrite field_in_byte by (done || lia). done.
Qed.

Lemma twelve_ones F f k : carries B F f -> 0 <= k < 12 -> rd (unpack_bits F) k = 1.
Proof.
  intros [_ _ _ Hst _ _ _] Hk. change (enc_frame f) with (msb 12 0xFFF ++ drop 12 (enc_frame f)) in Hst. apply stands_app in Hst as [Sh _].
  specialize (Sh k ltac:(rewrite zlen_msb; lia)). rewrite Z.add_0_l in Sh. rewrite Sh.
  assert (k = 0 \/ k = 1 \/ k = 2 \/ k = 3 \/ k = 4 \/ k = 5 \/ k = 6 \/ k = 7 \/ k = 8 \/ k = 9 \/ k = 10 \/ k = 11) as H by lia. by repeat destruct H as [->|H]; [..|rewrite H].
Qed.

Lemma sync_phase F f s fill lf : carries B F f ->
  MP2SyncState s = SearchingForSync /\ MP2headerCount s = 0 /\ MP2bitCount s = 0 -> Forall is_byte (MP2frame s) /\ zlen (MP2frame s) = 48 * B ->
  exists v, zforM 0 12 (mp2_bit (unpack_bits F) fill) (s, [], lf) = Some (at_bit s GetSampleRate 12 12 v, [], lf) /\ has_bits (48 * B) 12 (unpack_bits F) v.
Proof.
  intros Hc (E1 & E2 & E3) [Hv Hs]. rewrite (zforM_split 0 11 12) by lia.
  destruct (zforM_inv (fun i st => st = (at_bit s SearchingForSync i 0 (MP2frame s), [], lf)) 0 11 (mp2_bit (unpack_bits F) fill) (s, [], lf)) as (st & -> & ->); [lia| | |].
  - destruct s. cbn in *. by subst.
  - intros i st Hi ->. eexists. split; [|reflexivity]. unfold mp2_bit. cbn [MP2SyncState at_bit]. rewrite (twelve_ones F f i) by (done || lia). cbn [Z.eqb Pos.eqb].
    cbn [MP2headerCount set_sync at_bit]. rewrite i16_small by lia. assert ((i + 1 =? 12) = false) as -> by lia. done.
  - cbn [mbind option_bind]. rewrite (zforM_one 11 12) by lia. unfold mp2_bit. cbn [MP2SyncState at_bit]. rewrite (twelve_ones F f 11) by (done || lia). cbn [Z.eqb Pos.eqb].
    cbn [MP2headerCount set_sync at_bit]. change (i16 (11 + 1)) with 12. cbn [Z.eqb Pos.eqb MP2frame set_sync at_bit].
    destruct (zforM_inv (fun n v => has_bits (48 * B) n (unpack_bits F) v) 0 12 (fun n v => add_bit_to_mp2 v 1 n) (MP2frame s)) as (v & -> & Hv'); [lia|split_and!; [done|done|intros; lia]| |].
    + intros n v Hn Hv'. destruct (has_bits_add (48 * B) n (unpack_bits F) v ltac:(lia) (unpack_bits_bit F) Hv') as (v' & E & H'). rewrite (twelve_ones F f n Hc Hn) in E. by exists v'.
    + cbn [mbind option_bind]. exists v. by split.
Qed.

Lemma rate_phase F f s fill lf v : carries B F f -> zlen (enc_frame f) <= 8 * zlen F -> sampleRate s = 48000 -> has_bits (48 * B) 12 (unpack_bits F) v ->
  exists v', zforM 12 24 (mp2_bit (unpack_bits F) fill) (at_bit s GetSampleRate 12 12 v, [], lf) = Some (at_bit s GetData 12 24 v', [], mp2_lf s) /\ has_bits (48 * B) 24 (unpack_bits F) v'.
Proof.
  intros Hc Hfit Hsr Hv. rewrite (zforM_split 12 23 24) by lia.
  destruct (zforM_inv (fun i st => exists v, st = (at_bit s GetSampleRate 12 i v, [], lf) /\ has_bits (48 * B) i (unpack_bits F) v) 12 23 (mp2_bit (unpack_bits F) fill) (at_bit s GetSampleRate 12 12 v, [], lf))
    as (st & -> & v2 & -> & Hv2); [lia|by exists v| |].
  - intros i st Hi (v1 & -> & Hv1). unfold mp2_bit. cbn [MP2SyncState at_bit MP2frame MP2bitCount]. destruct (has_bits_add (48 * B) i (unpack_bits F) v1 ltac:(lia) (unpack_bits_bit F) Hv1) as (v3 & -> & Hv3).
    cbn [mbind option_bind MP2bitCount set_frame_bits]. rewrite i16_small by lia. assert ((i + 1 =? 24) = false) as -> by lia. eexists. split; [reflexivity|]. by exists v3.
  - cbn [mbind option_bind]. rewrite (zforM_one 23 24) by lia. unfold mp2_bit. cbn [MP2SyncState at_bit MP2frame MP2bitCount].
    destruct (has_bits_add (48 * B) 23 (unpack_bits F) v2 ltac:(lia) (unpack_bits_bit F) Hv2) as (v3 & -> & Hv3). cbn [mbind option_bind MP2bitCount set_frame_bits MP2frame]. change (i16 (23 + 1)) with 24. cbn [Z.eqb Pos.eqb].
    rewrite (sample_rate_48 F f v3) by done. cbn [mbind option_bind]. exists v3. split; [|done]. unfold set_sample_rate. cbn [sampleRate at_bit set_frame_bits]. rewrite Hsr. cbn [Z.eqb Pos.eqb].
    unfold mp2_lf. cbn. by rewrite Hsr.
Qed.

(** The last bit of the frame completes it. *)
Lemma data_phase F f s fill v : carries B F f -> mp2_bitRate s = B /\ MP2framesize s = 24 * B /\ sampleRate s = 48000 -> has_bits (48 * B) 24 (unpack_bits F) v ->
  exists v', has_bits (48 * B) (24 * B) (unpack_bits F) v' /\
    zforM 24 (24 * B) (mp2_bit (unpack_bits F) fill) (at_bit s GetData 12 24 v, [], mp2_lf s) =
    ('(s', ev) ← frame_complete (unpack_bits F) fill (at_bit s GetData 12 (24 * B) v'); Some (s', ev, mp2_lf s)).
Proof.
  intros Hc (_ & Hsize & Hsr) Hv. assert (mp2_lf s = 24 * B) as Elf by (unfold mp2_lf; rewrite Hsr, Hsize; cbn [Z.eqb Pos.eqb]; apply i16_small; lia). rewrite Elf.
  rewrite (zforM_split 24 (24 * B - 1) (24 * B)) by lia.
  destruct (zforM_inv (fun i st => exists v, st = (at_bit s GetData 12 i v, [], 24 * B) /\ has_bits (48 * B) i (unpack_bits F) v) 24 (24 * B - 1) (mp2_bit (unpack_bits F) fill) (at_bit s GetData 12 24 v, [], 24 * B))
    as (st & -> & v2 & -> & Hv2); [lia|by exists v| |].
  - intros i st Hi (v1 & -> & Hv1). unfold mp2_bit. cbn [MP2SyncState at_bit MP2frame MP2bitCount]. destruct (has_bits_add (48 * B) i (unpack_bits F) v1 ltac:(lia) (unpack_bits_bit F) Hv1) as (v3 & -> & Hv3).
    cbn [mbind option_bind MP2bitCount set_frame_bits]. rewrite i16_small by lia. assert ((24 * B <=? i + 1) = false) as -> by lia. eexists. split; [reflexivity|]. by exists v3.
  - cbn [mbind option_bind]. rewrite (zforM_one (24 * B - 1) (24 * B)) by lia. unfold mp2_bit. cbn [MP2SyncState at_bit MP2frame MP2bitCount].
    destruct (has_bits_add (48 * B) (24 * B - 1) (unpack_bits F) v2 ltac:(lia) (unpack_bits_bit F) Hv2) as (v3 & -> & Hv3). cbn [mbind option_bind MP2bitCount set_frame_bits].
    replace (24 * B - 1 + 1) with (24 * B) in * by lia. rewrite i16_small by lia. rewrite Z.leb_refl. exists v3. split; [done|]. done.
Qed.

(** A call with the bits of a logical frame. *)
Lemma call_ok F f qa qf h0 h1 s pad pe :
  carries B F f -> zlen (enc_frame f) <= 8 * zlen F -> mp2_ready B ka kf qa qf h0 h1 s -> frame_pad f F (my_padhandler s) = Some (pad, pe) ->
  exists s' ev, mp2_add_to_frame (unpack_bits F) s = Some (s', ev) /\
    mp2_ready B ka kf (put_queue ka (pcm_frame f h0 h1) qa) (put_queue kf F qf) (ref_blocks f 0 36 ++ h0) (ref_blocks f 1 36 ++ h1) s' /\
    my_padhandler s' = pad /\ pads_of ev = pe.
Proof.
  intros Hc Hfit [Hrate Hsync Hfr Hd Ha Hq] Hpad. pose proof Hrate as (R1 & R2 & R3). unfold mp2_add_to_frame. rewrite zlen_unpack, (ca_size B F f Hc), R2.
  replace (8 * (3 * B)) with (24 * B) by lia. rewrite i16_small by lia. rewrite Z.eqb_refl. cbn [negb]. set (fill := Z.quot (sampleRate s) 8).
  rewrite (zforM_split 0 12 (24 * B)) by lia. destruct (sync_phase F f s fill (mp2_lf s) Hc Hsync Hfr) as (v1 & -> & Hv1). cbn [mbind option_bind].
  rewrite (zforM_split 12 24 (24 * B)) by lia. destruct (rate_phase F f s fill (mp2_lf s) v1 Hc Hfit R3 Hv1) as (v2 & -> & Hv2). cbn [mbind option_bind].
  destruct (data_phase F f s fill v2 Hc Hrate Hv2) as (v3 & Hv3 & ->).
  destruct (frame_complete_ok F f qa qf h0 h1 (at_bit s GetData 12 (24 * B) v3) fill pad pe Hc Hfit Hrate Hv3 Hd Ha Hq Hpad) as (s' & ev & -> & Hs' & Hp' & He'). cbn [mbind option_bind].
  exists s', ev. by split_and!.
Qed.
End frame.

(** ** The stream *)
Fixpoint mp2_run (calls : list (list Z)) (s : Mp2Processor) : option (Mp2Processor * list mp2_out) :=
  match calls with
  | [] => Some (s, [])
  | bits :: calls => '(s, ev) ← mp2_add_to_frame bits s; '(s, more) ← mp2_run calls s; Some (s, ev ++ more)
  end.

(** What the PAD handler makes of the PAD of the frames. *)
Fixpoint pad_run (items : list (list Z * mp2_frame)) (pad : PadHandler) : option (PadHandler * list pad_event) :=
  match items with
  | [] => Some (pad, [])
  | (F, f) :: items => '(pad, ev) ← frame_pad f F pad; '(pad, more) ← pad_run items pad; Some (pad, ev ++ more)
  end.

(** The queue of samples: the filter's memory goes from frame to frame. *)
Fixpoint audio_after (ka : Z) (fs : list mp2_frame) (h0 h1 : list (list Z)) (q : list Z) : list Z :=
  match fs with
  | [] => q
  | f :: fs => audio_after ka fs (ref_blocks f 0 36 ++ h0) (ref_blocks f 1 36 ++ h1) (put_queue ka (pcm_frame f h0 h1) q)
  end.
Definition frames_after (kf : Z) (Fs : list (list Z)) (q : list Z) : list Z := fold_left (fun q F => put_queue kf F q) Fs q.

Lemma run_ok B ka kf : 8 <= B <= 384 -> 0 <= ka <= 30 -> 0 <= kf <= 30 -> forall items qa qf h0 h1 s pad pe,
  Forall (fun it => carries B (fst it) (snd it) /\ zlen (enc_frame (snd it)) <= 8 * zlen (fst it)) items ->
  mp2_ready B ka kf qa qf h0 h1 s -> pad_run items (my_padhandler s) = Some (pad, pe) ->
  exists s' ev, mp2_run (map (fun it => unpack_bits (fst it)) items) s = Some (s', ev) /\
    represents ka (audio_after ka (map snd items) h0 h1 qa) (audioBuffer s') /\ represents kf (frames_after kf (map fst items) qf) (frameBuffer s') /\
    my_padhandler s' = pad /\ pads_of ev = pe.
Proof.
  intros HB Hka Hkf. induction items as [|[F f] items IH]; intros qa qf h0 h1 s pad pe Hit Hs Hpad.
  - cbn in Hpad. injection Hpad as <- <-. exists s, []. split; [done|]. split; [apply Hs|]. split; [apply Hs|]. done.
  - apply Forall_cons_1 in Hit as [[Hc Hfit] Hit]. cbn [fst snd] in Hc, Hfit. cbn [map pad_run fst] in Hpad. destruct (frame_pad f F (my_padhandler s)) as [[pad1 pe1]|] eqn:E1; [|done].
    cbn [mbind option_bind] in Hpad. destruct (pad_run items pad1) as [[pad2 pe2]|] eqn:E2; [|done]. cbn [mbind option_bind] in Hpad. injection Hpad as <- <-.
    destruct (call_ok B ka kf HB Hka Hkf F f qa qf h0 h1 s pad1 pe1 Hc Hfit Hs E1) as (s1 & ev1 & Ec & Hs1 & Hp1 & He1). rewrite <- Hp1 in E2.
    destruct (IH _ _ _ _ s1 pad2 pe2 Hit Hs1 E2) as (s2 & ev2 & Er & Ha & Hq & Hp2 & He2).
    cbn [map mp2_run fst]. rewrite Ec. cbn [mbind option_bind]. rewrite Er. cbn [mbind option_bind]. exists s2, (ev1 ++ ev2). split; [done|]. split; [done|]. split; [done|]. split; [done|].
    unfold pads_of in *. by rewrite flat_map_app, He1, He2.
Qed.

Lemma new_ready B ka kf qa qf pad audio frames : 8 <= B <= 384 -> represents ka qa audio -> represents kf qf frames ->
  mp2_ready B ka kf qa qf [] [] (Mp2Processor_new B pad audio frames).
Proof.
  intros HB Ha Hq. unfold Mp2Processor_new. rewrite i16_small by lia. split; cbn [mp2_bitRate MP2framesize sampleRate MP2SyncState MP2headerCount MP2bitCount MP2frame decoder audioBuffer frameBuffer]; try done.
  - split; [apply Forall_replicate; unfold is_byte; lia|]. rewrite zlen_zeros; lia.
  - split; [repeat split; repeat constructor|exact filter_state_new].
Qed.


(** A frame with a dynamic label of two characters in its X-PAD: the last byte
    of the field is the contents indicator. *)
Definition sample_x_pad : list Z := rev [2; 0; 0x61; 0; 79; 75].
Definition sample_logical_frame : list Z :=
  bytes_of (enc_frame sample_mp2 ++ zeros (8 * (384 - 6 - zlen sample_x_pad) - zlen (enc_frame sample_mp2))) ++ sample_x_pad ++ [1; 2; 3; 4] ++ [0x20; 0x02].

Lemma sample_carries : carries 128 sample_logical_frame sample_mp2 /\ zlen (enc_frame sample_mp2) <= 8 * zlen sample_logical_frame.
Proof.
  split; [split|vm_compute; discriminate].
  - exact sample_mp2_ok.
  - apply forall_bytes. vm_compute. reflexivity.
  - vm_compute. reflexivity.
  - apply stands_check. vm_compute. reflexivity.
  - by split.
  - vm_compute. reflexivity.
  - right. right. lia.
Qed.

Definition sample_label_shown : pad_event := signal_show_label [79; 75] 0.

