(* ===== verification/Mp2Limits.v ===== *)
(** * Limits of the MPEG layer II decoder

    Frames whose header does not fit the sub-channel, and code words no encoder
    makes, as the decoder takes them. *)
From S2P Require Import Prelude BitExtractors Checked RingBuffer PadHandler Mp2Tables Mp2Decoder Mp2Processor.
Open Scope Z_scope.

Definition rate_8 : Mp2Processor := Mp2Processor_new 8 PadHandler_new (RingBuffer_new 8 0) (RingBuffer_new 4096 0).
Definition rate_32 : Mp2Processor := Mp2Processor_new 32 PadHandler_new (RingBuffer_new 8 0) (RingBuffer_new 4096 0).

(** In a sub-channel of 8 kbit/s, a header that says 384 kbit/s: the frame has
    1152 bytes, which are read for the frame buffer; the vector has 384. *)
Lemma frame_size_unchecked :
  match mp2_decode_frame ([0xFF; 0xFD; 0xE4; 0x00] ++ zeros 380) None Mp2Decoder_new with Some (_, n, _, _) => n = 1152 | None => False end /\
  mp2_add_to_frame (unpack_bits ([0xFF; 0xFD; 0xE4; 0x00] ++ zeros 20)) rate_8 = None.
Proof. split; vm_compute; reflexivity. Qed.

(** In a sub-channel of 32 kbit/s, the same header and a bit allocation of ones:
    the samples are read behind the vector, which has 1536 bytes. *)
Lemma samples_unchecked : mp2_add_to_frame (unpack_bits ([0xFF; 0xFD; 0xE4; 0x00] ++ replicate 92 0xFF)) rate_32 = None.
Proof. vm_compute. reflexivity. Qed.

(** Ten bits code three samples of nine levels; from 729 on the third is not less
    than nine, and the sample is beyond the range of the fixed point format. *)
Definition code_1023 : list Z := map (requantize 9 (resolve_scalefactor 0)) [1023 mod 9; 1023 / 9 mod 9; 1023 / 9 / 9].

Lemma code_out_of_range : rd code_1023 2 = -104848.
Proof. vm_compute. reflexivity. Qed.

(** With it in the twenty subbands that have this quantizer, the sum of the
    matrix does not fit the 16 bits of [V], and changes its sign. *)
Lemma matrixing_wraps : let s := concat (replicate 3 [0; 0; -65536] ++ replicate 20 code_1023 ++ replicate 7 [0; 0; -65536] ++ replicate 2 [0; 0; 0]) in
  zlen s = 96 /\ 32767 < Z.shiftr (zfor 0 32 (fun j sum => sum + N 48 j * rd s (3 * j + 2)) 0) 14 /\ matrixing s 2 48 < 0.
Proof. vm_compute. split; [reflexivity|split; reflexivity]. Qed.
