(* ===== verification/BackendDriver.v ===== *)
(** * Backend driver: from soft bits to services
    (src/src/base/backend/backend_driver.cpp, frame_processor.h, backend.cpp,
    the constructor of data_processor.cpp)

    A backend gives the frames of its sub-channel to a driver, which chooses the
    frame processor by the kind of service: MPEG layer II, DAB+, packet mode data,
    or the base class, which ignores what it gets.  The data processor chooses its
    data handler by the data service component type.

    [FrameProcessor] is the interface the backend is written against; the
    theorems on a backend with a driver hold for every instance.  The AAC decoder
    and the Journaline decoder are parameters, known through [AacDecoder] and
    [VirtualDataHandler]. *)
From S2P Require Import Prelude BitExtractors BitFields Checked Firecode Viterbi Protection Backend AirCoding ChannelCode FibDecoder MotObject MotHandler DataProcessor PadHandler Mp4Processor Mp4Properties RingBuffer DataHandlers Mp2Decoder Mp2Synthesis Mp2Frames Mp2Processor Mp2Stream.
Open Scope Z_scope.

(** ** frame_processor.h *)
Class FrameProcessor (P E : Type) := {
  process_frame : list Z -> P -> option (P * list E)
}.

(** ** A backend with a frame processor *)
Section served.
Context {P E : Type} `{FrameProcessor P E}.

Record Served := mk_served { sv_backend : Backend; sv_driver : P }.

(** [Backend::process] up to [driver.add_to_frame]. *)
Definition serve (iV : list Z) (s : Served) : option (Served * list E) :=
  let '(b, out) := process (sv_backend s) iV in
  match out with
  | None => Some (mk_served b (sv_driver s), [])
  | Some outV => r ← process_frame outV (sv_driver s); Some (mk_served b (fst r), snd r)
  end.

Fixpoint serve_all (inputs : list (list Z)) (s : Served) : option (Served * list E) :=
  match inputs with
  | [] => Some (s, [])
  | iV :: inputs => r ← serve iV s; q ← serve_all inputs (fst r); Some (fst q, snd r ++ snd q)
  end.

Fixpoint feed (frames : list (list Z)) (p : P) : option (P * list E) :=
  match frames with
  | [] => Some (p, [])
  | f :: frames => r ← process_frame f p; q ← feed frames (fst r); Some (fst q, snd r ++ snd q)
  end.

(** The processor sees the frames of [run], and nothing else. *)
Lemma serve_all_feed inputs s :
  (r ← serve_all inputs s; Some (sv_driver (fst r), snd r)) = feed (run (sv_backend s) inputs) (sv_driver s).
Proof.
  revert s. induction inputs as [|iV inputs IH]; intros s; [done|]. cbn [serve_all run]. unfold serve. destruct (process (sv_backend s) iV) as [b [outV|]].
  - change (option_list (Some outV) ++ run b inputs) with (outV :: run b inputs). cbn [feed]. destruct (process_frame outV (sv_driver s)) as [r|]; cbn [mbind option_bind fst snd]; [|done]. specialize (IH (mk_served b (fst r))). cbn [sv_backend sv_driver] in IH. rewrite <- IH.
    destruct (serve_all inputs (mk_served b (fst r))) as [q|]; cbn [mbind option_bind fst snd]; done.
  - change (option_list None ++ run b inputs) with (run b inputs). cbn [mbind option_bind fst snd].
    specialize (IH (mk_served b (sv_driver s))). cbn [sv_backend sv_driver] in IH. rewrite <- IH. destruct (serve_all inputs (mk_served b (sv_driver s))) as [q|]; cbn [mbind option_bind fst snd]; done.
Qed.
End served.
Arguments Served : clear implicits.

(** ** On the air *)
(** The CIFs of logical frames, as soft values: interleaved, with the sixteen
    CIFs it takes until the last frame is complete. *)
Definition transmitted (d : SDescriptorType) (frames inputs : list (list Z)) : Prop :=
  exists soft, (forall r, zlen (soft r) = dCuSize d * 64) /\
    (forall r, 0 <= r < zlen frames -> heard_frame d (nth (Z.to_nat r) frames []) (soft r)) /\
    inputs = map (interleave soft (dCuSize d * 64)) (seqZ 0 (zlen frames + 16)).

Lemma map_nth_seqZ (l : list (list Z)) : map (fun r => nth (Z.to_nat r) l []) (seqZ 0 (zlen l)) = l.
Proof.
  unfold seqZ, zlen. rewrite Nat2Z.id. unfold fmap. rewrite map_map. induction l as [|x l IH] using rev_ind; [done|].
  rewrite length_app. cbn [length]. rewrite seq_app, map_app. cbn [seq map]. rewrite Z.add_0_r, Nat2Z.id, Nat.add_0_l, nth_middle. f_equal. rewrite <- IH at 2.
  apply map_ext_in. intros k Hk%in_seq. rewrite Z.add_0_r, Nat2Z.id. rewrite app_nth1 by lia. done.
Qed.

Lemma run_transmitted d frames inputs : servable d -> dBitRate d <= 32767 -> Forall (logical_frame d) frames -> transmitted d frames inputs ->
  exists b0, Backend_new d = Some b0 /\ run b0 inputs = frames.
Proof.
  intros Hd Hr Hf (soft & Hz & Hh & ->). pose proof (zlen_nonneg frames).
  destruct (recovers_frames d (fun r => nth (Z.to_nat r) frames []) soft (zlen frames + 16)) as (b0 & Eb & E); [done|done|lia|done| |].
  - intros r Hin. assert (0 <= r < zlen frames) as Hrr by lia. split; [|by apply Hh]. rewrite List.Forall_forall in Hf. apply Hf, nth_In. unfold zlen in Hrr. lia.
  - exists b0. split; [done|]. rewrite E. replace (zlen frames + 16 - 16) with (zlen frames) by lia. apply map_nth_seqZ.
Qed.

(** A transmission without noise. *)
Definition clear_soft (d : SDescriptorType) (frames : list (list Z)) (r : Z) : list Z :=
  map (fun c => if c =? 1 then 60 else -17) (air_frame d (nth (Z.to_nat r) frames [])).
Definition clear_inputs (d : SDescriptorType) (frames : list (list Z)) : list (list Z) :=
  map (interleave (clear_soft d frames) (dCuSize d * 64)) (seqZ 0 (zlen frames + 16)).

Lemma clear_transmitted d frames : zlen (ones_at 0 (puncturing d)) = dCuSize d * 64 -> transmitted d frames (clear_inputs d frames).
Proof.
  intros Hz. exists (clear_soft d frames). split_and!; [|intros r _ k Hk|done].
  - intros r. unfold clear_soft, air_frame. by rewrite !zlen_map.
  - unfold clear_soft. rewrite rd_map by done. unfold soft_ok. destruct (rd (air_frame d (nth (Z.to_nat r) frames [])) k =? 1); reflexivity.
Qed.

(** ** The data handlers *)
Section driver.
Context {D J EJ : Type} `{AacDecoder D} `{VirtualDataHandler J EJ}.
(** [__WITH_FDK_AAC__] and the setting of concealment. *)
Context (with_fdk concealDropouts : bool).

Inductive data_handler :=
  | JournalineDataHandler (j : J)
  | tdc_dataHandler (dataBuffer : RingBuffer Z)
  | IpDataHandler (dataBuffer : RingBuffer Z)
  | MotDataHandler (h : MotHandler)
  | VirtualHandler.

Inductive handler_event := ev_journaline (e : EJ) | ev_bytes (e : data_event) | ev_mot (e : mot_event).

#[export] Instance any_data_handler : VirtualDataHandler data_handler handler_event := {
  add_MSC_data_group := fun msc h =>
    match h with
    | JournalineDataHandler j => r ← add_MSC_data_group msc j; Some (JournalineDataHandler (fst r), map ev_journaline (snd r))
    | tdc_dataHandler b => r ← add_MSC_data_group (VirtualDataHandler := tdc_data_handler) msc b; Some (tdc_dataHandler (fst r), map ev_bytes (snd r))
    | IpDataHandler b => r ← add_MSC_data_group (VirtualDataHandler := ip_data_handler) msc b; Some (IpDataHandler (fst r), map ev_bytes (snd r))
    | MotDataHandler m => r ← add_MSC_data_group msc m; Some (MotDataHandler (fst r), map ev_mot (snd r))
    | VirtualHandler => Some (VirtualHandler, [])
    end
}.

(** The switch of the constructor of [DataProcessor]. *)
Definition new_data_handler (DSCTy appType : Z) (journaline : J) (dataBuffer : RingBuffer Z) : data_handler :=
  if DSCTy =? 5 then
    if appType =? 0x44a then JournalineDataHandler journaline
    else if appType =? 4 then tdc_dataHandler dataBuffer
    else VirtualHandler
  else if DSCTy =? 44 then JournalineDataHandler journaline
  else if DSCTy =? 59 then IpDataHandler dataBuffer
  else if DSCTy =? 60 then MotDataHandler MotHandler_new
  else VirtualHandler.

(** ** backend_driver.cpp *)
Inductive service := audio_service (ad : SAudioData) | packet_service (pd : SPacketData) | other_service (d : SDescriptorType).

Definition service_desc (sv : service) : SDescriptorType :=
  match sv with audio_service ad => ad_desc ad | packet_service pd => pd_desc pd | other_service d => d end.

Inductive frame_processor :=
  | fp_mp2 (p : Mp2Processor)
  | fp_mp4 (p : Mp4Processor (D := D))
  | fp_data (p : DataProcessor data_handler)
  | fp_base.

Inductive driver_event := ev_mp2 (e : mp2_out) | ev_mp4 (e : mp4_event) | ev_handler (e : handler_event).

(** [BackendDriver::add_to_frame] *)
#[export] Instance driver_processor : FrameProcessor frame_processor driver_event := {
  process_frame := fun iData p =>
    match p with
    | fp_mp2 p => r ← mp2_add_to_frame iData p; Some (fp_mp2 (fst r), map ev_mp2 (snd r))
    | fp_mp4 p => r ← mp4_add_to_frame with_fdk concealDropouts iData p; Some (fp_mp4 (fst r), map ev_mp4 (snd r))
    | fp_data p => r ← add_to_frame iData p; Some (fp_data (fst r), map ev_handler (snd r))
    | fp_base => Some (fp_base, [])
    end
}.

(** The buffers of the receiver and fresh decoders of the libraries. *)
Record driver_parts := mk_parts {
  ipAudioBuffer : RingBuffer Z;
  ipDataBuffer : RingBuffer Z;
  ipFrameBuffer : RingBuffer Z;
  fresh_aac : D;
  fresh_journaline : J
}.

(** [None] is the access to the first element of an empty vector. *)
Definition BackendDriver_new (sv : service) (parts : driver_parts) : option frame_processor :=
  match sv with
  | audio_service ad =>
      if negb (ad_ASCTy ad =? 63)
      then Some (fp_mp2 (Mp2Processor_new (dBitRate (ad_desc ad)) PadHandler_new (ipAudioBuffer parts) (ipFrameBuffer parts)))
      else Some (fp_mp4 (Mp4Processor_new (dBitRate (ad_desc ad)) PadHandler_new (fresh_aac parts)))
  | packet_service pd =>
      match pd_appTypeVec pd with
      | [] => None
      | appType :: _ =>
          Some (fp_data (DataProcessor_new (dBitRate (pd_desc pd)) (pd_DSCTy pd) (negb (pd_DGflag pd =? 0)) (pd_PacketAddress pd)
            (new_data_handler (pd_DSCTy pd) appType (fresh_journaline parts) (ipDataBuffer parts))))
      end
  | other_service _ => Some fp_base
  end.

(** The constructor of [Backend] with its driver. *)
Definition Served_new (sv : service) (parts : driver_parts) : option (Served frame_processor) :=
  b ← Backend_new (service_desc sv); p ← BackendDriver_new sv parts; Some (mk_served b p).

(** ** Reception *)
Lemma feed_mp2 calls s : feed calls (fp_mp2 s) = r ← mp2_run calls s; Some (fp_mp2 (fst r), map ev_mp2 (snd r)).
Proof.
  revert s. induction calls as [|c calls IH]; intros s; [done|]. cbn [feed mp2_run process_frame driver_processor]. destruct (mp2_add_to_frame c s) as [[s1 e1]|]; cbn [mbind option_bind fst snd]; [|done].
  rewrite IH. destruct (mp2_run calls s1) as [[s2 e2]|]; cbn [mbind option_bind fst snd]; [|done]. by rewrite map_app.
Qed.

Lemma feed_mp4 frames s : feed frames (fp_mp4 s) = r ← Mp4Properties.feed_frames with_fdk concealDropouts frames s; Some (fp_mp4 (fst r), map ev_mp4 (snd r)).
Proof.
  revert s. induction frames as [|f frames IH]; intros s; [done|]. cbn [feed Mp4Properties.feed_frames process_frame driver_processor]. destruct (mp4_add_to_frame with_fdk concealDropouts f s) as [[s1 e1]|]; cbn [mbind option_bind fst snd]; [|done].
  rewrite IH. destruct (Mp4Properties.feed_frames with_fdk concealDropouts frames s1) as [[s2 e2]|]; cbn [mbind option_bind fst snd]; [|done]. by rewrite map_app.
Qed.

Lemma feed_data frames s : feed frames (fp_data s) = r ← DataProcessor.feed_frames frames s; Some (fp_data (fst r), map ev_handler (snd r)).
Proof.
  revert s. induction frames as [|f frames IH]; intros s; [done|]. cbn [feed DataProcessor.feed_frames process_frame driver_processor]. destruct (add_to_frame f s) as [[s1 e1]|]; cbn [mbind option_bind fst snd]; [|done].
  rewrite IH. destruct (DataProcessor.feed_frames frames s1) as [[s2 e2]|]; cbn [mbind option_bind fst snd]; [|done]. by rewrite map_app.
Qed.

(** Everything a served service does is the work of its frame processor on the
    frames that were sent. *)
Lemma served_feed sv parts p0 frames inputs :
  servable (service_desc sv) -> dBitRate (service_desc sv) <= 32767 -> Forall (logical_frame (service_desc sv)) frames ->
  transmitted (service_desc sv) frames inputs -> BackendDriver_new sv parts = Some p0 ->
  exists s0, Served_new sv parts = Some s0 /\ (r ← serve_all inputs s0; Some (sv_driver (fst r), snd r)) = feed frames p0.
Proof.
  intros Hd Hr Hf Ht Hp. destruct (run_transmitted (service_desc sv) frames inputs Hd Hr Hf Ht) as (b0 & Eb & E). exists (mk_served b0 p0). split.
  - unfold Served_new. rewrite Eb, Hp. done.
  - rewrite serve_all_feed. cbn [sv_backend sv_driver]. by rewrite E.
Qed.

Lemma unpacked_frame d F : Forall is_byte F -> zlen F = 3 * dBitRate d -> logical_frame d (unpack_bits F).
Proof. intros HF Hl. split; [apply unpack_bits_bit|rewrite zlen_unpack; lia]. Qed.


(** DAB+. *)
Lemma air_frames_logical dims x d : 0 < dims -> air_ok dims x -> dBitRate d = 8 * dims -> Forall (logical_frame d) (air_frames dims (air_bytes dims x)).
Proof.
  intros Hd [Hsf Herr] Hr. assert (zlen (air_bytes dims x) = dims * 120) as HFl by (apply zlen_tabulate; lia).
  assert (Forall is_byte (air_bytes dims x)) as HF by (apply (received_bytes dims (payload (fst x)) (snd x)); [apply (payload_bytes dims); exact Hsf|exact Herr]).
  apply List.Forall_forall. intros f (b & <- & Hin%in_seqZ)%in_map_iff. apply unpacked_frame; [by apply Forall_slice|]. rewrite zlen_slice; nia.
Qed.

(** C6: from the air to the access units, DAB+: a new backend of a DAB+ service in a
    sub-channel it can serve (not UEP at 80 kbit/s on level 1), given soft values of
    the right signs for super frames with right fire codes, right CRCs and up to five
    damaged bytes per Reed-Solomon word, whose PAD the PAD handler reads without
    failing, hands every access unit in order to the AAC decoder, as the bytes that
    were sent and with the announced parameters, and the PAD in them to the PAD
    handler. *)
Theorem dab_plus_received (ad : SAudioData) (parts : driver_parts) (dims : Z) (xs : list (super_frame * (Z -> list (Z * Z)))) (inputs : list (list Z))
    (pad' : PadHandler) (dec' : D) (evs : list mp4_event) :
  ad_ASCTy ad = 63 -> servable (ad_desc ad) -> dBitRate (ad_desc ad) = 8 * dims -> 0 < dims <= 48 -> Forall (air_ok dims) xs ->
  (exists x, head xs = Some x /\ fire_right (air_bytes dims x) = true) ->
  deliver_super_frames with_fdk concealDropouts (map fst xs) PadHandler_new (fresh_aac parts) = Some (pad', dec', evs) ->
  transmitted (ad_desc ad) (flat_map (fun x => air_frames dims (air_bytes dims x)) xs) inputs ->
  exists s0 s' p ev, Served_new (audio_service ad) parts = Some s0 /\ serve_all inputs s0 = Some (s', map ev_mp4 ev) /\ sv_driver s' = fp_mp4 p /\
    mPadhandler p = pad' /\ mpAacDecoder p = dec' /\ audible ev = evs.
Proof.
  intros Has Hd Hr Hdims Hxs Hhead Hdel Ht.
  destruct (served_feed (audio_service ad) parts (fp_mp4 (Mp4Processor_new (dBitRate (ad_desc ad)) PadHandler_new (fresh_aac parts)))
    (flat_map (fun x => air_frames dims (air_bytes dims x)) xs) inputs) as (s0 & E0 & E); cbn [service_desc]; try done; [lia| |cbn [BackendDriver_new]; by rewrite Has|].
  { apply List.Forall_forall. intros f (x & Hx & Hin)%in_flat_map. rewrite List.Forall_forall in Hxs. specialize (Hxs x Hx).
    pose proof (air_frames_logical dims x (ad_desc ad) ltac:(lia) Hxs Hr) as Hl. rewrite List.Forall_forall in Hl. by apply Hl. }
  rewrite feed_mp4 in E. set (p0 := Mp4Processor_new _ _ _) in *.
  assert (i16 (Z.quot (dBitRate (ad_desc ad)) 8) = dims) as Ed by (rewrite Hr, Z.mul_comm, Z.quot_mul by lia; apply i16_small; lia).
  destruct (super_frames_run with_fdk concealDropouts dims xs p0 pad' dec' evs Hdims Hxs) as (p & ev & Er & Hp & Hdc & Ha & _ & _).
  { unfold p0, Mp4Processor_new. rewrite Ed. split; cbn [mp4_BitRate mFrameByteVec mOutVec mBlockFillIndex]; [done|apply zlen_zeros; lia|apply zlen_zeros; lia|lia]. }
  { reflexivity. } { by right. } { exact Hdel. }
  rewrite Er in E. cbn [mbind option_bind fst snd] in E. destruct (serve_all inputs s0) as [[s' ev']|] eqn:Es; [|done]. cbn [mbind option_bind fst snd] in E. injection E as E1 E2. subst ev'.
  exists s0, s', p, ev. split_and!; done.
Qed.

(** C14: from the air to the data groups, packet mode: a new backend of a data service
    in a sub-channel it can serve gives its data handler exactly the data groups of
    the service's packets, whatever packets of other services are between them - when
    the packets of the service arrive with right CRCs and numbered consecutively from
    0, and no packet that is first and last comes within the series of another group.
    (The lemmas [gap_is_joined] and [single_after_gap_lost] show what happens
    otherwise.) *)
Theorem packet_service_received (pd : SPacketData) (parts : driver_parts) (appType : Z) (more : list Z) (fss : list (list packet)) (gs : list (list Z)) (inputs : list (list Z)) :
  let d := pd_desc pd in
  let h := new_data_handler (pd_DSCTy pd) appType (fresh_journaline parts) (ipDataBuffer parts) in
  pd_appTypeVec pd = appType :: more -> negb (pd_DSCTy pd =? 5) || (pd_DGflag pd =? 0) = true -> servable d -> dBitRate d <= 32767 ->
  Forall (fun ps => ps <> [] /\ Forall packet_ok ps /\ zlen (frame_bits ps) = 24 * dBitRate d) fss ->
  let mine := List.filter (fun p => pd_PacketAddress pd =? pk_address p) (concat fss) in
  intact 0 mine -> stream None (fragments mine) gs -> transmitted d (map frame_bits fss) inputs ->
  exists s0, Served_new (packet_service pd) parts = Some s0 /\
    match deliver gs h with
    | Some (h', ev) => exists s' p, serve_all inputs s0 = Some (s', map ev_handler ev) /\ sv_driver s' = fp_data p /\ mpDataHandler p = h'
    | None => serve_all inputs s0 = None
    end.
Proof.
  cbv zeta. intros Happ Hmode Hd Hr Hok Hi Hst Ht. set (h := new_data_handler _ _ _ _).
  set (p0 := DataProcessor_new (dBitRate (pd_desc pd)) (pd_DSCTy pd) (negb (pd_DGflag pd =? 0)) (pd_PacketAddress pd) h).
  destruct (served_feed (packet_service pd) parts (fp_data p0) (map frame_bits fss) inputs) as (s0 & E0 & E); cbn [service_desc]; try done.
  { apply List.Forall_forall. intros f (ps & <- & Hin)%in_map_iff. rewrite List.Forall_forall in Hok. destruct (Hok ps Hin) as (_ & Hps & Hl). split; [by apply frame_bits_bit|done]. }
  { cbn [BackendDriver_new]. by rewrite Happ. }
  exists s0. split; [done|]. rewrite feed_data in E.
  assert (packet_mode p0) as Hm by (unfold packet_mode; cbn [mDSCTy mDGflag p0 DataProcessor_new]; destruct (pd_DSCTy pd =? 5), (pd_DGflag pd =? 0); done).
  rewrite (feed_frames_packets fss p0 Hm Hok) in E.
  assert (delivers (concat fss) p0 gs) as Hdel by (apply (run_packets_stream (concat fss) gs None p0); [cbn; lia|exact Hi|exact Hst|reflexivity]).
  unfold delivers in Hdel. change (mpDataHandler p0) with h in Hdel. destruct (deliver gs h) as [[h' ev]|].
  - destruct Hdel as (p & Er & Hp). rewrite Er in E. cbn [mbind option_bind fst snd] in E. destruct (serve_all inputs s0) as [[s' ev']|] eqn:Es; [|done].
    cbn [mbind option_bind fst snd] in E. injection E as E1 E2. subst ev'. exists s', p. by split_and!.
  - rewrite Hdel in E. cbn [mbind option_bind] in E. by destruct (serve_all inputs s0) as [[s' ev']|].
Qed.
End driver.

(** ** Instances *)
#[local] Instance keeping_decoder : AacDecoder (list (list Z)) := {
  convert_mp4_to_pcm := fun _ buf len d => (d ++ [take (Z.to_nat len) buf], 1);
  conceal_lost_frame := fun _ d => d
}.

#[local] Instance counting_journaline : VirtualDataHandler Z unit := { add_MSC_data_group := fun _ n => Some (n + 1, [tt]) }.

Definition sample_parts : driver_parts (D := list (list Z)) (J := Z) := mk_parts (RingBuffer_new 8 0) (RingBuffer_new 8 0) (RingBuffer_new 8 0) [] 0.

Definition sample_packet_service : service := packet_service (mk_pd sample_desc 60 0 0 [2] 5 0 None [] []).
Definition sample_audio : SAudioData := mk_ad (mkDescriptor 0 0 96 false 2 128 0) 0 [] [].
Definition sample_dab_plus : SAudioData := mk_ad sample_desc 63 [] [].

Lemma sample_valid : servable sample_desc.
Proof. split; [|reflexivity]. split; [cbn; lia|]. cbn. split; [lia|]. left. split; [lia|reflexivity]. Qed.

Lemma sample_clear frames : transmitted sample_desc frames (clear_inputs sample_desc frames).
Proof. apply clear_transmitted. vm_compute. reflexivity. Qed.

Lemma sample_audio_valid : servable (ad_desc sample_audio).
Proof. split; [|reflexivity]. split; [cbn; lia|]. cbn. split; [lia|]. left. split; [lia|reflexivity]. Qed.

Lemma sample_audio_clear frames : transmitted (ad_desc sample_audio) frames (clear_inputs (ad_desc sample_audio) frames).
Proof. apply clear_transmitted. vm_compute. reflexivity. Qed.

Lemma sample_frames_ok : Forall (fun ps => ps <> [] /\ Forall packet_ok ps /\ zlen (frame_bits ps) = 24 * dBitRate sample_desc) sample_frames.
Proof.
  repeat (constructor; [split; [discriminate|split; [constructor; [apply packet_ok_dec; vm_compute; reflexivity|constructor]|vm_compute; reflexivity]]|]).
  constructor.
Qed.


Lemma dab_plus_received_witness :
  exists s0 s' p ev, Served_new (audio_service sample_dab_plus) sample_parts = Some s0 /\
    serve_all (H := driver_processor false true)
      (clear_inputs sample_desc (flat_map (fun x => air_frames 1 (air_bytes 1 x)) [sample_air; sample_air])) s0 = Some (s', map ev_mp4 ev) /\
    sv_driver s' = fp_mp4 p /\ mpAacDecoder p = sample_units ++ sample_units /\
    List.filter (fun e => match e with mp4_pad_event _ => true | _ => false end) (audible ev) = [label_event; label_event].
Proof.
  assert (exists pad' evs, deliver_super_frames false true [fst sample_air; fst sample_air] PadHandler_new [] = Some (pad', sample_units ++ sample_units, evs) /\
    List.filter (fun e => match e with mp4_pad_event _ => true | _ => false end) evs = [label_event; label_event]) as (pad' & evs & Hdel & Hev) by (eexists _, _; split; vm_compute; reflexivity).
  destruct (dab_plus_received false true sample_dab_plus sample_parts 1 [sample_air; sample_air]
    (clear_inputs sample_desc (flat_map (fun x => air_frames 1 (air_bytes 1 x)) [sample_air; sample_air])) pad' (sample_units ++ sample_units) evs)
    as (s0 & s' & p & ev & E0 & E & Ep & _ & Hd & He).
  - reflexivity.
  - exact sample_valid.
  - reflexivity.
  - lia.
  - clear. repeat (constructor; [apply sample_air_ok|]). constructor.
  - exists sample_air. split; [reflexivity|vm_compute; reflexivity].
  - exact Hdel.
  - clear. apply sample_clear.
  - exists s0, s', p, ev. split; [exact E0|]. split; [exact E|]. split; [exact Ep|]. split; [exact Hd|]. rewrite He. exact Hev.
Defined.

Lemma packet_service_received_witness :
  exists s0, Served_new sample_packet_service sample_parts = Some s0 /\
    match deliver [msb 16 0xABCD ++ msb 8 0xEF] (new_data_handler 60 2 0 (RingBuffer_new 8 0)) with
    | Some (h', ev) => exists s' p,
        serve_all (H := driver_processor false true) (clear_inputs sample_desc (map frame_bits sample_frames)) s0 = Some (s', map ev_handler ev) /\
        sv_driver s' = fp_data p /\ mpDataHandler p = h'
    | None => serve_all (H := driver_processor false true) (clear_inputs sample_desc (map frame_bits sample_frames)) s0 = None
    end.
Proof.
  apply (packet_service_received false true (mk_pd sample_desc 60 0 0 [2] 5 0 None [] []) sample_parts 2 [] sample_frames [msb 16 0xABCD ++ msb 8 0xEF]
    (clear_inputs sample_desc (map frame_bits sample_frames))).
  - reflexivity.
  - reflexivity.
  - exact sample_valid.
  - cbn. lia.
  - exact sample_frames_ok.
  - split; [vm_compute; reflexivity|]. apply List.Forall_forall. intros p Hp. cbn [sample_frames concat app List.filter] in Hp.
    vm_compute in Hp. repeat (destruct Hp as [<-|Hp]; [vm_compute; reflexivity|]). destruct Hp.
  - vm_compute. apply stream_first. apply (stream_last (msb 16 0xABCD) (msb 8 0xEF)). constructor.
  - apply sample_clear.
Defined.
