(* ===== verification/F32.v ===== *)
(** * Single precision numbers (src/src/common/glob_defs.h)

    [f32] is the binary32 format of IEEE 754 in the definitions of the Standard
    Library: 24 bits of mantissa, exponents up to 128, rounding to nearest even.
    Comparisons with a NaN are false, as in C++.  The lemmas are about the order:
    it is transitive, and total but for NaN, and sums and products of magnitudes are
    magnitudes. *)
From Stdlib Require Import SpecFloat.
From S2P Require Import Prelude.
Open Scope Z_scope.

Definition f32 : Type := spec_float.

Definition f32_add : f32 -> f32 -> f32 := SFadd 24 128.
Definition f32_sub : f32 -> f32 -> f32 := SFsub 24 128.
Definition f32_mul : f32 -> f32 -> f32 := SFmul 24 128.
Definition f32_div : f32 -> f32 -> f32 := SFdiv 24 128.
(** [<]; [a > b] is [f32_lt b a]. *)
Definition f32_lt : f32 -> f32 -> bool := SFltb.
Definition f32_eq : f32 -> f32 -> bool := SFeqb.
(** The conversion of an integer, and the literal [n/d]: the division of the
    standard is correctly rounded. *)
Definition f32_of (z : Z) : f32 := binary_normalize 24 128 z 0 false.
Definition f32_lit (n d : Z) : f32 := f32_div (f32_of n) (f32_of d).
Definition f32_zero : f32 := S754_zero false.
Definition is_nan (x : f32) : bool := match x with S754_nan => true | _ => false end.

(** The conversion to an integer cuts the fraction off; [None] where C++ leaves
    the result undefined. *)
Definition f32_trunc (x : f32) : option Z :=
  match x with
  | S754_zero _ => Some 0
  | S754_finite s m e =>
      let a := if 0 <=? e then Z.pos m * 2 ^ e else Z.pos m / 2 ^ (- e) in
      Some (if s then - a else a)
  | _ => None
  end.

(** [limit_symmetrically] *)
Definition limit_symmetrically (ioVal iLimit : f32) : f32 :=
  if f32_lt iLimit ioVal then iLimit
  else if f32_lt ioVal (SFopp iLimit) then SFopp iLimit
  else ioVal.

(** [mean_filter] *)
Definition mean_filter (ioVal iVal iAlpha : f32) : f32 := f32_add ioVal (f32_mul iAlpha (f32_sub iVal ioVal)).

(** ** The order *)
(** What [SFcompare] looks at: sign or magnitude class, exponent, mantissa. *)
Definition key (x : f32) : option (Z * Z * Z) :=
  match x with
  | S754_nan => None
  | S754_infinity s => Some (if s then -2 else 2, 0, 0)
  | S754_zero _ => Some (0, 0, 0)
  | S754_finite s m e => Some (if s then (-1, - e, - Z.pos m) else (1, e, Z.pos m))
  end.

Definition key_lt (a b : Z * Z * Z) : Prop :=
  let '(s, e, m) := a in let '(s', e', m') := b in s < s' \/ s = s' /\ (e < e' \/ e = e' /\ m < m').

Lemma f32_lt_key a b : f32_lt a b = true <-> exists k l, key a = Some k /\ key b = Some l /\ key_lt k l.
Proof.
  assert (forall P : Prop, (false = true <-> P) <-> ~ P) as HF by (intros P; split; [intros [_ H] HP; by specialize (H HP)|by intros H; split]).
  assert (forall k l, (exists k' l', Some k = Some k' /\ Some l = Some l' /\ key_lt k' l') <-> key_lt k l) as HE
    by (intros k l; split; [by intros (? & ? & [= <-] & [= <-] & ?)|eauto]).
  unfold f32_lt, SFltb, SFcompare.
  destruct a as [sa|sa| |sa ma ea], b as [sb|sb| |sb mb eb]; cbn [key]; try (rewrite HF; intros (? & ? & ? & ? & ?); discriminate);
    rewrite HE; try (destruct sa); try (destruct sb); cbn; try lia;
    try (split; [done|lia]); try (split; [lia|done]).
  - destruct (Z.compare_spec ea eb); [|split; [done|lia]|split; [intros _; lia|done]].
    change (Pos.compare_cont Eq ma mb) with (Pos.compare ma mb). destruct (Pos.compare_spec ma mb); cbn; subst; (split; [done || lia|done || lia]).
  - destruct (Z.compare_spec ea eb); [|split; [intros _; lia|done]|split; [done|lia]].
    change (Pos.compare_cont Eq ma mb) with (Pos.compare ma mb). destruct (Pos.compare_spec ma mb); cbn; subst; (split; [done || lia|done || lia]).
Qed.

Lemma key_nan x : is_nan x = false -> exists k, key x = Some k.
Proof. destruct x; cbn; eauto; done. Qed.

Lemma f32_lt_trans a b c : f32_lt a b = true -> f32_lt b c = true -> f32_lt a c = true.
Proof.
  rewrite !f32_lt_key. intros (k & l & Ek & El & H) (l' & m & El' & Em & H'). rewrite El in El'. injection El' as <-.
  exists k, m. split; [done|]. split; [done|]. destruct k as [[? ?] ?], l as [[? ?] ?], m as [[? ?] ?]. cbn in *. lia.
Qed.

(** Numbers are at most one of less and greater; what is not less than a number
    is not less than anything above. *)
Lemma f32_lt_asym a b : f32_lt a b = true -> f32_lt b a = false.
Proof.
  intros H. apply not_true_iff_false. intros H'. pose proof (f32_lt_trans a b a H H') as Hs. rewrite f32_lt_key in Hs.
  destruct Hs as (k & l & -> & [= <-] & Hk). destruct k as [[? ?] ?]. cbn in Hk. lia.
Qed.

Lemma f32_nlt_lt a b c : is_nan b = false -> f32_lt b a = false -> f32_lt b c = true -> is_nan a = false -> f32_lt a c = true.
Proof.
  intros Hb Hba Hbc Ha. destruct (key_nan a Ha) as [k Ek]. rewrite f32_lt_key in Hbc. destruct Hbc as (l & m & El & Em & H).
  apply f32_lt_key. exists k, m. split; [done|]. split; [done|]. apply not_true_iff_false in Hba. rewrite f32_lt_key in Hba.
  assert (~ key_lt l k) as Hn by (intros Hlk; apply Hba; eauto). destruct k as [[? ?] ?], l as [[? ?] ?], m as [[? ?] ?]. cbn in *. lia.
Qed.

Lemma f32_lt_nlt a b c : f32_lt a b = true -> f32_lt c b = false -> is_nan c = false -> f32_lt a c = true.
Proof.
  intros Hab Hcb Hc. destruct (key_nan c Hc) as [m Em]. rewrite f32_lt_key in Hab. destruct Hab as (k & l & Ek & El & H).
  apply f32_lt_key. exists k, m. split; [done|]. split; [done|]. apply not_true_iff_false in Hcb. rewrite f32_lt_key in Hcb.
  assert (~ key_lt m l) as Hn by (intros Hlk; apply Hcb; eauto). destruct k as [[? ?] ?], l as [[? ?] ?], m as [[? ?] ?]. cbn in *. lia.
Qed.

Lemma f32_lt_nan_l a b : f32_lt a b = true -> is_nan a = false /\ is_nan b = false.
Proof. destruct a, b; done. Qed.

(** ** Magnitudes *)
(** Not NaN and without a minus sign; an infinity is possible. *)
Definition nonneg (x : f32) : Prop :=
  match x with S754_zero false | S754_infinity false | S754_finite false _ _ => True | _ => False end.

Lemma shr_1_nonneg r : 0 <= shr_m r -> 0 <= shr_m (shr_1 r).
Proof. destruct r as [[|[p|p|]|p] ? ?]; cbn; lia. Qed.

Lemma iter_shr_nonneg p r : 0 <= shr_m r -> 0 <= shr_m (SpecFloat.iter_pos shr_1 p r).
Proof. revert r. induction p as [p IH|p IH|]; intros r Hr; cbn [SpecFloat.iter_pos]; auto using shr_1_nonneg. Qed.

Lemma shr_fexp_nonneg m e l : 0 <= m -> 0 <= shr_m (fst (shr_fexp 24 128 m e l)).
Proof.
  intros Hm. unfold shr_fexp, shr. assert (0 <= shr_m (shr_record_of_loc m l)) as H by (by destruct l as [|[]]).
  destruct (_ - _); cbn [fst]; auto using iter_shr_nonneg.
Qed.

Lemma round_nonneg m e l : 0 <= m -> nonneg (binary_round_aux 24 128 false m e l).
Proof.
  intros Hm. unfold binary_round_aux. pose proof (shr_fexp_nonneg m e l Hm) as H1. destruct (shr_fexp 24 128 m e l) as [r1 e1]. cbn [fst] in H1.
  assert (0 <= round_nearest_even (shr_m r1) (loc_of_shr_record r1)) as H2 by (unfold round_nearest_even; destruct (loc_of_shr_record r1) as [|[]]; try lia; destruct (Z.even _); lia).
  pose proof (shr_fexp_nonneg _ e1 loc_Exact H2) as H3. destruct (shr_fexp 24 128 _ e1 loc_Exact) as [r2 e2]. cbn [fst] in H3.
  destruct (shr_m r2); [done| |lia]. by destruct (_ <=? _).
Qed.

Lemma normalize_nonneg m e : 0 <= m -> nonneg (binary_normalize 24 128 m e false).
Proof. intros Hm. destruct m as [|m|m]; [done| |lia]. cbn [binary_normalize]. unfold binary_round. destruct (shl_align m e _). apply round_nonneg. lia. Qed.

Lemma f32_add_nonneg a b : nonneg a -> nonneg b -> nonneg (f32_add a b).
Proof. destruct a as [[]|[]| |[] ma ea], b as [[]|[]| |[] mb eb]; try done. intros _ _. cbn. apply normalize_nonneg. lia. Qed.

(** A finite number above zero. *)
Definition positive_number (x : f32) : Prop := match x with S754_finite false _ _ => True | _ => False end.

Lemma f32_mul_nonneg a b : positive_number a -> nonneg b -> nonneg (f32_mul a b).
Proof. destruct a as [| | |[] ma ea], b as [[]|[]| |[] mb eb]; try done. intros _ _. cbn. apply round_nonneg. lia. Qed.

Lemma f32_div_nonneg a b : nonneg a -> positive_number b -> nonneg (f32_div a b).
Proof.
  destruct b as [| | |[] mb eb], a as [[]|[]| |[] ma ea]; try done. intros _ _. cbn -[SFdiv_core_binary].
  assert (forall q e l, SFdiv_core_binary 24 128 (Z.pos ma) ea (Z.pos mb) eb = (q, e, l) -> 0 <= q) as Hq.
  { intros q e l. unfold SFdiv_core_binary. set (m' := match _ - _ with Z.pos _ => _ | _ => _ end). assert (0 <= m') as Hm' by (unfold m'; destruct (_ - _); [lia|apply Z.shiftl_nonneg; lia|lia]).
    pose proof (Z.div_pos m' (Z.pos mb) Hm' ltac:(lia)) as Hd. unfold Z.div in Hd. destruct (Z.div_eucl m' (Z.pos mb)) as [q' r']. by intros [= <- _ _]. }
  destruct (SFdiv_core_binary 24 128 (Z.pos ma) ea (Z.pos mb) eb) as [[q e] l] eqn:E. apply round_nonneg. by apply (Hq _ _ _ eq_refl).
Qed.

Lemma nonneg_above x a : nonneg x -> match a with S754_finite true _ _ => True | _ => False end -> f32_lt a x = true.
Proof. destruct x as [[]|[]| |[] ? ?], a as [| | |[] ? ?]; done. Qed.

Example lit_055 : f32_lit 55 100 = S754_finite false 9227469 (-24).
Proof. vm_compute. reflexivity. Qed.
Example lit_fraction : f32_trunc (f32_lit (-7) 2) = Some (-3).
Proof. vm_compute. reflexivity. Qed.
