(* ===== verification/SyncSearch.v ===== *)
(** * Finding the frame in the samples (src/src/base/ofdm/timesyncer.cpp, phasereference.cpp)

    [TimeSyncer] looks for the null symbol: it follows the level of the last 50
    samples through a ring of 4096 until the level drops and rises again.
    [PhaseReference] then looks for the peaks of the correlation with the phase
    reference symbol and chooses where the symbol begins.

    The samples come from [SampleSource]: the magnitude of the next one, or the
    exception of a reader that was stopped.  The correlation itself is an FFT of
    fftw3; its magnitudes are the input here.  A failing [assert], a read outside
    of an array or of a cell never written is [Fault]. *)
From Stdlib Require Import SpecFloat.
From S2P Require Import Prelude F32.
Open Scope Z_scope.

(** What a call ends with: it returns, it throws and leaves a state, or it does
    what C++ does not define. *)
Inductive outcome (S A : Type) := Done (s : S) (a : A) | Thrown (s : S) | Fault.
Arguments Done {S A}.
Arguments Thrown {S A}.
Arguments Fault {S A}.

Definition obind {S A B} (m : outcome S A) (f : S -> A -> outcome S B) : outcome S B :=
  match m with Done s a => f s a | Thrown s => Thrown s | Fault => Fault end.

(** The constants of glob_defs.h. *)
Definition cL : Z := 76.
Definition cTn : Z := 2656.
Definition cTF : Z := 196608.
Definition cTs : Z := 2552.
Definition cTu : Z := 2048.
Definition cTg : Z := 504.

(** ** timesyncer.cpp *)
Definition cSyncBufferSize : Z := 4096.
Definition cLevelSearchSize : Z := 50.

Class SampleSource (R : Type) := {
  get_sample : R -> option (R * f32);
  get_sLevel : R -> f32
}.

Inductive SyncState := IDLE | TIMESYNC_ESTABLISHED | NO_DIP_FOUND | NO_END_OF_DIP_FOUND.

Section timesyncer.
Context {R : Type} `{SampleSource R}.

(** A cell of [envBuffer] that was not written yet is [None]. *)
Record Search := mk_search { reader : R; envBuffer : list (option f32); mSyncBufferIndex : Z; cLevel : f32; counter : Z }.

Definition env_read (e : list (option f32)) (i : Z) : option f32 := if i <? 0 then None else default None (e !! Z.to_nat i).

(** The first loop. *)
Definition first_sample (s : Search) : outcome R Search :=
  match get_sample (reader s) with
  | None => Thrown (reader s)
  | Some (r, m) =>
      if zlen (envBuffer s) <=? mSyncBufferIndex s then Fault
      else Done r (mk_search r (wr (envBuffer s) (mSyncBufferIndex s) (Some m)) (mSyncBufferIndex s + 1) (f32_add (cLevel s) m) (counter s))
  end.

(** The body of the two [while] loops, up to the test of [counter]. *)
Definition level_sample (s : Search) : outcome R Search :=
  match get_sample (reader s) with
  | None => Thrown (reader s)
  | Some (r, m) =>
      let env := wr (envBuffer s) (mSyncBufferIndex s) (Some m) in
      match env_read env (mSyncBufferIndex s), env_read env (Z.land (uwrap 32 (mSyncBufferIndex s - cLevelSearchSize)) (cSyncBufferSize - 1)) with
      | Some new, Some old =>
          Done r (mk_search r env (Z.land (mSyncBufferIndex s + 1) (cSyncBufferSize - 1)) (f32_add (cLevel s) (f32_sub new old)) (counter s + 1))
      | _, _ => Fault
      end
  end.

Definition mean_level (c : f32) : f32 := f32_div c (f32_of cLevelSearchSize).
Definition above_dip (c : f32) (r : R) : bool := f32_lt (f32_mul (f32_lit 55 100) (get_sLevel r)) (mean_level c).
Definition below_rise (c : f32) (r : R) : bool := f32_lt (mean_level c) (f32_mul (f32_lit 75 100) (get_sLevel r)).

Fixpoint first_loop (n : nat) (s : Search) : outcome R Search :=
  match n with
  | O => Done (reader s) s
  | Datatypes.S n => obind (first_sample s) (fun _ s => first_loop n s)
  end.

(** A [while] loop; the flag says that the limit was passed. *)
Fixpoint level_loop (fuel : nat) (cond : f32 -> R -> bool) (limit : Z) (s : Search) : outcome R (Search * bool) :=
  match fuel with
  | O => Fault
  | Datatypes.S fuel =>
      if cond (cLevel s) (reader s) then
        obind (level_sample s) (fun r s => if limit <? counter s then Done r (s, true) else level_loop fuel cond limit s)
      else Done (reader s) (s, false)
  end.

Definition rise_limit : Z := cTn + cLevelSearchSize + 20.

Definition read_samples_until_end_of_level_drop (r : R) : outcome R SyncState :=
  obind (first_loop (Z.to_nat cLevelSearchSize) (mk_search r (replicate (Z.to_nat cSyncBufferSize) None) 0 f32_zero 0)) (fun _ s =>
  obind (level_loop (Z.to_nat (cTF + 2)) above_dip cTF (mk_search (reader s) (envBuffer s) (mSyncBufferIndex s) (cLevel s) 0)) (fun r p =>
  if snd p then Done r NO_DIP_FOUND else
  let s := fst p in
  obind (level_loop (Z.to_nat (rise_limit + 2)) below_rise rise_limit (mk_search (reader s) (envBuffer s) (mSyncBufferIndex s) (cLevel s) 0)) (fun r p =>
  if snd p then Done r NO_END_OF_DIP_FOUND else Done r TIMESYNC_ESTABLISHED))).

(** ** The level without the ring *)
(** The magnitudes between two states of the reader. *)
Inductive hears : R -> list f32 -> R -> Prop :=
  | hears_none r : hears r [] r
  | hears_more r ms r1 m r2 : hears r ms r1 -> get_sample r1 = Some (r2, m) -> hears r (ms ++ [m]) r2.

Lemma hears_app r ms r1 ns r2 : hears r ms r1 -> hears r1 ns r2 -> hears r (ms ++ ns) r2.
Proof.
  intros Hm Hn. induction Hn as [|r1 ns r2 m r3 _ IH Hg]; [by rewrite app_nil_r|]. rewrite app_assoc. eapply hears_more; [by apply IH|done].
Qed.

Lemma hears_nil_inv r r' : hears r [] r' -> r' = r.
Proof. intros Hh. remember [] as l eqn:E. destruct Hh as [|r ms r2 m r3 Hh Hg]; [done|by destruct ms]. Qed.

Lemma hears_snoc_inv r ms m r' : hears r (ms ++ [m]) r' -> exists r1, hears r ms r1 /\ get_sample r1 = Some (r', m).
Proof.
  intros Hh. remember (ms ++ [m]) as l eqn:E. destruct Hh as [|r b r2 m2 r3 Hb Hg]; [by destruct ms|]. apply app_inj_tail in E as [-> ->]. eauto.
Qed.

(** The reader always gives the same samples. *)
Lemma hears_split r a r1 b r2 : hears r a r1 -> hears r b r2 -> zlen a <= zlen b -> exists c, b = a ++ c /\ hears r1 c r2.
Proof.
  intros Ha Hb. revert a r1 Ha. induction Hb as [r|r b r2 m r3 Hb IH Hg]; intros a r1 Ha Hl.
  - assert (a = []) as -> by (destruct a; [done|unfold zlen in Hl; cbn in Hl; lia]). apply hears_nil_inv in Ha as ->. exists []. split; [done|constructor].
  - destruct (Z.eq_dec (zlen a) (zlen (b ++ [m]))) as [E|E].
    + destruct a as [|m' a _] using rev_ind; [unfold zlen in E; rewrite length_app in E; cbn in E; lia|]. apply hears_snoc_inv in Ha as (r4 & Ha & Hg').
      destruct (IH a r4 Ha) as (c & Ec & Hc); [rewrite !zlen_app in E; change (zlen [m']) with (zlen [m]) in E; lia|].
      assert (c = []) as -> by (destruct c; [done|]; exfalso; apply (f_equal zlen) in Ec; rewrite !zlen_app in *; change (zlen [m']) with (zlen [m]) in E; unfold zlen in *; cbn in *; lia).
      rewrite app_nil_r in Ec. subst b. apply hears_nil_inv in Hc as ->. rewrite Hg in Hg'. injection Hg' as <- <-. exists []. rewrite app_nil_r. split; [done|constructor].
    + destruct (IH a r1 Ha) as (c & -> & Hc); [rewrite zlen_app in *; change (zlen [m]) with 1 in *; lia|].
      exists (c ++ [m]). rewrite app_assoc. split; [done|]. by eapply hears_more.
Qed.

(** The level after all of [ms]: the sum of the first fifty, then every sample
    enters and the one fifty before leaves. *)
Definition sum_of (ms : list f32) : f32 := fold_left f32_add ms f32_zero.
Definition fat (v : list f32) (i : Z) : f32 := nth (Z.to_nat i) v S754_nan.
Definition level_step (ms : list f32) (c : f32) (k : Z) : f32 := f32_add c (f32_sub (fat ms k) (fat ms (k - 50))).
Definition level (ms : list f32) : f32 := fold_left (level_step ms) (seqZ 50 (zlen ms - 50)) (sum_of (take 50 ms)).

Lemma level_fifty ms : zlen ms = 50 -> level ms = sum_of ms.
Proof. intros E. unfold level. rewrite E. change (seqZ 50 (50 - 50)) with (@nil Z). cbn [fold_left]. f_equal. apply take_ge. unfold zlen in E. lia. Qed.

Lemma fat_app_l ms ns k : k < zlen ms -> 0 <= k -> fat (ms ++ ns) k = fat ms k.
Proof. intros Hk H0. unfold fat. apply app_nth1. unfold zlen in Hk. lia. Qed.

Lemma fat_snoc ms m : fat (ms ++ [m]) (zlen ms) = m.
Proof. unfold fat, zlen. rewrite Nat2Z.id. apply nth_middle. Qed.

Lemma level_snoc ms m : 50 <= zlen ms -> level (ms ++ [m]) = f32_add (level ms) (f32_sub m (fat ms (zlen ms - 50))).
Proof.
  intros Hl. unfold level at 1. rewrite zlen_app. change (zlen [m]) with 1. replace (zlen ms + 1 - 50) with ((zlen ms - 50) + 1) by lia.
  rewrite seqZ_app, fold_left_app by lia. change (seqZ (50 + (zlen ms - 50)) 1) with [50 + (zlen ms - 50)]. cbn [fold_left].
  replace (50 + (zlen ms - 50)) with (zlen ms) by lia. unfold level_step at 1. rewrite fat_snoc, fat_app_l by lia. f_equal.
  unfold level. rewrite take_app_le by (unfold zlen in Hl; lia). apply fold_left_ext_in. intros k c Hk%in_seqZ. unfold level_step. by rewrite !fat_app_l by lia.
Qed.

(** The ring holds the last 4096 magnitudes. *)
Record ring (ms : list f32) (s : Search) : Prop := {
  ring_len : zlen (envBuffer s) = 4096;
  ring_index : mSyncBufferIndex s = zlen ms mod 4096;
  ring_cells : forall k, 0 <= k < zlen ms -> zlen ms - 4096 <= k -> env_read (envBuffer s) (k mod 4096) = Some (fat ms k)
}.

Lemma env_read_wr_eq e i v : 0 <= i < zlen e -> env_read (wr e i v) i = v.
Proof. intros Hi. unfold env_read, wr. zcases; [lia|]. rewrite list_lookup_insert_eq; [done|]. unfold zlen in Hi. lia. Qed.

Lemma env_read_wr_ne e i j v : i <> j -> env_read (wr e i v) j = env_read e j.
Proof. intros Hij. unfold env_read, wr. zcases; [done..|]. rewrite list_lookup_insert_ne by lia. done. Qed.

Lemma ring_put ms s r m i c n : ring ms s -> i = (zlen ms + 1) mod 4096 ->
  ring (ms ++ [m]) (mk_search r (wr (envBuffer s) (mSyncBufferIndex s) (Some m)) i c n).
Proof.
  intros [Hl Hi Hc] ->. pose proof (Z.mod_pos_bound (zlen ms) 4096 ltac:(lia)) as Hb. split; cbn [envBuffer mSyncBufferIndex].
  - by rewrite zlen_wr.
  - by rewrite zlen_app.
  - rewrite zlen_app. change (zlen [m]) with 1. intros k Hk Hr. rewrite Hi. destruct (Z.eq_dec k (zlen ms)) as [->|Hn].
    + rewrite env_read_wr_eq, fat_snoc by lia. done.
    + rewrite env_read_wr_ne, Hc, fat_app_l by (lia || (intros E; Z.to_euclidean_division_equations; lia)). done.
Qed.

Lemma mask_4096 x : Z.land x (cSyncBufferSize - 1) = x mod 4096.
Proof. change (cSyncBufferSize - 1) with (Z.ones 12). by rewrite Z.land_ones. Qed.

(** One sample: the level of the ring is the level of the list. *)
Lemma level_sample_spec ms s : ring ms s -> 50 <= zlen ms -> cLevel s = level ms ->
  (get_sample (reader s) = None /\ level_sample s = Thrown (reader s)) \/
  exists r m s', get_sample (reader s) = Some (r, m) /\ level_sample s = Done r s' /\ reader s' = r /\ counter s' = counter s + 1 /\
    ring (ms ++ [m]) s' /\ cLevel s' = level (ms ++ [m]).
Proof.
  intros Hr Hl Hc. unfold level_sample. destruct (get_sample (reader s)) as [[r m]|]; [|by left]. right. exists r, m.
  pose proof Hr as [Hz Hi Hcell]. pose proof (Z.mod_pos_bound (zlen ms) 4096 ltac:(lia)) as Hb.
  assert (Z.land (uwrap 32 (mSyncBufferIndex s - cLevelSearchSize)) (cSyncBufferSize - 1) = (zlen ms - 50) mod 4096) as ->.
  { rewrite mask_4096, Hi. unfold uwrap, cLevelSearchSize. change (2 ^ 32) with (4096 * 1048576). Z.to_euclidean_division_equations. lia. }
  rewrite env_read_wr_eq by lia. rewrite env_read_wr_ne by (rewrite Hi; intros E; Z.to_euclidean_division_equations; lia). rewrite Hcell by lia.
  eexists. split; [done|]. split; [done|]. cbn [reader counter cLevel]. split; [done|]. split; [done|]. split.
  - apply ring_put; [done|]. rewrite mask_4096, Hi. Z.to_euclidean_division_equations. lia.
  - by rewrite Hc, level_snoc.
Qed.

(** A loop: it ends because the condition fails, or after [limit + 1] samples. *)
Lemma level_loop_spec cond limit fuel ms s : ring ms s -> 50 <= zlen ms -> cLevel s = level ms -> 0 <= counter s <= limit ->
  limit + 1 - counter s < Z.of_nat fuel ->
  match level_loop fuel cond limit s with
  | Fault => False
  | Thrown r => exists ns, hears (reader s) ns r /\ get_sample r = None
  | Done r (s', b) => exists ns, hears (reader s) ns r /\ reader s' = r /\ ring (ms ++ ns) s' /\ cLevel s' = level (ms ++ ns) /\
      counter s + zlen ns <= limit + 1 /\ (if b then counter s + zlen ns = limit + 1 else cond (level (ms ++ ns)) r = false) /\
      forall ns1 r1, hears (reader s) ns1 r1 -> zlen ns1 < zlen ns -> cond (level (ms ++ ns1)) r1 = true
  end.
Proof.
  revert ms s. induction fuel as [|fuel IH]; intros ms s Hr Hl Hc Hn Hf; [lia|]. cbn [level_loop].
  destruct (cond (cLevel s) (reader s)) eqn:Ec.
  - destruct (level_sample_spec ms s Hr Hl Hc) as [[Hg ->]|(r & m & s' & Hg & -> & Er & En & Hr' & Hc')]; cbn [obind].
    + exists []. split; [constructor|done].
    + assert (forall ns r2, hears r ns r2 -> hears (reader s) (m :: ns) r2) as Hcons
        by (intros ns r2 Hns; change (m :: ns) with ([] ++ [m] ++ ns); rewrite app_assoc; eapply hears_app; [eapply hears_more; [constructor|done]|done]).
      destruct (Z.ltb_spec limit (counter s')).
      * exists [m]. split; [apply Hcons; constructor|]. split; [done|]. split; [done|]. split; [done|]. change (zlen [m]) with 1. split; [lia|]. split; [lia|].
        intros ns1 r1 H1 Hz. assert (ns1 = []) as -> by (destruct ns1; [done|unfold zlen in Hz; cbn in Hz; lia]). apply hears_nil_inv in H1 as ->. by rewrite app_nil_r, <- Hc.
      * specialize (IH (ms ++ [m]) s' Hr' ltac:(rewrite zlen_app; change (zlen [m]) with 1; lia) Hc' ltac:(lia) ltac:(lia)).
        rewrite Er in IH. destruct (level_loop fuel cond limit s') as [r2 [s2 b]|r2|]; [|by destruct IH as (ns & Hns & Hg2); exists (m :: ns); split; [apply Hcons|]|done].
        destruct IH as (ns & Hns & E1 & E2 & E3 & E4 & E5 & E6). exists (m :: ns). rewrite <- app_assoc in *. cbn [app] in *.
        assert (zlen (m :: ns) = zlen ns + 1) as Ez by (unfold zlen; cbn [length]; lia). rewrite Ez.
        split; [by apply Hcons|]. split; [done|]. split; [done|]. split; [done|]. split; [lia|]. split; [destruct b; [lia|done]|].
        intros ns1 r1 H1 Hz. destruct ns1 as [|m1 ns1]; [apply hears_nil_inv in H1 as ->; by rewrite app_nil_r, <- Hc|].
        destruct (hears_split (reader s) [m] r (m1 :: ns1) r1) as (c & [= -> ->] & H2); [by apply Hcons; constructor|done|unfold zlen; cbn; lia|].
        specialize (E6 c r1 H2 ltac:(unfold zlen in *; cbn in Hz; lia)). by rewrite <- app_assoc in E6.
  - exists []. rewrite app_nil_r. change (zlen []) with 0. split; [constructor|]. split; [done|]. split; [done|]. split; [done|]. split; [lia|]. split; [by rewrite <- Hc|]. intros ns1 r1 _ Hz. pose proof (zlen_nonneg ns1). lia.
Qed.

Lemma first_loop_spec n ms s : ring ms s -> cLevel s = sum_of ms -> zlen ms + Z.of_nat n <= 50 ->
  match first_loop n s with
  | Fault => False
  | Thrown r => exists ns, hears (reader s) ns r /\ get_sample r = None
  | Done r s' => exists ns, hears (reader s) ns r /\ reader s' = r /\ zlen ns = Z.of_nat n /\ ring (ms ++ ns) s' /\ cLevel s' = sum_of (ms ++ ns)
  end.
Proof.
  revert ms s. induction n as [|n IH]; intros ms s Hr Hc Hn; cbn [first_loop].
  - exists []. rewrite app_nil_r. split; [constructor|]. done.
  - unfold first_sample. destruct (get_sample (reader s)) as [[r m]|] eqn:Eg; cbn [obind]; [|exists []; split; [constructor|done]].
    pose proof Hr as [Hz Hi _]. rewrite Z.mod_small in Hi by (pose proof (zlen_nonneg ms); lia). destruct (Z.leb_spec (zlen (envBuffer s)) (mSyncBufferIndex s)); [lia|]. cbn [obind].
    assert (forall ns r2, hears r ns r2 -> hears (reader s) ([m] ++ ns) r2) as Hcons by (intros ns r2 Hns; eapply hears_app; [eapply (hears_more _ []); [constructor|done]|done]).
    set (s1 := mk_search r _ _ _ _). specialize (IH (ms ++ [m]) s1).
    assert (ring (ms ++ [m]) s1) as H1 by (apply ring_put; [done|]; rewrite Hi, Z.mod_small; pose proof (zlen_nonneg ms); lia).
    assert (cLevel s1 = sum_of (ms ++ [m])) as H2 by (unfold sum_of; rewrite fold_left_app; cbn [fold_left]; fold (sum_of ms); cbn [s1 cLevel]; by rewrite Hc).
    specialize (IH H1 H2). rewrite zlen_app in IH. change (zlen [m]) with 1 in IH. specialize (IH ltac:(lia)). change (reader s1) with r in IH.
    destruct (first_loop n s1) as [r2 s2|r2|]; [|by destruct IH as (ns & Hns & Hg); exists ([m] ++ ns); split; [apply Hcons|]|done].
    destruct IH as (ns & Hns & E1 & E2 & E3 & E4). exists ([m] ++ ns). rewrite app_assoc. split; [by apply Hcons|]. split; [done|].
    split; [rewrite zlen_app; change (zlen [m]) with 1; lia|done].
Qed.

(** The level, the sum of fifty magnitudes, against the level of the signal. *)
Definition dropped (l : f32) (r : R) : bool := negb (f32_lt (f32_mul (f32_lit 55 100) (get_sLevel r)) (f32_div l (f32_of 50))).
Definition risen (l : f32) (r : R) : bool := negb (f32_lt (f32_div l (f32_of 50)) (f32_mul (f32_lit 75 100) (get_sLevel r))).

(** The first place, from the fiftieth sample on, where the level has dropped is
    after [ms]; the first one from there on where it has risen is after [ns] more. *)
Definition none_dropped (r : R) (ms : list f32) : Prop := forall ms' r', hears r ms' r' -> 50 <= zlen ms' < zlen ms -> dropped (level ms') r' = false.
Definition none_risen (r1 : R) (ms ns : list f32) : Prop := forall ns' r', hears r1 ns' r' -> zlen ns' < zlen ns -> risen (level (ms ++ ns')) r' = false.

(** What the search answers. *)
Lemma search_answers (r : R) :
  match read_samples_until_end_of_level_drop r with
  | Fault => False
  | Thrown r' => exists ms, hears r ms r' /\ get_sample r' = None
  | Done r' st => exists ms r1 ns,
      hears r ms r1 /\ hears r1 ns r' /\ 50 <= zlen ms <= 196659 /\ zlen ns <= 2727 /\ none_dropped r ms /\
      match st with
      | IDLE => False
      | TIMESYNC_ESTABLISHED => dropped (level ms) r1 = true /\ none_risen r1 ms ns /\ risen (level (ms ++ ns)) r' = true
      | NO_DIP_FOUND => ns = [] /\ zlen ms = 196659
      | NO_END_OF_DIP_FOUND => dropped (level ms) r1 = true /\ none_risen r1 ms ns /\ zlen ns = 2727
      end
  end.
Proof.
  unfold read_samples_until_end_of_level_drop. set (s0 := mk_search r _ 0 f32_zero 0).
  assert (match first_loop (Z.to_nat cLevelSearchSize) s0 with
    | Fault => False | Thrown r1 => exists ms, hears r ms r1 /\ get_sample r1 = None
    | Done r1 s1 => exists ms, hears r ms r1 /\ reader s1 = r1 /\ zlen ms = 50 /\ ring ms s1 /\ cLevel s1 = sum_of ms end) as H1
    by (apply (first_loop_spec (Z.to_nat cLevelSearchSize) [] s0); [by split; [reflexivity|reflexivity|intros k Hk; change (zlen []) with 0 in Hk; lia]|done|done]).
  destruct (first_loop _ s0) as [r1 s1|r1|]; cbn [obind]; [|done|done].
  destruct H1 as (m1 & Hm1 & E1 & Z1 & R1 & L1).
  set (s2 := mk_search (reader s1) _ _ _ 0). assert (ring m1 s2) as R2 by (destruct R1; by split).
  pose proof (level_loop_spec above_dip cTF (Z.to_nat (cTF + 2)) m1 s2 R2 ltac:(lia) ltac:(cbn [s2 cLevel]; by rewrite level_fifty)) as H2.
  specialize (H2 ltac:(cbn [s2 counter]; unfold cTF; lia) ltac:(cbn [s2 counter]; unfold cTF; lia)).
  assert (forall ns r', hears (reader s2) ns r' -> hears r (m1 ++ ns) r') as Hj by (intros ns r' Hns; eapply hears_app; [done|]; by rewrite <- E1).
  destruct (level_loop _ above_dip cTF s2) as [r2 [s3 b]|r2|]; cbn [obind fst snd]; [|destruct H2 as (ns & Hns & Hg); exists (m1 ++ ns); split; [by apply Hj|done]|done].
  destruct H2 as (m2 & Hm2 & E3 & R3 & L3 & Z3 & H3 & N3). change (counter s2) with 0 in *. change (reader s2) with (reader s1) in *.
  assert (none_dropped r (m1 ++ m2)) as K5.
  { intros ms' r' Hh Hz. destruct (hears_split r m1 r1 ms' r' Hm1 Hh ltac:(lia)) as (c & -> & Hc). rewrite !zlen_app in Hz. rewrite E1 in N3.
    specialize (N3 c r' Hc ltac:(lia)). apply negb_false_iff. exact N3. }
  destruct b.
  { exists (m1 ++ m2), r2, []. rewrite zlen_app. change (zlen []) with 0. pose proof (zlen_nonneg m2). unfold cTF, rise_limit, cTn, cLevelSearchSize in *.
    split; [by apply Hj|]. split; [constructor|]. split; [lia|]. split; [lia|]. split; [done|]. split; [done|lia]. }
  set (s4 := mk_search (reader s3) _ _ _ 0). assert (ring (m1 ++ m2) s4) as R4 by (destruct R3; by split). pose proof (zlen_nonneg m2) as Hm2n.
  pose proof (level_loop_spec below_rise rise_limit (Z.to_nat (rise_limit + 2)) (m1 ++ m2) s4 R4 ltac:(rewrite zlen_app; lia) L3) as H4.
  specialize (H4 ltac:(cbn [s4 counter]; unfold rise_limit, cTn, cLevelSearchSize; lia) ltac:(cbn [s4 counter]; unfold rise_limit, cTn, cLevelSearchSize; lia)).
  assert (reader s4 = r2) as E4 by (cbn [s4 reader]; congruence). rewrite E4 in H4.
  destruct (level_loop _ below_rise rise_limit s4) as [r5 [s5 b]|r5|]; cbn [obind fst snd]; [|destruct H4 as (ns & Hns & Hg); exists ((m1 ++ m2) ++ ns); split; [eapply hears_app; [by apply Hj|done]|done]|done].
  destruct H4 as (m3 & Hm3 & _ & _ & _ & Z5 & H5 & N5). change (counter s4) with 0 in *.
  assert (exists r', r' = r5 /\ hears r (m1 ++ m2) r2 /\ hears r2 m3 r' /\ 50 <= zlen (m1 ++ m2) <= 196659 /\ zlen m3 <= 2727) as (r' & -> & K1 & K2 & K3 & K4)
    by (exists r5; split; [done|]; split; [by apply Hj|]; split; [done|]; rewrite zlen_app; unfold cTF, rise_limit, cTn, cLevelSearchSize in *; lia).
  assert (dropped (level (m1 ++ m2)) r2 = true) as K6 by (apply negb_true_iff; exact H3).
  assert (none_risen r2 (m1 ++ m2) m3) as K7 by (intros ns' r' Hh Hz; apply negb_false_iff; exact (N5 ns' r' Hh Hz)).
  destruct b; exists (m1 ++ m2), r2, m3; (split; [done|]; split; [done|]; split; [done|]; split; [done|]; split; [done|]); split; [done|split; [done|]|done|split; [done|]].
  - unfold rise_limit, cTn, cLevelSearchSize in *. lia.
  - apply negb_true_iff. exact H5.
Qed.

(** C19: the search for the null symbol ends after at most 50 + 196609 + 2727
    samples, or with the exception of a stopped reader, and it never reads a cell of
    its ring that was not written.  It answers [TIMESYNC_ESTABLISHED] at the first
    sample where the running sum of the last fifty magnitudes, divided by fifty, is
    not below 0.75 of the signal level again, after the first sample where it was not
    above 0.55 of it; [NO_DIP_FOUND] when there was no such drop within 196609
    samples, [NO_END_OF_DIP_FOUND] when there was no such rise within 2727. *)
Theorem time_sync_correct (r : R) :
  match read_samples_until_end_of_level_drop r with
  | Fault => False
  | Thrown r' => exists ms, hears r ms r' /\ get_sample r' = None
  | Done r' st => exists ms r1 ns,
      hears r ms r1 /\ hears r1 ns r' /\ 50 <= zlen ms <= 196659 /\ zlen ns <= 2727 /\ none_dropped r ms /\
      match st with
      | IDLE => False
      | TIMESYNC_ESTABLISHED => dropped (level ms) r1 = true /\ none_risen r1 ms ns /\ risen (level (ms ++ ns)) r' = true
      | NO_DIP_FOUND => ns = [] /\ zlen ms = 196659
      | NO_END_OF_DIP_FOUND => dropped (level ms) r1 = true /\ none_risen r1 ms ns /\ zlen ns = 2727
      end
  end.
Proof. exact (search_answers r). Qed.
End timesyncer.

(** A signal with a null symbol of 2656 samples after the first sixty. *)
Definition dip_source : SampleSource Z := {|
  get_sample := fun k => Some (k + 1, if (60 <=? k) && (k <? 60 + cTn) then f32_zero else f32_of 1);
  get_sLevel := fun _ => f32_of 1
|}.

Lemma time_sync_correct_witness : exists ms r1 ns, hears (H := dip_source) 0 ms r1 /\ hears (H := dip_source) r1 ns 2754 /\
  dropped (H := dip_source) (level ms) r1 = true /\ none_dropped (H := dip_source) 0 ms /\ none_risen (H := dip_source) r1 ms ns /\ risen (H := dip_source) (level (ms ++ ns)) 2754 = true.
Proof.
  pose proof (time_sync_correct (H := dip_source) 0) as H.
  assert (read_samples_until_end_of_level_drop (H := dip_source) 0 = Done 2754 TIMESYNC_ESTABLISHED) as E by (vm_compute; reflexivity).
  rewrite E in H. destruct H as (ms & r1 & ns & H1 & H2 & _ & _ & H3 & H4 & H5 & H6). exists ms, r1, ns.
  exact (conj H1 (conj H2 (conj H4 (conj H3 (conj H5 H6))))).
Defined.

(** ** phasereference.cpp *)
(** [mCorrPeakValues] are the 2048 magnitudes of the correlation. *)
Definition cGapSearchWidth : Z := 10.

Record Peaks := mk_peaks { pk_i : Z; mIndices : list Z; maxL : f32; maxIndex : Z }.

(** One of the next nine values is higher. *)
Definition higher_soon (v : list f32) (i : Z) : bool :=
  existsb (fun j => (i + j <? cTu) && f32_lt (fat v i) (fat v (i + j))) (seqZ 1 (cGapSearchWidth - 1)).

Definition peak_step (v : list f32) (threshold : f32) (p : Peaks) : Peaks :=
  let i := pk_i p in
  if f32_lt threshold (fat v i) && negb (higher_soon v i) then
    let higher := f32_lt (maxL p) (fat v i) in
    mk_peaks (i + cGapSearchWidth + 1) (mIndices p ++ [i]) (if higher then fat v i else maxL p) (if higher then i else maxIndex p)
  else mk_peaks (i + 1) (mIndices p) (maxL p) (maxIndex p).

Definition find_peaks (v : list f32) (threshold : f32) : option Peaks :=
  while (Z.to_nat (cTu + 2)) (fun p => pk_i p <? cTu) (peak_step v threshold) (mk_peaks 0 [] (f32_of (-1000)) (-1)).

(** The power of the useful and of the interfering signal, for a symbol that
    begins at [pos]. *)
Definition position_weight (pos k : Z) : f32 :=
  let wi :=
    if k <? pos then f32_div (f32_of (cTu + k - pos)) (f32_of cTu)
    else if pos + cTg <? k then f32_div (f32_of (cTu + cTg + pos - k)) (f32_of cTu)
    else f32_of 1 in
  f32_mul wi wi.

Definition interference (v : list f32) (pos : Z) (indices : list Z) : f32 * f32 :=
  fold_left (fun '(Ci, Ii) k =>
    let power := f32_mul (fat v k) (fat v k) in
    let wi := position_weight pos k in
    (f32_add Ci (f32_mul wi power), f32_add Ii (f32_mul (f32_sub (f32_of 1) wi) power))) indices (f32_zero, f32_zero).

Definition try_position (v : list f32) (indices : list Z) (start : Z) (st : f32 * Z) (pos : Z) : f32 * Z :=
  if pos <? start then st
  else
    let '(Ci, Ii) := interference v pos indices in
    let ratio := f32_div Ii Ci in
    if f32_lt ratio (fst st) then (ratio, pos) else st.

Definition best_position (v : list f32) (indices : list Z) (start : Z) : Z :=
  snd (fold_left (try_position v indices start) (flat_map (fun x => [x; x - cTg]) indices) (f32_of (10 ^ 38), -1)).

(** The rest of [correlate_with_phase_ref_and_find_max_peak]; [None] is a failing
    [assert]. *)
Definition choose_start (mSyncOnStrongestPeak : bool) (v : list f32) (threshold : f32) : option Z :=
  p ← find_peaks v threshold;
  if f32_lt (maxL p) threshold then Some (-1)
  else if mSyncOnStrongestPeak then (if 0 <=? maxIndex p then Some (maxIndex p) else None)
  else
    match mIndices p with
    | [] => None
    | [x] => Some x
    | start :: _ => Some (best_position v (mIndices p) start)
    end.

Definition average (v : list f32) : f32 := f32_div (fold_left f32_add v f32_zero) (f32_of cTu).

Definition find_max_peak (mSyncOnStrongestPeak : bool) (iThreshold : f32) (v : list f32) : option Z :=
  let sum := average v in
  if f32_eq sum f32_zero then Some (-1) else choose_start mSyncOnStrongestPeak v (f32_mul iThreshold sum).

(** *** The loop *)
Record peaks_ok (v : list f32) (threshold : f32) (p : Peaks) : Prop := {
  po_i : 0 <= pk_i p;
  po_range : Forall (fun x => 0 <= x < cTu /\ f32_lt threshold (fat v x) = true) (mIndices p);
  po_max : (mIndices p = [] /\ maxL p = f32_of (-1000) /\ maxIndex p = -1) \/
    (mIndices p <> [] /\ In (maxIndex p) (mIndices p) /\ maxL p = fat v (maxIndex p))
}.

Lemma peak_step_ok v threshold p : f32_lt (f32_of (-1000)) threshold = true ->
  peaks_ok v threshold p -> pk_i p < cTu -> peaks_ok v threshold (peak_step v threshold p) /\ pk_i p < pk_i (peak_step v threshold p).
Proof.
  intros Hth [Hi Hr Hm] Hlt. unfold peak_step, cGapSearchWidth. destruct (f32_lt threshold (fat v (pk_i p))) eqn:Et; cbn [andb]; [destruct (negb _)|].
  - split; [|cbn [pk_i]; lia]. split; cbn [pk_i mIndices maxL maxIndex].
    + lia.
    + apply Forall_app. split; [done|]. by constructor.
    + right. split; [by destruct (mIndices p)|]. destruct (f32_lt (maxL p) (fat v (pk_i p))) eqn:El.
      * split; [apply in_app_iff; right; by left|done].
      * destruct Hm as [(_ & E & _)|(_ & H1 & H2)]; [|split; [apply in_app_iff; by left|done]].
        rewrite E in El. by rewrite (f32_lt_trans _ _ _ Hth Et) in El.
  - split; [split; cbn; [lia|done|done]|cbn; lia].
  - split; [split; cbn; [lia|done|done]|cbn; lia].
Qed.

Lemma peaks_start v threshold : peaks_ok v threshold (mk_peaks 0 [] (f32_of (-1000)) (-1)).
Proof. split; cbn [pk_i mIndices maxL maxIndex]; [done|constructor|by left]. Qed.

Lemma find_peaks_inv (P : Peaks -> Prop) v threshold : f32_lt (f32_of (-1000)) threshold = true ->
  P (mk_peaks 0 [] (f32_of (-1000)) (-1)) ->
  (forall p, peaks_ok v threshold p -> pk_i p < cTu -> P p -> P (peak_step v threshold p)) ->
  exists p, find_peaks v threshold = Some p /\ peaks_ok v threshold p /\ P p /\ cTu <= pk_i p.
Proof.
  intros Hth H0 Hstep. destruct (while_total (fun p => peaks_ok v threshold p /\ P p) (fun p => cTu - pk_i p) (fun p => pk_i p <? cTu) (peak_step v threshold)
    (Z.to_nat (cTu + 2)) (mk_peaks 0 [] (f32_of (-1000)) (-1))) as (p & E & [Ho Hp] & Hc).
  - split; [apply peaks_start|done].
  - cbn [pk_i]. unfold cTu. lia.
  - intros p [Ho Hp] Hc%Z.ltb_lt. destruct (peak_step_ok v threshold p Hth Ho Hc) as [H1 H2]. split; [split; [done|by apply Hstep]|lia].
  - exists p. apply Z.ltb_ge in Hc. done.
Qed.

(** *** The chosen position *)
Lemma try_position_range v indices start l st : 0 <= start -> Forall (fun x => x < cTu) l -> -1 <= snd st < cTu ->
  -1 <= snd (fold_left (try_position v indices start) l st) < cTu.
Proof.
  intros Hs Hl. revert st. induction Hl as [|x l Hx _ IH]; intros st Hst; [done|]. cbn [fold_left]. apply IH. unfold try_position.
  destruct (Z.ltb_spec x start); [done|]. destruct (interference v x indices) as [Ci Ii]. destruct (f32_lt _ _); cbn [snd]; lia.
Qed.

Lemma choose_start_range strongest v threshold : f32_lt (f32_of (-1000)) threshold = true ->
  exists k, choose_start strongest v threshold = Some k /\ -1 <= k < cTu.
Proof.
  intros Hth. unfold choose_start. destruct (find_peaks_inv (fun _ => True) v threshold Hth I ltac:(done)) as (p & -> & [_ Hr Hm] & _). cbn [mbind option_bind].
  rewrite List.Forall_forall in Hr. destruct (f32_lt (maxL p) threshold) eqn:El; [exists (-1); split; [done|unfold cTu; lia]|].
  destruct Hm as [(_ & E & _)|(Hn & Hin & _)]; [by rewrite E, Hth in El|]. destruct (Hr _ Hin) as [Hmx _]. destruct strongest.
  - destruct (Z.leb_spec 0 (maxIndex p)); [|lia]. exists (maxIndex p). split; [done|lia].
  - destruct (mIndices p) as [|x [|y l]] eqn:Ei; [done|exists x; split; [done|]|].
    + destruct (Hr x) as [? _]; [by left|lia].
    + destruct (Hr x) as [Hx _]; [by left|]. eexists. split; [done|]. apply try_position_range; [lia| |cbn [snd]; unfold cTu; lia].
      apply List.Forall_forall. intros k (z & Hz & Hk)%in_flat_map. destruct (Hr z Hz) as [Hzr _]. unfold cTg in Hk. destruct Hk as [<-|[<-|[]]]; lia.
Qed.

Lemma average_nonneg v : Forall nonneg v -> nonneg (average v).
Proof.
  intros Hv. apply f32_div_nonneg; [|vm_compute; exact I]. assert (forall s, nonneg s -> nonneg (fold_left f32_add v s)) as H; [|by apply H].
  induction Hv as [|x v Hx _ IH]; intros s Hs; [done|]. cbn [fold_left]. by apply IH, f32_add_nonneg.
Qed.

(** The position of the peak. *)
Lemma position_in_range (strongest : bool) (iThreshold : f32) (v : list f32) :
  positive_number iThreshold -> Forall nonneg v ->
  exists k, find_max_peak strongest iThreshold v = Some k /\ -1 <= k < cTu.
Proof.
  intros Ht Hv. unfold find_max_peak. destruct (f32_eq _ _); [exists (-1); split; [done|unfold cTu; lia]|].
  apply choose_start_range, nonneg_above; [|vm_compute; exact I]. by apply f32_mul_nonneg, average_nonneg.
Qed.

(** C20: for any correlation (magnitudes, that is no NaN), any positive threshold
    and both settings no assert fails, and the answer is a position inside of the
    samples looked at, or -1 for none: the [cTu - startIndex] samples the receiver
    then keeps and the [startIndex] it reads are never negative. *)
Theorem sync_position_range (strongest : bool) (iThreshold : f32) (v : list f32) :
  positive_number iThreshold -> Forall nonneg v ->
  exists k, find_max_peak strongest iThreshold v = Some k /\ -1 <= k < cTu.
Proof. exact (position_in_range strongest iThreshold v). Qed.

(** A correlation that is 1 but for the given peaks. *)
Definition sample_correlation (peaks : list (Z * Z)) : list f32 :=
  map (fun i => match List.find (fun p => fst p =? i) peaks with Some p => f32_of (snd p) | None => f32_of 1 end) (seqZ 0 cTu).

Lemma sample_correlation_nonneg peaks : forallb (fun p => 0 <=? snd p) peaks = true -> Forall nonneg (sample_correlation peaks).
Proof.
  intros Hp. apply List.Forall_forall. intros x (i & <- & _)%in_map_iff. destruct (List.find _ peaks) as [p|] eqn:E; [|vm_compute; exact I].
  apply List.find_some in E as [Hin _]. rewrite forallb_forall in Hp. apply normalize_nonneg. specialize (Hp p Hin). lia.
Qed.

Lemma sync_position_range_witness : exists k, find_max_peak false (f32_of 3) (sample_correlation [(500, 100); (700, 90)]) = Some k /\ -1 <= k < cTu.
Proof.
  apply (sync_position_range false (f32_of 3) (sample_correlation [(500, 100); (700, 90)])).
  - vm_compute. exact I.
  - apply sample_correlation_nonneg. reflexivity.
Defined.

Example two_transmitters :
  map (fun b => find_max_peak b (f32_of 3) (sample_correlation [(500, 100); (700, 120)])) [true; false] = [Some 700; Some 500].
Proof. vm_compute. reflexivity. Qed.

(** A NaN among the samples makes the average NaN, which the test for zero does
    not catch: the assert fails, or the first of no indices is read. *)
Lemma nan_sample_fails :
  map (fun b => find_max_peak b (f32_of 3) (S754_nan :: repeat (f32_of 1) 2047)) [true; false] = [None; None].
Proof. vm_compute. reflexivity. Qed.

(** *** The strongest peak *)
(** The highest value is found, unless it is ten samples after another peak. *)
Lemma strongest_found v threshold p k : f32_lt (f32_of (-1000)) threshold = true ->
  find_peaks v threshold = Some p -> 0 <= k < cTu -> f32_lt threshold (fat v k) = true -> (forall j, f32_lt (fat v k) (fat v j) = false) ->
  f32_lt (maxL p) (fat v k) = false \/ exists q, In q (mIndices p) /\ k = q + 10.
Proof.
  intros Hth E Hk Hkt Hmax. set (found p := f32_lt (maxL p) (fat v k) = false \/ exists q, In q (mIndices p) /\ k = q + 10).
  destruct (find_peaks_inv (fun p => k < pk_i p -> found p) v threshold Hth) as (p' & E' & _ & Hf & Hi).
  - cbn [pk_i]. lia.
  - clear p E. intros p [Hi Hr Hm] Hlt Hf. unfold peak_step, cGapSearchWidth.
    destruct (f32_lt threshold (fat v (pk_i p))) eqn:Et; cbn [andb].
    + destruct (higher_soon v (pk_i p)) eqn:Eh; cbn [negb].
      * cbn [pk_i mIndices maxL]. intros Hki. unfold found in *. cbn [mIndices maxL]. destruct (Z.eq_dec k (pk_i p)) as [->|]; [|apply Hf; lia].
        exfalso. unfold higher_soon in Eh. apply existsb_exists in Eh as (j & _ & [_ Hj]%andb_true_iff). by rewrite Hmax in Hj.
      * cbn [pk_i]. intros Hki. unfold found in *. cbn [mIndices maxL].
        assert (f32_lt (fat v (pk_i p)) (fat v k) = false -> f32_lt (if f32_lt (maxL p) (fat v (pk_i p)) then fat v (pk_i p) else maxL p) (fat v k) = false) as Hup.
        { intros Hn. destruct (f32_lt (maxL p) (fat v (pk_i p))) eqn:El; [done|]. apply not_true_iff_false. intros Hk2.
          assert (f32_lt (maxL p) (fat v (pk_i p)) = true) as Hc; [|congruence]. apply (f32_lt_nlt _ (fat v k)); [done|done|exact (proj2 (f32_lt_nan_l _ _ Et))]. }
        destruct (Z.lt_ge_cases k (pk_i p)) as [Hb|Hb].
        { destruct (Hf Hb) as [Hn|(q & Hq & ->)]; [left|right; exists q; split; [apply in_app_iff; by left|done]].
          destruct (f32_lt (maxL p) (fat v (pk_i p))) eqn:El; [|done]. apply not_true_iff_false. intros Hk2. by rewrite (f32_lt_trans _ _ _ El Hk2) in Hn. }
        destruct (Z.eq_dec k (pk_i p + 10)) as [->|Hne]; [right; exists (pk_i p); split; [apply in_app_iff; right; by left|done]|]. left. apply Hup.
        destruct (Z.eq_dec k (pk_i p)) as [->|]; [by apply Hmax|]. apply not_true_iff_false. intros Hk2. apply not_true_iff_false in Eh. apply Eh. unfold higher_soon.
        apply existsb_exists. exists (k - pk_i p). split; [apply in_seqZ; unfold cGapSearchWidth; lia|]. apply andb_true_iff. replace (pk_i p + (k - pk_i p)) with k by lia. split; [lia|done].
    + cbn [pk_i mIndices maxL]. intros Hki. unfold found in *. cbn [mIndices maxL]. destruct (Z.eq_dec k (pk_i p)) as [->|]; [congruence|apply Hf; lia].
  - rewrite E in E'. injection E' as ->. apply Hf. lia.
Qed.

(** The gap is skipped one sample further than it is searched: a peak ten
    samples after a lower one is not seen, even if it is the strongest. *)
Lemma strongest_missed : find_max_peak true (f32_of 3) (sample_correlation [(500, 10); (510, 1000)]) = Some 500.
Proof. vm_compute. reflexivity. Qed.
