(* ===== verification/Receiver.v ===== *)
(** * The receiver thread (src/src/base/main/dab_processor.cpp, discard_samples of sample_reader.cpp)

    [DabProcessor] reads the samples, looks for the beginning of a frame, and
    gives the soft bits of its symbols to the FIC decoder, to the ETI generator
    when one is recording, and to the MSC handler.  Its loop is a state machine of
    three states; the calls of the other threads come between two symbols.

    [SignalPath] is what the thread uses of the signal processing: the sample
    reader with its offsets in frequency, the FFTs, the OFDM decoder, the TII
    detector.  The time synchroniser and the search for the correlation peak are
    the functions of SyncSearch.v.  [Done] is a normal return, [Thrown] the
    exception of a stopped reader with the state it leaves, [Fault] a failing
    [assert] or an access outside of a buffer. *)
From S2P Require Import Prelude BitExtractors Viterbi Protection Backend MscHandler FibConfig FibFig0 FibDecoder FicDecoder EtiGenerator F32 SyncSearch.
Open Scope Z_scope.

Notation "'let*' ( s , a ) := m 'in' k" := (obind m (fun s a => k)) (at level 10, s name, a name, k at level 200).

Class SignalPath (R T : Type) := {
  sp_source :: SampleSource R;
  (** sample_reader.cpp; [None] is the exception. *)
  set_reader_running : bool -> R -> R;
  is_running : R -> bool;
  isFileInput : R -> bool;
  skip_samples : Z -> R -> option R;
  (** [get_samples] into [mOfdmBuffer], from an index on. *)
  get_samples : Z -> Z -> R -> option R;
  (** The offsets in frequency: of [run]; of the coarse correction with its result;
      of the change to the tuner; of the fine correction; of the clock. *)
  reset_offsets : R -> R;
  coarse_correction : R -> R * Z;
  rf_takeover : R -> R;
  fine_correction : R -> R;
  dc_avoidance_off : R -> R;
  clear_clock_error : R -> R;
  clock_error : Z -> R -> R;
  (** [mOfdmDecoder.reset], [mTiiDetector.reset]. *)
  reset_decoder : R -> R;
  reset_tii : R -> R;
  (** The magnitudes of the correlation, and [memmove] to the front. *)
  correlation : R -> R * list f32;
  keep_from : Z -> R -> R;
  store_reference : R -> R;
  decode_symbol : Z -> R -> R * list Z;
  null_symbol : bool -> R -> R;
  process_tii_data : R -> R * list T;
  clear_levels : R -> R
}.

Inductive EState := WAIT_FOR_TIME_SYNC_MARKER | EVAL_SYNC_SYMBOL | PROCESS_REST_OF_FRAME.

(** INPUT_RATE / 4 *)
Definition cSettleSampleCnt : Z := 2048000 / 4.

Section receiver.
Context {R T B E : Type} `{SignalPath R T} `{ServiceBackend B E}.
Context (qt : QtText) (now : Z).

(** What the thread emits: the signals, and what the backends hand on. *)
Inductive rx_event :=
  | dip_sync_found
  | no_dip_sync_found
  | show_tii (ids : list T)
  | show_clock_err (frames samples : Z)
  | served (out : list (list E)).

(** The settings other threads change. *)
Record Settings := mk_settings {
  mScanMode : bool; mAllowRfFreqShift : bool; mEnableTii : bool; mSyncOnStrongestPeak : bool;
  mcTiiFramesToCount : Z; mcThreshold : f32
}.

(** The variables of [run] and the counters. *)
Record Loop := mk_loop {
  rx_state : EState; sampleCount : Z; syncThreshold : f32;
  mTimeSyncAttemptCount : Z; mTiiCounter : Z; mClockOffsetTotalSamples : Z; mClockOffsetFrameCount : Z; mRfFreqShiftUsed : bool
}.

Record Receiver := mk_receiver {
  rx_path : R; mFicHandler : FicDecoder; mMscHandler : MscHandler B;
  mpEtiGenerator : option EtiGenerator; mEtiOn : bool; settings : Settings; loop : Loop; rx_log : list rx_event
}.

Definition set_path (r : R) (rx : Receiver) : Receiver :=
  mk_receiver r (mFicHandler rx) (mMscHandler rx) (mpEtiGenerator rx) (mEtiOn rx) (settings rx) (loop rx) (rx_log rx).
Definition set_fic (f : FicDecoder) (rx : Receiver) : Receiver :=
  mk_receiver (rx_path rx) f (mMscHandler rx) (mpEtiGenerator rx) (mEtiOn rx) (settings rx) (loop rx) (rx_log rx).
Definition set_msc (m : MscHandler B) (rx : Receiver) : Receiver :=
  mk_receiver (rx_path rx) (mFicHandler rx) m (mpEtiGenerator rx) (mEtiOn rx) (settings rx) (loop rx) (rx_log rx).
Definition set_eti (g : option EtiGenerator) (on : bool) (rx : Receiver) : Receiver :=
  mk_receiver (rx_path rx) (mFicHandler rx) (mMscHandler rx) g on (settings rx) (loop rx) (rx_log rx).
Definition set_settings (s : Settings) (rx : Receiver) : Receiver :=
  mk_receiver (rx_path rx) (mFicHandler rx) (mMscHandler rx) (mpEtiGenerator rx) (mEtiOn rx) s (loop rx) (rx_log rx).
Definition set_loop (l : Loop) (rx : Receiver) : Receiver :=
  mk_receiver (rx_path rx) (mFicHandler rx) (mMscHandler rx) (mpEtiGenerator rx) (mEtiOn rx) (settings rx) l (rx_log rx).
Definition emit (e : rx_event) (rx : Receiver) : Receiver :=
  mk_receiver (rx_path rx) (mFicHandler rx) (mMscHandler rx) (mpEtiGenerator rx) (mEtiOn rx) (settings rx) (loop rx) (rx_log rx ++ [e]).

Definition on_path (f : R -> R) (rx : Receiver) : Receiver := set_path (f (rx_path rx)) rx.
Definition set_state (s : EState) (rx : Receiver) : Receiver :=
  let l := loop rx in
  set_loop (mk_loop s (sampleCount l) (syncThreshold l) (mTimeSyncAttemptCount l) (mTiiCounter l) (mClockOffsetTotalSamples l) (mClockOffsetFrameCount l) (mRfFreqShiftUsed l)) rx.
Definition set_count (n : Z) (rx : Receiver) : Receiver :=
  let l := loop rx in
  set_loop (mk_loop (rx_state l) n (syncThreshold l) (mTimeSyncAttemptCount l) (mTiiCounter l) (mClockOffsetTotalSamples l) (mClockOffsetFrameCount l) (mRfFreqShiftUsed l)) rx.
Definition set_threshold (x : f32) (rx : Receiver) : Receiver :=
  let l := loop rx in
  set_loop (mk_loop (rx_state l) (sampleCount l) x (mTimeSyncAttemptCount l) (mTiiCounter l) (mClockOffsetTotalSamples l) (mClockOffsetFrameCount l) (mRfFreqShiftUsed l)) rx.
Definition set_attempts (n : Z) (rx : Receiver) : Receiver :=
  let l := loop rx in
  set_loop (mk_loop (rx_state l) (sampleCount l) (syncThreshold l) n (mTiiCounter l) (mClockOffsetTotalSamples l) (mClockOffsetFrameCount l) (mRfFreqShiftUsed l)) rx.
Definition set_tii_counter (n : Z) (rx : Receiver) : Receiver :=
  let l := loop rx in
  set_loop (mk_loop (rx_state l) (sampleCount l) (syncThreshold l) (mTimeSyncAttemptCount l) n (mClockOffsetTotalSamples l) (mClockOffsetFrameCount l) (mRfFreqShiftUsed l)) rx.
Definition set_clock (samples frames : Z) (rx : Receiver) : Receiver :=
  let l := loop rx in
  set_loop (mk_loop (rx_state l) (sampleCount l) (syncThreshold l) (mTimeSyncAttemptCount l) (mTiiCounter l) samples frames (mRfFreqShiftUsed l)) rx.
Definition set_rf_used (b : bool) (rx : Receiver) : Receiver :=
  let l := loop rx in
  set_loop (mk_loop (rx_state l) (sampleCount l) (syncThreshold l) (mTimeSyncAttemptCount l) (mTiiCounter l) (mClockOffsetTotalSamples l) (mClockOffsetFrameCount l) b) rx.

(** ** Reading samples *)
(** [assert(oV.size() >= iStartIdx + iNoSamples)], and the exception. *)
Definition read_ofdm (start n : Z) (rx : Receiver) : outcome Receiver unit :=
  if cTn <? start + n then Fault
  else match get_samples start n (rx_path rx) with None => Thrown rx | Some r => Done (set_path r rx) tt end.

(** The loop of [discard_samples]. *)
Fixpoint discard_loop (fuel : nat) (remainingCnt : Z) (rx : Receiver) : outcome Receiver unit :=
  match fuel with
  | O => Fault
  | S fuel =>
      if is_running (rx_path rx) && (0 <? remainingCnt) then
        let chunkSize := Z.min remainingCnt cTn in
        match skip_samples chunkSize (rx_path rx) with
        | None => Thrown rx
        | Some r => discard_loop fuel (remainingCnt - chunkSize) (set_path r rx)
        end
      else Done rx tt
  end.

Definition discard_samples (iSampleCnt : Z) (rx : Receiver) : outcome Receiver unit :=
  if isFileInput (rx_path rx) then Done rx tt else discard_loop (Z.to_nat (iSampleCnt + 1)) iSampleCnt rx.

(** ** The three states *)
Definition state_wait_for_time_sync_marker (rx : Receiver) : outcome Receiver bool :=
  match read_samples_until_end_of_level_drop (rx_path rx) with
  | Fault => Fault
  | Thrown r => Thrown (set_path r rx)
  | Done r TIMESYNC_ESTABLISHED => Done (emit dip_sync_found (set_attempts 0 (set_path r rx))) true
  | Done r NO_DIP_FOUND =>
      let rx := set_attempts (mTimeSyncAttemptCount (loop rx) + 1) (set_path r rx) in
      Done (if 8 <=? mTimeSyncAttemptCount (loop rx) then emit no_dip_sync_found (set_attempts 0 rx) else rx) false
  | Done r NO_END_OF_DIP_FOUND => Done (set_attempts 0 (set_path r rx)) false
  | Done r IDLE => Done (set_path r rx) false
  end.

Definition state_eval_sync_symbol (iThreshold : f32) (rx : Receiver) : outcome Receiver bool :=
  let* (rx, _) := read_ofdm 0 cTu rx in
  let '(r, v) := correlation (rx_path rx) in
  let rx := set_path r rx in
  match find_max_peak (mSyncOnStrongestPeak (settings rx)) iThreshold v with
  | None => Fault
  | Some startIndex =>
      if startIndex <? 0 then Done rx false
      else
        let nextOfdmBufferIdx := cTu - startIndex in
        if nextOfdmBufferIdx <? 0 then Fault
        else
          let* (rx, _) := read_ofdm nextOfdmBufferIdx (cTu - nextOfdmBufferIdx) (on_path (keep_from startIndex) rx) in
          Done (set_count (startIndex + cTu) rx) true
  end.

(** [mpEtiGenerator->process_block]; a null pointer is a fault. *)
Definition record_symbol (bits : list Z) (ofdmSymbIdx : Z) (rx : Receiver) : outcome Receiver unit :=
  match mpEtiGenerator rx with
  | None => Fault
  | Some g =>
      match eti_process_block (mFicHandler rx) bits ofdmSymbIdx g with
      | Some g => Done (set_eti (Some g) (mEtiOn rx) rx) tt
      | None => Fault
      end
  end.

(** One symbol of the loop of [_process_ofdm_symbols_1_to_L]. *)
Definition process_ofdm_symbol (ofdmSymbIdx : Z) (rx : Receiver) : outcome Receiver unit :=
  let* (rx, _) := read_ofdm 0 cTs rx in
  let rx := set_count (sampleCount (loop rx) + cTs) rx in
  let '(r, bits) := decode_symbol ofdmSymbIdx (rx_path rx) in
  let rx := set_path r rx in
  let* (rx, _) := if ofdmSymbIdx <=? 3
    then match process_fic_block qt now bits ofdmSymbIdx (mFicHandler rx) with Some f => Done (set_fic f rx) tt | None => Fault end
    else Done rx tt in
  let* (rx, _) := if mEtiOn rx
    then record_symbol bits ofdmSymbIdx rx
    else Done rx tt in
  if (3 <? ofdmSymbIdx) && negb (mScanMode (settings rx))
  then match process_block (mMscHandler rx) bits ofdmSymbIdx with
       | Some (m, out) => Done (emit (served out) (set_msc m rx)) tt
       | None => Fault
       end
  else Done rx tt.

Fixpoint process_ofdm_symbols (n : nat) (ofdmSymbIdx : Z) (rx : Receiver) : outcome Receiver unit :=
  match n with
  | O => Done rx tt
  | S n => let* (rx, _) := process_ofdm_symbol ofdmSymbIdx rx in process_ofdm_symbols n (ofdmSymbIdx + 1) rx
  end.

Definition process_null_symbol (rx : Receiver) : outcome Receiver unit :=
  let* (rx, _) := read_ofdm 0 cTn rx in
  let rx := set_count (sampleCount (loop rx) + cTn) rx in
  let isTiiNullSegment := 4 <=? Z.land (get_cif_count (mpFibDecoder (mFicHandler rx))) 7 in
  let rx := on_path (null_symbol isTiiNullSegment) rx in
  if isTiiNullSegment then
    let rx := set_tii_counter (mTiiCounter (loop rx) + 1) rx in
    if mcTiiFramesToCount (settings rx) <=? mTiiCounter (loop rx) then
      let rx :=
        if mEnableTii (settings rx) then
          let '(r, ids) := process_tii_data (rx_path rx) in
          if bool_decide (ids = []) then set_path r rx else emit (show_tii ids) (set_path r rx)
        else rx in
      Done (set_tii_counter 0 rx) tt
    else Done rx tt
  else Done rx tt.

(** Up to the symbols: symbol 0 and the offsets; the result is [correction]. *)
Definition begin_rest_of_frame (rx : Receiver) : Receiver * Z :=
  let rx := on_path store_reference rx in
  if get_fic_decode_ratio_percent (mFicHandler rx) <? 30 then
    let '(r, correction) := coarse_correction (rx_path rx) in (set_path r rx, correction)
  else if negb (mRfFreqShiftUsed (loop rx)) && mAllowRfFreqShift (settings rx)
       then (set_rf_used true (on_path rf_takeover rx), 0)
       else (rx, 0).

(** After the symbols. *)
Definition end_rest_of_frame (correction : Z) (rx : Receiver) : outcome Receiver unit :=
  let* (rx, _) := process_null_symbol (on_path fine_correction rx) in
  let n := sampleCount (loop rx) in
  let rx := if correction =? 0 then on_path (clock_error n) rx else rx in
  let samples := mClockOffsetTotalSamples (loop rx) + n in
  let frames := mClockOffsetFrameCount (loop rx) + 1 in
  Done (if 10 <? frames then on_path clear_levels (set_clock 0 0 (emit (show_clock_err frames samples) rx)) else set_clock samples frames rx) tt.

Definition state_process_rest_of_frame (rx : Receiver) : outcome Receiver unit :=
  let '(rx, correction) := begin_rest_of_frame rx in
  let* (rx, _) := process_ofdm_symbols (Z.to_nat (cL - 1)) 1 rx in
  end_rest_of_frame correction rx.

(** ** [run] *)
Definition twice (x : f32) : f32 := f32_mul (f32_of 2) x.

(** One pass of [while (true)]. *)
Definition run_step (rx : Receiver) : outcome Receiver unit :=
  match rx_state (loop rx) with
  | WAIT_FOR_TIME_SYNC_MARKER =>
      let rx := set_clock 0 0 (set_threshold (mcThreshold (settings rx)) (set_count 0 (set_tii_counter 0 (on_path reset_decoder (on_path reset_tii rx))))) in
      let* (rx, ok) := state_wait_for_time_sync_marker rx in
      Done (on_path clear_clock_error (set_state (if ok : bool then EVAL_SYNC_SYMBOL else WAIT_FOR_TIME_SYNC_MARKER) rx)) tt
  | EVAL_SYNC_SYMBOL =>
      let* (rx, ok) := state_eval_sync_symbol (syncThreshold (loop rx)) rx in
      Done (set_state (if ok : bool then PROCESS_REST_OF_FRAME else WAIT_FOR_TIME_SYNC_MARKER) rx) tt
  | PROCESS_REST_OF_FRAME =>
      let* (rx, _) := state_process_rest_of_frame rx in
      Done (set_threshold (twice (mcThreshold (settings rx))) (set_state EVAL_SYNC_SYMBOL rx)) tt
  end.

Fixpoint read_some (n : nat) (rx : Receiver) : outcome Receiver unit :=
  match n with O => Done rx tt | S n => let* (rx, _) := read_ofdm 0 cTu rx in read_some n rx end.

(** Up to [while (true)]. *)
Definition run_begin (rx : Receiver) : outcome Receiver unit :=
  let rx := on_path (set_reader_running true) (set_rf_used false (set_count 0 (set_threshold f32_zero rx))) in
  let rx := set_fic (reset_fic_decode_success_ratio (mFicHandler rx)) (on_path reset_offsets rx) in
  let rx := set_state WAIT_FOR_TIME_SYNC_MARKER (set_attempts 0 rx) in
  let* (rx, _) := discard_samples cSettleSampleCnt rx in
  read_some 20 rx.

(** ** Calls of other threads *)
Definition start (rx : Receiver) : Receiver :=
  let rx := set_fic (fic_restart (mFicHandler rx)) rx in
  if mScanMode (settings rx) then rx else set_msc (reset_channel (mMscHandler rx)) rx.

(** [stop], when [run] has returned. *)
Definition stop (rx : Receiver) : Receiver := set_fic (fic_stop (mFicHandler rx)) rx.

(** [set_audio_channel], [set_data_channel]: [create] is the new backend. *)
Definition set_service_channel (create : option B) (f : EProcessFlag) (rx : Receiver) : option (Receiver * bool) :=
  if mScanMode (settings rx) then Some (rx, false)
  else m ← set_channel (mMscHandler rx) create f; Some (set_msc m rx, true).

Definition stop_one_service (iSubChId : Z) (f : EProcessFlag) (rx : Receiver) : Receiver :=
  if mScanMode (settings rx) then rx else set_msc (stop_service (mMscHandler rx) iSubChId f) rx.
Definition stop_services (rx : Receiver) : Receiver :=
  if mScanMode (settings rx) then rx else set_msc (stop_all_services (mMscHandler rx)) rx.

(** [fresh] is a new generator, [opened] whether its file could be created. *)
Definition start_recording (fresh : EtiGenerator) (opened : bool) (rx : Receiver) : Receiver * bool :=
  if mEtiOn rx then (rx, true)
  else
    let '(g, ok) := start_eti_generator opened fresh in
    if ok : bool then (set_eti (Some g) true rx, true) else (set_eti None false rx, false).
Definition stop_recording (rx : Receiver) : Receiver := if mEtiOn rx then set_eti None false rx else rx.
(** [reset_eti_generator] *)
Definition reset_recording (rx : Receiver) : Receiver :=
  if mEtiOn rx then set_eti (option_map eti_reset (mpEtiGenerator rx)) true rx else rx.

(** [start_fic_dump], [stop_fic_dump], [is_service_running] *)
Definition begin_fic_dump (rx : Receiver) : Receiver := set_fic (start_fic_dump (mFicHandler rx)) rx.
Definition end_fic_dump (rx : Receiver) : Receiver := set_fic (stop_fic_dump (mFicHandler rx)) rx.
Definition service_running (iSubChId : Z) (f : EProcessFlag) (rx : Receiver) : bool := is_service_running (mMscHandler rx) iSubChId f.

Definition set_scan_mode (b : bool) (rx : Receiver) : Receiver :=
  let s := settings rx in
  set_settings (mk_settings b (mAllowRfFreqShift s) (mEnableTii s) (mSyncOnStrongestPeak s) (mcTiiFramesToCount s) (mcThreshold s)) rx.
Definition set_tii_processing (b : bool) (rx : Receiver) : Receiver :=
  let s := settings rx in
  set_settings (mk_settings (mScanMode s) (mAllowRfFreqShift s) b (mSyncOnStrongestPeak s) (mcTiiFramesToCount s) (mcThreshold s)) rx.
Definition set_sync_on_strongest_peak (b : bool) (rx : Receiver) : Receiver :=
  let rx := on_path reset_tii rx in
  let s := settings rx in
  set_settings (mk_settings (mScanMode s) (mAllowRfFreqShift s) (mEnableTii s) b (mcTiiFramesToCount s) (mcThreshold s)) rx.
Definition set_dc_avoidance_algorithm (b : bool) (rx : Receiver) : Receiver :=
  let rx := set_rf_used false (if b then rx else on_path dc_avoidance_off rx) in
  let s := settings rx in
  set_settings (mk_settings (mScanMode s) b (mEnableTii s) (mSyncOnStrongestPeak s) (mcTiiFramesToCount s) (mcThreshold s)) rx.

(** The flag is read before the generator is used, without a lock: a recording
    that is stopped in between leaves a null pointer to the thread. *)
Lemma recording_race bits i rx : mEtiOn rx = true -> record_symbol bits i (stop_recording rx) = Fault.
Proof. intros Hon. unfold record_symbol, stop_recording. by rewrite Hon. Qed.
End receiver.

(** Compute the fields of an explicit receiver. *)
Ltac rx_fields :=
  cbn [rx_path mFicHandler mMscHandler mpEtiGenerator mEtiOn settings loop rx_log set_path set_fic set_msc set_eti set_settings set_loop set_count set_state set_threshold emit on_path
       obind mbind option_bind rx_state sampleCount syncThreshold mTimeSyncAttemptCount mTiiCounter mClockOffsetTotalSamples mClockOffsetFrameCount mRfFreqShiftUsed].

(** ** A signal path that plays symbols *)
(** It is in tune, finds every frame 500 samples late, gives the symbols it was
    made with, then silence, and is stopped after a number of reads. *)
Record tape := mk_tape { tp_reads : Z; tp_symbols : list (list Z); tp_heard : Z }.

Definition tape_read (r : tape) : option tape := if 0 <? tp_reads r then Some (mk_tape (tp_reads r - 1) (tp_symbols r) (tp_heard r)) else None.
Definition tape_correlation : list f32 := sample_correlation [(500, 100)].
Definition tape_symbol (r : tape) : tape * list Z :=
  match tp_symbols r with
  | [] => (r, zeros 3072)
  | x :: xs => (mk_tape (tp_reads r) xs (tp_heard r), if zlen x =? c2K then x else zeros 3072)
  end.

(** Fifty silent samples, then a level of 1. *)
#[export] Instance tape_source : SampleSource tape := {
  get_sample := fun r => Some (mk_tape (tp_reads r) (tp_symbols r) (tp_heard r + 1), if tp_heard r <? 50 then f32_zero else f32_of 1);
  get_sLevel := fun _ => f32_of 1
}.

#[export] Instance tape_path : SignalPath tape unit := {
  set_reader_running := fun _ r => r; is_running := fun r => 0 <? tp_reads r; isFileInput := fun _ => false;
  skip_samples := fun _ r => tape_read r; get_samples := fun _ _ r => tape_read r;
  reset_offsets := id; coarse_correction := fun r => (r, 0); rf_takeover := id; fine_correction := id; dc_avoidance_off := id;
  clear_clock_error := id; clock_error := fun _ r => r; reset_decoder := id; reset_tii := id;
  correlation := fun r => (r, tape_correlation); keep_from := fun _ r => r; store_reference := id;
  decode_symbol := fun _ r => tape_symbol r; null_symbol := fun _ r => r; process_tii_data := fun r => (r, []); clear_levels := id
}.

Definition tape_settings : Settings := mk_settings false true true false 5 (f32_of 3).
Definition tape_receiver {B E : Type} (st : EState) (r : tape) (f : FicDecoder) (m : MscHandler B) : Receiver (R := tape) (T := unit) (B := B) (E := E) :=
  mk_receiver r f m None false tape_settings (mk_loop st 0 (f32_of 3) 0 0 0 0 false) [].
