(* ===== verification/ReceiverSafety.v ===== *)
(** * The receiver thread never fails

    The thread of Receiver.v and the calls of the other threads as a step relation
    at the level of symbols.  Theorem: whatever the samples are and whenever the
    calls come, no assert fails, no buffer is overrun, and the counters keep their
    ranges, as long as the backends do not fail.  ETI recording has its own theorem
    (EtiRecording.v); the dump of the FIC is left out of the calls. *)
From S2P Require Import Prelude BitExtractors Viterbi Protection Backend MscHandler FibConfig FibFig0 FibDecoder FibInvariant FibProperties FicDecoder EtiGenerator F32 SyncSearch Receiver.
Open Scope Z_scope.

(** What is relied on of the signal path: magnitudes are no NaN, and a symbol has
    3072 soft bits (the size of [mBits]). *)
Class SignalLaws (R T : Type) `{SignalPath R T} : Prop := {
  correlation_magnitudes : forall r, Forall nonneg (snd (correlation r));
  symbol_bits : forall i r, zlen (snd (decode_symbol i r)) = c2K
}.

(** Where the thread is: before a pass of its loop, or before a symbol. *)
Inductive place := at_loop | at_symbol (ofdmSymbIdx correction : Z).

Section safety.
Context {R T B E : Type} `{SignalLaws R T} `{ServiceBackend B E}.
Context (qt : QtText) (now : Z) (backend_ok : B -> Prop).
#[local] Abbreviation Receiver := (Receiver (R := R) (T := T) (B := B) (E := E)).

(** The thread up to the next place where a call of another thread can come in. *)
Definition receiver_thread (p : place) (rx : Receiver) : outcome Receiver place :=
  match p with
  | at_loop =>
      match rx_state (loop rx) with
      | PROCESS_REST_OF_FRAME => let '(rx, correction) := begin_rest_of_frame rx in Done rx (at_symbol 1 correction)
      | _ => let* (rx, _) := run_step qt now rx in Done rx at_loop
      end
  | at_symbol i correction =>
      if i <? cL then let* (rx, _) := process_ofdm_symbol qt now i rx in Done rx (at_symbol (i + 1) correction)
      else
        let* (rx, _) := end_rest_of_frame correction rx in
        Done (set_threshold (twice (mcThreshold (settings rx))) (set_state EVAL_SYNC_SYMBOL rx)) at_loop
  end.

(** The calls of other threads, but for the recording and the dump. *)
Inductive control (rx : Receiver) : Receiver -> Prop :=
  | control_start_service b f rx' ok : backend_ok b -> set_service_channel (Some b) f rx = Some (rx', ok) -> control rx rx'
  | control_stop_service s f : control rx (stop_one_service s f rx)
  | control_stop_all : control rx (stop_services rx)
  | control_scan_mode b : control rx (set_scan_mode b rx)
  | control_tii b : control rx (set_tii_processing b rx)
  | control_strongest b : control rx (set_sync_on_strongest_peak b rx)
  | control_dc_avoidance b : control rx (set_dc_avoidance_algorithm b rx).

Inductive rx_step : place * Receiver -> place * Receiver -> Prop :=
  | step_thread p rx p' rx' : receiver_thread p rx = Done rx' p' -> rx_step (p, rx) (p', rx')
  | step_control p rx rx' : control rx rx' -> rx_step (p, rx) (p, rx').

Inductive rx_steps (s : place * Receiver) : place * Receiver -> Prop :=
  | steps_none : rx_steps s s
  | steps_more s1 s2 : rx_steps s s1 -> rx_step s1 s2 -> rx_steps s s2.

(** ** The invariant *)
(** The FIC decoder before symbol [i]. *)
Definition fic_at (i : Z) (f : FicDecoder) : Prop :=
  if i =? 2 then exists f0 b1, fic_ok qt f0 /\ zlen b1 = c2K /\ process_fic_block qt now b1 1 f0 = Some f
  else if i =? 3 then exists f0 b1 b2, fic_ok qt f0 /\ zlen b1 = c2K /\ zlen b2 = c2K /\
         (s ← process_fic_block qt now b1 1 f0; process_fic_block qt now b2 2 s) = Some f
  else fic_ok qt f.

(** A frame has at most 198151 samples, and eleven of them make one report. *)
Definition max_frame : Z := 2 * cTu - 1 + (cL - 1) * cTs + cTn.

Record counters_ok (s : Settings) (l : Loop) : Prop := {
  co_attempts : 0 <= mTimeSyncAttemptCount l < 8;
  co_tii : 0 <= mTiiCounter l < Z.max 1 (mcTiiFramesToCount s);
  co_frames : 0 <= mClockOffsetFrameCount l <= 10;
  co_total : 0 <= mClockOffsetTotalSamples l <= mClockOffsetFrameCount l * max_frame;
  co_threshold : positive_number (mcThreshold s) /\ positive_number (twice (mcThreshold s))
}.

Definition samples_ok (p : place) (l : Loop) : Prop :=
  match p with
  | at_loop => (rx_state l = PROCESS_REST_OF_FRAME -> cTu <= sampleCount l < 2 * cTu) /\ (rx_state l = EVAL_SYNC_SYMBOL -> positive_number (syncThreshold l))
  | at_symbol i _ => 1 <= i <= cL /\ cTu <= sampleCount l - (i - 1) * cTs < 2 * cTu
  end.

Definition next_symbol (p : place) : Z := match p with at_loop => 1 | at_symbol i _ => i end.

Record rx_ok (p : place) (rx : Receiver) : Prop := {
  ro_counters : counters_ok (settings rx) (loop rx);
  ro_samples : samples_ok p (loop rx);
  ro_fic : fic_at (next_symbol p) (mFicHandler rx);
  ro_msc : Forall (fun e => backend_ok (fst e)) (mBackendList (mMscHandler rx));
  ro_eti : mEtiOn rx = false
}.

(** The outcome of an operation that is not a fault. *)
Definition holds {A} (m : outcome Receiver A) (P : Receiver -> A -> Prop) : Prop :=
  match m with Done rx a => P rx a | Thrown _ => True | Fault => False end.

Lemma holds_bind {A C} (m : outcome Receiver A) (f : Receiver -> A -> outcome Receiver C) P Q :
  holds m P -> (forall rx a, P rx a -> holds (f rx a) Q) -> holds (obind m f) Q.
Proof. destruct m; cbn; auto. Qed.

Lemma holds_mono {A} (m : outcome Receiver A) (P Q : Receiver -> A -> Prop) : holds m P -> (forall rx a, P rx a -> Q rx a) -> holds m Q.
Proof. destruct m; cbn; auto. Qed.

(** Reading changes nothing but the signal path. *)
Definition same_but_path (rx rx' : Receiver) : Prop := exists r, rx' = set_path r rx.

Lemma read_ofdm_holds a n rx : a + n <= cTn -> holds (read_ofdm a n rx) (fun rx' _ => same_but_path rx rx').
Proof. intros Hn. unfold read_ofdm. destruct (Z.ltb_spec cTn (a + n)); [lia|]. destruct (get_samples a n (rx_path rx)) as [r|]; cbn; [by exists r|done]. Qed.

Lemma counters_state s l x : counters_ok s l -> counters_ok s (mk_loop x (sampleCount l) (syncThreshold l) (mTimeSyncAttemptCount l) (mTiiCounter l) (mClockOffsetTotalSamples l) (mClockOffsetFrameCount l) (mRfFreqShiftUsed l)).
Proof. intros []. by split. Qed.

Lemma counters_count s l n : counters_ok s l -> counters_ok s (mk_loop (rx_state l) n (syncThreshold l) (mTimeSyncAttemptCount l) (mTiiCounter l) (mClockOffsetTotalSamples l) (mClockOffsetFrameCount l) (mRfFreqShiftUsed l)).
Proof. intros []. by split. Qed.

(** ** The FIC symbols *)
Lemma fic_symbol i bits f : 1 <= i <= 3 -> zlen bits = c2K -> fic_at i f ->
  exists f', process_fic_block qt now bits i f = Some f' /\ fic_at (i + 1) f'.
Proof.
  intros Hi Hb Hf. assert (zlen (zeros 3072) = c2K) as Hz by (unfold c2K; apply zlen_zeros; lia). unfold c2K in *.
  assert (i = 1 \/ i = 2 \/ i = 3) as [->|[->| ->]] by lia; unfold fic_at in *; cbn [Z.eqb Pos.eqb Z.add Pos.add Pos.succ] in *.
  - destruct (fic_frame_safe qt now bits (zeros 3072) (zeros 3072) f Hf Hb Hz Hz) as (s' & Ep & _). unfold process_fic_symbols in Ep.
    destruct (process_fic_block qt now bits 1 f) as [f'|] eqn:E1; [|discriminate Ep]. exists f'. split; [reflexivity|]. exists f, bits. exact (conj Hf (conj Hb E1)).
  - destruct Hf as (f0 & b1 & K0 & K1 & E1). destruct (fic_frame_safe qt now b1 bits (zeros 3072) f0 K0 K1 Hb Hz) as (s' & Ep & _). unfold process_fic_symbols in Ep.
    rewrite E1 in Ep. cbn [mbind option_bind] in Ep. destruct (process_fic_block qt now bits 2 f) as [f'|] eqn:E2; [|discriminate Ep]. exists f'. split; [reflexivity|].
    exists f0, b1, bits. rewrite E1. exact (conj K0 (conj K1 (conj Hb E2))).
  - destruct Hf as (f0 & b1 & b2 & K0 & K1 & K2 & E2). destruct (fic_frame_safe qt now b1 b2 bits f0 K0 K1 K2 Hb) as (s' & Ep & Hs & _). unfold process_fic_symbols in Ep.
    destruct (process_fic_block qt now b1 1 f0) as [f1|]; [|discriminate E2]. cbn [mbind option_bind] in *. rewrite E2 in Ep. cbn [mbind option_bind] in Ep. exists s'. exact (conj Ep Hs).
Qed.

(** ** The steps *)
Hypothesis backend_total : forall iV b, backend_ok b -> exists b' out, backend_process iV b = Some (b', out) /\ backend_ok b'.

Lemma call_backends_total cif l : Forall (fun e : B * EProcessFlag => backend_ok (fst e)) l ->
  exists r, mapM (call_backend cif) l = Some r /\ Forall (fun e => backend_ok (fst e)) (map fst r).
Proof.
  induction 1 as [|e l Hb _ IH]; [exists []; split; [reflexivity|constructor]|]. destruct IH as (r & Er & Hr).
  assert (exists r1, call_backend cif e = Some r1 /\ backend_ok (fst (fst r1))) as (r1 & E1 & Hr1).
  { unfold call_backend. destruct (backend_total (slice cif (dCuStartAddr (backend_desc (fst e)) * cCUSizeBits) (dCuSize (backend_desc (fst e)) * cCUSizeBits)) (fst e) Hb) as (b' & out & Eb & Hb').
    rewrite Eb. cbn [mbind option_bind fst snd]. eexists. split; [reflexivity|exact Hb']. }
  assert (mapM (call_backend cif) (e :: l) = (y ← call_backend cif e; k ← mapM (call_backend cif) l; Some (y :: k))) as -> by reflexivity.
  rewrite E1, Er. cbn [mbind option_bind]. eexists. split; [reflexivity|]. cbn [map]. by constructor.
Qed.

Lemma msc_symbol i bits m : 4 <= i -> zlen bits = c2K -> Forall (fun e : B * EProcessFlag => backend_ok (fst e)) (mBackendList m) ->
  exists m' out, process_block m bits i = Some (m', out) /\ Forall (fun e => backend_ok (fst e)) (mBackendList m').
Proof.
  intros Hi Hb Hm. unfold process_block. rewrite Hb, Z.eqb_refl. destruct (Z.leb_spec 4 i); [|lia]. cbn [negb andb].
  destruct (_ <? _); [by eexists _, _|]. destruct (call_backends_total (copy_at (mCifVector m) ((i - 4) mod cNumberOfBlocksPerCif * c2K) bits) _ Hm) as (r & -> & Hr).
  cbn [mbind option_bind]. by eexists _, _.
Qed.

(** The part of the receiver the symbols do not count. *)
Lemma symbol_holds i c rx : 1 <= i < cL -> rx_ok (at_symbol i c) rx -> holds (process_ofdm_symbol qt now i rx) (fun rx' _ => rx_ok (at_symbol (i + 1) c) rx').
Proof.
  intros Hi [Hc [Hs1 Hs2] Hf Hm He]. cbn [next_symbol] in Hf. unfold process_ofdm_symbol.
  eapply holds_bind; [apply read_ofdm_holds; by vm_compute|]. intros rx1 _ [r ->]. set (rx2 := set_count _ (set_path r rx)).
  assert (sampleCount (loop rx2) = sampleCount (loop rx) + cTs) as Hn by done.
  assert (counters_ok (settings rx2) (loop rx2)) as Hc2 by (by apply counters_count).
  assert (mFicHandler rx2 = mFicHandler rx /\ mMscHandler rx2 = mMscHandler rx /\ mEtiOn rx2 = false) as (Ef & Em & Ee) by done. clearbody rx2.
  pose proof (symbol_bits i (rx_path rx2)) as Hb. destruct (decode_symbol i (rx_path rx2)) as [r2 bits]. cbn [snd] in Hb.
  assert (forall f, fic_at (i + 1) f -> let rx' := set_fic f (set_path r2 rx2) in
    holds (if (3 <? i) && negb (mScanMode (settings rx')) then
             match process_block (mMscHandler rx') bits i with Some (m, out) => Done (emit (served out) (set_msc m rx')) tt | None => Fault end
           else Done rx' tt) (fun rx' _ => rx_ok (at_symbol (i + 1) c) rx')) as Htail.
  { intros f Hf' rx'. assert (samples_ok (at_symbol (i + 1) c) (loop rx2)) as Hs by (cbn [samples_ok]; lia).
    destruct (Z.ltb_spec 3 i); cbn [andb]; [|split; [exact Hc2|exact Hs|exact Hf'|cbn; by rewrite Em|exact Ee]].
    destruct (mScanMode (settings rx')); cbn [negb]; [split; [exact Hc2|exact Hs|exact Hf'|cbn; by rewrite Em|exact Ee]|].
    destruct (msc_symbol i bits (mMscHandler rx')) as (m' & out & -> & Hm'); [lia|done|cbn; by rewrite Em|]. split; [exact Hc2|exact Hs|exact Hf'|exact Hm'|exact Ee]. }
  cbn zeta in Htail. change (mFicHandler (set_path r2 rx2)) with (mFicHandler rx2).
  destruct (Z.leb_spec i 3).
  - rewrite Ef. destruct (fic_symbol i bits (mFicHandler rx)) as (f' & Ep & Hf'); [lia|done|done|]. rewrite Ep. cbn [obind].
    change (mEtiOn (set_fic f' (set_path r2 rx2))) with (mEtiOn rx2). rewrite Ee. cbn [obind]. by apply Htail.
  - cbn [obind]. change (mEtiOn (set_path r2 rx2)) with (mEtiOn rx2). rewrite Ee. cbn [obind].
    specialize (Htail (mFicHandler rx2)). replace (set_fic (mFicHandler rx2) (set_path r2 rx2)) with (set_path r2 rx2) in Htail by (by destruct rx2). apply Htail.
    rewrite Ef. unfold fic_at in *. destruct (Z.eqb_spec i 2), (Z.eqb_spec i 3), (Z.eqb_spec (i + 1) 2), (Z.eqb_spec (i + 1) 3); try lia. done.
Qed.

Lemma begin_ok rx rx' c : rx_state (loop rx) = PROCESS_REST_OF_FRAME -> rx_ok at_loop rx -> begin_rest_of_frame rx = (rx', c) -> rx_ok (at_symbol 1 c) rx'.
Proof.
  intros Est [Hc Hs Hf Hm He]. apply (proj1 Hs) in Est. clear Hs. rename Est into Hs.
  assert (forall rx', (exists r b, rx' = set_path r rx \/ rx' = set_rf_used b (set_path r rx)) -> rx_ok (at_symbol 1 c) rx') as Hok.
  { intros rx2 (r & b & [->| ->]); (split; [destruct Hc; split; assumption|cbn [samples_ok]; cbn; unfold cL; lia|exact Hf|exact Hm|exact He]). }
  unfold begin_rest_of_frame. destruct (_ <? 30).
  - destruct (coarse_correction _) as [r c']. intros [= <- <-]. apply Hok. by exists r, false; left.
  - destruct (_ && _); intros [= <- <-]; apply Hok; [exists (rf_takeover (store_reference (rx_path rx))), true; by right|exists (store_reference (rx_path rx)), true; by left].
Qed.

(** The null symbol and the counters of the frame. *)
Record frame_done (rx rx' : Receiver) : Prop := {
  fd_fic : mFicHandler rx' = mFicHandler rx;
  fd_msc : mMscHandler rx' = mMscHandler rx;
  fd_eti : mEtiOn rx' = mEtiOn rx;
  fd_settings : settings rx' = settings rx;
  fd_count : sampleCount (loop rx') = sampleCount (loop rx) + cTn;
  fd_counters : counters_ok (settings rx) (loop rx')
}.

Lemma null_symbol_holds rx : counters_ok (settings rx) (loop rx) -> holds (process_null_symbol rx) (fun rx' _ => frame_done rx rx').
Proof.
  intros Hc. unfold process_null_symbol. eapply holds_bind; [apply read_ofdm_holds; by vm_compute|]. intros rx1 _ [r ->].
  set (rx2 := set_count _ (set_path r rx)). assert (frame_done rx rx2) as H2 by (split; [done..|by apply counters_count]). clearbody rx2.
  destruct (4 <=? _); [|by destruct H2; split]. set (rx3 := set_tii_counter _ _).
  assert (settings rx3 = settings rx) as E3 by apply H2. rewrite E3.
  assert (mTiiCounter (loop rx3) = mTiiCounter (loop rx2) + 1) as En by done.
  pose proof (co_tii _ _ (fd_counters _ _ H2)) as Ht.
  assert (forall n rx', 0 <= n < Z.max 1 (mcTiiFramesToCount (settings rx)) -> (exists r l, rx' = set_tii_counter n (mk_receiver r (mFicHandler rx2) (mMscHandler rx2) (mpEtiGenerator rx2) (mEtiOn rx2) (settings rx2) (loop rx2) l)) -> frame_done rx rx') as Hok.
  { intros n rx' Hn (r' & l & ->). destruct H2 as [F1 F2 F3 F4 F5 [A1 A2 A3 A4 A5]]. split; [exact F1|exact F2|exact F3|exact F4|exact F5|by split]. }
  destruct (Z.leb_spec (mcTiiFramesToCount (settings rx)) (mTiiCounter (loop rx3))).
  - destruct (mEnableTii (settings rx)); [destruct (process_tii_data (rx_path rx3)) as [r' ids]; destruct (bool_decide (ids = []))|]; (apply (Hok 0); [lia|]).
    + exists r', (rx_log rx2). reflexivity.
    + exists r', (rx_log rx2 ++ [show_tii ids]). reflexivity.
    + exists (null_symbol true (rx_path rx2)), (rx_log rx2). reflexivity.
  - apply (Hok (mTiiCounter (loop rx2) + 1)); [lia|]. exists (null_symbol true (rx_path rx2)), (rx_log rx2). reflexivity.
Qed.

Lemma end_holds c rx : rx_ok (at_symbol cL c) rx ->
  holds (end_rest_of_frame c rx) (fun rx' _ => rx_ok at_loop (set_threshold (twice (mcThreshold (settings rx'))) (set_state EVAL_SYNC_SYMBOL rx'))).
Proof.
  intros [Hc [_ Hs] Hf Hm He]. unfold end_rest_of_frame. eapply holds_bind; [apply null_symbol_holds; exact Hc|].
  intros rx1 _ [F1 F2 F3 F4 F5 F6]. change (loop (on_path fine_correction rx)) with (loop rx) in F5. change (mFicHandler (on_path fine_correction rx)) with (mFicHandler rx) in F1.
  change (mMscHandler (on_path fine_correction rx)) with (mMscHandler rx) in F2. change (mEtiOn (on_path fine_correction rx)) with (mEtiOn rx) in F3.
  change (settings (on_path fine_correction rx)) with (settings rx) in F4, F6.
  set (rx2 := if c =? 0 then on_path (clock_error (sampleCount (loop rx1))) rx1 else rx1).
  assert (exists r, rx2 = set_path r rx1) as [r E2] by (unfold rx2; destruct (c =? 0); [by eexists|exists (rx_path rx1); by destruct rx1]). clearbody rx2. subst rx2.
  destruct F6 as [A1 A2 A3 A4 A5]. cbn [samples_ok] in Hs.
  assert (forall n f rx', (n = 0 /\ f = 0 \/ n = mClockOffsetTotalSamples (loop rx1) + sampleCount (loop rx1) /\ f = mClockOffsetFrameCount (loop rx1) + 1 /\ f <= 10) ->
    (exists r l, rx' = set_clock n f (mk_receiver r (mFicHandler rx1) (mMscHandler rx1) (mpEtiGenerator rx1) (mEtiOn rx1) (settings rx1) (loop rx1) l)) ->
    rx_ok at_loop (set_threshold (twice (mcThreshold (settings rx'))) (set_state EVAL_SYNC_SYMBOL rx'))) as Hok.
  { intros n f rx' Hnf (r' & l & ->). split; [|split; [done|intros _; cbn; rewrite F4; apply A5]| | |].
    - cbn. rewrite F4. split; cbn; [exact A1|exact A2| | |exact A5].
      + lia.
      + unfold max_frame in *. destruct Hnf as [[-> ->]|(-> & -> & _)]; [lia|]. unfold cL, cTu, cTs, cTn in *. lia.
    - cbn. rewrite F1. exact Hf.
    - cbn. rewrite F2. exact Hm.
    - cbn. rewrite F3. exact He. }
  cbn [holds]. destruct (Z.ltb_spec 10 (mClockOffsetFrameCount (loop (set_path r rx1)) + 1)) as [Hl|Hl]; cbn [loop set_path] in *.
  - apply (Hok 0 0); [by left|]. exists (clear_levels r). eexists. reflexivity.
  - eapply (Hok _ _); [right; split; [reflexivity|split; [reflexivity|lia]]|]. exists r, (rx_log rx1). reflexivity.
Qed.

Lemma wait_holds rx : rx_ok at_loop rx -> rx_state (loop rx) = WAIT_FOR_TIME_SYNC_MARKER -> holds (run_step qt now rx) (fun rx' _ => rx_ok at_loop rx').
Proof.
  intros [Hc _ Hf Hm He] Est. unfold run_step. rewrite Est. cbv zeta. set (rx1 := set_clock 0 0 _).
  assert (mFicHandler rx1 = mFicHandler rx /\ mMscHandler rx1 = mMscHandler rx /\ mEtiOn rx1 = mEtiOn rx /\ settings rx1 = settings rx /\ counters_ok (settings rx) (loop rx1)) as (E1 & E2 & E3 & E4 & H1').
  { split_and!; [reflexivity|reflexivity|reflexivity|reflexivity|]. destruct Hc as [A1 A2 A3 A4 A5]. split; cbn; [exact A1|lia|lia|unfold max_frame; lia|exact A5]. }
  assert (positive_number (syncThreshold (loop rx1))) as Hpos by apply (co_threshold _ _ Hc).
  clearbody rx1. eapply (holds_bind _ _ (fun rx2 ok => mFicHandler rx2 = mFicHandler rx /\ mMscHandler rx2 = mMscHandler rx /\ mEtiOn rx2 = false /\ settings rx2 = settings rx /\ counters_ok (settings rx) (loop rx2) /\ positive_number (syncThreshold (loop rx2)))).
  - pose proof (search_answers (rx_path rx1)) as Hts. unfold state_wait_for_time_sync_marker. destruct H1' as [A1 A2 A3 A4 A5].
    destruct (read_samples_until_end_of_level_drop (rx_path rx1)) as [r [| | |]|r|]; cbn [holds]; [| | | |done|done].
    + split_and!; [done|done|by rewrite <- He|done| |exact Hpos]. by split.
    + split_and!; [done|done|by rewrite <- He|done| |exact Hpos]. split; cbn; [lia|done..].
    + destruct (Z.leb_spec 8 (mTimeSyncAttemptCount (loop (set_attempts (mTimeSyncAttemptCount (loop rx1) + 1) (set_path r rx1))))) as [Hl|Hl]; cbn in Hl;
        (split_and!; [done|done|by rewrite <- He|done| |exact Hpos]; split; cbn; [lia|done..]).
    + split_and!; [done|done|by rewrite <- He|done| |exact Hpos]. split; cbn; [lia|done..].
  - intros rx2 ok (F1 & F2 & F3 & F4 & F5 & F6). cbn [holds]. split; cbn.
    + rewrite F4. by apply counters_state.
    + split; [by destruct ok|done].
    + by rewrite F1.
    + by rewrite F2.
    + exact F3.
Qed.

Lemma eval_holds rx : rx_ok at_loop rx -> rx_state (loop rx) = EVAL_SYNC_SYMBOL -> holds (run_step qt now rx) (fun rx' _ => rx_ok at_loop rx').
Proof.
  intros [Hc [_ Hpos] Hf Hm He] Est. specialize (Hpos Est). unfold run_step. rewrite Est. eapply (holds_bind _ _ (fun rx2 (ok : bool) => (exists r n, rx2 = set_count n (set_path r rx)) /\ (ok -> cTu <= sampleCount (loop rx2) < 2 * cTu))).
  - unfold state_eval_sync_symbol. eapply holds_bind; [apply read_ofdm_holds; by vm_compute|]. intros rx1 _ [r ->]. pose proof (correlation_magnitudes (rx_path (set_path r rx))) as Hv.
    destruct (correlation (rx_path (set_path r rx))) as [r2 v]. cbn [snd] in Hv. cbv zeta.
    destruct (position_in_range (mSyncOnStrongestPeak (settings (set_path r2 (set_path r rx)))) (syncThreshold (loop rx)) v Hpos Hv) as (k & Ek & Hk). rewrite Ek.
    destruct (Z.ltb_spec k 0) as [Hn|Hn]; [cbn [holds]; split; [exists r2, (sampleCount (loop rx)); by destruct rx as [? ? ? ? ? ? []]|done]|].
    destruct (Z.ltb_spec (cTu - k) 0) as [Hn2|Hn2]; [lia|]. eapply holds_bind; [apply read_ofdm_holds; unfold cTu, cTn; lia|]. intros rx3 _ [r3 ->]. cbn [holds].
    split; [by eexists _, _|]. intros _. cbn. unfold cTu in *. lia.
  - intros rx2 ok [(r & n & ->) Hcount]. cbn [holds]. split; cbn.
    + exact (counters_state _ _ _ (counters_count _ _ n Hc)).
    + split; [destruct ok; [intros _; by apply Hcount|done]|by destruct ok].
    + exact Hf.
    + exact Hm.
    + exact He.
Qed.

Lemma thread_holds p rx : rx_ok p rx -> holds (receiver_thread p rx) (fun rx' p' => rx_ok p' rx').
Proof.
  intros Hok. destruct p as [|i c]; cbn [receiver_thread].
  - destruct (rx_state (loop rx)) eqn:Est.
    + eapply holds_bind; [by apply wait_holds|]. intros rx' u Hrx. exact Hrx.
    + eapply holds_bind; [by apply eval_holds|]. intros rx' u Hrx. exact Hrx.
    + destruct (begin_rest_of_frame rx) as [rx' c] eqn:Eb. by apply (begin_ok rx).
  - destruct (ro_samples _ _ Hok) as [Hi _]. destruct (Z.ltb_spec i cL).
    + eapply holds_bind; [by apply (symbol_holds i c); [lia|]|]. intros rx' u Hrx. exact Hrx.
    + assert (i = cL) as -> by lia. eapply holds_bind; [by apply (end_holds c)|]. intros rx' u Hrx. exact Hrx.
Qed.

Lemma stop_loop_Forall (P : B * EProcessFlag -> Prop) fuel i s f l : Forall P l -> Forall P (stop_loop fuel i s f l).
Proof.
  revert i l. induction fuel as [|fuel IH]; intros i l Hl; cbn [stop_loop]; [done|]. destruct (l !! i) as [e|]; [|done].
  destruct (serves s f e); apply IH; [by apply Forall_delete|done].
Qed.

Lemma control_ok p rx rx' : rx_ok p rx -> control rx rx' -> rx_ok p rx'.
Proof.
  intros [Hc Hs Hf Hm He] Hctl. assert (forall r ms, Forall (fun e => backend_ok (fst e)) (mBackendList ms) -> rx_ok p (set_msc ms (set_path r rx))) as Hmsc by (intros r ms Hms; by split).
  assert (forall r s b, mcTiiFramesToCount s = mcTiiFramesToCount (settings rx) -> mcThreshold s = mcThreshold (settings rx) -> rx_ok p (set_settings s (set_rf_used b (set_path r rx)))) as Hset.
  { intros r s b E1 E2. split; [|exact Hs|exact Hf|exact Hm|exact He]. destruct Hc as [A1 A2 A3 A4 A5]. split; cbn; [exact A1|by rewrite E1|exact A3|exact A4|by rewrite E2]. }
  destruct Hctl as [b f rx' ok Hb Es|s f| |b|b|b|b].
  - unfold set_service_channel in Es. destruct (mScanMode (settings rx)); [injection Es as <- _; by split|]. cbn in Es. injection Es as <- _.
    specialize (Hmsc (rx_path rx) (mkMsc (mBackendList (mMscHandler rx) ++ [(b, f)]) (mCifVector (mMscHandler rx)))). destruct rx. apply Hmsc. cbn [mBackendList]. apply Forall_app. split; [exact Hm|]. by constructor.
  - unfold stop_one_service. destruct (mScanMode (settings rx)); [by split|]. specialize (Hmsc (rx_path rx) (stop_service (mMscHandler rx) s f)). destruct rx. apply Hmsc. by apply stop_loop_Forall.
  - unfold stop_services. destruct (mScanMode (settings rx)); [by split|]. specialize (Hmsc (rx_path rx) (stop_all_services (mMscHandler rx))). destruct rx. apply Hmsc. constructor.
  - specialize (Hset (rx_path rx) (settings (set_scan_mode b rx)) (mRfFreqShiftUsed (loop rx)) eq_refl eq_refl). by destruct rx as [? ? ? ? ? ? [] ?].
  - specialize (Hset (rx_path rx) (settings (set_tii_processing b rx)) (mRfFreqShiftUsed (loop rx)) eq_refl eq_refl). by destruct rx as [? ? ? ? ? ? [] ?].
  - specialize (Hset (reset_tii (rx_path rx)) (settings (set_sync_on_strongest_peak b rx)) (mRfFreqShiftUsed (loop rx)) eq_refl eq_refl). by destruct rx as [? ? ? ? ? ? [] ?].
  - unfold set_dc_avoidance_algorithm. destruct b.
    + specialize (Hset (rx_path rx) (settings (set_dc_avoidance_algorithm true rx)) false eq_refl eq_refl). by destruct rx.
    + specialize (Hset (dc_avoidance_off (rx_path rx)) (settings (set_dc_avoidance_algorithm false rx)) false eq_refl eq_refl). by destruct rx.
Qed.

Lemma steps_ok s s' : rx_ok (fst s) (snd s) -> rx_steps s s' -> rx_ok (fst s') (snd s').
Proof.
  intros Hs. induction 1 as [|s1 s2 _ IH Hst]; [done|]. destruct Hst as [p rx p' rx' Et|p rx rx' Hctl]; cbn [fst snd] in *.
  - pose proof (thread_holds p rx IH) as Hh. by rewrite Et in Hh.
  - by apply (control_ok p rx).
Qed.

(** ** The beginning of [run] *)
Definition path_only (rx rx' : Receiver) : Prop := exists r, rx' = set_path r rx.

Lemma discard_holds fuel n rx : 0 <= n < Z.of_nat fuel -> holds (discard_loop fuel n rx) (fun rx' _ => path_only rx rx').
Proof.
  revert n rx. induction fuel as [|fuel IH]; intros n rx Hn.
  - lia.
  - cbn [discard_loop]. destruct (is_running (rx_path rx)); cbn [andb]; [|exists (rx_path rx); by destruct rx]. destruct (Z.ltb_spec 0 n); [|exists (rx_path rx); by destruct rx].
    destruct (skip_samples _ _) as [r|]; [|done]. eapply holds_mono; [apply IH; unfold cTn; lia|]. intros rx' u [r' ->]. by exists r'.
Qed.

Lemma read_some_holds n rx : holds (read_some n rx) (fun rx' _ => path_only rx rx').
Proof.
  revert rx. induction n as [|n IH]; intros rx; cbn [read_some]; [exists (rx_path rx); by destruct rx|]. eapply holds_bind; [apply read_ofdm_holds; by vm_compute|].
  intros rx1 u [r ->]. eapply holds_mono; [apply IH|]. intros rx' u' [r' ->]. by exists r'.
Qed.

(** A receiver whose thread does not run. *)
Record idle_ok (rx : Receiver) : Prop := {
  io_counters : counters_ok (settings rx) (loop rx);
  io_fic : fic_ok qt (mFicHandler rx);
  io_msc : Forall (fun e => backend_ok (fst e)) (mBackendList (mMscHandler rx));
  io_eti : mEtiOn rx = false
}.

Lemma run_begin_holds rx : idle_ok rx -> holds (run_begin rx) (fun rx' _ => rx_ok at_loop rx').
Proof.
  intros [Hc Hf Hm He]. unfold run_begin. cbv zeta. set (rx1 := set_state _ _).
  assert (forall rx', path_only rx1 rx' -> rx_ok at_loop rx') as Hok.
  { intros rx' [r ->]. destruct Hc as [A1 A2 A3 A4 A5]. split; cbn; [split; cbn; [lia|done..]|done| |exact Hm|exact He]. unfold fic_at. cbn. destruct Hf. split; cbn; [done|lia|done..]. }
  eapply (holds_bind _ _ (fun rx' _ => path_only rx1 rx')).
  - unfold discard_samples. destruct (isFileInput (rx_path rx1)); [exists (rx_path rx1); by destruct rx1|]. apply discard_holds. change cSettleSampleCnt with 512000. lia.
  - intros rx2 u [r ->]. eapply holds_mono; [apply read_some_holds|]. intros rx3 u' [r' ->]. apply Hok. by exists r'.
Qed.

End safety.

#[export] Instance tape_laws : SignalLaws tape unit.
Proof.
  split.
  - intros r. apply sample_correlation_nonneg. reflexivity.
  - intros i r. cbn [decode_symbol tape_path]. unfold tape_symbol. destruct (tp_symbols r) as [|x xs]; cbn [snd]; [by apply zlen_zeros|].
    destruct (Z.eqb_spec (zlen x) c2K); [done|by apply zlen_zeros].
Qed.

(** It synchronises at once. *)
Example tape_synchronises :
  match run_step (B := Backend) (E := list Z) no_qt 0 (tape_receiver WAIT_FOR_TIME_SYNC_MARKER (mk_tape 9 [] 0) FicDecoder_new MscHandler_new) with
  | Done rx _ => rx_state (loop rx) = EVAL_SYNC_SYMBOL
  | _ => False
  end.
Proof. vm_compute. reflexivity. Qed.

