(* ===== verification/ReceiverDelivery.v ===== *)
(** * What the receiver thread does with the symbols

    Between symbol 0 and the null symbol the signal path hears 75 symbols,
    whatever the decoders do with them ([listen]).  Theorems: the first three go to
    the FIC decoder, the others to the MSC handler, all of them to a recording ETI
    generator; and over any number of frames the FIBs that were sent reach the FIB
    decoder, and every running service gets its logical frames. *)
From S2P Require Import Prelude BitExtractors Viterbi Protection Backend AirCoding ChannelCode MscHandler FibConfig FibFig0 FibDecoder FibInvariant FibProperties FicDecoder FicReception EtiGenerator EtiProperties EtiRecording MotObject MotHandler DataProcessor PadHandler Mp4Processor RingBuffer DataHandlers BackendDriver F32 SyncSearch Receiver.
Open Scope Z_scope.

(** ** The MSC handler over many CIFs *)
Section msc.
Context {B E : Type} `{ServiceBackend B E}.
#[local] Abbreviation entry := (B * EProcessFlag)%type.

(** The symbols one by one, with what came out at each. *)
Fixpoint msc_symbols (i : Z) (syms : list (list Z)) (m : MscHandler B) : option (MscHandler B * list (list (list E))) :=
  match syms with
  | [] => Some (m, [])
  | x :: syms => r ← process_block m x i; q ← msc_symbols (i + 1) syms (fst r); Some (fst q, snd r :: snd q)
  end.

(** One CIF, and many. *)
Definition cif_step (cif : list Z) (m : MscHandler B) : option (MscHandler B * list (list E)) :=
  r ← mapM (call_backend cif) (mBackendList m); Some (mkMsc (map fst r) cif, map snd r).

Fixpoint cif_steps (cifs : list (list Z)) (m : MscHandler B) : option (MscHandler B * list (list (list E))) :=
  match cifs with
  | [] => Some (m, [])
  | c :: cifs => r ← cif_step c m; q ← cif_steps cifs (fst r); Some (fst q, snd r :: snd q)
  end.

(** What one backend hands on. *)
Definition handed (k : nat) (outs : list (list (list E))) : list E := flat_map (fun out => nth k out []) outs.

Lemma handed_app k a b : handed k (a ++ b) = handed k a ++ handed k b.
Proof. apply flat_map_app. Qed.

Lemma handed_nothing k n : handed k (replicate n []) = [].
Proof. unfold handed. induction n as [|n IH]; [done|]. cbn [replicate flat_map]. rewrite IH. by destruct k. Qed.

(** Only the last symbol of a CIF calls the backends. *)
Lemma process_block_silent m x c k m' out : 0 <= c -> 0 <= k < 17 -> process_block m x (4 + 18 * c + k) = Some (m', out) -> out = [].
Proof.
  intros Hc Hk. unfold process_block, cNumberOfBlocksPerCif. destruct (negb _); [done|]. replace ((4 + 18 * c + k - 4) mod 18) with k by (Z.to_euclidean_division_equations; lia).
  destruct (Z.ltb_spec k (18 - 1)); [|lia]. by intros [= _ <-].
Qed.

Lemma msc_symbols_app i xs ys m :
  msc_symbols i (xs ++ ys) m = r ← msc_symbols i xs m; q ← msc_symbols (i + zlen xs) ys (fst r); Some (fst q, snd r ++ snd q).
Proof.
  revert i m. induction xs as [|x xs IH]; intros i m.
  - cbn [app msc_symbols]. change (zlen []) with 0. rewrite Z.add_0_r. cbn [mbind option_bind fst snd app]. by destruct (msc_symbols i ys m) as [[? ?]|].
  - cbn [app msc_symbols]. destruct (process_block m x i) as [[m1 o1]|]; cbn [mbind option_bind fst snd]; [|done]. rewrite IH.
    replace (i + 1 + zlen xs) with (i + zlen (x :: xs)) by (unfold zlen; cbn [length]; lia).
    destruct (msc_symbols (i + 1) xs m1) as [[m2 o2]|]; cbn [mbind option_bind fst snd]; [|done].
    by destruct (msc_symbols (i + zlen (x :: xs)) ys m2) as [[m3 o3]|].
Qed.

Lemma msc_prefix c k bs m m1 o : 0 <= c -> 0 <= k -> k + zlen bs <= 17 -> process_blocks m (4 + 18 * c + k) bs = Some (m1, o) ->
  msc_symbols (4 + 18 * c + k) bs m = Some (m1, replicate (length bs) []).
Proof.
  intros Hc. revert k m o. induction bs as [|x bs IH]; intros k m o Hk Hl; [by intros [= <- _]|].
  assert (zlen (x :: bs) = zlen bs + 1) as El by (unfold zlen; cbn [length]; lia). pose proof (zlen_nonneg bs). cbn [process_blocks msc_symbols].
  destruct (process_block m x (4 + 18 * c + k)) as [[m2 o2]|] eqn:Eb; cbn [mbind option_bind fst snd]; [|done].
  destruct (process_blocks m2 (4 + 18 * c + k + 1) bs) as [[m3 o3]|] eqn:Ebs; cbn [mbind option_bind]; [|done]. intros [= <- _].
  replace (4 + 18 * c + k + 1) with (4 + 18 * c + (k + 1)) in * by lia. rewrite (IH (k + 1) m2 o3) by (done || lia). cbn [mbind option_bind fst snd length replicate].
  by rewrite (process_block_silent m x c k m2 o2) by (done || lia).
Qed.

Lemma cif_symbols (m : MscHandler B) c blocks : 0 <= c -> zlen (mCifVector m) = cCifSizeBits -> length blocks = 18%nat -> Forall (fun x => zlen x = c2K) blocks ->
  msc_symbols (4 + 18 * c) blocks m = r ← cif_step (concat blocks) m; Some (fst r, replicate 17 [] ++ [snd r]).
Proof.
  intros Hc Hv Hl Hb. destruct blocks as [|last bs _] using rev_ind; [done|]. rewrite length_app in Hl. cbn [length] in Hl.
  apply Forall_app in Hb as [Hb Hlast]. apply Forall_cons_1 in Hlast as [Hlast _].
  assert (zlen bs = 17) as Hz by (unfold zlen; lia). unfold cCifSizeBits, c2K in *. rewrite msc_symbols_app.
  pose proof (process_blocks_prefix m [] (mCifVector m) bs c 0 Hc ltac:(lia) eq_refl ltac:(done) ltac:(unfold c2K; lia) ltac:(done) ltac:(lia)) as Ep.
  replace (4 + 18 * c + 0) with (4 + 18 * c) in Ep by lia. pose proof (msc_prefix c 0 bs m _ _ Hc ltac:(lia) ltac:(lia) ltac:(replace (4 + 18 * c + 0) with (4 + 18 * c) by lia; exact Ep)) as Em.
  replace (4 + 18 * c + 0) with (4 + 18 * c) in Em by lia. rewrite Em. cbn [mbind option_bind fst snd app msc_symbols]. rewrite Hz. unfold c2K in *. set (K := Z.to_nat (17 * 3072)).
  rewrite (process_block_cif _ (concat bs) (drop K (mCifVector m)) [] last c 17);
    [|done|lia|by rewrite app_nil_r|by rewrite (zlen_concat 3072), Hz|unfold zlen, K, c2K in *; rewrite length_drop; lia|done].
  cbn [mBackendList]. rewrite Z.ltb_irrefl, app_nil_r. rewrite concat_app. change (concat [last]) with (last ++ []). rewrite app_nil_r. unfold cif_step.
  replace (length bs) with 17%nat by lia. destruct (mapM (call_backend (concat bs ++ last)) (mBackendList m)) as [r|]; reflexivity.
Qed.

(** *** Over many CIFs *)
Fixpoint entry_run (cifs : list (list Z)) (e : entry) : option (entry * list E) :=
  match cifs with
  | [] => Some (e, [])
  | c :: cifs => r ← call_backend c e; q ← entry_run cifs (fst r); Some (fst q, snd r ++ snd q)
  end.

Lemma entry_run_cons c cifs e : entry_run (c :: cifs) e = r ← call_backend c e; q ← entry_run cifs (fst r); Some (fst q, snd r ++ snd q).
Proof. reflexivity. Qed.

(** [mapM] on a list, entry by entry. *)
Lemma mapM_cons {X Y} (f : X -> option Y) x l : mapM f (x :: l) = y ← f x; k ← mapM f l; Some (y :: k).
Proof. reflexivity. Qed.

Lemma runs_split c cifs (l : list entry) rs : mapM (entry_run (c :: cifs)) l = Some rs ->
  exists r1 r2, mapM (call_backend c) l = Some r1 /\ mapM (entry_run cifs) (map fst r1) = Some r2 /\ map fst rs = map fst r2 /\
    forall k, nth k (map snd rs) [] = nth k (map snd r1) [] ++ nth k (map snd r2) [].
Proof.
  revert rs. induction l as [|e l IH]; intros rs.
  - intros [= <-]. exists [], []. split_and!; [done..|]. by intros [|k].
  - rewrite mapM_cons, entry_run_cons. destruct (call_backend c e) as [[e1 o1]|] eqn:Ec; cbn [mbind option_bind fst snd]; [|done].
    destruct (entry_run cifs e1) as [[e2 o2]|] eqn:Er; cbn [mbind option_bind fst snd]; [|done].
    destruct (mapM (entry_run (c :: cifs)) l) as [rs'|] eqn:El; cbn [mbind option_bind]; [|done]. intros [= <-].
    destruct (IH rs' eq_refl) as (r1 & r2 & K1 & K2 & K3 & K4). exists ((e1, o1) :: r1), ((e2, o2) :: r2).
    rewrite mapM_cons, Ec, K1. cbn [map fst]. rewrite mapM_cons, Er, K2. cbn [mbind option_bind map fst snd]. split_and!; [done|done|by rewrite K3|]. intros [|k]; [done|apply K4].
Qed.

Lemma cif_steps_runs cifs (m : MscHandler B) rs : mapM (entry_run cifs) (mBackendList m) = Some rs ->
  exists m' outs, cif_steps cifs m = Some (m', outs) /\ mBackendList m' = map fst rs /\ forall k, handed k outs = nth k (map snd rs) [].
Proof.
  revert m rs. induction cifs as [|c cifs IH]; intros m rs Hrs.
  - exists m, []. split; [done|]. generalize dependent (mBackendList m). clear m. intros l Hl. assert (rs = map (fun e => (e, @nil E)) l) as ->.
    { revert rs Hl. induction l as [|e l IHl]; intros rs; [by intros [= <-]|]. rewrite mapM_cons. change (entry_run [] e) with (Some (e, @nil E)). cbn [mbind option_bind].
      destruct (mapM (entry_run []) l) as [rs'|] eqn:El; cbn [mbind option_bind]; [|done]. intros [= <-]. cbn [map]. by rewrite (IHl rs'). }
    rewrite !map_map. cbn [fst snd]. rewrite map_id. split; [done|]. intros k. change (handed k []) with (@nil E). clear Hl. revert k. induction l as [|e l IHl]; intros [|k]; cbn; auto.
  - destruct (runs_split c cifs _ rs Hrs) as (r1 & r2 & K1 & K2 & K3 & K4). cbn [cif_steps]. unfold cif_step. rewrite K1. cbn [mbind option_bind fst snd].
    destruct (IH (mkMsc (map fst r1) c) r2 K2) as (m' & outs & -> & K5 & K6). cbn [mbind option_bind fst snd]. exists m', (map snd r1 :: outs).
    split; [done|]. split; [by rewrite K3|]. intros k. change (handed k (map snd r1 :: outs)) with (nth k (map snd r1) [] ++ handed k outs). by rewrite K6, K4.
Qed.

Lemma cif_steps_app a b (m : MscHandler B) : cif_steps (a ++ b) m = r ← cif_steps a m; q ← cif_steps b (fst r); Some (fst q, snd r ++ snd q).
Proof.
  revert m. induction a as [|c a IH]; intros m; [cbn; by destruct (cif_steps b m) as [[? ?]|]|]. cbn [app cif_steps]. destruct (cif_step c m) as [[m1 o1]|]; cbn [mbind option_bind fst snd]; [|done].
  rewrite IH. destruct (cif_steps a m1) as [[m2 o2]|]; cbn [mbind option_bind fst snd]; [|done]. by destruct (cif_steps b m2) as [[m3 o3]|].
Qed.

(** *** The symbols of a frame *)
Definition cif_of (syms : list (list Z)) (c : Z) : list Z := concat (slice syms (3 + 18 * c) 18).
Definition cifs_of (syms : list (list Z)) : list (list Z) := map (cif_of syms) [0; 1; 2; 3].

Definition frame_symbols (syms : list (list Z)) : Prop := length syms = 75%nat /\ Forall (fun x => zlen x = c2K) syms.

Lemma cif_step_vector c (m m' : MscHandler B) out : cif_step c m = Some (m', out) -> mCifVector m' = c.
Proof. unfold cif_step. destruct (mapM _ _) as [r|]; [|done]. by intros [= <- _]. Qed.

Lemma slices_all {A} (l : list A) : length l = 75%nat -> drop 3 l = slice l 3 18 ++ slice l 21 18 ++ slice l 39 18 ++ slice l 57 18.
Proof.
  intros Hl. unfold slice. change (Z.to_nat 3) with 3%nat. change (Z.to_nat 18) with 18%nat. change (Z.to_nat 21) with (3 + 18)%nat. change (Z.to_nat 39) with (3 + 18 + 18)%nat. change (Z.to_nat 57) with (3 + 18 + 18 + 18)%nat.
  rewrite <- !drop_drop. set (k := drop 3 l). assert (length k = 72%nat) as Hk by (unfold k; rewrite length_drop; lia). clearbody k.
  rewrite <- (take_drop 18 k) at 1. f_equal. rewrite <- (take_drop 18 (drop 18 k)) at 1. f_equal. rewrite <- (take_drop 18 (drop 18 (drop 18 k))) at 1. f_equal.
  symmetry. apply take_ge. rewrite !length_drop. lia.
Qed.

Lemma cif_of_size syms c : frame_symbols syms -> 0 <= c < 4 ->
  length (slice syms (3 + 18 * c) 18) = 18%nat /\ Forall (fun x => zlen x = c2K) (slice syms (3 + 18 * c) 18) /\ zlen (cif_of syms c) = cCifSizeBits.
Proof.
  intros [Hl Hf] Hc. assert (length (slice syms (3 + 18 * c) 18) = 18%nat) as Hs by (unfold slice; rewrite length_take, length_drop; lia).
  split; [done|]. assert (Forall (fun x => zlen x = c2K) (slice syms (3 + 18 * c) 18)) as Hfs by (by apply Forall_slice). split; [done|].
  unfold cif_of. rewrite (zlen_concat c2K) by done. unfold zlen. rewrite Hs. reflexivity.
Qed.

Definition one_cif (o : list (list E)) : list (list (list E)) := replicate 17 [] ++ [o].

Lemma handed_cifs k outs : handed k (flat_map one_cif outs) = handed k outs.
Proof.
  induction outs as [|o outs IH]; [done|]. cbn [flat_map]. rewrite handed_app, IH. unfold one_cif. rewrite handed_app, handed_nothing.
  change (handed k [o]) with (nth k o [] ++ []). rewrite app_nil_r. reflexivity.
Qed.

Lemma frame_msc (m : MscHandler B) syms : frame_symbols syms -> zlen (mCifVector m) = cCifSizeBits ->
  msc_symbols 4 (drop 3 syms) m = r ← cif_steps (cifs_of syms) m; Some (fst r, flat_map one_cif (snd r)).
Proof.
  intros Hs Hv. rewrite slices_all by apply Hs.
  assert (forall c rest cs (m : MscHandler B), 0 <= c < 4 -> zlen (mCifVector m) = cCifSizeBits ->
    (forall m : MscHandler B, zlen (mCifVector m) = cCifSizeBits -> msc_symbols (4 + 18 * (c + 1)) rest m = r ← cif_steps cs m; Some (fst r, flat_map one_cif (snd r))) ->
    msc_symbols (4 + 18 * c) (slice syms (3 + 18 * c) 18 ++ rest) m = r ← cif_steps (cif_of syms c :: cs) m; Some (fst r, flat_map one_cif (snd r))) as Hstep.
  { intros c rest cs m1 Hc Hm1 Hrest. destruct (cif_of_size syms c Hs Hc) as (Hl & Hf & Hz). rewrite msc_symbols_app, cif_symbols by (done || lia). cbn [cif_steps]. fold (cif_of syms c).
    destruct (cif_step (cif_of syms c) m1) as [[m2 o2]|] eqn:Ec; cbn [mbind option_bind fst snd]; [|done].
    replace (4 + 18 * c + zlen (slice syms (3 + 18 * c) 18)) with (4 + 18 * (c + 1)) by (unfold zlen; rewrite Hl; lia). rewrite Hrest by (by rewrite (cif_step_vector _ _ _ _ Ec)).
    destruct (cif_steps cs m2) as [[m3 o3]|]; cbn [mbind option_bind fst snd]; [|done]. reflexivity. }
  unfold cifs_of. cbn [map]. rewrite <- (app_nil_r (slice syms 57 18)).
  apply (Hstep 0); [lia|done|]. intros m1 Hm1. apply (Hstep 1); [lia|done|]. intros m2 Hm2. apply (Hstep 2); [lia|done|]. intros m3 Hm3. apply (Hstep 3); [lia|done|]. intros m4 Hm4. reflexivity.
Qed.
End msc.

(** ** One frame *)
Section dispatch.
Context {R T B E : Type} `{SignalPath R T} `{ServiceBackend B E}.
Context (qt : QtText) (now : Z).
#[local] Abbreviation Receiver := (Receiver (R := R) (T := T) (B := B) (E := E)).

(** What the signal path hears, from symbol [i] on; [None] when it is stopped. *)
Fixpoint listen (n : nat) (i : Z) (r : R) : option (R * list (list Z)) :=
  match n with
  | O => Some (r, [])
  | S n => r ← get_samples 0 cTs r; let '(r, bits) := decode_symbol i r in q ← listen n (i + 1) r; Some (fst q, bits :: snd q)
  end.

(** The generator after one symbol, and after some. *)
Definition eti_one (on : bool) (g : option EtiGenerator) (f : FicDecoder) (bits : list Z) (i : Z) : option (option EtiGenerator) :=
  if on then match g with None => None | Some g => g ← eti_process_block f bits i g; Some (Some g) end else Some g.

Fixpoint eti_part (on : bool) (g : option EtiGenerator) (f : FicDecoder) (syms : list (list Z)) (i : Z) : option (option EtiGenerator) :=
  match syms with
  | [] => Some g
  | x :: syms => g ← eti_one on g f x i; eti_part on g f syms (i + 1)
  end.

Lemma eti_part_off g f syms i : eti_part false g f syms i = Some g.
Proof. revert i. induction syms as [|x syms IH]; intros i; [done|]. cbn. apply IH. Qed.

Lemma eti_part_on g f syms i : eti_part true (Some g) f syms i = r ← eti_blocks f syms i g; Some (Some r).
Proof.
  revert g i. induction syms as [|x syms IH]; intros g i; [done|]. cbn [eti_part eti_one eti_blocks]. destruct (eti_process_block f x i g) as [g'|]; cbn [mbind option_bind]; [|done].
  apply IH.
Qed.

Lemma eti_part_split on g f xs ys i : eti_part on g f (xs ++ ys) i = g ← eti_part on g f xs i; eti_part on g f ys (i + zlen xs).
Proof.
  revert g i. induction xs as [|x xs IH]; intros g i; [cbn; by rewrite Z.add_0_r|]. cbn [app eti_part]. destruct (eti_one on g f x i) as [g1|]; cbn [mbind option_bind]; [|done].
  rewrite IH. replace (i + 1 + zlen xs) with (i + zlen (x :: xs)) by (unfold zlen; cbn [length]; lia). done.
Qed.

(** The FIC decoder is not looked at before symbol 4. *)
Lemma eti_one_early on g f f' x i : i < 4 -> eti_one on g f x i = eti_one on g f' x i.
Proof.
  intros Hi. unfold eti_one. destruct on; [|done]. destruct g as [g|]; [|done]. unfold eti_process_block. destruct (Z.ltb_spec i 4); [|lia].
  destruct (negb (eti_running _)); done.
Qed.

Definition count_more (l : Loop) (n : Z) : Loop :=
  mk_loop (rx_state l) (sampleCount l + n) (syncThreshold l) (mTimeSyncAttemptCount l) (mTiiCounter l) (mClockOffsetTotalSamples l) (mClockOffsetFrameCount l) (mRfFreqShiftUsed l).

Lemma count_more_more l a b : count_more (count_more l a) b = count_more l (a + b).
Proof. unfold count_more. cbn. by rewrite Z.add_assoc. Qed.

(** One symbol. *)
Lemma symbol_fic i p r1 r2 bits f m g on st l log : i <= 3 -> get_samples 0 cTs p = Some r1 -> decode_symbol i r1 = (r2, bits) ->
  process_ofdm_symbol qt now i (mk_receiver p f m g on st l log : Receiver) =
  match process_fic_block qt now bits i f with
  | None => Fault
  | Some f => match eti_one on g f bits i with None => Fault | Some g => Done (mk_receiver r2 f m g on st (count_more l cTs) log) tt end
  end.
Proof.
  intros Hi Hg Hd. unfold process_ofdm_symbol, record_symbol, read_ofdm. change (cTn <? 0 + cTs) with false. rx_fields. rewrite Hg. rx_fields.
  rewrite Hd. rx_fields. destruct (Z.leb_spec i 3); [|lia]. destruct (process_fic_block qt now bits i f) as [f'|]; [|done]. rx_fields.
  assert ((3 <? i) = false) as -> by lia. unfold eti_one. destruct on; [|done]. destruct g as [g|]; [|done]. rx_fields. destruct (eti_process_block f' bits i g) as [g'|]; done.
Qed.

Lemma symbol_msc i p r1 r2 bits f m g on st l log : 4 <= i -> mScanMode st = false -> get_samples 0 cTs p = Some r1 -> decode_symbol i r1 = (r2, bits) ->
  process_ofdm_symbol qt now i (mk_receiver p f m g on st l log : Receiver) =
  match eti_one on g f bits i with
  | None => Fault
  | Some g =>
      match process_block m bits i with
      | None => Fault
      | Some (m, out) => Done (mk_receiver r2 f m g on st (count_more l cTs) (log ++ [served out])) tt
      end
  end.
Proof.
  intros Hi Hsc Hg Hd. unfold process_ofdm_symbol, record_symbol, read_ofdm. change (cTn <? 0 + cTs) with false. rx_fields. rewrite Hg. rx_fields.
  rewrite Hd. rx_fields. destruct (Z.leb_spec i 3); [lia|]. rx_fields. assert ((3 <? i) = true) as -> by lia. unfold eti_one. destruct on.
  - destruct g as [g|]; [|done]. destruct (eti_process_block f bits i g) as [g'|]; [|done]. rx_fields. rewrite Hsc. cbn [negb andb]. destruct (process_block m bits i) as [[m' out]|]; done.
  - rx_fields. rewrite Hsc. cbn [negb andb]. destruct (process_block m bits i) as [[m' out]|]; done.
Qed.

(** The symbols of the main service channel. *)
Lemma symbols_msc n i p r syms f m g on st l log : 4 <= i -> mScanMode st = false -> listen n i p = Some (r, syms) ->
  process_ofdm_symbols qt now n i (mk_receiver p f m g on st l log : Receiver) =
  match eti_part on g f syms i, msc_symbols i syms m with
  | Some g, Some (m, outs) => Done (mk_receiver r f m g on st (count_more l (Z.of_nat n * cTs)) (log ++ map served outs)) tt
  | _, _ => Fault
  end.
Proof.
  intros Hi Hsc. revert i p syms m g l log Hi. induction n as [|n IH]; intros i p syms m g l log Hi; cbn [listen].
  - intros [= <- <-]. cbn [process_ofdm_symbols msc_symbols map eti_part]. rewrite app_nil_r. do 2 f_equal. destruct l. unfold count_more. cbn. by rewrite Z.add_0_r.
  - destruct (get_samples 0 cTs p) as [r1|] eqn:Eg; cbn [mbind option_bind]; [|done]. destruct (decode_symbol i r1) as [r2 bits] eqn:Ed.
    destruct (listen n (i + 1) r2) as [[r3 syms']|] eqn:El; cbn [mbind option_bind fst snd]; [|done]. intros [= <- <-].
    cbn [process_ofdm_symbols eti_part msc_symbols]. rewrite (symbol_msc i p r1 r2 bits) by done. destruct (eti_one on g f bits i) as [g1|]; cbn [mbind option_bind]; [|done].
    destruct (process_block m bits i) as [[m1 out]|]; cbn [mbind option_bind fst snd obind]; [|by destruct (eti_part on g1 f syms' (i + 1))].
    rewrite (IH (i + 1) r2 syms') by (done || lia). destruct (eti_part on g1 f syms' (i + 1)) as [g2|]; [|done].
    destruct (msc_symbols (i + 1) syms' m1) as [[m2 outs]|]; cbn [mbind option_bind fst snd]; [|done]. do 2 f_equal.
    + rewrite count_more_more. f_equal. lia.
    + cbn [map]. by rewrite <- app_assoc.
Qed.

Lemma listen_app a b i r : listen (a + b) i r = q ← listen a i r; q' ← listen b (i + Z.of_nat a) (fst q); Some (fst q', snd q ++ snd q').
Proof.
  revert i r. induction a as [|a IH]; intros i r.
  - cbn [Nat.add listen mbind option_bind fst snd app]. rewrite Z.add_0_r. by destruct (listen b i r) as [[? ?]|].
  - cbn [Nat.add listen]. destruct (get_samples 0 cTs r) as [r1|]; cbn [mbind option_bind]; [|done]. destruct (decode_symbol i r1) as [r2 bits]. rewrite IH.
    destruct (listen a (i + 1) r2) as [[r3 xs]|]; cbn [mbind option_bind fst snd]; [|done]. replace (i + 1 + Z.of_nat a) with (i + Z.of_nat (S a)) by lia.
    by destruct (listen b (i + Z.of_nat (S a)) r3) as [[r4 ys]|].
Qed.

Lemma process_symbols_app a b i (rx : Receiver) : process_ofdm_symbols qt now (a + b) i rx =
  let* (rx, u) := process_ofdm_symbols qt now a i rx in process_ofdm_symbols qt now b (i + Z.of_nat a) rx.
Proof.
  revert i rx. induction a as [|a IH]; intros i rx; cbn [Nat.add process_ofdm_symbols obind]; [by rewrite Z.add_0_r|].
  destruct (process_ofdm_symbol qt now i rx) as [rx1 u|rx1|]; cbn [obind]; [|done|done]. rewrite IH. by replace (i + 1 + Z.of_nat a) with (i + Z.of_nat (S a)) by lia.
Qed.

(** The three symbols of the FIC. *)
Lemma symbols_fic p r syms f m g on st l log : listen 3 1 p = Some (r, syms) ->
  exists b1 b2 b3, syms = [b1; b2; b3] /\
  process_ofdm_symbols qt now 3 1 (mk_receiver p f m g on st l log : Receiver) =
  match process_fic_symbols qt now b1 b2 b3 f with
  | None => Fault
  | Some f' => match eti_part on g f' syms 1 with None => Fault | Some g => Done (mk_receiver r f' m g on st (count_more l (3 * cTs)) log) tt end
  end.
Proof.
  cbn [listen]. destruct (get_samples 0 cTs p) as [p1|] eqn:Eg1; cbn [mbind option_bind]; [|done]. destruct (decode_symbol 1 p1) as [q1 b1] eqn:Ed1.
  destruct (get_samples 0 cTs q1) as [p2|] eqn:Eg2; cbn [mbind option_bind]; [|done]. destruct (decode_symbol (1 + 1) p2) as [q2 b2] eqn:Ed2.
  destruct (get_samples 0 cTs q2) as [p3|] eqn:Eg3; cbn [mbind option_bind]; [|done]. destruct (decode_symbol (1 + 1 + 1) p3) as [q3 b3] eqn:Ed3. cbn [mbind option_bind fst snd].
  intros [= <- <-]. exists b1, b2, b3. split; [done|]. cbn [process_ofdm_symbols]. unfold process_fic_symbols.
  rewrite (symbol_fic 1 p p1 q1 b1) by (done || lia). destruct (process_fic_block qt now b1 1 f) as [f1|] eqn:E1; [|done]. cbn [mbind option_bind eti_part].
  destruct (process_fic_block qt now b2 2 f1) as [f2|] eqn:E2; cycle 1.
  { destruct (eti_one on g f1 b1 1) as [g1|]; [|done]. cbn [obind]. rewrite (symbol_fic (1 + 1) q1 p2 q2 b2) by (done || lia). change (1 + 1) with 2. by rewrite E2. }
  cbn [mbind option_bind]. destruct (process_fic_block qt now b3 3 f2) as [f3|] eqn:E3; cycle 1.
  { destruct (eti_one on g f1 b1 1) as [g1|]; [|done]. cbn [obind]. rewrite (symbol_fic (1 + 1) q1 p2 q2 b2) by (done || lia). change (1 + 1) with 2. rewrite E2.
    destruct (eti_one on g1 f2 b2 2) as [g2|]; [|done]. cbn [obind]. rewrite (symbol_fic (2 + 1) q2 p3 q3 b3) by (done || lia). change (2 + 1) with 3. by rewrite E3. }
  rewrite (eti_one_early on g f1 f3) by lia. destruct (eti_one on g f3 b1 1) as [g1|]; [|done]. cbn [obind mbind option_bind].
  rewrite (symbol_fic (1 + 1) q1 p2 q2 b2) by (done || lia). change (1 + 1) with 2 in *. rewrite E2, (eti_one_early on g1 f2 f3) by lia. destruct (eti_one on g1 f3 b2 2) as [g2|]; [|done]. cbn [obind mbind option_bind].
  rewrite (symbol_fic (2 + 1) q2 p3 q3 b3) by (done || lia). change (2 + 1) with 3 in *. rewrite E3. destruct (eti_one on g2 f3 b3 3) as [g3|]; [|done]. cbn [obind mbind option_bind].
  by rewrite !count_more_more.
Qed.

(** *** A pass of the loop *)
(** What the backends handed on, of all the thread emitted. *)
Definition log_served (log : list (rx_event (T := T) (E := E))) : list (list (list E)) :=
  flat_map (fun e => match e with served out => [out] | _ => [] end) log.

Lemma log_served_app a b : log_served (a ++ b) = log_served a ++ log_served b.
Proof. apply flat_map_app. Qed.

Lemma log_served_map outs : log_served (map served outs) = outs.
Proof. induction outs as [|o outs IH]; [done|]. change (log_served (map served (o :: outs))) with (o :: log_served (map served outs)). by rewrite IH. Qed.

(** The decoders and their settings are the same. *)
Record same_decoders (rx rx' : Receiver) : Prop := {
  sd_fic : mFicHandler rx' = mFicHandler rx;
  sd_msc : mMscHandler rx' = mMscHandler rx;
  sd_eti : mpEtiGenerator rx' = mpEtiGenerator rx /\ mEtiOn rx' = mEtiOn rx;
  sd_settings : settings rx' = settings rx;
  sd_served : log_served (rx_log rx') = log_served (rx_log rx)
}.

(** What can become of the signal path between the reference symbol and symbol 1,
    and after the null symbol was read, whatever the decoders say. *)
Inductive after_begin (r : R) : R -> Prop :=
  | after_coarse : after_begin r (fst (coarse_correction (store_reference r)))
  | after_takeover : after_begin r (rf_takeover (store_reference r))
  | after_reference : after_begin r (store_reference r).

Inductive after_null : R -> R -> Prop :=
  | after_null_symbol b r : after_null r (null_symbol b r)
  | after_tii r r' : after_null r r' -> after_null r (fst (process_tii_data r'))
  | after_clock n r r' : after_null r r' -> after_null r (clock_error n r')
  | after_levels r r' : after_null r r' -> after_null r (clear_levels r').

#[export] Instance same_decoders_preorder : PreOrder same_decoders.
Proof. split; [by intros rx; split|]. intros a b c [A1 A2 [A3 A4] A5 A6] [B1 B2 [B3 B4] B5 B6]. split; [congruence|congruence|split; congruence|congruence|congruence]. Qed.

(** Anything but the decoders was set. *)
Ltac same_set := split; [reflexivity|reflexivity|split; reflexivity|reflexivity|reflexivity].

Lemma same_emit (e : rx_event) rx : match e with served _ => False | _ => True end -> same_decoders rx (emit e rx).
Proof. intros He. split; [done|done|done|done|]. cbn [emit rx_log]. rewrite log_served_app. by destruct e; rewrite ?app_nil_r. Qed.

Lemma read_ofdm_same a n (rx rx' : Receiver) u : read_ofdm a n rx = Done rx' u -> exists r, rx' = set_path r rx.
Proof. unfold read_ofdm. destruct (_ <? _); [done|]. destruct (get_samples a n (rx_path rx)) as [r|]; [|done]. intros [= <- _]. by exists r. Qed.

Lemma eval_same (rx rx' : Receiver) : rx_state (loop rx) = EVAL_SYNC_SYMBOL -> run_step qt now rx = Done rx' () -> same_decoders rx rx'.
Proof.
  intros Est. unfold run_step. rewrite Est. unfold state_eval_sync_symbol. destruct (read_ofdm 0 cTu rx) as [rx1 u1|rx1|] eqn:E1; cbn [obind]; [|done|done].
  destruct (read_ofdm_same _ _ _ _ _ E1) as [r1 ->]. destruct (correlation _) as [r2 v]. destruct (find_max_peak _ _ v) as [k|]; [|done].
  destruct (k <? 0); [intros [= <-]; same_set|]. destruct (cTu - k <? 0); [done|]. destruct (read_ofdm (cTu - k) _ _) as [rx2 u2|rx2|] eqn:E2; cbn [obind]; [|done|done].
  destruct (read_ofdm_same _ _ _ _ _ E2) as [r3 ->]. intros [= <-]. same_set.
Qed.

Lemma begin_same (rx : Receiver) : exists p l, fst (begin_rest_of_frame rx) = mk_receiver p (mFicHandler rx) (mMscHandler rx) (mpEtiGenerator rx) (mEtiOn rx) (settings rx) l (rx_log rx) /\
  rx_state l = rx_state (loop rx) /\ sampleCount l = sampleCount (loop rx) /\ after_begin (rx_path rx) p.
Proof.
  unfold begin_rest_of_frame. pose proof (after_coarse (rx_path rx)) as Hc. change (rx_path (on_path store_reference rx)) with (store_reference (rx_path rx)). destruct (_ <? 30).
  - destruct (coarse_correction _) as [r c]. exists r, (loop rx). split; [by destruct rx|]. done.
  - destruct (_ && _); [eexists _, _; split; [reflexivity|split_and!; [done|done|apply after_takeover]]|]. exists (store_reference (rx_path rx)), (loop rx).
    split; [by destruct rx|]. split_and!; [done|done|apply after_reference].
Qed.

(** The decoders are the same, and the path is one of those after [r]. *)
Definition null_read (rx : Receiver) (r : R) (rx' : Receiver) : Prop :=
  same_decoders rx rx' /\ sampleCount (loop rx') = sampleCount (loop rx) + cTn /\ after_null r (rx_path rx').

Lemma null_read_more rx r rx1 rx2 : null_read rx r rx1 -> same_decoders rx1 rx2 -> sampleCount (loop rx2) = sampleCount (loop rx1) ->
  (after_null r (rx_path rx1) -> after_null r (rx_path rx2)) -> null_read rx r rx2.
Proof. intros (K1 & K2 & K3) K4 K5 K6. split; [by etrans|]. split; [congruence|auto]. Qed.

Lemma null_symbol_same (rx : Receiver) r : get_samples 0 cTn (rx_path rx) = Some r -> exists rx', process_null_symbol rx = Done rx' () /\ null_read rx r rx'.
Proof.
  intros Hg. unfold process_null_symbol, read_ofdm. change (cTn <? 0 + cTn) with false. rewrite Hg. cbn [obind]. cbv zeta. set (rx1 := on_path _ (set_count _ _)).
  assert (null_read rx r rx1) as H1 by (split; [same_set|split; [done|apply after_null_symbol]]). clearbody rx1.
  destruct (4 <=? _); [|by exists rx1]. set (rx2 := set_tii_counter _ rx1). assert (null_read rx r rx2) as H2 by (apply (null_read_more _ _ rx1); [done|same_set|done|done]). clearbody rx2.
  destruct (_ <=? _); [|by exists rx2]. eexists. split; [reflexivity|]. destruct (mEnableTii (settings rx2)); [|apply (null_read_more _ _ rx2); [done|same_set|done|done]].
  pose proof (after_tii r (rx_path rx2)) as Ht. destruct (process_tii_data (rx_path rx2)) as [r' ids].
  apply (null_read_more _ _ rx2); [done| |by destruct (bool_decide (ids = []))|by destruct (bool_decide (ids = []))]. destruct (bool_decide (ids = [])); [same_set|].
  transitivity (set_path r' rx2); [same_set|]. transitivity (emit (show_tii ids) (set_path r' rx2)); [by apply same_emit|same_set].
Qed.

Lemma end_same c (rx : Receiver) r : get_samples 0 cTn (fine_correction (rx_path rx)) = Some r -> exists rx', end_rest_of_frame c rx = Done rx' () /\ null_read rx r rx'.
Proof.
  intros Hg. unfold end_rest_of_frame. destruct (null_symbol_same (on_path fine_correction rx) r Hg) as (rx1 & -> & K1 & K2 & K3). cbn [obind]. cbv zeta. eexists. split; [reflexivity|].
  assert (null_read rx r rx1) as H1 by (split; [transitivity (on_path fine_correction rx); [same_set|exact K1]|by split]). clear K1 K2 K3.
  set (rx2 := if c =? 0 then _ else rx1). assert (null_read rx r rx2) as H2 by (unfold rx2; destruct (c =? 0); [apply (null_read_more _ _ rx1); [done|same_set|done|apply after_clock]|done]). clearbody rx2.
  destruct (10 <? _); (apply (null_read_more _ _ rx2); [done| |done|]); [|apply after_levels|same_set|done].
  set (e := show_clock_err _ _). transitivity (emit e rx2); [by apply same_emit|same_set].
Qed.

Lemma frame_dispatch (rx : Receiver) (r1 r2 : R) (syms : list (list Z)) :
  rx_state (loop rx) = PROCESS_REST_OF_FRAME -> mScanMode (settings rx) = false -> zlen (mCifVector (mMscHandler rx)) = cCifSizeBits ->
  listen 75 1 (rx_path (fst (begin_rest_of_frame rx))) = Some (r1, syms) -> frame_symbols syms -> get_samples 0 cTn (fine_correction r1) = Some r2 ->
  match process_fic_symbols qt now (nth 0 syms []) (nth 1 syms []) (nth 2 syms []) (mFicHandler rx) with
  | None => run_step qt now rx = Fault
  | Some f =>
      match eti_part (mEtiOn rx) (mpEtiGenerator rx) f syms 1, cif_steps (cifs_of syms) (mMscHandler rx) with
      | Some g, Some (m, outs) => exists rx', run_step qt now rx = Done rx' () /\ after_null r2 (rx_path rx') /\ syncThreshold (loop rx') = twice (mcThreshold (settings rx)) /\
          rx_state (loop rx') = EVAL_SYNC_SYMBOL /\ settings rx' = settings rx /\ sampleCount (loop rx') = sampleCount (loop rx) + 194056 /\
          mFicHandler rx' = f /\ mMscHandler rx' = m /\ mpEtiGenerator rx' = g /\ mEtiOn rx' = mEtiOn rx /\
          forall k, handed k (log_served (rx_log rx')) = handed k (log_served (rx_log rx)) ++ handed k outs
      | _, _ => run_step qt now rx = Fault
      end
  end.
Proof.
  intros Est Hsc Hv Hl Hs Hg. unfold run_step. rewrite Est. unfold state_process_rest_of_frame. destruct (begin_same rx) as (p & l & Eb & El1 & El2 & _).
  destruct (begin_rest_of_frame rx) as [rx1 c]. cbn [fst] in *. subst rx1. cbn [rx_path] in Hl.
  change 75%nat with (3 + 72)%nat in Hl. rewrite listen_app in Hl. destruct (listen 3 1 p) as [[p1 sy1]|] eqn:E3; cbn [mbind option_bind fst snd] in Hl; [|done].
  destruct (listen 72 (1 + Z.of_nat 3) p1) as [[p2 sy2]|] eqn:E72; cbn [mbind option_bind fst snd] in Hl; [|done]. injection Hl as -> <-.
  change (Z.to_nat (cL - 1)) with (3 + 72)%nat. rewrite process_symbols_app.
  destruct (symbols_fic p p1 sy1 (mFicHandler rx) (mMscHandler rx) (mpEtiGenerator rx) (mEtiOn rx) (settings rx) l (rx_log rx) E3) as (b1 & b2 & b3 & -> & ->).
  cbn [app nth]. destruct (process_fic_symbols qt now b1 b2 b3 (mFicHandler rx)) as [f|]; [|done].
  change (b1 :: b2 :: b3 :: sy2) with ([b1; b2; b3] ++ sy2). rewrite (eti_part_split (mEtiOn rx) (mpEtiGenerator rx) f [b1; b2; b3] sy2 1). change (1 + zlen [b1; b2; b3]) with 4.
  destruct (eti_part (mEtiOn rx) (mpEtiGenerator rx) f [b1; b2; b3] 1) as [g1|]; cbn [mbind option_bind obind]; [|done]. change (1 + Z.of_nat 3) with 4 in *.
  rewrite (symbols_msc 72 4 p1 r1 sy2) by done. pose proof (frame_msc (mMscHandler rx) _ Hs Hv) as Em. change (drop 3 ([b1; b2; b3] ++ sy2)) with sy2 in Em. rewrite Em.
  destruct (eti_part (mEtiOn rx) g1 f sy2 4) as [g2|]; [|by destruct (cif_steps _ _) as [[? ?]|]].
  destruct (cif_steps (cifs_of ([b1; b2; b3] ++ sy2)) (mMscHandler rx)) as [[m outs]|]; cbn [mbind option_bind fst snd obind]; [|done].
  set (rx2 := mk_receiver r1 f m g2 _ _ _ _). destruct (end_same c rx2 r2 Hg) as (rx3 & -> & [S1 S2 [S3 S4] S5 S6] & Sc & Sp). cbn [obind].
  eexists. split; [reflexivity|]. rx_fields. rewrite S1, S2, S3, S4, S5, S6, Sc. unfold rx2. rx_fields. unfold count_more. cbn [sampleCount rx_state]. rewrite El2, log_served_app, log_served_map.
  split_and!; try done; [unfold cTs, cTn; lia|]. intros k. by rewrite handed_app, handed_cifs.
Qed.


(** ** Frames in lock *)
(** The signal path finds the beginning of every frame and hears the symbols [fs],
    whichever of the corrections are applied on the way. *)
Fixpoint in_lock (strongest : bool) (threshold threshold' : f32) (fs : list (list (list Z))) (r : R) : Prop :=
  match fs with
  | [] => True
  | syms :: fs => exists r1 k r2,
      get_samples 0 cTu r = Some r1 /\ find_max_peak strongest threshold (snd (correlation r1)) = Some k /\ 0 <= k <= cTu /\
      get_samples (cTu - k) (cTu - (cTu - k)) (keep_from k (fst (correlation r1))) = Some r2 /\
      forall r3, after_begin r2 r3 -> exists r4 r5, listen 75 1 r3 = Some (r4, syms) /\ get_samples 0 cTn (fine_correction r4) = Some r5 /\
        forall r6, after_null r5 r6 -> in_lock strongest threshold' threshold' fs r6
  end.

(** Passes of the loop of [run]. *)
Fixpoint run_passes (n : nat) (rx : Receiver) : outcome Receiver unit :=
  match n with O => Done rx tt | S n => let* (rx, u) := run_step qt now rx in run_passes n rx end.

Lemma run_passes_app a b rx : run_passes (a + b) rx = let* (rx, u) := run_passes a rx in run_passes b rx.
Proof. revert rx. induction a as [|a IH]; intros rx; [done|]. cbn [Nat.add run_passes]. destruct (run_step qt now rx) as [rx1 u|rx1|]; cbn [obind]; auto. Qed.

(** A receiver in lock takes over the frame. *)
Lemma sync_found (rx : Receiver) r1 k r2 : rx_state (loop rx) = EVAL_SYNC_SYMBOL -> get_samples 0 cTu (rx_path rx) = Some r1 ->
  find_max_peak (mSyncOnStrongestPeak (settings rx)) (syncThreshold (loop rx)) (snd (correlation r1)) = Some k -> 0 <= k <= cTu ->
  get_samples (cTu - k) (cTu - (cTu - k)) (keep_from k (fst (correlation r1))) = Some r2 ->
  exists rx1, run_step qt now rx = Done rx1 () /\ same_decoders rx rx1 /\ rx_path rx1 = r2 /\ rx_state (loop rx1) = PROCESS_REST_OF_FRAME /\ sampleCount (loop rx1) = k + cTu.
Proof.
  intros Est Hg Hp Hk Hg2. unfold run_step. rewrite Est. unfold state_eval_sync_symbol, read_ofdm at 1. change (cTn <? 0 + cTu) with false. rewrite Hg. cbn [obind].
  change (rx_path (set_path r1 rx)) with r1. destruct (correlation r1) as [r v]. cbn [fst snd] in *. change (settings (set_path r (set_path r1 rx))) with (settings rx). rewrite Hp.
  destruct (Z.ltb_spec k 0); [lia|]. destruct (Z.ltb_spec (cTu - k) 0); [lia|]. unfold read_ofdm. destruct (Z.ltb_spec cTn (cTu - k + (cTu - (cTu - k)))); [unfold cTn, cTu in *; lia|].
  change (rx_path (on_path (keep_from k) (set_path r (set_path r1 rx)))) with (keep_from k r). rewrite Hg2. cbn [obind]. eexists. split; [reflexivity|]. split; [same_set|done].
Qed.

(** What the FIC decoder and the generator make of the frames. *)
Fixpoint decode_frames (on : bool) (fs : list (list (list Z))) (f : FicDecoder) (g : option EtiGenerator) : option (FicDecoder * option EtiGenerator) :=
  match fs with
  | [] => Some (f, g)
  | syms :: fs =>
      f ← process_fic_symbols qt now (nth 0 syms []) (nth 1 syms []) (nth 2 syms []) f;
      g ← eti_part on g f syms 1;
      decode_frames on fs f g
  end.

Lemma cifs_vector syms (m m' : MscHandler B) outs : frame_symbols syms -> cif_steps (cifs_of syms) m = Some (m', outs) -> zlen (mCifVector m') = cCifSizeBits.
Proof.
  intros Hs. unfold cifs_of. cbn [map cif_steps]. destruct (cif_step (cif_of syms 0) m) as [[m1 o1]|]; cbn [mbind option_bind fst snd]; [|done].
  destruct (cif_step (cif_of syms 1) m1) as [[m2 o2]|]; cbn [mbind option_bind fst snd]; [|done]. destruct (cif_step (cif_of syms 2) m2) as [[m3 o3]|]; cbn [mbind option_bind fst snd]; [|done].
  destruct (cif_step (cif_of syms 3) m3) as [[m4 o4]|] eqn:E4; cbn [mbind option_bind fst snd]; [|done]. intros [= <- _]. rewrite (cif_step_vector _ _ _ _ E4). by apply (cif_of_size syms 3).
Qed.

Lemma frames_processed fs : forall (rx : Receiver) f g m outs,
  rx_state (loop rx) = EVAL_SYNC_SYMBOL -> mScanMode (settings rx) = false -> zlen (mCifVector (mMscHandler rx)) = cCifSizeBits -> Forall frame_symbols fs ->
  in_lock (mSyncOnStrongestPeak (settings rx)) (syncThreshold (loop rx)) (twice (mcThreshold (settings rx))) fs (rx_path rx) ->
  decode_frames (mEtiOn rx) fs (mFicHandler rx) (mpEtiGenerator rx) = Some (f, g) -> cif_steps (flat_map cifs_of fs) (mMscHandler rx) = Some (m, outs) ->
  exists rx', run_passes (2 * length fs) rx = Done rx' () /\ mFicHandler rx' = f /\ mpEtiGenerator rx' = g /\ mEtiOn rx' = mEtiOn rx /\ mMscHandler rx' = m /\
    rx_state (loop rx') = EVAL_SYNC_SYMBOL /\ settings rx' = settings rx /\
    forall k, handed k (log_served (rx_log rx')) = handed k (log_served (rx_log rx)) ++ handed k outs.
Proof.
  induction fs as [|syms fs IH]; intros rx f g m outs Est Hsc Hv Hfs Hlock Hd Hm.
  - cbn [decode_frames] in Hd. cbn [flat_map cif_steps] in Hm. injection Hd as <- <-. injection Hm as <- <-. exists rx. split_and!; try done. intros k. by rewrite app_nil_r.
  - apply Forall_cons_1 in Hfs as [Hs Hfs]. destruct Hlock as (r1 & k & r2 & Hg & Hp & Hk & Hg2 & Hlock).
    destruct (sync_found rx r1 k r2 Est Hg Hp Hk Hg2) as (rx1 & E1 & [S1 S2 [S3 S4] S5 S6] & Ep & Est1 & _).
    destruct (begin_same rx1) as (p & l & Eb & _ & _ & Hab). rewrite Ep in Hab. destruct (Hlock p Hab) as (r4 & r5 & Hl & Hg5 & Hlock').
    cbn [decode_frames] in Hd. destruct (process_fic_symbols _ _ _ _ _ _) as [f1|] eqn:Ef; cbn [mbind option_bind] in Hd; [|done].
    destruct (eti_part _ _ _ _ _) as [g1|] eqn:Eg; cbn [mbind option_bind] in Hd; [|done].
    cbn [flat_map] in Hm. rewrite cif_steps_app in Hm. destruct (cif_steps (cifs_of syms) (mMscHandler rx)) as [[m1 o1]|] eqn:Em; cbn [mbind option_bind fst snd] in Hm; [|done].
    destruct (cif_steps (flat_map cifs_of fs) m1) as [[m2 o2]|] eqn:Em2; cbn [mbind option_bind fst snd] in Hm; [|done]. injection Hm as -> <-.
    pose proof (frame_dispatch rx1 r4 r5 syms Est1 ltac:(by rewrite S5) ltac:(by rewrite S2) ltac:(by rewrite Eb) Hs Hg5) as Hf.
    rewrite S1, S2, S3, S4, S5, S6, Ef, Eg, Em in Hf. destruct Hf as (rx2 & E2 & Han & Hth & Est2 & F5 & _ & F1 & F2 & F3 & F4 & F6).
    destruct (IH rx2 f g m o2) as (rx' & E' & G1 & G2 & G3 & G4 & G5 & G6 & G7).
    + done.
    + by rewrite F5.
    + rewrite F2. by apply (cifs_vector syms (mMscHandler rx) m1 o1).
    + done.
    + rewrite F5, Hth. by apply Hlock'.
    + by rewrite F1, F3, F4.
    + by rewrite F2.
    + exists rx'. cbn [length]. replace (2 * S (length fs))%nat with (S (S (2 * length fs))) by lia. cbn [run_passes]. rewrite E1. cbn [obind]. rewrite E2. cbn [obind].
      split_and!; [done|done|done|by rewrite G3|done|done|by rewrite G6|]. intros q. by rewrite G7, F6, handed_app, app_assoc.
Qed.
End dispatch.

(** ** Services *)
Lemma process_keeps_desc b iV : desc (fst (process b iV)) = desc b.
Proof.
  unfold process, process_segment. destruct (zfor _ _ _ _) as [t rows]. destruct (_ <=? 15); [done|]. by destruct (backend_deconvolve (deconvolver b) t).
Qed.

Lemma Backend_new_desc d b : Backend_new d = Some b -> desc b = d.
Proof. unfold Backend_new. destruct (BackendDeconvolver_new d); [|done]. by intros [= <-]. Qed.

Section services.
Context {R T P E : Type} `{SignalPath R T} `{FrameProcessor P E}.
Context (qt : QtText) (now : Z).

#[export] Instance served_backend : ServiceBackend (Served P) E := {
  backend_desc := fun s => desc (sv_backend s);
  backend_process := serve
}.

#[local] Abbreviation Receiver := (Receiver (R := R) (T := T) (B := Served P) (E := E)).

Definition sub_channel (d : SDescriptorType) (cif : list Z) : list Z := slice cif (dCuStartAddr d * cCUSizeBits) (dCuSize d * cCUSizeBits).

Lemma serve_desc iV s s' ev : serve iV s = Some (s', ev) -> desc (sv_backend s') = desc (sv_backend s).
Proof.
  unfold serve. pose proof (process_keeps_desc (sv_backend s) iV) as Hd. destruct (process (sv_backend s) iV) as [b [outV|]]; cbn [fst] in Hd.
  - destruct (process_frame outV (sv_driver s)) as [r|]; cbn [mbind option_bind]; [|done]. by intros [= <- _].
  - by intros [= <- _].
Qed.

Lemma entry_run_served cifs s fl : entry_run cifs (s, fl) = r ← serve_all (map (sub_channel (desc (sv_backend s))) cifs) s; Some ((fst r, fl), snd r).
Proof.
  revert s. induction cifs as [|c cifs IH]; intros s; [done|]. rewrite entry_run_cons. unfold call_backend. cbn [fst snd backend_desc backend_process served_backend map serve_all].
  fold (sub_channel (desc (sv_backend s)) c). destruct (serve (sub_channel (desc (sv_backend s)) c) s) as [[s1 e1]|] eqn:Es; cbn [mbind option_bind fst snd]; [|done].
  rewrite IH, (serve_desc _ _ _ _ Es). destruct (serve_all _ s1) as [[s2 e2]|]; done.
Qed.

(** The service of a backend, sent as the logical frames [frames] in these CIFs. *)
Definition on_air (cifs : list (list Z)) (e : Served P * EProcessFlag) (frames : list (list Z)) : Prop := exists d,
  servable d /\ dBitRate d <= 32767 /\ Forall (logical_frame d) frames /\ Backend_new d = Some (sv_backend (fst e)) /\
  transmitted d frames (map (sub_channel d) cifs) /\ feed frames (sv_driver (fst e)) <> None.

Lemma on_air_run cifs e frames : on_air cifs e frames -> exists s' ev, entry_run cifs e = Some ((s', snd e), ev) /\ feed frames (sv_driver (fst e)) = Some (sv_driver s', ev).
Proof.
  intros (d & Hd & Hr & Hf & Eb & Ht & Hfd). destruct e as [s fl]. cbn [fst snd] in *. rewrite entry_run_served.
  assert (desc (sv_backend s) = d) as -> by (by apply Backend_new_desc in Eb). destruct (run_transmitted d frames _ Hd Hr Hf Ht) as (b0 & Eb0 & Erun). rewrite Eb in Eb0. injection Eb0 as <-.
  pose proof (serve_all_feed (map (sub_channel d) cifs) s) as Hs. rewrite Erun in Hs. destruct (serve_all _ s) as [[s' ev]|]; cbn [mbind option_bind fst snd] in Hs |- *.
  - exists s', ev. by split.
  - by rewrite <- Hs in Hfd.
Qed.

Lemma entries_run cifs l sent : Forall2 (on_air cifs) l sent -> exists rs, mapM (entry_run cifs) l = Some rs /\
  forall k e frames, l !! k = Some e -> sent !! k = Some frames -> exists s',
    map fst rs !! k = Some (s', snd e) /\ feed frames (sv_driver (fst e)) = Some (sv_driver s', nth k (map snd rs) []).
Proof.
  induction 1 as [|e fr l sent Ha _ (rs & Er & Hrs)]; [by exists []|]. destruct (on_air_run cifs e fr Ha) as (s' & ev & Ee & Ef).
  exists (((s', snd e), ev) :: rs). rewrite mapM_cons, Ee, Er. split; [done|]. intros [|k] e2 fr2; cbn [lookup list_lookup map nth fst snd].
  - intros [= <-] [= <-]. by exists s'.
  - apply Hrs.
Qed.

(** The FIC of a frame, heard with the right signs. *)
Definition heard_fic (syms : list (list Z)) (blocks : Z -> list Z) : Prop := forall k, 0 <= k < 4 ->
  fic_block (blocks k) /\ heard_block (blocks k) (slice (nth 0 syms [] ++ nth 1 syms [] ++ nth 2 syms []) (2304 * k) 2304).

Lemma frame_symbol_size syms i : frame_symbols syms -> (i < 75)%nat -> zlen (nth i syms []) = 3072.
Proof. intros [Hl Hf] Hi. rewrite List.Forall_forall in Hf. apply (Hf (nth i syms [])). apply nth_In. lia. Qed.

Lemma fics_received fs sb f g : Forall2 heard_fic fs sb -> Forall frame_symbols fs -> fic_ok qt f -> fic_clean f -> mIsRunning f = true ->
  exists f', decode_frames qt now false fs f g = Some (f', g) /\ fic_ok qt f' /\ forward qt now (flat_map (fun blocks => sent_fibs blocks 4) sb) (mpFibDecoder f) = Some (mpFibDecoder f').
Proof.
  intros Hh. revert f. induction Hh as [|syms blocks fs sb Hb _ IH]; intros f Hs Hok Hc Hr; [by exists f|]. apply Forall_cons_1 in Hs as [Hs1 Hs].
  destruct (frame_received qt now blocks (nth 0 syms []) (nth 1 syms []) (nth 2 syms []) f Hok Hc Hr) as (f1 & E1 & [K1 K2 K3 K4 _ _]); [apply frame_symbol_size; [done|lia]..|exact Hb|].
  destruct (IH f1 Hs K1 K2 K3) as (f' & E2 & K5 & K6). exists f'. cbn [decode_frames]. rewrite E1. cbn [mbind option_bind]. rewrite eti_part_off. cbn [mbind option_bind].
  split; [exact E2|]. split; [exact K5|]. cbn [flat_map]. rewrite forward_app, K4. exact K6.
Qed.

End services.

(** ** Instances *)
Lemma tape_listen xs : forall i n h rest, Forall (fun x => zlen x = c2K) xs -> zlen xs <= n ->
  listen (length xs) i (mk_tape n (xs ++ rest) h) = Some (mk_tape (n - zlen xs) rest h, xs).
Proof.
  induction xs as [|x xs IH]; intros i n h rest Hf Hn; [cbn [length listen app]; change (zlen []) with 0; by rewrite Z.sub_0_r|].
  apply Forall_cons_1 in Hf as [Hx Hf]. assert (zlen (x :: xs) = zlen xs + 1) as El by (unfold zlen; cbn [length]; lia). pose proof (zlen_nonneg xs). rewrite El in *.
  cbn [length listen get_samples tape_path]. unfold tape_read. cbn [tp_reads tp_symbols tp_heard app]. destruct (Z.ltb_spec 0 n); [|lia]. cbn [mbind option_bind]. cbn [decode_symbol tape_path]. unfold tape_symbol. cbn [tp_symbols tp_reads tp_heard].
  rewrite Hx, Z.eqb_refl, IH by (done || lia). cbn [mbind option_bind fst snd]. by replace (n - 1 - zlen xs) with (n - (zlen xs + 1)) by lia.
Qed.

Lemma tape_after_null r r' : after_null (R := tape) r r' -> r' = r.
Proof. induction 1; done. Qed.

#[local] Opaque tape_correlation find_max_peak.
Lemma tape_in_lock strongest threshold threshold' fs : forall n h rest, find_max_peak strongest threshold tape_correlation = Some 500 ->
  find_max_peak strongest threshold' tape_correlation = Some 500 -> Forall frame_symbols fs -> 80 * zlen fs <= n ->
  in_lock strongest threshold threshold' fs (mk_tape n (concat fs ++ rest) h).
Proof.
  revert threshold. induction fs as [|syms fs IH]; intros threshold n h rest Hp Hp' Hfs Hn; [exact I|]. apply Forall_cons_1 in Hfs as [Hs Hfs].
  assert (zlen (syms :: fs) = zlen fs + 1) as El by (unfold zlen; cbn [length]; lia). pose proof (zlen_nonneg fs). rewrite El in Hn. cbn [concat]. rewrite <- app_assoc. set (tail := concat fs ++ rest).
  assert (forall n, 0 < n -> forall l, tape_read (mk_tape n l h) = Some (mk_tape (n - 1) l h)) as Hread by (intros n' Hn' l; unfold tape_read; cbn [tp_reads]; destruct (Z.ltb_spec 0 n'); [done|lia]).
  exists (mk_tape (n - 1) (syms ++ tail) h), 500, (mk_tape (n - 1 - 1) (syms ++ tail) h).
  split; [apply Hread; lia|]. split; [exact Hp|]. split; [unfold cTu; lia|]. split; [apply Hread; lia|]. intros r3 Hr3.
  assert (r3 = mk_tape (n - 1 - 1) (syms ++ tail) h) as -> by (by destruct Hr3). destruct Hs as [Hl Hz].
  exists (mk_tape (n - 1 - 1 - 75) tail h), (mk_tape (n - 1 - 1 - 75 - 1) tail h). split.
  - rewrite <- Hl. replace (n - 1 - 1 - 75) with (n - 1 - 1 - zlen syms) by (unfold zlen; lia). apply tape_listen; [done|]. unfold zlen. lia.
  - split; [apply Hread; lia|]. intros r6 ->%tape_after_null. apply IH; (assumption || lia).
Qed.
#[local] Transparent tape_correlation find_max_peak.

Lemma tape_found : find_max_peak false (f32_of 3) tape_correlation = Some 500.
Proof. vm_compute. reflexivity. Qed.

Lemma tape_found_twice : find_max_peak false (twice (f32_of 3)) tape_correlation = Some 500.
Proof. vm_compute. reflexivity. Qed.

Lemma frame_symbols_dec fs : forallb (fun syms => (length syms =? 75)%nat && forallb (fun x => zlen x =? c2K) syms) fs = true -> Forall frame_symbols fs.
Proof.
  intros H. rewrite forallb_forall in H. apply List.Forall_forall. intros syms [Hl Hz]%H%andb_true_iff. split; [by apply Nat.eqb_eq|].
  rewrite forallb_forall in Hz. apply List.Forall_forall. intros x Hx%Hz. by apply Z.eqb_eq.
Qed.

(** A transmission without noise, with the soft values computed once. *)
Definition table_soft (n : Z) (table : list (list Z)) (r : Z) : list Z := if (0 <=? r) && (r <? zlen table) then nth (Z.to_nat r) table [] else zeros n.
Definition table_inputs (d : SDescriptorType) (frames : list (list Z)) : list (list Z) :=
  let table := map (fun f => map (fun c => if c =? 1 then 60 else -17) (air_frame d f)) frames in
  map (interleave (table_soft (dCuSize d * 64) table) (dCuSize d * 64)) (seqZ 0 (zlen frames + 16)).

Lemma table_transmitted d frames : 0 <= dCuSize d -> zlen (ones_at 0 (puncturing d)) = dCuSize d * 64 -> transmitted d frames (table_inputs d frames).
Proof.
  intros Hd Hz. set (table := map (fun f => map (fun c => if c =? 1 then 60 else -17) (air_frame d f)) frames).
  assert (zlen table = zlen frames) as Hl by (unfold zlen, table; by rewrite length_map).
  assert (forall r, 0 <= r < zlen frames -> nth (Z.to_nat r) table [] = map (fun c => if c =? 1 then 60 else -17) (air_frame d (nth (Z.to_nat r) frames []))) as Hn.
  { intros r Hr. rewrite (nth_indep table [] (map (fun c => if c =? 1 then 60 else -17) (air_frame d []))) by (unfold zlen in *; lia). unfold table. exact (map_nth (fun f => map (fun c => if c =? 1 then 60 else -17) (air_frame d f)) frames [] (Z.to_nat r)). }
  exists (table_soft (dCuSize d * 64) table). split_and!; [| |reflexivity].
  - intros r. unfold table_soft. destruct (Z.leb_spec 0 r), (Z.ltb_spec r (zlen table)); cbn [andb]; try (apply zlen_zeros; lia).
    rewrite Hn by lia. unfold air_frame. by rewrite !zlen_map.
  - intros r Hr k Hk. unfold table_soft. destruct (Z.leb_spec 0 r), (Z.ltb_spec r (zlen table)); cbn [andb]; try lia. rewrite Hn by lia. rewrite rd_map by done. unfold soft_ok.
    destruct (rd (air_frame d (nth (Z.to_nat r) frames [])) k =? 1); reflexivity.
Qed.

(** Four logical frames of the sample service, in twenty CIFs, five frames. *)
Definition sample_logical : list (list Z) := map sample_frame (seqZ 0 4).
Definition sample_inputs : list (list Z) := table_inputs sample_desc sample_logical.
Definition sample_cif (input : list Z) : list (list Z) :=
  let cif := input ++ zeros (cCifSizeBits - zlen input) in map (fun j => slice cif (3072 * j) 3072) (seqZ 0 18).
Definition sample_fic_symbols : list (list Z) := map (fun j => slice (concat (replicate 4 sample_fic)) (3072 * j) 3072) (seqZ 0 3).
Definition sample_tape : list (list (list Z)) :=
  map (fun f => sample_fic_symbols ++ flat_map sample_cif (slice sample_inputs (4 * f) 4)) (seqZ 0 5).

Definition sample_served : option (Served (frame_processor (D := list (list Z)) (J := Z))) := Served_new sample_packet_service sample_parts.

Lemma sample_tape_ok : Forall frame_symbols sample_tape.
Proof. apply frame_symbols_dec. vm_compute. reflexivity. Qed.

Lemma sample_tape_cifs : map (sub_channel sample_desc) (flat_map cifs_of sample_tape) = sample_inputs.
Proof. vm_compute. reflexivity. Qed.

Lemma sample_logical_ok : Forall (logical_frame sample_desc) sample_logical.
Proof.
  apply List.Forall_forall. intros f (r & <- & _)%in_map_iff. split; [|unfold sample_frame; rewrite zlen_map_seqZ by lia; reflexivity].
  apply Forall_rd_intro. intros i Hi. unfold sample_frame in *. rewrite zlen_map_seqZ in Hi by lia. rewrite rd_map_seqZ by lia. apply Z.mod_pos_bound. lia.
Qed.

Lemma fic_ok_running qt r f : fic_ok qt f -> fic_ok qt (set_running r f).
Proof. intros []. by split. Qed.

#[local] Existing Instance keeping_decoder.
#[local] Existing Instance counting_journaline.
#[local] Abbreviation sample_driver := (frame_processor (D := list (list Z)) (J := Z)).
#[local] Instance sample_processor : FrameProcessor sample_driver (driver_event (EJ := unit)) := driver_processor false true.

Definition sample_data : sample_driver := fp_data (DataProcessor_new 8 60 false 5 (MotDataHandler MotHandler_new)).

(** A receiver of which the service was started: [b] is its backend. *)
Definition sample_receiver (b : Backend) : Receiver (R := tape) (T := unit) (B := Served sample_driver) (E := driver_event (EJ := unit)) :=
  tape_receiver EVAL_SYNC_SYMBOL (mk_tape 500 (concat sample_tape) 0) (set_running true FicDecoder_new) (mkMsc [(mk_served b sample_data, Primary)] (zeros cCifSizeBits)).


